(* ===== verification/_CoqProject ===== *)
-Q . S2P
Prelude.v
Sdk.v
SdkRef.v
Core.v
DodxStaking.v
Market.v
OracleBallot.v
OracleState.v
OracleAbci.v
Treasury.v
Mempool.v
Mfa.v
Vesting.v
GovTally.v
Dyncomm.v
Ante.v
StakingHook.v
WasmKeys.v
WasmMigration.v
LegacyStore.v
Bindings.v
Stargate.v
LegacyMsgs.v
TxLogs.v
AppGenesis.v
Upgrades.v
Export.v
GenesisTools.v
Wiring.v
EqualPower.v
Chain.v
Cli.v
NodeSetup.v
CliQuery.v
Simulation.v
Columns.v
OracleStore.v
TreasuryStore.v
ModuleStores.v
Startup.v
Modules.v
