(* ===== verification/Prelude.v ===== *)
(** * DoChain core: a verification development

    The program is a Cosmos SDK application in Go ([src/]).  A block delivers
    transactions to modules and then runs the modules' end-of-block code; each
    module owns a key-value store and a set of parameters and calls other
    modules through keeper interfaces.  This library models the modules that
    carry the chain's own logic as Rocq functions on explicit states and
    proves what they promise.

    ** How the code is rendered

    - A Go function [(T, error)] is a value of [res T]: [Ok], [Err] with the
      root of the error, or [Panic].  Code that changes state is in the monad
      [M S], which keeps the state when an error is returned, as the stores
      do; [deliver] is the commit or discard of a message.
    - A [math.Int] or [LegacyDec] is the integer the SDK keeps (a decimal
      times [10 ^ 18]).  int64 and uint64 arithmetic is wrapped with [i64] and
      [u64] where the code can reach the edge.
    - A store is a [gmap]; iterators visit it in key order ([kv_iter]); the
      order of [range] over a Go map is a parameter ([MapRange]) of which only
      a permutation is known.
    - The SDK (arithmetic, coins, addresses, bank, staking, distribution) is
      not part of the repository: [Sdk.v] declares it as classes of operations
      with classes of laws, [SdkRef.v] instantiates them, so that every
      witness computes on concrete ledgers.  Events, logs and telemetry are
      left out throughout; encodings matter where stores are modelled as bytes
      ([Columns.v]) and are left out elsewhere.

    ** The files

    - [Prelude.v]: results, the state monad, machine integers, stores, map
      iteration, tactics ([res_inv], [m_inv], [m_bind], [zbool]).
    - [Sdk.v], [SdkRef.v]: the SDK interfaces and reference instances.
    - [Core.v]: [types/] and [custom/upgrade/legacy]: denominations, periods,
      heights.
    - [DodxStaking.v]: [x/dodxstaking]: stake, unstake, governance switch,
      genesis, queries.  Every stake is backed by the module account in every
      reachable state; what a withdrawal pays; refusals; round trips.
    - [Market.v]: [x/market]: swaps against a virtual pool.  What a swap
      burns, mints and pays; queries agree with execution; the spread floor;
      the pool delta after a swap and its convergence, or divergence when the
      recovery period does not fit an int64.
    - [OracleBallot.v]: [x/oracle/types/ballot.go], [tally.go]: weighted
      median, standard deviation, tally, reference denomination.  The median
      splits the voting power; independence of ties and of map order; who is
      credited.
    - [OracleState.v]: the oracle's store, messages, vote format, queries and
      genesis.  A vote opens the committed prevote of the previous period and
      only once; an honest reveal is accepted; genesis round trip.
    - [OracleAbci.v]: the oracle's end of block.  The result of a vote period
      does not depend on map order; rewards fit the pool; slashing and jailing
      across the fork; miss counters; a ballot that makes the block panic.
    - [Treasury.v]: [x/treasury]: tax and reward policies, indicators, epochs,
      seigniorage, burn account, proposals, migrations, genesis.  Rates stay
      within their policy and move one step per epoch over all reachable
      states; windows are means; bookkeeping; conservation.
    - [Mempool.v]: [app/mempool], [app/helper]: refinement of two FIFO queues,
      the leak of duplicates, and capacity under all interleavings the read
      lock allows.
    - [Mfa.v]: [x/mfa]: approvals and recovery.  The protected messages of an
      account with a policy need an approval, other messages do not; without
      one a policy cannot change within 72 hours, over every sequence of
      transactions.
    - [Vesting.v]: [x/vesting/types]: schedules and accounts that vest by
      denomination.  Vested and vesting coins partition the grant and only
      grow; an accepted account that panics.
    - [GovTally.v]: [app/keepers/gov_tally.go]: the tallies before the fork,
      with capped voting power after it, and by DODx stakes once DODx
      governance is on.  The cap, totals within the stakes, independence of
      map order.
    - [Dyncomm.v]: [x/dyncomm]: the minimum commission by voting power, the
      weekly update, the decorator on edits (nested in authorisations and
      interchain packets) and the edits that get around it, genesis.
    - [Ante.v]: [custom/auth/ante]: the chain of fee, spam, memo, deposit and
      transfer decorators in the order the application builds it.  What a
      passing transaction pays, what a refused one does not, how many free
      oracle messages a height admits.
    - [StakingHook.v]: [custom/staking]: the hook that limits a validator to a
      fifth of the bonded power.
    - [WasmKeys.v]: byte strings, byte-ordered stores and iterators, and the
      keys of the old and the new layout of the wasm store.
    - [WasmMigration.v]: [app/upgrades/v13]: the in-place upgrade refines a
      renaming of the old keys that loses no entry.
    - [LegacyStore.v]: [custom/wasm/legacy_store.go] and the queries at old
      heights: reads and contract scans through the legacy store agree with
      the upgraded store; an iteration ends and shows what the entries mean;
      the scans that come back empty.
    - [Bindings.v]: [wasmbinding] and [custom/wasm/keeper/handler_plugin.go]:
      messages and queries of contracts, read as the decoder of Go reads them.  A contract pays its own swaps, at
      the price quoted to it; which signers are checked and which are not.
    - [Stargate.v]: the whitelisted gRPC queries of contracts and what happens
      when two of them run at the same time.
    - [LegacyMsgs.v]: [custom/wasm/types/legacy/msgs.go]: the messages of the
      old wasm module, their signers and their validation.
    - [TxLogs.v]: [server]: the middleware that rebuilds transaction logs from
      events.
    - [AppGenesis.v]: [app/genesis.go]: the default genesis starts closed, and
      hardening it twice is hardening it once; bank metadata.
    - [Upgrades.v]: [app/forks.go], [app/upgrades] and the upgrade part of
      [app/app.go]: what the community fork and every upgrade handler do to the
      states of the modules, the manual plan for version 16, and why that
      upgrade leaves DODx governance off.
    - [Export.v]: [app/export.go]: the state prepared for height zero, and the
      commissions it forgets.
    - [GenesisTools.v]: [cmd/dochaind/genaccounts.go], [app/legacy]: adding an
      account to a genesis file, migrating an old one, replacing consensus keys.

    - [Wiring.v]: [app/modules.go], [app/keepers], the modules' registration:
      keepers are built after what they need, module orders are complete,
      module accounts and their permissions, which services are registered.
    - [EqualPower.v]: [custom/staking/module.go]: validators with equal power,
      block after block.
    - [Chain.v]: all modules on one ledger, delivery of transactions and the
      blocks of [app/app.go].  The DODx module sees only its own steps, so
      stakes stay backed and can be withdrawn; the market never runs.
    - [Cli.v], [CliQuery.v]: the transaction and query commands of the modules
      ([client/cli]) up to the message that is signed and the answer that is
      shown; estimated fees; pages of exempt addresses; commands without a
      service.
    - [NodeSetup.v]: [cmd/dochaind]: init, gentx, testnet, configurations.
    - [Simulation.v]: [x/*/simulation], [custom/bank/simulation]: random genesis
      states and operations.  Commitments stay in step with the chain, a
      multi-send is balanced; the genesis states that do not validate.
    - [Columns.v], [OracleStore.v], [TreasuryStore.v], [ModuleStores.v]: the
      states of oracle, treasury, DODx staking, market and dyncomm on the bytes
      of their stores ([types/keys.go], [keeper], [simulation/decoder.go]).
      Every program of a keeper has the same results on the bytes as on the
      maps the other files use, so those maps lose nothing of the layout.
    - [Startup.v]: [NewDoApp] and the options of a node: a node whose parts can
      be built starts with every handler, order, store and upgrade handler in
      place before its stores are loaded; what is written after loading waits
      in the working store for the next commit.
    - [Modules.v]: [x/*/module.go]: what the module manager calls with the text
      of a genesis file.  Which texts that validation accepts start the module
      and on which of them the start of the chain panics; what DODx staking
      exports restores it.

    [Market.OracleKeeper], [Treasury.TreasuryKeepers], [GovTally.StakeView],
    [Ante.AnteEnv] and [Bindings.TreasuryView] are the interfaces between
    modules; the client's theorems use their laws and the models of the called
    modules provide the instances ([OracleState.market_oracle],
    [Treasury.treasury_keepers], [Ante.modules_env]).  [WasmKeys.KeyLib] with
    its laws [KeyLaws] stands for the key builders of the wasm library,
    [Upgrades.ParamStore], [Export.DistrKeeper] and [GenesisTools.GenesisLib]
    for the stores and helpers of the SDK that the application calls;
    [Cli.Command] and [CliQuery.QueryClient] for the flags and connections of a
    command, [Simulation.SimLib] and [Simulation.SimApp] for the simulation of
    the SDK, [Columns.codec] and [Modules.JSONCodec] for the encodings of
    values and of genesis states, with the law that they read back what they
    wrote.

    ** Loops and fuel

    Recursion is structural except where noted.  [OracleState.TrimSpace]
    recurses on the length of the text, [Treasury.indicator_loop] on the
    number of epochs left, [Mempool.drain] on a bound on the remaining keys;
    the theorems about them state the result outright, so the bounds are
    enough.  A loop over a legacy iterator ([LegacyStore.read_all]) has fuel
    for its rounds, and [legacy_iteration_ends] shows that one round more than
    the store has entries is enough, and which entries were shown.  The loop
    that drops empty outputs of a simulated multi-send ([Simulation.drop_empty])
    has one round per output, which [empty_outputs_dropped] shows to be enough;
    the draw of another recipient ([Simulation.other_account]) has no bound in
    the code, and [lonely_send_never_ends] shows that no fuel is enough when
    all accounts have one key.

    ** What is not modelled

    Generated code (protocol buffers and gateways), the tree of commands and
    the texts of help, wrappers of SDK modules that only register codecs
    ([custom/bank], [custom/distribution], [custom/authz], [custom/params]),
    the texts of parameter changes of the simulation, test helpers, the
    end-to-end tests and the vendored wasm module ([third_party/wasmd], whose
    store layout is modelled where the upgrade needs it) are outside the
    library: they call the parts above or the SDK and keep no state of their
    own. *)
From stdpp Require Import base gmap sets list strings fin_maps sorting.
From Stdlib Require Import ZArith Lia.

#[local] Open Scope Z_scope.

(** ** Errors, panics and results

    A Go function of type [(T, error)] returns a value or an error, and any
    Go code may panic.  Errors are kept by their root: wrapping only adds
    text.  [Registered] are the errors of [errorsmod.Register], [SdkError]
    the named ones of [sdkerrors], [Plain] those of [fmt.Errorf] and
    [errors.New], [Foreign] those that come out of a parameter of the model. *)
Inductive error : Type :=
| Registered (codespace : string) (code : Z)
| SdkError (name : string)
| Plain (msg : string)
| Foreign (what : string).

Inductive res (A : Type) : Type :=
| Ok (a : A)
| Err (e : error)
| Panic.
Arguments Ok {A} a.
Arguments Err {A} e.
Arguments Panic {A}.

#[export] Instance error_eq_dec : EqDecision error.
Proof. solve_decision. Defined.

#[export] Instance res_eq_dec {A} `{EqDecision A} : EqDecision (res A).
Proof. solve_decision. Defined.

#[export] Instance res_ret : MRet res := fun A a => Ok a.
#[export] Instance res_bind : MBind res := fun A B k m =>
  match m with Ok a => k a | Err e => Err e | Panic => Panic end.
#[export] Instance res_fmap : FMap res := fun A B f m =>
  match m with Ok a => Ok (f a) | Err e => Err e | Panic => Panic end.

Definition is_ok {A} (r : res A) : bool :=
  match r with Ok _ => true | _ => false end.

(** ** Stateful code: a state is threaded through, and is kept when the code
    returns an error or panics, as Go's stores and maps are. *)
Definition M (S A : Type) : Type := S -> res A * S.

#[export] Instance M_ret {S} : MRet (M S) := fun A a s => (Ok a, s).
#[export] Instance M_bind {S} : MBind (M S) := fun A B k m s =>
  match m s with
  | (Ok a, s') => k a s'
  | (Err e, s') => (Err e, s')
  | (Panic, s') => (Panic, s')
  end.

Definition lift {S A} (r : res A) : M S A := fun s => (r, s).
Definition get {S} : M S S := fun s => (Ok s, s).
Definition gets {S A} (f : S -> A) : M S A := fun s => (Ok (f s), s).
Definition modify {S} (f : S -> S) : M S unit := fun s => (Ok tt, f s).
Definition throw {S A} (e : error) : M S A := fun s => (Err e, s).
Definition panic {S A} : M S A := fun s => (Panic, s).

(** [x, err := parse(s); if err != nil { panic(err) }] *)
Definition must {S A} (r : res A) : M S A := fun s =>
  match r with Ok a => (Ok a, s) | _ => (Panic, s) end.

(** A call of another component on the part of the state it owns. *)
Definition call_on {S B A} (sel : S -> B) (upd : B -> S -> S) (f : B -> res (A * B)) : M S A :=
  fun s => match f (sel s) with
           | Ok (a, b) => (Ok a, upd b s)
           | Err e => (Err e, s)
           | Panic => (Panic, s)
           end.

(** A message runs on a branch of the store that is written back only when
    the handler returns no error. *)
Definition deliver {S A} (m : M S A) (s : S) : S :=
  match m s with (Ok _, s') => s' | _ => s end.

(** [for _, x := range xs { body x }]: stops at the first error or panic. *)
Fixpoint forM {S A} (body : A -> M S unit) (xs : list A) : M S unit :=
  match xs with
  | [] => mret tt
  | x :: xs => body x ;; forM body xs
  end.

(** The same loop over an accumulator, for code without a store. *)
Fixpoint foldRes {A B} (f : B -> A -> res B) (b : B) (xs : list A) : res B :=
  match xs with
  | [] => Ok b
  | x :: xs => b' ← f b x; foldRes f b' xs
  end.

(** ** Machine integers *)
Definition u64 (z : Z) : Z := z mod 2 ^ 64.
Definition i64 (z : Z) : Z := (z + 2 ^ 63) mod 2 ^ 64 - 2 ^ 63.
Definition is_u64 (z : Z) : Prop := 0 <= z < 2 ^ 64.
Definition is_i64 (z : Z) : Prop := - 2 ^ 63 <= z < 2 ^ 63.

(** The number of bits of the absolute value, Go's [big.Int.BitLen]. *)
Definition bit_len (z : Z) : Z := if z =? 0 then 0 else Z.log2 (Z.abs z) + 1.

(** The quotient of integers, rounded to the nearest, ties to even. *)
Definition round_half_even (a d : Z) : Z :=
  let q := a / d in
  let r := a mod d in
  if 2 * r <? d then q
  else if d <? 2 * r then q + 1
  else if Z.even q then q else q + 1.

(** ** Map iteration

    [for k, v := range m] over a Go map visits the entries in an order the
    language leaves open; [map_range] is that order, a parameter of the code
    that iterates, and only a permutation of the entries is known of it. *)
Class MapRange : Type := map_range : forall {A : Type}, gmap string A -> list (string * A).
Class MapRangeLaws `{MapRange} : Prop :=
  map_range_perm : forall {A} (m : gmap string A), map_range m ≡ₚ map_to_list m.

(** ** The execution context *)
Record Ctx : Type := mkCtx {
  BlockHeight : Z;
  BlockTime : Z;
  ChainID : string;
  IsCheckTx : bool;
  IsReCheckTx : bool;
}.

(** ** Automation

    [res_inv] takes apart a hypothesis [m = Ok v] built with the monad
    notations; [m_inv] does the same for a stateful run [m s = (Ok v, s')]. *)
Lemma res_bind_ok {A B} (m : res A) (k : A -> res B) b :
  (m ≫= k) = Ok b -> exists a, m = Ok a /\ k a = Ok b.
Proof. destruct m; simpl; intros; try discriminate; eauto. Qed.

Lemma res_mapM_ok {A B} (f : A -> res B) l cs : mapM f l = Ok cs -> Forall2 (fun x y => f x = Ok y) l cs.
Proof.
  revert cs. induction l as [|x l IH]; intros cs E; cbn in E; [injection E as <-; constructor|].
  apply res_bind_ok in E as (y & Ey & E). apply res_bind_ok in E as (ys & Eys & E). injection E as <-.
  constructor; auto.
Qed.

Lemma foldRes_append {A B} (f : A -> res B) l : forall acc r,
  foldRes (fun acc x => y ← f x; Ok (acc ++ [y])) acc l = Ok r -> exists ys, mapM f l = Ok ys /\ r = acc ++ ys.
Proof.
  induction l as [|x l IH]; intros acc r E; cbn in E.
  - injection E as <-. exists []. by rewrite app_nil_r.
  - apply res_bind_ok in E as (acc' & E1 & E). apply res_bind_ok in E1 as (y & Ey & E1). injection E1 as <-.
    apply IH in E as (ys & Eys & ->). exists (y :: ys). cbn. rewrite Ey. cbn. rewrite Eys. cbn.
    by rewrite <- app_assoc.
Qed.

Lemma M_bind_ok {S A B} (m : M S A) (k : A -> M S B) s b s' :
  (m ≫= k) s = (Ok b, s') ->
  exists a s1, m s = (Ok a, s1) /\ k a s1 = (Ok b, s').
Proof.
  unfold mbind, M_bind. destruct (m s) as [[a|e|] s1] eqn:E; intros H;
    try discriminate; eauto.
Qed.

Lemma M_bind_run {S A B} (m : M S A) (k : A -> M S B) s a s1 :
  m s = (Ok a, s1) -> (m ≫= k) s = k a s1.
Proof. unfold mbind, M_bind. by intros ->. Qed.

Lemma M_bind_err {S A B} (m : M S A) (k : A -> M S B) s e s1 :
  m s = (Err e, s1) -> (m ≫= k) s = (Err e, s1).
Proof. unfold mbind, M_bind. by intros ->. Qed.

Lemma M_bind_panic {S A B} (m : M S A) (k : A -> M S B) s s1 :
  m s = (Panic, s1) -> (m ≫= k) s = (Panic, s1).
Proof. unfold mbind, M_bind. by intros ->. Qed.

Lemma is_ok_ex {A} (r : res A) : is_ok r = true -> exists a, r = Ok a.
Proof. destruct r; [eauto|done|done]. Qed.

Lemma run_eq {S A} (m : M S A) s r : (m s).1 = r -> m s = (r, (m s).2).
Proof. destruct (m s). simpl. by intros ->. Qed.

Lemma deliver_ind {S A} (P : S -> Prop) (m : M S A) s :
  P s -> (forall a s', m s = (Ok a, s') -> P s') -> P (deliver m s).
Proof. unfold deliver. destruct (m s) as [[]] eqn:E; eauto. Qed.

Lemma lift_ok {S A} (r : res A) (s : S) a s' :
  lift r s = (Ok a, s') -> r = Ok a /\ s' = s.
Proof. unfold lift. intros; by simplify_eq. Qed.

Lemma must_ok {S A} (r : res A) (s : S) a s' :
  must r s = (Ok a, s') -> r = Ok a /\ s' = s.
Proof. unfold must. destruct r; intros; by simplify_eq. Qed.

Lemma call_on_ok {S B A} (sel : S -> B) upd (f : B -> res (A * B)) s a s' :
  call_on sel upd f s = (Ok a, s') -> exists b, f (sel s) = Ok (a, b) /\ s' = upd b s.
Proof. unfold call_on. destruct (f (sel s)) as [[]| |]; intros; simplify_eq. eauto. Qed.

Ltac res_inv H :=
  lazymatch type of H with
  | (_ ≫= _) = Ok _ =>
      let a := fresh "v" in let E := fresh "E" in
      apply res_bind_ok in H as (a & E & H); res_inv E; res_inv H
  | mret _ = Ok _ => unfold mret, res_ret in H; res_inv H
  | (if ?b then _ else _) = Ok _ =>
      let E := fresh "C" in destruct b eqn:E; try discriminate H; res_inv H
  | match ?x with _ => _ end = Ok _ =>
      let E := fresh "C" in destruct x eqn:E; try discriminate H; res_inv H
  | Err _ = Ok _ => discriminate H
  | Panic = Ok _ => discriminate H
  | Ok _ = Ok _ => first [injection H; clear H; intros; simplify_eq | clear H]
  | _ => idtac
  end.

Ltac inj_pair H := first [injection H; clear H; intros; subst | clear H].

Ltac m_inv H :=
  lazymatch type of H with
  | (_ ≫= _) _ = (Ok _, _) =>
      let a := fresh "v" in let s := fresh "s" in let E := fresh "E" in
      apply M_bind_ok in H as (a & s & E & H); m_inv E; m_inv H
  | lift _ _ = (Ok _, _) =>
      let E := fresh "L" in apply lift_ok in H as [E H]; subst
  | (if ?b then _ else _) _ = (Ok _, _) =>
      let E := fresh "C" in destruct b eqn:E; m_inv H
  | (match ?x with _ => _ end) _ = (Ok _, _) =>
      let E := fresh "C" in destruct x eqn:E; m_inv H
  | throw _ _ = (Ok _, _) => unfold throw in H; discriminate H
  | panic _ = (Ok _, _) => unfold panic in H; discriminate H
  | mret _ _ = (Ok _, _) => unfold mret, M_ret in H; inj_pair H
  | get _ = (Ok _, _) => unfold get in H; inj_pair H
  | gets _ _ = (Ok _, _) => unfold gets in H; inj_pair H
  | modify _ _ = (Ok _, _) => unfold modify in H; inj_pair H
  | _ => idtac
  end.

(** One statement of a run at a time: [m_bind] names its result and run,
    [m_lift] does so for a pure computation. *)
Tactic Notation "m_bind" hyp(H) "as" simple_intropattern(p) ident(E) :=
  apply M_bind_ok in H as (p & ? & E & H).
Tactic Notation "m_lift" hyp(H) "as" simple_intropattern(p) ident(E) :=
  apply M_bind_ok in H as (p & ? & E & H); apply lift_ok in E as [E ->].

(** Boolean comparisons of the code, turned into propositions. *)
Ltac zbool :=
  repeat match goal with
  | H : (_ =? _) = true |- _ => apply Z.eqb_eq in H
  | H : (_ =? _) = false |- _ => apply Z.eqb_neq in H
  | H : (_ <=? _) = true |- _ => apply Z.leb_le in H
  | H : (_ <=? _) = false |- _ => apply Z.leb_gt in H
  | H : (_ <? _) = true |- _ => apply Z.ltb_lt in H
  | H : (_ <? _) = false |- _ => apply Z.ltb_ge in H
  | H : negb _ = true |- _ => apply negb_true_iff in H
  | H : negb _ = false |- _ => apply negb_false_iff in H
  | H : _ && _ = true |- _ => apply andb_true_iff in H as [? ?]
  | H : _ || _ = false |- _ => apply orb_false_iff in H as [? ?]
  | H : String.eqb _ _ = true |- _ => apply String.eqb_eq in H
  | H : String.eqb _ _ = false |- _ => apply String.eqb_neq in H
  end.

(** ** Stores

    A key-value store is a finite map; [kv_iter] visits it as the store's
    iterators do, in ascending order of the key bytes. *)
Definition key_le {A} (x y : string * A) : Prop := String.leb x.1 y.1 = true.

#[export] Instance key_le_dec {A} : RelDecision (@key_le A).
Proof. intros x y. unfold key_le. apply _. Defined.

Definition kv_iter {A} (m : gmap string A) : list (string * A) :=
  merge_sort key_le (map_to_list m).

Lemma kv_iter_perm {A} (m : gmap string A) : kv_iter m ≡ₚ map_to_list m.
Proof. apply merge_sort_Permutation. Qed.

Lemma elem_of_kv_iter {A} (m : gmap string A) k v : (k, v) ∈ kv_iter m <-> m !! k = Some v.
Proof. by rewrite kv_iter_perm, elem_of_map_to_list. Qed.

Lemma kv_iter_nodup {A} (m : gmap string A) : NoDup (kv_iter m).*1.
Proof. rewrite kv_iter_perm. apply NoDup_fst_map_to_list. Qed.

(** Building a map back from what an iteration returned. *)
Lemma kv_iter_rebuild {A} (m : gmap string A) :
  foldl (fun acc kv => <[kv.1 := kv.2]> acc) ∅ (kv_iter m) = m.
Proof.
  assert (forall (l : list (string * A)) (acc : gmap string A), NoDup l.*1 ->
    foldl (fun acc kv => <[kv.1 := kv.2]> acc) acc l = list_to_map l ∪ acc) as H.
  { induction l as [|[k v] l IH]; simpl; intros acc Hn; [by rewrite (left_id_L ∅ _)|].
    apply NoDup_cons in Hn as [Hk Hn]. rewrite IH by done.
    rewrite <- insert_union_l, <- insert_union_r by by apply not_elem_of_list_to_map_1. done. }
  rewrite H by apply kv_iter_nodup. rewrite (right_id_L ∅ _).
  rewrite (list_to_map_proper _ (map_to_list m));
    [apply list_to_map_to_list|apply kv_iter_nodup|apply kv_iter_perm].
Qed.

(** What every round of a loop keeps, the loop keeps. *)
Lemma forM_frame {S A T} (f : S -> T) (body : A -> M S unit) xs s u s' :
  (forall x s u s', body x s = (Ok u, s') -> f s' = f s) ->
  forM body xs s = (Ok u, s') -> f s' = f s.
Proof.
  intros Hb. revert s. induction xs as [|x xs IH]; simpl; intros s E; [by injection E as _ <-|].
  apply M_bind_ok in E as (v & s1 & E1 & E2). rewrite (IH _ E2). by eapply Hb.
Qed.

(** ** Runs that stay within a preorder of states *)
Section keeps.
Context {S : Type} (R : S -> S -> Prop) `{!PreOrder R}.

Definition keeps {A} (m : M S A) : Prop := forall s a s', m s = (Ok a, s') -> R s s'.

Lemma keeps_bind {A B} (m : M S A) (k : A -> M S B) : keeps m -> (forall a, keeps (k a)) -> keeps (m ≫= k).
Proof. intros Hm Hk s b s' (a & s1 & E1 & E2)%M_bind_ok. etrans; [by eapply Hm|by eapply Hk]. Qed.
Lemma keeps_ret {A} (a : A) : keeps (mret a).
Proof. by intros s b s' [= <- <-]. Qed.
Lemma keeps_lift {A} (r : res A) : keeps (lift r).
Proof. by intros s b s' [_ ->]%lift_ok. Qed.
Lemma keeps_must {A} (r : res A) : keeps (must r).
Proof. by intros s b s' [_ ->]%must_ok. Qed.
Lemma keeps_get : keeps get.
Proof. by intros s b s' [= <- <-]. Qed.
Lemma keeps_gets {A} (f : S -> A) : keeps (gets f).
Proof. by intros s b s' [= <- <-]. Qed.
Lemma keeps_throw {A} e : keeps (throw e : M S A).
Proof. done. Qed.
Lemma keeps_panic {A} : keeps (panic : M S A).
Proof. done. Qed.
Lemma keeps_modify (f : S -> S) : (forall s, R s (f s)) -> keeps (modify f).
Proof. intros Hf s b s' [= _ <-]. apply Hf. Qed.
Lemma keeps_forM_in {A} (body : A -> M S unit) xs :
  (forall x, x ∈ xs -> keeps (body x)) -> keeps (forM body xs).
Proof.
  induction xs as [|x xs IH]; simpl; intros Hb; [apply keeps_ret|].
  apply keeps_bind; [apply Hb; set_solver|]. intros _. apply IH. set_solver.
Qed.
Lemma keeps_forM {A} (body : A -> M S unit) xs : (forall x, keeps (body x)) -> keeps (forM body xs).
Proof. intros Hb. by apply keeps_forM_in. Qed.
Lemma keeps_deliver {A} (m : M S A) s : keeps m -> R s (deliver m s).
Proof. intros Hm. unfold deliver. destruct (m s) as [[a|e|] s'] eqn:E; [by eapply Hm|done..]. Qed.
End keeps.

Create HintDb keeps.
#[export] Hint Resolve keeps_ret keeps_lift keeps_must keeps_get keeps_gets keeps_throw keeps_panic : keeps.

(** [keeps] follows the structure of a program; what is left are the steps
    that write. *)
Ltac keeps :=
  cbv beta;
  repeat lazymatch goal with
  | |- keeps _ (_ ≫= _) => apply keeps_bind; [typeclasses eauto| |intros ?]
  | |- keeps _ (forM _ _) => apply keeps_forM; [typeclasses eauto|intros ?; cbv beta]
  | |- keeps _ (if ?b then _ else _) => destruct b
  | |- keeps _ (match ?x with _ => _ end) => destruct x
  | |- keeps _ (modify _) => apply keeps_modify; intros ?
  | |- _ => solve [eauto with keeps typeclass_instances]
  end.

(** A loop of writes that cannot fail. *)
Lemma forM_modify {S A} (body : A -> M S unit) (g : A -> S -> S) xs s :
  (forall x s, body x s = (Ok tt, g x s)) -> forM body xs s = (Ok tt, foldl (fun s x => g x s) s xs).
Proof.
  intros Hb. revert s. induction xs as [|x xs IH]; simpl; intros s; [done|].
  erewrite M_bind_run by apply Hb. apply IH.
Qed.

(** Loops over a snapshot of a map that rewrite or delete every entry. *)
Lemma kv_iter_rewrite {A} (f : string -> A -> A) (m : gmap string A) :
  foldl (fun m kv => <[kv.1 := f kv.1 kv.2]> m) m (kv_iter m) = map_imap (fun k v => Some (f k v)) m.
Proof.
  assert (forall (l : list (string * A)) (acc : gmap string A), NoDup l.*1 -> forall k,
    foldl (fun m kv => <[kv.1 := f kv.1 kv.2]> m) acc l !! k =
      match (list_to_map l : gmap string A) !! k with Some v => Some (f k v) | None => acc !! k end) as H.
  { induction l as [|[k0 v0] l IH]; intros acc Hn k; simpl; [by rewrite lookup_empty|].
    apply NoDup_cons in Hn as [Hk Hn]. rewrite IH by done. destruct (decide (k = k0)) as [->|Hne].
    - rewrite lookup_insert_eq. rewrite not_elem_of_list_to_map_1 by done. by rewrite lookup_insert_eq.
    - by rewrite !lookup_insert_ne. }
  apply map_eq. intros k. rewrite H by apply kv_iter_nodup.
  rewrite (list_to_map_proper _ (map_to_list m)) by (apply kv_iter_nodup || apply kv_iter_perm).
  rewrite list_to_map_to_list, map_lookup_imap. by destruct (m !! k) eqn:E.
Qed.

Lemma kv_iter_delete {A} (m : gmap string A) :
  foldl (fun m kv => delete kv.1 m) m (kv_iter m) = ∅.
Proof.
  assert (forall (l : list (string * A)) (acc : gmap string A) k,
    foldl (fun m kv => delete kv.1 m) acc l !! k = if decide (k ∈ l.*1) then None else acc !! k) as H.
  { induction l as [|[k0 v0] l IH]; intros acc k; [done|]. cbn [foldl fst]. rewrite IH, fmap_cons.
    cbn [fst]. destruct (decide (k = k0)) as [->|Hne].
    - rewrite lookup_delete_eq, (decide_True (P := k0 ∈ k0 :: l.*1)) by apply list_elem_of_here.
      by case_decide.
    - rewrite lookup_delete_ne by done. case_decide as Hl.
      + by rewrite decide_True by by apply list_elem_of_further.
      + by rewrite decide_False by by rewrite elem_of_cons; intros [?|?]. }
  apply map_eq. intros k. rewrite H, lookup_empty. case_decide as Hk; [done|].
  destruct (m !! k) as [v|] eqn:E; [|done]. destruct Hk. apply elem_of_kv_iter in E.
  by apply (list_elem_of_fmap_2 fst) in E.
Qed.

(** A loop that writes back the entries an iteration returned, through an
    update [upd] of one part of the state. *)
Lemma forM_restore {S A V} (upd : (gmap string V -> gmap string V) -> S -> S)
    (body : A -> M S unit) (h : string * V -> A) (m : gmap string V) s :
  (forall f g s, upd f (upd g s) = upd (fun x => f (g x)) s) ->
  (forall s, upd (fun x => x) s = s) ->
  (forall k v s, m !! k = Some v -> body (h (k, v)) s = (Ok tt, upd (<[k := v]>) s)) ->
  forM body (map h (kv_iter m)) s =
    (Ok tt, upd (fun x => foldl (fun acc kv => <[kv.1 := kv.2]> acc) x (kv_iter m)) s).
Proof.
  intros Hcomp Hid Hbody.
  assert (forall l s, (forall k v, (k, v) ∈ l -> m !! k = Some v) ->
    forM body (map h l) s =
      (Ok tt, upd (fun x => foldl (fun acc kv => <[kv.1 := kv.2]> acc) x l) s)) as H.
  { induction l as [|[k v] l IH]; intros s0 Hl; simpl; [by rewrite Hid|].
    rewrite (M_bind_run _ _ _ tt (upd (<[k := v]>) s0)) by (apply Hbody, Hl; left).
    rewrite IH by (intros; apply Hl; by right). by rewrite Hcomp. }
  apply H. intros k v. apply elem_of_kv_iter.
Qed.

(** The sum of the values of a map. *)
Definition map_sum {K} `{Countable K} (m : gmap K Z) : Z := map_fold (fun _ v acc => v + acc) 0 m.

Section map_sum.
Context {K : Type} `{Countable K}.
Implicit Types m : gmap K Z.

Lemma map_sum_empty : map_sum (∅ : gmap K Z) = 0.
Proof. apply map_fold_empty. Qed.

Lemma map_sum_insert_new m k v : m !! k = None -> map_sum (<[k := v]> m) = v + map_sum m.
Proof. intros. unfold map_sum. rewrite map_fold_insert_L; [done|intros; lia|done]. Qed.

Lemma map_sum_delete m k : map_sum (delete k m) = map_sum m - default 0 (m !! k).
Proof.
  destruct (m !! k) as [v|] eqn:E; simpl.
  - rewrite <- (insert_delete_id m k v E) at 2.
    rewrite map_sum_insert_new by apply lookup_delete_eq. lia.
  - rewrite delete_id by done. lia.
Qed.

Lemma map_sum_insert m k v : map_sum (<[k := v]> m) = map_sum m - default 0 (m !! k) + v.
Proof.
  rewrite <- insert_delete_eq. rewrite map_sum_insert_new by apply lookup_delete_eq.
  rewrite map_sum_delete. lia.
Qed.

Lemma map_sum_nonneg m : map_Forall (fun _ v => 0 <= v) m -> 0 <= map_sum m.
Proof.
  induction m as [|k v m Hk IH] using map_ind; [by rewrite map_sum_empty|].
  intros Hall. rewrite map_sum_insert_new by done.
  apply map_Forall_insert in Hall as [? ?]; [|done]. specialize (IH ltac:(done)). lia.
Qed.

Lemma map_sum_lookup m k : map_Forall (fun _ v => 0 <= v) m -> default 0 (m !! k) <= map_sum m.
Proof.
  intros Hm. pose proof (map_sum_delete m k).
  pose proof (map_sum_nonneg (delete k m) (map_Forall_delete _ _ _ Hm)). lia.
Qed.

(** Distinct keys never add up to more than the whole map. *)
Lemma map_sum_keys m l : map_Forall (fun _ v => 0 <= v) m -> NoDup l ->
  foldr (fun k acc => default 0 (m !! k) + acc) 0 l <= map_sum m.
Proof.
  intros Hm Hl. revert m Hm. induction Hl as [|k l Hk _ IH]; intros m Hm; simpl.
  - by apply map_sum_nonneg.
  - specialize (IH (delete k m) (map_Forall_delete _ _ _ Hm)). rewrite map_sum_delete in IH.
    enough (foldr (fun k acc => default 0 (m !! k) + acc) 0 l
      = foldr (fun k' acc => default 0 (delete k m !! k') + acc) 0 l) by lia.
    clear IH. induction l as [|k' l IH]; [done|]. apply not_elem_of_cons in Hk as [? ?].
    simpl. rewrite lookup_delete_ne by done. by rewrite IH.
Qed.
End map_sum.

(** A position in a sum of list elements. *)
Definition Zsum (l : list Z) : Z := foldr Z.add 0 l.

Lemma Zsum_app l k : Zsum (l ++ k) = Zsum l + Zsum k.
Proof. unfold Zsum. induction l; simpl; lia. Qed.

#[export] Instance Zsum_perm : Proper ((≡ₚ) ==> (=)) Zsum.
Proof. unfold Zsum. induction 1; simpl; lia. Qed.

Lemma map_sum_list m : map_sum m = Zsum (map snd (kv_iter m)).
Proof.
  rewrite kv_iter_perm. unfold map_sum, Zsum. rewrite map_fold_foldr.
  induction (map_to_list m) as [|[k v] l IH]; simpl; [done|]. by rewrite IH.
Qed.
