(* ===== verification/Sdk.v ===== *)
(** * The Cosmos SDK as the code uses it

    The modules under [src/x] call packages that are not part of the
    repository: [cosmossdk.io/math] (Int, LegacyDec), the coin types of
    [cosmos-sdk/types], the Bech32 address codec and the bank keeper.  They
    are parameters of the model.  Each package is a class of operations
    ([MathOps], [CoinOps], [AddrCodec], [BankOps]) and a class of laws
    ([MathLaws], ...) that states the documented behaviour the proofs rely
    on.  The definitions of the components take the operations as arguments;
    the theorems take the laws.  [SdkRef.v] shows that the laws can hold. *)
From stdpp Require Import base gmap sets list strings fin_maps.
From Stdlib Require Import ZArith Lia.
From S2P Require Import Prelude.
#[local] Open Scope Z_scope.

(** ** Numbers

    A [math.Int] is a signed integer.  A [math.LegacyDec] is a fixed-point
    number with 18 decimals: it is represented by its [BigInt()], the value
    times [Precision].  Comparisons and constants act on that integer. *)
Definition Precision : Z := 10 ^ 18.
Definition LegacyZeroDec : Z := 0.
Definition LegacyOneDec : Z := Precision.
Definition LegacyNewDec (i : Z) : Z := i * Precision.
Definition LegacyNewDecFromInt (i : Z) : Z := i * Precision.
Definition LegacyNewDecWithPrec (i prec : Z) : Z := i * 10 ^ (18 - prec).

(** Operations that round or that panic on overflow (256 bits for an Int,
    256 plus the precision's bits for a LegacyDec). *)
Class MathOps : Type := {
  IntAdd : Z -> Z -> res Z;
  IntSub : Z -> Z -> res Z;
  IntQuo : Z -> Z -> res Z;
  DecAdd : Z -> Z -> res Z;
  DecSub : Z -> Z -> res Z;
  DecMul : Z -> Z -> res Z;
  DecQuo : Z -> Z -> res Z;
  DecMulInt : Z -> Z -> res Z;
  DecMulInt64 : Z -> Z -> res Z;
  DecQuoInt : Z -> Z -> res Z;
  DecQuoInt64 : Z -> Z -> res Z;
  DecTruncateInt : Z -> res Z;
  DecRoundInt : Z -> res Z;
  DecCeil : Z -> res Z;
}.

(** An Int holds 256 bits; [dec_safe] is a magnitude below the limit of a
    LegacyDec. *)
Definition int_safe (z : Z) : Prop := Z.abs z < 2 ^ 256.
Definition dec_safe (z : Z) : Prop := Z.abs z <= 2 ^ 300.

(** Add, Sub and the integer products are exact; Mul and Quo round to the
    nearest unit (Quo after an intermediate truncation 18 digits further);
    integer quotients truncate toward zero; a zero divisor panics. *)
Class MathLaws `{MathOps} : Prop := {
  IntAdd_ok a b : int_safe (a + b) -> IntAdd a b = Ok (a + b);
  IntAdd_inv a b c : IntAdd a b = Ok c -> c = a + b;
  IntAdd_safe a b c : IntAdd a b = Ok c -> int_safe c;
  IntSub_ok a b : int_safe (a - b) -> IntSub a b = Ok (a - b);
  IntSub_inv a b c : IntSub a b = Ok c -> c = a - b;
  IntQuo_nz a b : b <> 0 -> IntQuo a b = Ok (Z.quot a b);
  DecAdd_ok a b : dec_safe (a + b) -> DecAdd a b = Ok (a + b);
  DecAdd_inv a b c : DecAdd a b = Ok c -> c = a + b;
  DecSub_ok a b : dec_safe (a - b) -> DecSub a b = Ok (a - b);
  DecSub_inv a b c : DecSub a b = Ok c -> c = a - b;
  DecMul_ok a b : dec_safe (a * b) -> is_ok (DecMul a b) = true;
  DecMul_inv a b c : DecMul a b = Ok c -> 2 * Z.abs (c * Precision - a * b) <= Precision;
  DecQuo_ok a b : b <> 0 -> dec_safe (a * Precision) -> is_ok (DecQuo a b) = true;
  DecQuo_zero a : DecQuo a 0 = Panic;
  DecQuo_inv a b c : DecQuo a b = Ok c ->
    2 * Precision * Z.abs (c * b - a * Precision) <= (Precision + 2) * Z.abs b;
  DecMulInt_ok a i : dec_safe (a * i) -> DecMulInt a i = Ok (a * i);
  DecMulInt_inv a i c : DecMulInt a i = Ok c -> c = a * i;
  DecMulInt64_ok a i : dec_safe (a * i) -> DecMulInt64 a i = Ok (a * i);
  DecMulInt64_inv a i c : DecMulInt64 a i = Ok c -> c = a * i;
  DecQuoInt_nz a i : i <> 0 -> DecQuoInt a i = Ok (Z.quot a i);
  DecQuoInt_zero a : DecQuoInt a 0 = Panic;
  DecQuoInt64_nz a i : i <> 0 -> DecQuoInt64 a i = Ok (Z.quot a i);
  DecQuoInt64_zero a : DecQuoInt64 a 0 = Panic;
  DecTruncateInt_ok a : dec_safe a -> DecTruncateInt a = Ok (Z.quot a Precision);
  DecTruncateInt_inv a c : DecTruncateInt a = Ok c -> c = Z.quot a Precision;
  DecRoundInt_ok a : dec_safe a -> is_ok (DecRoundInt a) = true;
  DecRoundInt_inv a c : DecRoundInt a = Ok c -> 2 * Z.abs (c * Precision - a) <= Precision;
  DecCeil_inv a c : DecCeil a = Ok c -> a <= c < a + Precision /\ c mod Precision = 0;
}.

(** ** Coins *)
Record Coin : Type := mkCoin { Denom : string; Amount : Z }.
Record DecCoin : Type := mkDecCoin { DDenom : string; DAmount : Z }.

#[export] Instance Coin_eq_dec : EqDecision Coin.
Proof. solve_decision. Defined.
#[export] Instance DecCoin_eq_dec : EqDecision DecCoin.
Proof. solve_decision. Defined.

(** The amount of a denomination in a list of coins. *)
Fixpoint coins_sum (cs : list Coin) (d : string) : Z :=
  match cs with
  | [] => 0
  | c :: cs => (if String.eqb (Denom c) d then Amount c else 0) + coins_sum cs d
  end.

Lemma coins_sum_absent cs d : d ∉ map Denom cs -> coins_sum cs d = 0.
Proof.
  induction cs as [|c cs IH]; simpl; [done|]. intros [? ?]%not_elem_of_cons.
  rewrite IH by done. rewrite (proj2 (String.eqb_neq _ _)) by congruence. lia.
Qed.

Lemma coins_sum_in cs c : NoDup (map Denom cs) -> c ∈ cs -> coins_sum cs (Denom c) = Amount c.
Proof.
  induction cs as [|c' cs IH]; [by intros _ ?%elem_of_nil|]. cbn [map coins_sum].
  intros [Hc Hn]%NoDup_cons [->|Hin]%elem_of_cons.
  - rewrite String.eqb_refl, coins_sum_absent by done. lia.
  - rewrite IH by done. rewrite (proj2 (String.eqb_neq _ _)); [lia|]. intros E. apply Hc.
    rewrite E. by apply list_elem_of_fmap_2.
Qed.

#[export] Instance coins_sum_perm : Proper ((≡ₚ) ==> (=) ==> (=)) coins_sum.
Proof. intros x y Hp d _ <-. induction Hp; simpl; lia. Qed.

Class CoinOps : Type := {
  ValidDenom : string -> bool;
  NewCoin : string -> Z -> res Coin;
  CoinAdd : Coin -> Coin -> res Coin;
  CoinIsValid : Coin -> bool;
  NewDecCoin : string -> Z -> res DecCoin;
  NewDecCoinFromDec : string -> Z -> res DecCoin;
  NewDecCoinFromCoin : Coin -> res DecCoin;
  DecCoinAdd : DecCoin -> DecCoin -> res DecCoin;
  DecCoinSub : DecCoin -> DecCoin -> res DecCoin;
  DecCoinTruncate : DecCoin -> res (Coin * DecCoin);
  NewCoins : list Coin -> res (list Coin);
  CoinsAdd : list Coin -> list Coin -> res (list Coin);
  AmountOf : list Coin -> string -> Z;
  CoinsIsZero : list Coin -> bool;
  CoinsIsValid : list Coin -> bool;
}.

(** Three to 128 lower-case letters are a denomination. *)
Definition lower_word (d : string) : bool :=
  forallb (fun c => let n := Ascii.nat_of_ascii c in Nat.leb 97 n && Nat.leb n 122)
    (String.list_ascii_of_string d) &&
  Nat.leb 3 (String.length d) && Nat.leb (String.length d) 128.

(** Constructors panic on an invalid denomination or a negative amount; sets
    of coins are sorted, without zero amounts and without duplicates. *)
Class CoinLaws `{MathOps} `{CoinOps} : Prop := {
  ValidDenom_word d : lower_word d = true -> ValidDenom d = true;
  NewCoin_ok d a : ValidDenom d = true -> 0 <= a -> NewCoin d a = Ok (mkCoin d a);
  NewCoin_inv d a c : NewCoin d a = Ok c ->
    c = mkCoin d a /\ 0 <= a /\ ValidDenom d = true;
  CoinAdd_inv x y c : CoinAdd x y = Ok c ->
    Denom x = Denom y /\ c = mkCoin (Denom x) (Amount x + Amount y);
  CoinIsValid_spec c : CoinIsValid c = true <-> ValidDenom (Denom c) = true /\ 0 <= Amount c;
  NewDecCoin_inv d a c : NewDecCoin d a = Ok c ->
    c = mkDecCoin d (a * Precision) /\ 0 <= a /\ ValidDenom d = true;
  NewDecCoinFromDec_ok d a : ValidDenom d = true -> 0 <= a ->
    NewDecCoinFromDec d a = Ok (mkDecCoin d a);
  NewDecCoinFromDec_inv d a c : NewDecCoinFromDec d a = Ok c ->
    c = mkDecCoin d a /\ 0 <= a /\ ValidDenom d = true;
  NewDecCoinFromCoin_ok c : CoinIsValid c = true ->
    NewDecCoinFromCoin c = Ok (mkDecCoin (Denom c) (Amount c * Precision));
  NewDecCoinFromCoin_inv c dc : NewDecCoinFromCoin c = Ok dc ->
    dc = mkDecCoin (Denom c) (Amount c * Precision) /\ CoinIsValid c = true;
  DecCoinAdd_inv x y c : DecCoinAdd x y = Ok c ->
    DDenom x = DDenom y /\ c = mkDecCoin (DDenom x) (DAmount x + DAmount y);
  DecCoinSub_ok x y c : DDenom x = DDenom y -> DecSub (DAmount x) (DAmount y) = Ok c ->
    0 <= c -> DecCoinSub x y = Ok (mkDecCoin (DDenom x) c);
  DecCoinSub_inv x y c : DecCoinSub x y = Ok c ->
    DDenom x = DDenom y /\ DAmount y <= DAmount x /\
    c = mkDecCoin (DDenom x) (DAmount x - DAmount y);
  DecCoinTruncate_ok dc : ValidDenom (DDenom dc) = true -> 0 <= DAmount dc ->
    dec_safe (DAmount dc) -> is_ok (DecCoinTruncate dc) = true;
  DecCoinTruncate_inv dc c r : DecCoinTruncate dc = Ok (c, r) ->
    0 <= DAmount dc /\
    c = mkCoin (DDenom dc) (DAmount dc / Precision) /\
    r = mkDecCoin (DDenom dc) (DAmount dc mod Precision);
  CoinsIsValid_one c : CoinsIsValid [c] = true <-> CoinIsValid c = true /\ Amount c <> 0;
  AmountOf_one c d : AmountOf [c] d = if String.eqb (Denom c) d then Amount c else 0;
  NewCoins_valid cs cs' : NewCoins cs = Ok cs' -> CoinsIsValid cs' = true;
  NewCoins_inv cs cs' d : NewCoins cs = Ok cs' -> AmountOf cs' d = coins_sum cs d;
  NewCoins_one c : CoinIsValid c = true -> is_ok (NewCoins [c]) = true;
  CoinsAdd_inv x y z d : CoinsIsValid x = true -> CoinsIsValid y = true ->
    CoinsAdd x y = Ok z -> AmountOf z d = AmountOf x d + AmountOf y d;
  CoinsAdd_valid x y z : CoinsIsValid x = true -> CoinsIsValid y = true ->
    CoinsAdd x y = Ok z -> CoinsIsValid z = true;
  AmountOf_nonneg cs d : CoinsIsValid cs = true -> 0 <= AmountOf cs d;
  AmountOf_sum cs d : CoinsIsValid cs = true -> AmountOf cs d = coins_sum cs d;
  CoinsIsValid_pos cs c : CoinsIsValid cs = true -> c ∈ cs -> 0 < Amount c;
  CoinsIsValid_denom cs c : CoinsIsValid cs = true -> c ∈ cs -> ValidDenom (Denom c) = true;
  CoinsIsZero_amount cs d : CoinsIsZero cs = true -> AmountOf cs d = 0;
  CoinsIsZero_spec cs : CoinsIsZero cs = forallb (fun c => Amount c =? 0) cs;
}.

(** Sets of decimal coins, and a set of coins seen as one. *)
Class DecCoinsOps : Type := {
  DecCoinsIsValid : list DecCoin -> bool;
  DecAmountOf : list DecCoin -> string -> Z;
  DecCoinsAdd : list DecCoin -> DecCoin -> res (list DecCoin);
  DecCoinsMulDec : list DecCoin -> Z -> res (list DecCoin);
  DecCoinsTruncate : list DecCoin -> res (list Coin * list DecCoin);
  NewDecCoinsFromCoins : list Coin -> res (list DecCoin);
}.

(** [MulDec] rounds each amount, [TruncateDecimal] cuts each one. *)
Class DecCoinsLaws `{CoinOps} `{DecCoinsOps} : Prop := {
  CoinsIsValid_nil : CoinsIsValid [] = true;
  AmountOf_nil d : AmountOf [] d = 0;
  DecCoinsIsValid_nil : DecCoinsIsValid [] = true;
  DecAmountOf_nil d : DecAmountOf [] d = 0;
  DecCoinsAdd_valid x c z : DecCoinsIsValid x = true -> 0 <= DAmount c ->
    DecCoinsAdd x c = Ok z -> DecCoinsIsValid z = true;
  DecCoinsAdd_inv x c z d : DecCoinsIsValid x = true -> 0 <= DAmount c ->
    DecCoinsAdd x c = Ok z ->
    DecAmountOf z d = DecAmountOf x d + if String.eqb (DDenom c) d then DAmount c else 0;
  DecCoinsMulDec_valid x m z : DecCoinsIsValid x = true -> 0 <= m ->
    DecCoinsMulDec x m = Ok z -> DecCoinsIsValid z = true;
  DecCoinsMulDec_inv x m z d : DecCoinsIsValid x = true -> 0 <= m ->
    DecCoinsMulDec x m = Ok z ->
    2 * Z.abs (DecAmountOf z d * Precision - DecAmountOf x d * m) <= Precision;
  DecCoinsTruncate_valid x z r : DecCoinsIsValid x = true ->
    DecCoinsTruncate x = Ok (z, r) -> CoinsIsValid z = true;
  DecCoinsTruncate_inv x z r d : DecCoinsIsValid x = true ->
    DecCoinsTruncate x = Ok (z, r) -> AmountOf z d = DecAmountOf x d / Precision;
  NewDecCoinsFromCoins_inv cs dcs : CoinsIsValid cs = true -> NewDecCoinsFromCoins cs = Ok dcs ->
    dcs = map (fun c => mkDecCoin (Denom c) (Amount c * Precision)) cs;
}.

(** [Coins.Sort] orders the coins by denomination, also when one occurs
    twice; [AmountOf] searches a sorted list and answers the amount of a coin
    it finds there. *)
Class CoinSortOps : Type := { CoinsSort : list Coin -> list Coin }.
Class CoinSortLaws `{CoinOps} `{CoinSortOps} : Prop := {
  CoinsSort_perm cs : CoinsSort cs ≡ₚ cs;
  AmountOf_sort cs c : c ∈ cs ->
    (forall c', c' ∈ cs -> Denom c' = Denom c -> Amount c' = Amount c) ->
    AmountOf (CoinsSort cs) (Denom c) = Amount c;
}.

(** [Coins.Sort] makes a set of distinct positive coins. *)
Class SortLaws `{CoinOps} `{CoinSortOps} : Prop :=
  CoinsSort_valid cs : NoDup (map Denom cs) ->
    (forall c, c ∈ cs -> ValidDenom (Denom c) = true /\ 0 < Amount c) -> CoinsIsValid (CoinsSort cs) = true.

(** [Coins.Sub] panics when an amount would become negative. *)
Class CoinSubOps : Type := { CoinsSub : list Coin -> list Coin -> res (list Coin) }.
Class CoinSubLaws `{CoinOps} `{CoinSubOps} : Prop := {
  CoinsSub_ok x y : CoinsIsValid x = true -> CoinsIsValid y = true ->
    (forall d, AmountOf y d <= AmountOf x d) -> is_ok (CoinsSub x y) = true;
  CoinsSub_inv x y z d : CoinsIsValid x = true -> CoinsIsValid y = true ->
    CoinsSub x y = Ok z -> AmountOf z d = AmountOf x d - AmountOf y d;
  CoinsSub_valid x y z : CoinsIsValid x = true -> CoinsIsValid y = true ->
    CoinsSub x y = Ok z -> CoinsIsValid z = true;
  CoinsIsValid_nodup cs : CoinsIsValid cs = true -> NoDup (map Denom cs);
  CoinsSub_negative x y d : CoinsIsValid x = true -> CoinsIsValid y = true ->
    AmountOf x d < AmountOf y d -> CoinsSub x y = Panic;
  CoinsIsValid_keep (f : Coin -> option Coin) x : CoinsIsValid x = true ->
    (forall c c', f c = Some c' -> Denom c' = Denom c /\ 0 < Amount c') ->
    CoinsIsValid (omap f x) = true;
}.

(** ** Addresses

    [sdk.AccAddress] and [sdk.ValAddress] are byte strings; conversions
    between the two keep the bytes. *)
Abbreviation AccAddress := string (only parsing).
Abbreviation ValAddress := string (only parsing).

Class AddrCodec : Type := {
  AccAddressFromBech32 : string -> res AccAddress;
  AccAddressString : AccAddress -> string;
  ValAddressFromBech32 : string -> res ValAddress;
  ValAddressString : ValAddress -> string;
}.

(** Printing an address that was parsed gives a text that parses to it. *)
Class AddrLaws `{AddrCodec} : Prop := {
  acc_roundtrip s a : AccAddressFromBech32 s = Ok a ->
    AccAddressFromBech32 (AccAddressString a) = Ok a;
  val_roundtrip s a : ValAddressFromBech32 s = Ok a ->
    ValAddressFromBech32 (ValAddressString a) = Ok a;
}.

(** ** The bank keeper, over an abstract ledger [B] *)
Class BankOps (B : Type) : Type := {
  ModuleAddress : string -> AccAddress;
  HasModuleAccount : string -> bool;
  BlockedAddr : AccAddress -> bool;
  GetBalance : B -> AccAddress -> string -> Z;
  GetSupply : B -> string -> Z;
  GetAllBalances : B -> AccAddress -> list Coin;
  SendCoinsFromAccountToModule : AccAddress -> string -> list Coin -> B -> res B;
  SendCoinsFromModuleToAccount : string -> AccAddress -> list Coin -> B -> res B;
  SendCoinsFromModuleToModule : string -> string -> list Coin -> B -> res B;
  MintCoins : string -> list Coin -> B -> res B;
  BurnCoins : string -> list Coin -> B -> res B;
}.

Section bank_laws.
Context {B : Type} `{BankOps B} `{CoinOps}.

(** The amount that leaves or reaches an account. *)
Definition at_addr (a b : AccAddress) (x : Z) : Z := if String.eqb a b then x else 0.

Definition moved (from to : AccAddress) (cs : list Coin) (b b' : B) : Prop :=
  (forall a d, GetBalance b' a d =
     GetBalance b a d - at_addr from a (AmountOf cs d) + at_addr to a (AmountOf cs d)) /\
  (forall d, GetSupply b' d = GetSupply b d) /\
  (forall d, AmountOf cs d <= GetBalance b from d).

Definition issued (to : AccAddress) (sgn : Z) (cs : list Coin) (b b' : B) : Prop :=
  (forall a d, GetBalance b' a d = GetBalance b a d + sgn * at_addr to a (AmountOf cs d)) /\
  (forall d, GetSupply b' d = GetSupply b d + sgn * AmountOf cs d).
End bank_laws.

(** A transfer that succeeds moves exactly the coins; a transfer out of a
    module account succeeds when the account holds the coins and the
    recipient may receive them; minting and burning change one account and
    the supply by the same amount. *)
Class BankLaws (B : Type) `{BankOps B} `{CoinOps} : Prop := {
  GetBalance_nonneg b a d : 0 <= GetBalance b a d;
  GetAllBalances_amount b a d : AmountOf (GetAllBalances b a) d = GetBalance b a d;
  SendAM_inv from m cs b b' : SendCoinsFromAccountToModule from m cs b = Ok b' ->
    moved from (ModuleAddress m) cs b b';
  SendMA_inv m to cs b b' : SendCoinsFromModuleToAccount m to cs b = Ok b' ->
    moved (ModuleAddress m) to cs b b';
  SendMA_ok m to cs b : HasModuleAccount m = true ->
    CoinsIsValid cs = true -> BlockedAddr to = false ->
    (forall d, AmountOf cs d <= GetBalance b (ModuleAddress m) d) ->
    is_ok (SendCoinsFromModuleToAccount m to cs b) = true;
  SendMM_inv m m' cs b b' : SendCoinsFromModuleToModule m m' cs b = Ok b' ->
    moved (ModuleAddress m) (ModuleAddress m') cs b b';
  SendMM_ok m m' cs b : HasModuleAccount m = true -> HasModuleAccount m' = true ->
    CoinsIsValid cs = true ->
    (forall d, AmountOf cs d <= GetBalance b (ModuleAddress m) d) ->
    is_ok (SendCoinsFromModuleToModule m m' cs b) = true;
  Mint_inv m cs b b' : MintCoins m cs b = Ok b' -> issued (ModuleAddress m) 1 cs b b';
  Burn_inv m cs b b' : BurnCoins m cs b = Ok b' ->
    issued (ModuleAddress m) (-1) cs b b' /\
    forall d, AmountOf cs d <= GetBalance b (ModuleAddress m) d;
}.

(** ** The staking keeper, over an abstract staking state [K] *)
Record ValidatorI : Type := mkValidatorI {
  GetOperator : string;
  IsBonded : bool;
  IsJailed : bool;
  GetConsAddr : res string;
  GetBondedTokens : Z;
  GetConsensusPower : Z -> Z;
}.

(** [Validator] answers an error, or no validator, or a validator; the
    results of [Slash] and [Jail] are never looked at by the code, so they
    are the staking state after the call. *)
Class StakingOps (K : Type) : Type := {
  Validator : K -> ValAddress -> res (option ValidatorI);
  TotalBondedTokens : K -> res Z;
  ValidatorsPowerStoreIterator : K -> res (list ValAddress);
  MaxValidators : K -> res Z;
  PowerReduction : K -> Z;
  Slash : string -> Z -> Z -> Z -> K -> K;
  Jail : string -> K -> K;
}.

(** ** The distribution keeper and the bank's metadata *)
Class DistrOps (D : Type) : Type := {
  AllocateTokensToValidator : ValidatorI -> list DecCoin -> D -> D;
}.

(** The community pool of the distribution module. *)
Class FeePoolOps (D : Type) : Type := {
  FeePool_Get : D -> res (list DecCoin);
  FeePool_Set : list DecCoin -> D -> D;
}.
Class FeePoolLaws (D : Type) `{FeePoolOps D} : Prop := {
  FeePool_get_set p d : FeePool_Get (FeePool_Set p d) = Ok p;
}.

Record DenomUnit : Type := mkDenomUnit {
  du_Denom : string; du_Exponent : Z; du_Aliases : list string;
}.
Record Metadata : Type := mkMetadata {
  md_Description : string; md_DenomUnits : list DenomUnit; md_Base : string;
  md_Display : string; md_Name : string; md_Symbol : string;
}.
Class BankMetaOps (B : Type) : Type := {
  HasDenomMetaData : B -> string -> bool;
  SetDenomMetaData : Metadata -> B -> B;
}.

Create HintDb sdk.
#[export] Hint Resolve IntAdd_ok IntSub_ok DecAdd_ok DecSub_ok DecMulInt_ok
  DecMulInt64_ok : sdk.

(** [math_inv] turns the successful exact operations in the context into
    equations. *)
Ltac math_inv :=
  repeat match goal with
  | E : IntAdd _ _ = Ok _ |- _ => apply IntAdd_inv in E
  | E : IntSub _ _ = Ok _ |- _ => apply IntSub_inv in E
  | E : DecAdd _ _ = Ok _ |- _ => apply DecAdd_inv in E
  | E : DecSub _ _ = Ok _ |- _ => apply DecSub_inv in E
  | E : DecMulInt _ _ = Ok _ |- _ => apply DecMulInt_inv in E
  | E : DecMulInt64 _ _ = Ok _ |- _ => apply DecMulInt64_inv in E
  | E : DecTruncateInt _ = Ok _ |- _ => apply DecTruncateInt_inv in E
  | E : NewCoin _ _ = Ok _ |- _ => apply NewCoin_inv in E as (? & ? & ?)
  | E : CoinAdd _ _ = Ok _ |- _ => apply CoinAdd_inv in E as (? & ?)
  | E : NewDecCoin _ _ = Ok _ |- _ => apply NewDecCoin_inv in E as (? & ? & ?)
  | E : NewDecCoinFromDec _ _ = Ok _ |- _ => apply NewDecCoinFromDec_inv in E as (? & ? & ?)
  | E : NewDecCoinFromCoin _ = Ok _ |- _ => apply NewDecCoinFromCoin_inv in E as (? & ?)
  | E : DecCoinAdd _ _ = Ok _ |- _ => apply DecCoinAdd_inv in E as (? & ?)
  | E : DecCoinSub _ _ = Ok _ |- _ => apply DecCoinSub_inv in E as (? & ? & ?)
  | E : DecCoinTruncate _ = Ok (_, _) |- _ => apply DecCoinTruncate_inv in E as (? & ? & ?)
  end.
