(* ===== verification/SdkRef.v ===== *)
(** * Reference instances of the SDK parameters

    Concrete functions for the classes of [Sdk.v] that satisfy their laws:
    fixed-point arithmetic with 18 decimals and bankers' rounding, coin sets
    as sorted lists, addresses with a textual prefix and an in-memory
    ledger.  They show that the laws can hold together and give the
    witnesses something to compute with; no component depends on them. *)
From stdpp Require Import base gmap sets list strings fin_maps sorting.
From Stdlib Require Import ZArith Lia.
From S2P Require Import Prelude Sdk.
#[local] Open Scope Z_scope.

(** ** Numbers *)
Definition fit (bits z : Z) : res Z := if Z.abs z <? 2 ^ bits then Ok z else Panic.

Definition chop (z : Z) : Z := round_half_even z Precision.

#[export] Instance ref_math : MathOps := {|
  IntAdd a b := fit 256 (a + b);
  IntSub a b := fit 256 (a - b);
  IntQuo a b := if b =? 0 then Panic else Ok (Z.quot a b);
  DecAdd a b := fit 315 (a + b);
  DecSub a b := fit 315 (a - b);
  DecMul a b := fit 315 (chop (a * b));
  DecQuo a b := if b =? 0 then Panic
                else fit 315 (chop (Z.quot (a * Precision * Precision) b));
  DecMulInt a i := fit 315 (a * i);
  DecMulInt64 a i := fit 315 (a * i);
  DecQuoInt a i := if i =? 0 then Panic else Ok (Z.quot a i);
  DecQuoInt64 a i := if i =? 0 then Panic else Ok (Z.quot a i);
  DecTruncateInt a := fit 315 (Z.quot a Precision);
  DecRoundInt a := fit 315 (chop a);
  DecCeil a := fit 320 (((a + Precision - 1) / Precision) * Precision);
|}.

Lemma fit_inv bits z c : fit bits z = Ok c -> c = z.
Proof. unfold fit. case_match; congruence. Qed.

Lemma fit_ok bits z : Z.abs z < 2 ^ bits -> fit bits z = Ok z.
Proof. unfold fit. intros H. by rewrite (proj2 (Z.ltb_lt _ _) H). Qed.

Lemma chop_round z : 2 * Z.abs (chop z * Precision - z) <= Precision.
Proof.
  unfold chop, round_half_even.
  assert (0 < Precision) as HP by reflexivity.
  pose proof (Z.div_mod z Precision ltac:(lia)).
  pose proof (Z.mod_pos_bound z Precision HP).
  repeat case_match; zbool; nia.
Qed.

Lemma chop_bound z b : Z.abs z <= b * Precision -> Z.abs (chop z) <= b + 1.
Proof.
  pose proof (chop_round z). assert (0 < Precision) by reflexivity. nia.
Qed.

Lemma quot_error a b : b <> 0 -> Z.abs (Z.quot a b * b - a) < Z.abs b.
Proof.
  intros Hb. pose proof (Z.quot_rem' a b). pose proof (Z.rem_bound_abs a b Hb). lia.
Qed.

Lemma ref_quo_inv a b c : DecQuo a b = Ok c ->
  2 * Precision * Z.abs (c * b - a * Precision) <= (Precision + 2) * Z.abs b.
Proof.
  simpl. case_match eqn:Hb; [discriminate|]. intros H%fit_inv. zbool.
  pose proof (quot_error (a * Precision * Precision) b Hb).
  pose proof (chop_round (Z.quot (a * Precision * Precision) b)).
  rewrite <- H in *. set (q := Z.quot _ _) in *.
  assert (0 < Precision) by reflexivity.
  assert (Z.abs ((c * Precision - q) * b) * 2 <= Precision * Z.abs b)
    by (rewrite Z.abs_mul; nia).
  assert (Precision * Z.abs (c * b - a * Precision)
          = Z.abs ((c * b - a * Precision) * Precision)) by (rewrite Z.abs_mul; lia).
  lia.
Qed.

Lemma ref_quo_ok a b : b <> 0 -> dec_safe (a * Precision) -> is_ok (DecQuo a b) = true.
Proof.
  unfold dec_safe. simpl. intros Hb Ha. apply Z.eqb_neq in Hb as Hb'. rewrite Hb'.
  rewrite fit_ok; [done|].
  apply Z.le_lt_trans with (2 ^ 300 + 1); [|reflexivity].
  apply chop_bound.
  pose proof (quot_error (a * Precision * Precision) b Hb).
  set (x := a * Precision) in *. set (q := Z.quot _ _) in *.
  assert (Z.abs q <= Z.abs (x * Precision)).
  { subst q. rewrite <- Z.quot_abs by done.
    apply Z.quot_le_upper_bound; [lia|]. nia. }
  assert (Z.abs (x * Precision) = Z.abs x * Precision) by (rewrite Z.abs_mul; reflexivity).
  assert (0 < Precision) by reflexivity. nia.
Qed.

#[export] Instance ref_math_laws : MathLaws.
Proof.
  split; unfold int_safe, dec_safe; simpl; intros;
    try (apply fit_ok; lia); try by eapply fit_inv.
  - revert H. unfold fit. case_match; intros; zbool; by simplify_eq.
  - by rewrite (proj2 (Z.eqb_neq _ _) H).
  - rewrite fit_ok; [done|]. apply Z.le_lt_trans with (2 ^ 300 + 1); [|reflexivity].
    apply chop_bound. assert (1 <= Precision) by (unfold Precision; lia). nia.
  - apply fit_inv in H as ->. apply chop_round.
  - by apply ref_quo_ok.
  - done.
  - by apply ref_quo_inv.
  - by rewrite (proj2 (Z.eqb_neq _ _) H).
  - done.
  - by rewrite (proj2 (Z.eqb_neq _ _) H).
  - done.
  - apply fit_ok. apply Z.le_lt_trans with (2 ^ 300); [|reflexivity].
    rewrite <- Z.quot_abs by done. assert (Z.abs Precision = Precision) as -> by reflexivity.
    apply Z.quot_le_upper_bound; [reflexivity|].
    assert (1 <= Precision) by (unfold Precision; lia). nia.
  - rewrite fit_ok; [done|]. apply Z.le_lt_trans with (2 ^ 300 + 1); [|reflexivity].
    apply chop_bound. assert (1 <= Precision) by (unfold Precision; lia). nia.
  - apply fit_inv in H as ->. apply chop_round.
  - apply fit_inv in H as ->. assert (0 < Precision) by reflexivity.
    pose proof (Z.div_mod (a + Precision - 1) Precision ltac:(lia)).
    pose proof (Z.mod_pos_bound (a + Precision - 1) Precision ltac:(lia)).
    split; [nia|]. apply Z.mod_mul. lia.
Qed.

(** ** Coins: sorted lists without zero amounts *)
Definition ref_valid_denom (d : string) : bool := Nat.leb 3 (String.length d).

Definition coin_ok (c : Coin) : bool := ref_valid_denom (Denom c) && (0 <=? Amount c).

Fixpoint insert_coin (c : Coin) (cs : list Coin) : list Coin :=
  match cs with
  | [] => [c]
  | c' :: cs' =>
      match String.compare (Denom c) (Denom c') with
      | Gt => c' :: insert_coin c cs'
      | _ => c :: cs
      end
  end.

Fixpoint merge_coin (c : Coin) (cs : list Coin) : list Coin :=
  match cs with
  | [] => [c]
  | c' :: cs' =>
      match String.compare (Denom c) (Denom c') with
      | Lt => c :: cs
      | Eq => mkCoin (Denom c) (Amount c + Amount c') :: cs'
      | Gt => c' :: merge_coin c cs'
      end
  end.

Definition denom_lt (c c' : Coin) : bool :=
  match String.compare (Denom c) (Denom c') with Lt => true | _ => false end.

Fixpoint strictly_sorted (cs : list Coin) : bool :=
  match cs with
  | [] => true
  | c :: cs' => forallb (denom_lt c) cs' && strictly_sorted cs'
  end.

Definition coins_ok (cs : list Coin) : bool :=
  strictly_sorted cs && bool_decide (NoDup (map Denom cs)) &&
  forallb (fun c => ref_valid_denom (Denom c) && (0 <? Amount c)) cs.

(** The first coin of a denomination. *)
Definition find_amount (cs : list Coin) (d : string) : Z :=
  match List.find (fun c => String.eqb (Denom c) d) cs with Some c => Amount c | None => 0 end.

Definition nonzero (cs : list Coin) : list Coin :=
  List.filter (fun c => negb (Amount c =? 0)) cs.

Definition checked (cs : list Coin) : res (list Coin) :=
  if coins_ok cs then Ok cs else Panic.

#[export] Instance ref_coins : CoinOps := {|
  ValidDenom := ref_valid_denom;
  NewCoin d a := if coin_ok (mkCoin d a) then Ok (mkCoin d a) else Panic;
  CoinAdd x y := if String.eqb (Denom x) (Denom y)
                 then a ← fit 256 (Amount x + Amount y); Ok (mkCoin (Denom x) a)
                 else Panic;
  CoinIsValid := coin_ok;
  NewDecCoin d a := if coin_ok (mkCoin d a) then Ok (mkDecCoin d (a * Precision)) else Panic;
  NewDecCoinFromDec d a := if coin_ok (mkCoin d a) then Ok (mkDecCoin d a) else Panic;
  NewDecCoinFromCoin c :=
    if coin_ok c then Ok (mkDecCoin (Denom c) (Amount c * Precision)) else Panic;
  DecCoinAdd x y := if String.eqb (DDenom x) (DDenom y)
                    then a ← fit 315 (DAmount x + DAmount y); Ok (mkDecCoin (DDenom x) a)
                    else Panic;
  DecCoinSub x y := if String.eqb (DDenom x) (DDenom y) && (DAmount y <=? DAmount x)
                    then a ← fit 315 (DAmount x - DAmount y); Ok (mkDecCoin (DDenom x) a)
                    else Panic;
  DecCoinTruncate dc :=
    if coin_ok (mkCoin (DDenom dc) (DAmount dc))
    then Ok (mkCoin (DDenom dc) (DAmount dc / Precision),
             mkDecCoin (DDenom dc) (DAmount dc mod Precision))
    else Panic;
  NewCoins cs := checked (foldr insert_coin [] (nonzero cs));
  CoinsAdd x y := checked (nonzero (foldr merge_coin x y));
  AmountOf := find_amount;
  CoinsIsZero := forallb (fun c => Amount c =? 0);
  CoinsIsValid := coins_ok;
|}.

Lemma coins_sum_insert c cs d : coins_sum (insert_coin c cs) d = coins_sum (c :: cs) d.
Proof.
  induction cs as [|c' cs IH]; [done|]. simpl in *.
  destruct (String.compare _ _); simpl; lia.
Qed.

Lemma coins_sum_merge c cs d : coins_sum (merge_coin c cs) d = coins_sum (c :: cs) d.
Proof.
  induction cs as [|c' cs IH]; [done|]. simpl in *.
  destruct (String.compare (Denom c) (Denom c')) eqn:E; simpl; try lia.
  apply String.compare_eq_iff in E. rewrite E.
  destruct (String.eqb (Denom c') d); lia.
Qed.

Lemma coins_sum_nonzero cs d : coins_sum (nonzero cs) d = coins_sum cs d.
Proof.
  induction cs as [|c cs IH]; [done|]. simpl.
  destruct (Z.eqb_spec (Amount c) 0); simpl; rewrite IH; [|done].
  destruct (String.eqb _ _); lia.
Qed.

Lemma coins_sum_sorted cs d : coins_sum (foldr insert_coin [] cs) d = coins_sum cs d.
Proof.
  induction cs as [|c cs IH]; [done|]. simpl foldr.
  rewrite coins_sum_insert. simpl. lia.
Qed.

Lemma coins_sum_merged x y d :
  coins_sum (foldr merge_coin x y) d = coins_sum x d + coins_sum y d.
Proof.
  induction y as [|c y IH]; simpl; [lia|]. rewrite coins_sum_merge. simpl. lia.
Qed.

Lemma checked_inv cs cs' : checked cs = Ok cs' -> cs' = cs /\ coins_ok cs' = true.
Proof. unfold checked. case_match eqn:E; intros; simplify_eq; eauto. Qed.

Lemma find_amount_sum cs d : NoDup (map Denom cs) -> find_amount cs d = coins_sum cs d.
Proof.
  unfold find_amount. induction cs as [|c cs IH]; simpl; [done|].
  intros [Hc Hn]%NoDup_cons. specialize (IH Hn).
  destruct (String.eqb_spec (Denom c) d) as [<-|]; [|rewrite IH; lia].
  rewrite coins_sum_absent by done. lia.
Qed.

Lemma coins_ok_amount cs d : coins_ok cs = true -> find_amount cs d = coins_sum cs d.
Proof.
  unfold coins_ok. intros [[_ H]%andb_true_iff _]%andb_true_iff.
  apply find_amount_sum. by apply bool_decide_eq_true in H.
Qed.

Lemma nonzero_nodup cs : NoDup (map Denom cs) -> NoDup (map Denom (nonzero cs)).
Proof.
  intros Hn. eapply sublist_NoDup; [exact Hn|]. unfold nonzero.
  change (map Denom cs) with (Denom <$> cs). apply fmap_sublist. clear Hn.
  induction cs as [|c cs IH]; simpl; [constructor|].
  destruct (Amount c =? 0); simpl; [by apply sublist_cons|by apply sublist_skip].
Qed.

Lemma coins_sum_nonneg cs d : coins_ok cs = true -> 0 <= coins_sum cs d.
Proof.
  unfold coins_ok. intros [_ H]%andb_true_iff.
  induction cs as [|c cs IH]; simpl in *; [lia|].
  apply andb_true_iff in H as [Hc H]. specialize (IH H).
  zbool. destruct (String.eqb _ _); lia.
Qed.

Lemma coin_ok_spec c :
  coin_ok c = true <-> ref_valid_denom (Denom c) = true /\ 0 <= Amount c.
Proof. unfold coin_ok. rewrite andb_true_iff, Z.leb_le. done. Qed.

#[export] Instance ref_coin_laws : CoinLaws.
Proof.
  split; cbn -[coin_ok coins_ok Z.mul lower_word]; intros.
  - unfold lower_word in H. by apply andb_true_iff in H as [[_ H]%andb_true_iff _].
  - by rewrite (proj2 (coin_ok_spec (mkCoin d a))).
  - case_match eqn:E; [|done]. apply coin_ok_spec in E as [? ?]. naive_solver.
  - case_match eqn:E; [|done]. res_inv H. apply fit_inv in E0 as ->. zbool. done.
  - apply coin_ok_spec.
  - case_match eqn:E; [|done]. apply coin_ok_spec in E as [? ?]. naive_solver.
  - by rewrite (proj2 (coin_ok_spec (mkCoin d a))).
  - case_match eqn:E; [|done]. apply coin_ok_spec in E as [? ?]. naive_solver.
  - by rewrite H.
  - case_match eqn:E; [|done]. naive_solver.
  - case_match eqn:E; [|done]. res_inv H. apply fit_inv in E0 as ->. zbool. done.
  - apply fit_inv in H0 as Hc. rewrite H, String.eqb_refl, (proj2 (Z.leb_le _ _)) by lia.
    simpl. by rewrite H0.
  - case_match eqn:E; [|done]. res_inv H. apply fit_inv in E0 as ->. zbool. done.
  - by rewrite (proj2 (coin_ok_spec (mkCoin (DDenom dc) (DAmount dc)))).
  - case_match eqn:E; [|done]. apply coin_ok_spec in E as [? ?]. naive_solver.
  - unfold coins_ok, coin_ok. simpl. rewrite andb_true_r, !andb_true_iff, Z.leb_le, Z.ltb_lt.
    intuition lia.
  - unfold find_amount. simpl. destruct (String.eqb _ _); lia.
  - by apply checked_inv in H as [-> ?].
  - apply checked_inv in H as [-> Hok].
    by rewrite coins_ok_amount, coins_sum_sorted, coins_sum_nonzero.
  - unfold checked. case_match eqn:E; [done|]. exfalso. revert E. apply not_false_iff_true.
    apply coin_ok_spec in H as [Hd Ha]. destruct (Z.eqb_spec (Amount c) 0); simpl; [done|].
    unfold coins_ok. simpl. rewrite Hd. simpl.
    by rewrite (proj2 (Z.ltb_lt 0 (Amount c))) by lia.
  - apply checked_inv in H1 as [-> Hok].
    by rewrite !coins_ok_amount, coins_sum_nonzero, coins_sum_merged.
  - by apply checked_inv in H1 as [-> ?].
  - rewrite coins_ok_amount by done. by apply coins_sum_nonneg.
  - by apply coins_ok_amount.
  - unfold coins_ok in H. apply andb_true_iff in H as [_ H]. rewrite forallb_forall in H.
    apply list_elem_of_In in H0. apply H in H0. by apply andb_true_iff in H0 as [_ ?%Z.ltb_lt].
  - unfold coins_ok in H. apply andb_true_iff in H as [_ H]. rewrite forallb_forall in H.
    apply list_elem_of_In in H0. apply H in H0. by apply andb_true_iff in H0 as [? _].
  - unfold find_amount. destruct (List.find _ _) as [c|] eqn:E; [|done].
    apply find_some in E as [Hin _]. rewrite forallb_forall in H.
    apply Z.eqb_eq. by apply H.
  - done.
Qed.

(** ** Addresses: the text is the bytes behind a prefix *)
Definition strip (p s : string) : res string :=
  if String.prefix p s
  then Ok (String.substring (String.length p) (String.length s) s)
  else Err (Foreign "bech32").

#[export] Instance ref_addr : AddrCodec := {|
  AccAddressFromBech32 := strip "do1";
  AccAddressString a := ("do1" +:+ a)%string;
  ValAddressFromBech32 := strip "dovaloper1";
  ValAddressString a := ("dovaloper1" +:+ a)%string;
|}.

Lemma substring_all s : forall n, (String.length s <= n)%nat -> String.substring 0 n s = s.
Proof.
  induction s as [|c s IH]; intros [|n] H; simpl in *; try done; [lia|].
  rewrite IH; [done|lia].
Qed.

Lemma strip_print p a : strip p (p +:+ a) = Ok a.
Proof.
  unfold strip.
  assert (String.prefix p (p +:+ a) = true) as ->.
  { induction p as [|c p IH]; simpl; [by destruct a|]. by case_match. }
  f_equal. assert (forall n, (String.length a <= n)%nat ->
    String.substring (String.length p) n (p +:+ a) = a) as H.
  { induction p as [|c p IH]; simpl; [apply substring_all|done]. }
  apply H. clear H. induction p as [|c p IH]; simpl; [reflexivity|lia].
Qed.

#[export] Instance ref_addr_laws : AddrLaws.
Proof. split; intros; apply strip_print. Qed.

(** ** A ledger *)
Record ledger : Type := mkLedger {
  l_denoms : list string;
  l_bal : string -> string -> Z;
  l_sup : string -> Z;
}.

Definition bal (l : ledger) (a d : string) : Z :=
  if bool_decide (d ∈ l_denoms l) then Z.max 0 (l_bal l a d) else 0.

Definition module_addr (m : string) : string := ("module:" +:+ m)%string.

Definition covers (l : ledger) (a : string) (cs : list Coin) : bool :=
  forallb (fun c => coins_sum cs (Denom c) <=? bal l a (Denom c)) cs.

Definition move (from to : string) (cs : list Coin) (l : ledger) : res ledger :=
  if coins_ok cs && covers l from cs
  then Ok (mkLedger (l_denoms l)
        (fun a d => bal l a d - at_addr from a (coins_sum cs d) + at_addr to a (coins_sum cs d))
        (l_sup l))
  else Err (SdkError "ErrInsufficientFunds").

Definition issue (to : string) (sgn : Z) (cs : list Coin) (l : ledger) : ledger :=
  mkLedger (map Denom cs ++ l_denoms l)
    (fun a d => bal l a d + sgn * at_addr to a (coins_sum cs d))
    (fun d => l_sup l d + sgn * coins_sum cs d).

#[export] Instance ref_bank : BankOps ledger := {|
  ModuleAddress := module_addr;
  HasModuleAccount _ := true;
  BlockedAddr a := String.prefix "module:" a;
  GetBalance := bal;
  GetSupply := l_sup;
  GetAllBalances l a :=
    nonzero (map (fun d => mkCoin d (bal l a d)) (remove_dups (l_denoms l)));
  SendCoinsFromAccountToModule from m := move from (module_addr m);
  SendCoinsFromModuleToAccount m to cs l :=
    if String.prefix "module:" to then Err (SdkError "ErrUnauthorized")
    else move (module_addr m) to cs l;
  SendCoinsFromModuleToModule m m' := move (module_addr m) (module_addr m');
  MintCoins m cs l :=
    if coins_ok cs then Ok (issue (module_addr m) 1 cs l)
    else Err (SdkError "ErrInvalidCoins");
  BurnCoins m cs l :=
    if coins_ok cs && covers l (module_addr m) cs then Ok (issue (module_addr m) (-1) cs l)
    else Err (SdkError "ErrInsufficientFunds");
|}.

Lemma bal_nonneg l a d : 0 <= bal l a d.
Proof. unfold bal. case_bool_decide; lia. Qed.

Lemma covers_spec l a cs : covers l a cs = true <-> forall d, coins_sum cs d <= bal l a d.
Proof.
  unfold covers. rewrite forallb_forall. split.
  - intros H d. destruct (decide (d ∈ map Denom cs)) as [Hd|Hd].
    + apply list_elem_of_fmap in Hd as (c & -> & Hc).
      apply Z.leb_le, H. by apply list_elem_of_In.
    + rewrite coins_sum_absent by done. apply bal_nonneg.
  - intros H c _. apply Z.leb_le, H.
Qed.

Lemma move_moved from to cs l l' : move from to cs l = Ok l' -> moved from to cs l l'.
Proof.
  unfold move. case_match eqn:E; intros; simplify_eq.
  apply andb_true_iff in E as [Hok Hc]. rewrite covers_spec in Hc.
  split; [|split; [done|intros d; simpl; by rewrite coins_ok_amount]].
  intros a d. simpl. rewrite coins_ok_amount by done. unfold bal at 1. simpl.
  pose proof (coins_sum_nonneg cs d Hok). specialize (Hc d).
  case_bool_decide as Hd.
  - rewrite Z.max_r; [done|]. unfold at_addr. pose proof (bal_nonneg l a d).
    destruct (String.eqb_spec from a) as [->|]; destruct (String.eqb to a); lia.
  - assert (bal l from d = 0) by (unfold bal; by rewrite bool_decide_eq_false_2).
    assert (bal l a d = 0) as -> by (unfold bal; by rewrite bool_decide_eq_false_2).
    unfold at_addr. repeat case_match; lia.
Qed.

Lemma move_ok from to cs l : coins_ok cs = true ->
  (forall d, coins_sum cs d <= bal l from d) -> is_ok (move from to cs l) = true.
Proof. intros H1 H2%covers_spec. unfold move. by rewrite H1, H2. Qed.

Lemma issue_issued to sgn cs l : coins_ok cs = true ->
  (forall a d, 0 <= bal l a d + sgn * at_addr to a (coins_sum cs d)) ->
  issued to sgn cs l (issue to sgn cs l).
Proof.
  intros Hok H. split; [|intros d; simpl; by rewrite coins_ok_amount].
  intros a d. simpl. rewrite coins_ok_amount by done. unfold bal at 1. simpl.
  case_bool_decide as Hd; [specialize (H a d); lia|].
  apply not_elem_of_app in Hd as [Hd1 Hd2].
  rewrite coins_sum_absent by done. unfold bal. rewrite bool_decide_eq_false_2 by done.
  unfold at_addr. case_match; lia.
Qed.

Lemma all_balances l a ds d : NoDup ds ->
  coins_sum (map (fun d => mkCoin d (bal l a d)) ds) d
  = if bool_decide (d ∈ ds) then bal l a d else 0.
Proof.
  induction 1 as [|d' ds Hd' _ IH]; simpl; [done|]. rewrite IH.
  destruct (String.eqb_spec d' d) as [->|].
  - rewrite bool_decide_eq_false_2, bool_decide_eq_true_2 by set_solver. lia.
  - rewrite (bool_decide_ext (d ∈ d' :: ds) (d ∈ ds)) by set_solver. lia.
Qed.

#[export] Instance ref_bank_laws : BankLaws ledger.
Proof.
  split; cbn -[move issue bal coins_ok covers nonzero String.prefix]; intros.
  - apply bal_nonneg.
  - rewrite find_amount_sum, coins_sum_nonzero, all_balances by
      first [apply NoDup_remove_dups|apply nonzero_nodup; rewrite map_map, map_id; apply NoDup_remove_dups].
    case_bool_decide as H; [done|]. rewrite elem_of_remove_dups in H.
    unfold bal. by rewrite bool_decide_eq_false_2.
  - by apply move_moved.
  - case_match; [done|]. by apply move_moved.
  - rewrite H1. apply move_ok; [done|]. intros d. by rewrite <- coins_ok_amount.
  - by apply move_moved.
  - apply move_ok; [done|]. intros d. by rewrite <- coins_ok_amount.
  - case_match eqn:E; simplify_eq. apply issue_issued; [done|]. intros a d.
    pose proof (bal_nonneg b a d). pose proof (coins_sum_nonneg cs d E).
    unfold at_addr. case_match; lia.
  - case_match eqn:E; simplify_eq. apply andb_true_iff in E as [E Hc].
    rewrite covers_spec in Hc. split; [|intros d; by rewrite coins_ok_amount].
    apply issue_issued; [done|]. intros a d. pose proof (bal_nonneg b a d). specialize (Hc d).
    pose proof (coins_sum_nonneg cs d E).
    unfold at_addr. destruct (String.eqb_spec (module_addr m) a) as [<-|]; lia.
Qed.

(** ** Sets of decimal coins: no denomination twice, positive amounts *)
Fixpoint dec_sum (cs : list DecCoin) (d : string) : Z :=
  match cs with
  | [] => 0
  | c :: cs => (if String.eqb (DDenom c) d then DAmount c else 0) + dec_sum cs d
  end.

Definition dec_ok (cs : list DecCoin) : bool :=
  bool_decide (NoDup (map DDenom cs)) && forallb (fun c => 0 <? DAmount c) cs.

Definition dec_checked (cs : list DecCoin) : res (list DecCoin) :=
  if dec_ok cs then Ok cs else Panic.

Definition dec_nonzero (cs : list DecCoin) : list DecCoin :=
  List.filter (fun c => negb (DAmount c =? 0)) cs.

Definition dec_map (f : Z -> Z) (cs : list DecCoin) : list DecCoin :=
  map (fun c => mkDecCoin (DDenom c) (f (DAmount c))) cs.

Definition whole (cs : list DecCoin) : list Coin :=
  map (fun c => mkCoin (DDenom c) (DAmount c / Precision)) cs.

#[export] Instance ref_dec_coins : DecCoinsOps := {|
  DecCoinsIsValid := dec_ok;
  DecAmountOf := dec_sum;
  DecCoinsAdd x c :=
    if bool_decide (DDenom c ∈ map DDenom x)
    then dec_checked (map (fun y => if String.eqb (DDenom y) (DDenom c)
                                    then mkDecCoin (DDenom y) (DAmount y + DAmount c) else y) x)
    else dec_checked (dec_nonzero (c :: x));
  DecCoinsMulDec x m := dec_checked (dec_nonzero (dec_map (fun a => chop (a * m)) x));
  DecCoinsTruncate x :=
    z ← checked (foldr insert_coin [] (nonzero (whole x)));
    Ok (z, dec_nonzero (dec_map (fun a => a mod Precision) x));
  NewDecCoinsFromCoins cs := Ok (map (fun c => mkDecCoin (Denom c) (Amount c * Precision)) cs);
|}.

Lemma dec_checked_inv cs cs' : dec_checked cs = Ok cs' -> cs' = cs /\ dec_ok cs' = true.
Proof. unfold dec_checked. case_match eqn:E; intros; simplify_eq; eauto. Qed.

Lemma dec_sum_nonzero cs d : dec_sum (dec_nonzero cs) d = dec_sum cs d.
Proof.
  induction cs as [|c cs IH]; [done|]. simpl.
  destruct (Z.eqb_spec (DAmount c) 0); simpl; rewrite IH; [|done].
  destruct (String.eqb _ _); lia.
Qed.

Lemma dec_sum_absent cs d : d ∉ map DDenom cs -> dec_sum cs d = 0.
Proof.
  induction cs as [|c cs IH]; simpl; [done|]. intros [? ?]%not_elem_of_cons.
  rewrite IH by done. rewrite (proj2 (String.eqb_neq _ _)) by congruence. lia.
Qed.

Lemma dec_ok_nodup cs : dec_ok cs = true -> NoDup (map DDenom cs).
Proof. unfold dec_ok. by intros [?%bool_decide_eq_true _]%andb_true_iff. Qed.

Lemma dec_sum_map f cs d : f 0 = 0 -> NoDup (map DDenom cs) ->
  dec_sum (dec_map f cs) d = f (dec_sum cs d).
Proof.
  intros Hf. induction cs as [|c cs IH]; simpl; [done|]. intros [Hc Hnd]%NoDup_cons.
  rewrite (IH Hnd). destruct (String.eqb_spec (DDenom c) d) as [<-|]; [|done].
  rewrite (dec_sum_absent cs) by done. rewrite Hf. by rewrite !Z.add_0_r.
Qed.

Lemma whole_sum cs d : NoDup (map DDenom cs) -> coins_sum (whole cs) d = dec_sum cs d / Precision.
Proof.
  induction cs as [|c cs IH]; simpl; [done|]. intros [Hc Hnd]%NoDup_cons.
  rewrite (IH Hnd). destruct (String.eqb_spec (DDenom c) d) as [<-|]; [|done].
  rewrite (dec_sum_absent cs) by done. change (0 / Precision) with 0. by rewrite !Z.add_0_r.
Qed.

Lemma dec_sum_bump x c d : NoDup (map DDenom x) -> DDenom c ∈ map DDenom x ->
  dec_sum (map (fun y => if String.eqb (DDenom y) (DDenom c)
                         then mkDecCoin (DDenom y) (DAmount y + DAmount c) else y) x) d
  = dec_sum x d + if String.eqb (DDenom c) d then DAmount c else 0.
Proof.
  induction x as [|y x IH]; simpl; [by intros _ ?%not_elem_of_nil|].
  intros [Hy Hnd]%NoDup_cons Hin. destruct (String.eqb_spec (DDenom y) (DDenom c)) as [Heq|Hne].
  - assert (map (fun y => if String.eqb (DDenom y) (DDenom c)
                         then mkDecCoin (DDenom y) (DAmount y + DAmount c) else y) x = x) as ->.
    { clear -Hy Heq. induction x as [|z x IH]; [done|]. simpl in *.
      apply not_elem_of_cons in Hy as [? ?].
      rewrite (proj2 (String.eqb_neq _ _)) by congruence. f_equal. auto. }
    simpl. rewrite <- Heq. destruct (String.eqb (DDenom y) d); lia.
  - apply elem_of_cons in Hin as [?|Hin]; [congruence|]. rewrite (IH Hnd Hin). lia.
Qed.

#[export] Instance ref_dec_coins_laws : DecCoinsLaws.
Proof.
  split; cbn -[dec_ok dec_nonzero coins_ok chop]; try done; intros.
  - case_bool_decide; by apply dec_checked_inv in H1 as [-> ?].
  - case_bool_decide; apply dec_checked_inv in H1 as [-> _].
    + apply dec_sum_bump; [by apply dec_ok_nodup|done].
    + rewrite dec_sum_nonzero. simpl. lia.
  - by apply dec_checked_inv in H1 as [-> ?].
  - apply dec_checked_inv in H1 as [-> _]. rewrite dec_sum_nonzero, dec_sum_map.
    + apply chop_round.
    + done.
    + by apply dec_ok_nodup.
  - res_inv H0. by apply checked_inv in E as [-> ?].
  - res_inv H0. apply checked_inv in E as [-> Hok].
    rewrite coins_ok_amount by done. rewrite coins_sum_sorted, coins_sum_nonzero.
    apply whole_sum. by apply dec_ok_nodup.
  - by injection H0 as <-.
Qed.

(** Subtraction *)
Definition minus (y : list Coin) (c : Coin) : Coin :=
  mkCoin (Denom c) (Amount c - coins_sum y (Denom c)).

#[export] Instance ref_coin_sub : CoinSubOps := {|
  CoinsSub x y :=
    if forallb (fun c => coins_sum y (Denom c) <=? coins_sum x (Denom c)) y
    then Ok (nonzero (map (minus y) x)) else Panic;
|}.

Lemma coins_ok_nodup cs : coins_ok cs = true -> NoDup (map Denom cs).
Proof.
  unfold coins_ok. intros [[_ Hn]%andb_true_iff _]%andb_true_iff. by apply bool_decide_eq_true in Hn.
Qed.

Lemma coins_sum_minus y x d : NoDup (map Denom x) ->
  coins_sum (map (minus y) x) d
  = coins_sum x d - if bool_decide (d ∈ map Denom x) then coins_sum y d else 0.
Proof.
  induction x as [|c x IH]; intros Hn; [by rewrite bool_decide_eq_false_2 by apply not_elem_of_nil|].
  apply NoDup_cons in Hn as [Hc Hn]. cbn [map coins_sum]. rewrite IH by done. cbn [minus Denom Amount].
  destruct (String.eqb_spec (Denom c) d) as [<-|Hne].
  - rewrite (bool_decide_eq_false_2 (Denom c ∈ map Denom x)) by done.
    rewrite bool_decide_eq_true_2 by left. lia.
  - rewrite (bool_decide_ext (d ∈ Denom c :: map Denom x) (d ∈ map Denom x)); [lia|].
    rewrite elem_of_cons. naive_solver.
Qed.

Lemma sub_covered x y d : coins_ok y = true ->
  forallb (fun c => coins_sum y (Denom c) <=? coins_sum x (Denom c)) y = true ->
  d ∉ map Denom x -> coins_sum y d = 0.
Proof.
  intros Hy Hall Hd. destruct (decide (d ∈ map Denom y)) as [Hin|]; [|by apply coins_sum_absent].
  apply list_elem_of_fmap in Hin as (c & -> & Hc). rewrite forallb_forall in Hall.
  apply list_elem_of_In in Hc. apply Hall in Hc. zbool.
  rewrite (coins_sum_absent x) in Hc by done. pose proof (coins_sum_nonneg y (Denom c) Hy). lia.
Qed.

Lemma omap_sorted (f : Coin -> option Coin) x :
  (forall c c', f c = Some c' -> Denom c' = Denom c /\ 0 < Amount c') ->
  coins_ok x = true -> coins_ok (omap f x) = true.
Proof.
  intros Hf. unfold coins_ok. rewrite !andb_true_iff, !bool_decide_eq_true, !forallb_forall.
  assert (forall c', c' ∈ omap f x -> exists c, c ∈ x /\ Denom c' = Denom c /\ 0 < Amount c') as Hin.
  { intros c' (c & Hc & Hfc)%list_elem_of_omap. exists c. split; [done|]. by apply Hf. }
  intros [[Hs Hn] Hv]. split; [split|].
  - clear Hv Hn Hin. induction x as [|c x IH]; [done|]. cbn [strictly_sorted] in Hs.
    apply andb_true_iff in Hs as [Hc Hs]. simpl. destruct (f c) as [c'|] eqn:Hfc; [|by apply IH].
    apply Hf in Hfc as [Hd _]. cbn [strictly_sorted]. rewrite andb_true_iff. split; [|by apply IH].
    rewrite forallb_forall in *. intros e He. apply list_elem_of_In, list_elem_of_omap in He.
    destruct He as (e0 & He0 & Hfe). apply Hf in Hfe as [Hde _]. unfold denom_lt. rewrite Hd, Hde.
    apply Hc. by apply list_elem_of_In.
  - clear Hs Hv. induction x as [|c x IH]; [done|]. simpl in *. apply NoDup_cons in Hn as [Hc Hn].
    destruct (f c) as [c'|] eqn:Hfc; [|by apply IH; [intros e He; destruct (Hin e He) as (z & Hz & ?);
      apply list_elem_of_omap in He as (z' & Hz' & Hfz); exists z'; split; [done|by apply Hf]|]].
    apply NoDup_cons. split.
    + intros (e & He & Hin')%list_elem_of_fmap. apply list_elem_of_omap in Hin' as (z & Hz & Hfz).
      apply Hf in Hfz as [Hde _]. apply Hf in Hfc as [Hd _]. apply Hc.
      apply list_elem_of_fmap. exists z. split; [congruence|done].
    + apply IH; [|done]. intros e He. apply list_elem_of_omap in He as (z' & Hz' & Hfz).
      exists z'. split; [done|by apply Hf].
  - intros c' Hc'. apply list_elem_of_In, Hin in Hc' as (c & Hc & -> & Hp).
    apply list_elem_of_In, Hv in Hc. apply andb_true_iff in Hc as [-> _]. by apply Z.ltb_lt.
Qed.

Lemma sub_sorted x y : coins_ok x = true -> coins_ok y = true ->
  forallb (fun c => coins_sum y (Denom c) <=? coins_sum x (Denom c)) y = true ->
  coins_ok (nonzero (map (minus y) x)) = true.
Proof.
  intros Hx Hy Hall.
  set (f c := if 0 <? Amount (minus y c) then Some (minus y c) else None).
  replace (nonzero (map (minus y) x)) with (omap f x).
  { apply omap_sorted; [|done]. intros c c'. unfold f. case_match; intros; simplify_eq. zbool. done. }
  assert (forall c, c ∈ x -> 0 <= Amount (minus y c)) as Hpos.
  { intros c Hc. simpl. rewrite <- (coins_sum_in x c) by (done || by apply coins_ok_nodup).
    destruct (decide (Denom c ∈ map Denom y)) as [Hin|]; [|rewrite (coins_sum_absent y) by done;
      pose proof (coins_sum_nonneg x (Denom c) Hx); lia].
    apply list_elem_of_fmap in Hin as (c' & -> & Hc'). rewrite forallb_forall in Hall.
    apply list_elem_of_In, Hall in Hc'. zbool. lia. }
  clear Hx Hall. induction x as [|c x IH]; [done|]. cbn [omap list_omap map nonzero List.filter].
  specialize (Hpos c (list_elem_of_here _ _)) as Hc. subst f. cbn beta.
  destruct (Z.ltb_spec 0 (Amount (minus y c))), (Z.eqb_spec (Amount (minus y c)) 0); try lia;
    cbn [negb]; [f_equal|]; apply IH; intros; apply Hpos; by right.
Qed.

#[export] Instance ref_coin_sub_laws : CoinSubLaws.
Proof.
  split; cbn -[coins_ok]; intros.
  - rewrite (proj2 (forallb_forall _ _)); [done|]. intros c _. apply Z.leb_le.
    by rewrite <- !coins_ok_amount.
  - case_match eqn:E; [|done]. injection H1 as <-.
    rewrite find_amount_sum, coins_sum_nonzero, coins_sum_minus, !coins_ok_amount
      by first [done|by apply coins_ok_nodup
               |apply nonzero_nodup; rewrite map_map; by apply coins_ok_nodup].
    case_bool_decide; [done|]. rewrite (sub_covered x y d); done.
  - case_match eqn:E; [|done]. injection H1 as <-. by apply sub_sorted.
  - by apply coins_ok_nodup.
  - case_match eqn:E; [|done]. rewrite forallb_forall in E. rewrite !coins_ok_amount in H1 by done.
    destruct (decide (d ∈ map Denom y)) as [Hin|Hout].
    + apply list_elem_of_fmap in Hin as (c & -> & Hc). apply list_elem_of_In, E in Hc. zbool. lia.
    + rewrite (coins_sum_absent y) in H1 by done. pose proof (coins_sum_nonneg x d H). lia.
  - by apply omap_sorted.
Qed.

Definition denom_le (x y : Coin) : Prop := String.leb (Denom x) (Denom y) = true.
#[export] Instance denom_le_dec : RelDecision denom_le.
Proof. intros x y. unfold denom_le. apply _. Defined.

Lemma string_leb_trans s1 s2 s3 : String.leb s1 s2 = true -> String.leb s2 s3 = true -> String.leb s1 s3 = true.
Proof.
  unfold String.leb. revert s2 s3. induction s1 as [|a s1 IH]; intros [|b s2] [|c s3]; simpl; try done.
  unfold Ascii.compare.
  destruct (N.compare_spec (Ascii.N_of_ascii a) (Ascii.N_of_ascii b)) as [E1|E1|E1]; try done;
    destruct (N.compare_spec (Ascii.N_of_ascii b) (Ascii.N_of_ascii c)) as [E2|E2|E2]; try done;
    destruct (N.compare_spec (Ascii.N_of_ascii a) (Ascii.N_of_ascii c)) as [E3|E3|E3]; try done; try lia.
  apply IH.
Qed.

#[export] Instance denom_le_trans : Transitive denom_le.
Proof. intros x y z. apply string_leb_trans. Qed.
#[export] Instance denom_le_total : Total denom_le.
Proof. intros x y. apply String.leb_total. Qed.

#[export] Instance ref_coin_sort : CoinSortOps := {|
  CoinsSort := merge_sort denom_le;
|}.

#[export] Instance ref_coin_sort_laws : CoinSortLaws.
Proof.
  split; simpl; [intros; apply merge_sort_Permutation|].
  intros cs c Hc Hall. unfold find_amount.
  destruct (List.find _ _) as [c'|] eqn:E.
  - apply find_some in E as [Hin Heq]. apply String.eqb_eq in Heq. apply Hall; [|done].
    by rewrite <- list_elem_of_In, merge_sort_Permutation in Hin.
  - pose proof (find_none _ _ E c) as Hno. simpl in Hno. rewrite String.eqb_refl in Hno.
    discriminate Hno. by rewrite <- list_elem_of_In, merge_sort_Permutation.
Qed.

#[export] Instance ref_sort_valid : SortLaws.
Proof.
  intros cs Hnd Hall. cbn [CoinsSort ref_coin_sort CoinsIsValid ref_coins]. unfold coins_ok.
  pose proof (StronglySorted_merge_sort denom_le cs) as Hs. pose proof (merge_sort_Permutation denom_le cs) as Hp.
  assert (NoDup (map Denom (merge_sort denom_le cs))) as Hn by (by rewrite Hp).
  rewrite (bool_decide_eq_true_2 _ Hn), andb_true_r, andb_true_iff. split.
  - clear Hp Hall Hnd. induction Hs as [|c l Hs IH Hc]; [done|]. cbn [map strictly_sorted] in *.
    apply NoDup_cons in Hn as [Hcn Hn]. rewrite (IH Hn), andb_true_r. apply forallb_forall. intros c' Hin.
    apply list_elem_of_In in Hin. rewrite Forall_forall in Hc. specialize (Hc _ Hin). unfold denom_le, String.leb in Hc.
    unfold denom_lt. destruct (String.compare _ _) eqn:E; try done. apply String.compare_eq_iff in E.
    exfalso. apply Hcn. rewrite E. by apply list_elem_of_fmap_2.
  - apply forallb_forall. intros c Hin. apply list_elem_of_In in Hin. rewrite Hp in Hin.
    destruct (Hall _ Hin) as [Hd Ha]. apply andb_true_iff. split; [exact Hd|by apply Z.ltb_lt].
Qed.

(** ** A validator set *)
Record ref_validator : Type := mkRefValidator {
  rv_addr : string; rv_power : Z; rv_bonded : bool; rv_jailed : bool;
}.

Definition validator_of (v : ref_validator) : ValidatorI :=
  mkValidatorI ("dovaloper1" +:+ rv_addr v) (rv_bonded v) (rv_jailed v) (Ok (rv_addr v))
    (rv_power v * 1000000) (fun r => Z.quot (rv_power v * 1000000) r).

#[export] Instance ref_staking : StakingOps (list ref_validator) := {|
  Validator k a :=
    match List.find (fun v => String.eqb (rv_addr v) a) k with
    | Some v => Ok (Some (validator_of v))
    | None => Err (SdkError "ErrNoValidatorFound")
    end;
  TotalBondedTokens k := Ok (Zsum (map (fun v => rv_power v * 1000000) k));
  ValidatorsPowerStoreIterator k := Ok (map rv_addr k);
  MaxValidators _ := Ok 100;
  PowerReduction _ := 1000000;
  Slash a _ _ fraction k := map (fun v => if String.eqb (rv_addr v) a
    then mkRefValidator a (rv_power v - rv_power v * fraction / Precision) (rv_bonded v) (rv_jailed v)
    else v) k;
  Jail a k := map (fun v => if String.eqb (rv_addr v) a
    then mkRefValidator a (rv_power v) (rv_bonded v) true else v) k;
|}.

(** ** Distribution records what was allocated; the ledger has no metadata *)
#[export] Instance ref_distr : DistrOps (list (string * list DecCoin)) := {|
  AllocateTokensToValidator v cs d := (GetOperator v, cs) :: d;
|}.
#[export] Instance ref_fee_pool : FeePoolOps (list DecCoin) := {|
  FeePool_Get d := Ok d;
  FeePool_Set p _ := p;
|}.
#[export] Instance ref_fee_pool_laws : FeePoolLaws (list DecCoin).
Proof. split; done. Qed.
#[export] Instance ref_meta : BankMetaOps ledger := {|
  HasDenomMetaData _ _ := true;
  SetDenomMetaData _ l := l;
|}.

(** ** One possible order of map iteration *)
#[export] Instance ref_range : MapRange := fun A m => map_to_list m.
#[export] Instance ref_range_laws : MapRangeLaws.
Proof. intros A m. done. Qed.
