(* ===== verification/Core.v ===== *)
(** * The shared constants and helpers of the chain

    [src/types] (denominations, block arithmetic, address lengths) and
    [src/custom/upgrade/legacy] (which historical behaviour a query follows). *)
From stdpp Require Import base gmap sets list strings fin_maps.
From Stdlib Require Import ZArith Lia Ascii.
From S2P Require Import Prelude.
#[local] Open Scope Z_scope.

(** ** [strings.ToUpper] of ASCII text *)
Definition upper (c : ascii) : ascii :=
  let n := nat_of_ascii c in
  if (97 <=? n)%nat && (n <=? 122)%nat then ascii_of_nat (n - 32) else c.
Fixpoint ToUpper (s : string) : string :=
  match s with EmptyString => EmptyString | String c s => String (upper c) (ToUpper s) end.

(** ** src/types/assets/assets.go *)
Definition MicroDoDenom : string := "udo".
Definition MicroDODxDenom : string := "udodx".
Definition MicroSDRDenom : string := "usdr".
Definition MicroUSDDenom : string := "uusd".
Definition MicroKRWDenom : string := "ukrw".
Definition MicroCNYDenom : string := "ucny".
Definition MicroGBPDenom : string := "ugbp".
Definition MicroMNTDenom : string := "umnt".
Definition MicroUnit : Z := 10 ^ 6.

(** ** src/types/util/blocks.go *)
Definition BlocksPerMinute : Z := 60.
Definition BlocksPerHour : Z := BlocksPerMinute * 60.
Definition BlocksPerDay : Z := BlocksPerHour * 24.
Definition BlocksPerWeek : Z := BlocksPerDay * 7.
Definition BlocksPerMonth : Z := BlocksPerDay * 30.
Definition BlocksPerYear : Z := BlocksPerDay * 365.

(** The remainder by zero is a run-time panic. *)
Definition IsPeriodLastBlock (ctx : Ctx) (blocksPerPeriod : Z) : res bool :=
  if blocksPerPeriod =? 0 then Panic
  else Ok (u64 (u64 (BlockHeight ctx) + 1) mod blocksPerPeriod =? 0).

(** ** src/types/util/address.go *)
Definition AddressVerifier (bz : string) : res unit :=
  if negb (Nat.eqb (String.length bz) 20) then Err (Plain "incorrect address length")
  else Ok tt.

(** ** src/types/fork/fork.go and src/types/upgrade.go *)
Definition DoCommunityGovernanceHeight : Z := 1540500.
Definition ReplayWriteOptimizationHeight : Z := 2547000.

(** ** src/custom/upgrade/legacy/height.go *)
Definition ColumbusChainID : string := "cookie-1".
Definition BombayChainID : string := "bombay-12".
Definition RebelChainID : string := "rebel-2".
Definition MainnetUpgradeHeightV1 : Z := 13215800.
Definition MainnetUpgradeHeightV2 : Z := 18303000.
Definition TestnetUpgradeHeightV1 : Z := 14584970.
Definition TestnetUpgradeHeightV2 : Z := 19354000.
Definition LegacyUpgradeHeightV1 : Z := 0.
Definition LegacyUpgradeHeightV2 : Z := 70.

Inductive LegacyHandlingVersion : Type :=
| LegacyHandlingNone
| LegacyHandlingV1
| LegacyHandlingV2.

Definition GetLegacyHandling (chainID : string) (blockHeight : Z) : LegacyHandlingVersion :=
  if blockHeight =? 0 then LegacyHandlingNone
  else if String.eqb chainID ColumbusChainID then
    if blockHeight <? MainnetUpgradeHeightV1 then LegacyHandlingV1
    else if blockHeight <? MainnetUpgradeHeightV2 then LegacyHandlingV2
    else LegacyHandlingNone
  else if String.eqb chainID RebelChainID then
    if blockHeight <? TestnetUpgradeHeightV1 then LegacyHandlingV1
    else if blockHeight <? TestnetUpgradeHeightV2 then LegacyHandlingV2
    else LegacyHandlingNone
  else if String.eqb chainID "localdo-legacy" then
    if blockHeight <? LegacyUpgradeHeightV1 then LegacyHandlingV1
    else if blockHeight <? LegacyUpgradeHeightV2 then LegacyHandlingV2
    else LegacyHandlingNone
  else LegacyHandlingNone.

(** ** Lemmas *)

(** At block heights the chain can reach, the last block of a period is the
    one whose successor's height is a multiple of the period. *)
Lemma IsPeriodLastBlock_eq ctx n b :
  0 <= BlockHeight ctx < 2 ^ 63 ->
  IsPeriodLastBlock ctx n = Ok b -> n <> 0 /\ b = ((BlockHeight ctx + 1) mod n =? 0).
Proof.
  unfold IsPeriodLastBlock, u64. intros Hh H. destruct (Z.eqb_spec n 0); [done|].
  injection H as <-. split; [done|].
  rewrite (Z.mod_small (BlockHeight ctx)) by lia.
  by rewrite (Z.mod_small (BlockHeight ctx + 1)) by lia.
Qed.

Definition legacy_rank (v : LegacyHandlingVersion) : Z :=
  match v with LegacyHandlingV1 => 0 | LegacyHandlingV2 => 1 | LegacyHandlingNone => 2 end.
