(* ===== verification/DodxStaking.v ===== *)
(** * DODx governance staking (src/x/dodxstaking)

    The module escrows [udodx] in its module account and records how much
    each account has staked; the governance tally reads the records.  [State]
    is the module's store together with the bank ledger; [Stake] and
    [Unstake] are the message handlers, [InitGenesis] and [ExportGenesis] the
    genesis functions.  The theorems: the recorded total is the sum of the
    recorded stakes and never exceeds the escrow, on every reachable state;
    an unstake within the stake always succeeds and pays exactly; stake then
    unstake is the identity; exporting and importing keeps the state. *)
From stdpp Require Import base gmap sets list strings fin_maps.
From Stdlib Require Import ZArith Lia.
From S2P Require Import Prelude Sdk SdkRef Core.
#[local] Open Scope Z_scope.

(** ** types/keys.go, types/errors.go *)
Definition ModuleName : string := "dodxstaking".
Definition StakeKeyPrefix : Ascii.ascii := Ascii.ascii_of_nat 1.
Definition TotalStakedKey : string := String (Ascii.ascii_of_nat 2) EmptyString.
Definition GovernanceEnabledKey : string := String (Ascii.ascii_of_nat 3) EmptyString.

Definition ErrInvalidAmount : error := Registered ModuleName 2.
Definition ErrInsufficientStake : error := Registered ModuleName 3.
Definition ErrInvalidStakeDenom : error := Registered ModuleName 4.
Definition ErrDuplicateStake : error := Registered ModuleName 5.

Record MsgStake : Type := mkMsgStake { Staker : string; StakeAmount : Coin }.
Record MsgUnstake : Type := mkMsgUnstake { Unstaker : string; UnstakeAmount : Coin }.
Record StakeRecord : Type := mkStakeRecord { Address : string; RecAmount : Coin }.
Record GenesisState : Type := mkGenesisState {
  Stakes : list StakeRecord;
  GenGovernanceEnabled : bool;
}.

(** The store: the entries under [StakeKeyPrefix], the one at
    [TotalStakedKey] and the flag at [GovernanceEnabledKey]; and the bank. *)
Record State (B : Type) : Type := mkState {
  st_stakes : gmap string Z;
  st_total : option Z;
  st_enabled : bool;
  st_bank : B;
}.
Arguments mkState {B}.
Arguments st_stakes {B}.
Arguments st_total {B}.
Arguments st_enabled {B}.
Arguments st_bank {B}.

Definition stakeKey (addr : AccAddress) : string := String StakeKeyPrefix addr.

Definition DefaultGenesisState : GenesisState := mkGenesisState [] false.

Section ops.
Context {B : Type} `{BankOps B} `{MathOps} `{CoinOps} `{AddrCodec}.

(** ** keeper/keeper.go *)
Definition GetStakeAmount (s : State B) (addr : AccAddress) : Z :=
  default 0 (st_stakes s !! addr).

Definition GetStake (s : State B) (addr : AccAddress) : res Coin :=
  NewCoin MicroDODxDenom (GetStakeAmount s addr).

Definition SetStakeAmount (addr : AccAddress) (amount : Z) : M (State B) unit :=
  modify (fun s =>
    mkState (if amount =? 0 then delete addr (st_stakes s) else <[addr := amount]> (st_stakes s))
            (st_total s) (st_enabled s) (st_bank s)).

Definition GetTotalStakedAmount (s : State B) : Z := default 0 (st_total s).

Definition GetTotalStaked (s : State B) : res Coin :=
  NewCoin MicroDODxDenom (GetTotalStakedAmount s).

Definition SetTotalStakedAmount (amount : Z) : M (State B) unit :=
  modify (fun s =>
    mkState (st_stakes s) (if amount =? 0 then None else Some amount) (st_enabled s) (st_bank s)).

Definition AddStake (addr : AccAddress) (amount : Z) : M (State B) unit :=
  cur ← gets (fun s => GetStakeAmount s addr);
  v ← lift (IntAdd cur amount);
  SetStakeAmount addr v ;;
  total ← gets GetTotalStakedAmount;
  t ← lift (IntAdd total amount);
  SetTotalStakedAmount t.

Definition RemoveStake (addr : AccAddress) (amount : Z) : M (State B) unit :=
  current ← gets (fun s => GetStakeAmount s addr);
  if current <? amount then throw ErrInsufficientStake
  else
    v ← lift (IntSub current amount);
    SetStakeAmount addr v ;;
    total ← gets GetTotalStakedAmount;
    t ← lift (IntSub total amount);
    SetTotalStakedAmount t.

(** The handler threads an accumulator and answers [true] to stop. *)
Fixpoint iterate_until {A} (handler : AccAddress -> Z -> A -> res (A * bool))
    (l : list (string * Z)) (a : A) : res A :=
  match l with
  | [] => Ok a
  | (addr, amount) :: l =>
      '(a', stop) ← handler addr amount a;
      if stop : bool then Ok a' else iterate_until handler l a'
  end.

Definition IterateStakes {A} (handler : AccAddress -> Z -> A -> res (A * bool))
    (s : State B) (a : A) : res A :=
  iterate_until handler (kv_iter (st_stakes s)) a.

Definition SetGovernanceEnabled (enabled : bool) : M (State B) unit :=
  modify (fun s => mkState (st_stakes s) (st_total s) enabled (st_bank s)).

Definition GovernanceEnabled (s : State B) : bool := st_enabled s.

(** A call of the bank on the ledger of the state. *)
Definition bank_call (f : B -> res B) : M (State B) unit := fun s =>
  match f (st_bank s) with
  | Ok b => (Ok tt, mkState (st_stakes s) (st_total s) (st_enabled s) b)
  | Err e => (Err e, s)
  | Panic => (Panic, s)
  end.

(** ** types/msgs.go *)
Definition validateStakeMsg (staker : string) (amount : Coin) : res unit :=
  match AccAddressFromBech32 staker with
  | Panic => Panic
  | Err _ => Err (SdkError "ErrInvalidAddress")
  | Ok _ =>
    if negb (String.eqb (Denom amount) MicroDODxDenom) then Err ErrInvalidStakeDenom
    else if negb (CoinIsValid amount) || (Amount amount <=? 0) || (100 <? bit_len (Amount amount))
    then Err ErrInvalidAmount
    else Ok tt
  end.

(** ** keeper/msg_server.go *)
Definition Stake (msg : MsgStake) : M (State B) unit :=
  lift (validateStakeMsg (Staker msg) (StakeAmount msg)) ;;
  staker ← lift (AccAddressFromBech32 (Staker msg));
  coins ← lift (NewCoins [StakeAmount msg]);
  bank_call (SendCoinsFromAccountToModule staker ModuleName coins) ;;
  AddStake staker (Amount (StakeAmount msg)).

Definition Unstake (msg : MsgUnstake) : M (State B) unit :=
  lift (validateStakeMsg (Unstaker msg) (UnstakeAmount msg)) ;;
  staker ← lift (AccAddressFromBech32 (Unstaker msg));
  RemoveStake staker (Amount (UnstakeAmount msg)) ;;
  coins ← lift (NewCoins [UnstakeAmount msg]);
  bank_call (SendCoinsFromModuleToAccount ModuleName staker coins).

(** ** keeper/querier.go *)
Definition QueryStake (address : string) (s : State B) : res Coin :=
  match AccAddressFromBech32 address with
  | Ok addr => GetStake s addr
  | Err _ => Err (Plain "InvalidArgument")
  | Panic => Panic
  end.

(** ** types/genesis.go and genesis.go *)
Fixpoint validate_records (seen : gset string) (l : list StakeRecord) : res unit :=
  match l with
  | [] => Ok tt
  | stake :: l =>
      addr ← AccAddressFromBech32 (Address stake);
      let key := AccAddressString addr in
      if bool_decide (key ∈ seen) then Err ErrDuplicateStake
      else if negb (String.eqb (Denom (RecAmount stake)) MicroDODxDenom)
      then Err ErrInvalidStakeDenom
      else if negb (CoinIsValid (RecAmount stake)) || negb (0 <? Amount (RecAmount stake))
      then Err ErrInvalidAmount
      else validate_records ({[key]} ∪ seen) l
  end.

Definition ValidateGenesis (data : GenesisState) : res unit := validate_records ∅ (Stakes data).

Definition init_record (stake : StakeRecord) : M (State B) unit :=
  match AccAddressFromBech32 (Address stake) with
  | Ok addr =>
      SetStakeAmount addr (Amount (RecAmount stake)) ;;
      total ← gets GetTotalStakedAmount;
      t ← lift (IntAdd total (Amount (RecAmount stake)));
      SetTotalStakedAmount t
  | _ => panic
  end.

Definition InitGenesis (data : GenesisState) : M (State B) unit :=
  forM init_record (Stakes data) ;;
  SetGovernanceEnabled (GenGovernanceEnabled data).

Definition ExportGenesis (s : State B) : res GenesisState :=
  stakes ← IterateStakes
    (fun addr amount acc =>
       c ← NewCoin MicroDODxDenom amount;
       Ok (acc ++ [mkStakeRecord (AccAddressString addr) c], false))
    s (Stakes DefaultGenesisState);
  Ok (mkGenesisState stakes (GovernanceEnabled s)).
End ops.

(** ** The invariant *)
Section invariant.
Context {B : Type} `{BankOps B} `{MathOps} `{CoinOps} `{AddrCodec}.
Context `{!BankLaws B} `{!MathLaws} `{!CoinLaws} `{!AddrLaws}.
Implicit Types s : State B.

(** Recorded stakes are positive, the recorded total is their sum and fits
    its type, a zero total is not stored, and staker addresses can be
    printed and read back. *)
Record inv (s : State B) : Prop := {
  inv_pos : map_Forall (fun _ v => 0 < v) (st_stakes s);
  inv_total : GetTotalStakedAmount s = map_sum (st_stakes s);
  inv_stored : st_total s <> Some 0;
  inv_safe : int_safe (GetTotalStakedAmount s);
  inv_addr : map_Forall (fun a _ => AccAddressFromBech32 (AccAddressString a) = Ok a)
               (st_stakes s);
}.

Definition escrow (s : State B) : Z :=
  GetBalance (st_bank s) (ModuleAddress ModuleName) MicroDODxDenom.

(** Every recorded stake can be paid back at the same time. *)
Definition solvent (s : State B) : Prop := GetTotalStakedAmount s <= escrow s.

(** The state after the recorded stake of [a] becomes [v] and the total [t]. *)
Definition updated (s : State B) (a : AccAddress) (v t : Z) : State B :=
  mkState (if v =? 0 then delete a (st_stakes s) else <[a := v]> (st_stakes s))
          (if t =? 0 then None else Some t) (st_enabled s) (st_bank s).

Lemma GetStakeAmount_updated s a v t a' :
  GetStakeAmount (updated s a v t) a' = if String.eqb a a' then v else GetStakeAmount s a'.
Proof.
  unfold GetStakeAmount, updated. simpl.
  destruct (Z.eqb_spec v 0) as [->|]; destruct (String.eqb_spec a a') as [<-|].
  - by rewrite lookup_delete_eq.
  - by rewrite lookup_delete_ne.
  - by rewrite lookup_insert_eq.
  - by rewrite lookup_insert_ne.
Qed.

Lemma GetTotal_updated s a v t : GetTotalStakedAmount (updated s a v t) = t.
Proof. unfold GetTotalStakedAmount, updated. simpl. destruct (Z.eqb_spec t 0); simpl; lia. Qed.

Lemma stake_nonneg s a : inv s -> 0 <= GetStakeAmount s a.
Proof.
  intros I. unfold GetStakeAmount. destruct (st_stakes s !! a) eqn:E; simpl; [|lia].
  apply (inv_pos s I) in E. lia.
Qed.

Lemma stake_le_total s a : inv s -> GetStakeAmount s a <= GetTotalStakedAmount s.
Proof.
  intros I. rewrite (inv_total s I). apply map_sum_lookup.
  eapply map_Forall_impl; [apply (inv_pos s I)|]. simpl. lia.
Qed.

Lemma inv_updated s a v :
  inv s -> 0 <= v -> int_safe (GetTotalStakedAmount s - GetStakeAmount s a + v) ->
  AccAddressFromBech32 (AccAddressString a) = Ok a ->
  inv (updated s a v (GetTotalStakedAmount s - GetStakeAmount s a + v)).
Proof.
  intros I Hv Hs Ha. set (t := _ - _ + _).
  assert (0 <= t) by (pose proof (stake_le_total s a I); lia).
  split; rewrite ?GetTotal_updated; try done; unfold updated; simpl.
  - destruct (Z.eqb_spec v 0); [by apply map_Forall_delete, inv_pos|].
    apply map_Forall_insert_2; [lia|by apply inv_pos].
  - subst t. rewrite (inv_total s I). unfold GetStakeAmount.
    destruct (Z.eqb_spec v 0); rewrite ?map_sum_delete, ?map_sum_insert; lia.
  - destruct (Z.eqb_spec t 0); congruence.
  - destruct (Z.eqb_spec v 0); [by apply map_Forall_delete, inv_addr|].
    apply map_Forall_insert_2; [done|by apply inv_addr].
Qed.

Lemma AddStake_ok a x s u s' :
  AddStake a x s = (Ok u, s') ->
  s' = updated s a (GetStakeAmount s a + x) (GetTotalStakedAmount s + x) /\
  int_safe (GetTotalStakedAmount s + x).
Proof.
  unfold AddStake, SetTotalStakedAmount, SetStakeAmount. intros E. m_inv E.
  pose proof (IntAdd_safe _ _ _ L0) as Hs. math_inv. subst. done.
Qed.

Lemma RemoveStake_ok a x s u s' :
  RemoveStake a x s = (Ok u, s') ->
  s' = updated s a (GetStakeAmount s a - x) (GetTotalStakedAmount s - x) /\
  x <= GetStakeAmount s a.
Proof.
  unfold RemoveStake, SetTotalStakedAmount, SetStakeAmount. intros E. m_inv E. zbool.
  math_inv. subst. done.
Qed.

Lemma RemoveStake_runs a x s :
  inv s -> 0 <= x <= GetStakeAmount s a ->
  RemoveStake a x s =
    (Ok tt, updated s a (GetStakeAmount s a - x) (GetTotalStakedAmount s - x)).
Proof.
  intros I Hx. pose proof (stake_le_total s a I). pose proof (inv_safe s I) as Hs.
  unfold int_safe in *. unfold RemoveStake.
  rewrite (M_bind_run _ _ s (GetStakeAmount s a) s) by done.
  destruct (Z.ltb_spec (GetStakeAmount s a) x); [lia|].
  erewrite (M_bind_run (lift _)) by (unfold lift; rewrite IntSub_ok; [done|unfold int_safe; lia]).
  erewrite (M_bind_run (SetStakeAmount _ _)) by done.
  erewrite (M_bind_run (gets _)) by done.
  erewrite (M_bind_run (lift _)) by (unfold lift; rewrite IntSub_ok; [done|unfold int_safe, GetTotalStakedAmount in *; simpl st_total in *; lia]).
  done.
Qed.

Lemma bank_call_ok (f : B -> res B) s u s' :
  bank_call f s = (Ok u, s') ->
  exists b, f (st_bank s) = Ok b /\
    s' = mkState (st_stakes s) (st_total s) (st_enabled s) b.
Proof. unfold bank_call. destruct (f (st_bank s)); intros; simplify_eq. eauto. Qed.

Lemma validateStakeMsg_ok staker c :
  validateStakeMsg staker c = Ok tt ->
  is_ok (AccAddressFromBech32 staker) = true /\ Denom c = MicroDODxDenom /\
  CoinIsValid c = true /\ 0 < Amount c /\ bit_len (Amount c) <= 100.
Proof.
  unfold validateStakeMsg. intros E. res_inv E. zbool.
  destruct (AccAddressFromBech32 staker); try done.
Qed.

(** ** What the handlers do when they succeed *)
Definition with_bank (s : State B) (b : B) : State B :=
  mkState (st_stakes s) (st_total s) (st_enabled s) b.

Lemma NewCoins_amount c cs :
  NewCoins [c] = Ok cs -> forall d, AmountOf cs d = if String.eqb (Denom c) d then Amount c else 0.
Proof. intros E d. rewrite (NewCoins_inv _ _ d E). simpl. lia. Qed.

Lemma Stake_ok msg s u s' :
  Stake msg s = (Ok u, s') ->
  exists a b cs,
    AccAddressFromBech32 (Staker msg) = Ok a /\
    validateStakeMsg (Staker msg) (StakeAmount msg) = Ok tt /\
    NewCoins [StakeAmount msg] = Ok cs /\
    moved a (ModuleAddress ModuleName) cs (st_bank s) b /\
    s' = updated (with_bank s b) a (GetStakeAmount s a + Amount (StakeAmount msg))
           (GetTotalStakedAmount s + Amount (StakeAmount msg)) /\
    int_safe (GetTotalStakedAmount s + Amount (StakeAmount msg)).
Proof.
  unfold Stake. intros E. m_inv E. destruct v.
  select (bank_call _ _ = _) (fun H => apply bank_call_ok in H as (b & Hb & ->)).
  apply SendAM_inv in Hb. apply AddStake_ok in E as [-> Hs]. eauto 10.
Qed.

Lemma Unstake_ok msg s u s' :
  Unstake msg s = (Ok u, s') ->
  exists a b cs,
    AccAddressFromBech32 (Unstaker msg) = Ok a /\
    validateStakeMsg (Unstaker msg) (UnstakeAmount msg) = Ok tt /\
    NewCoins [UnstakeAmount msg] = Ok cs /\
    Amount (UnstakeAmount msg) <= GetStakeAmount s a /\
    moved (ModuleAddress ModuleName) a cs (st_bank s) b /\
    s' = with_bank (updated s a (GetStakeAmount s a - Amount (UnstakeAmount msg))
                      (GetTotalStakedAmount s - Amount (UnstakeAmount msg))) b.
Proof.
  unfold Unstake. intros E. m_inv E. destruct v.
  select (RemoveStake _ _ _ = _) (fun H => apply RemoveStake_ok in H as [-> Hle]).
  apply bank_call_ok in E as (b & Hb & ->). apply SendMA_inv in Hb. eauto 10.
Qed.

Lemma Stake_inv msg s u s' : inv s -> Stake msg s = (Ok u, s') -> inv s'.
Proof.
  intros I (a & b & cs & Ha & Hv & _ & _ & -> & Hs)%Stake_ok.
  apply validateStakeMsg_ok in Hv as (_ & _ & _ & Hp & _).
  assert (inv (with_bank s b)) as Ib by (destruct I; by split).
  pose proof (stake_nonneg s a I).
  replace (GetTotalStakedAmount s + _) with (GetTotalStakedAmount (with_bank s b)
    - GetStakeAmount (with_bank s b) a + (GetStakeAmount s a + Amount (StakeAmount msg))) in *
    by (change (GetStakeAmount (with_bank s b) a) with (GetStakeAmount s a);
        change (GetTotalStakedAmount (with_bank s b)) with (GetTotalStakedAmount s); lia).
  apply inv_updated; [done|lia|done|by eapply acc_roundtrip].
Qed.

Lemma Unstake_inv msg s u s' : inv s -> Unstake msg s = (Ok u, s') -> inv s'.
Proof.
  intros I (a & b & cs & Ha & Hv & _ & Hle & _ & ->)%Unstake_ok.
  apply validateStakeMsg_ok in Hv as (_ & _ & _ & Hp & _).
  pose proof (stake_le_total s a I). pose proof (inv_safe s I).
  assert (inv (updated s a (GetStakeAmount s a - Amount (UnstakeAmount msg))
                 (GetTotalStakedAmount s - Amount (UnstakeAmount msg)))) as I';
    [|destruct I'; by split].
  replace (GetTotalStakedAmount s - _) with (GetTotalStakedAmount s - GetStakeAmount s a
    + (GetStakeAmount s a - Amount (UnstakeAmount msg))) by lia.
  apply inv_updated; [done|lia| |by eapply acc_roundtrip].
  unfold int_safe in *. lia.
Qed.

Lemma Stake_solvent msg s u s' :
  (forall a, AccAddressFromBech32 (Staker msg) = Ok a -> a <> ModuleAddress ModuleName) ->
  solvent s -> Stake msg s = (Ok u, s') -> solvent s'.
Proof.
  unfold solvent, escrow.
  intros Hne Hs (a & b & cs & Ha & Hv & Hc & (Hm & _ & _) & -> & _)%Stake_ok.
  apply validateStakeMsg_ok in Hv as (_ & Hd & _ & _ & _).
  rewrite GetTotal_updated. simpl. rewrite Hm. unfold at_addr.
  rewrite String.eqb_refl, (proj2 (String.eqb_neq _ _)) by eauto.
  rewrite (NewCoins_amount _ _ Hc), Hd, String.eqb_refl. lia.
Qed.

Lemma Unstake_solvent msg s u s' :
  solvent s -> Unstake msg s = (Ok u, s') -> solvent s'.
Proof.
  unfold solvent, escrow.
  intros Hs (a & b & cs & Ha & Hv & Hc & _ & (Hm & _ & _) & ->)%Unstake_ok.
  apply validateStakeMsg_ok in Hv as (_ & Hd & _ & Hp & _).
  change (GetTotalStakedAmount (with_bank ?x b)) with (GetTotalStakedAmount x).
  rewrite GetTotal_updated. simpl. rewrite Hm. unfold at_addr.
  rewrite String.eqb_refl, (NewCoins_amount _ _ Hc), Hd, String.eqb_refl.
  case_match; lia.
Qed.
End invariant.

(** ** Reachable states *)
Section reachable.
Context {B : Type} `{BankOps B} `{MathOps} `{CoinOps} `{AddrCodec}.
Context `{!BankLaws B} `{!MathLaws} `{!CoinLaws} `{!AddrLaws}.
Implicit Types s : State B.

(** One transition of the chain as this module sees it: a message (no one
    signs for the module account), the governance fork setting the flag, or
    any other module moving coins without touching the escrow downwards. *)
Inductive step : State B -> State B -> Prop :=
| step_stake msg s :
    (forall a, AccAddressFromBech32 (Staker msg) = Ok a -> a <> ModuleAddress ModuleName) ->
    step s (deliver (Stake msg) s)
| step_unstake msg s : step s (deliver (Unstake msg) s)
| step_governance enabled s : step s (deliver (SetGovernanceEnabled enabled) s)
| step_bank s b : escrow s <= escrow (with_bank s b) -> step s (with_bank s b).

Lemma step_preserves s s' : step s s' -> inv s /\ solvent s -> inv s' /\ solvent s'.
Proof.
  intros [msg s0 Hne|msg s0|en s0|s0 b Hb] [I Hs].
  - apply deliver_ind; [done|]. intros u s1 E. eauto using Stake_inv, Stake_solvent.
  - apply deliver_ind; [done|]. intros u s1 E. eauto using Unstake_inv, Unstake_solvent.
  - split; [destruct I; by split|done].
  - split; [destruct I; by split|]. unfold solvent in *.
    change (GetTotalStakedAmount (with_bank s0 b)) with (GetTotalStakedAmount s0). lia.
Qed.


Definition record_total (l : list StakeRecord) : Z :=
  Zsum (map (fun r => Amount (RecAmount r)) l).

Definition blank (b : B) : State B := mkState ∅ None false b.

Lemma inv_blank b : inv (blank b).
Proof.
  split; simpl; try done; try apply (map_Forall_empty (M:=gmap string)).
Qed.

Lemma init_record_ok stake a s u s' :
  AccAddressFromBech32 (Address stake) = Ok a ->
  init_record stake s = (Ok u, s') ->
  s' = updated s a (Amount (RecAmount stake))
         (GetTotalStakedAmount s + Amount (RecAmount stake)) /\
  int_safe (GetTotalStakedAmount s + Amount (RecAmount stake)).
Proof.
  unfold init_record, SetStakeAmount, SetTotalStakedAmount. intros -> E. m_inv E.
  pose proof (IntAdd_safe _ _ _ L) as Hs. math_inv. subst. done.
Qed.

Lemma init_records_inv l : forall seen s u s',
  inv s -> map_Forall (fun a _ => AccAddressString a ∈ seen) (st_stakes s) ->
  validate_records seen l = Ok tt -> forM init_record l s = (Ok u, s') ->
  inv s' /\ GetTotalStakedAmount s' = GetTotalStakedAmount s + record_total l /\
  st_bank s' = st_bank s.
Proof.
  unfold record_total. induction l as [|r l IH]; intros seen s u s' I Hseen Hv E.
  { cbn [forM] in E. m_inv E. simpl. split_and!; [done|lia|done]. }
  simpl in Hv. res_inv Hv. apply orb_false_iff in C1 as [Hc1 Hc2].
  apply bool_decide_eq_false in C. zbool. rename v into a, E0 into Ha.
  cbn [forM] in E. apply M_bind_ok in E as (u1 & s1 & E1 & E).
  apply (init_record_ok _ a) in E1 as [-> Hs]; [|done].
  assert (GetStakeAmount s a = 0) as Hz.
  { unfold GetStakeAmount. destruct (st_stakes s !! a) eqn:Hl; [|done].
    by apply Hseen in Hl. }
  eapply IH in E as (I' & Ht & Hb); [| | |exact Hv].
  - split; [done|]. rewrite Ht, GetTotal_updated, Hb. simpl. split; [lia|done].
  - replace (GetTotalStakedAmount s + _) with (GetTotalStakedAmount s - GetStakeAmount s a
      + Amount (RecAmount r)) in * by lia.
    apply inv_updated; [done|lia|done|by eapply acc_roundtrip].
  - unfold updated. simpl. destruct (Z.eqb_spec (Amount (RecAmount r)) 0); [lia|].
    apply map_Forall_insert_2; [set_solver|].
    eapply map_Forall_impl; [exact Hseen|]. set_solver.
Qed.

Lemma InitGenesis_inv data b u s :
  ValidateGenesis data = Ok tt -> InitGenesis data (blank b) = (Ok u, s) ->
  inv s /\ GetTotalStakedAmount s = record_total (Stakes data) /\ st_bank s = b.
Proof.
  unfold ValidateGenesis, InitGenesis, SetGovernanceEnabled. intros Hv E. m_inv E.
  eapply init_records_inv in E0 as (I & Ht & Hb); [| | |exact Hv].
  - split; [destruct I; by split|]. done.
  - apply inv_blank.
  - apply (map_Forall_empty (M:=gmap string)).
Qed.

End reachable.

(** ** Paying back *)
Section payback.
Context {B : Type} `{BankOps B} `{MathOps} `{CoinOps} `{AddrCodec}.
Context `{!BankLaws B} `{!MathLaws} `{!CoinLaws} `{!AddrLaws}.
Implicit Types s : State B.

Lemma Unstake_runs msg s a :
  HasModuleAccount ModuleName = true -> inv s -> solvent s ->
  validateStakeMsg (Unstaker msg) (UnstakeAmount msg) = Ok tt ->
  AccAddressFromBech32 (Unstaker msg) = Ok a -> BlockedAddr a = false ->
  Amount (UnstakeAmount msg) <= GetStakeAmount s a ->
  exists s', Unstake msg s = (Ok tt, s').
Proof.
  intros Hmod I Hsolv Hv Ha Hbl Hle.
  pose proof (validateStakeMsg_ok _ _ Hv) as (_ & Hd & Hval & Hp & _).
  pose proof (stake_le_total s a I). unfold solvent, escrow in *.
  unfold Unstake. erewrite (M_bind_run (lift _)) by (unfold lift; by rewrite Hv).
  erewrite (M_bind_run (lift _)) by (unfold lift; by rewrite Ha).
  erewrite (M_bind_run (RemoveStake _ _)) by (apply RemoveStake_runs; [done|lia]).
  pose proof (NewCoins_one _ Hval) as Hok.
  destruct (NewCoins [UnstakeAmount msg]) as [cs| |] eqn:Hc; try done.
  erewrite (M_bind_run (lift _)) by done. unfold bank_call. simpl.
  assert (is_ok (SendCoinsFromModuleToAccount ModuleName a cs (st_bank s)) = true) as Hsend.
  { apply SendMA_ok; [done|by eapply NewCoins_valid|done|]. intros d.
    rewrite (NewCoins_amount _ _ Hc). rewrite Hd.
    destruct (String.eqb_spec MicroDODxDenom d) as [<-|]; [lia|apply GetBalance_nonneg]. }
  destruct (SendCoinsFromModuleToAccount _ _ _ _); try done. eauto.
Qed.

(** an unstake message with a valid amount of at most the sender's stake
    always succeeds when the escrow covers the total; it lowers the stake and
    the total by the amount, pays exactly that amount of [udodx] to the
    sender out of the escrow, and leaves every other stake alone. *)
Theorem unstake_pays msg s a :
  HasModuleAccount ModuleName = true -> inv s -> solvent s ->
  validateStakeMsg (Unstaker msg) (UnstakeAmount msg) = Ok tt ->
  AccAddressFromBech32 (Unstaker msg) = Ok a -> BlockedAddr a = false ->
  a <> ModuleAddress ModuleName ->
  Amount (UnstakeAmount msg) <= GetStakeAmount s a ->
  exists s', Unstake msg s = (Ok tt, s') /\
    GetStakeAmount s' a = GetStakeAmount s a - Amount (UnstakeAmount msg) /\
    (forall a', a' <> a -> GetStakeAmount s' a' = GetStakeAmount s a') /\
    GetTotalStakedAmount s' = GetTotalStakedAmount s - Amount (UnstakeAmount msg) /\
    GetBalance (st_bank s') a MicroDODxDenom
      = GetBalance (st_bank s) a MicroDODxDenom + Amount (UnstakeAmount msg) /\
    escrow s' = escrow s - Amount (UnstakeAmount msg).
Proof.
  intros Hmod I Hsolv Hv Ha Hbl Hne Hle.
  destruct (Unstake_runs _ _ _ Hmod I Hsolv Hv Ha Hbl Hle) as [s' E].
  exists s'. split; [done|].
  apply Unstake_ok in E as (a1 & b & cs & Ha1 & _ & Hc & _ & (Hm & _ & _) & ->).
  rewrite Ha in Ha1. injection Ha1 as <-.
  apply validateStakeMsg_ok in Hv as (_ & Hd & _ & _ & _). unfold escrow.
  change (GetTotalStakedAmount (with_bank ?x b)) with (GetTotalStakedAmount x).
  change (st_bank (with_bank _ b)) with b.
  assert (forall x, GetStakeAmount (with_bank x b) = GetStakeAmount x) as Hw by done.
  rewrite Hw, !GetStakeAmount_updated, GetTotal_updated, !Hm, (NewCoins_amount _ _ Hc), Hd.
  unfold at_addr. rewrite !String.eqb_refl.
  rewrite (proj2 (String.eqb_neq (ModuleAddress ModuleName) a)) by done.
  rewrite (proj2 (String.eqb_neq a (ModuleAddress ModuleName))) by done.
  split_and!; try lia. intros a' Ha'. rewrite GetStakeAmount_updated.
  by rewrite (proj2 (String.eqb_neq _ _)) by done.
Qed.

(** an unstake message for more than the sender's stake is refused with
    [ErrInsufficientStake] and changes nothing, whatever the state. *)
Theorem unstake_refused msg s a :
  validateStakeMsg (Unstaker msg) (UnstakeAmount msg) = Ok tt ->
  AccAddressFromBech32 (Unstaker msg) = Ok a ->
  GetStakeAmount s a < Amount (UnstakeAmount msg) ->
  Unstake msg s = (Err ErrInsufficientStake, s).
Proof.
  intros Hv Ha Hlt. unfold Unstake.
  erewrite (M_bind_run (lift _)) by (unfold lift; by rewrite Hv).
  erewrite (M_bind_run (lift _)) by (unfold lift; by rewrite Ha).
  apply M_bind_err. unfold RemoveStake. erewrite (M_bind_run (gets _)) by done.
  by rewrite (proj2 (Z.ltb_lt _ _) Hlt).
Qed.

Lemma updated_back s a x v t :
  inv s -> x = GetStakeAmount s a -> t = GetTotalStakedAmount s -> v <> 0 ->
  forall t' b, updated (with_bank (updated (with_bank s b) a v t') b) a x t = with_bank s b.
Proof.
  intros I -> -> Hv t' b. unfold updated, with_bank. simpl.
  rewrite (proj2 (Z.eqb_neq v 0)) by done. f_equal.
  - unfold GetStakeAmount. destruct (st_stakes s !! a) as [x|] eqn:E; simpl.
    + apply (inv_pos s I) in E as Hx. rewrite (proj2 (Z.eqb_neq x 0)) by lia.
      by rewrite insert_insert_eq, insert_id.
    + by rewrite delete_insert_id.
  - unfold GetTotalStakedAmount. pose proof (inv_stored s I).
    destruct (st_total s) as [x|]; simpl; [|done]. destruct (Z.eqb_spec x 0); congruence.
Qed.

(** staking and unstaking the same coin is the identity: after a
    successful stake from a solvent state, the unstake of the same amount
    succeeds, restores the module's store exactly, and returns every account
    and denomination to its balance before. *)
Theorem stake_unstake_identity staker c s s1 u a :
  HasModuleAccount ModuleName = true -> inv s -> solvent s ->
  AccAddressFromBech32 staker = Ok a -> BlockedAddr a = false ->
  a <> ModuleAddress ModuleName ->
  Stake (mkMsgStake staker c) s = (Ok u, s1) ->
  exists s2, Unstake (mkMsgUnstake staker c) s1 = (Ok tt, s2) /\
    s2 = with_bank s (st_bank s2) /\
    forall x d, GetBalance (st_bank s2) x d = GetBalance (st_bank s) x d.
Proof.
  intros Hmod I Hsolv Ha Hbl Hne E.
  pose proof (Stake_inv _ _ _ _ I E) as I1.
  assert (solvent s1) as Hs1.
  { eapply Stake_solvent; [|exact Hsolv|exact E]. simpl. intros a' Ha'. congruence. }
  apply Stake_ok in E as (a1 & b & cs & Ha1 & Hv & Hc & (Hm & _ & _) & -> & _).
  simpl in *. rewrite Ha in Ha1. injection Ha1 as <-.
  destruct (Unstake_runs (mkMsgUnstake staker c) _ a Hmod I1 Hs1 Hv Ha Hbl) as [s2 E2].
  { rewrite GetStakeAmount_updated, String.eqb_refl. simpl.
    pose proof (stake_nonneg s a I). lia. }
  exists s2. split; [done|].
  apply Unstake_ok in E2 as (a2 & b2 & cs2 & Ha2 & _ & Hc2 & _ & (Hm2 & _ & _) & ->).
  simpl in *. rewrite Ha in Ha2. injection Ha2 as <-.
  rewrite Hc in Hc2. injection Hc2 as <-.
  rewrite GetStakeAmount_updated, String.eqb_refl, GetTotal_updated. split.
  - apply validateStakeMsg_ok in Hv as (_ & _ & _ & Hp & _).
    pose proof (stake_nonneg s a I).
    pose proof (updated_back s a (GetStakeAmount s a + Amount c - Amount c)
      (GetStakeAmount s a + Amount c)
      (GetTotalStakedAmount s + Amount c - Amount c) I ltac:(lia) ltac:(lia) ltac:(lia)
      (GetTotalStakedAmount s + Amount c) b) as Hback.
    apply (f_equal (fun x => with_bank x b2)) in Hback. exact Hback.
  - intros x d. rewrite Hm2, Hm. unfold at_addr. repeat case_match; lia.
Qed.

(** ** Genesis *)
Lemma GetStake_coin v :
  0 <= v -> NewCoin MicroDODxDenom v = Ok (mkCoin MicroDODxDenom v).
Proof. intros. apply NewCoin_ok; [by apply ValidDenom_word|done]. Qed.

Definition export_record (kv : string * Z) : StakeRecord :=
  mkStakeRecord (AccAddressString kv.1) (mkCoin MicroDODxDenom kv.2).

Lemma export_loop (l : list (string * Z)) : forall acc,
  Forall (fun kv => 0 < kv.2) l ->
  iterate_until (fun addr amount acc =>
       c ← NewCoin MicroDODxDenom amount;
       Ok (acc ++ [mkStakeRecord (AccAddressString addr) c], false)) l acc
  = Ok (acc ++ map export_record l).
Proof.
  induction l as [|[k v] l IH]; intros acc Hl; simpl; [by rewrite app_nil_r|].
  apply Forall_cons in Hl as [Hv Hl]. simpl in Hv.
  rewrite GetStake_coin by lia. simpl.
  rewrite IH by done. by rewrite <- app_assoc.
Qed.

Lemma validate_exported l : forall seen,
  Forall (fun kv => 0 < kv.2 /\ AccAddressFromBech32 (AccAddressString kv.1) = Ok kv.1 /\
                    AccAddressString kv.1 ∉ seen) l ->
  NoDup l.*1 ->
  validate_records seen (map export_record l) = Ok tt.
Proof.
  induction l as [|[k v] l IH]; intros seen Hl Hnd; simpl; [done|].
  apply Forall_cons in Hl as [(Hv & Ha & Hs) Hl]. apply NoDup_cons in Hnd as [Hk Hnd].
  simpl in *. rewrite Ha. simpl. rewrite bool_decide_eq_false_2 by done.
  assert (CoinIsValid (mkCoin MicroDODxDenom v) = true) as ->.
  { apply CoinIsValid_spec. split; [by apply ValidDenom_word|simpl; lia]. }
  rewrite (proj2 (Z.ltb_lt _ _) Hv). simpl. apply IH; [|done].
  apply Forall_forall. intros [k' v'] Hin.
  pose proof (proj1 (Forall_forall _ _) Hl _ Hin) as (? & Ha' & ?). simpl in *.
  split_and!; try done. rewrite elem_of_union, elem_of_singleton. intros [Heq|?]; [|done].
  apply Hk. rewrite Heq, Ha in Ha'. injection Ha' as <-.
  by apply (list_elem_of_fmap_2 fst _ _ Hin).
Qed.

Lemma init_exported (l : list (string * Z)) : forall s,
  Forall (fun kv => 0 < kv.2 /\ AccAddressFromBech32 (AccAddressString kv.1) = Ok kv.1) l ->
  0 <= GetTotalStakedAmount s -> st_total s <> Some 0 ->
  int_safe (GetTotalStakedAmount s + Zsum (map snd l)) ->
  exists s', forM init_record (map export_record l) s = (Ok tt, s') /\
    st_stakes s' = foldl (fun acc kv => <[kv.1 := kv.2]> acc) (st_stakes s) l /\
    GetTotalStakedAmount s' = GetTotalStakedAmount s + Zsum (map snd l) /\
    st_total s' <> Some 0 /\ st_bank s' = st_bank s.
Proof.
  induction l as [|[k v] l IH]; intros s Hl Hpos Hst Hsafe; simpl.
  { exists s. split_and!; try done. lia. }
  apply Forall_cons in Hl as [(Hv & Ha) Hl]. simpl in *.
  assert (0 <= Zsum (map snd l)) as Hsum.
  { clear -Hl. unfold Zsum. induction Hl as [|? ? [? _]]; simpl; lia. }
  assert (init_record (export_record (k, v)) s
          = (Ok tt, updated s k v (GetTotalStakedAmount s + v))) as Hrun.
  { unfold init_record. simpl. rewrite Ha.
    erewrite (M_bind_run (SetStakeAmount _ _)) by done.
    erewrite (M_bind_run (gets _)) by done.
    change (GetTotalStakedAmount (mkState _ _ _ _)) with (GetTotalStakedAmount s).
    erewrite (M_bind_run (lift _)).
    2:{ unfold lift. rewrite IntAdd_ok; [done|]. unfold int_safe in *. lia. }
    done. }
  rewrite (M_bind_run _ _ _ _ _ Hrun).
  destruct (IH (updated s k v (GetTotalStakedAmount s + v))) as (s' & E & Hs & Ht & Hn & Hb);
    rewrite ?GetTotal_updated in *; [done|lia| | |].
  - unfold updated. simpl. case_match; [done|zbool; congruence].
  - unfold int_safe in *. lia.
  - exists s'. rewrite E, Hs, Ht, Hb. unfold updated. simpl.
    rewrite (proj2 (Z.eqb_neq v 0)) by lia. split_and!; try done. lia.
Qed.

(** the exported genesis of a consistent state is accepted by
    [ValidateGenesis], and importing it into an empty store rebuilds the
    stakes, the total and the governance flag exactly. *)
Theorem genesis_roundtrip s b :
  inv s ->
  exists data, ExportGenesis s = Ok data /\ ValidateGenesis data = Ok tt /\
    InitGenesis data (blank b) = (Ok tt, with_bank s b).
Proof.
  intros I. set (l := kv_iter (st_stakes s)).
  assert (Forall (fun kv => 0 < kv.2 /\ AccAddressFromBech32 (AccAddressString kv.1) = Ok kv.1) l)
    as Hl.
  { apply Forall_forall. intros [k v] Hin%elem_of_kv_iter.
    split; [by apply (inv_pos s I) in Hin|by apply (inv_addr s I) in Hin]. }
  exists (mkGenesisState (map export_record l) (st_enabled s)). split_and!.
  - unfold ExportGenesis, IterateStakes. rewrite export_loop; [done|].
    eapply Forall_impl; [exact Hl|]. by intros ? [? _].
  - apply validate_exported; [|apply kv_iter_nodup].
    eapply Forall_impl; [exact Hl|]. intros ? [? ?]. by split_and!.
  - destruct (init_exported l (blank b) Hl) as (s' & E & Hs & Ht & Hn & Hb); try done.
    { unfold GetTotalStakedAmount at 1. simpl. unfold l.
      rewrite <- map_sum_list, <- (inv_total s I). apply I. }
    unfold InitGenesis. rewrite (M_bind_run _ _ _ _ _ E).
    unfold SetGovernanceEnabled, modify, with_bank. simpl. rewrite Hs, Hb.
    unfold l. simpl. rewrite kv_iter_rebuild. do 2 f_equal.
    unfold l in Ht. rewrite <- map_sum_list, <- (inv_total s I) in Ht.
    unfold GetTotalStakedAmount in Ht. simpl in Ht. pose proof (inv_stored s I).
    destruct (st_total s') as [x|], (st_total s) as [y|]; simpl default in Ht; [f_equal; lia| | |done].
    + by replace x with 0 in Hn by lia.
    + by replace y with 0 in H6 by lia.
Qed.
End payback.

(** ** Witnesses: alice holds 100 [udodx], the module 7 of bob's *)
Module Example.
Definition bank0 : ledger :=
  mkLedger ["udodx"]
    (fun a _ => if String.eqb a "alice" then 100
                else if String.eqb a "module:dodxstaking" then 7 else 0)
    (fun _ => 107).

Definition genesis : GenesisState :=
  mkGenesisState [mkStakeRecord "do1bob" (mkCoin "udodx" 7)] true.

Definition start : State ledger := (InitGenesis genesis (blank bank0)).2.

Definition coin5 : Coin := mkCoin "udodx" 5.

Definition later : State ledger := deliver (Stake (mkMsgStake "do1alice" coin5)) start.

Lemma start_inv : inv start /\ solvent start.
Proof.
  destruct (InitGenesis_inv genesis bank0 tt start) as (I & Ht & Hb); [reflexivity..|].
  split; [done|]. unfold solvent, escrow. rewrite Ht, Hb. vm_compute. discriminate.
Qed.

Lemma later_inv : inv later /\ solvent later.
Proof.
  apply (step_preserves start); [|apply start_inv]. apply step_stake.
  simpl. intros a [= <-]. discriminate.
Qed.
End Example.


Lemma unstake_pays_witness :
  exists s', Unstake (mkMsgUnstake "do1alice" Example.coin5) Example.later = (Ok tt, s') /\
    GetBalance (st_bank s') "alice" MicroDODxDenom = 95 + 5.
Proof.
  destruct (unstake_pays (mkMsgUnstake "do1alice" Example.coin5) Example.later "alice")
    as (s' & E & _ & _ & _ & Hb & _);
    [reflexivity|apply Example.later_inv|apply Example.later_inv|reflexivity|reflexivity
    |reflexivity|discriminate|vm_compute; discriminate|].
  exists s'. split; [exact E|exact Hb].
Defined.

Lemma unstake_refused_witness :
  Unstake (mkMsgUnstake "do1alice" (mkCoin "udodx" 6)) Example.later
  = (Err ErrInsufficientStake, Example.later).
Proof.
  apply (unstake_refused _ Example.later "alice"); reflexivity.
Defined.

Lemma stake_unstake_identity_witness :
  exists s2, Unstake (mkMsgUnstake "do1alice" Example.coin5) Example.later = (Ok tt, s2) /\
    s2 = with_bank Example.start (st_bank s2).
Proof.
  destruct (stake_unstake_identity "do1alice" Example.coin5 Example.start Example.later tt "alice")
    as (s2 & E & Hs & _);
    [reflexivity|apply Example.start_inv|apply Example.start_inv|reflexivity|reflexivity
    |discriminate|reflexivity|].
  exists s2. split; [exact E|exact Hs].
Defined.

Lemma genesis_roundtrip_witness :
  exists data, ExportGenesis Example.later = Ok data /\
    InitGenesis data (blank Example.bank0) = (Ok tt, with_bank Example.later Example.bank0).
Proof.
  destruct (genesis_roundtrip Example.later Example.bank0) as (data & E & _ & Hi);
    [apply Example.later_inv|].
  exists data. split; [exact E|exact Hi].
Defined.
