(* ===== verification/Market.v ===== *)
(** * The market module (src/x/market)

    Swaps between [udo] and the denominations the oracle prices.  The state
    is the parameter set, the pool delta (the gap between the Do pool and its
    base size), the bank ledger and the oracle's state, which the module sees
    through the [OracleKeeper] interface only.  [ComputeInternalSwap],
    [ComputeSwap] and [simulateSwap] are the price computations,
    [handleSwapRequest] the whole message handler, [EndBlocker] the
    replenishment of the pool.  The theorems: what a successful swap burns,
    mints and pays; the query returns what execution pays; the spread floor;
    the convergence of the pool delta and what happens when the recovery
    period does not fit an int64; the errors. *)
From stdpp Require Import base gmap sets list strings fin_maps.
From Stdlib Require Import ZArith Lia.
From S2P Require Import Prelude Sdk SdkRef Core.
#[local] Open Scope Z_scope.

(** ** types/keys.go, types/errors.go *)
Definition ModuleName : string := "market".
Definition oracle_ModuleName : string := "oracle".
Definition ErrRecursiveSwap : error := Registered ModuleName 2.
Definition ErrNoEffectivePrice : error := Registered ModuleName 3.
Definition ErrZeroSwapCoin : error := Registered ModuleName 4.

(** ** types/params.go *)
Record Params : Type := mkParams {
  p_BasePool : Z;
  p_PoolRecoveryPeriod : Z;
  p_MinStabilitySpread : Z;
}.

Definition DefaultBasePool : Z := LegacyNewDec (1000000 * MicroUnit).
Definition DefaultPoolRecoveryPeriod : Z := BlocksPerDay.
Definition DefaultMinStabilitySpread : Z := LegacyNewDecWithPrec 2 2.

Definition DefaultParams : Params :=
  mkParams DefaultBasePool DefaultPoolRecoveryPeriod DefaultMinStabilitySpread.

Definition Validate (p : Params) : res unit :=
  if p_BasePool p <? 0 then Err (Plain "market base pool should be positive or zero")
  else if p_PoolRecoveryPeriod p =? 0 then Err (Plain "pool recovery period should be positive")
  else if (p_MinStabilitySpread p <? 0) || (LegacyOneDec <? p_MinStabilitySpread p)
  then Err (Plain "market minimum stability spread should be a value between [0,1]")
  else Ok tt.

Definition validateBasePool (v : Z) : res unit :=
  if v <? 0 then Err (Plain "market base pool must be positive or zero") else Ok tt.

Definition validatePoolRecoveryPeriod (v : Z) : res unit :=
  if v =? 0 then Err (Plain "pool recovery period must be positive") else Ok tt.

Definition validateMinStabilitySpread (v : Z) : res unit :=
  if v <? 0 then Err (Plain "min spread must be positive or zero")
  else if LegacyOneDec <? v then Err (Plain "min spread is too large")
  else Ok tt.

(** The validation functions registered in [ParamSetPairs], in their order. *)
Definition ParamSetPairs (p : Params) : list (res unit) :=
  [validateBasePool (p_BasePool p);
   validatePoolRecoveryPeriod (p_PoolRecoveryPeriod p);
   validateMinStabilitySpread (p_MinStabilitySpread p)].

(** ** types/expected_keepers.go *)
Class OracleKeeper (O : Type) : Type := {
  GetDoExchangeRate : O -> string -> res Z;
  GetTobinTax : O -> string -> res Z;
}.

(** What the oracle promises: [udo] is the unit of account. *)
Class OracleLaws (O : Type) `{OracleKeeper O} : Prop := {
  do_rate_one o : GetDoExchangeRate o MicroDoDenom = Ok LegacyOneDec;
}.

Record State (B O : Type) : Type := mkState {
  st_params : option Params;
  st_delta : option Z;
  st_bank : B;
  st_oracle : O;
}.
Arguments mkState {B O}.
Arguments st_params {B O}.
Arguments st_delta {B O}.
Arguments st_bank {B O}.
Arguments st_oracle {B O}.

Record MsgSwap : Type := mkMsgSwap {
  Trader : string; OfferCoin : Coin; AskDenom : string;
}.
Record MsgSwapSend : Type := mkMsgSwapSend {
  FromAddress : string; ToAddress : string; SendOfferCoin : Coin; SendAskDenom : string;
}.
Record MsgSwapResponse : Type := mkMsgSwapResponse { SwapCoin : Coin; SwapFee : Coin }.
Record GenesisState : Type := mkGenesisState { DoPoolDelta : Z; GenParams : Params }.

Section ops.
Context {B O : Type} `{BankOps B} `{OracleKeeper O} `{MathOps} `{CoinOps} `{AddrCodec}.
Implicit Types s : State B O.

(** ** keeper/params.go: reading a parameter that was never set panics,
    [SetParamSet] panics on a value its validation function refuses. *)
Definition get_param {A} (f : Params -> A) s : res A :=
  match st_params s with Some p => Ok (f p) | None => Panic end.
Definition BasePool s : res Z := get_param p_BasePool s.
Definition MinStabilitySpread s : res Z := get_param p_MinStabilitySpread s.
Definition PoolRecoveryPeriod s : res Z := get_param p_PoolRecoveryPeriod s.
Definition GetParams s : option Params := st_params s.
Definition SetParams (p : Params) : M (State B O) unit := fun s =>
  if forallb is_ok (ParamSetPairs p)
  then (Ok tt, mkState (Some p) (st_delta s) (st_bank s) (st_oracle s))
  else (Panic, s).

(** ** keeper/keeper.go *)
Definition GetDoPoolDelta s : Z := default LegacyZeroDec (st_delta s).

Definition SetDoPoolDelta (ctx : Ctx) (delta : Z) : M (State B O) unit := modify (fun s =>
  if (ReplayWriteOptimizationHeight <=? BlockHeight ctx) && bool_decide (st_delta s = Some delta)
  then s
  else mkState (st_params s) (Some delta) (st_bank s) (st_oracle s)).

Definition ReplenishPools (ctx : Ctx) : M (State B O) unit :=
  poolDelta ← gets GetDoPoolDelta;
  s ← get;
  period ← lift (PoolRecoveryPeriod s);
  let poolRecoveryPeriod := i64 period in
  poolRegressionAmt ← lift (DecQuoInt64 poolDelta poolRecoveryPeriod);
  poolDelta ← lift (DecSub poolDelta poolRegressionAmt);
  SetDoPoolDelta ctx poolDelta.

(** ** abci.go *)
Definition EndBlocker (ctx : Ctx) : M (State B O) unit := ReplenishPools ctx.

(** ** keeper/swap.go *)
Definition ComputeInternalSwap s (offerCoin : DecCoin) (askDenom : string) : res DecCoin :=
  if String.eqb (DDenom offerCoin) askDenom then Ok offerCoin
  else
    match GetDoExchangeRate (st_oracle s) (DDenom offerCoin) with
    | Panic => Panic
    | Err _ => Err ErrNoEffectivePrice
    | Ok offerRate =>
      match GetDoExchangeRate (st_oracle s) askDenom with
      | Panic => Panic
      | Err _ => Err ErrNoEffectivePrice
      | Ok askRate =>
        prod ← DecMul (DAmount offerCoin) askRate;
        retAmount ← DecQuo prod offerRate;
        if retAmount <=? LegacyZeroDec then Err (SdkError "ErrInvalidCoins")
        else NewDecCoinFromDec askDenom retAmount
      end
    end.

Definition ApplySwapToPool (ctx : Ctx) (offerCoin : Coin) (askCoin : DecCoin) :
    M (State B O) unit :=
  let offerDo := String.eqb (Denom offerCoin) MicroDoDenom in
  let askDo := String.eqb (DDenom askCoin) MicroDoDenom in
  if negb offerDo && negb askDo then mret tt
  else
    s ← get;
    let doPoolDelta := GetDoPoolDelta s in
    doPoolDelta ←
      (if negb offerDo && askDo then
         dc ← lift (NewDecCoinFromCoin offerCoin);
         offerBaseCoin ← lift (ComputeInternalSwap s dc MicroDoDenom);
         lift (DecAdd doPoolDelta (DAmount offerBaseCoin))
       else mret doPoolDelta);
    doPoolDelta ←
      (if offerDo && negb askDo then
         askBaseCoin ← lift (ComputeInternalSwap s askCoin MicroDoDenom);
         lift (DecSub doPoolDelta (DAmount askBaseCoin))
       else mret doPoolDelta);
    SetDoPoolDelta ctx doPoolDelta.

Definition ComputeSwap s (offerCoin : Coin) (askDenom : string) : res (DecCoin * Z) :=
  if String.eqb (Denom offerCoin) askDenom then Err ErrRecursiveSwap
  else
    dc ← NewDecCoinFromCoin offerCoin;
    baseOfferDecCoin ← ComputeInternalSwap s dc MicroDoDenom;
    retDecCoin ← ComputeInternalSwap s baseOfferDecCoin askDenom;
    if negb (String.eqb (Denom offerCoin) MicroDoDenom) && negb (String.eqb askDenom MicroDoDenom)
    then
      offerTobinTax ← GetTobinTax (st_oracle s) (Denom offerCoin);
      askTobinTax ← GetTobinTax (st_oracle s) askDenom;
      let tobinTax := if offerTobinTax <? askTobinTax then askTobinTax else offerTobinTax in
      Ok (retDecCoin, tobinTax)
    else
      basePool ← BasePool s;
      minSpread ← MinStabilitySpread s;
      cp ← DecMul basePool basePool;
      let doPoolDelta := GetDoPoolDelta s in
      doPool ← DecAdd basePool doPoolDelta;
      baseAssetPool ← DecQuo cp doPool;
      let '(offerPool, askPool) :=
        if negb (String.eqb (Denom offerCoin) MicroDoDenom)
        then (doPool, baseAssetPool) else (baseAssetPool, doPool) in
      newOfferPool ← DecAdd offerPool (DAmount baseOfferDecCoin);
      newAskPool ← DecQuo cp newOfferPool;
      askBaseAmount ← DecSub askPool newAskPool;
      let baseOfferAmount := DAmount baseOfferDecCoin in
      diff ← DecSub baseOfferAmount askBaseAmount;
      spread ← DecQuo diff baseOfferAmount;
      Ok (retDecCoin, if spread <? minSpread then minSpread else spread).

Definition simulateSwap s (offerCoin : Coin) (askDenom : string) : res Coin :=
  if String.eqb askDenom (Denom offerCoin) then Err ErrRecursiveSwap
  else if 100 <? bit_len (Amount offerCoin) then Err (SdkError "ErrInvalidCoins")
  else
    match ComputeSwap s offerCoin askDenom with
    | Panic => Panic
    | Err _ => Err (SdkError "ErrPanic")
    | Ok (swapCoin, spread) =>
      swapCoin ←
        (if 0 <? spread then
           swapFeeAmt ← DecMul spread (DAmount swapCoin);
           if 0 <? swapFeeAmt then
             swapFee ← NewDecCoinFromDec (DDenom swapCoin) swapFeeAmt;
             DecCoinSub swapCoin swapFee
           else Ok swapCoin
         else Ok swapCoin);
      '(retCoin, _) ← DecCoinTruncate swapCoin;
      Ok retCoin
    end.

(** ** keeper/msg_server.go *)
Definition bank_call (f : B -> res B) : M (State B O) unit := fun s =>
  match f (st_bank s) with
  | Ok b => (Ok tt, mkState (st_params s) (st_delta s) b (st_oracle s))
  | Err e => (Err e, s)
  | Panic => (Panic, s)
  end.

Definition handleSwapRequest (ctx : Ctx) (trader receiver : AccAddress) (offerCoin : Coin)
    (askDenom : string) : M (State B O) MsgSwapResponse :=
  s ← get;
  '(swapDecCoin, spread) ← lift (ComputeSwap s offerCoin askDenom);
  feeDecCoin ← lift
    (if 0 <? spread then
       fee ← DecMul spread (DAmount swapDecCoin);
       NewDecCoinFromDec (DDenom swapDecCoin) fee
     else NewDecCoin (DDenom swapDecCoin) 0);
  amt ← lift (DecSub (DAmount swapDecCoin) (DAmount feeDecCoin));
  let swapDecCoin := mkDecCoin (DDenom swapDecCoin) amt in
  ApplySwapToPool ctx offerCoin swapDecCoin ;;
  offerCoins ← lift (NewCoins [offerCoin]);
  bank_call (SendCoinsFromAccountToModule trader ModuleName offerCoins) ;;
  bank_call (BurnCoins ModuleName offerCoins) ;;
  '(swapCoin, decimalCoin) ← lift (DecCoinTruncate swapDecCoin);
  if negb (0 <? Amount swapCoin) then throw ErrZeroSwapCoin
  else
    feeDecCoin ← lift (DecCoinAdd feeDecCoin decimalCoin);
    '(feeCoin, _) ← lift (DecCoinTruncate feeDecCoin);
    total ← lift (CoinAdd swapCoin feeCoin);
    mintCoins ← lift (NewCoins [total]);
    bank_call (MintCoins ModuleName mintCoins) ;;
    swapCoins ← lift (NewCoins [swapCoin]);
    bank_call (SendCoinsFromModuleToAccount ModuleName receiver swapCoins) ;;
    (if 0 <? Amount feeCoin then
       feeCoins ← lift (NewCoins [feeCoin]);
       bank_call (SendCoinsFromModuleToModule ModuleName oracle_ModuleName feeCoins)
     else mret tt) ;;
    mret (mkMsgSwapResponse swapCoin feeCoin).

Definition Swap (ctx : Ctx) (msg : MsgSwap) : M (State B O) MsgSwapResponse :=
  addr ← lift (AccAddressFromBech32 (Trader msg));
  handleSwapRequest ctx addr addr (OfferCoin msg) (AskDenom msg).

Definition SwapSend (ctx : Ctx) (msg : MsgSwapSend) : M (State B O) MsgSwapResponse :=
  fromAddr ← lift (AccAddressFromBech32 (FromAddress msg));
  toAddr ← lift (AccAddressFromBech32 (ToAddress msg));
  handleSwapRequest ctx fromAddr toAddr (SendOfferCoin msg) (SendAskDenom msg).

(** ** types/msgs.go *)
Definition MsgSwap_ValidateBasic (msg : MsgSwap) : res unit :=
  match AccAddressFromBech32 (Trader msg) with
  | Panic => Panic
  | Err _ => Err (SdkError "ErrInvalidAddress")
  | Ok _ =>
    if (Amount (OfferCoin msg) <=? 0) || (100 <? bit_len (Amount (OfferCoin msg)))
    then Err (SdkError "ErrInvalidCoins")
    else if String.eqb (Denom (OfferCoin msg)) (AskDenom msg) then Err ErrRecursiveSwap
    else Ok tt
  end.

Definition MsgSwapSend_ValidateBasic (msg : MsgSwapSend) : res unit :=
  match AccAddressFromBech32 (FromAddress msg) with
  | Panic => Panic
  | Err _ => Err (SdkError "ErrInvalidAddress")
  | Ok _ =>
    match AccAddressFromBech32 (ToAddress msg) with
    | Panic => Panic
    | Err _ => Err (SdkError "ErrInvalidAddress")
    | Ok _ =>
      if (Amount (SendOfferCoin msg) <=? 0) || (100 <? bit_len (Amount (SendOfferCoin msg)))
      then Err (SdkError "ErrInvalidCoins")
      else if String.eqb (Denom (SendOfferCoin msg)) (SendAskDenom msg)
      then Err ErrRecursiveSwap
      else Ok tt
    end
  end.

(** ** keeper/querier.go: the text of the offer coin is parsed by the SDK. *)
Definition QuerySwap (ParseCoinNormalized : string -> res Coin) s
    (offerCoin askDenom : string) : res Coin :=
  if negb (ValidDenom askDenom) then Err (Plain "invalid ask denom")
  else
    match ParseCoinNormalized offerCoin with
    | Panic => Panic
    | Err _ => Err (Plain "InvalidArgument")
    | Ok c =>
      match simulateSwap s c askDenom with
      | Err _ => Err (Plain "Internal")
      | r => r
      end
    end.

(** ** genesis.go, types/genesis.go *)
Definition DefaultGenesisState : GenesisState := mkGenesisState LegacyZeroDec DefaultParams.
Definition ValidateGenesis (data : GenesisState) : res unit := Validate (GenParams data).
Definition InitGenesis (ctx : Ctx) (data : GenesisState) : M (State B O) unit :=
  SetParams (GenParams data) ;;
  SetDoPoolDelta ctx (DoPoolDelta data) ;;
  (if HasModuleAccount ModuleName then mret tt else panic).
Definition ExportGenesis s : Z * option Params := (GetDoPoolDelta s, GetParams s).
End ops.

(** ** Lemmas *)
Section lemmas.
Context {B O : Type} `{BankOps B} `{OracleKeeper O} `{MathOps} `{CoinOps} `{AddrCodec}.
Context `{!BankLaws B} `{!MathLaws} `{!CoinLaws}.
Implicit Types s : State B O.

Definition with_bank s (b : B) : State B O := mkState (st_params s) (st_delta s) b (st_oracle s).
Definition with_delta s (d : option Z) : State B O :=
  mkState (st_params s) d (st_bank s) (st_oracle s).

Lemma market_bank_ok (f : B -> res B) s u s' :
  bank_call f s = (Ok u, s') -> exists b, f (st_bank s) = Ok b /\ s' = with_bank s b.
Proof. unfold bank_call. destruct (f (st_bank s)); intros; simplify_eq. eauto. Qed.

(** The write that is skipped when the value does not change has no effect. *)
Lemma SetDoPoolDelta_run ctx d s : SetDoPoolDelta ctx d s = (Ok tt, with_delta s (Some d)).
Proof.
  unfold SetDoPoolDelta, modify. case_match eqn:E; [|done].
  apply andb_true_iff in E as [_ E%bool_decide_eq_true].
  unfold with_delta. rewrite <- E. by destruct s.
Qed.

Lemma GetDoPoolDelta_with s d : GetDoPoolDelta (with_delta s (Some d)) = d.
Proof. done. Qed.

Lemma ComputeInternalSwap_ok s dc ask dc' :
  ComputeInternalSwap s dc ask = Ok dc' ->
  DDenom dc' = ask /\ (DDenom dc <> ask -> 0 < DAmount dc') /\ (DDenom dc = ask -> dc' = dc).
Proof.
  unfold ComputeInternalSwap. intros E.
  destruct (String.eqb_spec (DDenom dc) ask) as [Heq|Hne].
  - injection E as <-. done.
  - res_inv E. zbool. math_inv. subst. simpl. unfold LegacyZeroDec in *. done.
Qed.

Lemma ComputeSwap_ok s offer ask ret spread :
  ComputeSwap s offer ask = Ok (ret, spread) ->
  Denom offer <> ask /\ DDenom ret = ask /\
  (Denom offer = MicroDoDenom \/ ask = MicroDoDenom ->
   exists m, MinStabilitySpread s = Ok m /\ m <= spread).
Proof.
  unfold ComputeSwap. intros E.
  destruct (String.eqb_spec (Denom offer) ask) as [|Hne]; [done|]. split; [done|].
  apply res_bind_ok in E as (dc & _ & E). apply res_bind_ok in E as (base & _ & E).
  apply res_bind_ok in E as (r & Hr & E). apply ComputeInternalSwap_ok in Hr as (Hd & _).
  destruct (negb _ && negb _) eqn:C.
  - res_inv E. split; [done|]. zbool. by intros [?|?].
  - apply res_bind_ok in E as (bp & _ & E). apply res_bind_ok in E as (m & Hm & E).
    res_inv E; (split; [done|]); intros _; exists m; (split; [done|]);
      (match goal with |- _ <= (if ?a <? _ then _ else _) => destruct (Z.ltb_spec a m) end); lia.
Qed.

Lemma ApplySwapToPool_ok ctx offer ask s u s' :
  ApplySwapToPool ctx offer ask s = (Ok u, s') -> exists d, s' = with_delta s d.
Proof.
  unfold ApplySwapToPool. intros E.
  destruct (negb _ && negb _).
  { m_inv E. exists (st_delta s'). by destruct s'. }
  m_bind E as s0 E0. m_inv E0. m_bind E as d1 E1. m_bind E as d2 E2.
  assert (x = s0) as -> by (m_inv E1; done). assert (x0 = s0) as -> by (m_inv E2; done).
  rewrite SetDoPoolDelta_run in E. injection E as _ <-. eauto.
Qed.

(** The part of the amount that is paid and the part that is charged add up
    to the whole coins of the computed return. *)
Lemma swap_split ret fee :
  (ret - fee) / Precision + (fee + (ret - fee) mod Precision) / Precision = ret / Precision.
Proof.
  assert (0 < Precision) by reflexivity.
  pose proof (Z.div_mod (ret - fee) Precision ltac:(lia)) as Hd.
  rewrite Z.add_comm, <- Z.div_add by lia. f_equal. lia.
Qed.

(** The amounts of a successful request, in terms of the computed return. *)
Definition swap_amounts s (offer : Coin) (ask : string) (r : MsgSwapResponse) : Prop :=
  exists ret spread fee,
    ComputeSwap s offer ask = Ok (ret, spread) /\
    (if 0 <? spread then DecMul spread (DAmount ret) = Ok fee else fee = 0) /\ 0 <= fee /\
    DecSub (DAmount ret) fee = Ok (DAmount ret - fee) /\ 0 <= DAmount ret - fee /\
    ValidDenom ask = true /\
    DecCoinTruncate (mkDecCoin ask (DAmount ret - fee)) =
      Ok (SwapCoin r, mkDecCoin ask ((DAmount ret - fee) mod Precision)) /\
    SwapCoin r = mkCoin ask ((DAmount ret - fee) / Precision) /\
    0 < Amount (SwapCoin r) /\
    SwapFee r = mkCoin ask ((fee + (DAmount ret - fee) mod Precision) / Precision).

(** The five transfers of a successful request. *)
Definition swap_transfers (trader receiver : AccAddress) (offer : Coin) (ask : string)
    (r : MsgSwapResponse) (b b' : B) : Prop :=
  exists b1 b2 b3 b4 c1 c2 c3,
    NewCoins [offer] = Ok c1 /\
    NewCoins [mkCoin ask (Amount (SwapCoin r) + Amount (SwapFee r))] = Ok c2 /\
    NewCoins [SwapCoin r] = Ok c3 /\
    moved trader (ModuleAddress ModuleName) c1 b b1 /\
    issued (ModuleAddress ModuleName) (-1) c1 b1 b2 /\
    issued (ModuleAddress ModuleName) 1 c2 b2 b3 /\
    moved (ModuleAddress ModuleName) receiver c3 b3 b4 /\
    (if 0 <? Amount (SwapFee r)
     then exists c4, NewCoins [SwapFee r] = Ok c4 /\
       moved (ModuleAddress ModuleName) (ModuleAddress oracle_ModuleName) c4 b4 b'
     else b' = b4).

Lemma fee_ok spread ret fee :
  (if 0 <? spread then
     f ← DecMul spread (DAmount ret); NewDecCoinFromDec (DDenom ret) f
   else NewDecCoin (DDenom ret) 0) = Ok fee ->
  (if 0 <? spread then DecMul spread (DAmount ret) = Ok (DAmount fee) else DAmount fee = 0) /\
  0 <= DAmount fee /\ DDenom fee = DDenom ret /\ ValidDenom (DDenom ret) = true.
Proof. case_match; intros E; [res_inv E|]; math_inv; subst; simpl; done. Qed.

Lemma handleSwapRequest_ok ctx trader receiver offer ask s r s' :
  handleSwapRequest ctx trader receiver offer ask s = (Ok r, s') ->
  swap_amounts s offer ask r /\ swap_transfers trader receiver offer ask r (st_bank s) (st_bank s').
Proof.
  unfold handleSwapRequest. intros E.
  m_bind E as s0 E0. m_inv E0.
  m_lift E as [ret spread] HC.
  m_lift E as fee HF.
  m_lift E as amt HA.
  pose proof (DecSub_inv _ _ _ HA) as ->. apply fee_ok in HF as (HF & Hpos & HFd & Hvd).
  pose proof (ComputeSwap_ok _ _ _ _ _ HC) as (_ & Hd & _).
  destruct ret as [rd ra], fee as [fd fa]. simpl in Hd, HF, Hpos, HFd, Hvd, HA, E. subst rd fd.
  m_bind E as [] E0. apply ApplySwapToPool_ok in E0 as (dl & ->).
  m_lift E as c1 HN1.
  m_bind E as [] E0. apply market_bank_ok in E0 as (b1 & HS1 & ->).
  m_bind E as [] E0. apply market_bank_ok in E0 as (b2 & HS2 & ->).
  m_lift E as [sc dc] HT.
  pose proof (DecCoinTruncate_inv _ _ _ HT) as (Hnn & -> & ->). simpl in *.
  case_match eqn:Hz; [by m_inv E|].
  m_lift E as fdc HFA.
  m_lift E as [fc rest] HT2.
  apply DecCoinAdd_inv in HFA as [_ ->]. apply DecCoinTruncate_inv in HT2 as (_ & -> & _).
  m_lift E as tot HTot. apply CoinAdd_inv in HTot as [_ ->]. simpl in *.
  m_lift E as c2 HN2.
  m_bind E as [] E0. apply market_bank_ok in E0 as (b3 & HS3 & ->).
  m_lift E as c3 HN3.
  m_bind E as [] E0. apply market_bank_ok in E0 as (b4 & HS4 & ->).
  m_bind E as [] E0. m_inv E. simpl in *.
  zbool. split.
  - exists (mkDecCoin ask ra), spread, fa. split_and!; done.
  - exists b1, b2, b3, b4, c1, c2, c3.
    split_and!; eauto using SendAM_inv, Mint_inv, SendMA_inv; [by apply Burn_inv in HS2 as [? _]|].
    simpl. case_match; m_inv E0; [|done].
    select (bank_call _ _ = _) (fun H => apply market_bank_ok in H as (b5 & HS5 & ->)).
    eauto using SendMM_inv.
Qed.
End lemmas.

(** ** Swaps *)
Section swaps.
Context {B O : Type} `{BankOps B} `{OracleKeeper O} `{MathOps} `{CoinOps} `{AddrCodec}.
Context `{!BankLaws B} `{!MathLaws} `{!CoinLaws}.
Implicit Types s : State B O.

(** An amount of one denomination, as an amount of [d]. *)
Definition of_denom (c d : string) (x : Z) : Z := if String.eqb c d then x else 0.

Lemma one_amount c cs d : NewCoins [c] = Ok cs -> AmountOf cs d = of_denom (Denom c) d (Amount c).
Proof. intros E. rewrite (NewCoins_inv _ _ d E). unfold of_denom. simpl. lia. Qed.

Lemma swap_transfers_net trader receiver offer ask r b b' :
  Denom (SwapCoin r) = ask -> Denom (SwapFee r) = ask -> 0 <= Amount (SwapFee r) ->
  swap_transfers trader receiver offer ask r b b' ->
  (forall a d, GetBalance b' a d = GetBalance b a d
     - at_addr trader a (of_denom (Denom offer) d (Amount offer))
     + at_addr receiver a (of_denom ask d (Amount (SwapCoin r)))
     + at_addr (ModuleAddress oracle_ModuleName) a (of_denom ask d (Amount (SwapFee r)))) /\
  (forall d, GetSupply b' d = GetSupply b d - of_denom (Denom offer) d (Amount offer)
     + of_denom ask d (Amount (SwapCoin r) + Amount (SwapFee r))).
Proof.
  intros Hsd Hfd Hnn (b1 & b2 & b3 & b4 & c1 & c2 & c3 & Hc1 & Hc2 & Hc3 & (M1 & S1 & _) &
    (M2 & S2) & (M3 & S3) & (M4 & S4 & _) & Hfee).
  pose proof (fun d => one_amount _ _ d Hc1) as A1.
  pose proof (fun d => one_amount _ _ d Hc2) as A2.
  pose proof (fun d => one_amount _ _ d Hc3) as A3. rewrite Hsd in *. simpl in A2.
  destruct (Z.ltb_spec 0 (Amount (SwapFee r))).
  - destruct Hfee as (c4 & Hc4 & M5 & S5 & _).
    pose proof (fun d => one_amount _ _ d Hc4) as A4. rewrite Hfd in A4.
    split; [intros a d|intros d];
      rewrite ?M5, ?M4, ?M3, ?M2, ?M1, ?S5, ?S4, ?S3, ?S2, ?S1, ?A1, ?A2, ?A3, ?A4;
      unfold at_addr, of_denom; repeat case_match; lia.
  - subst b'. replace (Amount (SwapFee r)) with 0 in * by lia.
    split; [intros a d|intros d];
      rewrite ?M4, ?M3, ?M2, ?M1, ?S4, ?S3, ?S2, ?S1, ?A1, ?A2, ?A3;
      unfold at_addr, of_denom; repeat case_match; lia.
Qed.

Lemma swap_amounts_split s offer ask r :
  swap_amounts s offer ask r -> exists ret spread,
    ComputeSwap s offer ask = Ok (ret, spread) /\ DDenom ret = ask /\
    Denom (SwapCoin r) = ask /\ Denom (SwapFee r) = ask /\
    0 < Amount (SwapCoin r) /\ 0 <= Amount (SwapFee r) /\
    Amount (SwapCoin r) + Amount (SwapFee r) = DAmount ret / Precision.
Proof.
  intros (ret & spread & fee & HC & _ & Hfee & _ & Hnn & _ & _ & Hsc & Hpos & Hsf).
  exists ret, spread. pose proof (ComputeSwap_ok _ _ _ _ _ HC) as (_ & Hd & _).
  assert (0 < Precision) by reflexivity.
  split_and!; try done; rewrite ?Hsc, ?Hsf; try done; simpl.
  - apply Z.div_pos; [|done]. pose proof (Z.mod_pos_bound (DAmount ret - fee) Precision). lia.
  - apply swap_split.
Qed.

(** C13: a successful swap burns exactly the offered coin and mints exactly
    the whole units of the computed return: the trader loses the offer, the
    receiver gets the swap coin, the oracle's account the fee, every other
    account (the market's included) keeps its balance, and the swap coin and
    the fee add up to the truncated return, so truncation loses nothing. *)
Theorem swap_settles ctx trader receiver offer ask s r s' :
  handleSwapRequest ctx trader receiver offer ask s = (Ok r, s') ->
  exists ret spread,
    ComputeSwap s offer ask = Ok (ret, spread) /\
    0 < Amount (SwapCoin r) /\ 0 <= Amount (SwapFee r) /\
    Amount (SwapCoin r) + Amount (SwapFee r) = DAmount ret / Precision /\
    (forall a d, GetBalance (st_bank s') a d = GetBalance (st_bank s) a d
       - at_addr trader a (of_denom (Denom offer) d (Amount offer))
       + at_addr receiver a (of_denom ask d (Amount (SwapCoin r)))
       + at_addr (ModuleAddress oracle_ModuleName) a (of_denom ask d (Amount (SwapFee r)))) /\
    (forall d, GetSupply (st_bank s') d = GetSupply (st_bank s) d
       - of_denom (Denom offer) d (Amount offer)
       + of_denom ask d (Amount (SwapCoin r) + Amount (SwapFee r))).
Proof.
  intros [HA HT]%handleSwapRequest_ok.
  apply swap_amounts_split in HA as (ret & spread & HC & _ & Hd1 & Hd2 & Hp & Hn & Hs).
  exists ret, spread. pose proof (swap_transfers_net _ _ _ _ _ _ _ Hd1 Hd2 Hn HT) as [? ?]. done.
Qed.

(** The amounts of a request are those the simulation computes. *)
Lemma simulated_amounts s offer ask r :
  bit_len (Amount offer) <= 100 -> swap_amounts s offer ask r ->
  simulateSwap s offer ask = Ok (SwapCoin r).
Proof.
  intros Hbits (ret & spread & fee & HC & Hfee & Hf0 & Hsub & Hnn & Hvd & Ht & Hsc & _ & _).
  pose proof (ComputeSwap_ok _ _ _ _ _ HC) as (Hne & Hd & _).
  destruct ret as [rd ra]. simpl in *. subst rd.
  unfold simulateSwap. rewrite (proj2 (String.eqb_neq _ _)) by congruence.
  destruct (Z.ltb_spec 100 (bit_len (Amount offer))); [lia|]. rewrite HC. simpl.
  assert ((if 0 <? spread
           then swapFeeAmt ← DecMul spread ra;
             if 0 <? swapFeeAmt
             then swapFee ← NewDecCoinFromDec ask swapFeeAmt;
                  DecCoinSub (mkDecCoin ask ra) swapFee
             else Ok (mkDecCoin ask ra)
           else Ok (mkDecCoin ask ra)) = Ok (mkDecCoin ask (ra - fee))) as ->.
  { destruct (0 <? spread); [|by rewrite Hfee, Z.sub_0_r]. rewrite Hfee. simpl.
    destruct (Z.ltb_spec 0 fee); [|by replace fee with 0 by lia; rewrite Z.sub_0_r].
    rewrite NewDecCoinFromDec_ok by done. simpl. by apply DecCoinSub_ok. }
  simpl. by rewrite Ht.
Qed.

(** the swap query and the swap message agree: whenever a swap of an
    offer of at most 100 bits executes, the simulation on the same state
    returns exactly the coin that was paid out. *)
Theorem simulation_matches_execution ctx trader receiver offer ask s r s' :
  bit_len (Amount offer) <= 100 ->
  handleSwapRequest ctx trader receiver offer ask s = (Ok r, s') ->
  simulateSwap s offer ask = Ok (SwapCoin r).
Proof.
  intros Hbits [HA _]%handleSwapRequest_ok. by apply simulated_amounts.
Qed.

(** C39: a swap to or from [udo] pays at least the minimum stability spread:
    up to half of the last decimal, the coin paid out is at most the computed
    return times one minus the minimum spread. *)
Theorem swap_charges_min_spread ctx trader receiver offer ask s r s' :
  Denom offer = MicroDoDenom \/ ask = MicroDoDenom ->
  handleSwapRequest ctx trader receiver offer ask s = (Ok r, s') ->
  exists ret spread m,
    ComputeSwap s offer ask = Ok (ret, spread) /\ MinStabilitySpread s = Ok m /\ m <= spread /\
    2 * (Amount (SwapCoin r) * Precision * Precision)
      <= 2 * (DAmount ret * (LegacyOneDec - m)) + Precision.
Proof.
  intros Hdo [(ret & spread & fee & HC & Hfee & Hf0 & Hsub & Hnn & _ & _ & Hsc & _ & _) _]
    %handleSwapRequest_ok.
  pose proof (ComputeSwap_ok _ _ _ _ _ HC) as (_ & _ & Hm). destruct (Hm Hdo) as (m & HM & Hle).
  exists ret, spread, m. split_and!; try done. rewrite Hsc. simpl.
  assert (0 < Precision) by reflexivity. unfold LegacyOneDec.
  pose proof (Z.mul_div_le (DAmount ret - fee) Precision ltac:(lia)) as Hdiv.
  set (q := (DAmount ret - fee) / Precision) in *.
  assert (q * Precision * Precision <= (DAmount ret - fee) * Precision) by nia.
  destruct (Z.ltb_spec 0 spread).
  - apply DecMul_inv in Hfee. nia.
  - subst fee. nia.
Qed.

(** a swap moves the pool delta by the value of the non-[udo] side in
    [udo]: offering another denomination for [udo] raises it, offering [udo]
    lowers it, and a swap that does not involve [udo] leaves the pool alone. *)
Theorem pool_delta_follows_swap ctx offer ask s u s' :
  ApplySwapToPool ctx offer ask s = (Ok u, s') ->
  (Denom offer <> MicroDoDenom -> DDenom ask <> MicroDoDenom -> s' = s) /\
  (Denom offer <> MicroDoDenom -> DDenom ask = MicroDoDenom -> exists dc v,
     NewDecCoinFromCoin offer = Ok dc /\ ComputeInternalSwap s dc MicroDoDenom = Ok v /\
     0 < DAmount v /\ GetDoPoolDelta s' = GetDoPoolDelta s + DAmount v) /\
  (Denom offer = MicroDoDenom -> DDenom ask <> MicroDoDenom -> exists v,
     ComputeInternalSwap s ask MicroDoDenom = Ok v /\
     0 < DAmount v /\ GetDoPoolDelta s' = GetDoPoolDelta s - DAmount v).
Proof.
  unfold ApplySwapToPool. intros E.
  destruct (String.eqb_spec (Denom offer) MicroDoDenom) as [Ho|Ho],
    (String.eqb_spec (DDenom ask) MicroDoDenom) as [Ha|Ha]; cbn [negb andb] in E;
    try (m_inv E; rewrite SetDoPoolDelta_run in E; injection E as _ <-);
    split_and!; try congruence; intros.
  - math_inv. destruct (ComputeInternalSwap_ok _ _ _ _ L) as (_ & Hp & _).
    eexists. split_and!; [done|by apply Hp|]. by rewrite GetDoPoolDelta_with.
  - assert (Hd : DDenom v1 <> MicroDoDenom).
    { apply NewDecCoinFromCoin_inv in L as [-> _]. done. }
    apply DecAdd_inv in L1. destruct (ComputeInternalSwap_ok _ _ _ _ L0) as (_ & Hp & _).
    eexists _, _. split_and!; [done|done|by apply Hp|]. by rewrite GetDoPoolDelta_with.
  - by m_inv E.
Qed.
End swaps.

(** ** The pool over the blocks *)
Section pool.
Context {B O : Type} `{MathOps} `{!MathLaws}.
Implicit Types s : State B O.

Definition EndBlocks (ctxs : list Ctx) : M (State B O) unit := forM EndBlocker ctxs.

Lemma i64_small z : 0 <= z < 2 ^ 63 -> i64 z = z.
Proof. unfold i64. intros. rewrite Z.mod_small; lia. Qed.

Lemma i64_large z : 2 ^ 63 <= z < 2 ^ 64 -> i64 z = z - 2 ^ 64.
Proof.
  unfold i64. intros.
  rewrite <- (Z.mod_unique (z + 2 ^ 63) (2 ^ 64) 1 (z - 2 ^ 63)); lia.
Qed.

(** One block subtracts a truncated fraction of the delta. *)
Lemma EndBlocker_run ctx s p :
  st_params s = Some p -> i64 (p_PoolRecoveryPeriod p) <> 0 ->
  let d := GetDoPoolDelta s in
  let d' := d - Z.quot d (i64 (p_PoolRecoveryPeriod p)) in
  dec_safe d' -> EndBlocker ctx s = (Ok tt, with_delta s (Some d')).
Proof.
  intros Hp Hz d d' Hs. unfold EndBlocker, ReplenishPools.
  erewrite (M_bind_run (gets _)) by done. erewrite (M_bind_run get) by done.
  erewrite (M_bind_run (lift _)) by (unfold lift, PoolRecoveryPeriod, get_param; by rewrite Hp).
  erewrite (M_bind_run (lift _)) by (unfold lift; by rewrite DecQuoInt64_nz).
  erewrite (M_bind_run (lift _)) by (unfold lift; by rewrite DecSub_ok).
  apply SetDoPoolDelta_run.
Qed.

Lemma regress_bounds d p : 0 < p ->
  let d' := d - Z.quot d p in
  Z.abs d' <= Z.abs d /\ 0 <= d * d' /\ (p <= Z.abs d -> Z.abs d' < Z.abs d).
Proof.
  intros Hp d'. unfold d'.
  assert (forall e, 0 <= e -> let e' := e - Z.quot e p in
    e' <= e /\ 0 <= e' /\ (p <= e -> e' < e)) as Hpos.
  { intros e He e'. unfold e'. pose proof (Z.quot_rem' e p).
    pose proof (Z.quot_pos e p ltac:(lia) ltac:(lia)).
    pose proof (Z.rem_bound_pos e p ltac:(lia) ltac:(lia)). split_and!; nia. }
  destruct (Z.le_gt_cases 0 d).
  - destruct (Hpos d ltac:(lia)) as (? & ? & ?). split_and!; nia.
  - destruct (Hpos (- d) ltac:(lia)) as (? & ? & ?). rewrite Z.quot_opp_l in * by lia.
    split_and!; nia.
Qed.

(** with a recovery period that fits an int64, the end of a block never
    panics, the pool delta keeps its sign and never grows, and after as many
    blocks as the delta has units it is smaller than the recovery period
    (in units of 10^-18 [udo]): the pool returns to its base size. *)
Theorem pool_delta_converges ctxs s p :
  st_params s = Some p -> 0 < p_PoolRecoveryPeriod p < 2 ^ 63 -> dec_safe (GetDoPoolDelta s) ->
  exists s', EndBlocks ctxs s = (Ok tt, s') /\
    Z.abs (GetDoPoolDelta s') <= Z.abs (GetDoPoolDelta s) /\
    0 <= GetDoPoolDelta s * GetDoPoolDelta s' /\
    (Z.abs (GetDoPoolDelta s) <= Z.of_nat (length ctxs) ->
     Z.abs (GetDoPoolDelta s') < p_PoolRecoveryPeriod p).
Proof.
  intros Hp Hr. unfold EndBlocks, dec_safe. revert s Hp.
  induction ctxs as [|ctx ctxs IH]; intros s Hp Hs.
  - exists s. cbn [forM length]. split_and!; [done|lia|apply Z.square_nonneg|]. lia.
  - pose proof (regress_bounds (GetDoPoolDelta s) (p_PoolRecoveryPeriod p) ltac:(lia)) as HB.
    pose proof (EndBlocker_run ctx s p Hp) as Hrun. rewrite i64_small in Hrun by lia.
    specialize (Hrun ltac:(lia)). cbv zeta in *. set (d' := _ - Z.quot _ _) in *.
    destruct HB as (HB1 & HB2 & HB3). unfold dec_safe in Hrun. specialize (Hrun ltac:(lia)).
    destruct (IH (with_delta s (Some d')) Hp) as (s' & E & H1 & H2 & H3);
      [rewrite GetDoPoolDelta_with; lia|].
    rewrite GetDoPoolDelta_with in *. exists s'. cbn [forM].
    rewrite (M_bind_run _ _ _ _ _ Hrun).
    split_and!; [done|lia|nia|]. rewrite length_cons. intros Hn.
    destruct (Z.le_gt_cases (p_PoolRecoveryPeriod p) (Z.abs (GetDoPoolDelta s))); lia.
Qed.

(** a recovery period of 2^63 or more passes the parameter's validation,
    but is negative as an int64: every block then moves the pool delta away
    from zero instead of towards it; at the largest period it doubles. *)
Theorem pool_delta_diverges ctx s p :
  st_params s = Some p -> 2 ^ 63 <= p_PoolRecoveryPeriod p < 2 ^ 64 ->
  dec_safe (2 * GetDoPoolDelta s) ->
  validatePoolRecoveryPeriod (p_PoolRecoveryPeriod p) = Ok tt /\
  exists s', EndBlocker ctx s = (Ok tt, s') /\
    Z.abs (GetDoPoolDelta s) <= Z.abs (GetDoPoolDelta s') /\
    (p_PoolRecoveryPeriod p = 2 ^ 64 - 1 -> GetDoPoolDelta s' = 2 * GetDoPoolDelta s).
Proof.
  intros Hp Hr Hs. split.
  { unfold validatePoolRecoveryPeriod. by rewrite (proj2 (Z.eqb_neq _ _)) by lia. }
  pose proof (EndBlocker_run ctx s p Hp) as Hrun. rewrite i64_large in Hrun by lia.
  specialize (Hrun ltac:(lia)). cbv zeta in *.
  set (d := GetDoPoolDelta s) in *. set (q := 2 ^ 64 - p_PoolRecoveryPeriod p).
  replace (p_PoolRecoveryPeriod p - 2 ^ 64) with (- q) in * by lia.
  rewrite Z.quot_opp_r in Hrun by lia.
  assert (0 <= d * Z.quot d q /\ Z.abs (Z.quot d q) <= Z.abs d) as [Hq1 Hq2].
  { destruct (regress_bounds d q ltac:(lia)) as (? & ? & _).
    pose proof (Z.quot_rem' d q). pose proof (Z.rem_sign_mul d q ltac:(lia)).
    split; nia. }
  unfold dec_safe in *. eexists. split; [apply Hrun; lia|].
  rewrite GetDoPoolDelta_with. split; [nia|]. intros Hmax.
  replace q with 1 by lia. rewrite Z.quot_1_r. lia.
Qed.
End pool.

(** ** Refusals *)
Section refusals.
Context {B O : Type} `{BankOps B} `{OracleKeeper O} `{MathOps} `{CoinOps} `{AddrCodec}.
Context `{!MathLaws} `{!CoinLaws}.
Implicit Types s : State B O.

(** a swap of a denomination for itself is refused with
    [ErrRecursiveSwap], and a swap that offers a denomination without a
    registered price with [ErrNoEffectivePrice]; neither changes any state. *)
Theorem swap_refused ctx trader receiver offer ask s :
  (Denom offer = ask ->
   handleSwapRequest ctx trader receiver offer ask s = (Err ErrRecursiveSwap, s)) /\
  (forall e, Denom offer <> ask -> Denom offer <> MicroDoDenom -> CoinIsValid offer = true ->
   GetDoExchangeRate (st_oracle s) (Denom offer) = Err e ->
   handleSwapRequest ctx trader receiver offer ask s = (Err ErrNoEffectivePrice, s)).
Proof.
  split.
  - intros Heq. unfold handleSwapRequest. erewrite (M_bind_run get) by done.
    apply M_bind_err. unfold ComputeSwap, lift. by rewrite (proj2 (String.eqb_eq _ _)).
  - intros e Hne Hdo Hv Hr. unfold handleSwapRequest. erewrite (M_bind_run get) by done.
    apply M_bind_err. unfold ComputeSwap, lift. rewrite (proj2 (String.eqb_neq _ _)) by done.
    rewrite (NewDecCoinFromCoin_ok _ Hv). cbn [mbind res_bind].
    unfold ComputeInternalSwap at 2. cbn [DDenom].
    rewrite (proj2 (String.eqb_neq _ _)) by done. by rewrite Hr.
Qed.
End refusals.

(** ** Witnesses: one [udo] is worth a quarter [uusd] *)
Module Example.
#[local] Instance oracle : OracleKeeper unit := {|
  GetDoExchangeRate _ d :=
    if String.eqb d "udo" then Ok Precision
    else if String.eqb d "uusd" then Ok (Precision / 4) else Err (Registered "oracle" 2);
  GetTobinTax _ d := Err (Registered "oracle" 4);
|}.

Definition bank0 : ledger :=
  mkLedger ["uusd"; "udo"] (fun a _ => if String.eqb a "alice" then 2000000 else 0)
    (fun _ => 2000000).

Definition ctx0 : Ctx := mkCtx 10 0 "test" false false.
Definition st0 : State ledger unit := mkState (Some DefaultParams) (Some (10 ^ 6)) bank0 tt.
Definition offer : Coin := mkCoin "uusd" 1000001.
Definition resp : MsgSwapResponse := mkMsgSwapResponse (mkCoin "udo" 3920003) (mkCoin "udo" 80001).
Definition st1 : State ledger unit := (handleSwapRequest ctx0 "alice" "bob" offer "udo" st0).2.

Definition slow : State ledger unit :=
  mkState (Some (mkParams DefaultBasePool 7 0)) (Some 20) bank0 tt.
Definition wrapped : State ledger unit :=
  mkState (Some (mkParams DefaultBasePool (2 ^ 64 - 1) 0)) (Some 20) bank0 tt.
End Example.

#[local] Existing Instance Example.oracle.

Lemma swap_settles_witness :
  Amount (SwapCoin Example.resp) + Amount (SwapFee Example.resp) = 4000004 /\
  GetBalance (st_bank Example.st1) "bob" "udo" = 0 - 0 + 3920003 + 0.
Proof.
  destruct (swap_settles Example.ctx0 "alice" "bob" Example.offer "udo" Example.st0 Example.resp
    Example.st1) as (ret & spread & _ & _ & _ & _ & Hb & _); [apply run_eq; vm_compute; reflexivity|].
  split; [reflexivity|]. exact (Hb "bob" "udo").
Defined.

Lemma simulation_matches_execution_witness :
  simulateSwap Example.st0 Example.offer "udo" = Ok (mkCoin "udo" 3920003).
Proof.
  apply (simulation_matches_execution Example.ctx0 "alice" "bob" Example.offer "udo" Example.st0
    Example.resp Example.st1); [vm_compute; discriminate|apply run_eq; vm_compute; reflexivity].
Defined.

Lemma swap_charges_min_spread_witness :
  exists ret spread m, ComputeSwap Example.st0 Example.offer "udo" = Ok (ret, spread) /\
    MinStabilitySpread Example.st0 = Ok m /\ m <= spread.
Proof.
  destruct (swap_charges_min_spread Example.ctx0 "alice" "bob" Example.offer "udo" Example.st0
    Example.resp Example.st1) as (ret & spread & m & H1 & H2 & H3 & _);
    [right; reflexivity|apply run_eq; vm_compute; reflexivity|].
  exists ret, spread, m. split; [exact H1|split; [exact H2|exact H3]].
Defined.

Lemma pool_delta_follows_swap_witness :
  exists v, ComputeInternalSwap Example.st0 (mkDecCoin "uusd" (4 * Precision)) MicroDoDenom = Ok v /\
    0 < DAmount v.
Proof.
  destruct (pool_delta_follows_swap Example.ctx0 (mkCoin "udo" 9) (mkDecCoin "uusd" (4 * Precision))
    Example.st0 tt (ApplySwapToPool Example.ctx0 (mkCoin "udo" 9)
      (mkDecCoin "uusd" (4 * Precision)) Example.st0).2) as (_ & _ & H);
    [apply run_eq; vm_compute; reflexivity|].
  destruct (H eq_refl ltac:(discriminate)) as (v & H1 & H2 & _). exists v. split; [exact H1|exact H2].
Defined.

Lemma pool_delta_converges_witness :
  exists s', EndBlocks (repeat Example.ctx0 20) Example.slow = (Ok tt, s') /\
    Z.abs (GetDoPoolDelta s') < 7.
Proof.
  destruct (pool_delta_converges (repeat Example.ctx0 20) Example.slow
    (mkParams DefaultBasePool 7 0)) as (s' & E & _ & _ & H);
    [reflexivity|simpl; lia|vm_compute; discriminate|].
  exists s'. split; [exact E|]. apply H. vm_compute. discriminate.
Defined.

Lemma pool_delta_diverges_witness :
  exists s', EndBlocker Example.ctx0 Example.wrapped = (Ok tt, s') /\ GetDoPoolDelta s' = 2 * 20.
Proof.
  destruct (pool_delta_diverges Example.ctx0 Example.wrapped
    (mkParams DefaultBasePool (2 ^ 64 - 1) 0)) as (_ & s' & E & _ & H);
    [reflexivity|simpl; lia|vm_compute; discriminate|].
  exists s'. split; [exact E|]. apply H. reflexivity.
Defined.

Lemma swap_refused_witness :
  handleSwapRequest Example.ctx0 "alice" "bob" (mkCoin "ukrw" 5) "udo" Example.st0
  = (Err ErrNoEffectivePrice, Example.st0).
Proof.
  apply (swap_refused Example.ctx0 "alice" "bob" (mkCoin "ukrw" 5) "udo" Example.st0)
    with (e := Registered "oracle" 2); [discriminate|discriminate|reflexivity|reflexivity].
Defined.
