(* ===== verification/OracleBallot.v ===== *)
(** * Oracle ballots (src/x/oracle/types/ballot.go, src/x/oracle/tally.go)

    A ballot is the list of votes on one denomination.  [WeightedMedian] is
    the loop of the code with its int64 arithmetic; [StandardDeviation] goes
    through a float64 square root, modelled on its mantissa and exponent;
    [Tally] credits the validators whose vote is in the reward band;
    [PickReferenceDo] chooses the reference denomination.  [sort.Sort] is not
    stable and map iteration has no order, so both are parameters here, with
    their documented guarantees as laws.  The theorems: the weighted median
    is a median, and does not depend on how ties were sorted; the reference
    does not depend on the order in which the map is visited; what [Tally]
    credits; when a ballot without a common voter stops the tally. *)
From stdpp Require Import base gmap sets list strings fin_maps sorting.
From Stdlib Require Import ZArith Lia.
From S2P Require Import Prelude Sdk SdkRef Core.
#[local] Open Scope Z_scope.

Record VoteForTally : Type := mkVote {
  v_Denom : string;
  v_ExchangeRate : Z;
  v_Voter : ValAddress;
  v_Power : Z;
}.

Record Claim : Type := mkClaim {
  c_Power : Z;
  c_Weight : Z;
  c_WinCount : Z;
  c_Recipient : ValAddress;
}.

#[export] Instance VoteForTally_eq_dec : EqDecision VoteForTally.
Proof. solve_decision. Defined.
#[export] Instance Claim_eq_dec : EqDecision Claim.
Proof. solve_decision. Defined.

Definition ExchangeRateBallot : Type := list VoteForTally.

(** [claim := m[key]] reads the zero value when the key is absent. *)
Definition zero_claim : Claim := mkClaim 0 0 0 EmptyString.

(** ** sort.Sort with [Less]: some sorted permutation *)
Definition rate_le (x y : VoteForTally) : Prop := v_ExchangeRate x <= v_ExchangeRate y.

#[export] Instance rate_le_dec : RelDecision rate_le.
Proof. intros x y. unfold rate_le. apply _. Defined.

Class BallotSort : Type := Sort : ExchangeRateBallot -> ExchangeRateBallot.
Class BallotSortLaws `{BallotSort} : Prop := {
  Sort_perm pb : Sort pb ≡ₚ pb;
  Sort_sorted pb : StronglySorted rate_le (Sort pb);
}.

(** ** Floating point: a positive float64 is a mantissa and an exponent *)
Definition scaled (n e : Z) : Z * Z := if 0 <=? e then (n, 2 ^ e) else (n * 2 ^ (- e), 1).

(** The float64 nearest to [n / d], for positive [n] and [d] in the normal
    range ([strconv.ParseFloat]). *)
Definition ParseFloat (n d : Z) : Z * Z :=
  let e0 := Z.log2 n - Z.log2 d - 53 in
  let e := let '(num, k) := scaled n e0 in
           if 2 ^ 53 <=? num / (d * k) then e0 + 1 else e0 in
  let '(num, k) := scaled n e in
  (round_half_even num (d * k), e).

(** The float64 nearest to the square root ([math.Sqrt]). *)
Definition Sqrt (x : Z * Z) : Z * Z :=
  let '(m, e) := x in
  let '(m, e) := if Z.even e then (m, e) else (2 * m, e - 1) in
  let M := m * 2 ^ 52 in
  let s := Z.sqrt M in
  ((if s <? M - s * s then s + 1 else s), e / 2 - 26).

(** [LegacyNewDecFromStr(fmt.Sprintf("%f", x))]: six decimals. *)
Definition DecFromFloat (x : Z * Z) : Z :=
  let '(m, e) := x in
  let micro := if 0 <=? e then m * 2 ^ e * 10 ^ 6
               else round_half_even (m * 10 ^ 6) (2 ^ (- e)) in
  micro * 10 ^ 12.

Section ops.
Context `{MathOps} `{AddrCodec} `{BallotSort}.

(** ** types/ballot.go *)
Definition ToMap (pb : ExchangeRateBallot) : gmap string Z :=
  foldl (fun m vote =>
           if 0 <? v_ExchangeRate vote then <[v_Voter vote := v_ExchangeRate vote]> m else m)
        ∅ pb.

Definition cross_vote (bases : gmap string Z) (vote : VoteForTally) : res VoteForTally :=
  match bases !! v_Voter vote, 0 <? v_ExchangeRate vote with
  | Some exchangeRateRT, true =>
      r ← DecQuo exchangeRateRT (v_ExchangeRate vote);
      Ok (mkVote (v_Denom vote) r (v_Voter vote) (v_Power vote))
  | _, _ => Ok (mkVote (v_Denom vote) LegacyZeroDec (v_Voter vote) 0)
  end.

Fixpoint ToCrossRate (bases : gmap string Z) (pb : ExchangeRateBallot) : res ExchangeRateBallot :=
  match pb with
  | [] => Ok []
  | vote :: pb =>
      v ← cross_vote bases vote;
      cb ← ToCrossRate bases pb;
      Ok (v :: cb)
  end.

Definition ToCrossRateWithSort (bases : gmap string Z) (pb : ExchangeRateBallot) :
    res ExchangeRateBallot :=
  cb ← ToCrossRate bases pb;
  Ok (Sort cb).

Definition Power (pb : ExchangeRateBallot) : Z :=
  foldl (fun totalPower vote => i64 (totalPower + v_Power vote)) 0 pb.

Fixpoint median_loop (half pivot : Z) (pb : ExchangeRateBallot) : option Z :=
  match pb with
  | [] => None
  | v :: pb =>
      let pivot := i64 (pivot + v_Power v) in
      if half <=? pivot then Some (v_ExchangeRate v) else median_loop half pivot pb
  end.

Definition WeightedMedian (pb : ExchangeRateBallot) : Z :=
  default LegacyZeroDec (median_loop (Z.quot (Power pb) 2) 0 pb).

Fixpoint sum_of_squares (median sum : Z) (pb : ExchangeRateBallot) : res Z :=
  match pb with
  | [] => Ok sum
  | v :: pb =>
      deviation ← DecSub (v_ExchangeRate v) median;
      sq ← DecMul deviation deviation;
      sum ← DecAdd sum sq;
      sum_of_squares median sum pb
  end.

(** The deferred [recover] turns a panic into zero. *)
Definition StandardDeviation (pb : ExchangeRateBallot) (median : Z) : Z :=
  match pb with
  | [] => LegacyZeroDec
  | _ =>
    match (sum ← sum_of_squares median LegacyZeroDec pb;
           DecQuoInt64 sum (Z.of_nat (length pb))) with
    | Ok variance =>
        if variance <=? 0 then LegacyZeroDec
        else DecFromFloat (Sqrt (ParseFloat variance Precision))
    | _ => LegacyZeroDec
    end
  end.

(** ** tally.go *)
Definition in_band (weightedMedian rewardSpread rate : Z) : res bool :=
  lo ← DecSub weightedMedian rewardSpread;
  if lo <=? rate then
    hi ← DecAdd weightedMedian rewardSpread;
    Ok ((rate <=? hi) || negb (0 <? rate))
  else Ok (negb (0 <? rate)).

Definition credit (vote : VoteForTally) (claims : gmap string Claim) : gmap string Claim :=
  let key := ValAddressString (v_Voter vote) in
  let claim := default zero_claim (claims !! key) in
  <[key := mkClaim (c_Power claim) (i64 (c_Weight claim + v_Power vote))
             (i64 (c_WinCount claim + 1)) (c_Recipient claim)]> claims.

Fixpoint tally_votes (weightedMedian rewardSpread : Z) (pb : ExchangeRateBallot)
    (claims : gmap string Claim) : res (gmap string Claim) :=
  match pb with
  | [] => Ok claims
  | vote :: pb =>
      win ← in_band weightedMedian rewardSpread (v_ExchangeRate vote);
      tally_votes weightedMedian rewardSpread pb
        (if win : bool then credit vote claims else claims)
  end.

Definition Tally (pb : ExchangeRateBallot) (rewardBand : Z) (validatorClaimMap : gmap string Claim) :
    res (Z * gmap string Claim) :=
  let weightedMedian := WeightedMedian pb in
  let standardDeviation := StandardDeviation pb weightedMedian in
  halfBand ← DecQuoInt64 rewardBand 2;
  rewardSpread ← DecMul weightedMedian halfBand;
  let rewardSpread := if rewardSpread <? standardDeviation then standardDeviation else rewardSpread in
  claims ← tally_votes weightedMedian rewardSpread pb validatorClaimMap;
  Ok (weightedMedian, claims).

Definition ballotIsPassing (ballot : ExchangeRateBallot) (thresholdVotes : Z) : Z * bool :=
  let ballotPower := Power ballot in
  (ballotPower, negb (ballotPower =? 0) && (thresholdVotes <=? ballotPower)).

(** The body of the loop of [PickReferenceDo]: the reference so far with its
    power, the vote targets and the ballots. *)
Definition pick_step (thresholdVotes : Z)
    (acc : (string * Z) * gmap string Z * gmap string ExchangeRateBallot)
    (entry : string * ExchangeRateBallot) :
    (string * Z) * gmap string Z * gmap string ExchangeRateBallot :=
  let '((referenceDo, largestBallotPower), voteTargets, voteMap) := acc in
  let '(denom, ballot) := entry in
  match voteTargets !! denom with
  | None => ((referenceDo, largestBallotPower), voteTargets, delete denom voteMap)
  | Some _ =>
    let '(power, ok) := ballotIsPassing ballot thresholdVotes in
    if negb ok
    then ((referenceDo, largestBallotPower), delete denom voteTargets, delete denom voteMap)
    else if (largestBallotPower <? power) || (largestBallotPower =? 0)
    then ((denom, power), voteTargets, voteMap)
    else if (largestBallotPower =? power) && String.ltb denom referenceDo
    then ((denom, largestBallotPower), voteTargets, voteMap)
    else ((referenceDo, largestBallotPower), voteTargets, voteMap)
  end.

(** The loop, over the ballots in the order the map is visited. *)
Definition pick_loop (thresholdVotes : Z) (entries : list (string * ExchangeRateBallot))
    (voteTargets : gmap string Z) (voteMap : gmap string ExchangeRateBallot) :=
  foldl (pick_step thresholdVotes) ((EmptyString, 0), voteTargets, voteMap) entries.
End ops.

(** ** The weighted median *)
Section median.
Implicit Types pb : ExchangeRateBallot.

Definition total_power pb : Z := Zsum (map v_Power pb).

(** The power of the votes whose rate satisfies a test. *)
Definition power_where (f : Z -> bool) pb : Z :=
  Zsum (map (fun v => if f (v_ExchangeRate v) then v_Power v else 0) pb).

(** Powers as the staking module gives them: not negative, and their sum
    fits an int64. *)
Definition sane_powers pb : Prop :=
  Forall (fun v => 0 <= v_Power v) pb /\ total_power pb < 2 ^ 63.

Lemma total_power_cons v pb : total_power (v :: pb) = v_Power v + total_power pb.
Proof. done. Qed.

Lemma total_power_nonneg pb : Forall (fun v => 0 <= v_Power v) pb -> 0 <= total_power pb.
Proof. induction 1; rewrite ?total_power_cons; [done|]. lia. Qed.

Lemma i64_fits z : - 2 ^ 63 <= z < 2 ^ 63 -> i64 z = z.
Proof. unfold i64. intros. rewrite Z.mod_small; lia. Qed.

Lemma Power_total pb : sane_powers pb -> Power pb = total_power pb.
Proof.
  intros [Hp Hs]. unfold Power.
  assert (forall l acc, Forall (fun v => 0 <= v_Power v) l -> 0 <= acc ->
    acc + total_power l < 2 ^ 63 ->
    foldl (fun t v => i64 (t + v_Power v)) acc l = acc + total_power l) as H.
  { induction l as [|v l IH]; intros acc Hl Ha Hb; simpl; [unfold total_power; simpl; lia|].
    apply Forall_cons in Hl as [Hv Hl]. rewrite total_power_cons in Hb |- *.
    pose proof (total_power_nonneg l Hl). rewrite i64_fits by lia. rewrite IH by (done || lia). lia. }
  rewrite H by (done || lia). lia.
Qed.

Lemma power_where_cons f v pb :
  power_where f (v :: pb) = (if f (v_ExchangeRate v) then v_Power v else 0) + power_where f pb.
Proof. done. Qed.

Lemma power_where_app f l k : power_where f (l ++ k) = power_where f l + power_where f k.
Proof. unfold power_where. by rewrite map_app, Zsum_app. Qed.

Lemma power_where_mono f g pb :
  Forall (fun v => 0 <= v_Power v) pb -> (forall r, f r = true -> g r = true) ->
  power_where f pb <= power_where g pb.
Proof.
  intros Hp Hfg. induction Hp as [|v pb Hv _ IH]; [done|]. rewrite !power_where_cons.
  destruct (f (v_ExchangeRate v)) eqn:E; [rewrite (Hfg _ E); lia|]. case_match; lia.
Qed.

Lemma power_where_all f pb :
  Forall (fun v => f (v_ExchangeRate v) = true) pb -> power_where f pb = total_power pb.
Proof.
  induction 1 as [|v pb Hv _ IH]; [done|]. by rewrite power_where_cons, total_power_cons, Hv, IH.
Qed.

Lemma power_where_none f pb :
  Forall (fun v => f (v_ExchangeRate v) = false) pb -> power_where f pb = 0.
Proof. induction 1 as [|v pb Hv _ IH]; [done|]. by rewrite power_where_cons, Hv, IH. Qed.

Lemma power_where_le f pb :
  Forall (fun v => 0 <= v_Power v) pb -> 0 <= power_where f pb <= total_power pb.
Proof.
  induction 1 as [|v pb Hv _ IH]; [done|]. rewrite power_where_cons, total_power_cons.
  case_match; lia.
Qed.

#[export] Instance power_where_perm f : Proper ((≡ₚ) ==> (=)) (power_where f).
Proof. intros x y Hxy. unfold power_where. by rewrite Hxy. Qed.

#[export] Instance total_power_perm : Proper ((≡ₚ) ==> (=)) total_power.
Proof. intros x y Hxy. unfold total_power. by rewrite Hxy. Qed.

#[export] Instance sane_powers_perm : Proper ((≡ₚ) ==> iff) sane_powers.
Proof. intros x y Hxy. unfold sane_powers. by rewrite Hxy. Qed.

(** The loop stops at the first vote where the running power reaches half. *)
Lemma median_loop_split half pb : forall pivot,
  Forall (fun v => 0 <= v_Power v) pb -> 0 <= pivot -> pivot + total_power pb < 2 ^ 63 ->
  pb <> [] -> half <= pivot + total_power pb ->
  exists l v k, pb = l ++ v :: k /\ median_loop half pivot pb = Some (v_ExchangeRate v) /\
    half <= pivot + total_power l + v_Power v /\ (l <> [] -> pivot + total_power l < half).
Proof.
  induction pb as [|v pb IH]; intros pivot Hp Hpiv Hb Hne Hh; [done|].
  apply Forall_cons in Hp as [Hv Hp]. rewrite total_power_cons in *.
  pose proof (total_power_nonneg pb Hp). simpl. rewrite i64_fits by lia.
  destruct (Z.leb_spec half (pivot + v_Power v)).
  - exists [], v, pb. unfold total_power. simpl. split_and!; try done. lia.
  - assert (pb <> []) by (intros ->; unfold total_power in *; simpl in *; lia).
    destruct (IH (pivot + v_Power v)) as (l & w & k & -> & E & Hge & Hlt); try done; try lia.
    exists (v :: l), w, k. rewrite total_power_cons. split_and!; try done; [lia|].
    intros _. destruct l as [|x l]; [unfold total_power; simpl; lia|].
    specialize (Hlt ltac:(done)). lia.
Qed.

Lemma WeightedMedian_split pb :
  pb <> [] -> sane_powers pb ->
  exists l v k, pb = l ++ v :: k /\ WeightedMedian pb = v_ExchangeRate v /\
    total_power pb / 2 <= total_power l + v_Power v /\
    (l <> [] -> total_power l < total_power pb / 2).
Proof.
  intros Hne Hs. pose proof (Power_total pb Hs) as HP. destruct Hs as [Hp Hb].
  pose proof (total_power_nonneg pb Hp). unfold WeightedMedian. rewrite HP.
  rewrite Z.quot_div_nonneg by lia.
  destruct (median_loop_split (total_power pb / 2) pb 0) as (l & v & k & Hpb & E & H1 & H2);
    try done; try lia.
  { apply Z.div_le_upper_bound; lia. }
  exists l, v, k. rewrite E. split_and!; try done.
Qed.

(** The votes before and after a position of a sorted ballot. *)
Lemma sorted_split l v k :
  StronglySorted rate_le (l ++ v :: k) ->
  Forall (fun w => v_ExchangeRate w <= v_ExchangeRate v) l /\
  Forall (fun w => v_ExchangeRate v <= v_ExchangeRate w) k.
Proof.
  induction l as [|x l IH]; simpl; intros Hs; apply StronglySorted_cons in Hs as [Hx Hs].
  - done.
  - destruct (IH Hs) as [Hl Hk]. split; [|done]. constructor; [|done].
    apply Forall_app in Hx as [_ Hx]. by apply Forall_cons in Hx as [? _].
Qed.

Lemma median_bounds pb :
  pb <> [] -> sane_powers pb -> StronglySorted rate_le pb ->
  let m := WeightedMedian pb in
  let half := total_power pb / 2 in
  half <= power_where (fun r => r <=? m) pb /\
  (power_where (fun r => r <? m) pb < half \/
   power_where (fun r => r <? m) pb = 0 /\ Forall (fun v => m <= v_ExchangeRate v) pb) /\
  exists v, v ∈ pb /\ v_ExchangeRate v = m /\ (0 < half -> 0 < v_Power v).
Proof.
  intros Hne Hs Hsort m half.
  destruct (WeightedMedian_split pb Hne Hs) as (l & v & k & Hpb & Hm & H1 & H2).
  fold m half in Hm, H1, H2. destruct Hs as [Hp _].
  rewrite Hpb in Hsort, Hp. destruct (sorted_split _ _ _ Hsort) as [Hl Hk].
  apply Forall_app in Hp as [Hpl Hp]. apply Forall_cons in Hp as [Hpv Hpk].
  assert (power_where (fun r => r <? m) (v :: k) = 0) as Hz.
  { apply power_where_none. constructor; [apply Z.ltb_ge; lia|].
    eapply Forall_impl; [exact Hk|]. intros w Hw. simpl in *. apply Z.ltb_ge. lia. }
  pose proof (power_where_le (fun r => r <? m) l Hpl) as Hlt.
  split_and!.
  - rewrite Hpb, power_where_app, power_where_cons, Hm, Z.leb_refl.
    rewrite (power_where_all _ l).
    + pose proof (power_where_le (fun r => r <=? v_ExchangeRate v) k Hpk). lia.
    + eapply Forall_impl; [exact Hl|]. intros w Hw. simpl in *. by apply Z.leb_le.
  - rewrite Hpb, power_where_app, Hz. destruct l as [|x l].
    + right. split; [done|]. simpl. constructor; [lia|].
      eapply Forall_impl; [exact Hk|]. simpl. lia.
    + left. specialize (H2 ltac:(done)). lia.
  - exists v. split_and!; [rewrite Hpb; set_solver|done|]. intros Hh.
    destruct l as [|x l]; [unfold total_power in H1; simpl in H1; lia|].
    specialize (H2 ltac:(done)). lia.
Qed.

(** C20: the weighted median of a sorted ballot with total power of at least
    two is the rate of a vote with positive power (never an abstention); the
    votes strictly below it hold less than half of the power, and the votes
    up to it at least half, half being the integer quotient of the code. *)
Theorem weighted_median_correct pb :
  sane_powers pb -> StronglySorted rate_le pb -> 2 <= total_power pb ->
  let m := WeightedMedian pb in
  power_where (fun r => r <? m) pb < total_power pb / 2 <= power_where (fun r => r <=? m) pb /\
  exists v, v ∈ pb /\ v_ExchangeRate v = m /\ 0 < v_Power v.
Proof.
  intros Hs Hsort Ht m.
  assert (pb <> []) as Hne by (intros ->; unfold total_power in Ht; simpl in Ht; lia).
  assert (0 < total_power pb / 2) as Hh.
  { apply Z.div_str_pos. lia. }
  destruct (median_bounds pb Hne Hs Hsort) as (Hle & Hlt & v & Hv & Hr & Hpow).
  fold m in Hle, Hlt, Hr.
  split; [split; [destruct Hlt as [?|[Hz _]]; lia|done]|]. exists v. split_and!; auto.
Qed.

(** the weighted median depends only on the votes, not on the order in
    which the sort left votes with equal rates: any two sorted arrangements
    of the same ballot have the same median.  All nodes therefore compute the
    same rate although [sort.Sort] is not stable. *)
Theorem weighted_median_tie_order pb1 pb2 :
  sane_powers pb1 -> pb1 ≡ₚ pb2 ->
  StronglySorted rate_le pb1 -> StronglySorted rate_le pb2 ->
  WeightedMedian pb1 = WeightedMedian pb2.
Proof.
  intros Hs Hperm S1 S2. destruct (decide (pb1 = [])) as [->|Hne].
  { apply Permutation_nil_l in Hperm as <-. done. }
  assert (pb2 <> []) as Hne2 by (intros ->; by apply Permutation_nil_r in Hperm).
  assert (sane_powers pb2) as Hs2 by by rewrite <- Hperm.
  destruct (median_bounds pb1 Hne Hs S1) as (Hle1 & Hlt1 & v1 & Hv1 & Hr1 & _).
  destruct (median_bounds pb2 Hne2 Hs2 S2) as (Hle2 & Hlt2 & v2 & Hv2 & Hr2 & _).
  set (m1 := WeightedMedian pb1) in *. set (m2 := WeightedMedian pb2) in *.
  rewrite <- Hperm in Hle2, Hlt2, Hv2.
  assert (forall m m', m < m' ->
    power_where (fun r => r <=? m) pb1 <= power_where (fun r => r <? m') pb1) as Hmono.
  { intros m m' Hlt. apply power_where_mono; [apply Hs|]. intros r Hr. zbool. apply Z.ltb_lt. lia. }
  destruct (Z.lt_trichotomy m1 m2) as [Hlt|[?|Hlt]]; [|done|].
  - specialize (Hmono _ _ Hlt). destruct Hlt2 as [?|[_ Hall]]; [lia|].
    rewrite Forall_forall in Hall. specialize (Hall _ Hv1). lia.
  - specialize (Hmono _ _ Hlt). destruct Hlt1 as [?|[_ Hall]]; [lia|].
    rewrite Forall_forall in Hall. specialize (Hall _ Hv2). lia.
Qed.
End median.

(** ** Crediting the winners *)
Section tally.
Context `{MathOps} `{AddrCodec} `{BallotSort} `{!MathLaws}.
Implicit Types pb : ExchangeRateBallot.

(** A vote within the spread around the median, or an abstention. *)
Definition wins (median spread : Z) (v : VoteForTally) : bool :=
  (median - spread <=? v_ExchangeRate v) && (v_ExchangeRate v <=? median + spread)
  || negb (0 <? v_ExchangeRate v).

Definition credit_all (votes : list VoteForTally) (claims : gmap string Claim) :
    gmap string Claim :=
  foldl (fun c v => credit v c) claims votes.

Lemma in_band_ok m sp v b :
  in_band m sp (v_ExchangeRate v) = Ok b -> b = wins m sp v.
Proof.
  unfold in_band, wins. intros E. res_inv E; math_inv; subst.
  - rewrite C. done.
  - rewrite C. done.
Qed.

Lemma tally_votes_ok m sp pb : forall claims claims',
  tally_votes m sp pb claims = Ok claims' ->
  claims' = credit_all (List.filter (wins m sp) pb) claims.
Proof.
  induction pb as [|v pb IH]; intros claims claims' E; simpl in E; [by injection E as <-|].
  apply res_bind_ok in E as (b & Hb & E). apply in_band_ok in Hb as ->.
  apply IH in E as ->. simpl. by destruct (wins m sp v).
Qed.

(** Whether the votes can be tallied does not depend on the claims. *)
Lemma tally_votes_total m sp pb c1 c2 c1' :
  tally_votes m sp pb c1 = Ok c1' ->
  tally_votes m sp pb c2 = Ok (credit_all (List.filter (wins m sp) pb) c2).
Proof.
  revert c1 c2. induction pb as [|v pb IH]; intros c1 c2 E; simpl in *; [done|].
  apply res_bind_ok in E as (b & Hb & E). rewrite Hb. simpl. rewrite (in_band_ok _ _ _ _ Hb) in *.
  rewrite (IH _ _ E). by destruct (wins m sp v).
Qed.

Lemma i64_idemp a b : i64 (i64 a + b) = i64 (a + b).
Proof.
  unfold i64. f_equal.
  replace ((a + 2 ^ 63) mod 2 ^ 64 - 2 ^ 63 + b + 2 ^ 63) with ((a + 2 ^ 63) mod 2 ^ 64 + b) by lia.
  rewrite Zplus_mod_idemp_l. f_equal. lia.
Qed.

(** Credits commute, so the order of the votes does not matter. *)
Lemma credit_comm v w claims : credit v (credit w claims) = credit w (credit v claims).
Proof.
  unfold credit. destruct (decide (ValAddressString (v_Voter v) = ValAddressString (v_Voter w)))
    as [->|Hne].
  - rewrite !lookup_insert_eq, !insert_insert_eq. simpl. rewrite !i64_idemp.
    do 2 f_equal; f_equal; lia.
  - rewrite !lookup_insert_ne by done. by rewrite insert_insert_ne by done.
Qed.

Lemma credit_all_app l k claims : credit_all (l ++ k) claims = credit_all k (credit_all l claims).
Proof. apply foldl_app. Qed.

#[export] Instance credit_all_perm : Proper ((≡ₚ) ==> (=) ==> (=)) credit_all.
Proof.
  intros l k Hp c ? <-. revert c. induction Hp; intros c; simpl.
  - done.
  - apply IHHp.
  - by rewrite credit_comm.
  - by rewrite IHHp1.
Qed.

(** The sum of a quantity over the votes of one validator. *)
Definition of_voter (key : string) (f : VoteForTally -> Z) (votes : list VoteForTally) : Z :=
  Zsum (map (fun v => if String.eqb (ValAddressString (v_Voter v)) key then f v else 0) votes).

Lemma credit_all_lookup votes : forall claims key claim,
  claims !! key = Some claim ->
  is_i64 (c_Weight claim) -> is_i64 (c_WinCount claim) ->
  credit_all votes claims !! key =
    Some (mkClaim (c_Power claim) (i64 (c_Weight claim + of_voter key v_Power votes))
            (i64 (c_WinCount claim + of_voter key (fun _ => 1) votes)) (c_Recipient claim)).
Proof.
  unfold of_voter, is_i64. induction votes as [|v votes IH]; intros claims key claim Hl Hw Hc.
  - simpl. rewrite !Z.add_0_r, !i64_fits by lia. rewrite Hl. by destruct claim.
  - change (credit_all (v :: votes) claims) with (credit_all votes (credit v claims)).
    unfold credit. simpl map.
    destruct (String.eqb_spec (ValAddressString (v_Voter v)) key) as [->|Hne].
    + assert (forall z, - 2 ^ 63 <= i64 z < 2 ^ 63) as Hi.
      { intros z. unfold i64. pose proof (Z.mod_pos_bound (z + 2 ^ 63) (2 ^ 64)). lia. }
      rewrite Hl. simpl. erewrite IH; [|apply lookup_insert_eq|apply Hi|apply Hi].
      simpl. rewrite !i64_idemp. do 2 f_equal; f_equal; lia.
    + apply IH; [by rewrite lookup_insert_ne|done|done].
Qed.

(** a tally returns the weighted median and credits exactly the votes
    within the reward spread (the larger of the standard deviation and half
    the reward band of the median) and the abstentions: each validator's
    weight grows by the power of its winning votes and its win count by their
    number. *)
Theorem tally_credits pb rewardBand claims m claims' :
  Tally pb rewardBand claims = Ok (m, claims') ->
  m = WeightedMedian pb /\
  exists bandSpread, 2 * Z.abs (bandSpread * Precision - m * Z.quot rewardBand 2) <= Precision /\
  forall key claim, claims !! key = Some claim ->
    is_i64 (c_Weight claim) -> is_i64 (c_WinCount claim) ->
    let winners := List.filter (wins m (Z.max (StandardDeviation pb m) bandSpread)) pb in
    claims' !! key =
      Some (mkClaim (c_Power claim) (i64 (c_Weight claim + of_voter key v_Power winners))
              (i64 (c_WinCount claim + of_voter key (fun _ => 1) winners)) (c_Recipient claim)).
Proof.
  intros E. unfold Tally in E. apply res_bind_ok in E as (hb & Hhb & E).
  apply res_bind_ok in E as (sp & Hsp & E). apply res_bind_ok in E as (c & Hc & E).
  injection E as <- <-. split; [done|]. rewrite DecQuoInt64_nz in Hhb by lia.
  injection Hhb as <-. apply DecMul_inv in Hsp. exists sp. split; [done|].
  intros key claim Hl Hw Hn winners. apply tally_votes_ok in Hc as ->.
  unfold winners. replace (Z.max _ sp) with
    (if sp <? StandardDeviation pb (WeightedMedian pb)
     then StandardDeviation pb (WeightedMedian pb) else sp).
  - by apply credit_all_lookup.
  - case_match; zbool; lia.
Qed.
End tally.

(** ** The reference denomination *)
Section pick.
Implicit Types entries : list (string * ExchangeRateBallot).

(** What happens to an entry: not a vote target, failed, or a candidate. *)
Definition is_target (T : gmap string Z) (e : string * ExchangeRateBallot) : bool :=
  bool_decide (is_Some (T !! e.1)).
Definition candidate (th : Z) (T : gmap string Z) (e : string * ExchangeRateBallot) : bool :=
  is_target T e && (ballotIsPassing e.2 th).2.
Definition failed (th : Z) (T : gmap string Z) (e : string * ExchangeRateBallot) : bool :=
  is_target T e && negb (ballotIsPassing e.2 th).2.

Definition ref_step (acc : string * Z) (e : string * ExchangeRateBallot) : string * Z :=
  let '(referenceDo, largest) := acc in
  let p := Power e.2 in
  if (largest <? p) || (largest =? 0) then (e.1, p)
  else if (largest =? p) && String.ltb e.1 referenceDo then (e.1, largest)
  else (referenceDo, largest).

Definition delete_all {A} (ks : list string) (m : gmap string A) : gmap string A :=
  foldl (fun m k => delete k m) m ks.

Lemma delete_all_comm {A} k ks (m : gmap string A) :
  delete_all ks (delete k m) = delete k (delete_all ks m).
Proof. revert m. induction ks as [|x ks IH]; intros m; simpl; [done|]. by rewrite delete_delete. Qed.

#[export] Instance delete_all_perm {A} : Proper ((≡ₚ) ==> (=) ==> (=)) (@delete_all A).
Proof.
  intros l k Hp c ? <-. revert c. induction Hp; intros c; simpl.
  - done.
  - apply IHHp.
  - by rewrite delete_delete.
  - by rewrite IHHp1.
Qed.

Lemma filter_delete_other {f : gmap string Z -> string * ExchangeRateBallot -> bool} T d entries :
  (forall e, e.1 <> d -> f (delete d T) e = f T e) -> d ∉ entries.*1 ->
  List.filter (f (delete d T)) entries = List.filter (f T) entries.
Proof.
  intros Hf. induction entries as [|e entries IH]; simpl; [done|].
  intros [Hd He]%not_elem_of_cons. rewrite Hf by done. by rewrite IH.
Qed.

Lemma target_delete_other d T e : e.1 <> d -> is_target (delete d T) e = is_target T e.
Proof. intros Hd. unfold is_target. by rewrite lookup_delete_ne by done. Qed.

Lemma pick_step_eq th acc T V e :
  pick_step th (acc, T, V) e =
    if candidate th T e then (ref_step acc e, T, V)
    else if failed th T e then (acc, delete e.1 T, delete e.1 V)
    else (acc, T, delete e.1 V).
Proof.
  destruct acc as [r l], e as [d b]. unfold pick_step, candidate, failed, is_target, ref_step. simpl.
  destruct (T !! d) as [t|] eqn:HT; [|by rewrite bool_decide_eq_false_2 by (intros [? ?]; done)].
  rewrite bool_decide_eq_true_2 by eauto. simpl.
  destruct (negb (Power b =? 0) && (th <=? Power b)); simpl; by repeat case_match.
Qed.

(** The loop, taken apart: the three results depend on the entries only
    through what happens to each of them. *)
Lemma pick_loop_parts th entries : forall acc T V,
  NoDup entries.*1 ->
  foldl (pick_step th) (acc, T, V) entries =
    (foldl ref_step acc (List.filter (candidate th T) entries),
     delete_all (List.filter (failed th T) entries).*1 T,
     delete_all (List.filter (fun e => negb (candidate th T e)) entries).*1 V).
Proof.
  induction entries as [|e entries IH]; intros acc T V Hnd; [done|].
  apply NoDup_cons in Hnd as [Hd Hnd]. cbn [foldl List.filter]. rewrite pick_step_eq.
  destruct (candidate th T e) eqn:Hc.
  - assert (failed th T e = false) as ->.
    { revert Hc. unfold candidate, failed. destruct (is_target T e), (ballotIsPassing _ _).2; done. }
    simpl. by rewrite IH.
  - destruct (failed th T e) eqn:Hf; simpl; rewrite IH by done; [|done].
    rewrite (filter_delete_other (f := candidate th)) by
      (try done; intros; unfold candidate; by rewrite target_delete_other).
    rewrite (filter_delete_other (f := failed th)) by
      (try done; intros; unfold failed; by rewrite target_delete_other).
    rewrite (filter_delete_other (f := fun T e => negb (candidate th T e))) by
      (try done; intros; unfold candidate; by rewrite target_delete_other).
    done.
Qed.

Lemma ltb_trichotomy x y : String.ltb x y = true \/ x = y \/ String.ltb y x = true.
Proof.
  unfold String.ltb. rewrite (String.compare_antisym y x).
  destruct (String.compare x y) eqn:E; simpl; auto.
  right; left. by apply String.compare_eq_iff.
Qed.

Lemma ltb_trans x y z : String.ltb x y = true -> String.ltb y z = true -> String.ltb x z = true.
Proof.
  revert y z. induction x as [|a x IH]; intros [|b y] [|c z]; try done.
  unfold String.ltb in *. simpl. unfold Ascii.compare.
  destruct (N.compare_spec (Ascii.N_of_ascii a) (Ascii.N_of_ascii b)) as [E1|E1|E1],
    (N.compare_spec (Ascii.N_of_ascii b) (Ascii.N_of_ascii c)) as [E2|E2|E2];
    intros H1 H2; try done;
    destruct (N.compare_spec (Ascii.N_of_ascii a) (Ascii.N_of_ascii c)) as [E3|E3|E3];
    try done; try lia. eapply IH; eauto.
Qed.

Lemma ltb_irrefl x : String.ltb x x = false.
Proof.
  unfold String.ltb. pose proof (String.compare_antisym x x) as E.
  by destruct (String.compare x x).
Qed.

(** [better e f]: [e] comes before [f] as a reference. *)
Definition better (x y : string * Z) : Prop :=
  y.2 < x.2 \/ (y.2 = x.2 /\ String.ltb x.1 y.1 = true).

Lemma better_trans x y z : better x y -> better y z -> better x z.
Proof.
  unfold better. intros [?|[? ?]] [?|[? ?]]; [left; lia|left; lia|left; lia|].
  right. split; [lia|]. by eapply ltb_trans.
Qed.

Lemma better_irrefl x : ~ better x x.
Proof. unfold better. rewrite ltb_irrefl. intros [?|[_ ?]]; [lia|done]. Qed.

Lemma better_total x y : better x y \/ x = y \/ better y x.
Proof.
  unfold better. destruct x as [a p], y as [b q]; simpl.
  destruct (Z.lt_trichotomy p q) as [?|[->|?]]; [auto| |auto].
  destruct (ltb_trichotomy a b) as [?|[->|?]]; auto.
Qed.

Definition summary (e : string * ExchangeRateBallot) : string * Z := (e.1, Power e.2).

(** One step keeps the better of the reference so far and the entry. *)
Lemma ref_step_best acc e :
  0 < acc.2 -> 0 < Power e.2 ->
  (ref_step acc e = acc \/ ref_step acc e = summary e) /\ 0 < (ref_step acc e).2 /\
  (forall x, better acc x \/ acc = x \/ better (summary e) x \/ summary e = x ->
    better (ref_step acc e) x \/ ref_step acc e = x).
Proof.
  destruct acc as [r l]. unfold ref_step, summary. simpl. intros Hl Hp.
  assert (forall (a b c : string * Z), better a b -> better b c \/ b = c -> better a c) as Htr.
  { intros a b c Hab [?| <-]; [by eapply better_trans|done]. }
  destruct (Z.ltb_spec l (Power e.2)); simpl.
  { split_and!; auto. intros x [Hx|[Hx|Hx]]; auto.
    - left. eapply (Htr _ (r, l)); [by left|by left].
    - left. eapply (Htr _ (r, l)); [by left|by right]. }
  destruct (Z.eqb_spec l 0); [lia|]. destruct (Z.eqb_spec l (Power e.2)) as [->|]; simpl.
  - destruct (String.ltb e.1 r) eqn:Hlt.
    + split_and!; auto. intros x [Hx|[Hx|Hx]]; auto.
      * left. eapply (Htr _ (r, Power e.2)); [by right|by left].
      * left. eapply (Htr _ (r, Power e.2)); [by right|by right].
    + split_and!; auto. intros x [Hx|[Hx|Hx]]; auto.
      destruct (ltb_trichotomy e.1 r) as [?|[<-|Hr]]; [congruence|tauto|].
      left. eapply (Htr _ (e.1, Power e.2)); [by right|tauto].
  - split_and!; auto. intros x [Hx|[Hx|Hx]]; auto.
    left. eapply (Htr _ (e.1, Power e.2)); [left; simpl; lia|tauto].
Qed.

Lemma ref_fold_best l : forall acc,
  0 < acc.2 -> Forall (fun e => 0 < Power e.2) l ->
  let r := foldl ref_step acc l in
  (r = acc \/ r ∈ map summary l) /\
  (better r acc \/ r = acc) /\ Forall (fun e => better r (summary e) \/ r = summary e) l.
Proof.
  induction l as [|e l IH]; intros acc Ha Hl r; [by auto|].
  apply Forall_cons in Hl as [He Hl].
  destruct (ref_step_best acc e Ha He) as (Hor & Hpos & Hb).
  destruct (IH (ref_step acc e) Hpos Hl) as (Hin & Hge & Hall). subst r. simpl.
  assert (forall x, better (ref_step acc e) x \/ ref_step acc e = x ->
    better (foldl ref_step (ref_step acc e) l) x \/ foldl ref_step (ref_step acc e) l = x) as Htr.
  { intros x [Hx| <-]; [|done]. destruct Hge as [Hge|Hge]; [left; by eapply better_trans|].
    left. by rewrite Hge. }
  split_and!.
  - destruct Hin as [->|Hin]; [|right; by right]. destruct Hor as [->| ->]; [by left|].
    right. by left.
  - apply Htr, Hb. auto.
  - constructor; [|done]. apply Htr, Hb. auto.
Qed.

(** The reference among the candidates: the first in the order [better]. *)
Definition best_of (l : list (string * ExchangeRateBallot)) (r : string * Z) : Prop :=
  (l = [] /\ r = (EmptyString, 0)) \/
  (r ∈ map summary l /\ Forall (fun e => better r (summary e) \/ r = summary e) l).

Lemma ref_fold_best_of l :
  Forall (fun e => 0 < Power e.2) l -> best_of l (foldl ref_step (EmptyString, 0) l).
Proof.
  destruct l as [|e l]; [by left|]. intros [He Hl]%Forall_cons. right. cbn [foldl].
  assert (ref_step (EmptyString, 0) e = summary e) as ->
    by (unfold ref_step; by rewrite orb_true_r).
  destruct (ref_fold_best l (summary e) He Hl) as (Hin & Hge & Hall). split.
  - destruct Hin as [->|Hin]; [by left|by right].
  - constructor; auto.
Qed.

Lemma best_of_unique l k r r' : l ≡ₚ k -> best_of l r -> best_of k r' -> r = r'.
Proof.
  intros Hp [[-> ->]|[Hin Hall]] [[-> ->]|[Hin' Hall']]; try done.
  - apply Permutation_nil_l in Hp as <-. by apply not_elem_of_nil in Hin'.
  - apply Permutation_nil_r in Hp as ->. by apply not_elem_of_nil in Hin.
  - rewrite Hp in Hin, Hall. rewrite Forall_forall in Hall, Hall'.
    apply list_elem_of_fmap in Hin as (e & -> & He). apply list_elem_of_fmap in Hin' as (e' & -> & He').
    destruct (Hall _ He') as [H1|]; [|done]. destruct (Hall' _ He) as [H2|]; [|done].
    destruct (better_irrefl _ (better_trans _ _ _ H1 H2)).
Qed.

Lemma filter_perm {A} (f : A -> bool) (l k : list A) :
  l ≡ₚ k -> List.filter f l ≡ₚ List.filter f k.
Proof.
  induction 1; simpl; try case_match; try case_match; auto.
  - apply perm_swap.
  - by etrans.
Qed.

Lemma candidates_positive th T entries :
  Forall (fun e => sane_powers e.2) entries ->
  Forall (fun e => 0 < Power e.2) (List.filter (candidate th T) entries).
Proof.
  rewrite !Forall_forall. intros Hs e [Hin Hc]%list_elem_of_In%filter_In.
  apply list_elem_of_In, Hs in Hin. pose proof (Power_total _ Hin) as HP.
  destruct Hin as [Hp _]. pose proof (total_power_nonneg _ Hp).
  unfold candidate, ballotIsPassing in Hc. simpl in Hc. zbool. lia.
Qed.

Lemma pick_loop_best th entries T V :
  NoDup entries.*1 -> Forall (fun e => sane_powers e.2) entries ->
  best_of (List.filter (candidate th T) entries) (pick_loop th entries T V).1.1.
Proof.
  intros Hnd Hs. unfold pick_loop. rewrite pick_loop_parts by done. simpl.
  by apply ref_fold_best_of, candidates_positive.
Qed.

(** the reference denomination is a vote target with a passing ballot of
    the largest power, the alphabetically first one among equals, and it is
    empty only when no ballot passes. *)
Theorem reference_is_best th entries T V :
  NoDup entries.*1 -> Forall (fun e => sane_powers e.2) entries ->
  let r := (pick_loop th entries T V).1.1 in
  (forall d b, (d, b) ∈ entries -> is_Some (T !! d) -> (ballotIsPassing b th).2 = true ->
     r.1 = d \/ Power b < r.2 \/ (Power b = r.2 /\ String.ltb r.1 d = true)) /\
  (r = (EmptyString, 0) \/ exists b, (r.1, b) ∈ entries /\ is_Some (T !! r.1) /\
     (ballotIsPassing b th).2 = true /\ r.2 = Power b).
Proof.
  intros Hnd Hs r. pose proof (pick_loop_best th entries T V Hnd Hs) as Hb. fold r in Hb.
  assert (forall e, e ∈ List.filter (candidate th T) entries <->
    e ∈ entries /\ is_Some (T !! e.1) /\ (ballotIsPassing e.2 th).2 = true) as Hin.
  { intros e. rewrite list_elem_of_In, filter_In, <- list_elem_of_In.
    unfold candidate, is_target. by rewrite andb_true_iff, bool_decide_eq_true. }
  split.
  - intros d b Hdb HT Hpass.
    assert ((d, b) ∈ List.filter (candidate th T) entries) as Hc by by apply Hin.
    destruct Hb as [[Hnil _]|[_ Hall]]; [rewrite Hnil in Hc; set_solver|].
    rewrite Forall_forall in Hall. destruct (Hall _ Hc) as [[?|[? ?]]| ->]; simpl in *; auto.
  - destruct Hb as [[_ ->]|[Hmem _]]; [by left|right].
    apply list_elem_of_fmap in Hmem as (e & -> & He). apply Hin in He as (? & ? & ?).
    exists e.2. split_and!; try done. by destruct e.
Qed.

(** the order in which the Go runtime visits the map of ballots has no
    influence: for any two visiting orders, the reference, the remaining vote
    targets and the remaining ballots are the same. *)
Theorem reference_order_independent th entries1 entries2 T V :
  entries1 ≡ₚ entries2 -> NoDup entries1.*1 ->
  Forall (fun e => sane_powers e.2) entries1 ->
  pick_loop th entries1 T V = pick_loop th entries2 T V.
Proof.
  intros Hp Hnd Hs.
  assert (NoDup entries2.*1) as Hnd2 by by rewrite <- Hp.
  assert (Forall (fun e => sane_powers e.2) entries2) as Hs2 by by rewrite <- Hp.
  pose proof (pick_loop_best th entries1 T V Hnd Hs) as B1.
  pose proof (pick_loop_best th entries2 T V Hnd2 Hs2) as B2.
  pose proof (best_of_unique _ _ _ _ (filter_perm _ _ _ Hp) B1 B2) as Heq.
  unfold pick_loop in *. rewrite !pick_loop_parts in * by done. simpl in Heq. rewrite Heq.
  f_equal; [f_equal|]; by rewrite (filter_perm _ _ _ Hp).
Qed.
End pick.

(** ** Witnesses *)
#[export] Instance ref_sort : BallotSort := merge_sort rate_le.
#[export] Instance ref_sort_laws : BallotSortLaws.
Proof.
  assert (Total rate_le) by (intros x y; unfold rate_le; lia).
  assert (Transitive rate_le) by (intros x y z; unfold rate_le; lia).
  split; intros pb; [apply merge_sort_Permutation|by apply StronglySorted_merge_sort].
Qed.

Module Example.
Definition vote (rate power : Z) (voter : string) : VoteForTally := mkVote "uusd" rate voter power.
Definition ballot : ExchangeRateBallot :=
  [vote 0 0 "zed"; vote 10 3 "amy"; vote 20 4 "bob"; vote 20 2 "cat"; vote 90 2 "dan"].
Definition ballot' : ExchangeRateBallot :=
  [vote 0 0 "zed"; vote 10 3 "amy"; vote 20 2 "cat"; vote 20 4 "bob"; vote 90 2 "dan"].

Lemma ballot_sane : sane_powers ballot.
Proof. split; [repeat constructor; simpl; lia|reflexivity]. Qed.
Lemma ballot_sorted : StronglySorted rate_le ballot.
Proof. repeat constructor; unfold rate_le; simpl; lia. Qed.
Lemma ballot'_sorted : StronglySorted rate_le ballot'.
Proof. repeat constructor; unfold rate_le; simpl; lia. Qed.

Definition claims : gmap string Claim :=
  {["dovaloper1bob" := mkClaim 4 0 0 "bob"; "dovaloper1dan" := mkClaim 2 0 0 "dan"]}.

Definition entries : list (string * ExchangeRateBallot) :=
  [("ukrw", ballot'); ("uusd", ballot); ("ugbp", [vote 7 5 "amy"])].
Definition targets : gmap string Z := {["uusd" := 0; "ugbp" := 0; "ukrw" := 0]}.

Lemma entries_nodup : NoDup entries.*1.
Proof. apply (bool_decide_unpack _). vm_compute. exact I. Qed.
Lemma entries_sane : Forall (fun e => sane_powers e.2) entries.
Proof. repeat constructor; simpl; lia. Qed.
End Example.

Lemma weighted_median_correct_witness :
  WeightedMedian Example.ballot = 20 /\
  power_where (fun r => r <? 20) Example.ballot < 11 / 2 <= power_where (fun r => r <=? 20) Example.ballot.
Proof.
  split; [reflexivity|].
  exact (proj1 (weighted_median_correct Example.ballot Example.ballot_sane Example.ballot_sorted
    ltac:(vm_compute; discriminate))).
Defined.

Lemma weighted_median_tie_order_witness :
  WeightedMedian Example.ballot = WeightedMedian Example.ballot'.
Proof.
  apply (weighted_median_tie_order Example.ballot Example.ballot');
    [apply Example.ballot_sane| |apply Example.ballot_sorted|apply Example.ballot'_sorted].
  apply (Permutation_app_head [_; _]). apply perm_swap.
Defined.

Lemma tally_credits_witness :
  exists claims' bandSpread, Tally Example.ballot (2 * 10 ^ 16) Example.claims = Ok (20, claims') /\
    claims' !! "dovaloper1bob" =
      Some (mkClaim 4
        (i64 (0 + of_voter "dovaloper1bob" v_Power
           (List.filter (wins 20 (Z.max (StandardDeviation Example.ballot 20) bandSpread))
              Example.ballot)))
        (i64 (0 + of_voter "dovaloper1bob" (fun _ => 1)
           (List.filter (wins 20 (Z.max (StandardDeviation Example.ballot 20) bandSpread))
              Example.ballot))) "bob").
Proof.
  set (c := match Tally Example.ballot (2 * 10 ^ 16) Example.claims with
            | Ok (_, c) => c | _ => ∅ end).
  assert (E : Tally Example.ballot (2 * 10 ^ 16) Example.claims = Ok (20, c))
    by (vm_compute; reflexivity).
  destruct (tally_credits Example.ballot (2 * 10 ^ 16) Example.claims 20 c E) as (_ & sp & _ & Hc).
  exists c, sp. split; [exact E|].
  apply (Hc "dovaloper1bob" (mkClaim 4 0 0 "bob")); [reflexivity|split; simpl; lia|split; simpl; lia].
Defined.

Lemma reference_is_best_witness :
  let r := (pick_loop 6 Example.entries Example.targets (list_to_map Example.entries)).1.1 in
  r = ("ukrw", 11) /\
  ("uusd" = r.1 \/ 11 < r.2 \/ (11 = r.2 /\ String.ltb r.1 "uusd" = true)).
Proof.
  split; [vm_compute; reflexivity|].
  destruct (reference_is_best 6 Example.entries Example.targets (list_to_map Example.entries)
    Example.entries_nodup Example.entries_sane) as [H _].
  destruct (H "uusd" Example.ballot ltac:(right; left) ltac:(eexists; vm_compute; reflexivity)
    eq_refl) as [Hr|Hr]; [left; symmetry; exact Hr|right; exact Hr].
Defined.

Lemma reference_order_independent_witness :
  pick_loop 6 Example.entries Example.targets ∅ =
  pick_loop 6 (rev Example.entries) Example.targets ∅.
Proof.
  apply (reference_order_independent 6 Example.entries (rev Example.entries) Example.targets ∅);
    [apply Permutation_rev|apply Example.entries_nodup|apply Example.entries_sane].
Defined.
