(* ===== verification/OracleState.v ===== *)
(** * The oracle's store and messages (src/x/oracle)

    [State] is the module's store: the exchange rates, the feeder
    delegations, the miss counters, the aggregate prevotes and votes, the
    tobin taxes and the parameters, with the staking module's state the
    handlers read.  Each keeper accessor, the three message handlers, the
    message validation, the text format of a vote and its hash, the queries
    and the genesis functions are definitions.  The hash function and the
    parser of a decimal coin are parameters.  The theorems: a vote is stored
    only when it opens the voter's own prevote of the previous vote period,
    and consumes it; who may feed; what a parsed vote contains; the genesis
    round trip. *)
From stdpp Require Import base gmap sets list strings fin_maps sorting.
From Stdlib Require Import ZArith Lia.
From S2P Require Import Prelude Sdk SdkRef Core.
From S2P Require Market.
#[local] Open Scope Z_scope.

(** ** types/keys.go, types/errors.go *)
Definition ModuleName : string := "oracle".
Definition ErrInvalidExchangeRate : error := Registered ModuleName 2.
Definition ErrNoVotingPermission : error := Registered ModuleName 5.
Definition ErrInvalidHash : error := Registered ModuleName 6.
Definition ErrInvalidHashLength : error := Registered ModuleName 7.
Definition ErrVerificationFailed : error := Registered ModuleName 8.
Definition ErrRevealPeriodMissMatch : error := Registered ModuleName 9.
Definition ErrInvalidSaltLength : error := Registered ModuleName 10.
Definition ErrNoAggregatePrevote : error := Registered ModuleName 11.
Definition ErrNoAggregateVote : error := Registered ModuleName 12.
Definition ErrNoTobinTax : error := Registered ModuleName 13.
Definition ErrUnknownDenom : error := Registered ModuleName 14.

(** ** types/params.go *)
Record WhitelistDenom : Type := mkWhitelistDenom { d_Name : string; d_TobinTax : Z }.

Record Params : Type := mkParams {
  p_VotePeriod : Z;
  p_VoteThreshold : Z;
  p_RewardBand : Z;
  p_RewardDistributionWindow : Z;
  p_Whitelist : list WhitelistDenom;
  p_SlashFraction : Z;
  p_SlashWindow : Z;
  p_MinValidPerWindow : Z;
}.

Definition DefaultTobinTax : Z := LegacyNewDecWithPrec 25 4.
Definition DefaultWhitelist : list WhitelistDenom :=
  [mkWhitelistDenom MicroDoDenom LegacyZeroDec; mkWhitelistDenom MicroUSDDenom DefaultTobinTax].

Definition DefaultParams : Params := {|
  p_VotePeriod := BlocksPerMinute / 2;
  p_VoteThreshold := LegacyNewDecWithPrec 50 2;
  p_RewardBand := LegacyNewDecWithPrec 2 2;
  p_RewardDistributionWindow := BlocksPerYear;
  p_Whitelist := DefaultWhitelist;
  p_SlashFraction := LegacyNewDecWithPrec 1 4;
  p_SlashWindow := BlocksPerWeek;
  p_MinValidPerWindow := LegacyNewDecWithPrec 5 2;
|}.

(** [v.GT(OneDec) || v.IsNegative()] *)
Definition outside_unit (v : Z) : bool := (LegacyOneDec <? v) || (v <? 0).

Fixpoint check_whitelist (l : list WhitelistDenom) : res unit :=
  match l with
  | [] => Ok tt
  | d :: l =>
      if outside_unit (d_TobinTax d) then Err (Plain "TobinTax between [0, 1]")
      else if Nat.eqb (String.length (d_Name d)) 0 then Err (Plain "Denom must have name")
      else check_whitelist l
  end.

Definition Validate (p : Params) : res unit :=
  if p_VotePeriod p =? 0 then Err (Plain "VotePeriod must be > 0")
  else if p_VoteThreshold p <=? LegacyNewDecWithPrec 33 2
  then Err (Plain "VoteThreshold must be greater than 33 percent")
  else if outside_unit (p_RewardBand p) then Err (Plain "RewardBand must be between [0, 1]")
  else if p_RewardDistributionWindow p <? p_VotePeriod p
  then Err (Plain "RewardDistributionWindow must be greater than or equal with VotePeriod")
  else if outside_unit (p_SlashFraction p) then Err (Plain "SlashFraction must be between [0, 1]")
  else if p_SlashWindow p <? p_VotePeriod p
  then Err (Plain "SlashWindow must be greater than or equal with VotePeriod")
  else if outside_unit (p_MinValidPerWindow p)
  then Err (Plain "MinValidPerWindow must be between [0, 1]")
  else check_whitelist (p_Whitelist p).

Definition validateVotePeriod (v : Z) : res unit :=
  if v =? 0 then Err (Plain "vote period must be positive") else Ok tt.

Definition validateVoteThreshold (v : Z) : res unit :=
  if v <? LegacyNewDecWithPrec 33 2 then Err (Plain "vote threshold must be bigger than 33%")
  else if LegacyOneDec <? v then Err (Plain "vote threshold too large")
  else Ok tt.

Definition validateRewardBand (v : Z) : res unit :=
  if v <? 0 then Err (Plain "reward band must be positive")
  else if LegacyOneDec <? v then Err (Plain "reward band is too large")
  else Ok tt.

Definition validateRewardDistributionWindow (v : Z) : res unit :=
  if v =? 0 then Err (Plain "reward distribution window must be positive") else Ok tt.

Definition validateWhitelist (v : list WhitelistDenom) : res unit := check_whitelist v.

Definition validateSlashFraction (v : Z) : res unit :=
  if v <? 0 then Err (Plain "slash fraction must be positive")
  else if LegacyOneDec <? v then Err (Plain "slash fraction is too large")
  else Ok tt.

Definition validateSlashWindow (v : Z) : res unit :=
  if v =? 0 then Err (Plain "slash window must be positive") else Ok tt.

Definition validateMinValidPerWindow (v : Z) : res unit :=
  if v <? 0 then Err (Plain "min valid per window must be positive")
  else if LegacyOneDec <? v then Err (Plain "min valid per window is too large")
  else Ok tt.

Definition ParamSetPairs (p : Params) : list (res unit) :=
  [validateVotePeriod (p_VotePeriod p);
   validateVoteThreshold (p_VoteThreshold p);
   validateRewardBand (p_RewardBand p);
   validateRewardDistributionWindow (p_RewardDistributionWindow p);
   validateWhitelist (p_Whitelist p);
   validateSlashFraction (p_SlashFraction p);
   validateSlashWindow (p_SlashWindow p);
   validateMinValidPerWindow (p_MinValidPerWindow p)].

(** ** types/vote.go *)
Record DoRateTuple : Type := mkDoRateTuple { t_Denom : string; t_ExchangeRate : Z }.
Record AggregateDoRatePrevote : Type := mkPrevote {
  pv_Hash : string; pv_Voter : string; pv_SubmitBlock : Z;
}.
Record AggregateDoRateVote : Type := mkAggregateVote {
  av_Tuples : list DoRateTuple; av_Voter : string;
}.

(** [strings.Split(s, ",")] *)
Fixpoint split_comma (s : string) : list string :=
  match s with
  | EmptyString => [EmptyString]
  | String c s' =>
      if Ascii.eqb c (Ascii.ascii_of_nat 44) then EmptyString :: split_comma s'
      else match split_comma s' with
           | x :: l => String c x :: l
           | [] => [String c EmptyString]
           end
  end.

(** The UTF-8 encodings of the Unicode white space [strings.TrimSpace] cuts. *)
Definition bytes (l : list nat) : string :=
  foldr (fun n s => String (Ascii.ascii_of_nat n) s) EmptyString l.
Definition white_space : list string :=
  map bytes
    ([[9]; [10]; [11]; [12]; [13]; [32]; [194; 133]; [194; 160]; [225; 154; 128];
      [226; 128; 168]; [226; 128; 169]; [226; 128; 175]; [226; 129; 159]; [227; 128; 128]]%nat
     ++ map (fun n => [226; 128; 128 + n]%nat) (seq 0 11)).

Definition cut_prefix (s : string) : option string :=
  foldr (fun w acc => if String.prefix w s
                      then Some (String.substring (String.length w) (String.length s) s) else acc)
        None white_space.
Fixpoint trim_left (fuel : nat) (s : string) : string :=
  match fuel with
  | O => s
  | S fuel => match cut_prefix s with Some s' => trim_left fuel s' | None => s end
  end.
Definition cut_suffix (s : string) : option string :=
  foldr (fun w acc =>
           let n := (String.length s - String.length w)%nat in
           if Nat.leb (String.length w) (String.length s) &&
              String.eqb (String.substring n (String.length w) s) w
           then Some (String.substring 0 n s) else acc)
        None white_space.
Fixpoint trim_right (fuel : nat) (s : string) : string :=
  match fuel with
  | O => s
  | S fuel => match cut_suffix s with Some s' => trim_right fuel s' | None => s end
  end.
(** Each cut shortens the text, so its length is enough fuel. *)
Definition TrimSpace (s : string) : string :=
  let s := trim_left (String.length s) s in trim_right (String.length s) s.

(** [sdk.ParseDecCoin] is a parameter. *)
Class DecCoinParser : Type := ParseDecCoin : string -> res DecCoin.

Fixpoint parse_tuples `{DecCoinParser} (seen : gset string) (l : list string) :
    res (list DoRateTuple) :=
  match l with
  | [] => Ok []
  | tupleStr :: l =>
      decCoin ← ParseDecCoin tupleStr;
      if bool_decide (DDenom decCoin ∈ seen) then Err (Plain "duplicated denom")
      else
        tuples ← parse_tuples ({[DDenom decCoin]} ∪ seen) l;
        Ok (mkDoRateTuple (DDenom decCoin) (DAmount decCoin) :: tuples)
  end.

Definition ParseDoRateTuples `{DecCoinParser} (tuplesStr : string) : res (list DoRateTuple) :=
  let tuplesStr := TrimSpace tuplesStr in
  if Nat.eqb (String.length tuplesStr) 0 then Ok []
  else parse_tuples ∅ (split_comma tuplesStr).

(** ** types/hash.go: [tmhash.SumTruncated] is a parameter, [encoding/hex] is not *)
Class TmHash : Type := tmhash : string -> string.

Definition hex_digit (n : nat) : Ascii.ascii :=
  Ascii.ascii_of_nat (if Nat.ltb n 10 then 48 + n else 87 + n).
Definition hex_value (c : Ascii.ascii) : option nat :=
  let n := Ascii.nat_of_ascii c in
  if Nat.leb 48 n && Nat.leb n 57 then Some (n - 48)%nat
  else if Nat.leb 97 n && Nat.leb n 102 then Some (n - 87)%nat
  else if Nat.leb 65 n && Nat.leb n 70 then Some (n - 55)%nat
  else None.

(** [hex.EncodeToString], the method [String] of [AggregateVoteHash]. *)
Fixpoint EncodeToString (h : string) : string :=
  match h with
  | EmptyString => EmptyString
  | String c h =>
      let n := Ascii.nat_of_ascii c in
      String (hex_digit (n / 16)) (String (hex_digit (n mod 16)) (EncodeToString h))
  end.

Fixpoint DecodeString (s : string) : res string :=
  match s with
  | EmptyString => Ok EmptyString
  | String a (String b s) =>
      match hex_value a, hex_value b with
      | Some x, Some y =>
          h ← DecodeString s;
          Ok (String (Ascii.ascii_of_nat (16 * x + y)) h)
      | _, _ => Err (Plain "encoding/hex: invalid byte")
      end
  | String _ EmptyString => Err (Plain "encoding/hex: odd length hex string")
  end.

Definition AggregateVoteHashFromHexString (s : string) : res string := DecodeString s.

Definition GetAggregateVoteHash `{TmHash} `{AddrCodec} (salt exchangeRatesStr : string)
    (voter : ValAddress) : string :=
  tmhash (salt +:+ ":" +:+ exchangeRatesStr +:+ ":" +:+ ValAddressString voter).

(** ** types/msgs.go *)
Record MsgAggregateDoRatePrevote : Type := mkMsgPrevote {
  mp_Hash : string; mp_Feeder : string; mp_Validator : string;
}.
Record MsgAggregateDoRateVote : Type := mkMsgVote {
  mv_Salt : string; mv_ExchangeRates : string; mv_Feeder : string; mv_Validator : string;
}.
Record MsgDelegateFeedConsent : Type := mkMsgDelegate { md_Operator : string; md_Delegate : string }.

(** [_, err := parse(s); if err != nil { return ErrInvalidAddress }] *)
Definition check_address {A} (r : res A) : res unit :=
  match r with Ok _ => Ok tt | Err _ => Err (SdkError "ErrInvalidAddress") | Panic => Panic end.

Definition TruncatedSize : nat := 20.

Definition MsgAggregateDoRatePrevote_ValidateBasic `{AddrCodec} (msg : MsgAggregateDoRatePrevote) :
    res unit :=
  match AggregateVoteHashFromHexString (mp_Hash msg) with
  | Panic => Panic
  | Err _ => Err ErrInvalidHash
  | Ok _ =>
    if negb (Nat.eqb (String.length (mp_Hash msg)) (TruncatedSize * 2)) then Err ErrInvalidHashLength
    else
      _ ← check_address (AccAddressFromBech32 (mp_Feeder msg));
      check_address (ValAddressFromBech32 (mp_Validator msg))
  end.

Definition MsgAggregateDoRateVote_ValidateBasic `{AddrCodec} `{DecCoinParser}
    (msg : MsgAggregateDoRateVote) : res unit :=
  _ ← check_address (AccAddressFromBech32 (mv_Feeder msg));
  _ ← check_address (ValAddressFromBech32 (mv_Validator msg));
  let l := String.length (mv_ExchangeRates msg) in
  if Nat.eqb l 0 then Err (SdkError "ErrUnknownRequest")
  else if Nat.ltb 4096 l then Err (SdkError "ErrInvalidRequest")
  else
    match ParseDoRateTuples (mv_ExchangeRates msg) with
    | Panic => Panic
    | Err _ => Err (SdkError "ErrInvalidCoins")
    | Ok exchangeRates =>
      if existsb (fun t => 255 + 60 <? bit_len (t_ExchangeRate t)) exchangeRates
      then Err ErrInvalidExchangeRate
      else
        let n := String.length (mv_Salt msg) in
        if Nat.ltb 64 n || Nat.ltb n 1 then Err ErrInvalidSaltLength else Ok tt
    end.

Definition MsgDelegateFeedConsent_ValidateBasic `{AddrCodec} (msg : MsgDelegateFeedConsent) :
    res unit :=
  _ ← check_address (ValAddressFromBech32 (md_Operator msg));
  check_address (AccAddressFromBech32 (md_Delegate msg)).

(** ** The store *)
Record State (B K D : Type) : Type := mkState {
  st_params : option Params;
  st_rates : gmap string Z;
  st_feeders : gmap string AccAddress;
  st_misses : gmap string Z;
  st_prevotes : gmap string AggregateDoRatePrevote;
  st_votes : gmap string AggregateDoRateVote;
  st_taxes : gmap string Z;
  st_bank : B;
  st_staking : K;
  st_distr : D;
}.
Arguments mkState {B K D}.
Arguments st_params {B K D}.
Arguments st_rates {B K D}.
Arguments st_feeders {B K D}.
Arguments st_misses {B K D}.
Arguments st_prevotes {B K D}.
Arguments st_votes {B K D}.
Arguments st_taxes {B K D}.
Arguments st_bank {B K D}.
Arguments st_staking {B K D}.
Arguments st_distr {B K D}.

Section keeper.
Context {B K D : Type} `{StakingOps K} `{AddrCodec}.
Implicit Types s : State B K D.

Definition set_params p s : State B K D :=
  mkState p (st_rates s) (st_feeders s) (st_misses s) (st_prevotes s) (st_votes s) (st_taxes s)
    (st_bank s) (st_staking s) (st_distr s).
Definition on_rates f s : State B K D :=
  mkState (st_params s) (f (st_rates s)) (st_feeders s) (st_misses s) (st_prevotes s) (st_votes s)
    (st_taxes s) (st_bank s) (st_staking s) (st_distr s).
Definition on_feeders f s : State B K D :=
  mkState (st_params s) (st_rates s) (f (st_feeders s)) (st_misses s) (st_prevotes s) (st_votes s)
    (st_taxes s) (st_bank s) (st_staking s) (st_distr s).
Definition on_misses f s : State B K D :=
  mkState (st_params s) (st_rates s) (st_feeders s) (f (st_misses s)) (st_prevotes s) (st_votes s)
    (st_taxes s) (st_bank s) (st_staking s) (st_distr s).
Definition on_prevotes f s : State B K D :=
  mkState (st_params s) (st_rates s) (st_feeders s) (st_misses s) (f (st_prevotes s)) (st_votes s)
    (st_taxes s) (st_bank s) (st_staking s) (st_distr s).
Definition on_votes f s : State B K D :=
  mkState (st_params s) (st_rates s) (st_feeders s) (st_misses s) (st_prevotes s) (f (st_votes s))
    (st_taxes s) (st_bank s) (st_staking s) (st_distr s).
Definition on_taxes f s : State B K D :=
  mkState (st_params s) (st_rates s) (st_feeders s) (st_misses s) (st_prevotes s) (st_votes s)
    (f (st_taxes s)) (st_bank s) (st_staking s) (st_distr s).
Definition set_bank b s : State B K D :=
  mkState (st_params s) (st_rates s) (st_feeders s) (st_misses s) (st_prevotes s) (st_votes s)
    (st_taxes s) b (st_staking s) (st_distr s).
Definition on_staking f s : State B K D :=
  mkState (st_params s) (st_rates s) (st_feeders s) (st_misses s) (st_prevotes s) (st_votes s)
    (st_taxes s) (st_bank s) (f (st_staking s)) (st_distr s).
Definition on_distr f s : State B K D :=
  mkState (st_params s) (st_rates s) (st_feeders s) (st_misses s) (st_prevotes s) (st_votes s)
    (st_taxes s) (st_bank s) (st_staking s) (f (st_distr s)).

(** ** keeper/params.go *)
Definition get_param {A} (f : Params -> A) s : res A :=
  match st_params s with Some p => Ok (f p) | None => Panic end.
Definition VotePeriod s : res Z := get_param p_VotePeriod s.
Definition VoteThreshold s : res Z := get_param p_VoteThreshold s.
Definition SlashFraction s : res Z := get_param p_SlashFraction s.
Definition SlashWindow s : res Z := get_param p_SlashWindow s.
Definition MinValidPerWindow s : res Z := get_param p_MinValidPerWindow s.

(** The zero value of the parameter set when nothing is stored. *)
Definition zero_params : Params := mkParams 0 0 0 0 [] 0 0 0.
Definition GetParams s : Params := default zero_params (st_params s).
Definition SetParams (p : Params) : M (State B K D) unit := fun s =>
  if forallb is_ok (ParamSetPairs p) then (Ok tt, set_params (Some p) s) else (Panic, s).

(** ** keeper/keeper.go *)
Definition GetDoExchangeRate s (denom : string) : res Z :=
  if String.eqb denom MicroDoDenom then Ok LegacyOneDec
  else match st_rates s !! denom with Some r => Ok r | None => Err ErrUnknownDenom end.
Definition SetDoExchangeRate (denom : string) (exchangeRate : Z) : M (State B K D) unit :=
  modify (on_rates (<[denom := exchangeRate]>)).
Definition DeleteDoExchangeRate (denom : string) : M (State B K D) unit :=
  modify (on_rates (delete denom)).

Definition GetFeederDelegation s (operator : ValAddress) : AccAddress :=
  default operator (st_feeders s !! operator).
Definition SetFeederDelegation (operator : ValAddress) (delegatedFeeder : AccAddress) :
    M (State B K D) unit :=
  modify (on_feeders (<[operator := delegatedFeeder]>)).

Definition GetMissCounter s (operator : ValAddress) : Z := default 0 (st_misses s !! operator).
Definition SetMissCounter (operator : ValAddress) (missCounter : Z) : M (State B K D) unit :=
  modify (on_misses (<[operator := missCounter]>)).
Definition DeleteMissCounter (operator : ValAddress) : M (State B K D) unit :=
  modify (on_misses (delete operator)).

Definition GetAggregateDoRatePrevote s (voter : ValAddress) : res AggregateDoRatePrevote :=
  match st_prevotes s !! voter with Some p => Ok p | None => Err ErrNoAggregatePrevote end.
Definition SetAggregateDoRatePrevote (voter : ValAddress) (p : AggregateDoRatePrevote) :
    M (State B K D) unit :=
  modify (on_prevotes (<[voter := p]>)).
Definition DeleteAggregateDoRatePrevote (voter : ValAddress) : M (State B K D) unit :=
  modify (on_prevotes (delete voter)).

Definition GetAggregateDoRateVote s (voter : ValAddress) : res AggregateDoRateVote :=
  match st_votes s !! voter with Some v => Ok v | None => Err ErrNoAggregateVote end.
Definition SetAggregateDoRateVote (voter : ValAddress) (v : AggregateDoRateVote) :
    M (State B K D) unit :=
  modify (on_votes (<[voter := v]>)).
Definition DeleteAggregateDoRateVote (voter : ValAddress) : M (State B K D) unit :=
  modify (on_votes (delete voter)).

Definition GetTobinTax s (denom : string) : res Z :=
  match st_taxes s !! denom with Some t => Ok t | None => Err ErrNoTobinTax end.
Definition SetTobinTax (denom : string) (tobinTax : Z) : M (State B K D) unit :=
  modify (on_taxes (<[denom := tobinTax]>)).
Definition ClearTobinTaxes : M (State B K D) unit := fun s =>
  forM (fun kv : string * Z => modify (on_taxes (delete kv.1))) (kv_iter (st_taxes s)) s.

(** What the iterators visit, in the order of the keys. *)
Definition IterateDoExchangeRates s : list (string * Z) := kv_iter (st_rates s).
Definition IterateFeederDelegations s : list (string * AccAddress) := kv_iter (st_feeders s).
Definition IterateMissCounters s : list (string * Z) := kv_iter (st_misses s).
Definition IterateAggregateDoRatePrevotes s : list (string * AggregateDoRatePrevote) :=
  kv_iter (st_prevotes s).
Definition IterateAggregateDoRateVotes s : list (string * AggregateDoRateVote) :=
  kv_iter (st_votes s).
Definition IterateTobinTaxes s : list (string * Z) := kv_iter (st_taxes s).

Definition ErrNoValidatorFound : error := SdkError "ErrNoValidatorFound".

Definition ValidateFeeder (feederAddr : AccAddress) (validatorAddr : ValAddress) s : res unit :=
  if negb (String.eqb feederAddr validatorAddr) &&
     negb (String.eqb (GetFeederDelegation s validatorAddr) feederAddr)
  then Err ErrNoVotingPermission
  else
    match Validator (st_staking s) validatorAddr with
    | Panic => Panic
    | Err e => Err e
    | Ok None => Err ErrNoValidatorFound
    | Ok (Some val) => if IsBonded val then Ok tt else Err ErrNoValidatorFound
    end.

(** ** keeper/vote_target.go *)
Definition IsVoteTarget s (denom : string) : bool := is_ok (GetTobinTax s denom).
Definition GetVoteTargets s : list string := map fst (IterateTobinTaxes s).

(** ** keeper/msg_server.go *)
Definition AggregateDoRatePrevote_handler (ctx : Ctx) (msg : MsgAggregateDoRatePrevote) :
    M (State B K D) unit :=
  valAddr ← lift (ValAddressFromBech32 (mp_Validator msg));
  feederAddr ← lift (AccAddressFromBech32 (mp_Feeder msg));
  s ← get;
  lift (ValidateFeeder feederAddr valAddr s) ;;
  voteHash ← lift (match AggregateVoteHashFromHexString (mp_Hash msg) with
                   | Err _ => Err ErrInvalidHash
                   | r => r
                   end);
  SetAggregateDoRatePrevote valAddr
    (mkPrevote (EncodeToString voteHash) (ValAddressString valAddr) (u64 (BlockHeight ctx))).

(** [a / b] on uint64 panics when [b] is zero. *)
Definition div_u64 (a b : Z) : res Z := if b =? 0 then Panic else Ok (a / b).

Definition AggregateDoRateVote_handler `{DecCoinParser} `{TmHash} (ctx : Ctx)
    (msg : MsgAggregateDoRateVote) : M (State B K D) unit :=
  valAddr ← lift (ValAddressFromBech32 (mv_Validator msg));
  feederAddr ← lift (AccAddressFromBech32 (mv_Feeder msg));
  s ← get;
  lift (ValidateFeeder feederAddr valAddr s) ;;
  let params := GetParams s in
  aggregatePrevote ← lift (match GetAggregateDoRatePrevote s valAddr with
                           | Err _ => Err ErrNoAggregatePrevote
                           | r => r
                           end);
  now ← lift (div_u64 (u64 (BlockHeight ctx)) (p_VotePeriod params));
  submitted ← lift (div_u64 (pv_SubmitBlock aggregatePrevote) (p_VotePeriod params));
  if negb (u64 (now - submitted) =? 1) then throw ErrRevealPeriodMissMatch
  else
    exchangeRateTuples ← lift (match ParseDoRateTuples (mv_ExchangeRates msg) with
                               | Err _ => Err (SdkError "ErrInvalidCoins")
                               | r => r
                               end);
    if negb (forallb (fun tuple => IsVoteTarget s (t_Denom tuple)) exchangeRateTuples)
    then throw ErrUnknownDenom
    else
      let hash := GetAggregateVoteHash (mv_Salt msg) (mv_ExchangeRates msg) valAddr in
      if negb (String.eqb (pv_Hash aggregatePrevote) (EncodeToString hash))
      then throw ErrVerificationFailed
      else
        SetAggregateDoRateVote valAddr
          (mkAggregateVote exchangeRateTuples (ValAddressString valAddr)) ;;
        DeleteAggregateDoRatePrevote valAddr.

Definition DelegateFeedConsent_handler (msg : MsgDelegateFeedConsent) : M (State B K D) unit :=
  operatorAddr ← lift (ValAddressFromBech32 (md_Operator msg));
  delegateAddr ← lift (AccAddressFromBech32 (md_Delegate msg));
  s ← get;
  val ← lift (Validator (st_staking s) operatorAddr);
  match val with
  | None => throw ErrNoValidatorFound
  | Some _ => SetFeederDelegation operatorAddr delegateAddr
  end.
End keeper.

(** ** genesis.go, types/genesis.go *)
Record FeederDelegation : Type := mkFeederDelegation {
  fd_FeederAddress : string; fd_ValidatorAddress : string;
}.
Record MissCounter : Type := mkMissCounter { mc_ValidatorAddress : string; mc_MissCounter : Z }.
Record TobinTax : Type := mkTobinTax { tt_Denom : string; tt_TobinTax : Z }.
Record GenesisState : Type := mkGenesisState {
  g_Params : Params;
  g_ExchangeRates : list DoRateTuple;
  g_FeederDelegations : list FeederDelegation;
  g_MissCounters : list MissCounter;
  g_Prevotes : list AggregateDoRatePrevote;
  g_Votes : list AggregateDoRateVote;
  g_TobinTaxes : list TobinTax;
}.

Definition DefaultGenesisState : GenesisState := mkGenesisState DefaultParams [] [] [] [] [] [].
Definition ValidateGenesis (data : GenesisState) : res unit := Validate (g_Params data).

Section genesis.
Context {B K D : Type} `{BankOps B} `{AddrCodec}.
Implicit Types s : State B K D.

Definition InitGenesis (data : GenesisState) : M (State B K D) unit :=
  forM (fun d =>
          voter ← must (ValAddressFromBech32 (fd_ValidatorAddress d));
          feeder ← must (AccAddressFromBech32 (fd_FeederAddress d));
          SetFeederDelegation voter feeder) (g_FeederDelegations data) ;;
  forM (fun ex => SetDoExchangeRate (t_Denom ex) (t_ExchangeRate ex)) (g_ExchangeRates data) ;;
  forM (fun mc =>
          operator ← must (ValAddressFromBech32 (mc_ValidatorAddress mc));
          SetMissCounter operator (mc_MissCounter mc)) (g_MissCounters data) ;;
  forM (fun ap =>
          valAddr ← must (ValAddressFromBech32 (pv_Voter ap));
          SetAggregateDoRatePrevote valAddr ap) (g_Prevotes data) ;;
  forM (fun av =>
          valAddr ← must (ValAddressFromBech32 (av_Voter av));
          SetAggregateDoRateVote valAddr av) (g_Votes data) ;;
  (if Nat.ltb 0 (length (g_TobinTaxes data))
   then forM (fun tt => SetTobinTax (tt_Denom tt) (tt_TobinTax tt)) (g_TobinTaxes data)
   else forM (fun item => SetTobinTax (d_Name item) (d_TobinTax item))
          (p_Whitelist (g_Params data))) ;;
  SetParams (g_Params data) ;;
  (if HasModuleAccount ModuleName then mret tt else panic).

Definition ExportGenesis s : GenesisState := {|
  g_Params := GetParams s;
  g_FeederDelegations :=
    map (fun kv => mkFeederDelegation (AccAddressString kv.2) (ValAddressString kv.1))
      (IterateFeederDelegations s);
  g_ExchangeRates := map (fun kv => mkDoRateTuple kv.1 kv.2) (IterateDoExchangeRates s);
  g_MissCounters :=
    map (fun kv => mkMissCounter (ValAddressString kv.1) kv.2) (IterateMissCounters s);
  g_Prevotes := map snd (IterateAggregateDoRatePrevotes s);
  g_Votes := map snd (IterateAggregateDoRateVotes s);
  g_TobinTaxes := map (fun kv => mkTobinTax kv.1 kv.2) (IterateTobinTaxes s);
|}.
End genesis.

(** ** keeper/querier.go *)
Section querier.
Context {B K D : Type} `{AddrCodec} `{CoinOps}.
Implicit Types s : State B K D.

Definition InvalidArgument : error := Plain "InvalidArgument".
Definition parse_arg (addr : string) : res ValAddress :=
  match ValAddressFromBech32 addr with Err _ => Err InvalidArgument | r => r end.

Definition Query_ExchangeRate (denom : string) s : res Z :=
  if Nat.eqb (String.length denom) 0 then Err InvalidArgument else GetDoExchangeRate s denom.

Fixpoint dec_coins (l : list (string * Z)) : res (list DecCoin) :=
  match l with
  | [] => Ok []
  | (denom, rate) :: l => c ← NewDecCoinFromDec denom rate; cs ← dec_coins l; Ok (c :: cs)
  end.
Definition Query_ExchangeRates s : res (list DecCoin) := dec_coins (IterateDoExchangeRates s).

Definition Query_TobinTax (denom : string) s : res Z :=
  if Nat.eqb (String.length denom) 0 then Err InvalidArgument else GetTobinTax s denom.
Definition Query_TobinTaxes s : list WhitelistDenom :=
  map (fun kv => mkWhitelistDenom kv.1 kv.2) (IterateTobinTaxes s).
Definition Query_Actives s : list string := map fst (IterateDoExchangeRates s).
Definition Query_VoteTargets s : list string := GetVoteTargets s.
Definition Query_FeederDelegation (validatorAddr : string) s : res string :=
  valAddr ← parse_arg validatorAddr; Ok (AccAddressString (GetFeederDelegation s valAddr)).
Definition Query_MissCounter (validatorAddr : string) s : res Z :=
  valAddr ← parse_arg validatorAddr; Ok (GetMissCounter s valAddr).
Definition Query_AggregatePrevote (validatorAddr : string) s : res AggregateDoRatePrevote :=
  valAddr ← parse_arg validatorAddr; GetAggregateDoRatePrevote s valAddr.
Definition Query_AggregatePrevotes s : list AggregateDoRatePrevote :=
  map snd (IterateAggregateDoRatePrevotes s).
Definition Query_AggregateVote (validatorAddr : string) s : res AggregateDoRateVote :=
  valAddr ← parse_arg validatorAddr; GetAggregateDoRateVote s valAddr.
Definition Query_AggregateVotes s : list AggregateDoRateVote :=
  map snd (IterateAggregateDoRateVotes s).
End querier.

(** ** The oracle as the market sees it *)
#[export] Instance market_oracle {B K D} : Market.OracleKeeper (State B K D) := {|
  Market.GetDoExchangeRate := GetDoExchangeRate;
  Market.GetTobinTax := GetTobinTax;
|}.

#[export] Instance market_oracle_laws {B K D} : Market.OracleLaws (State B K D).
Proof. split. done. Qed.

(** ** The text of a hash *)
Lemma hex_value_digit n : (n < 16)%nat -> hex_value (hex_digit n) = Some n.
Proof. intros Hn. do 16 (destruct n as [|n]; [reflexivity|]). lia. Qed.

Lemma hex_decode_encode h : DecodeString (EncodeToString h) = Ok h.
Proof.
  induction h as [|c h IH]; [done|]. cbn [EncodeToString DecodeString].
  pose proof (Ascii.nat_ascii_bounded c) as Hc.
  rewrite !hex_value_digit.
  - rewrite IH. cbn [mbind res_bind]. rewrite <- Nat.div_mod_eq. by rewrite Ascii.ascii_nat_embedding.
  - apply Nat.mod_upper_bound. lia.
  - apply Nat.Div0.div_lt_upper_bound. lia.
Qed.

(** ** Commit and reveal *)
Section commit_reveal.
Context {B K D : Type} `{StakingOps K} `{AddrCodec} `{DecCoinParser} `{TmHash}.
Implicit Types s : State B K D.

Lemma ValidateFeeder_ok feeder val s :
  ValidateFeeder feeder val s = Ok tt ->
  (feeder = val \/ GetFeederDelegation s val = feeder) /\
  exists v, Validator (st_staking s) val = Ok (Some v) /\ IsBonded v = true.
Proof.
  unfold ValidateFeeder. intros E. destruct (_ && _) eqn:C; [done|].
  apply andb_false_iff in C.
  split.
  - destruct C as [C|C]; apply negb_false_iff, String.eqb_eq in C; auto.
  - destruct (Validator (st_staking s) val) as [[v|]| |]; try done.
    exists v. by destruct (IsBonded v).
Qed.

(** What a vote message that succeeds proves about the state. *)
Definition reveals (ctx : Ctx) (msg : MsgAggregateDoRateVote) s (val : ValAddress)
    (tuples : list DoRateTuple) : Prop :=
  exists feeder p,
    ValAddressFromBech32 (mv_Validator msg) = Ok val /\
    AccAddressFromBech32 (mv_Feeder msg) = Ok feeder /\
    ValidateFeeder feeder val s = Ok tt /\
    st_prevotes s !! val = Some p /\
    p_VotePeriod (GetParams s) <> 0 /\
    u64 (u64 (BlockHeight ctx) / p_VotePeriod (GetParams s)
         - pv_SubmitBlock p / p_VotePeriod (GetParams s)) = 1 /\
    ParseDoRateTuples (mv_ExchangeRates msg) = Ok tuples /\
    forallb (fun tuple => IsVoteTarget s (t_Denom tuple)) tuples = true /\
    pv_Hash p = EncodeToString (GetAggregateVoteHash (mv_Salt msg) (mv_ExchangeRates msg) val).

Definition revealed s (val : ValAddress) (tuples : list DoRateTuple) : State B K D :=
  on_prevotes (delete val)
    (on_votes (<[val := mkAggregateVote tuples (ValAddressString val)]>) s).

Lemma vote_ok ctx msg s u s' :
  AggregateDoRateVote_handler ctx msg s = (Ok u, s') ->
  exists val tuples, reveals ctx msg s val tuples /\ s' = revealed s val tuples.
Proof.
  unfold AggregateDoRateVote_handler. intros E.
  m_lift E as val Hval. m_lift E as feeder Hf. m_bind E as s1 E0. m_inv E0.
  m_lift E as [] Hfe. m_lift E as p Hp. unfold div_u64 in E.
  m_lift E as now Hnow. m_lift E as sub Hsub.
  destruct (p_VotePeriod (GetParams s1) =? 0) eqn:Hz; [done|].
  injection Hnow as <-. injection Hsub as <-.
  destruct (negb (u64 _ =? 1)) eqn:Hper; [by m_inv E|].
  m_lift E as tuples Ht.
  destruct (negb (forallb _ tuples)) eqn:Htar; [by m_inv E|].
  destruct (negb (String.eqb _ _)) eqn:Hh; [by m_inv E|].
  unfold SetAggregateDoRateVote, DeleteAggregateDoRatePrevote in E. m_inv E.
  unfold GetAggregateDoRatePrevote in Hp. destruct (st_prevotes s1 !! val) eqn:Hlk; [|done].
  destruct (ParseDoRateTuples _) eqn:HP; try done. zbool.
  exists val, tuples. split; [|done]. exists feeder, p. by simplify_eq.
Qed.

Lemma vote_runs ctx msg s val tuples :
  reveals ctx msg s val tuples ->
  AggregateDoRateVote_handler ctx msg s = (Ok tt, revealed s val tuples).
Proof.
  intros (feeder & p & Hval & Hf & Hfe & Hp & Hz & Hper & Ht & Htar & Hh).
  unfold AggregateDoRateVote_handler.
  erewrite (M_bind_run (lift _)) by (unfold lift; by rewrite Hval).
  erewrite (M_bind_run (lift _)) by (unfold lift; by rewrite Hf).
  erewrite (M_bind_run get) by done.
  erewrite (M_bind_run (lift _)) by (unfold lift; by rewrite Hfe).
  erewrite (M_bind_run (lift _)) by (unfold lift, GetAggregateDoRatePrevote; by rewrite Hp).
  unfold div_u64. rewrite (proj2 (Z.eqb_neq _ _) Hz).
  erewrite (M_bind_run (lift _)) by done. erewrite (M_bind_run (lift _)) by done.
  rewrite Hper, Z.eqb_refl. cbn [negb].
  erewrite (M_bind_run (lift _)) by (unfold lift; by rewrite Ht).
  rewrite Htar, Hh, String.eqb_refl. done.
Qed.

(** C15: a vote is accepted only as the opening of a commitment: the sender
    is the validator or its chosen feeder, the validator is bonded, the
    prevote stored for that validator carries the hash of exactly the
    submitted salt and rates, it was made in the previous vote period, and
    every denomination is a vote target.  Accepting it stores the parsed
    rates, removes the prevote and changes nothing else. *)
Theorem vote_opens_prevote ctx msg s u s' :
  AggregateDoRateVote_handler ctx msg s = (Ok u, s') ->
  exists val feeder p tuples,
    ValAddressFromBech32 (mv_Validator msg) = Ok val /\
    AccAddressFromBech32 (mv_Feeder msg) = Ok feeder /\
    (feeder = val \/ GetFeederDelegation s val = feeder) /\
    (exists v, Validator (st_staking s) val = Ok (Some v) /\ IsBonded v = true) /\
    st_prevotes s !! val = Some p /\
    pv_Hash p = EncodeToString (GetAggregateVoteHash (mv_Salt msg) (mv_ExchangeRates msg) val) /\
    (0 <= pv_SubmitBlock p < 2 ^ 63 -> is_u64 (p_VotePeriod (GetParams s)) ->
     u64 (BlockHeight ctx) / p_VotePeriod (GetParams s)
     = pv_SubmitBlock p / p_VotePeriod (GetParams s) + 1) /\
    ParseDoRateTuples (mv_ExchangeRates msg) = Ok tuples /\
    (forall t, t ∈ tuples -> is_Some (st_taxes s !! t_Denom t)) /\
    s' = on_prevotes (delete val)
           (on_votes (<[val := mkAggregateVote tuples (ValAddressString val)]>) s).
Proof.
  intros E. apply vote_ok in E as (val & tuples & Hr & ->).
  destruct Hr as (feeder & p & Hval & Hf & Hfe & Hp & Hz & Hper & Ht & Htar & Hh).
  apply ValidateFeeder_ok in Hfe as [Hauth Hbond].
  exists val, feeder, p, tuples. split_and!; try done.
  - unfold is_u64, u64 in *. intros [Ha Hb] [Hc Hd].
    set (vp := p_VotePeriod (GetParams s)) in *.
    pose proof (Z.mod_pos_bound (BlockHeight ctx) (2 ^ 64) ltac:(lia)).
    set (h := BlockHeight ctx mod 2 ^ 64) in *.
    assert (0 <= h / vp < 2 ^ 64) by (split; [apply Z.div_pos; lia|apply Z.div_lt_upper_bound; nia]).
    assert (0 <= pv_SubmitBlock p / vp < 2 ^ 63)
      by (split; [apply Z.div_pos; lia|apply Z.div_lt_upper_bound; nia]).
    destruct (Z.le_gt_cases (pv_SubmitBlock p / vp) (h / vp)).
    + rewrite Z.mod_small in Hper by lia. lia.
    + rewrite <- (Z.mod_add _ 1) in Hper by lia. rewrite Z.mod_small in Hper by lia. lia.
  - intros t Htin. rewrite forallb_forall in Htar. specialize (Htar t).
    rewrite <- list_elem_of_In in Htar. specialize (Htar Htin).
    unfold IsVoteTarget, GetTobinTax in Htar. destruct (st_taxes s !! t_Denom t); [eauto|done].
Qed.

Lemma prevote_ok ctx msg s u s' :
  AggregateDoRatePrevote_handler ctx msg s = (Ok u, s') ->
  exists val feeder hash,
    ValAddressFromBech32 (mp_Validator msg) = Ok val /\
    AccAddressFromBech32 (mp_Feeder msg) = Ok feeder /\
    ValidateFeeder feeder val s = Ok tt /\ DecodeString (mp_Hash msg) = Ok hash /\
    s' = on_prevotes (<[val := mkPrevote (EncodeToString hash) (ValAddressString val)
                                 (u64 (BlockHeight ctx))]>) s.
Proof.
  unfold AggregateDoRatePrevote_handler, SetAggregateDoRatePrevote. intros E.
  m_lift E as val Hval. m_lift E as feeder Hf. m_bind E as s1 E0. m_inv E0.
  m_lift E as [] Hfe. m_lift E as h Hh. m_inv E.
  unfold AggregateVoteHashFromHexString in Hh.
  exists val, feeder, h. by destruct (DecodeString (mp_Hash msg)); simplify_eq.
Qed.

Lemma honest_reveal ctx1 ctx2 salt rates feederS valS val feeder tuples s u s1 s2 :
  ValAddressFromBech32 valS = Ok val -> AccAddressFromBech32 feederS = Ok feeder ->
  AggregateDoRatePrevote_handler ctx1
    (mkMsgPrevote (EncodeToString (GetAggregateVoteHash salt rates val)) feederS valS) s
    = (Ok u, s1) ->
  st_prevotes s2 !! val = st_prevotes s1 !! val ->
  ValidateFeeder feeder val s2 = Ok tt ->
  ParseDoRateTuples rates = Ok tuples ->
  forallb (fun tuple => IsVoteTarget s2 (t_Denom tuple)) tuples = true ->
  0 < p_VotePeriod (GetParams s2) ->
  0 <= BlockHeight ctx1 < 2 ^ 63 -> 0 <= BlockHeight ctx2 < 2 ^ 63 ->
  BlockHeight ctx2 / p_VotePeriod (GetParams s2)
    = BlockHeight ctx1 / p_VotePeriod (GetParams s2) + 1 ->
  AggregateDoRateVote_handler ctx2 (mkMsgVote salt rates feederS valS) s2
    = (Ok tt, on_prevotes (delete val)
         (on_votes (<[val := mkAggregateVote tuples (ValAddressString val)]>) s2)).
Proof.
  intros Hval Hf E Hst Hfe Ht Htar Hvp Hh1 Hh2 Hper.
  apply prevote_ok in E as (val' & feeder' & h & Hval' & _ & _ & Hdec & ->). simpl in *.
  rewrite Hval in Hval'. injection Hval' as <-.
  rewrite hex_decode_encode in Hdec. injection Hdec as <-.
  rewrite lookup_insert_eq in Hst. apply vote_runs.
  eexists feeder, _. split_and!; try done; simpl; [lia|].
  unfold u64 in *. rewrite !(Z.mod_small (BlockHeight _)) by lia.
  rewrite Hper. replace (_ + 1 - _) with 1 by lia. done.
Qed.

(** an honest validator can always reveal: after a prevote with the hex
    text of the hash of salt and rates was accepted, a vote with that salt
    and those rates in the next vote period is accepted, as long as the
    prevote is still stored, the feeder still has permission and the rates
    parse to vote targets. *)
Theorem honest_reveal_accepted ctx1 ctx2 salt rates feederS valS val feeder tuples s u s1 s2 :
  ValAddressFromBech32 valS = Ok val -> AccAddressFromBech32 feederS = Ok feeder ->
  AggregateDoRatePrevote_handler ctx1
    (mkMsgPrevote (EncodeToString (GetAggregateVoteHash salt rates val)) feederS valS) s
    = (Ok u, s1) ->
  st_prevotes s2 !! val = st_prevotes s1 !! val ->
  ValidateFeeder feeder val s2 = Ok tt ->
  ParseDoRateTuples rates = Ok tuples ->
  forallb (fun tuple => IsVoteTarget s2 (t_Denom tuple)) tuples = true ->
  0 < p_VotePeriod (GetParams s2) ->
  0 <= BlockHeight ctx1 < 2 ^ 63 -> 0 <= BlockHeight ctx2 < 2 ^ 63 ->
  BlockHeight ctx2 / p_VotePeriod (GetParams s2)
    = BlockHeight ctx1 / p_VotePeriod (GetParams s2) + 1 ->
  AggregateDoRateVote_handler ctx2 (mkMsgVote salt rates feederS valS) s2
    = (Ok tt, on_prevotes (delete val)
         (on_votes (<[val := mkAggregateVote tuples (ValAddressString val)]>) s2)).
Proof. apply honest_reveal. Qed.

(** a commitment opens once: after an accepted vote, any further vote of
    the same validator (by anyone with permission) is refused with
    [ErrNoAggregatePrevote] and changes nothing, until a new prevote. *)
Theorem reveal_only_once ctx msg s u s' ctx' msg' val feeder :
  AggregateDoRateVote_handler ctx msg s = (Ok u, s') ->
  ValAddressFromBech32 (mv_Validator msg) = Ok val ->
  ValAddressFromBech32 (mv_Validator msg') = Ok val ->
  AccAddressFromBech32 (mv_Feeder msg') = Ok feeder ->
  ValidateFeeder feeder val s' = Ok tt ->
  AggregateDoRateVote_handler ctx' msg' s' = (Err ErrNoAggregatePrevote, s').
Proof.
  intros E Hv Hv' Hf Hfe. apply vote_ok in E as (val0 & tuples & (f0 & p0 & Hval0 & _) & ->).
  rewrite Hv in Hval0. injection Hval0 as <-. unfold AggregateDoRateVote_handler.
  erewrite (M_bind_run (lift _)) by (unfold lift; by rewrite Hv').
  erewrite (M_bind_run (lift _)) by (unfold lift; by rewrite Hf).
  erewrite (M_bind_run get) by done.
  erewrite (M_bind_run (lift _)) by (unfold lift; by rewrite Hfe).
  apply M_bind_err. unfold lift, GetAggregateDoRatePrevote, revealed. simpl.
  by rewrite lookup_delete_eq.
Qed.

Lemma parse_tuples_nodup l : forall seen tuples,
  parse_tuples seen l = Ok tuples ->
  NoDup (map t_Denom tuples) /\ Forall (fun t => t_Denom t ∉ seen) tuples.
Proof.
  induction l as [|x l IH]; intros seen tuples E; simpl in E; [injection E as <-; by repeat constructor|].
  apply res_bind_ok in E as (c & Hc & E). case_bool_decide as Hs; [done|].
  apply res_bind_ok in E as (ts & Hts & E). injection E as <-.
  apply IH in Hts as [Hnd Hall]. simpl. split.
  - constructor; [|done]. intros (t & Ht & Hin)%list_elem_of_fmap.
    rewrite Forall_forall in Hall. specialize (Hall _ Hin). set_solver.
  - constructor; [done|]. eapply Forall_impl; [exact Hall|]. simpl. set_solver.
Qed.

(** a parsed vote names every denomination at most once, so that no
    validator counts twice in a ballot. *)
Theorem parsed_vote_no_duplicates rates tuples :
  ParseDoRateTuples rates = Ok tuples -> NoDup (map t_Denom tuples).
Proof.
  unfold ParseDoRateTuples. case_match; intros E; [injection E as <-; constructor|].
  by apply parse_tuples_nodup in E as [? _].
Qed.
End commit_reveal.

(** the validation of the vote threshold parameter accepts exactly 33
    percent, which its own message and the validation of the whole parameter
    set exclude. *)
Theorem threshold_validations_disagree p :
  p_VoteThreshold p = LegacyNewDecWithPrec 33 2 ->
  validateVoteThreshold (p_VoteThreshold p) = Ok tt /\ is_ok (Validate p) = false.
Proof.
  intros E. unfold Validate. rewrite E. split; [done|].
  destruct (p_VotePeriod p =? 0); reflexivity.
Qed.

(** ** Exporting and importing *)
Section genesis_roundtrip.
Context {B K D : Type} `{BankOps B} `{AddrCodec}.
Implicit Types s : State B K D.

(** The addresses in the store can be printed and read back, the votes are
    stored under their voter, and the parameters are valid. *)
Record exportable s : Prop := {
  ex_feeders : map_Forall (fun v f => ValAddressFromBech32 (ValAddressString v) = Ok v /\
    AccAddressFromBech32 (AccAddressString f) = Ok f) (st_feeders s);
  ex_misses : map_Forall (fun v _ => ValAddressFromBech32 (ValAddressString v) = Ok v) (st_misses s);
  ex_prevotes : map_Forall (fun v p => ValAddressFromBech32 (pv_Voter p) = Ok v) (st_prevotes s);
  ex_votes : map_Forall (fun v p => ValAddressFromBech32 (av_Voter p) = Ok v) (st_votes s);
  ex_taxes : st_taxes s <> ∅;
  ex_params : exists p, st_params s = Some p /\ forallb is_ok (ParamSetPairs p) = true;
}.

Definition blank (b : B) (k : K) (d : D) : State B K D := mkState None ∅ ∅ ∅ ∅ ∅ ∅ b k d.

Ltac restore upd s' :=
  rewrite (M_bind_run (forM _ _) _ _ tt s');
    [|etrans; [apply (forM_restore upd); [done|by intros []|]
              |unfold on_feeders, on_rates, on_misses, on_prevotes, on_votes, on_taxes; simpl;
               by rewrite kv_iter_rebuild]].

(** C37: importing an exported oracle state into an empty store rebuilds the
    rates, delegations, miss counters, prevotes, votes, taxes and parameters
    exactly, provided at least one tobin tax is stored (with none, the import
    falls back to the whitelist). *)
Theorem oracle_genesis_roundtrip s b k d :
  HasModuleAccount ModuleName = true -> exportable s ->
  InitGenesis (ExportGenesis s) (blank b k d) =
    (Ok tt, mkState (st_params s) (st_rates s) (st_feeders s) (st_misses s) (st_prevotes s)
              (st_votes s) (st_taxes s) b k d).
Proof.
  intros Hmod [Hfe Hmi Hpr Hvo Hta (p & Hp & Hval)]. unfold InitGenesis. simpl.
  restore (@on_feeders B K D) (mkState None ∅ (st_feeders s) ∅ ∅ ∅ ∅ b k d);
    [|intros x y s0 Hl; apply Hfe in Hl as [Hx Hy]; unfold must, mbind, M_bind; simpl;
      by rewrite Hx, Hy].
  restore (@on_rates B K D) (mkState None (st_rates s) (st_feeders s) ∅ ∅ ∅ ∅ b k d); [|done].
  restore (@on_misses B K D)
    (mkState None (st_rates s) (st_feeders s) (st_misses s) ∅ ∅ ∅ b k d);
    [|intros x y s0 Hl; apply Hmi in Hl; unfold must, mbind, M_bind; simpl; by rewrite Hl].
  restore (@on_prevotes B K D)
    (mkState None (st_rates s) (st_feeders s) (st_misses s) (st_prevotes s) ∅ ∅ b k d);
    [|intros x y s0 Hl; apply Hpr in Hl; unfold must, mbind, M_bind; simpl; by rewrite Hl].
  restore (@on_votes B K D)
    (mkState None (st_rates s) (st_feeders s) (st_misses s) (st_prevotes s) (st_votes s) ∅ b k d);
    [|intros x y s0 Hl; apply Hvo in Hl; unfold must, mbind, M_bind; simpl; by rewrite Hl].
  assert (kv_iter (st_taxes s) <> []) as Hne.
  { intros Hnil. apply Hta, map_to_list_empty_iff. apply Permutation_nil_r.
    by rewrite <- Hnil, kv_iter_perm. }
  unfold IterateTobinTaxes.
  destruct (Nat.ltb_spec 0 (length (map (fun kv => mkTobinTax kv.1 kv.2) (kv_iter (st_taxes s)))))
    as [_|Hl].
  2:{ rewrite length_map in Hl. destruct (kv_iter (st_taxes s)); [done|simpl in Hl; lia]. }
  restore (@on_taxes B K D)
    (mkState None (st_rates s) (st_feeders s) (st_misses s) (st_prevotes s) (st_votes s)
       (st_taxes s) b k d); [|done].
  unfold GetParams. rewrite Hp.
  erewrite (M_bind_run (SetParams _)) by (unfold SetParams; simpl from_option; by rewrite Hval).
  by rewrite Hmod.
Qed.
End genesis_roundtrip.

(** ** Witnesses: one validator, a vote period of ten blocks *)
Module Example.
#[export] Instance parser : DecCoinParser := fun s =>
  if String.eqb s "10uusd" then Ok (mkDecCoin "uusd" (10 * Precision)) else Err (Foreign "ParseDecCoin").
#[export] Instance hash : TmHash := fun s => s.

Definition St : Type := State ledger (list ref_validator) (list (string * list DecCoin)).

Definition bank0 : ledger := mkLedger [] (fun _ _ => 0) (fun _ => 0).
Definition params10 : Params :=
  mkParams 10 (LegacyNewDecWithPrec 34 2) (LegacyNewDecWithPrec 2 2) 10
    [mkWhitelistDenom "uusd" 0] 0 20 (LegacyNewDecWithPrec 5 2).
Definition s0 : St :=
  mkState (Some params10) ∅ ∅ ∅ ∅ ∅ {["uusd" := 0]} bank0
    [mkRefValidator "val" 10 true false] [].
Definition at_height (h : Z) : Ctx := mkCtx h 0 "test" false false.

Definition prevote : MsgAggregateDoRatePrevote :=
  mkMsgPrevote (EncodeToString (GetAggregateVoteHash "salt" "10uusd" "val")) "do1val" "dovaloper1val".
Definition vote : MsgAggregateDoRateVote := mkMsgVote "salt" "10uusd" "do1val" "dovaloper1val".
Definition s1 : St := (AggregateDoRatePrevote_handler (at_height 5) prevote s0).2.
Definition s2 : St := (AggregateDoRateVote_handler (at_height 15) vote s1).2.
End Example.
#[local] Existing Instance Example.parser.
#[local] Existing Instance Example.hash.

Lemma vote_opens_prevote_witness :
  exists p, st_prevotes Example.s1 !! "val" = Some p /\
    pv_Hash p = EncodeToString (GetAggregateVoteHash "salt" "10uusd" "val").
Proof.
  destruct (vote_opens_prevote (Example.at_height 15) Example.vote Example.s1 tt Example.s2)
    as (val & feeder & p & tuples & Hv & _ & _ & _ & Hp & Hh & _);
    [apply run_eq; vm_compute; reflexivity|].
  injection Hv as <-. exists p. split; [exact Hp|exact Hh].
Defined.

Lemma honest_reveal_accepted_witness :
  (AggregateDoRateVote_handler (Example.at_height 15) Example.vote Example.s1).1 = Ok tt.
Proof.
  unfold Example.vote.
  rewrite (honest_reveal_accepted (Example.at_height 5) (Example.at_height 15) "salt" "10uusd"
    "do1val" "dovaloper1val" "val" "val" [mkDoRateTuple "uusd" (10 * Precision)]
    Example.s0 tt Example.s1 Example.s1); [reflexivity|reflexivity|reflexivity| |reflexivity
    |reflexivity|reflexivity|reflexivity|reflexivity|simpl; lia|simpl; lia|reflexivity].
  apply run_eq. vm_compute. reflexivity.
Defined.

Lemma reveal_only_once_witness :
  AggregateDoRateVote_handler (Example.at_height 16) Example.vote Example.s2
  = (Err ErrNoAggregatePrevote, Example.s2).
Proof.
  apply (reveal_only_once (Example.at_height 15) Example.vote Example.s1 tt Example.s2
    (Example.at_height 16) Example.vote "val" "val"); [|reflexivity|reflexivity|reflexivity|reflexivity].
  apply run_eq. vm_compute. reflexivity.
Defined.

Lemma parsed_vote_no_duplicates_witness : NoDup (map t_Denom [mkDoRateTuple "uusd" (10 * Precision)]).
Proof. apply (parsed_vote_no_duplicates " 10uusd"). vm_compute. reflexivity. Defined.

Lemma threshold_validations_disagree_witness :
  validateVoteThreshold (LegacyNewDecWithPrec 33 2) = Ok tt.
Proof.
  exact (proj1 (threshold_validations_disagree
    (mkParams 10 (LegacyNewDecWithPrec 33 2) 0 10 [] 0 20 0) eq_refl)).
Defined.

Lemma oracle_genesis_roundtrip_witness :
  InitGenesis (ExportGenesis Example.s1) (blank Example.bank0 [] [] : Example.St) =
    (Ok tt, mkState (Some Example.params10) ∅ ∅ ∅ (st_prevotes Example.s1) ∅ {["uusd" := 0]}
              Example.bank0 [] []).
Proof.
  apply (oracle_genesis_roundtrip Example.s1 Example.bank0 [] []); [reflexivity|].
  split; try apply (map_Forall_empty (M:=gmap string)).
  - apply (map_Forall_singleton (M:=gmap string)). reflexivity.
  - intros H. apply (f_equal (fun m => m !! "uusd")) in H. vm_compute in H. discriminate H.
  - exists Example.params10. split; reflexivity.
Defined.
