(* ===== verification/OracleAbci.v ===== *)
(** * The end of a block in the oracle (src/x/oracle)

    [abci.go], [tally.go] and the keeper files [ballot.go], [reward.go] and
    [slash.go]: votes are organised into ballots, the reference denomination
    is picked, every passing ballot is tallied into an exchange rate, misses
    are counted, winners are rewarded, the ballots are cleared, the whitelist
    is applied, and validators with too many misses are punished.  [EndBlocker]
    composes these in the order of the code; loops over Go maps go through
    [map_range].  The theorems: rates, credits and miss counters do not depend
    on map iteration; rewards never exceed the pool; which validators are
    jailed and which miss counters are reset; the ballot that stops the
    chain. *)
From stdpp Require Import base gmap sets list strings fin_maps sorting.
From Stdlib Require Import ZArith Lia.
From S2P Require Import Prelude Sdk SdkRef Core OracleBallot OracleState.
#[local] Open Scope Z_scope.

Section ops.
Context {B K D : Type} `{MathOps} `{CoinOps} `{DecCoinsOps} `{AddrCodec} `{BankOps B}
  `{BankMetaOps B} `{StakingOps K} `{DistrOps D} `{BallotSort} `{MapRange}.
Implicit Types s : State B K D.

(** ** keeper/ballot.go *)
Definition add_tuple (power : Z) (voterAddr : ValAddress)
    (votes : gmap string ExchangeRateBallot) (tuple : DoRateTuple) :
    gmap string ExchangeRateBallot :=
  let tmpPower := if negb (0 <? t_ExchangeRate tuple) then 0 else power in
  <[t_Denom tuple := default [] (votes !! t_Denom tuple) ++
      [mkVote (t_Denom tuple) (t_ExchangeRate tuple) voterAddr tmpPower]]> votes.

Definition aggregateHandler (validatorClaimMap : gmap string Claim)
    (votes : gmap string ExchangeRateBallot) (kv : ValAddress * AggregateDoRateVote) :
    gmap string ExchangeRateBallot :=
  let '(voterAddr, vote) := kv in
  match validatorClaimMap !! av_Voter vote with
  | Some claim => foldl (add_tuple (c_Power claim) voterAddr) votes (av_Tuples vote)
  | None => votes
  end.

Definition OrganizeBallotByDenom s (validatorClaimMap : gmap string Claim) :
    gmap string ExchangeRateBallot :=
  Sort <$> foldl (aggregateHandler validatorClaimMap) ∅ (IterateAggregateDoRateVotes s).

Definition ClearBallots (ctx : Ctx) (votePeriod : Z) : M (State B K D) unit :=
  s ← get;
  forM (fun kv : string * AggregateDoRatePrevote =>
          if i64 (u64 (pv_SubmitBlock kv.2 + votePeriod)) <? BlockHeight ctx
          then DeleteAggregateDoRatePrevote kv.1 else mret tt)
    (IterateAggregateDoRatePrevotes s) ;;
  s ← get;
  forM (fun kv : string * AggregateDoRateVote => DeleteAggregateDoRateVote kv.1)
    (IterateAggregateDoRateVotes s).

(** [strings.ToUpper] on the ASCII letters of a denomination. *)
Definition upper_ascii (c : Ascii.ascii) : Ascii.ascii :=
  let n := Ascii.nat_of_ascii c in
  if Nat.leb 97 n && Nat.leb n 122 then Ascii.ascii_of_nat (n - 32) else c.
Fixpoint ToUpper (s : string) : string :=
  match s with EmptyString => EmptyString | String c s => String (upper_ascii c) (ToUpper s) end.

(** [base[1:]] and [display[:len(display)-1]] panic on an empty string. *)
Definition tail_of (s : string) : res string :=
  match s with EmptyString => Panic | String _ s => Ok s end.
Definition init_of (s : string) : res string :=
  match s with
  | EmptyString => Panic
  | _ => Ok (String.substring 0 (String.length s - 1) s)
  end.

Definition denom_metadata (base : string) : res Metadata :=
  display ← tail_of base;
  sym ← init_of display;
  Ok (mkMetadata "The native stable token of the do Columbus."
        [mkDenomUnit ("u" +:+ display) 0 [("micro" +:+ display)%string];
         mkDenomUnit ("m" +:+ display) 3 [("milli" +:+ display)%string];
         mkDenomUnit display 6 []]
        base display (ToUpper display +:+ " do") (ToUpper sym +:+ "T")).

Definition whitelist_item (item : WhitelistDenom) : M (State B K D) unit :=
  SetTobinTax (d_Name item) (d_TobinTax item) ;;
  s ← get;
  if HasDenomMetaData (st_bank s) (d_Name item) then mret tt
  else
    md ← lift (denom_metadata (d_Name item));
    modify (fun s => set_bank (SetDenomMetaData md (st_bank s)) s).

Definition ApplyWhitelist (whitelist : list WhitelistDenom) (voteTargets : gmap string Z) :
    M (State B K D) unit :=
  let updateRequired :=
    if negb (Nat.eqb (size voteTargets) (length whitelist)) then true
    else existsb (fun item =>
           match voteTargets !! d_Name item with
           | None => true
           | Some tobinTax => negb (tobinTax =? d_TobinTax item)
           end) whitelist in
  if updateRequired then
    ClearTobinTaxes ;;
    forM whitelist_item whitelist
  else mret tt.

(** ** keeper/reward.go and keeper/alias_functions.go *)
Definition GetRewardPool s (denom : string) : Z :=
  GetBalance (st_bank s) (ModuleAddress ModuleName) denom.

(** [udo] first, then the vote targets that were not seen yet. *)
Definition reward_denoms (voteTargets : gmap string Z) : list string :=
  (foldl (fun '(denoms, seen) kv =>
            if bool_decide (kv.1 ∈ seen) then (denoms, seen)
            else (denoms ++ [kv.1], {[kv.1]} ∪ seen))
         ([MicroDoDenom], {[MicroDoDenom]} : gset string) (map_range voteTargets)).1.

Definition add_reward (s : State B K D) (distributionRatio : Z) (periodRewards : list DecCoin)
    (denom : string) : res (list DecCoin) :=
  let rewardPool := GetRewardPool s denom in
  if rewardPool =? 0 then Ok periodRewards
  else
    amt ← DecMul (LegacyNewDecFromInt rewardPool) distributionRatio;
    c ← NewDecCoinFromDec denom amt;
    DecCoinsAdd periodRewards c.

(** One winner: the tokens allocated to its validator, and the sum so far. *)
Definition reward_winner (periodRewards : list DecCoin) (ballotPowerSum : Z)
    (distributedReward : list Coin) (winner : Claim) : M (State B K D) (list Coin) :=
  s ← get;
  match Validator (st_staking s) (c_Recipient winner) with
  | Panic => panic
  | Err _ | Ok None => mret distributedReward
  | Ok (Some receiverVal) =>
      share ← lift (DecQuoInt64 (LegacyNewDec (c_Weight winner)) ballotPowerSum);
      part ← lift (DecCoinsMulDec periodRewards share);
      '(rewardCoins, _) ← lift (DecCoinsTruncate part);
      if negb (CoinsIsZero rewardCoins) then
        tokens ← lift (NewDecCoinsFromCoins rewardCoins);
        modify (on_distr (AllocateTokensToValidator receiverVal tokens)) ;;
        lift (CoinsAdd distributedReward rewardCoins)
      else mret distributedReward
  end.

Fixpoint reward_winners (periodRewards : list DecCoin) (ballotPowerSum : Z)
    (winners : list (string * Claim)) (distributedReward : list Coin) :
    M (State B K D) (list Coin) :=
  match winners with
  | [] => mret distributedReward
  | w :: winners =>
      distributedReward ← reward_winner periodRewards ballotPowerSum distributedReward w.2;
      reward_winners periodRewards ballotPowerSum winners distributedReward
  end.

Definition RewardBallotWinners (distrName : string) (votePeriod rewardDistributionWindow : Z)
    (voteTargets : gmap string Z) (ballotWinners : gmap string Claim) : M (State B K D) unit :=
  let rewardDenoms := reward_denoms voteTargets in
  let ballotPowerSum :=
    foldl (fun sum w => i64 (sum + c_Weight w.2)) 0 (map_range ballotWinners) in
  if ballotPowerSum =? 0 then mret tt
  else
    distributionRatio ← lift (DecQuoInt64 (LegacyNewDec votePeriod) rewardDistributionWindow);
    s ← get;
    periodRewards ← lift (foldRes (add_reward s distributionRatio) [] rewardDenoms);
    distributedReward ← reward_winners periodRewards ballotPowerSum (map_range ballotWinners) [];
    s ← get;
    match SendCoinsFromModuleToModule ModuleName distrName distributedReward (st_bank s) with
    | Ok b => modify (set_bank b)
    | _ => panic
    end.

(** ** keeper/slash.go *)
Definition doOracleJailOnlyActive (ctx : Ctx) : bool :=
  (0 <? DoCommunityGovernanceHeight) && (DoCommunityGovernanceHeight <=? BlockHeight ctx).

Definition ValidatorUpdateDelay : Z := 1.

Definition punish (ctx : Ctx) (powerReduction slashFraction : Z) (validator : ValidatorI) :
    M (State B K D) unit :=
  if IsBonded validator && negb (IsJailed validator) then
    consAddr ← must (GetConsAddr validator);
    (if negb (doOracleJailOnlyActive ctx)
     then modify (on_staking (Slash consAddr (i64 (BlockHeight ctx - ValidatorUpdateDelay - 1))
            (GetConsensusPower validator powerReduction) slashFraction))
     else mret tt) ;;
    modify (on_staking (Jail consAddr))
  else mret tt.

Definition slash_one (ctx : Ctx)
    (votePeriodsPerWindow minValidPerWindow slashFraction powerReduction : Z)
    (kv : ValAddress * Z) : M (State B K D) unit :=
  let '(operator, missCounter) := kv in
  validVoteRate ← lift
    (DecQuoInt64 (LegacyNewDecFromInt (i64 (u64 (votePeriodsPerWindow - missCounter))))
       (i64 votePeriodsPerWindow));
  if validVoteRate <? minValidPerWindow then
    s ← get;
    match Validator (st_staking s) operator with
    | Panic | Ok None => panic
    | Err _ => mret tt
    | Ok (Some validator) =>
        punish ctx powerReduction slashFraction validator ;; DeleteMissCounter operator
    end
  else DeleteMissCounter operator.

(** [TruncateInt64] panics when the integer part does not fit. *)
Definition DecTruncateInt64 (d : Z) : res Z :=
  n ← DecTruncateInt d;
  if (- 2 ^ 63 <=? n) && (n <? 2 ^ 63) then Ok n else Panic.

Definition SlashAndResetMissCounters (ctx : Ctx) : M (State B K D) unit :=
  s ← get;
  slashWindow ← lift (SlashWindow s);
  votePeriod ← lift (VotePeriod s);
  q ← lift (DecQuoInt64 (LegacyNewDec (i64 slashWindow)) (i64 votePeriod));
  periods ← lift (DecTruncateInt64 q);
  let votePeriodsPerWindow := u64 periods in
  minValidPerWindow ← lift (MinValidPerWindow s);
  slashFraction ← lift (SlashFraction s);
  let powerReduction := PowerReduction (st_staking s) in
  forM (slash_one ctx votePeriodsPerWindow minValidPerWindow slashFraction powerReduction)
    (IterateMissCounters s).

(** ** tally.go *)
Definition PickReferenceDo s (voteTargets : gmap string Z)
    (voteMap : gmap string ExchangeRateBallot) :
    res (string * gmap string Z * gmap string ExchangeRateBallot) :=
  match TotalBondedTokens (st_staking s) with
  | Panic => Panic
  | Err _ => Ok (EmptyString, voteTargets, voteMap)
  | Ok totalBondedTokens =>
      voteThreshold ← VoteThreshold s;
      totalBondedPower ← IntQuo totalBondedTokens (PowerReduction (st_staking s));
      t ← DecMulInt voteThreshold totalBondedPower;
      thresholdVotes ← DecRoundInt t;
      let '((referenceDo, _), voteTargets, voteMap) :=
        pick_loop thresholdVotes (map_range voteMap) voteTargets voteMap in
      Ok (referenceDo, voteTargets, voteMap)
  end.

(** ** abci.go *)
Fixpoint build_claims s (maxValidators i : Z) (addrs : list ValAddress) (claims : gmap string Claim) :
    res (gmap string Claim) :=
  match addrs with
  | [] => Ok claims
  | addr :: addrs =>
      if negb (i <? maxValidators) then Ok claims
      else
        match Validator (st_staking s) addr with
        | Panic | Ok None => Panic
        | Err _ => build_claims s maxValidators i addrs claims
        | Ok (Some validator) =>
            if IsBonded validator then
              match ValAddressFromBech32 (GetOperator validator) with
              | Panic => Panic
              | Err _ => build_claims s maxValidators i addrs claims
              | Ok valAddr =>
                  build_claims s maxValidators (i + 1) addrs
                    (<[GetOperator validator :=
                         mkClaim (GetConsensusPower validator (PowerReduction (st_staking s)))
                           0 0 valAddr]> claims)
              end
            else build_claims s maxValidators i addrs claims
        end
  end.

(** The body of the loop over the ballots: the rate and the new claims. *)
Definition tally_entry (referenceDo : string) (voteMapRT : gmap string Z) (exchangeRateRT rewardBand : Z)
    (entry : string * ExchangeRateBallot) (claims : gmap string Claim) :
    res (Z * gmap string Claim) :=
  let '(denom, ballot) := entry in
  if negb (String.eqb denom referenceDo) then
    ballot ← ToCrossRateWithSort voteMapRT ballot;
    '(exchangeRate, claims) ← Tally ballot rewardBand claims;
    exchangeRate ← DecQuo exchangeRateRT exchangeRate;
    Ok (exchangeRate, claims)
  else Tally ballot rewardBand claims.

Fixpoint tally_ballots (referenceDo : string) (voteMapRT : gmap string Z)
    (exchangeRateRT rewardBand : Z) (entries : list (string * ExchangeRateBallot))
    (claims : gmap string Claim) : M (State B K D) (gmap string Claim) :=
  match entries with
  | [] => mret claims
  | entry :: entries =>
      '(exchangeRate, claims) ←
        lift (tally_entry referenceDo voteMapRT exchangeRateRT rewardBand entry claims);
      SetDoExchangeRate entry.1 exchangeRate ;;
      tally_ballots referenceDo voteMapRT exchangeRateRT rewardBand entries claims
  end.

Definition count_misses (voteTargetsLen : Z) (claims : list (string * Claim)) :
    M (State B K D) unit :=
  forM (fun kv : string * Claim =>
          if c_WinCount kv.2 =? voteTargetsLen then mret tt
          else
            n ← gets (fun s => GetMissCounter s (c_Recipient kv.2));
            SetMissCounter (c_Recipient kv.2) (u64 (n + 1)))
    claims.

Definition EndBlocker (distrName : string) (ctx : Ctx) : M (State B K D) unit := fun s =>
  let params := GetParams s in
  (votePeriodEnd ← lift (IsPeriodLastBlock ctx (p_VotePeriod params));
   stop ←
    (if negb votePeriodEnd then mret false
     else
       match MaxValidators (st_staking s), ValidatorsPowerStoreIterator (st_staking s) with
       | Panic, _ => panic
       | Err _, _ => mret true
       | Ok _, Panic => panic
       | Ok _, Err _ => mret true
       | Ok maxValidators, Ok iterator =>
           validatorClaimMap ← lift (build_claims s maxValidators 0 iterator ∅);
           let voteTargets := st_taxes s in
           forM (fun kv : string * Z => DeleteDoExchangeRate kv.1) (IterateDoExchangeRates s) ;;
           s ← get;
           let voteMap := OrganizeBallotByDenom s validatorClaimMap in
           '(referenceDo, voteTargets, voteMap) ← lift (PickReferenceDo s voteTargets voteMap);
           validatorClaimMap ←
             (if negb (String.eqb referenceDo EmptyString) then
                let ballotRT := default [] (voteMap !! referenceDo) in
                tally_ballots referenceDo (ToMap ballotRT) (WeightedMedian ballotRT)
                  (p_RewardBand params) (map_range voteMap) validatorClaimMap
              else mret validatorClaimMap);
           count_misses (Z.of_nat (size voteTargets)) (map_range validatorClaimMap) ;;
           RewardBallotWinners distrName (i64 (p_VotePeriod params))
             (i64 (p_RewardDistributionWindow params)) voteTargets validatorClaimMap ;;
           ClearBallots ctx (p_VotePeriod params) ;;
           ApplyWhitelist (p_Whitelist params) voteTargets ;;
           mret false
       end);
   if stop : bool then mret tt
   else
     slashEnd ← lift (IsPeriodLastBlock ctx (p_SlashWindow params));
     if slashEnd : bool then SlashAndResetMissCounters ctx else mret tt) s.
End ops.

(** ** Map iteration does not matter *)
Section order.
Context {B K D : Type} `{MathOps} `{AddrCodec} `{BallotSort} `{!MathLaws}.
Implicit Types s : State B K D.

(** Tallying an entry gives a rate and credits votes; both depend on the
    entry alone. *)
Lemma Tally_credits_any pb band claims m claims' :
  Tally pb band claims = Ok (m, claims') ->
  exists W, claims' = credit_all W claims /\
    forall c, Tally pb band c = Ok (m, credit_all W c).
Proof.
  unfold Tally. intros E. apply res_bind_ok in E as (hb & Hhb & E).
  apply res_bind_ok in E as (sp & Hsp & E). apply res_bind_ok in E as (c & Hc & E).
  injection E as <- <-. eexists. split; [by apply tally_votes_ok|].
  intros c2. rewrite Hhb. simpl. rewrite Hsp. simpl.
  by rewrite (tally_votes_total _ _ _ _ c2 _ Hc).
Qed.

Lemma tally_entry_any ref rt ert band e claims r claims' :
  tally_entry ref rt ert band e claims = Ok (r, claims') ->
  exists W, claims' = credit_all W claims /\
    forall c, tally_entry ref rt ert band e c = Ok (r, credit_all W c).
Proof.
  destruct e as [d b]. unfold tally_entry. case_match; [|apply Tally_credits_any]. intros E.
  apply res_bind_ok in E as (cb & Hcb & E). apply res_bind_ok in E as ([m c1] & HT & E).
  apply res_bind_ok in E as (x & Hx & E). injection E as <- <-.
  apply Tally_credits_any in HT as (W & -> & HT). exists W. split; [done|].
  intros c. rewrite Hcb. simpl. rewrite HT. simpl. by rewrite Hx.
Qed.

Lemma tally_ballots_cons ref rt ert band e entries c s :
  tally_ballots ref rt ert band (e :: entries) c s =
  match tally_entry ref rt ert band e c with
  | Ok (r, c1) => tally_ballots ref rt ert band entries c1 (on_rates (<[e.1 := r]>) s)
  | Err x => (Err x, s)
  | Panic => (Panic, s)
  end.
Proof.
  cbn [tally_ballots]. unfold mbind at 1, M_bind at 1, lift.
  by destruct (tally_entry ref rt ert band e c) as [[r c1]| |].
Qed.

Lemma tally_ballots_perm ref rt ert band entries1 entries2 :
  entries1 ≡ₚ entries2 -> NoDup entries1.*1 -> forall c s c' s',
  tally_ballots ref rt ert band entries1 c s = (Ok c', s') ->
  tally_ballots ref rt ert band entries2 c s = (Ok c', s').
Proof.
  induction 1 as [|e l1 l2 _ IH|x y l|l1 l2 l3 Hp1 IH1 Hp2 IH2]; intros Hnd c s c' s'.
  - done.
  - apply NoDup_cons in Hnd as [_ Hnd]. rewrite !tally_ballots_cons.
    destruct (tally_entry ref rt ert band e c) as [[r c1]| |]; try done. by apply IH.
  - rewrite !tally_ballots_cons.
    destruct (tally_entry ref rt ert band y c) as [[ry cy]| |] eqn:Ey; try done.
    rewrite tally_ballots_cons.
    destruct (tally_entry ref rt ert band x cy) as [[rx cx]| |] eqn:Ex; try done.
    apply tally_entry_any in Ey as (Wy & -> & HWy). apply tally_entry_any in Ex as (Wx & -> & HWx).
    rewrite HWx, tally_ballots_cons, HWy, <- !credit_all_app.
    rewrite (Permutation_app_comm Wx Wy). intros E. rewrite <- E. f_equal.
    unfold on_rates. simpl. f_equal. apply insert_insert_ne.
    apply NoDup_cons in Hnd as [Hnd _]. intros Heq. apply Hnd. rewrite Heq. by left.
  - intros E. apply IH2; [by rewrite <- Hp1|]. by apply IH1.
Qed.

Definition bump (n : Z) (kv : string * Claim) s : State B K D :=
  if c_WinCount kv.2 =? n then s
  else on_misses (<[c_Recipient kv.2 := u64 (GetMissCounter s (c_Recipient kv.2) + 1)]>) s.

Lemma count_misses_run n l : forall s,
  count_misses n l s = (Ok tt, foldl (fun s kv => bump n kv s) s l).
Proof.
  unfold count_misses. induction l as [|kv l IH]; intros s; cbn [forM foldl]; [done|].
  rewrite (M_bind_run _ _ s tt (bump n kv s)); [apply IH|].
  unfold bump. by destruct (c_WinCount kv.2 =? n).
Qed.

Lemma bump_comm n x y s : bump n x (bump n y s) = bump n y (bump n x s).
Proof.
  unfold bump. destruct (c_WinCount x.2 =? n), (c_WinCount y.2 =? n); try done.
  unfold on_misses, GetMissCounter. simpl. f_equal.
  destruct (decide (c_Recipient x.2 = c_Recipient y.2)) as [->|Hne]; [done|].
  rewrite !lookup_insert_ne by done. by apply insert_insert_ne.
Qed.

Lemma count_misses_perm n l1 l2 s : l1 ≡ₚ l2 -> count_misses n l1 s = count_misses n l2 s.
Proof.
  intros Hp. rewrite !count_misses_run. f_equal. revert s.
  induction Hp; intros s; simpl; auto.
  - by rewrite bump_comm.
  - by rewrite IHHp1.
Qed.

(** C23: the outcome of a vote period does not depend on the order in which
    the runtime iterates over its maps: if the tally of the ballots succeeds
    in one visiting order, it succeeds in every other one with the same
    exchange rates, the same claims and the same store, and counting the
    misses of the claims in any order gives the same miss counters. *)
Theorem vote_period_order_independent ref rt ert band entries1 entries2 claims s claims' s' :
  entries1 ≡ₚ entries2 -> NoDup entries1.*1 ->
  tally_ballots ref rt ert band entries1 claims s = (Ok claims', s') ->
  tally_ballots ref rt ert band entries2 claims s = (Ok claims', s') /\
  forall n order1 order2, order1 ≡ₚ map_to_list claims' -> order2 ≡ₚ map_to_list claims' ->
    count_misses n order1 s' = count_misses n order2 s'.
Proof.
  intros Hp Hnd E. split; [by eapply tally_ballots_perm|].
  intros n o1 o2 Ho1 Ho2. apply count_misses_perm. by rewrite Ho1, Ho2.
Qed.
End order.

(** ** The ballot that stops the chain *)
Section halt.
Context `{MathOps} `{AddrCodec} `{BallotSort} `{!MathLaws} `{!BallotSortLaws}.

Definition abstained (v : VoteForTally) : Prop := v_ExchangeRate v = 0.

Lemma cross_all_abstain rt pb :
  Forall (fun v => rt !! v_Voter v = None) pb ->
  exists cb, ToCrossRate rt pb = Ok cb /\ Forall abstained cb.
Proof.
  induction 1 as [|v pb Hv _ (cb & IH & Hcb)]; [by exists []|].
  simpl. unfold cross_vote. rewrite Hv. simpl. rewrite IH. simpl.
  eexists. split; [done|]. by constructor.
Qed.

Lemma median_abstain cb : Forall abstained cb -> WeightedMedian cb = 0.
Proof.
  intros Hall. unfold WeightedMedian.
  assert (forall half pivot, default 0 (median_loop half pivot cb) = 0) as Hz; [|apply Hz].
  intros half. induction Hall as [|v cb Hv _ IH]; intros pivot; [done|]. simpl.
  case_match; [exact Hv|apply IH].
Qed.

Lemma DecMul_zero x : DecMul 0 x = Ok 0.
Proof.
  pose proof (DecMul_ok 0 x) as Hok. destruct (DecMul 0 x) as [c| |] eqn:E;
    [|by specialize (Hok ltac:(by unfold dec_safe))..].
  apply DecMul_inv in E. assert (1 < Precision) by reflexivity. f_equal. nia.
Qed.

Lemma DecSub_zero : DecSub 0 0 = Ok 0.
Proof. by rewrite DecSub_ok. Qed.
Lemma DecAdd_zero : DecAdd 0 0 = Ok 0.
Proof. by rewrite DecAdd_ok. Qed.

Lemma deviation_abstain cb : Forall abstained cb -> StandardDeviation cb 0 = 0.
Proof.
  intros Hall. unfold StandardDeviation, LegacyZeroDec. destruct cb as [|v cb]; [done|].
  assert (forall l, Forall abstained l -> sum_of_squares 0 0 l = Ok 0) as Hz.
  { clear Hall. intros l Hall. induction Hall as [|w l Hw _ IH]; [done|]. cbn [sum_of_squares]. rewrite Hw, DecSub_zero.
    cbn [mbind res_bind]. rewrite DecMul_zero. cbn [mbind res_bind]. by rewrite DecAdd_zero. }
  rewrite (Hz _ Hall). cbn [mbind res_bind]. rewrite DecQuoInt64_nz by (simpl; lia).
  by rewrite Z.quot_0_l by (simpl; lia).
Qed.

Lemma tally_abstain cb claims : Forall abstained cb ->
  exists c, tally_votes 0 0 cb claims = Ok c.
Proof.
  intros Hall. revert claims. induction Hall as [|v cb Hv _ IH]; intros claims; [by eexists|].
  simpl. unfold in_band. rewrite DecSub_zero. simpl. rewrite Hv. simpl. rewrite DecAdd_zero. simpl.
  apply IH.
Qed.

(** a ballot that passes the threshold but shares no voter with the
    reference ballot turns into abstentions only; its median is then zero and
    the division that converts the rate back panics, which stops the end of
    the block.  Nothing in the threshold parameter excludes such ballots. *)
Theorem disjoint_ballot_panics ref rt ert band denom pb claims :
  denom <> ref -> Forall (fun v => rt !! v_Voter v = None) pb ->
  tally_entry ref rt ert band (denom, pb) claims = Panic.
Proof.
  intros Hne Hall. destruct (cross_all_abstain rt pb Hall) as (cb & Hcb & Habs).
  unfold tally_entry. rewrite (proj2 (String.eqb_neq _ _)) by done. cbn [negb].
  unfold ToCrossRateWithSort. rewrite Hcb. cbn [mbind res_bind].
  assert (Forall abstained (Sort cb)) as Hs by by rewrite Sort_perm.
  unfold Tally. rewrite (median_abstain _ Hs), DecQuoInt64_nz by lia. cbn [mbind res_bind].
  rewrite DecMul_zero. cbn [mbind res_bind]. rewrite (deviation_abstain _ Hs). cbn [Z.ltb Z.compare].
  destruct (tally_abstain (Sort cb) claims Hs) as [c ->]. cbn [mbind res_bind].
  by rewrite DecQuo_zero.
Qed.
End halt.

(** ** Punishment *)
Section slash.
Context {B K D : Type} `{MathOps} `{!MathLaws} `{StakingOps K}.
Implicit Types s : State B K D.

(** The int64 of the wrapped uint64 difference is the signed difference. *)
Lemma missed_difference n m : 0 <= n < 2 ^ 63 -> 0 <= m < 2 ^ 63 -> i64 (u64 (n - m)) = n - m.
Proof.
  intros Hn Hm. unfold i64, u64. rewrite Zplus_mod_idemp_l. rewrite Z.mod_small by lia. lia.
Qed.

Definition valid_vote_rate (n m : Z) : Z := Z.quot ((n - m) * Precision) n.

(** A staking state that jailing and slashing can lead to. *)
Definition touched (k k' : K) : Prop :=
  rtc (fun x y => exists a h p f, y = Jail a x \/ y = Slash a h p f x) k k'.

Lemma punish_effect ctx pr fr v s u s' :
  punish ctx pr fr v s = (Ok u, s') ->
  exists g, s' = on_staking g s /\ touched (st_staking s) (g (st_staking s)) /\
    (doOracleJailOnlyActive ctx = true -> (forall k, g k = k) \/ exists a, forall k, g k = Jail a k).
Proof.
  unfold punish. intros E. case_match.
  - m_bind E as a E0. unfold must in E0. destruct (GetConsAddr v); try done. injection E0 as -> <-.
    m_bind E as [] E0. destruct (doOracleJailOnlyActive ctx) eqn:Hj; simpl in E0; m_inv E0; m_inv E.
    + exists (Jail a). split_and!; [done| |eauto]. apply rtc_once. exists a, 0, 0, 0. by left.
    + exists (fun k => Jail a (Slash a (i64 (BlockHeight ctx - ValidatorUpdateDelay - 1))
        (GetConsensusPower v pr) fr k)). split_and!; try done.
      eapply rtc_l; [do 4 eexists; right; reflexivity|].
      apply rtc_once. exists a, 0, 0, 0. by left.
  - m_inv E. exists (fun k => k). split_and!; [by destruct s'|apply rtc_refl|auto].
Qed.

Definition vote_rate (n m : Z) : res Z :=
  DecQuoInt64 (LegacyNewDecFromInt (i64 (u64 (n - m)))) (i64 n).

(** What the loop does to one entry. *)
Lemma slash_one_effect ctx n mn fr pr op m s u s' :
  slash_one ctx n mn fr pr (op, m) s = (Ok u, s') ->
  exists g f rate, s' = on_misses f (on_staking g s) /\ vote_rate n m = Ok rate /\
    touched (st_staking s) (g (st_staking s)) /\
    (doOracleJailOnlyActive ctx = true -> (forall k, g k = k) \/ exists a, forall k, g k = Jail a k) /\
    ((f = delete op /\ (mn <= rate \/ exists v, Validator (st_staking s) op = Ok (Some v))) \/
     (f = (fun x => x) /\ rate < mn /\ exists e, Validator (st_staking s) op = Err e)).
Proof.
  unfold slash_one. intros E. m_lift E as rate Hrate. destruct (Z.ltb_spec rate mn).
  - m_bind E as s1 E0. m_inv E0. destruct (Validator (st_staking s1) op) as [[v|]|e|] eqn:HV;
      try (by m_inv E).
    + m_bind E as [] E0. apply punish_effect in E0 as (g & -> & Ht & Hg).
      unfold DeleteMissCounter in E. m_inv E. exists g, (delete op), rate. eauto 12.
    + m_inv E. exists (fun k => k), (fun x => x), rate.
      split_and!; [by destruct s'|done|apply rtc_refl|auto|].
      right. eauto.
  - unfold DeleteMissCounter in E. m_inv E. exists (fun k => k), (delete op), rate.
    split_and!; [by destruct s|done|apply rtc_refl|auto|auto].
Qed.

Lemma slash_loop_jails ctx n mn fr pr l : forall s u s',
  doOracleJailOnlyActive ctx = true ->
  forM (slash_one ctx n mn fr pr) l s = (Ok u, s') ->
  exists addrs, st_staking s' = foldl (fun k a => Jail a k) (st_staking s) addrs.
Proof.
  induction l as [|[op m] l IH]; intros s u s' Hj E; cbn [forM] in E; [m_inv E; by exists []|].
  m_bind E as [] E0. apply slash_one_effect in E0 as (g & f & r & -> & _ & _ & Hg & _).
  apply IH in E as (addrs & ->); [|done]. simpl.
  destruct (Hg Hj) as [Hid|(a & Ha)]; [exists addrs; by rewrite Hid|].
  exists (a :: addrs). simpl. by rewrite Ha.
Qed.

Lemma slash_loop_misses ctx n mn fr pr l : forall s u s',
  NoDup l.*1 -> forM (slash_one ctx n mn fr pr) l s = (Ok u, s') ->
  forall op, (op ∉ l.*1 -> st_misses s' !! op = st_misses s !! op) /\
    forall m, (op, m) ∈ l -> exists k rate, touched (st_staking s) k /\ vote_rate n m = Ok rate /\
      ((st_misses s' !! op = None /\ (mn <= rate \/ exists v, Validator k op = Ok (Some v))) \/
       (st_misses s' !! op = st_misses s !! op /\ rate < mn /\ exists e, Validator k op = Err e)).
Proof.
  induction l as [|[op1 m1] l IH]; intros s u s' Hnd E op; cbn [forM] in E.
  { m_inv E. split; [done|]. intros m Hm. by apply not_elem_of_nil in Hm. }
  apply NoDup_cons in Hnd as [Hn1 Hnd]. m_bind E as [] E0.
  apply slash_one_effect in E0 as (g & f & rate & -> & Hrate & Ht & _ & Hf).
  destruct (IH _ _ _ Hnd E op) as [IHout IHin]. simpl in IHout, IHin.
  assert (op <> op1 -> f (st_misses s) !! op = st_misses s !! op) as Hother.
  { intros Hne. destruct Hf as [[-> _]|[-> _]]; [by rewrite lookup_delete_ne|done]. }
  split.
  - intros [Hne Hout]%not_elem_of_cons. rewrite IHout by done. by apply Hother.
  - intros m [Heq|Hin]%elem_of_cons.
    + injection Heq as -> ->. exists (st_staking s), rate. split; [apply rtc_refl|]. split; [done|].
      rewrite IHout by done. destruct Hf as [[-> Hk]|[-> Hk]].
      * left. split; [apply lookup_delete_eq|done].
      * right. done.
    + assert (op <> op1) as Hne.
      { intros ->. apply Hn1. by apply (list_elem_of_fmap_2 fst _ _ Hin). }
      rewrite <- (Hother Hne). destruct (IHin _ Hin) as (k & rt & Hk & Hrest).
      exists k, rt. split; [unfold touched in *; by etrans|done].
Qed.

Lemma slash_run ctx s u s' :
  SlashAndResetMissCounters ctx s = (Ok u, s') ->
  exists p q n fr pr, st_params s = Some p /\
    DecQuoInt64 (LegacyNewDec (i64 (p_SlashWindow p))) (i64 (p_VotePeriod p)) = Ok q /\
    DecTruncateInt64 q = Ok n /\
    forM (slash_one ctx (u64 n) (p_MinValidPerWindow p) fr pr) (IterateMissCounters s) s
      = (Ok u, s').
Proof.
  unfold SlashAndResetMissCounters, SlashWindow, VotePeriod, MinValidPerWindow, SlashFraction,
    get_param. intros E. m_bind E as s1 E0. m_inv E0.
  destruct (st_params s1) as [p|] eqn:Hp; [|by m_inv E].
  m_lift E as sw Hsw. m_lift E as vp Hvp. m_lift E as q Hq. m_lift E as ps Hps.
  m_lift E as mn Hmn. m_lift E as fr Hfr.
  injection Hsw as <-. injection Hvp as <-. injection Hmn as <-. eauto 10.
Qed.

(** With periods that fit an int64, the number of vote periods is exact. *)
Lemma periods_exact sw vp q n :
  0 < vp <= sw -> sw < 2 ^ 63 -> DecQuoInt64 (LegacyNewDec (i64 sw)) (i64 vp) = Ok q ->
  DecTruncateInt64 q = Ok n -> u64 n = sw / vp /\ 0 < sw / vp < 2 ^ 63.
Proof.
  intros Hvp Hsw. rewrite !i64_fits by lia. rewrite DecQuoInt64_nz by lia. intros Hq. injection Hq as <-.
  unfold DecTruncateInt64, LegacyNewDec. intros E. res_inv E. apply DecTruncateInt_inv in E0 as ->.
  assert (0 < Precision) by reflexivity.
  rewrite Z.quot_quot, Z.quot_mul_cancel_r, Z.quot_div_nonneg by lia.
  assert (0 < sw / vp < 2 ^ 63).
  { split; [apply Z.div_str_pos; lia|apply Z.div_lt_upper_bound; nia]. }
  split; [|done]. unfold u64. rewrite Z.mod_small; lia.
Qed.

(** from the community governance height on, missing oracle votes costs
    no tokens: whatever the miss counters, the staking state changes by
    jailing validators only, never by slashing. *)
Theorem jail_only_after_fork ctx s u s' :
  DoCommunityGovernanceHeight <= BlockHeight ctx ->
  SlashAndResetMissCounters ctx s = (Ok u, s') ->
  exists addrs, st_staking s' = foldl (fun k a => Jail a k) (st_staking s) addrs.
Proof.
  intros Hh E. apply slash_run in E as (p & q & n & fr & pr & _ & _ & _ & E).
  eapply slash_loop_jails; [|exact E]. unfold doOracleJailOnlyActive.
  by rewrite (proj2 (Z.leb_le _ _) Hh).
Qed.

(** at the end of a slash window the miss counter of every operator the
    staking module knows is reset.  An operator it no longer knows keeps its
    counter into the next window when its rate of valid votes is below the
    minimum, although all counters are documented as cleared. *)
Theorem miss_counters_reset ctx s u s' p op m :
  SlashAndResetMissCounters ctx s = (Ok u, s') -> st_params s = Some p ->
  0 < p_VotePeriod p <= p_SlashWindow p -> p_SlashWindow p < 2 ^ 63 ->
  st_misses s !! op = Some m -> 0 <= m < 2 ^ 63 ->
  ((forall k e, touched (st_staking s) k -> Validator k op <> Err e) ->
   st_misses s' !! op = None) /\
  ((forall k, touched (st_staking s) k -> exists e, Validator k op = Err e) ->
   valid_vote_rate (p_SlashWindow p / p_VotePeriod p) m < p_MinValidPerWindow p ->
   st_misses s' !! op = Some m).
Proof.
  intros E Hp Hvp Hsw Hm Hmb. apply slash_run in E as (p' & q & n & fr & pr & Hp' & Hq & Hn & E).
  rewrite Hp in Hp'. injection Hp' as <-.
  destruct (periods_exact _ _ _ _ Hvp Hsw Hq Hn) as [Hun Hb]. rewrite Hun in E.
  destruct (slash_loop_misses _ _ _ _ _ _ _ _ _ (kv_iter_nodup _) E op) as [_ Hin].
  apply elem_of_kv_iter in Hm as Hl. destruct (Hin _ Hl) as (k & rate & Htk & Hrate & Hcase).
  unfold vote_rate in Hrate. rewrite missed_difference, i64_fits, DecQuoInt64_nz in Hrate by lia.
  injection Hrate as <-. split.
  - intros Hk. destruct Hcase as [[? _]|(_ & _ & e & He)]; [done|by destruct (Hk k e Htk)].
  - intros Hk Hlt. unfold valid_vote_rate, LegacyNewDecFromInt in *.
    destruct Hcase as [(_ & [?|(v & Hv)])|(-> & _)]; [lia| |done].
    destruct (Hk k Htk) as [e He]. congruence.
Qed.
End slash.

(** ** Rewards *)
Section rewards.
Context {B K D : Type} `{MathOps} `{CoinOps} `{DecCoinsOps} `{AddrCodec} `{BankOps B}
  `{StakingOps K} `{DistrOps D} `{MapRange}.
Context `{!MathLaws} `{!CoinLaws} `{!DecCoinsLaws} `{!BankLaws B} `{!MapRangeLaws}.
Implicit Types s : State B K D.

Lemma reward_denoms_nodup T : NoDup (reward_denoms T).
Proof.
  unfold reward_denoms.
  assert (forall (l : list (string * Z)) ds (seen : gset string), NoDup ds ->
    (forall d, d ∈ ds -> d ∈ seen) ->
    NoDup (foldl (fun '(denoms, seen) kv =>
            if bool_decide (kv.1 ∈ seen) then (denoms, seen)
            else (denoms ++ [kv.1], {[kv.1]} ∪ seen)) (ds, seen) l).1) as Hl.
  { induction l as [|kv l IH]; intros ds seen Hnd Hs; [done|]. simpl.
    case_bool_decide; apply IH; try done.
    - apply NoDup_app. split_and!; [done| |apply NoDup_singleton]. set_solver.
    - set_solver. }
  apply Hl; [apply NoDup_singleton|set_solver].
Qed.

(** The reward of a period in one denomination is at most the pool. *)
Lemma add_reward_bound s ratio denoms : forall acc pr,
  0 <= ratio <= Precision -> NoDup denoms -> DecCoinsIsValid acc = true ->
  (forall d, d ∈ denoms -> DecAmountOf acc d = 0) ->
  (forall d, DecAmountOf acc d <= GetRewardPool s d * Precision) ->
  (forall d, 0 <= DecAmountOf acc d) ->
  foldRes (add_reward s ratio) acc denoms = Ok pr ->
  DecCoinsIsValid pr = true /\
  forall d, 0 <= DecAmountOf pr d <= GetRewardPool s d * Precision.
Proof.
  induction denoms as [|x denoms IH]; intros acc pr Hr Hnd Hv Hz Hle Hnn E; simpl in E.
  { injection E as <-. split; [done|]. intros d. auto. }
  apply NoDup_cons in Hnd as [Hx Hnd]. apply res_bind_ok in E as (acc' & Ha & E).
  unfold add_reward in Ha. pose proof (GetBalance_nonneg (st_bank s) (ModuleAddress ModuleName) x).
  fold (GetRewardPool s x) in *.
  destruct (Z.eqb_spec (GetRewardPool s x) 0).
  { injection Ha as <-. eapply IH; try done. intros d Hd. apply Hz. by right. }
  apply res_bind_ok in Ha as (amt & Hamt & Ha). apply res_bind_ok in Ha as (c & Hc & Ha).
  apply DecMul_inv in Hamt. unfold LegacyNewDecFromInt in Hamt.
  apply NewDecCoinFromDec_inv in Hc as (-> & Hamt0 & _).
  pose proof (fun d => DecCoinsAdd_inv _ (mkDecCoin x amt) _ d Hv Hamt0 Ha) as Hadd.
  pose proof (DecCoinsAdd_valid _ (mkDecCoin x amt) _ Hv Hamt0 Ha) as Hv'. simpl in Hadd.
  assert (0 < Precision) by reflexivity.
  assert (amt <= GetRewardPool s x * Precision) as Hcap by nia.
  eapply IH; try done.
  - intros d Hd. rewrite Hadd, Hz by by right.
    rewrite (proj2 (String.eqb_neq _ _)); [done|]. intros ->. done.
  - intros d. rewrite Hadd. destruct (String.eqb_spec x d) as [<-|]; [|specialize (Hle d); lia].
    rewrite Hz by by left. lia.
  - intros d. rewrite Hadd. specialize (Hnn d). case_match; lia.
Qed.

Definition weights (winners : list (string * Claim)) : Z := Zsum (map (fun w => c_Weight w.2) winners).

Lemma sum_weights_fit l : forall acc,
  Forall (fun w : string * Claim => 0 <= c_Weight w.2) l -> 0 <= acc -> acc + weights l < 2 ^ 63 ->
  foldl (fun sum w => i64 (sum + c_Weight w.2)) acc l = acc + weights l.
Proof.
  unfold weights. induction l as [|w l IH]; intros acc Hl Ha Hb; simpl in *; [lia|].
  apply Forall_cons in Hl as [Hw Hl].
  assert (0 <= Zsum (map (fun w => c_Weight w.2) l)).
  { clear -Hl. induction Hl; simpl; [done|]. unfold Zsum in *. simpl. lia. }
  rewrite i64_fits by lia. rewrite IH by (done || lia). lia.
Qed.

(** One winner is paid at most its share, up to half of the last decimal. *)
Lemma reward_winner_bound pr sum d w acc s acc1 s1 :
  0 < sum -> DecCoinsIsValid pr = true -> 0 <= DecAmountOf pr d ->
  0 <= c_Weight w -> CoinsIsValid acc = true ->
  reward_winner pr sum acc w s = (Ok acc1, s1) ->
  st_bank s1 = st_bank s /\ CoinsIsValid acc1 = true /\
  exists b, AmountOf acc1 d = AmountOf acc d + b /\ 0 <= b /\
    2 * b * Precision * Precision * sum
      <= 2 * DecAmountOf pr d * c_Weight w * Precision + Precision * sum.
Proof.
  intros Hsum Hv Hpr Hw0 Hacc E0. assert (0 < Precision) by reflexivity.
  unfold reward_winner in E0. m_bind E0 as s0 E1. m_inv E1.
  destruct (Validator (st_staking s0) (c_Recipient w)) as [[v|]| |]; try (by m_inv E0);
    try (m_inv E0; split_and!; try done; exists 0; split_and!; nia).
  m_lift E0 as share Hshare. m_lift E0 as part Hpart. m_lift E0 as [coins rest] Hcoins.
  rewrite DecQuoInt64_nz in Hshare by lia. injection Hshare as <-. unfold LegacyNewDec in *.
  pose proof (Z.quot_pos (c_Weight w * Precision) sum ltac:(nia) Hsum) as Hs0.
  pose proof (Z.mul_quot_le (c_Weight w * Precision) sum ltac:(nia) ltac:(lia)) as Hs1.
  set (share := Z.quot _ _) in *.
  pose proof (DecCoinsMulDec_inv _ _ _ d Hv Hs0 Hpart) as Hmul.
  pose proof (DecCoinsMulDec_valid _ _ _ Hv Hs0 Hpart) as Hpv.
  pose proof (DecCoinsTruncate_inv _ _ _ d Hpv Hcoins) as Htr.
  pose proof (DecCoinsTruncate_valid _ _ _ Hpv Hcoins) as Hcv.
  pose proof (AmountOf_nonneg _ d Hcv) as Hc0.
  assert (2 * AmountOf coins d * Precision * Precision * sum
    <= 2 * DecAmountOf pr d * c_Weight w * Precision + Precision * sum) as Hbound.
  { pose proof (Z.mul_div_le (DecAmountOf part d) Precision ltac:(lia)) as Hdiv.
    rewrite <- Htr in Hdiv.
    assert (2 * AmountOf coins d * Precision * Precision
      <= 2 * (DecAmountOf pr d * share) + Precision) by nia.
    assert (DecAmountOf pr d * (sum * share) <= DecAmountOf pr d * (c_Weight w * Precision))
      by (apply Z.mul_le_mono_nonneg_l; lia).
    nia. }
  destruct (negb (CoinsIsZero coins)) eqn:Hz.
  - m_lift E0 as tokens Htok. m_bind E0 as [] E1. m_inv E1. m_inv E0.
    split_and!; [done|by eapply (CoinsAdd_valid acc coins)|]. exists (AmountOf coins d).
    split_and!; [by eapply CoinsAdd_inv|done|done].
  - m_inv E0. split_and!; try done. exists 0. split_and!; nia.
Qed.

Lemma reward_winners_bound pr sum d winners : forall acc s out s',
  0 < sum -> DecCoinsIsValid pr = true -> 0 <= DecAmountOf pr d ->
  Forall (fun w => 0 <= c_Weight w.2) winners -> CoinsIsValid acc = true ->
  reward_winners pr sum winners acc s = (Ok out, s') ->
  st_bank s' = st_bank s /\ CoinsIsValid out = true /\
  2 * (AmountOf out d - AmountOf acc d) * Precision * Precision * sum
    <= 2 * DecAmountOf pr d * weights winners * Precision
       + Z.of_nat (length winners) * Precision * sum.
Proof.
  induction winners as [|w winners IH]; intros acc s out s' Hsum Hv Hpr Hw Hacc E.
  { cbn [reward_winners] in E. m_inv E. unfold weights. simpl. split_and!; try done; lia. }
  apply Forall_cons in Hw as [Hw0 Hw]. cbn [reward_winners] in E. m_bind E as acc1 E0.
  apply (reward_winner_bound pr sum d) in E0 as (Hb & Hacc1 & b & Hamt & _ & Hbnd); try done.
  destruct (IH _ _ _ _ Hsum Hv Hpr Hw Hacc1 E) as (HB & Hout & Hrec).
  split_and!; [congruence|done|].
  unfold weights in *. rewrite length_cons, Nat2Z.inj_succ. simpl.
  rewrite Hamt in Hrec. clear -Hrec Hbnd. nia.
Qed.

(** C25: rewarding the ballot winners never takes more out of the oracle's
    pool than it holds, in any denomination: once the shares are computed,
    the final transfer to the distribution module cannot fail, so the end of
    the block does not panic there. *)
Theorem rewards_within_pool distrName votePeriod window T claims s ratio pr out s1 :
  0 <= votePeriod <= window -> 0 < window ->
  Forall (fun w => 0 <= c_Weight w.2) (map_to_list claims) ->
  0 < weights (map_to_list claims) < 2 ^ 63 -> Z.of_nat (size claims) < Precision ->
  HasModuleAccount ModuleName = true -> HasModuleAccount distrName = true ->
  DecQuoInt64 (LegacyNewDec votePeriod) window = Ok ratio ->
  foldRes (add_reward s ratio) [] (reward_denoms T) = Ok pr ->
  reward_winners pr (weights (map_to_list claims)) (map_range claims) [] s = (Ok out, s1) ->
  (forall d, AmountOf out d <= GetRewardPool s d) /\
  exists s', RewardBallotWinners distrName votePeriod window T claims s = (Ok tt, s').
Proof.
  intros Hvp Hwin Hpos Hsum Hsize Hm1 Hm2 Hratio Hpr Hrun.
  set (W := weights (map_to_list claims)) in *.
  assert (weights (map_range claims) = W) as HW by (unfold weights, W; by rewrite map_range_perm).
  assert (length (map_range claims) = size claims) as Hlen
    by (rewrite map_range_perm; apply length_map_to_list).
  assert (Forall (fun w => 0 <= c_Weight w.2) (map_range claims)) as Hpos' by by rewrite map_range_perm.
  assert (0 < Precision) by reflexivity.
  assert (0 <= ratio <= Precision) as Hr.
  { rewrite DecQuoInt64_nz in Hratio by lia. injection Hratio as <-. unfold LegacyNewDec. split.
    - apply Z.quot_pos; nia.
    - rewrite Z.quot_div_nonneg by nia. apply Z.div_le_upper_bound; nia. }
  destruct (add_reward_bound s ratio (reward_denoms T) [] pr Hr (reward_denoms_nodup T)
    DecCoinsIsValid_nil) as [Hprv Hprb]; try done.
  { intros d _. apply DecAmountOf_nil. }
  { intros d. rewrite DecAmountOf_nil. apply Z.mul_nonneg_nonneg; [apply GetBalance_nonneg|lia]. }
  { intros d. by rewrite DecAmountOf_nil. }
  assert (st_bank s1 = st_bank s /\ CoinsIsValid out = true /\
    forall d, AmountOf out d <= GetRewardPool s d) as (Hbank & Hvalid & Hle).
  { split_and!; [eapply (reward_winners_bound pr W ""); eauto; [lia|apply Hprb|apply CoinsIsValid_nil]..|].
    intros d. destruct (reward_winners_bound pr W d _ _ _ _ _ ltac:(lia) Hprv (proj1 (Hprb d)) Hpos'
      CoinsIsValid_nil Hrun) as (_ & _ & Hb).
    rewrite HW, Hlen, AmountOf_nil in Hb. specialize (Hprb d).
    assert (2 * AmountOf out d * Precision <= 2 * DecAmountOf pr d + Z.of_nat (size claims)) as Hq.
    { apply (Z.mul_le_mono_pos_r _ _ (Precision * W)); [nia|]. lia. }
    clear -Hq Hprb Hsize. nia. }
  split; [exact Hle|].
  unfold RewardBallotWinners.
  assert (foldl (fun sum w => i64 (sum + c_Weight w.2)) 0 (map_range claims) = W) as ->.
  { rewrite <- HW. apply (sum_weights_fit _ 0); [done|lia|]. rewrite HW. lia. }
  rewrite (proj2 (Z.eqb_neq W 0)) by lia.
  erewrite (M_bind_run (lift _)) by (unfold lift; by rewrite Hratio).
  erewrite (M_bind_run get) by done.
  erewrite (M_bind_run (lift _)) by (unfold lift; by rewrite Hpr).
  rewrite (M_bind_run _ _ _ _ _ Hrun). erewrite (M_bind_run get) by done.
  pose proof (SendMM_ok ModuleName distrName out (st_bank s1) Hm1 Hm2 Hvalid) as Hok.
  rewrite Hbank in Hok |- *. specialize (Hok Hle).
  destruct (SendCoinsFromModuleToModule _ _ _ _) as [b| |]; try done. by eexists.
Qed.
End rewards.

(** ** Witnesses *)
Module Example.
Import OracleState.Example.

Definition amy : VoteForTally := mkVote "uusd" (10 * Precision) "amy" 5.
Definition bob : VoteForTally := mkVote "ukrw" (20 * Precision) "bob" 5.
Definition votes : gmap string AggregateDoRateVote :=
  {["amy" := mkAggregateVote [mkDoRateTuple "uusd" (10 * Precision)] "dovaloper1amy";
    "bob" := mkAggregateVote [mkDoRateTuple "ukrw" (20 * Precision)] "dovaloper1bob"]}.
Definition vals : list ref_validator :=
  [mkRefValidator "amy" 5 true false; mkRefValidator "bob" 5 true false].

(** Two validators of equal power, each voting on its own denomination. *)
Definition split_vote : St :=
  mkState (Some params10) ∅ ∅ ∅ ∅ votes {["uusd" := 0; "ukrw" := 0]} bank0 vals [].

(** A miss counter of a validator that left, and one of a validator that stayed. *)
Definition missed : St :=
  mkState (Some params10) ∅ ∅ {["gone" := 2; "amy" := 2]} ∅ ∅ ∅ bank0 vals [].

Definition pool : ledger := mkLedger ["udo"] (fun _ _ => 100) (fun _ => 100).
Definition rich : St := mkState (Some params10) ∅ ∅ ∅ ∅ ∅ ∅ pool vals [].
Definition winners : gmap string Claim :=
  {["dovaloper1amy" := mkClaim 5 1 1 "amy"; "dovaloper1bob" := mkClaim 5 2 1 "bob"]}.
Definition reward100 : list DecCoin := [mkDecCoin "udo" (100 * Precision)].

Definition entries : list (string * ExchangeRateBallot) := [("uusd", [amy]); ("ukrw", [bob])].
End Example.

Lemma vote_period_order_independent_witness :
  (tally_ballots "uusd" {["amy" := 10 * Precision; "bob" := 10 * Precision]} (10 * Precision) 0
     (rev Example.entries) ∅ Example.split_vote).1
  = (tally_ballots "uusd" {["amy" := 10 * Precision; "bob" := 10 * Precision]} (10 * Precision) 0
     Example.entries ∅ Example.split_vote).1.
Proof.
  set (r := tally_ballots "uusd" {["amy" := 10 * Precision; "bob" := 10 * Precision]}
    (10 * Precision) 0 Example.entries ∅ Example.split_vote).
  destruct (vote_period_order_independent "uusd"
    {["amy" := 10 * Precision; "bob" := 10 * Precision]} (10 * Precision) 0
    Example.entries (rev Example.entries) ∅ Example.split_vote
    (match r.1 with Ok c => c | _ => ∅ end) r.2) as [H _].
  - apply Permutation_rev.
  - apply (bool_decide_unpack _). vm_compute. exact I.
  - apply run_eq. vm_compute. reflexivity.
  - rewrite H. vm_compute. reflexivity.
Defined.

Lemma disjoint_ballot_panics_witness :
  tally_entry "ukrw" {["bob" := 20 * Precision]} (20 * Precision) 0 ("uusd", [Example.amy]) ∅ = Panic /\
  (EndBlocker "distribution" (mkCtx 9 0 "test" false false) Example.split_vote).1 = Panic.
Proof.
  split; [|vm_compute; reflexivity].
  apply (disjoint_ballot_panics "ukrw" {["bob" := 20 * Precision]} (20 * Precision) 0 "uusd"
    [Example.amy] ∅); [discriminate|]. constructor; [reflexivity|constructor].
Defined.

Lemma jail_only_after_fork_witness :
  exists addrs, st_staking (SlashAndResetMissCounters (mkCtx 1540500 0 "test" false false)
                              Example.missed).2
    = foldl (fun k a => Jail a k) Example.vals addrs.
Proof.
  apply (jail_only_after_fork (mkCtx 1540500 0 "test" false false) Example.missed tt
    (SlashAndResetMissCounters (mkCtx 1540500 0 "test" false false) Example.missed).2);
    [vm_compute; discriminate|]. apply run_eq. vm_compute. reflexivity.
Defined.

Lemma gone_stays_gone (k : list ref_validator) :
  touched Example.vals k -> exists e, Validator k "gone" = Err e.
Proof.
  intros Hk. assert (Forall (fun v => String.eqb (rv_addr v) "gone" = false) k) as Hall.
  { revert Hk. apply (rtc_ind_r (fun k => Forall (fun v => String.eqb (rv_addr v) "gone" = false) k)).
    - repeat constructor.
    - intros y z _ (a & h & p & f & [-> | ->]) Hy; simpl; apply Forall_fmap;
        (eapply Forall_impl; [exact Hy|]); intros v Hv; simpl; case_match eqn:Ha; simpl; try done;
        apply String.eqb_eq in Ha as <-; done. }
  clear Hk. simpl. induction Hall as [|v l Hv _ IH]; simpl; [by eexists|]. rewrite Hv. exact IH.
Qed.

Lemma miss_counters_reset_witness :
  st_misses (SlashAndResetMissCounters (mkCtx 19 0 "test" false false) Example.missed).2 !! "gone"
  = Some 2.
Proof.
  apply (miss_counters_reset (mkCtx 19 0 "test" false false) Example.missed tt
    (SlashAndResetMissCounters (mkCtx 19 0 "test" false false) Example.missed).2
    OracleState.Example.params10 "gone" 2);
    [apply run_eq; vm_compute; reflexivity|reflexivity|simpl; lia|simpl; lia|reflexivity|lia
    |exact gone_stays_gone|vm_compute; reflexivity].
Defined.

Lemma rewards_within_pool_witness :
  exists s', RewardBallotWinners "distribution" 10 10 ∅ Example.winners Example.rich = (Ok tt, s').
Proof.
  set (run := reward_winners Example.reward100 (weights (map_to_list Example.winners))
    (map_range Example.winners) [] Example.rich).
  apply (rewards_within_pool "distribution" 10 10 ∅ Example.winners Example.rich Precision
    Example.reward100 (match run.1 with Ok c => c | _ => [] end) run.2);
    [lia|lia|apply (bool_decide_unpack _); vm_compute; exact I
    |vm_compute; split; [reflexivity|reflexivity]
    |vm_compute; reflexivity|reflexivity|reflexivity|reflexivity|vm_compute; reflexivity|].
  apply run_eq. vm_compute. reflexivity.
Defined.
