(* ===== verification/Treasury.v ===== *)
(** * The treasury module (src/x/treasury)

    Tax rate and reward weight follow the tax proceeds and the seigniorage of
    past epochs (weeks), within the bounds of the policy parameters.  The
    state is the module's store, its parameter subspace, the bank ledger, the
    staking state, the community pool and the state behind the market and
    oracle keepers, which are seen through [TreasuryKeepers] only.
    [EndBlocker] is the whole handler with its deferred recording of the
    supply; [SettleSeigniorage] is modelled although the call is commented
    out.  The theorems: the rates stay within their bounds and move by at
    most one step per epoch; the moving windows compute the mean of the last
    epochs; what the end of a block burns; the bookkeeping of an epoch; the
    conservation of settled seigniorage; what a genesis export keeps. *)
From stdpp Require Import base gmap sets list strings fin_maps.
From Stdlib Require Import ZArith Lia.
From S2P Require Import Prelude Sdk SdkRef Core Market OracleState.
#[local] Open Scope Z_scope.

(** ** types/keys.go, types/errors.go *)
Definition ModuleName : string := "treasury".
Definition BurnModuleName : string := "burn".
Definition RouterKey : string := ModuleName.
Definition ErrNoSuchBurnTaxExemptionAddress : error := Registered ModuleName 1.

Definition TaxCapKey : list Z := [3].
Definition TRKey : list Z := [6].
Definition SRKey : list Z := [7].
Definition TSLKey : list Z := [8].

(** [binary.LittleEndian.PutUint64]: the eight bytes, lowest first. *)
Definition PutUint64 (v : Z) : list Z :=
  map (fun i => Z.land (Z.shiftr v (8 * Z.of_nat i)) 255) (seq 0 8).

Definition GetSubkeyByEpoch (prefix : list Z) (epoch : Z) : list Z := prefix ++ PutUint64 (u64 epoch).
Definition GetTRKey (epoch : Z) : list Z := GetSubkeyByEpoch TRKey epoch.
Definition GetSRKey (epoch : Z) : list Z := GetSubkeyByEpoch SRKey epoch.
Definition GetTSLKey (epoch : Z) : list Z := GetSubkeyByEpoch TSLKey epoch.

(** ** types/params.go

    A field that is [None] is a key that was never set; read through
    [GetParamSetIfExists] it is the zero value of the Go type, which for a
    LegacyDec is a nil pointer that panics when it is used. *)
Record PolicyConstraints : Type := mkPolicy {
  RateMin : Z; RateMax : Z; Cap : Coin; ChangeRateMax : Z;
}.

Record Params : Type := mkParams {
  p_TaxPolicy : option PolicyConstraints;
  p_RewardPolicy : option PolicyConstraints;
  p_SeigniorageBurdenTarget : option Z;
  p_MiningIncrement : option Z;
  p_WindowShort : option Z;
  p_WindowLong : option Z;
  p_WindowProbation : option Z;
  p_BurnTaxSplit : option Z;
  p_MinInitialDepositRatio : option Z;
  p_OracleSplit : option Z;
}.

Definition nil_deref {A} (o : option A) : res A :=
  match o with Some a => Ok a | None => Panic end.
Definition uint_field (o : option Z) : Z := default 0 o.

Definition DefaultTaxPolicy : PolicyConstraints :=
  mkPolicy (LegacyNewDecWithPrec 5 4) (LegacyNewDecWithPrec 1 2)
    (mkCoin MicroDoDenom (1 * MicroUnit)) (LegacyNewDecWithPrec 25 5).
Definition DefaultRewardPolicy : PolicyConstraints :=
  mkPolicy (LegacyNewDecWithPrec 5 2) (LegacyNewDecWithPrec 50 2)
    (mkCoin MicroDoDenom 0) (LegacyNewDecWithPrec 25 3).
Definition DefaultSeigniorageBurdenTarget : Z := LegacyNewDecWithPrec 67 2.
Definition DefaultMiningIncrement : Z := LegacyNewDecWithPrec 107 2.
Definition DefaultWindowShort : Z := 4.
Definition DefaultWindowLong : Z := 52.
Definition DefaultWindowProbation : Z := 12.
Definition DefaultTaxRate : Z := LegacyNewDecWithPrec 1 3.
Definition DefaultRewardWeight : Z := LegacyNewDecWithPrec 5 2.
Definition DefaultBurnTaxSplit : Z := LegacyNewDecWithPrec 1 1.
Definition DefaultMinInitialDepositRatio : Z := LegacyZeroDec.
Definition DefaultOracleSplit : Z := LegacyOneDec.

Definition DefaultParams : Params := {|
  p_TaxPolicy := Some DefaultTaxPolicy;
  p_RewardPolicy := Some DefaultRewardPolicy;
  p_SeigniorageBurdenTarget := Some DefaultSeigniorageBurdenTarget;
  p_MiningIncrement := Some DefaultMiningIncrement;
  p_WindowShort := Some DefaultWindowShort;
  p_WindowLong := Some DefaultWindowLong;
  p_WindowProbation := Some DefaultWindowProbation;
  p_BurnTaxSplit := Some DefaultBurnTaxSplit;
  p_MinInitialDepositRatio := Some DefaultMinInitialDepositRatio;
  p_OracleSplit := Some DefaultOracleSplit;
|}.

Section params.
Context `{CoinOps}.

Definition Validate (p : Params) : res unit :=
  tax ← nil_deref (p_TaxPolicy p);
  if RateMax tax <? RateMin tax
  then Err (Plain "treasury TaxPolicy.RateMax must be greater than TaxPolicy.RateMin")
  else if RateMin tax <? 0
  then Err (Plain "treasury parameter TaxPolicy.RateMin must be zero or positive")
  else if negb (CoinIsValid (Cap tax)) then Err (Plain "treasury parameter TaxPolicy.Cap is invalid")
  else if ChangeRateMax tax <? 0
  then Err (Plain "treasury parameter TaxPolicy.ChangeRateMax must be positive")
  else
    reward ← nil_deref (p_RewardPolicy p);
    if RateMax reward <? RateMin reward
    then Err (Plain "treasury RewardPolicy.RateMax must be greater than RewardPolicy.RateMin")
    else if RateMin reward <? 0
    then Err (Plain "treasury parameter RewardPolicy.RateMin must be positive")
    else if ChangeRateMax reward <? 0
    then Err (Plain "treasury parameter RewardPolicy.ChangeRateMax must be positive")
    else
      target ← nil_deref (p_SeigniorageBurdenTarget p);
      if target <? 0
      then Err (Plain "treasury parameter SeigniorageBurdenTarget must be positive")
      else
        inc ← nil_deref (p_MiningIncrement p);
        if inc <? 0 then Err (Plain "treasury parameter MiningIncrement must be positive")
        else if uint_field (p_WindowLong p) <=? uint_field (p_WindowShort p)
        then Err (Plain "treasury parameter WindowLong must be bigger than WindowShort")
        else
          split ← nil_deref (p_OracleSplit p);
          if split <? 0 then Err (Plain "treasury parameter OracleSplit must be positive")
          else if LegacyOneDec <? split
          then Err (Plain "treasury parameter OracleSplit must be less than or equal to 1.0")
          else Ok tt.

Definition validateTaxPolicy (v : PolicyConstraints) : res unit :=
  if RateMin v <? 0 then Err (Plain "rate min must be positive")
  else if RateMax v <? RateMin v then Err (Plain "rate max must be bigger than rate min")
  else if negb (CoinIsValid (Cap v)) then Err (Plain "cap is invalid")
  else if ChangeRateMax v <? 0 then Err (Plain "max change rate must be positive")
  else Ok tt.

Definition validateRewardPolicy (v : PolicyConstraints) : res unit :=
  if RateMin v <? 0 then Err (Plain "rate min must be positive")
  else if RateMax v <? RateMin v then Err (Plain "rate max must be bigger than rate min")
  else if ChangeRateMax v <? 0 then Err (Plain "max change rate must be positive")
  else Ok tt.

Definition validateSeigniorageBurdenTarget (v : Z) : res unit :=
  if v <? 0 then Err (Plain "seigniorage burden target must be positive") else Ok tt.
Definition validateMiningIncrement (v : Z) : res unit :=
  if v <? 0 then Err (Plain "mining increment must be positive") else Ok tt.
Definition validateWindowShort (v : Z) : res unit := Ok tt.
Definition validateWindowLong (v : Z) : res unit := Ok tt.
Definition validateWindowProbation (v : Z) : res unit := Ok tt.
Definition validateBurnTaxSplit (v : Z) : res unit :=
  if v <? 0 then Err (Plain "burn tax split must be positive") else Ok tt.

Definition validateMinInitialDepositRatio (v : Z) : res unit :=
  if v <? 0 then Err (Plain "min initial deposit ratio must be positive")
  else if LegacyOneDec <? v then Err (Plain "min initial deposit ratio must less than or equal 1.0")
  else Ok tt.

Definition validateOraceSplit (v : Z) : res unit :=
  if v <? 0 then Err (Plain "oracle split must be positive")
  else if LegacyOneDec <? v then Err (Plain "oracle split must be less than or equal to 1.0")
  else Ok tt.

(** The registered keys with their validation functions, in order. *)
Definition ParamSetPairs (p : Params) : list (res unit) :=
  [nil_deref (p_TaxPolicy p) ≫= validateTaxPolicy;
   nil_deref (p_RewardPolicy p) ≫= validateRewardPolicy;
   nil_deref (p_SeigniorageBurdenTarget p) ≫= validateSeigniorageBurdenTarget;
   nil_deref (p_MiningIncrement p) ≫= validateMiningIncrement;
   validateWindowShort (uint_field (p_WindowShort p));
   validateWindowLong (uint_field (p_WindowLong p));
   validateWindowProbation (uint_field (p_WindowProbation p));
   nil_deref (p_BurnTaxSplit p) ≫= validateBurnTaxSplit;
   nil_deref (p_MinInitialDepositRatio p) ≫= validateMinInitialDepositRatio;
   nil_deref (p_OracleSplit p) ≫= validateOraceSplit].
End params.

(** ** types/constraint.go *)
Section constraint.
Context `{MathOps}.

Definition Clamp (pc : PolicyConstraints) (prevRate newRate : Z) : res Z :=
  delta ← DecSub newRate prevRate;
  newRate ←
    (if prevRate <? newRate then
       if ChangeRateMax pc <? delta then DecAdd prevRate (ChangeRateMax pc) else Ok newRate
     else
       if ChangeRateMax pc <? Z.abs delta then DecSub prevRate (ChangeRateMax pc) else Ok newRate);
  Ok (if newRate <? RateMin pc then RateMin pc
      else if RateMax pc <? newRate then RateMax pc
      else newRate).
End constraint.

(** ** types/exptected_keepers.go: what the module sees of market and oracle *)
Class TreasuryKeepers (O : Type) : Type := {
  ComputeInternalSwap : O -> DecCoin -> string -> res DecCoin;
  Whitelist : O -> res (list string);
}.

(** What the market promises of a conversion. *)
Class TreasuryKeepersLaws (O : Type) `{TreasuryKeepers O} : Prop := {
  swap_denom o c d c' : ComputeInternalSwap o c d = Ok c' -> DDenom c' = d;
  swap_nonneg o c d c' : ComputeInternalSwap o c d = Ok c' -> 0 <= DAmount c -> 0 <= DAmount c';
}.

Record State (B K D O : Type) : Type := mkState {
  st_params : Params;
  st_taxrate : option Z;
  st_weight : option Z;
  st_caps : gmap string Z;
  st_proceeds : option (list Coin);
  st_issuance : option (list Coin);
  st_tr : gmap Z Z;
  st_sr : gmap Z Z;
  st_tsl : gmap Z Z;
  st_exempt : gset string;
  st_bank : B;
  st_staking : K;
  st_distr : D;
  st_keepers : O;
}.
Arguments mkState {B K D O}.
Arguments st_params {B K D O}.
Arguments st_taxrate {B K D O}.
Arguments st_weight {B K D O}.
Arguments st_caps {B K D O}.
Arguments st_proceeds {B K D O}.
Arguments st_issuance {B K D O}.
Arguments st_tr {B K D O}.
Arguments st_sr {B K D O}.
Arguments st_tsl {B K D O}.
Arguments st_exempt {B K D O}.
Arguments st_bank {B K D O}.
Arguments st_staking {B K D O}.
Arguments st_distr {B K D O}.
Arguments st_keepers {B K D O}.

Section keeper.
Context {B K D O : Type} `{BankOps B} `{StakingOps K} `{FeePoolOps D} `{TreasuryKeepers O}.
Context `{MathOps} `{CoinOps} `{DecCoinsOps} `{CoinSortOps} `{AddrCodec}.
Implicit Types s : State B K D O.

Definition on_params (f : Params -> Params) s : State B K D O :=
  mkState (f (st_params s)) (st_taxrate s) (st_weight s) (st_caps s) (st_proceeds s)
    (st_issuance s) (st_tr s) (st_sr s) (st_tsl s) (st_exempt s) (st_bank s) (st_staking s)
    (st_distr s) (st_keepers s).
Definition on_taxrate (f : option Z -> option Z) s : State B K D O :=
  mkState (st_params s) (f (st_taxrate s)) (st_weight s) (st_caps s) (st_proceeds s)
    (st_issuance s) (st_tr s) (st_sr s) (st_tsl s) (st_exempt s) (st_bank s) (st_staking s)
    (st_distr s) (st_keepers s).
Definition on_weight (f : option Z -> option Z) s : State B K D O :=
  mkState (st_params s) (st_taxrate s) (f (st_weight s)) (st_caps s) (st_proceeds s)
    (st_issuance s) (st_tr s) (st_sr s) (st_tsl s) (st_exempt s) (st_bank s) (st_staking s)
    (st_distr s) (st_keepers s).
Definition on_caps (f : gmap string Z -> gmap string Z) s : State B K D O :=
  mkState (st_params s) (st_taxrate s) (st_weight s) (f (st_caps s)) (st_proceeds s)
    (st_issuance s) (st_tr s) (st_sr s) (st_tsl s) (st_exempt s) (st_bank s) (st_staking s)
    (st_distr s) (st_keepers s).
Definition on_proceeds (f : option (list Coin) -> option (list Coin)) s : State B K D O :=
  mkState (st_params s) (st_taxrate s) (st_weight s) (st_caps s) (f (st_proceeds s))
    (st_issuance s) (st_tr s) (st_sr s) (st_tsl s) (st_exempt s) (st_bank s) (st_staking s)
    (st_distr s) (st_keepers s).
Definition on_issuance (f : option (list Coin) -> option (list Coin)) s : State B K D O :=
  mkState (st_params s) (st_taxrate s) (st_weight s) (st_caps s) (st_proceeds s)
    (f (st_issuance s)) (st_tr s) (st_sr s) (st_tsl s) (st_exempt s) (st_bank s) (st_staking s)
    (st_distr s) (st_keepers s).
Definition on_tr (f : gmap Z Z -> gmap Z Z) s : State B K D O :=
  mkState (st_params s) (st_taxrate s) (st_weight s) (st_caps s) (st_proceeds s)
    (st_issuance s) (f (st_tr s)) (st_sr s) (st_tsl s) (st_exempt s) (st_bank s) (st_staking s)
    (st_distr s) (st_keepers s).
Definition on_sr (f : gmap Z Z -> gmap Z Z) s : State B K D O :=
  mkState (st_params s) (st_taxrate s) (st_weight s) (st_caps s) (st_proceeds s) (st_issuance s)
    (st_tr s) (f (st_sr s)) (st_tsl s) (st_exempt s) (st_bank s) (st_staking s) (st_distr s)
    (st_keepers s).
Definition on_tsl (f : gmap Z Z -> gmap Z Z) s : State B K D O :=
  mkState (st_params s) (st_taxrate s) (st_weight s) (st_caps s) (st_proceeds s) (st_issuance s)
    (st_tr s) (st_sr s) (f (st_tsl s)) (st_exempt s) (st_bank s) (st_staking s) (st_distr s)
    (st_keepers s).
Definition on_exempt (f : gset string -> gset string) s : State B K D O :=
  mkState (st_params s) (st_taxrate s) (st_weight s) (st_caps s) (st_proceeds s) (st_issuance s)
    (st_tr s) (st_sr s) (st_tsl s) (f (st_exempt s)) (st_bank s) (st_staking s) (st_distr s)
    (st_keepers s).
Definition on_bank (f : B -> B) s : State B K D O :=
  mkState (st_params s) (st_taxrate s) (st_weight s) (st_caps s) (st_proceeds s) (st_issuance s)
    (st_tr s) (st_sr s) (st_tsl s) (st_exempt s) (f (st_bank s)) (st_staking s) (st_distr s)
    (st_keepers s).
Definition on_distr (f : D -> D) s : State B K D O :=
  mkState (st_params s) (st_taxrate s) (st_weight s) (st_caps s) (st_proceeds s) (st_issuance s)
    (st_tr s) (st_sr s) (st_tsl s) (st_exempt s) (st_bank s) (st_staking s) (f (st_distr s))
    (st_keepers s).

(** ** keeper/params.go: [Get] panics on a key that was never set, [Set]
    panics on a value the registered function refuses. *)
Definition TaxPolicy s : res PolicyConstraints := nil_deref (p_TaxPolicy (st_params s)).
Definition RewardPolicy s : res PolicyConstraints := nil_deref (p_RewardPolicy (st_params s)).
Definition SeigniorageBurdenTarget s : res Z :=
  nil_deref (p_SeigniorageBurdenTarget (st_params s)).
Definition MiningIncrement s : res Z := nil_deref (p_MiningIncrement (st_params s)).
Definition WindowShort s : res Z := nil_deref (p_WindowShort (st_params s)).
Definition WindowLong s : res Z := nil_deref (p_WindowLong (st_params s)).
Definition WindowProbation s : res Z := nil_deref (p_WindowProbation (st_params s)).
Definition GetBurnSplitRate s : res Z := nil_deref (p_BurnTaxSplit (st_params s)).
Definition GetMinInitialDepositRatio s : res Z :=
  nil_deref (p_MinInitialDepositRatio (st_params s)).
Definition GetOracleSplitRate s : res Z := nil_deref (p_OracleSplit (st_params s)).

Definition SetBurnSplitRate (v : Z) : M (State B K D O) unit := fun s =>
  if is_ok (validateBurnTaxSplit v) then
    (Ok tt, on_params (fun p => mkParams (p_TaxPolicy p) (p_RewardPolicy p)
       (p_SeigniorageBurdenTarget p) (p_MiningIncrement p) (p_WindowShort p) (p_WindowLong p)
       (p_WindowProbation p) (Some v) (p_MinInitialDepositRatio p) (p_OracleSplit p)) s)
  else (Panic, s).
Definition SetMinInitialDepositRatio (v : Z) : M (State B K D O) unit := fun s =>
  if is_ok (validateMinInitialDepositRatio v) then
    (Ok tt, on_params (fun p => mkParams (p_TaxPolicy p) (p_RewardPolicy p)
       (p_SeigniorageBurdenTarget p) (p_MiningIncrement p) (p_WindowShort p) (p_WindowLong p)
       (p_WindowProbation p) (p_BurnTaxSplit p) (Some v) (p_OracleSplit p)) s)
  else (Panic, s).
Definition SetOracleSplitRate (v : Z) : M (State B K D O) unit := fun s =>
  if is_ok (validateOraceSplit v) then
    (Ok tt, on_params (fun p => mkParams (p_TaxPolicy p) (p_RewardPolicy p)
       (p_SeigniorageBurdenTarget p) (p_MiningIncrement p) (p_WindowShort p) (p_WindowLong p)
       (p_WindowProbation p) (p_BurnTaxSplit p) (p_MinInitialDepositRatio p) (Some v)) s)
  else (Panic, s).

Definition GetParams s : Params := st_params s.
Definition SetParams (p : Params) : M (State B K D O) unit := fun s =>
  if forallb is_ok (ParamSetPairs p) then
    (Ok tt, on_params (fun _ => mkParams (p_TaxPolicy p) (p_RewardPolicy p)
       (p_SeigniorageBurdenTarget p) (p_MiningIncrement p) (Some (uint_field (p_WindowShort p)))
       (Some (uint_field (p_WindowLong p))) (Some (uint_field (p_WindowProbation p)))
       (p_BurnTaxSplit p) (p_MinInitialDepositRatio p) (p_OracleSplit p)) s)
  else (Panic, s).

(** ** keeper/keeper.go *)
Definition GetTaxRate s : Z := default DefaultTaxRate (st_taxrate s).
Definition SetTaxRate (taxRate : Z) : M (State B K D O) unit :=
  modify (on_taxrate (fun _ => Some taxRate)).
Definition GetRewardWeight s : Z := default DefaultRewardWeight (st_weight s).
Definition SetRewardWeight (rewardWeight : Z) : M (State B K D O) unit :=
  modify (on_weight (fun _ => Some rewardWeight)).

Definition SetTaxCap (denom : string) (cap : Z) : M (State B K D O) unit :=
  modify (on_caps (<[denom := cap]>)).
Definition GetTaxCap s (denom : string) : res Z :=
  match st_caps s !! denom with
  | None => policy ← TaxPolicy s; Ok (Amount (Cap policy))
  | Some cap => Ok cap
  end.
Definition IterateTaxCap s : list (string * Z) := kv_iter (st_caps s).

Definition SetEpochTaxProceeds (taxProceeds : list Coin) : M (State B K D O) unit :=
  modify (on_proceeds (fun _ => Some taxProceeds)).
Definition PeekEpochTaxProceeds s : list Coin := default [] (st_proceeds s).
Definition RecordEpochTaxProceeds (delta : list Coin) : M (State B K D O) unit :=
  if CoinsIsZero delta then mret tt
  else
    proceeds ← gets PeekEpochTaxProceeds;
    proceeds ← lift (CoinsAdd proceeds delta);
    SetEpochTaxProceeds proceeds.

Definition SetEpochInitialIssuance (issuance : list Coin) : M (State B K D O) unit :=
  modify (on_issuance (fun _ => Some issuance)).
Definition GetEpochInitialIssuance s : list Coin := default [] (st_issuance s).

(** [GetSupply] returns a coin of the denomination it was asked for. *)
Definition supply_coin s (denom : string) : Coin := mkCoin denom (GetSupply (st_bank s) denom).

Definition RecordEpochInitialIssuance : M (State B K D O) unit :=
  s ← get;
  whitelist ← must (Whitelist (st_keepers s));
  let totalSupply := supply_coin s MicroDoDenom :: map (supply_coin s) whitelist in
  SetEpochInitialIssuance (CoinsSort totalSupply).

Definition PeekEpochSeigniorage s : res Z :=
  let epochIssuance := GetSupply (st_bank s) MicroDoDenom in
  let preEpochIssuance := AmountOf (GetEpochInitialIssuance s) MicroDoDenom in
  epochSeigniorage ← IntSub preEpochIssuance epochIssuance;
  Ok (if epochSeigniorage <? 0 then 0 else epochSeigniorage).

Definition GetTR s (epoch : Z) : Z := default LegacyZeroDec (st_tr s !! epoch).
Definition SetTR (epoch tr : Z) : M (State B K D O) unit := modify (on_tr (<[epoch := tr]>)).
Definition ClearTRs : M (State B K D O) unit :=
  modify (on_tr (fun m => foldr (fun kv => delete kv.1) m (map_to_list m))).
Definition GetSR s (epoch : Z) : Z := default LegacyZeroDec (st_sr s !! epoch).
Definition SetSR (epoch sr : Z) : M (State B K D O) unit := modify (on_sr (<[epoch := sr]>)).
Definition ClearSRs : M (State B K D O) unit :=
  modify (on_sr (fun m => foldr (fun kv => delete kv.1) m (map_to_list m))).
Definition GetTSL s (epoch : Z) : Z := default 0 (st_tsl s !! epoch).
Definition SetTSL (epoch tsl : Z) : M (State B K D O) unit := modify (on_tsl (<[epoch := tsl]>)).
Definition ClearTSLs : M (State B K D O) unit :=
  modify (on_tsl (fun m => foldr (fun kv => delete kv.1) m (map_to_list m))).

Definition AddBurnTaxExemptionAddress (address : string) : M (State B K D O) unit :=
  _ ← must (AccAddressFromBech32 address);
  modify (on_exempt (fun e => {[address]} ∪ e)).

Definition RemoveBurnTaxExemptionAddress (address : string) : M (State B K D O) unit :=
  _ ← must (AccAddressFromBech32 address);
  s ← get;
  if bool_decide (address ∉ st_exempt s) then throw ErrNoSuchBurnTaxExemptionAddress
  else modify (on_exempt (fun e => e ∖ {[address]})).

(** ** keeper/indicator.go *)
Definition GetEpoch (ctx : Ctx) : Z := Z.quot (BlockHeight ctx) BlocksPerWeek.

Definition align_step s (denom : string) (alignedAmt : Z) (coinReward : DecCoin) : res Z :=
  if negb (String.eqb (DDenom coinReward) denom) then
    match ComputeInternalSwap (st_keepers s) coinReward denom with
    | Panic => Panic
    | Err _ => Ok alignedAmt
    | Ok swappedReward => DecAdd alignedAmt (DAmount swappedReward)
    end
  else DecAdd alignedAmt (DAmount coinReward).

Definition alignCoins s (coins : list DecCoin) (denom : string) : res Z :=
  foldRes (align_step s denom) LegacyZeroDec coins.

(** The total of bonded tokens, zero when staking answers an error. *)
Definition bonded_or_zero s : res Z :=
  match TotalBondedTokens (st_staking s) with Panic => Panic | Err _ => Ok 0 | Ok t => Ok t end.

Definition UpdateIndicators (ctx : Ctx) : M (State B K D O) unit :=
  let epoch := GetEpoch ctx in
  s ← get;
  totalStakedDo ← lift (bonded_or_zero s);
  SetTSL epoch totalStakedDo ;;
  s ← get;
  taxRewards ← lift (NewDecCoinsFromCoins (PeekEpochTaxProceeds s));
  TR ← lift (alignCoins s taxRewards MicroDoDenom);
  SetTR epoch TR ;;
  SetEpochTaxProceeds [] ;;
  s ← get;
  seigniorage ← lift (PeekEpochSeigniorage s);
  seigniorageRewardsAmt ← lift (DecMulInt (GetRewardWeight s) seigniorage);
  seigniorageReward ← lift (NewDecCoinFromDec MicroDoDenom seigniorageRewardsAmt);
  SR ← lift (alignCoins s [seigniorageReward] MicroDoDenom);
  SetSR epoch SR.

Definition TRL s (epoch : Z) : res Z :=
  let tr := GetTR s epoch in
  let tsl := GetTSL s epoch in
  if (tr =? 0) || (tsl =? 0) then Ok LegacyZeroDec else DecQuoInt tr tsl.
Definition SR s (epoch : Z) : res Z := Ok (GetSR s epoch).
Definition MR s (epoch : Z) : res Z := DecAdd (GetTR s epoch) (GetSR s epoch).

(** [for i = curEpoch; i >= 0 && i > bound; i--]: [n] is [i + 1], so that the
    loop ends when [n] does; the result is the sum and the final [i]. *)
Fixpoint indicator_loop (indicator : Z -> res Z) (bound : Z) (n : nat) (sum : Z) : res (Z * Z) :=
  match n with
  | Datatypes.O => Ok (sum, -1)
  | S m =>
    let i := Z.of_nat m in
    if bound <? i then
      val ← indicator i;
      sum ← DecAdd sum val;
      indicator_loop indicator bound m sum
    else Ok (sum, i)
  end.

Definition run_window (curEpoch epochs : Z) (indicator : Z -> res Z) : res (Z * Z) :=
  if curEpoch <? 0 then Ok (LegacyZeroDec, curEpoch)
  else indicator_loop indicator (i64 (curEpoch - epochs)) (Z.to_nat (curEpoch + 1)) LegacyZeroDec.

Definition sumIndicator (ctx : Ctx) (epochs : Z) (indicator : Z -> res Z) : res Z :=
  '(sum, _) ← run_window (GetEpoch ctx) epochs indicator;
  Ok sum.

Definition rollingAverageIndicator (ctx : Ctx) (epochs : Z) (indicator : Z -> res Z) : res Z :=
  let curEpoch := GetEpoch ctx in
  '(sum, i) ← run_window curEpoch epochs indicator;
  let computedEpochs := curEpoch - i in
  if computedEpochs =? 0 then Ok sum else DecQuoInt64 sum computedEpochs.

(** ** keeper/policy.go *)
Definition tax_cap_step (taxPolicyCap : DecCoin) (newCaps : list Coin) (denom : string) :
    M (State B K D O) (list Coin) :=
  if String.eqb denom (DDenom taxPolicyCap) then mret newCaps
  else
    s ← get;
    match ComputeInternalSwap (st_keepers s) taxPolicyCap denom with
    | Panic => panic
    | Err _ => mret newCaps
    | Ok newDecCap =>
      '(newCap, _) ← lift (DecCoinTruncate newDecCap);
      SetTaxCap (Denom newCap) (Amount newCap) ;;
      mret (newCaps ++ [newCap])
    end.

Fixpoint tax_cap_loop (taxPolicyCap : DecCoin) (whitelist : list string) (newCaps : list Coin) :
    M (State B K D O) (list Coin) :=
  match whitelist with
  | [] => mret newCaps
  | denom :: rest =>
    newCaps ← tax_cap_step taxPolicyCap newCaps denom;
    tax_cap_loop taxPolicyCap rest newCaps
  end.

Definition UpdateTaxCap : M (State B K D O) (list Coin) :=
  s ← get;
  policy ← lift (TaxPolicy s);
  taxPolicyCap ← lift (NewDecCoinFromCoin (Cap policy));
  whitelist ← must (Whitelist (st_keepers s));
  tax_cap_loop taxPolicyCap whitelist [].

Definition UpdateTaxPolicy (ctx : Ctx) : M (State B K D O) Z :=
  s ← get;
  let params := GetParams s in
  let oldTaxRate := GetTaxRate s in
  tlYear ← lift (rollingAverageIndicator ctx (i64 (uint_field (p_WindowLong params))) (TRL s));
  tlMonth ← lift (rollingAverageIndicator ctx (i64 (uint_field (p_WindowShort params))) (TRL s));
  newTaxRate ← lift
    (if tlMonth =? LegacyZeroDec then
       policy ← nil_deref (p_TaxPolicy params); Ok (RateMax policy)
     else
       inc ← nil_deref (p_MiningIncrement params);
       grown ← DecMul tlYear inc;
       num ← DecMul oldTaxRate grown;
       DecQuo num tlMonth);
  policy ← lift (nil_deref (p_TaxPolicy params));
  newTaxRate ← lift (Clamp policy oldTaxRate newTaxRate);
  SetTaxRate newTaxRate ;;
  mret newTaxRate.

Definition UpdateRewardPolicy (ctx : Ctx) : M (State B K D O) Z :=
  s ← get;
  let params := GetParams s in
  let oldWeight := GetRewardWeight s in
  seigniorageSum ← lift (sumIndicator ctx (i64 (uint_field (p_WindowShort params))) (SR s));
  totalSum ← lift (sumIndicator ctx (i64 (uint_field (p_WindowShort params))) (MR s));
  newRewardWeight ← lift
    (if (totalSum =? LegacyZeroDec) || (seigniorageSum =? LegacyZeroDec) then
       policy ← nil_deref (p_RewardPolicy params); Ok (RateMax policy)
     else
       sb ← DecQuo seigniorageSum totalSum;
       sbTarget ← nil_deref (p_SeigniorageBurdenTarget params);
       ratio ← DecQuo sbTarget sb;
       DecMul oldWeight ratio);
  policy ← lift (nil_deref (p_RewardPolicy params));
  newRewardWeight ← lift (Clamp policy oldWeight newRewardWeight);
  SetRewardWeight newRewardWeight ;;
  mret newRewardWeight.

(** ** keeper/burn_account.go, keeper/seigniorage.go *)
Definition treasury_bank (f : B -> res B) : M (State B K D O) unit :=
  call_on st_bank (fun b => on_bank (fun _ => b)) (fun b => b' ← f b; Ok (tt, b')).

(** [if err := f(); err != nil { panic(err) }] *)
Definition or_panic {A} (m : M (State B K D O) A) : M (State B K D O) A := fun s =>
  match m s with (Ok a, s') => (Ok a, s') | (_, s') => (Panic, s') end.

Definition BurnCoinsFromBurnAccount : M (State B K D O) unit :=
  s ← get;
  let burnAddress := ModuleAddress BurnModuleName in
  let coins := GetAllBalances (st_bank s) burnAddress in
  if negb (CoinsIsZero coins) then or_panic (treasury_bank (BurnCoins BurnModuleName coins))
  else mret tt.

(** [EndBlocker] does not call it: the call is commented out in [abci.go]. *)
Definition SettleSeigniorage (distributionModuleName : string) : M (State B K D O) unit :=
  s ← get;
  seigniorageDoAmt ← lift (PeekEpochSeigniorage s);
  if seigniorageDoAmt <=? 0 then mret tt
  else
    let rewardWeight := GetRewardWeight s in
    seigniorageDecCoin ← lift (NewDecCoin MicroDoDenom seigniorageDoAmt);
    '(seigniorageCoin, _) ← lift (DecCoinTruncate seigniorageDecCoin);
    seigniorageCoins ← lift (NewCoins [seigniorageCoin]);
    (if CoinsIsValid seigniorageCoins
     then or_panic (treasury_bank (MintCoins ModuleName seigniorageCoins)) else mret tt) ;;
    let seigniorageAmt := Amount seigniorageCoin in
    burnDec ← lift (DecMulInt rewardWeight seigniorageAmt);
    burnAmt ← lift (DecTruncateInt burnDec);
    burnCoin ← lift (NewCoin MicroDoDenom burnAmt);
    burnCoins ← lift (NewCoins [burnCoin]);
    (if CoinsIsValid burnCoins
     then or_panic (treasury_bank (BurnCoins ModuleName burnCoins)) else mret tt) ;;
    leftAmt ← lift (IntSub seigniorageAmt burnAmt);
    leftCoin ← lift (NewCoin MicroDoDenom leftAmt);
    leftCoins ← lift (NewCoins [leftCoin]);
    if CoinsIsValid leftCoins then
      or_panic (treasury_bank
        (SendCoinsFromModuleToModule ModuleName distributionModuleName leftCoins)) ;;
      s ← get;
      pool ← must (FeePool_Get (st_distr s));
      decCoins ← lift (NewDecCoinsFromCoins leftCoins);
      pool ← lift (foldRes DecCoinsAdd pool decCoins);
      modify (on_distr (FeePool_Set pool))
    else mret tt.

(** ** abci.go *)

(** [defer d()]: runs after the body however it ends; a panic of either one
    is a panic of the function. *)
Definition deferred {A} (d : M (State B K D O) unit) (body : M (State B K D O) A) :
    M (State B K D O) A := fun s =>
  let (r, s1) := body s in
  match d s1 with
  | (Panic, s2) => (Panic, s2)
  | (_, s2) => (r, s2)
  end.

Definition EndBlocker (ctx : Ctx) : M (State B K D O) unit :=
  BurnCoinsFromBurnAccount ;;
  last ← lift (IsPeriodLastBlock ctx BlocksPerWeek);
  if negb last then mret tt
  else
    deferred RecordEpochInitialIssuance
      (UpdateIndicators ctx ;;
       s ← get;
       probation ← lift (WindowProbation s);
       if BlockHeight ctx <? i64 (u64 (BlocksPerWeek * probation)) then mret tt
       else
         _ ← UpdateTaxPolicy ctx;
         _ ← UpdateRewardPolicy ctx;
         _ ← UpdateTaxCap;
         mret tt).

(** ** keeper/gov.go, proposal_handler.go, types/gov.go *)
Inductive Content : Type :=
| AddBurnTaxExemptionAddressProposal (title description : string) (addresses : list string)
| RemoveBurnTaxExemptionAddressProposal (title description : string) (addresses : list string)
| OtherContent.

Definition HandleAddBurnTaxExemptionAddressProposal (addresses : list string) :
    M (State B K D O) unit := forM AddBurnTaxExemptionAddress addresses.
Definition HandleRemoveBurnTaxExemptionAddressProposal (addresses : list string) :
    M (State B K D O) unit := forM RemoveBurnTaxExemptionAddress addresses.

Definition NewProposalHandler (content : Content) : M (State B K D O) unit :=
  match content with
  | AddBurnTaxExemptionAddressProposal _ _ addresses =>
      HandleAddBurnTaxExemptionAddressProposal addresses
  | RemoveBurnTaxExemptionAddressProposal _ _ addresses =>
      HandleRemoveBurnTaxExemptionAddressProposal addresses
  | OtherContent => throw (SdkError "ErrUnknownRequest")
  end.

Fixpoint check_addresses (addresses : list string) : res unit :=
  match addresses with
  | [] => Ok tt
  | a :: rest =>
    match AccAddressFromBech32 a with
    | Panic => Panic
    | Err _ => Err (SdkError "ErrInvalidAddress")
    | Ok _ => check_addresses rest
    end
  end.

(** [ValidateAbstract] of the gov module checks title and description. *)
Definition AddProposal_ValidateBasic (ValidateAbstract : string -> string -> res unit)
    (title description : string) (addresses : list string) : res unit :=
  _ ← ValidateAbstract title description; check_addresses addresses.
Definition RemoveProposal_ValidateBasic (ValidateAbstract : string -> string -> res unit)
    (title description : string) (addresses : list string) : res unit :=
  _ ← ValidateAbstract title description; check_addresses addresses.

(** ** keeper/migrations.go *)
Definition burnTaxExcemptionAddressList : list string :=
  ["do10atxpzafqfjy58z0dvugmd9zf63fycr6uvwhjm";
   "do1jrq7xa63a4qgpdgtj70k8yz5p32ps9r7mlj3yr";
   "do15s66unmdcpknuxxldd7fsr44skme966tdckq8c";
   "do1u0p7xuwlg0zsqgntagdkyjyumsegd8agzhug99";
   "do1fax8l6srhew5tu2mavmu83js3v7vsqf9yr4fv7";
   "do132wegs0kf9q65t9gsm3g2y06l98l2k4treepkq";
   "do1l89hprfccqxgzzypjzy3fnp7vqpnkqg5vvqgjc";
   "do1ns7lfvrxzter4d2yl9tschdwntcxa25vtsvd8a";
   "do1vuvju6la7pj6t8d8zsx4g8ea85k2cg5u62cdhl";
   "do1lzdux37s4anmakvg7pahzh03zlf43uveq83wh2";
   "do1ky3qcf7v45n6hwfmkm05acwczvlq8ahnq778wf";
   "do17m8tkde0mav43ckeehp537rsz4usqx5jayhf08";
   "do1urj8va62jeygra7y3a03xeex49mjddh3eul0qa";
   "do10wyptw59xc52l86pg86sy0xcm3nm5wg6a3cf7l";
   "do1sujaqwaw7ls9fh6a4x7n06nv7fxx5xexwlnrkf";
   "do1qg59nhvag222kp6fyzxt83l4sw02huymqnklww";
   "do1dxxnwxlpjjkl959v5xrghx0dtvut60eef6vcch";
   "do1y246m036et7vu69nsg4kapelj0tywe8vsmp34d";
   "do1j39c9sjr0zpjnrfjtthuua0euecv7txavxvq36";
   "do1t0jthtq9zhm4ldtvs9epp02zp23f355wu6zrzq";
   "do12dxclvqrgt7w3s7gtwpdkxgymexv8stgqcr0yu";
   "do1az3dsad74pwhylrrexnn5qylzj783uyww2s7xz";
   "do1ttq26dq4egr5exmhd6gezerrxhlutx9u90uncn";
   "do13e9670yuvfs06hctt9pmgjnz0yw28p0wgnhrqn";
   "do1skmktm537pfaycgu9jx4fqryjt6pf77ycpesw0";
   "do14q8cazgt58y2xkd26mlukemwth0cnvfqmgz2qk";
   "do163vzxz9wwy320ccwy73qe6h33yzg2yhyvv5nsf";
   "do1kj43wfnvrgc2ep94dgmwvnzv8vnkkxrxmrnhkp";
   "do1gu6re549pn0mdpshtv75t3xugn347jghlhul73";
   "do1gft3qujlq04yza3s2r238mql2yn3xxqepzt2up";
   "do174pe7qe7g867spzdfs5f4rf9fuwmm42zf4hykf";
   "do1ju68sg6k39t385sa0fazqvjgh6m6gkmsmp4lln";
   "do1dlh7k4hcnsrvlfuzhdzx3ctynj7s8dde9zmdyd";
   "do18wcdhpzpteharlkks5n6k7ent0mjyftvcpm6ee";
   "do1xmkwsauuk3kafua9k23hrkfr76gxmwdfq5c09d";
   "do1t957gces65xd6p8g4cuqnyd0sy5tzku59njydd";
   "do1s4rd0y5e4gasf0krdm2w8sjhsmh030m74f2x9v";
   "do15jya6ugxp65y80y5h82k4gv90pd7acv58xp6jj";
   "do14yqy9warjkxyecda5kf5a68qlknf4ve4sh7sa6";
   "do1yxras4z0fs9ugsg2hew9334k65uzejwcslyx0y";
   "do1p0vl4s4gp46vy6dm352s2fgtw6hccypph7zc3u";
   "do1hhj92twle9x8rjkr3yffujexsy5ldexak5rglz";
   "do18vnrzlzm2c4xfsx382pj2xndqtt00rvhu24sqe";
   "do1ncjg4a59x2pgvqy9qjyqprlj8lrwshm0wleht5";
   "do19l7hzwazq5j0dykfldcwrk2927xwcjd0kt0vt9";
   "do1frh79vmtur5fmrghz6gfjvfhpa3u2c0uemv4af"].

Definition Migrate1to2 : M (State B K D O) unit :=
  SetBurnSplitRate DefaultBurnTaxSplit ;;
  forM AddBurnTaxExemptionAddress burnTaxExcemptionAddressList.
Definition Migrate2to3 : M (State B K D O) unit :=
  SetMinInitialDepositRatio DefaultMinInitialDepositRatio.

(** ** keeper/querier.go *)
Definition Query_TaxCap s (denom : string) : res Z :=
  if negb (ValidDenom denom) then Err (Plain "invalid denom") else GetTaxCap s denom.
Definition Query_TaxCaps s : list (string * Z) := IterateTaxCap s.

(** [math.Min] on float64 is exact here: the epoch is far below [2 ^ 53]. *)
Definition Query_Indicators (ctx : Ctx) s : res (Z * Z) :=
  TSL ← bonded_or_zero s;
  taxRewards ← NewDecCoinsFromCoins (PeekEpochTaxProceeds s);
  TR ← alignCoins s taxRewards MicroDoDenom;
  let epoch := GetEpoch ctx in
  if epoch =? 0 then
    trl ← DecQuoInt TR TSL;
    Ok (trl, trl)
  else
    let params := GetParams s in
    let windowLong := u64 (uint_field (p_WindowLong params) - 1) in
    let windowShort := u64 (uint_field (p_WindowShort params) - 1) in
    let previousEpochCtx := mkCtx (i64 (BlockHeight ctx - BlocksPerWeek)) (BlockTime ctx)
      (ChainID ctx) (IsCheckTx ctx) (IsReCheckTx ctx) in
    trlYear ← rollingAverageIndicator previousEpochCtx (i64 windowLong) (TRL s);
    trlMonth ← rollingAverageIndicator previousEpochCtx (i64 windowShort) (TRL s);
    let computedEpochForYear := Z.min windowLong epoch in
    let computedEpochForMonth := Z.min windowShort epoch in
    trl ← DecQuoInt TR TSL;
    year ← DecMulInt64 trlYear computedEpochForYear;
    year ← DecAdd year trl;
    trlYear ← DecQuoInt64 year (computedEpochForYear + 1);
    month ← DecMulInt64 trlMonth computedEpochForMonth;
    month ← DecAdd month trl;
    trlMonth ← DecQuoInt64 month (computedEpochForMonth + 1);
    Ok (trlYear, trlMonth).

(** ** genesis.go, types/genesis.go

    A number that the genesis file leaves out is a nil [Int] or [LegacyDec]:
    comparing it panics, encoding it for the store gives the encoding of
    zero.  The policies of the parameters hold numbers only: without one of
    them validation panics. *)
Record GenCoin : Type := mkGenCoin { gc_Denom : string; gc_Amount : option Z }.
Record EpochState : Type := mkEpochState {
  Epoch : Z; TaxReward : option Z; SeigniorageReward : option Z; TotalStakedDo : option Z;
}.
Record GenesisState : Type := mkGenesisState {
  gs_Params : Params; gs_TaxRate : option Z; gs_RewardWeight : option Z;
  gs_TaxCaps : list (string * option Z);
  gs_TaxProceeds : list GenCoin; gs_EpochInitialIssuance : list GenCoin;
  gs_EpochStates : list EpochState;
}.

Definition encoded (o : option Z) : Z := default 0 o.
Definition encoded_coin (c : GenCoin) : Coin := mkCoin (gc_Denom c) (encoded (gc_Amount c)).
Definition gen_coin (c : Coin) : GenCoin := mkGenCoin (Denom c) (Some (Amount c)).

(** [Coins.IsZero] looks at the amounts up to the first that is not zero. *)
Fixpoint GenCoinsIsZero (cs : list GenCoin) : res bool :=
  match cs with
  | [] => Ok true
  | c :: cs => amount ← nil_deref (gc_Amount c); if amount =? 0 then GenCoinsIsZero cs else Ok false
  end.

Definition DefaultGenesisState : GenesisState :=
  mkGenesisState DefaultParams (Some DefaultTaxRate) (Some DefaultRewardWeight) [] [] [] [].

Definition ValidateGenesis (data : GenesisState) : res unit :=
  rate ← nil_deref (gs_TaxRate data);
  tax ← nil_deref (p_TaxPolicy (gs_Params data));
  if (rate <? RateMin tax) || (RateMax tax <? rate)
  then Err (Plain "tax_rate must be less than RateMax and greater than RateMin")
  else
    weight ← nil_deref (gs_RewardWeight data);
    reward ← nil_deref (p_RewardPolicy (gs_Params data));
    if (weight <? RateMin reward) || (RateMax reward <? weight)
    then Err (Plain "reward_weight must be less than RateMax and greater than RateMin")
    else Validate (gs_Params data).

Definition set_epoch (e : EpochState) : M (State B K D O) unit :=
  SetTR (i64 (Epoch e)) (encoded (TaxReward e)) ;;
  SetSR (i64 (Epoch e)) (encoded (SeigniorageReward e)) ;;
  SetTSL (i64 (Epoch e)) (encoded (TotalStakedDo e)).

Definition InitGenesis (data : GenesisState) : M (State B K D O) unit :=
  SetParams (gs_Params data) ;;
  SetTaxRate (encoded (gs_TaxRate data)) ;;
  SetRewardWeight (encoded (gs_RewardWeight data)) ;;
  SetEpochTaxProceeds (map encoded_coin (gs_TaxProceeds data)) ;;
  zero ← lift (GenCoinsIsZero (gs_EpochInitialIssuance data));
  (if zero : bool then RecordEpochInitialIssuance
   else SetEpochInitialIssuance (map encoded_coin (gs_EpochInitialIssuance data))) ;;
  forM (fun cap => SetTaxCap cap.1 (encoded cap.2)) (gs_TaxCaps data) ;;
  forM set_epoch (gs_EpochStates data) ;;
  (if HasModuleAccount (B := B) ModuleName then mret tt else panic) ;;
  (if HasModuleAccount (B := B) BurnModuleName then mret tt else panic).

Definition export_epoch s (e : Z) : EpochState :=
  mkEpochState (u64 e) (Some (GetTR s e)) (Some (GetSR s e)) (Some (GetTSL s e)).

(** [for e := 0; e < curEpoch || (e == curEpoch && last); e++] *)
Definition exported_epochs (curEpoch : Z) (last : bool) : list Z :=
  map Z.of_nat (seq 0 (Z.to_nat (if last then curEpoch + 1 else curEpoch))).

Definition ExportGenesis (ctx : Ctx) s : res GenesisState :=
  last ← IsPeriodLastBlock ctx BlocksPerWeek;
  Ok (mkGenesisState (GetParams s) (Some (GetTaxRate s)) (Some (GetRewardWeight s))
        (map (fun kv => (kv.1, Some kv.2)) (IterateTaxCap s))
        (map gen_coin (PeekEpochTaxProceeds s)) (map gen_coin (GetEpochInitialIssuance s))
        (map (export_epoch s) (exported_epochs (GetEpoch ctx) last))).
End keeper.

(** ** The Bech32 checksum (BIP 173)

    The address package is a parameter; a text with the prefix [hrp] can only
    be an address when its characters are in the alphabet of the encoding and
    the checksum over prefix and data verifies. *)
Definition bech32_charset : string := "qpzry9x8gf2tvdw0s3jn54khce6mua7l".

Fixpoint index_of (c : Ascii.ascii) (s : string) (i : Z) : option Z :=
  match s with
  | EmptyString => None
  | String c' s => if Ascii.eqb c c' then Some i else index_of c s (i + 1)
  end.

Definition polymod_step (chk v : Z) : Z :=
  let top := Z.shiftr chk 25 in
  let chk := Z.lxor (Z.shiftl (Z.land chk 33554431) 5) v in
  foldl (fun acc ig => if Z.testbit top ig.1 then Z.lxor acc ig.2 else acc) chk
    [(0, 996825010); (1, 642813549); (2, 513874426); (3, 1027748829); (4, 705979059)].

Definition ascii_codes (s : string) : list Z :=
  map (fun c => Z.of_nat (Ascii.nat_of_ascii c)) (String.list_ascii_of_string s).
Definition hrp_expand (hrp : string) : list Z :=
  map (fun n => Z.shiftr n 5) (ascii_codes hrp) ++ [0] ++
  map (fun n => Z.land n 31) (ascii_codes hrp).

Definition bech32_verify (hrp s : string) : bool :=
  let n := S (String.length hrp) in
  let data := String.substring n (String.length s - n) s in
  match mapM (fun c => index_of c bech32_charset 0) (String.list_ascii_of_string data) with
  | Some vs => foldl polymod_step 1 (hrp_expand hrp ++ vs) =? 1
  | None => false
  end.

(** The market over the oracle discharges the interface. *)
#[export] Instance treasury_keepers {B K D} `{MathOps} `{CoinOps} :
    TreasuryKeepers (Market.State B (OracleState.State B K D)) := {|
  ComputeInternalSwap s c d := Market.ComputeInternalSwap s c d;
  Whitelist s := map d_Name <$> OracleState.get_param p_Whitelist (Market.st_oracle s);
|}.

#[export] Instance treasury_keepers_laws {B K D} `{MathOps} `{CoinOps} `{!MathLaws} `{!CoinLaws} :
  TreasuryKeepersLaws (Market.State B (OracleState.State B K D)).
Proof.
  split; intros o c d c' E; apply Market.ComputeInternalSwap_ok in E as (? & Hpos & Heq); [done|].
  destruct (decide (DDenom c = d)) as [Hd|Hd]; [by rewrite (Heq Hd)|].
  specialize (Hpos Hd). lia.
Qed.

(** ** Lemmas *)
Section lemmas.
Context {B K D O : Type} `{BankOps B} `{StakingOps K} `{FeePoolOps D} `{TreasuryKeepers O}.
Context `{MathOps} `{CoinOps} `{DecCoinsOps} `{CoinSortOps} `{AddrCodec}.
Context `{!MathLaws} `{!CoinLaws}.
Implicit Types s : State B K D O.

Definition policy_ok (pc : PolicyConstraints) : Prop :=
  RateMin pc <= RateMax pc /\ 0 <= ChangeRateMax pc.
Definition in_bounds (pc : PolicyConstraints) (r : Z) : Prop := RateMin pc <= r <= RateMax pc.

Lemma Clamp_ok pc prev new r : Clamp pc prev new = Ok r ->
  policy_ok pc ->
  in_bounds pc r /\ (in_bounds pc prev -> Z.abs (r - prev) <= ChangeRateMax pc) /\
  (in_bounds pc new -> Z.abs (new - prev) <= ChangeRateMax pc -> r = new).
Proof.
  unfold Clamp, policy_ok, in_bounds. intros E Hpc.
  apply res_bind_ok in E as (delta & Ed & E). apply res_bind_ok in E as (n & En & E).
  injection E as <-. math_inv.
  assert (n = new \/ n = prev + ChangeRateMax pc \/ n = prev - ChangeRateMax pc) as Hn.
  { res_inv En; math_inv; subst; auto. }
  assert ((prev <= new -> prev <= n <= new) /\ (new <= prev -> new <= n <= prev) /\
    Z.abs (n - prev) <= ChangeRateMax pc /\ (Z.abs (new - prev) <= ChangeRateMax pc -> n = new)).
  { destruct (Z.ltb_spec prev new);
      [destruct (Z.ltb_spec (ChangeRateMax pc) delta)|
       destruct (Z.ltb_spec (ChangeRateMax pc) (Z.abs delta))];
      try (injection En as <-); math_inv; subst; lia. }
  destruct (Z.ltb_spec n (RateMin pc)); [|destruct (Z.ltb_spec (RateMax pc) n)]; lia.
Qed.

Lemma UpdateTaxPolicy_ok ctx s r s' : UpdateTaxPolicy ctx s = (Ok r, s') ->
  exists pc new, p_TaxPolicy (st_params s) = Some pc /\ Clamp pc (GetTaxRate s) new = Ok r /\
    s' = on_taxrate (fun _ => Some r) s.
Proof.
  unfold UpdateTaxPolicy. intros E. m_bind E as s0 E0. m_inv E0.
  m_lift E as y Ey. m_lift E as m Em. m_lift E as n En. m_lift E as pc Epc. m_lift E as r' Er.
  unfold SetTaxRate in E. m_inv E. exists pc, n.
  unfold GetParams in Epc. by destruct (p_TaxPolicy (st_params s0)); simplify_eq/=.
Qed.

Lemma UpdateRewardPolicy_ok ctx s r s' : UpdateRewardPolicy ctx s = (Ok r, s') ->
  exists pc new, p_RewardPolicy (st_params s) = Some pc /\
    Clamp pc (GetRewardWeight s) new = Ok r /\ s' = on_weight (fun _ => Some r) s.
Proof.
  unfold UpdateRewardPolicy. intros E. m_bind E as s0 E0. m_inv E0.
  m_lift E as y Ey. m_lift E as m Em. m_lift E as n En. m_lift E as pc Epc. m_lift E as r' Er.
  unfold SetRewardWeight in E. m_inv E. exists pc, n.
  unfold GetParams in Epc. by destruct (p_RewardPolicy (st_params s0)); simplify_eq/=.
Qed.

Lemma tax_cap_loop_ok cap wl acc s r s' : tax_cap_loop cap wl acc s = (Ok r, s') ->
  exists caps, s' = on_caps (fun _ => caps) s.
Proof.
  revert acc s. induction wl as [|d wl IH]; simpl; intros acc s E.
  - m_inv E. exists (st_caps s'). by destruct s'.
  - m_bind E as acc' Ed. apply IH in E as [caps ->].
    assert (exists c0, x = on_caps (fun _ => c0) s) as [c0 ->]; [|by exists caps].
    unfold tax_cap_step in Ed. destruct (String.eqb _ _).
    { m_inv Ed. exists (st_caps x). by destruct x. }
    m_bind Ed as s0 E0. m_inv E0. destruct (ComputeInternalSwap _ _ _).
    + m_lift Ed as [c ?] Ec. unfold SetTaxCap in Ed. m_inv Ed. by eexists.
    + m_inv Ed. exists (st_caps x). by destruct x.
    + m_inv Ed.
Qed.

Lemma UpdateTaxCap_ok s r s' : UpdateTaxCap s = (Ok r, s') ->
  exists caps, s' = on_caps (fun _ => caps) s.
Proof.
  unfold UpdateTaxCap. intros E. m_bind E as s0 E0. m_inv E0.
  m_lift E as pc Epc. m_lift E as dc Edc. m_bind E as wl Ewl.
  apply must_ok in Ewl as [_ ->]. by apply tax_cap_loop_ok in E.
Qed.

(** What the indicators of an epoch are computed from. *)
Definition indicators_of (ctx : Ctx) s (tsl tr sr : Z) : State B K D O :=
  on_sr (<[GetEpoch ctx := sr]>) (on_proceeds (fun _ => Some [])
    (on_tr (<[GetEpoch ctx := tr]>) (on_tsl (<[GetEpoch ctx := tsl]>) s))).

Lemma UpdateIndicators_ok ctx s u s' : UpdateIndicators ctx s = (Ok u, s') ->
  exists tsl rewards tr seigniorage,
    bonded_or_zero s = Ok tsl /\
    NewDecCoinsFromCoins (PeekEpochTaxProceeds s) = Ok rewards /\
    alignCoins s rewards MicroDoDenom = Ok tr /\
    PeekEpochSeigniorage s = Ok seigniorage /\
    s' = indicators_of ctx s tsl tr (GetRewardWeight s * seigniorage).
Proof.
  unfold UpdateIndicators. intros E. m_bind E as s0 E0. m_inv E0.
  m_lift E as tsl Etsl. m_bind E as [] E1. unfold SetTSL in E1. m_inv E1.
  m_bind E as s1 E1. m_inv E1. m_lift E as rewards Er. m_lift E as tr Etr.
  m_bind E as [] E1. unfold SetTR in E1. m_inv E1.
  m_bind E as [] E1. unfold SetEpochTaxProceeds in E1. m_inv E1.
  m_bind E as s1 E1. m_inv E1. m_lift E as sg Esg. m_lift E as amt Eamt.
  m_lift E as dc Edc. m_lift E as sr Esr. unfold SetSR in E. m_inv E.
  exists tsl, rewards, tr, sg. split_and!; try done.
  unfold indicators_of. do 2 f_equal. math_inv. subst.
  unfold alignCoins, align_step in Esr. simpl in Esr. apply res_bind_ok in Esr as (z & Ez & Esr).
  injection Esr as <-. math_inv. subst. unfold LegacyZeroDec. done.
Qed.

Lemma RecordEpochInitialIssuance_ok s u s' : RecordEpochInitialIssuance s = (Ok u, s') ->
  exists wl, Whitelist (st_keepers s) = Ok wl /\
    s' = on_issuance (fun _ => Some (CoinsSort
           (supply_coin s MicroDoDenom :: map (supply_coin s) wl))) s.
Proof.
  unfold RecordEpochInitialIssuance. intros E. m_bind E as s0 E0. m_inv E0. m_bind E as wl Ewl.
  apply must_ok in Ewl as [Ewl ->].
  unfold SetEpochInitialIssuance in E. m_inv E. by exists wl.
Qed.

Lemma record_no_err s e s' : RecordEpochInitialIssuance s <> (Err e, s').
Proof.
  unfold RecordEpochInitialIssuance, mbind, M_bind, get, must. simpl.
  by destruct (Whitelist (st_keepers s)).
Qed.

Lemma deferred_ok {A} (d : M (State B K D O) unit) (body : M (State B K D O) A) s a s' :
  (forall s e s', d s <> (Err e, s')) ->
  deferred d body s = (Ok a, s') -> exists s1, body s = (Ok a, s1) /\ d s1 = (Ok tt, s').
Proof.
  unfold deferred. intros Hd. destruct (body s) as [r s1] eqn:Eb.
  destruct (d s1) as [[[]|e|] s2] eqn:Ed; intros E; simplify_eq; [by exists s1|].
  by apply Hd in Ed.
Qed.

(** A burn of the burn account and nothing else. *)
Definition burnt s s' : Prop :=
  exists b, s' = on_bank (fun _ => b) s /\
    (BurnCoins BurnModuleName (GetAllBalances (st_bank s) (ModuleAddress BurnModuleName))
       (st_bank s) = Ok b \/
     (CoinsIsZero (GetAllBalances (st_bank s) (ModuleAddress BurnModuleName)) = true /\
      b = st_bank s)).

Lemma BurnCoinsFromBurnAccount_ok s u s' : BurnCoinsFromBurnAccount s = (Ok u, s') -> burnt s s'.
Proof.
  unfold BurnCoinsFromBurnAccount. intros E. m_bind E as s0 E0. m_inv E0.
  destruct (negb _) eqn:C.
  - unfold or_panic, treasury_bank in E. destruct (call_on _ _ _ s0) as [[[]|e|] s1] eqn:Ec;
      simplify_eq. apply call_on_ok in Ec as (b & Eb & ->). res_inv Eb. exists b. auto.
  - m_inv E. zbool. exists (st_bank s'). split; [by destruct s'|]. auto.
Qed.

(** The states an end of block goes through. *)
Definition policy_updated s s' : Prop :=
  exists tp rp tnew wnew t w caps,
    p_TaxPolicy (st_params s) = Some tp /\ Clamp tp (GetTaxRate s) tnew = Ok t /\
    p_RewardPolicy (st_params s) = Some rp /\ Clamp rp (GetRewardWeight s) wnew = Ok w /\
    s' = on_caps (fun _ => caps) (on_weight (fun _ => Some w) (on_taxrate (fun _ => Some t) s)).

Definition epoch_ended (ctx : Ctx) s s' : Prop :=
  exists s1 s2 wl,
    UpdateIndicators ctx s = (Ok tt, s1) /\ (s2 = s1 \/ policy_updated s1 s2) /\
    Whitelist (st_keepers s2) = Ok wl /\
    s' = on_issuance (fun _ => Some (CoinsSort
           (supply_coin s2 MicroDoDenom :: map (supply_coin s2) wl))) s2.

Lemma EndBlocker_ok ctx s u s' : EndBlocker ctx s = (Ok u, s') ->
  exists s1 last, burnt s s1 /\ IsPeriodLastBlock ctx BlocksPerWeek = Ok last /\
    (if last then epoch_ended ctx s1 s' else s' = s1).
Proof.
  unfold EndBlocker. intros E. m_bind E as [] E0. apply BurnCoinsFromBurnAccount_ok in E0.
  m_lift E as last El. exists x, last. split_and!; [done..|].
  destruct last; simpl in E; [|by m_inv E].
  apply deferred_ok in E as (s2 & E & Er); [|apply record_no_err].
  apply RecordEpochInitialIssuance_ok in Er as (wl & Hwl & ->).
  m_bind E as [] Ei. exists x0, s2, wl. split_and!; try done.
  m_bind E as s3 E3. m_inv E3. m_lift E as pr Epr. destruct (_ <? _); [m_inv E; by left|].
  right. m_bind E as t Et. m_bind E as w Ew. m_bind E as caps Ec. m_inv E.
  apply UpdateTaxPolicy_ok in Et as (tp & tnew & Htp & Ht & ->).
  apply UpdateRewardPolicy_ok in Ew as (rp & wnew & Hrp & Hw & ->).
  apply UpdateTaxCap_ok in Ec as (cs & ->). exists tp, rp, tnew, wnew, t, w, cs. done.
Qed.

(** ** The rates between two changes of the parameters

    A step of the chain seen from the treasury: an end of block, the record
    of collected taxes, a proposal on the exemption list, or anything the
    other modules do to the state they own.  The index counts the ends of an
    epoch. *)
Definition ends_epoch (ctx : Ctx) : nat :=
  match IsPeriodLastBlock ctx BlocksPerWeek with Ok true => 1 | _ => 0 end.

Inductive reach : nat -> State B K D O -> State B K D O -> Prop :=
| reach_refl s : reach 0 s s
| reach_end_block n ctx s s1 s2 : reach n s s1 ->
    EndBlocker ctx s1 = (Ok tt, s2) -> reach (n + ends_epoch ctx) s s2
| reach_taxes n delta s s1 : reach n s s1 ->
    reach n s (deliver (RecordEpochTaxProceeds delta) s1)
| reach_proposal n content s s1 : reach n s s1 ->
    reach n s (deliver (NewProposalHandler content) s1)
| reach_others n s s1 s2 : reach n s s1 ->
    (st_params s2, st_taxrate s2, st_weight s2) = (st_params s1, st_taxrate s1, st_weight s1) ->
    reach n s s2.

(** The part of the state the policy owns. *)
Definition policy_part s : Params * option Z * option Z :=
  (st_params s, st_taxrate s, st_weight s).

Lemma RecordEpochTaxProceeds_frame delta s u s' :
  RecordEpochTaxProceeds delta s = (Ok u, s') -> policy_part s' = policy_part s.
Proof.
  unfold RecordEpochTaxProceeds. intros E. destruct (CoinsIsZero _); [by m_inv E|].
  m_bind E as p Ep. m_inv Ep. m_lift E as p2 Ep. unfold SetEpochTaxProceeds in E. by m_inv E.
Qed.

Lemma NewProposalHandler_frame c s u s' :
  NewProposalHandler c s = (Ok u, s') -> policy_part s' = policy_part s.
Proof.
  destruct c; simpl; intros E; [| |by m_inv E].
  - eapply forM_frame; [|exact E]. clear. intros x s u s' E.
    unfold AddBurnTaxExemptionAddress in E. m_bind E as a Ea. apply must_ok in Ea as [_ ->].
    by m_inv E.
  - eapply forM_frame; [|exact E]. clear. intros x s u s' E.
    unfold RemoveBurnTaxExemptionAddress in E. m_bind E as a Ea. apply must_ok in Ea as [_ ->].
    by m_inv E.
Qed.

Definition rate_step (pc : PolicyConstraints) (n : nat) (r r' : Z) : Prop :=
  in_bounds pc r' /\ Z.abs (r' - r) <= Z.of_nat n * ChangeRateMax pc.

Lemma EndBlocker_rates ctx s u s' tp rp : EndBlocker ctx s = (Ok u, s') ->
  p_TaxPolicy (st_params s) = Some tp -> p_RewardPolicy (st_params s) = Some rp ->
  policy_ok tp -> policy_ok rp -> in_bounds tp (GetTaxRate s) -> in_bounds rp (GetRewardWeight s) ->
  st_params s' = st_params s /\
  rate_step tp (ends_epoch ctx) (GetTaxRate s) (GetTaxRate s') /\
  rate_step rp (ends_epoch ctx) (GetRewardWeight s) (GetRewardWeight s').
Proof.
  intros E Htp Hrp Hpt Hpr Ht Hr.
  apply EndBlocker_ok in E as (s1 & last & (b & -> & _) & Hl & E).
  unfold ends_epoch, rate_step. rewrite Hl. 
  destruct last; [|by subst; split_and!; try done; rewrite Z.sub_diag; simpl; lia].
  destruct E as (s2 & s3 & wl & Ei & Hs3 & _ & ->).
  apply UpdateIndicators_ok in Ei as (tsl & rw & tr & sg & _ & _ & _ & _ & ->).
  destruct Hpt as [Hpt1 Hpt2], Hpr as [Hpr1 Hpr2].
  destruct Hs3 as [->|(tp' & rp' & tn & wn & t & w & caps & Htp' & Ect & Hrp' & Ecw & ->)].
  { split_and!; try done; rewrite Z.sub_diag; simpl; lia. }
  simpl in Htp', Hrp'. simplify_eq. split; [done|].
  apply Clamp_ok in Ect as (Hb1 & Hd1 & _); [|done]. apply Clamp_ok in Ecw as (Hb2 & Hd2 & _); [|done].
  specialize (Hd1 Ht). specialize (Hd2 Hr). split; (split; [done|]).
  - by rewrite Z.mul_1_l.
  - by rewrite Z.mul_1_l.
Qed.

Lemma policy_frame s1 s2 : policy_part s2 = policy_part s1 -> st_params s2 = st_params s1 /\
  GetTaxRate s2 = GetTaxRate s1 /\ GetRewardWeight s2 = GetRewardWeight s1.
Proof. intros Hs. unfold policy_part, GetTaxRate, GetRewardWeight in *. by injection Hs as -> -> ->. Qed.

(** Over any run without a change of the parameters the rates stay within
    their policies. *)
Lemma reach_bounds n s s' tp rp : reach n s s' ->
  p_TaxPolicy (st_params s) = Some tp -> p_RewardPolicy (st_params s) = Some rp ->
  policy_ok tp -> policy_ok rp -> in_bounds tp (GetTaxRate s) -> in_bounds rp (GetRewardWeight s) ->
  st_params s' = st_params s /\ in_bounds tp (GetTaxRate s') /\ in_bounds rp (GetRewardWeight s').
Proof.
  intros Hreach Htp Hrp Hpt Hpr Ht Hr.
  induction Hreach as [s|n ctx s s1 s2 Hs IH E|n delta s s1 Hs IH|n c s s1 Hs IH|n s s1 s2 Hs IH E];
    [done|destruct (IH Htp Hrp Ht Hr) as (Hp & Hb1 & Hb2)..].
  - rewrite <- Hp in Htp, Hrp.
    destruct (EndBlocker_rates _ _ _ _ _ _ E Htp Hrp Hpt Hpr Hb1 Hb2) as (Hp2 & [? ?] & [? ?]).
    split_and!; try done. congruence.
  - apply deliver_ind; [done|]. intros u s2 E%RecordEpochTaxProceeds_frame.
    by apply policy_frame in E as (-> & -> & ->).
  - apply deliver_ind; [done|]. intros u s2 E%NewProposalHandler_frame.
    by apply policy_frame in E as (-> & -> & ->).
  - by apply policy_frame in E as (-> & -> & ->).
Qed.

(** C27: between two changes of the parameters the tax rate and the reward
    weight never leave the interval of their policy, whatever blocks, taxes,
    proposals and actions of other modules happen, and they move by at most
    one [ChangeRateMax] per epoch that ended. *)
Theorem rates_follow_policy n s s' tp rp : reach n s s' ->
  p_TaxPolicy (st_params s) = Some tp -> p_RewardPolicy (st_params s) = Some rp ->
  policy_ok tp -> policy_ok rp -> in_bounds tp (GetTaxRate s) -> in_bounds rp (GetRewardWeight s) ->
  st_params s' = st_params s /\
  in_bounds tp (GetTaxRate s') /\ in_bounds rp (GetRewardWeight s') /\
  Z.abs (GetTaxRate s' - GetTaxRate s) <= Z.of_nat n * ChangeRateMax tp /\
  Z.abs (GetRewardWeight s' - GetRewardWeight s) <= Z.of_nat n * ChangeRateMax rp.
Proof.
  intros Hreach Htp Hrp Hpt Hpr Ht Hr.
  destruct (reach_bounds n s s' tp rp) as (Hp & Hb1 & Hb2); try done. split_and!; try done;
    clear Hp Hb1 Hb2;
    (induction Hreach as [s|n ctx s s1 s2 Hs IH E|n delta s s1 Hs IH|n c s s1 Hs IH|n s s1 s2 Hs IH E];
     [lia|specialize (IH Htp Hrp Ht Hr)..]);
    try (apply deliver_ind; [done|]; intros u s2 E);
    try (first [apply RecordEpochTaxProceeds_frame in E|apply NewProposalHandler_frame in E|idtac];
         by apply policy_frame in E as (_ & ? & ?); congruence);
    destruct (reach_bounds n s s1 tp rp) as (Hp & Hb1 & Hb2); try done; rewrite <- Hp in Htp, Hrp;
    destruct (EndBlocker_rates _ _ _ _ _ _ E Htp Hrp Hpt Hpr Hb1 Hb2) as (_ & [_ ?] & [_ ?]); lia.
Qed.

(** ** The moving windows *)

(** The [w] epochs that end with [cur]. *)
Fixpoint window (cur : Z) (w : nat) : list Z :=
  match w with Datatypes.O => [] | S w => cur :: window (cur - 1) w end.

Lemma indicator_loop_run (f : Z -> res Z) (v : Z -> Z) (bound lim : Z) n : forall sum,
  (forall i, 0 <= i < Z.of_nat n -> f i = Ok (v i) /\ Z.abs (v i) <= lim) ->
  Z.abs sum + Z.of_nat n * lim <= 2 ^ 300 ->
  let w := Z.to_nat (Z.of_nat n - 1 - Z.max bound (-1)) in
  indicator_loop f bound n sum =
    Ok (sum + Zsum (map v (window (Z.of_nat n - 1) w)), Z.of_nat n - 1 - Z.of_nat w).
Proof.
  induction n as [|m IH]; intros sum Hf Hs w.
  - assert (w = Datatypes.O) as -> by (subst w; lia). simpl. do 2 f_equal. lia.
  - cbn [indicator_loop]. destruct (Z.ltb_spec bound (Z.of_nat m)).
    + destruct (Hf (Z.of_nat m)) as [-> Hv]; [lia|]. cbn [mbind res_bind].
      rewrite DecAdd_ok by (unfold dec_safe; nia). cbn [mbind res_bind].
      rewrite IH by (try intros; first [apply Hf; lia|nia]).
      assert (w = S (Z.to_nat (Z.of_nat m - 1 - Z.max bound (-1)))) as -> by (subst w; lia).
      cbn [window map Zsum foldr]. replace (Z.of_nat (S m) - 1) with (Z.of_nat m) by lia.
      unfold Zsum. cbn [foldr]. f_equal. f_equal; lia.
    + assert (w = Datatypes.O) as -> by (subst w; lia). simpl. do 2 f_equal; lia.
Qed.

Definition window_size (ctx : Ctx) (epochs : Z) : nat := Z.to_nat (Z.min epochs (GetEpoch ctx + 1)).

Lemma GetEpoch_bound ctx : 0 <= BlockHeight ctx < 2 ^ 63 -> 0 <= GetEpoch ctx < 2 ^ 63 - 1.
Proof.
  unfold GetEpoch. intros Hh. rewrite Z.quot_div_nonneg by first [lia|reflexivity].
  pose proof (Z.div_pos (BlockHeight ctx) BlocksPerWeek ltac:(lia) ltac:(reflexivity)).
  split; [done|]. apply Z.div_lt_upper_bound; [reflexivity|].
  assert (2 <= BlocksPerWeek) by (vm_compute; discriminate). nia.
Qed.

Lemma run_window_ok ctx epochs (f : Z -> res Z) (v : Z -> Z) :
  0 <= BlockHeight ctx < 2 ^ 63 -> 0 <= epochs < 2 ^ 63 ->
  (forall i, 0 <= i <= GetEpoch ctx -> f i = Ok (v i) /\ Z.abs (v i) <= 2 ^ 200) ->
  run_window (GetEpoch ctx) epochs f =
    Ok (Zsum (map v (window (GetEpoch ctx) (window_size ctx epochs))),
        GetEpoch ctx - Z.of_nat (window_size ctx epochs)).
Proof.
  intros Hh He Hf. pose proof (GetEpoch_bound ctx Hh) as Hc. unfold run_window, window_size.
  rewrite (proj2 (Z.ltb_ge _ _)) by lia.
  rewrite (indicator_loop_run f v _ (2 ^ 200)) by
    (try intros; first [apply Hf; lia|unfold LegacyZeroDec; rewrite Z2Nat.id; lia]).
  assert (i64 (GetEpoch ctx - epochs) = GetEpoch ctx - epochs) as ->
    by (unfold i64; rewrite Z.mod_small; lia).
  rewrite Z2Nat.id by lia. replace (GetEpoch ctx + 1 - 1) with (GetEpoch ctx) by lia.
  replace (GetEpoch ctx - Z.max (GetEpoch ctx - epochs) (-1))
    with (Z.min epochs (GetEpoch ctx + 1)) by lia. done.
Qed.

(** C28: the moving windows of the policy: over a window of [epochs] weeks,
    [sumIndicator] is the sum of the indicator over the last [epochs] epochs,
    or over all of them while fewer have passed, and
    [rollingAverageIndicator] is that sum divided by the number of epochs it
    has, truncated; neither panics. *)
Theorem window_is_mean ctx epochs (f : Z -> res Z) (v : Z -> Z) :
  0 <= BlockHeight ctx < 2 ^ 63 -> 0 <= epochs < 2 ^ 63 ->
  (forall i, 0 <= i <= GetEpoch ctx -> f i = Ok (v i) /\ Z.abs (v i) <= 2 ^ 200) ->
  let n := window_size ctx epochs in
  let total := Zsum (map v (window (GetEpoch ctx) n)) in
  Z.of_nat n = Z.min epochs (GetEpoch ctx + 1) /\
  sumIndicator ctx epochs f = Ok total /\
  rollingAverageIndicator ctx epochs f =
    Ok (if (n =? 0)%nat then 0 else Z.quot total (Z.of_nat n)).
Proof.
  intros Hh He Hf n total. pose proof (GetEpoch_bound ctx Hh).
  split; [subst n; unfold window_size; lia|].
  unfold sumIndicator, rollingAverageIndicator.
  rewrite (run_window_ok ctx epochs f v) by done. cbn [mbind res_bind].
  split; [done|]. fold n. fold total.
  replace (GetEpoch ctx - (GetEpoch ctx - Z.of_nat n)) with (Z.of_nat n) by lia.
  destruct (Nat.eqb_spec n 0) as [Hn|Hn].
  - rewrite Hn. simpl. subst total. by rewrite Hn.
  - rewrite (proj2 (Z.eqb_neq _ _)) by lia. by rewrite DecQuoInt64_nz by lia.
Qed.
End lemmas.

(** ** The bank side *)
Section bank_side.
Context {B K D O : Type} `{BankOps B} `{StakingOps K} `{FeePoolOps D} `{TreasuryKeepers O}.
Context `{MathOps} `{CoinOps} `{DecCoinsOps} `{CoinSortOps} `{AddrCodec}.
Context `{!MathLaws} `{!CoinLaws} `{!BankLaws B} `{!CoinSortLaws} `{!DecCoinsLaws} `{!FeePoolLaws D}.
Implicit Types s : State B K D O.

Lemma burnt_amounts s s' : burnt s s' ->
  let burn := ModuleAddress (B := B) BurnModuleName in
  (forall d, GetBalance (st_bank s') burn d = 0) /\
  (forall a d, a <> burn -> GetBalance (st_bank s') a d = GetBalance (st_bank s) a d) /\
  (forall d, GetSupply (st_bank s') d
     = GetSupply (st_bank s) d - GetBalance (st_bank s) burn d).
Proof.
  intros (b & -> & [Hb|[Hz ->]]) burn; simpl.
  - apply Burn_inv in Hb as [[Hbal Hsup] _]. fold burn in Hbal, Hsup.
    split_and!; intros; rewrite ?Hbal, ?Hsup, GetAllBalances_amount; unfold at_addr.
    + rewrite String.eqb_refl. lia.
    + rewrite (proj2 (String.eqb_neq _ _)) by done. lia.
    + lia.
  - assert (forall d, GetBalance (st_bank s) burn d = 0) as Hzero.
    { intros d. rewrite <- GetAllBalances_amount. by apply CoinsIsZero_amount. }
    split_and!; intros; rewrite ?Hzero; [done|done|lia].
Qed.

Lemma epoch_ended_bank ctx s s' : epoch_ended ctx s s' -> st_bank s' = st_bank s.
Proof.
  intros (s1 & s2 & wl & Ei & Hs2 & _ & ->).
  apply UpdateIndicators_ok in Ei as (? & ? & ? & ? & _ & _ & _ & _ & ->).
  destruct Hs2 as [->|(? & ? & ? & ? & ? & ? & ? & _ & _ & _ & _ & ->)]; done.
Qed.

(** every end of block empties the burn account: its balances become
    zero, the supply falls by exactly what it held and no other balance
    changes. *)
Theorem burn_account_emptied ctx s u s' : EndBlocker ctx s = (Ok u, s') ->
  let burn := ModuleAddress (B := B) BurnModuleName in
  (forall d, GetBalance (st_bank s') burn d = 0) /\
  (forall a d, a <> burn -> GetBalance (st_bank s') a d = GetBalance (st_bank s) a d) /\
  (forall d, GetSupply (st_bank s') d
     = GetSupply (st_bank s) d - GetBalance (st_bank s) burn d).
Proof.
  intros E. apply EndBlocker_ok in E as (s1 & last & Hb & _ & E).
  apply burnt_amounts in Hb. destruct last; [|by subst].
  apply epoch_ended_bank in E. by rewrite E.
Qed.

(** A recorded issuance answers the supply of [udo], although the list has a
    coin of it twice when the whitelist names it. *)
Lemma recorded_supply s wl :
  AmountOf (CoinsSort (supply_coin s MicroDoDenom :: map (supply_coin s) wl)) MicroDoDenom
  = GetSupply (st_bank s) MicroDoDenom.
Proof.
  change MicroDoDenom with (Denom (supply_coin s MicroDoDenom)) at 2.
  rewrite AmountOf_sort; [done|by left|].
  intros c [->|Hc]%elem_of_cons Hd; [done|].
  apply list_elem_of_fmap in Hc as (d & -> & _). simpl in Hd. by subst.
Qed.

(** at the last block of an epoch the treasury closes its books: the
    bonded tokens, the value of the collected taxes and the weighted
    seigniorage are stored under the epoch, the proceeds are reset, and the
    supply of [udo] is recorded, so that until the next record the
    seigniorage is the amount by which the supply has fallen since, and never
    negative. *)
Theorem epoch_books_closed ctx s u s' :
  EndBlocker ctx s = (Ok u, s') -> IsPeriodLastBlock ctx BlocksPerWeek = Ok true ->
  exists s1 rewards, burnt s s1 /\
    bonded_or_zero s1 = Ok (GetTSL s' (GetEpoch ctx)) /\
    NewDecCoinsFromCoins (PeekEpochTaxProceeds s) = Ok rewards /\
    alignCoins s1 rewards MicroDoDenom = Ok (GetTR s' (GetEpoch ctx)) /\
    GetSR s' (GetEpoch ctx) = GetRewardWeight s *
      Z.max 0 (AmountOf (GetEpochInitialIssuance s) MicroDoDenom
               - GetSupply (st_bank s1) MicroDoDenom) /\
    PeekEpochTaxProceeds s' = [] /\
    forall s2 r, st_issuance s2 = st_issuance s' -> PeekEpochSeigniorage s2 = Ok r ->
      r = Z.max 0 (GetSupply (st_bank s') MicroDoDenom - GetSupply (st_bank s2) MicroDoDenom).
Proof.
  intros E Hl. apply EndBlocker_ok in E as (s1 & last & Hb & Hl' & E).
  rewrite Hl in Hl'. injection Hl' as <-. pose proof Hb as (b & Hs1 & _).
  assert (st_bank s' = st_bank s1) as Hbank by by eapply epoch_ended_bank.
  destruct E as (s2 & s3 & wl & Ei & Hs3 & _ & Hs').
  apply UpdateIndicators_ok in Ei as (tsl & rw & tr & sg & Ht & Hrw & Htr & Hsg & ->).
  assert (GetTSL s' (GetEpoch ctx) = tsl /\ GetTR s' (GetEpoch ctx) = tr /\
    GetSR s' (GetEpoch ctx) = GetRewardWeight s1 * sg /\ PeekEpochTaxProceeds s' = [])
    as (Q1 & Q2 & Q3 & Q4).
  { unfold GetTSL, GetTR, GetSR, PeekEpochTaxProceeds.
    destruct Hs3 as [->|(? & ? & ? & ? & ? & ? & ? & _ & _ & _ & _ & ->)]; subst s';
      simpl; by rewrite !lookup_insert_eq. }
  exists s1, rw. rewrite Q1, Q2, Q3, Q4.
  split_and!; try done; [by subst s1| |].
  - unfold PeekEpochSeigniorage in Hsg. apply res_bind_ok in Hsg as (x & Hx & Hsg).
    injection Hsg as <-. math_inv. subst s1. unfold GetRewardWeight, GetEpochInitialIssuance in *.
    simpl in Hx |- *. f_equal. destruct (Z.ltb_spec x 0); lia.
  - intros s4 r Hi Hr. unfold PeekEpochSeigniorage, GetEpochInitialIssuance in Hr.
    rewrite Hi in Hr. subst s'. simpl in Hr. rewrite recorded_supply in Hr.
    apply res_bind_ok in Hr as (x & Hx & Hr). injection Hr as <-. math_inv.
    simpl in *. destruct (Z.ltb_spec x 0); lia.
Qed.

(** Bank calls whose error is a panic. *)
Lemma or_panic_ok (f : B -> res B) s u s' : or_panic (treasury_bank f) s = (Ok u, s') ->
  exists b, f (st_bank s) = Ok b /\ s' = on_bank (fun _ => b) s.
Proof.
  unfold or_panic, treasury_bank. destruct (call_on _ _ _ s) as [[[]|e|] s1] eqn:Ec; intros E;
    simplify_eq. apply call_on_ok in Ec as (b & Eb & ->). res_inv Eb. eauto.
Qed.

Lemma pool_added pool dcs pool' d :
  DecCoinsIsValid pool = true -> Forall (fun c => 0 <= DAmount c) dcs ->
  foldRes DecCoinsAdd pool dcs = Ok pool' ->
  DecCoinsIsValid pool' = true /\
  DecAmountOf pool' d
  = DecAmountOf pool d + Zsum (map (fun c => if String.eqb (DDenom c) d then DAmount c else 0) dcs).
Proof.
  intros Hv Hall. revert pool Hv. induction Hall as [|c dcs Hc Hall IH]; simpl; intros pool Hv E.
  - injection E as <-. split; [done|]. unfold Zsum. simpl. lia.
  - apply res_bind_ok in E as (p1 & Ep & E).
    apply IH in E as [? ->]; [|by eapply DecCoinsAdd_valid].
    rewrite (DecCoinsAdd_inv _ _ _ d Hv Hc Ep). unfold Zsum. simpl. split; [done|lia].
Qed.

(** The three transfers of a settlement. *)
Lemma settle_runs dist s u s' sg :
  SettleSeigniorage dist s = (Ok u, s') -> PeekEpochSeigniorage s = Ok sg -> 0 < sg ->
  exists b1 b2 b3 c1 c2 c3 burn pool dcs pool',
    burn = Z.quot (GetRewardWeight s * sg) Precision /\ 0 <= burn <= sg /\
    NewCoins [mkCoin MicroDoDenom sg] = Ok c1 /\
    NewCoins [mkCoin MicroDoDenom burn] = Ok c2 /\
    NewCoins [mkCoin MicroDoDenom (sg - burn)] = Ok c3 /\
    MintCoins ModuleName c1 (st_bank s) = Ok b1 /\ BurnCoins ModuleName c2 b1 = Ok b2 /\
    SendCoinsFromModuleToModule ModuleName dist c3 b2 = Ok b3 /\
    FeePool_Get (st_distr s) = Ok pool /\ NewDecCoinsFromCoins c3 = Ok dcs /\
    foldRes DecCoinsAdd pool dcs = Ok pool' /\
    s' = on_distr (FeePool_Set pool') (on_bank (fun _ => b3) s).
Proof.
  unfold SettleSeigniorage. intros E Hsg Hpos. m_bind E as s0 E0. m_inv E0.
  m_lift E as sg' Esg. rewrite Hsg in Esg. injection Esg as <-.
  rewrite (proj2 (Z.leb_gt _ _) Hpos) in E.
  m_lift E as dc Edc. m_lift E as [sc rest] Esc. m_lift E as c1 Ec1.
  apply NewDecCoin_inv in Edc as (-> & _ & _).
  apply DecCoinTruncate_inv in Esc as (_ & -> & _). cbn [DDenom DAmount Amount] in E, Ec1.
  rewrite Z.div_mul in E, Ec1 by done.
  rewrite (NewCoins_valid _ _ Ec1) in E. m_bind E as [] E1. apply or_panic_ok in E1 as (b1 & Hb1 & ->).
  m_lift E as bd Ebd. m_lift E as burn Eburn. apply DecMulInt_inv in Ebd as ->.
  apply DecTruncateInt_inv in Eburn. m_lift E as bc Ebc. apply NewCoin_inv in Ebc as (-> & Hb0 & _).
  m_lift E as c2 Ec2. rewrite (NewCoins_valid _ _ Ec2) in E. m_bind E as [] E1.
  apply or_panic_ok in E1 as (b2 & Hb2 & ->).
  m_lift E as left_ El. apply IntSub_inv in El as ->. m_lift E as lc Elc.
  apply NewCoin_inv in Elc as (-> & Hl0 & _). m_lift E as c3 Ec3.
  rewrite (NewCoins_valid _ _ Ec3) in E. m_bind E as [] E1.
  apply or_panic_ok in E1 as (b3 & Hb3 & ->). m_bind E as s1 E1. unfold get in E1. injection E1 as <- <-.
  m_bind E as pool Ep. apply must_ok in Ep as [Ep ->]. m_lift E as dcs Ed. m_lift E as pool' Ep'.
  unfold modify in E. injection E as _ <-. exists b1, b2, b3, c1, c2, c3, burn, pool, dcs, pool'.
  split_and!; try done; lia.
Qed.

(** C31: a settlement of seigniorage conserves it: of the [sg] coins minted,
    the reward weight's share (rounded down) is burnt and the rest reaches
    the distribution module, whose community pool is credited with exactly
    that rest; the treasury keeps nothing and no other balance changes.  This
    is about the function by itself: its call at the end of an epoch is
    commented out in [abci.go], and the specification of the module gives the
    burnt share to the oracle. *)
Theorem seigniorage_conserved dist s u s' sg :
  SettleSeigniorage dist s = (Ok u, s') -> PeekEpochSeigniorage s = Ok sg -> 0 < sg ->
  ModuleAddress (B := B) dist <> ModuleAddress (B := B) ModuleName ->
  exists burn pool pool',
    burn = Z.quot (GetRewardWeight s * sg) Precision /\ 0 <= burn <= sg /\
    (forall d, GetSupply (st_bank s') d
       = GetSupply (st_bank s) d + if String.eqb MicroDoDenom d then sg - burn else 0) /\
    (forall a d, GetBalance (st_bank s') a d
       = GetBalance (st_bank s) a d
         + at_addr (ModuleAddress (B := B) dist) a (if String.eqb MicroDoDenom d then sg - burn else 0)) /\
    FeePool_Get (st_distr s) = Ok pool /\ FeePool_Get (st_distr s') = Ok pool' /\
    (DecCoinsIsValid pool = true -> DecCoinsIsValid pool' = true /\
     forall d, DecAmountOf pool' d
       = DecAmountOf pool d + if String.eqb MicroDoDenom d then (sg - burn) * Precision else 0).
Proof.
  intros E Hsg Hpos Hne. apply (settle_runs _ _ _ _ sg) in E; [|done..].
  destruct E as (b1 & b2 & b3 & c1 & c2 & c3 & burn & pool & dcs & pool' & Hburn & Hr & Hc1 & Hc2 &
    Hc3 & Hm & Hb & Hs & Hp & Hd & Hp' & ->).
  exists burn, pool, pool'. split; [done|]. split; [done|].
  split; [|split; [|split; [done|split]]].
  1,2: apply Mint_inv in Hm as [Hm1 Hm2]; apply Burn_inv in Hb as [[Hb1 Hb2] _];
    apply SendMM_inv in Hs as (Hs1 & Hs2 & _); cbn [st_bank on_distr on_bank]; intros.
  - rewrite Hs2, Hb2, Hm2, (NewCoins_inv _ _ d Hc1), (NewCoins_inv _ _ d Hc2).
    cbn [coins_sum Denom Amount].
    destruct (String.eqb MicroDoDenom d); lia.
  - rewrite Hs1, Hb1, Hm1, (NewCoins_inv _ _ d Hc1), (NewCoins_inv _ _ d Hc2),
      (NewCoins_inv _ _ d Hc3). cbn [coins_sum Denom Amount]. unfold at_addr.
    repeat case_match; lia.
  - simpl. apply FeePool_get_set.
  - intros Hv. pose proof (NewCoins_valid _ _ Hc3) as Hv3.
    apply (NewDecCoinsFromCoins_inv _ _ Hv3) in Hd as ->.
    assert (Forall (fun c => 0 <= DAmount c)
      (map (fun c => mkDecCoin (Denom c) (Amount c * Precision)) c3)) as Hall.
    { apply Forall_forall. intros c (c' & -> & Hc')%list_elem_of_fmap. simpl.
      apply (CoinsIsValid_pos _ _ Hv3) in Hc'. unfold Precision. lia. }
    split; [by eapply (pool_added _ _ _ "" Hv Hall)|]. intros d.
    destruct (pool_added _ _ _ d Hv Hall Hp') as [_ ->]. f_equal.
    rewrite map_map. cbn [DDenom DAmount]. transitivity (coins_sum c3 d * Precision).
    + clear. induction c3 as [|c c3 IH]; simpl; [done|]. unfold Zsum in *. simpl. rewrite IH.
      destruct (String.eqb _ _); lia.
    + rewrite <- AmountOf_sum, (NewCoins_inv _ _ d Hc3) by done.
      cbn [coins_sum Denom Amount]. destruct (String.eqb MicroDoDenom d); lia.
Qed.
End bank_side.

(** ** Keys of the store: the maps by epoch may be kept apart *)
Lemma byte_step a b n : 0 <= n ->
  Z.land (Z.shiftr a n) 255 = Z.land (Z.shiftr b n) 255 ->
  Z.shiftr a (n + 8) = Z.shiftr b (n + 8) -> Z.shiftr a n = Z.shiftr b n.
Proof.
  intros Hn. change 255 with (Z.ones 8). rewrite !Z.land_ones by lia.
  rewrite <- !(Z.shiftr_shiftr _ n 8) by lia. rewrite !(Z.shiftr_div_pow2 _ 8) by lia.
  intros H1 H2. rewrite (Z.div_mod (Z.shiftr a n) (2 ^ 8)), H1, H2 by lia.
  by rewrite <- Z.div_mod by lia.
Qed.

Lemma PutUint64_inj a b : is_u64 a -> is_u64 b -> PutUint64 a = PutUint64 b -> a = b.
Proof.
  unfold is_u64, PutUint64. intros Ha Hb E. cbn [seq map] in E.
  injection E as Q0 Q1 Q2 Q3 Q4 Q5 Q6 Q7.
  change (Z.shiftr a 0 = Z.shiftr b 0).
  do 8 (apply byte_step; [lia|assumption|]).
  rewrite !Z.shiftr_div_pow2, !Z.div_small by lia. done.
Qed.

Lemma epoch_keys_apart e1 e2 : is_i64 e1 -> is_i64 e2 ->
  (GetTRKey e1 = GetTRKey e2 -> e1 = e2) /\ (GetSRKey e1 = GetSRKey e2 -> e1 = e2) /\
  (GetTSLKey e1 = GetTSLKey e2 -> e1 = e2) /\
  GetTRKey e1 <> GetSRKey e2 /\ GetTRKey e1 <> GetTSLKey e2 /\ GetSRKey e1 <> GetTSLKey e2.
Proof.
  intros H1 H2. assert (forall p, GetSubkeyByEpoch p e1 = GetSubkeyByEpoch p e2 -> e1 = e2) as Hinj.
  { intros p E%app_inv_head%PutUint64_inj; unfold is_u64, is_i64, u64 in *;
      [|apply Z.mod_pos_bound; lia..].
    change (2 ^ 64) with 18446744073709551616 in *. Z.div_mod_to_equations. lia. }
  split_and!; [apply Hinj|apply Hinj|apply Hinj|..]; discriminate.
Qed.

(** ** The migration to version 2 *)
Section migration.
Context {B K D O : Type} `{AddrCodec}.
Implicit Types s : State B K D O.

(** The only texts the address package accepts behind the prefix are those
    with a correct checksum. *)
Hypothesis checksum_needed : forall a, String.prefix "do1" a = true ->
  is_ok (AccAddressFromBech32 a) = true -> bech32_verify "do" a = true.

Lemma listed_addresses_fail :
  forallb (fun a => String.prefix "do1" a && negb (bech32_verify "do" a))
    burnTaxExcemptionAddressList = true.
Proof. vm_compute. reflexivity. Qed.

(** The data parts verify with the prefix of the chain they were taken from. *)
Lemma listed_addresses_terra :
  forallb (fun a => bech32_verify "terra" ("terra" +:+ String.substring 2 (String.length a - 2) a))
    burnTaxExcemptionAddressList = true.
Proof. vm_compute. reflexivity. Qed.

Lemma refused_list_panics l s :
  forallb (fun a => String.prefix "do1" a && negb (bech32_verify "do" a)) l = true -> l <> [] ->
  forM AddBurnTaxExemptionAddress l s = (Panic, s).
Proof.
  destruct l as [|a l]; [done|]. cbn [forallb forM]. intros [[Hp Hv]%andb_true_iff _]%andb_true_iff _.
  apply M_bind_panic. unfold AddBurnTaxExemptionAddress. apply M_bind_panic. unfold must.
  specialize (checksum_needed a Hp). destruct (AccAddressFromBech32 a); [|done..].
  by rewrite checksum_needed in Hv.
Qed.

(** the migration from version 1 to 2 cannot succeed: no address of its
    list has a correct checksum for the prefix of this chain, so the first
    [AddBurnTaxExemptionAddress] panics in every state. *)
Theorem migration_panics s : (Migrate1to2 s).1 = Panic.
Proof.
  unfold Migrate1to2, SetBurnSplitRate. erewrite M_bind_run by reflexivity.
  rewrite refused_list_panics; [done|apply listed_addresses_fail|done].
Qed.
End migration.

(** ** Genesis *)
Section genesis.
Context {B K D O : Type} `{BankOps B} `{StakingOps K} `{FeePoolOps D} `{TreasuryKeepers O}.
Context `{MathOps} `{CoinOps} `{DecCoinsOps} `{CoinSortOps} `{AddrCodec}.
Implicit Types s : State B K D O.

Lemma i64_u64 e : 0 <= e < 2 ^ 63 -> i64 (u64 e) = e.
Proof. intros He. unfold i64, u64. rewrite (Z.mod_small e), Z.mod_small by lia. lia. Qed.

Lemma lookup_after (m : gmap Z Z) (g : Z -> Z) e es e' :
  (if bool_decide (e' ∈ es) then Some (g e') else <[e := g e]> m !! e')
  = if bool_decide (e' ∈ e :: es) then Some (g e') else m !! e'.
Proof.
  destruct (decide (e' = e)) as [->|Hne].
  - rewrite lookup_insert_eq, (bool_decide_eq_true_2 (e ∈ e :: es)) by left.
    by case_bool_decide.
  - rewrite lookup_insert_ne by done. rewrite (bool_decide_ext (e' ∈ e :: es) (e' ∈ es)); [done|].
    rewrite elem_of_cons. tauto.
Qed.

(** Writing back the states of a list of epochs. *)
Lemma set_epochs_run s es : forall s1,
  (forall e, e ∈ es -> 0 <= e < 2 ^ 63) ->
  exists tr sr tsl,
    forM set_epoch (map (export_epoch s) es) s1 =
      (Ok tt, on_tsl (fun _ => tsl) (on_sr (fun _ => sr) (on_tr (fun _ => tr) s1))) /\
    (forall e, tr !! e = if bool_decide (e ∈ es) then Some (GetTR s e) else st_tr s1 !! e) /\
    (forall e, sr !! e = if bool_decide (e ∈ es) then Some (GetSR s e) else st_sr s1 !! e) /\
    (forall e, tsl !! e = if bool_decide (e ∈ es) then Some (GetTSL s e) else st_tsl s1 !! e).
Proof.
  induction es as [|e es IH]; intros s1 Hes.
  { exists (st_tr s1), (st_sr s1), (st_tsl s1). split_and!; [by destruct s1|done..]. }
  cbn [map forM]. pose proof (Hes e ltac:(left)) as He.
  erewrite M_bind_run by (unfold set_epoch, SetTR, SetSR, SetTSL; reflexivity).
  cbn [export_epoch Epoch TaxReward SeigniorageReward TotalStakedDo encoded from_option id]. rewrite i64_u64 by done.
  edestruct IH as (tr & sr & tsl & Hrun & H1' & H2' & H3'); [intros; apply Hes; by right|].
  exists tr, sr, tsl. rewrite Hrun. split; [done|].
  split_and!; intros e'; rewrite ?H1', ?H2', ?H3'; cbn [st_tr st_sr st_tsl on_tr on_sr on_tsl];
    apply lookup_after.
Qed.

Lemma set_caps_run caps : forall s1,
  forM (fun cap => SetTaxCap cap.1 (encoded cap.2)) (map (fun kv => (kv.1, Some kv.2)) caps) s1 =
    (Ok tt, on_caps (fun m => foldl (fun acc kv => <[kv.1 := kv.2]> acc) m caps) s1).
Proof.
  induction caps as [|[d c] caps IH]; intros s1; [by destruct s1|].
  cbn [map forM]. erewrite M_bind_run by (unfold SetTaxCap; reflexivity). cbn [encoded from_option id fst snd].
  by rewrite IH.
Qed.

Lemma encoded_gen cs : map encoded_coin (map gen_coin cs) = cs.
Proof. induction cs as [|[d a] cs IH]; [done|]. simpl. by rewrite IH. Qed.

Lemma GenCoinsIsZero_gen cs : GenCoinsIsZero (map gen_coin cs) = Ok (negb (existsb (fun c => negb (Amount c =? 0)) cs)).
Proof. induction cs as [|c cs IH]; [done|]. simpl. by destruct (Amount c =? 0). Qed.

Definition complete (p : Params) : Prop :=
  forallb is_ok (ParamSetPairs p) = true /\ is_Some (p_WindowShort p) /\
  is_Some (p_WindowLong p) /\ is_Some (p_WindowProbation p).

Lemma SetParams_complete p s : complete p -> SetParams p s = (Ok tt, on_params (fun _ => p) s).
Proof.
  intros (Hv & [w1 E1] & [w2 E2] & [w3 E3]). unfold SetParams. rewrite Hv.
  do 2 f_equal. destruct p; simpl in *. by subst.
Qed.

(** a genesis export keeps the parameters, rates, caps, proceeds, the
    recorded issuance and the indicators of every finished epoch: importing
    it into an empty store succeeds and every getter answers as before.  The
    list of addresses exempt from the burn tax is not part of the genesis
    state and is empty afterwards. *)
Theorem treasury_genesis ctx s s0 g last :
  0 <= BlockHeight ctx < 2 ^ 63 -> IsPeriodLastBlock ctx BlocksPerWeek = Ok last ->
  ExportGenesis ctx s = Ok g -> complete (st_params s) ->
  existsb (fun c => negb (Amount c =? 0)) (GetEpochInitialIssuance s) = true ->
  HasModuleAccount (B := B) ModuleName = true -> HasModuleAccount (B := B) BurnModuleName = true ->
  (forall e, e ∉ exported_epochs (GetEpoch ctx) last ->
     st_tr s !! e = None /\ st_sr s !! e = None /\ st_tsl s !! e = None) ->
  st_caps s0 = ∅ -> st_tr s0 = ∅ -> st_sr s0 = ∅ -> st_tsl s0 = ∅ -> st_exempt s0 = ∅ ->
  exists s', InitGenesis g s0 = (Ok tt, s') /\
    st_params s' = st_params s /\ GetTaxRate s' = GetTaxRate s /\
    GetRewardWeight s' = GetRewardWeight s /\ st_caps s' = st_caps s /\
    PeekEpochTaxProceeds s' = PeekEpochTaxProceeds s /\
    GetEpochInitialIssuance s' = GetEpochInitialIssuance s /\
    (forall e, GetTR s' e = GetTR s e /\ GetSR s' e = GetSR s e /\ GetTSL s' e = GetTSL s e) /\
    st_exempt s' = ∅.
Proof.
  intros Hh Hl E Hp Hz Hm1 Hm2 Hep Hc0 Htr0 Hsr0 Htsl0 Hex0.
  unfold ExportGenesis in E. rewrite Hl in E. injection E as <-.
  unfold InitGenesis. cbn [gs_Params gs_TaxRate gs_RewardWeight gs_TaxProceeds
    gs_EpochInitialIssuance gs_TaxCaps gs_EpochStates].
  erewrite M_bind_run by by apply SetParams_complete.
  erewrite M_bind_run by (unfold SetTaxRate; reflexivity).
  erewrite M_bind_run by (unfold SetRewardWeight; reflexivity).
  erewrite M_bind_run by (unfold SetEpochTaxProceeds; reflexivity).
  rewrite GenCoinsIsZero_gen, Hz, !encoded_gen. erewrite (M_bind_run (lift _)) by done.
  erewrite M_bind_run by (unfold SetEpochInitialIssuance; reflexivity).
  erewrite M_bind_run by apply set_caps_run.
  edestruct (set_epochs_run s (exported_epochs (GetEpoch ctx) last))
    as (tr & sr & tsl & Hrun & Q1 & Q2 & Q3).
  { unfold exported_epochs. intros e (k & -> & Hk)%list_elem_of_fmap.
    apply elem_of_seq in Hk. pose proof (GetEpoch_bound ctx Hh). destruct last; lia. }
  erewrite M_bind_run by apply Hrun. rewrite Hm1, Hm2.
  eexists. split; [reflexivity|]. cbn -[GetTR GetSR GetTSL kv_iter exported_epochs].
  split_and!; try done.
  - rewrite Hc0. apply kv_iter_rebuild.
  - intros e. unfold GetTR, GetSR, GetTSL. cbn -[kv_iter exported_epochs].
    rewrite Q1, Q2, Q3. cbn -[kv_iter exported_epochs].
    case_bool_decide as Hin; [done|]. destruct (Hep e Hin) as (-> & -> & ->).
    by rewrite Htr0, Hsr0, Htsl0, !lookup_empty.
Qed.
End genesis.

(** ** Witnesses: the treasury over the market over the oracle *)
Module Example.
Definition Oracle : Type := OracleState.State ledger (list ref_validator) (list (string * list DecCoin)).
Definition St : Type :=
  State ledger (list ref_validator) (list DecCoin) (Market.State ledger Oracle).

Definition bank0 : ledger :=
  mkLedger ["udo"; "uusd"]
    (fun a d => if String.eqb a "module:burn" && String.eqb d "udo" then 700 else 0)
    (fun d => if String.eqb d "udo" then 1000700 else 5000).
Definition oracle0 : Oracle :=
  OracleState.mkState (Some OracleState.DefaultParams) {["uusd" := Precision / 4]} ∅ ∅ ∅ ∅ ∅
    bank0 [] [].
Definition market0 : Market.State ledger Oracle :=
  Market.mkState (Some Market.DefaultParams) None bank0 oracle0.

Definition s0 : St :=
  mkState DefaultParams None None ∅ (Some [mkCoin "udo" 5000; mkCoin "uusd" 300])
    (Some [mkCoin "udo" 2000000]) {[10 := 7 * Precision]} ∅ {[10 := 2]} {["do1kim"]} bank0
    [mkRefValidator "val" 10 true false] [] market0.
Definition at_height (h : Z) : Ctx := mkCtx h 0 "test" false false.
Definition epoch_end : Ctx := at_height (13 * BlocksPerWeek - 1).
Definition s1 : St := (EndBlocker epoch_end s0).2.
Definition s2 : St := (SettleSeigniorage "distribution" s0).2.
Definition empty : St :=
  mkState (mkParams None None None None None None None None None None) None None ∅ None None ∅ ∅ ∅ ∅
    bank0 [] [] market0.

(** An address package that checks the checksum and nothing else. *)
Definition checking : AddrCodec := {|
  AccAddressFromBech32 a := if bech32_verify "do" a then Ok a else Err (Foreign "bech32");
  AccAddressString a := a;
  ValAddressFromBech32 a := Ok a;
  ValAddressString a := a;
|}.
End Example.

Lemma rates_follow_policy_witness :
  st_taxrate Example.s1 = Some (LegacyNewDecWithPrec 75 5) /\
  in_bounds DefaultTaxPolicy (GetTaxRate Example.s1).
Proof.
  split; [vm_compute; reflexivity|].
  apply (rates_follow_policy 1 Example.s0 Example.s1 DefaultTaxPolicy DefaultRewardPolicy);
    [|reflexivity|reflexivity|vm_compute; split; discriminate|vm_compute; split; discriminate
    |vm_compute; split; discriminate|vm_compute; split; discriminate].
  apply (reach_end_block 0 Example.epoch_end Example.s0 Example.s0 Example.s1 (reach_refl _)).
  unfold Example.s1. apply run_eq. vm_compute. reflexivity.
Defined.

Lemma window_is_mean_witness :
  rollingAverageIndicator Example.epoch_end 4 (TRL Example.s0) = Ok (Z.quot (7 * Precision / 2) 4).
Proof.
  destruct (window_is_mean Example.epoch_end 4 (TRL Example.s0)
    (fun i => match TRL Example.s0 i with Ok x => x | _ => 0 end)) as (_ & _ & E);
    [vm_compute; split; [discriminate|reflexivity]|lia| |].
  - intros i Hi. assert (0 <= i <= 12) as Hi' by (revert Hi; vm_compute; tauto).
    assert (i = 0 \/ i = 1 \/ i = 2 \/ i = 3 \/ i = 4 \/ i = 5 \/ i = 6 \/ i = 7 \/ i = 8 \/ i = 9 \/
      i = 10 \/ i = 11 \/ i = 12) as Hcases by lia.
    repeat (destruct Hcases as [->|Hcases]; [split; [reflexivity|vm_compute; discriminate]|]).
    subst i. split; [reflexivity|vm_compute; discriminate].
  - rewrite E. vm_compute. reflexivity.
Defined.

Lemma burn_account_emptied_witness :
  GetSupply (st_bank Example.s1) "udo" = 1000700 - 700.
Proof.
  destruct (burn_account_emptied Example.epoch_end Example.s0 tt Example.s1) as (_ & _ & H);
    [unfold Example.s1; apply run_eq; vm_compute; reflexivity|]. exact (H "udo").
Defined.

Lemma epoch_books_closed_witness :
  GetSR Example.s1 12 = LegacyNewDecWithPrec 5 2 * 1000000 /\
  PeekEpochSeigniorage Example.s1 = Ok 0 /\ PeekEpochTaxProceeds Example.s1 = [].
Proof.
  destruct (epoch_books_closed Example.epoch_end Example.s0 tt Example.s1)
    as (s1 & rw & Hb & _ & _ & _ & Hsr & Hp & Hs);
    [unfold Example.s1; apply run_eq; vm_compute; reflexivity|vm_compute; reflexivity|].
  split; [vm_compute; reflexivity|split; [vm_compute; reflexivity|exact Hp]].
Defined.

Lemma seigniorage_conserved_witness :
  PeekEpochSeigniorage Example.s0 = Ok 999300 /\
  GetBalance (st_bank Example.s2) "module:distribution" "udo" = 0 + (999300 - 49965).
Proof.
  split; [vm_compute; reflexivity|].
  destruct (seigniorage_conserved "distribution" Example.s0 tt Example.s2 999300)
    as (burn & pool & pool' & -> & _ & _ & Hb & _);
    [unfold Example.s2; apply run_eq; vm_compute; reflexivity|vm_compute; reflexivity|lia|discriminate|].
  rewrite (Hb "module:distribution" "udo"). vm_compute. reflexivity.
Defined.

Lemma migration_panics_witness : (@Migrate1to2 _ _ _ _ Example.checking Example.s0).1 = Panic.
Proof.
  apply (@migration_panics _ _ _ _ Example.checking). intros a _. simpl.
  destruct (bech32_verify "do" a); [reflexivity|discriminate].
Defined.

Lemma treasury_genesis_witness :
  exists g s', ExportGenesis Example.epoch_end Example.s0 = Ok g /\
    InitGenesis g Example.empty = (Ok tt, s') /\ GetTR s' 10 = 7 * Precision /\
    st_exempt Example.s0 <> ∅ /\ st_exempt s' = ∅.
Proof.
  destruct (ExportGenesis Example.epoch_end Example.s0) as [g| |] eqn:E;
    [|vm_compute in E; discriminate|vm_compute in E; discriminate].
  destruct (treasury_genesis Example.epoch_end Example.s0 Example.empty g true)
    as (s' & Hrun & _ & _ & _ & _ & _ & _ & He & Hx);
    [vm_compute; split; [discriminate|reflexivity]|vm_compute; reflexivity|exact E
    |split; [vm_compute; reflexivity|split; [eexists; reflexivity|split; eexists; reflexivity]]
    |reflexivity|reflexivity|reflexivity| |reflexivity|reflexivity|reflexivity|reflexivity|reflexivity|].
  - intros e He. assert (e <> 10) as Hne.
    { intros ->. apply He. apply list_elem_of_fmap. exists 10%nat. split; [reflexivity|].
      apply elem_of_seq. vm_compute. lia. }
    split; [|split]; apply lookup_singleton_ne || apply lookup_empty; congruence.
  - exists g, s'. split; [reflexivity|]. split; [exact Hrun|]. split; [rewrite (proj1 (He 10)); reflexivity|].
    split; [|exact Hx]. apply non_empty_singleton_L.
Defined.
