(* ===== verification/Mempool.v ===== *)
(** * The application mempool (src/app/mempool, src/app/helper)

    Two queues of transactions, one for oracle transactions and one for the
    rest, each with an index from the first signer and its sequence number to
    the element of the queue.  The linked list of CometBFT is a list of
    elements with an identity, as the code compares and removes elements by
    pointer; a [sync.Map] is a finite map.  The theorems: for transactions
    with distinct keys the mempool refines two plain FIFO lists that are
    iterated oracle first; a second transaction with the key of a waiting one
    leaves an element that no operation can remove; and, since [Insert] only
    takes the read lock, how far concurrent insertions can exceed the
    capacity, over all interleavings. *)
From stdpp Require Import base gmap sets list strings fin_maps relations.
From Stdlib Require Import ZArith Lia.
From S2P Require Import Prelude.
#[local] Open Scope Z_scope.

(** ** Transactions as the mempool sees them *)
Inductive Msg : Type :=
| MsgAggregateDoRatePrevote
| MsgAggregateDoRateVote
| OtherMsg (typeURL : string).

(** The text of the address of the public key, when the signature has one, and
    the sequence. *)
Record SignatureV2 : Type := mkSignature { sig_PubKey : option string; sig_Sequence : Z }.

Record Tx : Type := mkTx {
  GetMsgs : list Msg;
  GetSignaturesV2 : res (list SignatureV2);
}.

(** ** src/app/helper/helper.go *)
Definition IsOracleTx (msgs : list Msg) : bool :=
  match msgs with
  | [] => false
  | _ => forallb (fun msg => match msg with
                             | MsgAggregateDoRatePrevote | MsgAggregateDoRateVote => true
                             | OtherMsg _ => false
                             end) msgs
  end.

(** ** The state *)
Abbreviation customTxKey := (string * Z)%type (only parsing).

Record CElement : Type := mkElem { e_id : nat; e_Value : Tx }.

Record FifoMempool : Type := mkPool {
  txs : list CElement;
  txsOracle : list CElement;
  txsMap : gmap customTxKey CElement;
  txsMapOracle : gmap customTxKey CElement;
  maxTx : Z;
  next_id : nat;  (* the identity of the next element *)
}.

Definition DefaultMaxTx : Z := 5000.
Definition ErrMempoolTxMaxCapacity : error := SdkError "ErrMempoolTxMaxCapacity".
Definition ErrTxNotFound : error := SdkError "ErrTxNotFound".

Definition NewFifoMempool (max : Z) : FifoMempool := mkPool [] [] ∅ ∅ max 0.

(** A signature without a public key is dereferenced all the same. *)
Definition getTxKey (tx : Tx) : res customTxKey :=
  sigs ← GetSignaturesV2 tx;
  match sigs with
  | [] => Err (Plain "tx must have at least one signer")
  | sig :: _ =>
    match sig_PubKey sig with
    | Some address => Ok (address, sig_Sequence sig)
    | None => Panic
    end
  end.

Definition CountTx (mp : FifoMempool) : Z :=
  Z.of_nat (length (txs mp)) + Z.of_nat (length (txsOracle mp)).

(** [PushBack] and [Store] on the queue of the transaction. *)
Definition push_oracle (k : customTxKey) (tx : Tx) (mp : FifoMempool) : FifoMempool :=
  let e := mkElem (next_id mp) tx in
  mkPool (txs mp) (txsOracle mp ++ [e]) (txsMap mp) (<[k := e]> (txsMapOracle mp))
    (maxTx mp) (S (next_id mp)).
Definition push_regular (k : customTxKey) (tx : Tx) (mp : FifoMempool) : FifoMempool :=
  let e := mkElem (next_id mp) tx in
  mkPool (txs mp ++ [e]) (txsOracle mp) (<[k := e]> (txsMap mp)) (txsMapOracle mp)
    (maxTx mp) (S (next_id mp)).

Definition Insert (tx : Tx) : M FifoMempool unit :=
  mp ← get;
  let totalTxs := CountTx mp in
  if (0 <=? maxTx mp) && (maxTx mp <=? totalTxs) then throw ErrMempoolTxMaxCapacity
  else if maxTx mp <? 0 then mret tt
  else
    txKey ← lift (getTxKey tx);
    if IsOracleTx (GetMsgs tx) then modify (push_oracle txKey tx)
    else modify (push_regular txKey tx).

(** [clist.Remove]: the element with that identity leaves the list. *)
Definition list_remove (e : CElement) (q : list CElement) : list CElement :=
  List.filter (fun e' => negb (Nat.eqb (e_id e') (e_id e))) q.

Definition Remove (tx : Tx) : M FifoMempool unit :=
  txKey ← lift (getTxKey tx);
  mp ← get;
  if IsOracleTx (GetMsgs tx) then
    match txsMapOracle mp !! txKey with
    | Some e => modify (fun mp => mkPool (txs mp) (list_remove e (txsOracle mp)) (txsMap mp)
                          (delete txKey (txsMapOracle mp)) (maxTx mp) (next_id mp))
    | None => throw ErrTxNotFound
    end
  else
    match txsMap mp !! txKey with
    | Some e => modify (fun mp => mkPool (list_remove e (txs mp)) (txsOracle mp)
                          (delete txKey (txsMap mp)) (txsMapOracle mp) (maxTx mp) (next_id mp))
    | None => throw ErrTxNotFound
    end.

(** ** Iteration *)
Record fifoIterator : Type := mkIterator {
  currentTx : option CElement;
  listTxKey : list customTxKey;
  mapTxs : gmap customTxKey CElement;
  mapTxsOracle : gmap customTxKey CElement;
}.

(** [Next] calls itself while the keys at hand were consumed before. *)
Fixpoint next_key (ks : list customTxKey) (m mo : gmap customTxKey CElement) :
    option fifoIterator :=
  match ks with
  | [] => None
  | txKey :: rest =>
    match mo !! txKey with
    | Some e => Some (mkIterator (Some e) rest m (delete txKey mo))
    | None =>
      match m !! txKey with
      | Some e => Some (mkIterator (Some e) rest (delete txKey m) mo)
      | None => next_key rest m mo
      end
    end
  end.

Definition Next (it : fifoIterator) : option fifoIterator :=
  next_key (listTxKey it) (mapTxs it) (mapTxsOracle it).

(** The dereference of a nil element panics. *)
Definition IterTx (it : fifoIterator) : res Tx :=
  match currentTx it with Some e => Ok (e_Value e) | None => Panic end.

(** [txKey, _ := getTxKey(tx)]: the zero key when there is an error.  It does
    not panic on a queued transaction, as [Insert] read its key. *)
Definition key_of (tx : Tx) : customTxKey := match getTxKey tx with Ok k => k | _ => ("", 0) end.
Definition elem_key (e : CElement) : customTxKey := key_of (e_Value e).

Definition build_map (q : list CElement) : gmap customTxKey CElement :=
  foldl (fun m e => <[elem_key e := e]> m) ∅ q.

Definition Select (mp : FifoMempool) : option fifoIterator :=
  Next (mkIterator None (map elem_key (txsOracle mp) ++ map elem_key (txs mp))
          (build_map (txs mp)) (build_map (txsOracle mp))).

(** What a caller that iterates to the end sees; an iterator has at most as
    many elements as it has keys left. *)
Fixpoint drain (fuel : nat) (it : option fifoIterator) : list Tx :=
  match fuel, it with
  | S fuel, Some it =>
    match IterTx it with Ok tx => tx :: drain fuel (Next it) | _ => [] end
  | _, _ => []
  end.
Definition select_all (mp : FifoMempool) : list Tx :=
  drain (length (txsOracle mp) + length (txs mp)) (Select mp).

(** ** The abstract mempool: two lists of transactions *)
Record Spec : Type := mkSpec { sp_oracle : list Tx; sp_regular : list Tx }.

Definition spec_insert (tx : Tx) (a : Spec) : Spec :=
  if IsOracleTx (GetMsgs tx) then mkSpec (sp_oracle a ++ [tx]) (sp_regular a)
  else mkSpec (sp_oracle a) (sp_regular a ++ [tx]).
Definition without (k : customTxKey) (l : list Tx) : list Tx :=
  List.filter (fun tx => negb (bool_decide (key_of tx = k))) l.
Definition spec_remove (tx : Tx) (a : Spec) : Spec :=
  if IsOracleTx (GetMsgs tx) then mkSpec (without (key_of tx) (sp_oracle a)) (sp_regular a)
  else mkSpec (sp_oracle a) (without (key_of tx) (sp_regular a)).
Definition spec_queue (tx : Tx) (a : Spec) : list Tx :=
  if IsOracleTx (GetMsgs tx) then sp_oracle a else sp_regular a.
Definition spec_count (a : Spec) : Z :=
  Z.of_nat (length (sp_regular a)) + Z.of_nat (length (sp_oracle a)).

(** ** The invariant of one queue and its index *)
Record queue_ok (q : list CElement) (m : gmap customTxKey CElement) (n : nat) : Prop := {
  q_ids : NoDup (map e_id q);
  q_fresh : forall e, e ∈ q -> (e_id e < n)%nat;
  q_keyed : forall e, e ∈ q -> getTxKey (e_Value e) = Ok (elem_key e);
  q_map : forall k e, m !! k = Some e <-> e ∈ q /\ elem_key e = k;
}.

Record refines (mp : FifoMempool) (a : Spec) : Prop := {
  r_regular : queue_ok (txs mp) (txsMap mp) (next_id mp);
  r_oracle : queue_ok (txsOracle mp) (txsMapOracle mp) (next_id mp);
  r_txs : map e_Value (txs mp) = sp_regular a;
  r_txsOracle : map e_Value (txsOracle mp) = sp_oracle a;
}.

Lemma same_id q e e' : NoDup (map e_id q) -> e ∈ q -> e' ∈ q -> e_id e = e_id e' -> e = e'.
Proof.
  intros Hn He He' Heq. apply list_elem_of_lookup in He as [i Hi].
  apply list_elem_of_lookup in He' as [j Hj].
  assert (i = j) as <-; [|congruence].
  apply (NoDup_lookup (map e_id q) i j (e_id e)); [done|..];
    rewrite list_lookup_fmap, ?Hi, ?Hj; simpl; congruence.
Qed.

Lemma queue_keys_nodup q m n : queue_ok q m n -> NoDup (map elem_key q).
Proof.
  intros [Hids _ _ Hmap]. apply (NoDup_fmap_2_strong elem_key).
  - intros e e' He He' Heq. assert (m !! elem_key e = Some e) as H1 by by apply Hmap.
    assert (m !! elem_key e = Some e') as H2 by (apply Hmap; by rewrite Heq). congruence.
  - by eapply NoDup_fmap_1.
Qed.

Lemma queue_weaken q m n n' : (n <= n')%nat -> queue_ok q m n -> queue_ok q m n'.
Proof. intros Hn [? Hf ? ?]. split; try done. intros e He. specialize (Hf e He). lia. Qed.

Lemma push_ids q n tx : NoDup (map e_id q) -> (forall e, e ∈ q -> (e_id e < n)%nat) ->
  NoDup (map e_id (q ++ [mkElem n tx])) /\
  (forall e, e ∈ q ++ [mkElem n tx] -> (e_id e < S n)%nat).
Proof.
  intros Hids Hf. split.
  - rewrite map_app. apply NoDup_app. split_and!; [done| |apply NoDup_singleton].
    intros i (e & -> & He)%list_elem_of_fmap. specialize (Hf e He).
    intros Heq%list_elem_of_singleton. simpl in Heq. lia.
  - intros e [He|He%list_elem_of_singleton]%elem_of_app; [specialize (Hf e He); lia|subst; simpl; lia].
Qed.

Lemma queue_push q m n k tx : queue_ok q m n -> getTxKey tx = Ok k -> k ∉ map elem_key q ->
  queue_ok (q ++ [mkElem n tx]) (<[k := mkElem n tx]> m) (S n).
Proof.
  intros [Hids Hf Hk Hmap] Hkey Hnew.
  assert (elem_key (mkElem n tx) = k) as Hek by (unfold elem_key, key_of; simpl; by rewrite Hkey).
  destruct (push_ids q n tx Hids Hf) as [Hids' Hf']. split; [done|done|..].
  - intros e [He|He%list_elem_of_singleton]%elem_of_app; [by apply Hk|by rewrite He, Hek].
  - intros k' e. rewrite elem_of_app, list_elem_of_singleton.
    destruct (decide (k' = k)) as [->|Hne].
    + rewrite lookup_insert_eq. split; [intros [= <-]; auto|].
      intros [[He| ->] Hq]; [|done]. destruct Hnew. apply list_elem_of_fmap. eauto.
    + rewrite lookup_insert_ne by done. rewrite Hmap. naive_solver.
Qed.

Lemma elem_of_list_remove e e' q : e' ∈ list_remove e q <-> e' ∈ q /\ e_id e' <> e_id e.
Proof.
  unfold list_remove. rewrite !list_elem_of_In, filter_In, negb_true_iff, Nat.eqb_neq. done.
Qed.

Lemma list_remove_sublist e q : sublist (list_remove e q) q.
Proof.
  unfold list_remove. induction q as [|x q IH]; simpl; [constructor|].
  destruct (Nat.eqb _ _); simpl; [by apply sublist_cons|by apply sublist_skip].
Qed.

Lemma queue_remove q m n k e : queue_ok q m n -> m !! k = Some e ->
  queue_ok (list_remove e q) (delete k m) n.
Proof.
  intros Hq He. pose proof Hq as [Hids Hf Hk Hmap]. apply Hmap in He as [Hin Hek]. split.
  - eapply sublist_NoDup; [done|]. apply (fmap_sublist e_id), list_remove_sublist.
  - intros e' [? _]%elem_of_list_remove. by apply Hf.
  - intros e' [? _]%elem_of_list_remove. by apply Hk.
  - intros k' e'. rewrite elem_of_list_remove. destruct (decide (k' = k)) as [->|Hne].
    + rewrite lookup_delete_eq. split; [done|]. intros [[He' Hid] Hk'].
      assert (m !! k = Some e') as H1 by by apply Hmap.
      assert (m !! k = Some e) as H2 by by apply Hmap. congruence.
    + rewrite lookup_delete_ne by done. rewrite Hmap. split; [|naive_solver].
      intros [He' Hk']. split_and!; try done.
      intros Hid. apply (same_id q) in Hid as ->; [|done..]. congruence.
Qed.

Lemma removed_values q m n k e : queue_ok q m n -> m !! k = Some e ->
  map e_Value (list_remove e q) = without k (map e_Value q).
Proof.
  intros Hq He. pose proof Hq as [Hids _ _ Hmap]. apply Hmap in He as [Hin Hek].
  assert (forall e', e' ∈ q -> (e_id e' = e_id e <-> elem_key e' = k)) as Hiff.
  { intros e' He'. split; [intros ->%(same_id q); done|]. intros Hk.
    assert (m !! k = Some e') as H1 by by apply Hmap.
    assert (m !! k = Some e) as H2 by by apply Hmap. congruence. }
  clear - Hiff. unfold list_remove, without. induction q as [|x q IH]; simpl; [done|].
  specialize (IH ltac:(intros; apply Hiff; by right)).
  pose proof (Hiff x ltac:(left)) as Hx. unfold elem_key in Hx.
  destruct (Nat.eqb_spec (e_id x) (e_id e)); case_bool_decide; simpl; [done|tauto|tauto|].
  by rewrite IH.
Qed.

(** ** Iteration *)
Lemma build_map_list q : NoDup (map elem_key q) ->
  build_map q = list_to_map (map (fun e => (elem_key e, e)) q).
Proof.
  unfold build_map. intros Hn.
  assert (forall acc : gmap customTxKey CElement, foldl (fun m e => <[elem_key e := e]> m) acc q
    = list_to_map (map (fun e => (elem_key e, e)) q) ∪ acc) as Hgen.
  { induction q as [|e q IH]; intros acc; simpl; [by rewrite (left_id_L ∅ _)|].
    apply NoDup_cons in Hn as [He Hn]. rewrite IH by done.
    rewrite <- insert_union_l, <- insert_union_r; [done|].
    apply not_elem_of_list_to_map_1. by rewrite <- list_fmap_compose. }
  by rewrite Hgen, (right_id_L ∅ _).
Qed.

Definition index (q : list CElement) : gmap customTxKey CElement :=
  list_to_map (map (fun e => (elem_key e, e)) q).

Lemma index_head e q : index (e :: q) !! elem_key e = Some e.
Proof. unfold index. simpl. apply lookup_insert_eq. Qed.

Lemma index_delete e q : NoDup (map elem_key (e :: q)) ->
  delete (elem_key e) (index (e :: q)) = index q.
Proof.
  intros [He _]%NoDup_cons. unfold index. simpl. rewrite delete_insert_id; [done|].
  apply not_elem_of_list_to_map_1. by rewrite <- list_fmap_compose.
Qed.

Lemma drain_regular q fuel : NoDup (map elem_key q) -> (length q <= fuel)%nat ->
  drain fuel (next_key (map elem_key q) (index q) ∅) = map e_Value q.
Proof.
  revert fuel. induction q as [|e q IH]; intros fuel Hn Hf; [by destruct fuel|].
  destruct fuel as [|fuel]; [simpl in Hf; lia|]. cbn [map next_key]. rewrite lookup_empty.
  rewrite index_head. cbn [drain IterTx currentTx].
  f_equal. unfold Next. cbn [listTxKey mapTxs mapTxsOracle].
  rewrite index_delete by done. apply IH; [by apply NoDup_cons in Hn as [_ ?]|simpl in Hf; lia].
Qed.

Lemma drain_both qo q fuel : NoDup (map elem_key qo) -> NoDup (map elem_key q) ->
  (length qo + length q <= fuel)%nat ->
  drain fuel (next_key (map elem_key qo ++ map elem_key q) (index q) (index qo))
  = map e_Value qo ++ map e_Value q.
Proof.
  revert fuel. induction qo as [|e qo IH]; intros fuel Hno Hn Hf.
  - apply drain_regular; [done|simpl in Hf; lia].
  - destruct fuel as [|fuel]; [simpl in Hf; lia|]. cbn [map app next_key].
    rewrite index_head.
    cbn [drain IterTx currentTx]. f_equal. unfold Next. cbn [listTxKey mapTxs mapTxsOracle].
    rewrite index_delete by done.
    apply IH; [by apply NoDup_cons in Hno as [_ ?]|done|simpl in Hf; lia].
Qed.

Lemma select_all_refines mp a : refines mp a -> select_all mp = sp_oracle a ++ sp_regular a.
Proof.
  intros [Hr Ho <- <-]. apply queue_keys_nodup in Hr, Ho.
  unfold select_all, Select, Next. cbn [listTxKey mapTxs mapTxsOracle].
  rewrite !build_map_list by done. by apply drain_both.
Qed.

Lemma key_of_ok tx k : getTxKey tx = Ok k -> key_of tx = k.
Proof. unfold key_of. by intros ->. Qed.

Lemma refines_count mp a : refines mp a -> CountTx mp = spec_count a.
Proof.
  intros [_ _ H1 H2]. unfold CountTx, spec_count. by rewrite <- H1, <- H2, !length_map.
Qed.

Lemma insert_refines mp a tx k : refines mp a -> getTxKey tx = Ok k ->
  0 <= maxTx mp -> spec_count a < maxTx mp -> k ∉ map key_of (spec_queue tx a) ->
  exists mp', Insert tx mp = (Ok tt, mp') /\ refines mp' (spec_insert tx a) /\ maxTx mp' = maxTx mp.
Proof.
  intros Hr Hk Hmax Hlt Hnew. unfold Insert. erewrite (M_bind_run get) by done.
  rewrite (refines_count _ _ Hr), (proj2 (Z.leb_gt _ _) Hlt), andb_false_r.
  rewrite (proj2 (Z.ltb_ge _ _) Hmax). erewrite (M_bind_run (lift _)) by (unfold lift; by rewrite Hk).
  unfold spec_insert, spec_queue in *.
  destruct Hr as [Hreg Hora Q1 Q2]. rewrite <- Q1, <- Q2 in *. destruct (IsOracleTx (GetMsgs tx)); unfold modify.
  - eexists. split; [reflexivity|]. split; [|done].
    rewrite map_map in Hnew. split; cbn -[map].
    + by eapply queue_weaken; [|exact Hreg]; lia.
    + by apply queue_push.
    + done.
    + by rewrite map_app.
  - eexists. split; [reflexivity|]. split; [|done].
    rewrite map_map in Hnew. split; cbn -[map].
    + by apply queue_push.
    + by eapply queue_weaken; [|exact Hora]; lia.
    + by rewrite map_app.
    + done.
Qed.

Lemma queue_lookup q m n k : queue_ok q m n ->
  (k ∈ map key_of (map e_Value q) -> is_Some (m !! k)) /\
  (k ∉ map key_of (map e_Value q) -> m !! k = None).
Proof.
  intros [_ _ _ Hmap]. rewrite map_map. split.
  - intros (e & -> & He)%list_elem_of_fmap. exists e. by apply Hmap.
  - intros Hk. destruct (m !! k) as [e|] eqn:He; [|done]. apply Hmap in He as [He <-].
    destruct Hk. apply list_elem_of_fmap. by exists e.
Qed.

Lemma remove_refines mp a tx k : refines mp a -> getTxKey tx = Ok k ->
  (k ∈ map key_of (spec_queue tx a) -> exists mp', Remove tx mp = (Ok tt, mp') /\
     refines mp' (spec_remove tx a) /\ maxTx mp' = maxTx mp) /\
  (k ∉ map key_of (spec_queue tx a) -> Remove tx mp = (Err ErrTxNotFound, mp)).
Proof.
  intros [Hreg Hora Q1 Q2] Hk. unfold Remove, spec_remove, spec_queue. rewrite <- Q1, <- Q2.
  erewrite (M_bind_run (lift _)) by (unfold lift; by rewrite Hk).
  erewrite (M_bind_run get) by done. rewrite (key_of_ok _ _ Hk). cbn [sp_oracle sp_regular].
  destruct (IsOracleTx (GetMsgs tx)).
  - pose proof (queue_lookup _ _ _ k Hora) as [Hin Hout]. split.
    + intros [e He]%Hin. rewrite He. unfold modify. eexists. split; [reflexivity|].
      split; [|done]. split; cbn -[map]; [done|by apply queue_remove|done|].
      by eapply removed_values.
    + intros Hno%Hout. by rewrite Hno.
  - pose proof (queue_lookup _ _ _ k Hreg) as [Hin Hout]. split.
    + intros [e He]%Hin. rewrite He. unfold modify. eexists. split; [reflexivity|].
      split; [|done]. split; cbn -[map]; [by apply queue_remove|done| |done].
      by eapply removed_values.
    + intros Hno%Hout. by rewrite Hno.
Qed.

(** C34: for transactions with distinct keys the mempool behaves as two plain
    first-in-first-out lists: iterating yields the oracle transactions in
    order of arrival and then the others; an insertion below the capacity
    appends to the list of the transaction's kind and one at the capacity
    is refused and changes nothing; a removal deletes exactly the
    transaction with that key, or reports that there is none. *)
Theorem mempool_refines_fifo mp a tx k : refines mp a -> getTxKey tx = Ok k -> 0 <= maxTx mp ->
  select_all mp = sp_oracle a ++ sp_regular a /\ CountTx mp = spec_count a /\
  (spec_count a < maxTx mp -> k ∉ map key_of (spec_queue tx a) ->
     exists mp', Insert tx mp = (Ok tt, mp') /\ refines mp' (spec_insert tx a) /\
       maxTx mp' = maxTx mp) /\
  (maxTx mp <= spec_count a -> Insert tx mp = (Err ErrMempoolTxMaxCapacity, mp)) /\
  (k ∈ map key_of (spec_queue tx a) -> exists mp', Remove tx mp = (Ok tt, mp') /\
     refines mp' (spec_remove tx a) /\ maxTx mp' = maxTx mp) /\
  (k ∉ map key_of (spec_queue tx a) -> Remove tx mp = (Err ErrTxNotFound, mp)).
Proof.
  intros Hr Hk Hmax. destruct (remove_refines mp a tx k Hr Hk) as [Hrm1 Hrm2].
  split; [by apply select_all_refines|]. split; [by apply refines_count|].
  split; [by eapply insert_refines|]. split; [|done].
  intros Hfull. unfold Insert. erewrite (M_bind_run get) by done.
  rewrite (refines_count _ _ Hr), (proj2 (Z.leb_le _ _) Hmax), (proj2 (Z.leb_le _ _) Hfull). done.
Qed.

Lemma new_mempool_refines max : refines (NewFifoMempool max) (mkSpec [] []).
Proof.
  split; try done; split; simpl; try (by constructor); try (intros; set_solver).
Qed.

(** ** Two transactions with the same key *)
Inductive pool_step : FifoMempool -> FifoMempool -> Prop :=
| step_insert tx mp : pool_step mp (Insert tx mp).2
| step_remove tx mp : pool_step mp (Remove tx mp).2.

(** An element of the regular queue that the index does not know. *)
Record orphan (e : CElement) (mp : FifoMempool) : Prop := {
  o_queued : e ∈ txs mp;
  o_fresh : forall e', e' ∈ txs mp -> (e_id e' < next_id mp)%nat;
  o_ids : NoDup (map e_id (txs mp));
  o_indexed : forall k e', txsMap mp !! k = Some e' -> e' ∈ txs mp /\ elem_key e' = k;
  o_unknown : forall k, txsMap mp !! k <> Some e;
}.

Lemma orphan_pushed e k tx mp : getTxKey tx = Ok k -> orphan e mp -> orphan e (push_regular k tx mp).
Proof.
  intros Hk [Hq Hf Hids Hix Hun]. split; cbn -[map].
  - apply elem_of_app. by left.
  - by apply push_ids.
  - by apply push_ids.
  - intros k' e' Hl. rewrite elem_of_app. destruct (decide (k' = k)) as [->|Hne].
    + rewrite lookup_insert_eq in Hl. injection Hl as <-.
      split; [right; by apply list_elem_of_singleton|]. by apply key_of_ok.
    + rewrite lookup_insert_ne in Hl by done. apply Hix in Hl as [? ?]. auto.
  - intros k' Hl. destruct (decide (k' = k)) as [->|Hne].
    + rewrite lookup_insert_eq in Hl. injection Hl as <-. specialize (Hf _ Hq). simpl in Hf. lia.
    + rewrite lookup_insert_ne in Hl by done. by eapply Hun.
Qed.

Lemma orphan_removed e k x mp : orphan e mp -> txsMap mp !! k = Some x ->
  orphan e (mkPool (list_remove x (txs mp)) (txsOracle mp) (delete k (txsMap mp))
              (txsMapOracle mp) (maxTx mp) (next_id mp)).
Proof.
  intros [Hq Hf Hids Hix Hun] Hx.
  assert (e_id e <> e_id x) as Hne.
  { intros Hid. apply (Hun k). rewrite Hx. f_equal. symmetry.
    apply (same_id (txs mp)); [done|done|by apply (Hix k)|done]. }
  split; cbn -[map].
  - by apply elem_of_list_remove.
  - intros e' [? _]%elem_of_list_remove. by apply Hf.
  - eapply sublist_NoDup; [done|]. apply (fmap_sublist e_id), list_remove_sublist.
  - intros k' e' Hl. destruct (decide (k' = k)) as [->|Hk]; [by rewrite lookup_delete_eq in Hl|].
    rewrite lookup_delete_ne in Hl by done. apply Hix in Hl as [Hin Hkey], Hx as [Hxin Hxk].
    split; [|done]. apply elem_of_list_remove. split; [done|].
    intros Hid. apply (same_id (txs mp)) in Hid; [|done..]. congruence.
  - intros k' Hl. destruct (decide (k' = k)) as [->|Hk]; [by rewrite lookup_delete_eq in Hl|].
    rewrite lookup_delete_ne in Hl by done. by eapply Hun.
Qed.

Lemma orphan_step e mp mp' : pool_step mp mp' -> orphan e mp -> orphan e mp'.
Proof.
  intros [tx mp0|tx mp0] Ho.
  - destruct (Insert tx mp0) as [r mp1] eqn:E. cbn [snd]. unfold Insert in E.
    erewrite (M_bind_run get) in E by done.
    destruct (_ && _); [by injection E as _ <-|]. destruct (_ <? 0); [by injection E as _ <-|].
    unfold mbind, M_bind, lift, modify in E. destruct (getTxKey tx) eqn:Hk; try by injection E as _ <-.
    destruct (IsOracleTx _); injection E as _ <-; [|by apply orphan_pushed].
    destruct Ho as [Hq Hf Hids Hix Hun]. split; try done. intros e' He. specialize (Hf e' He). simpl. lia.
  - destruct (Remove tx mp0) as [r mp1] eqn:E. cbn [snd]. unfold Remove in E.
    unfold mbind, M_bind, lift, get, modify, throw in E.
    destruct (getTxKey tx) eqn:Hk; try by injection E as _ <-.
    destruct (IsOracleTx _); case_match; injection E as _ <-; try done.
    + by destruct Ho.
    + by apply orphan_removed.
Qed.

(** two transactions of the same signer with the same sequence number:
    when both were inserted, the first one stays in the queue, and counts
    towards the capacity, through every later sequence of insertions and
    removals. *)
Theorem duplicate_key_leaks mp a tx1 tx2 k mp1 mp2 :
  refines mp a -> 0 <= maxTx mp ->
  getTxKey tx1 = Ok k -> getTxKey tx2 = Ok k ->
  IsOracleTx (GetMsgs tx1) = false -> IsOracleTx (GetMsgs tx2) = false ->
  k ∉ map key_of (sp_regular a) ->
  Insert tx1 mp = (Ok tt, mp1) -> Insert tx2 mp1 = (Ok tt, mp2) ->
  exists e, e_Value e = tx1 /\ forall mp', rtc pool_step mp2 mp' -> e ∈ txs mp' /\ 1 <= CountTx mp'.
Proof.
  intros Hr Hmax Hk1 Hk2 Ho1 Ho2 Hnew E1 E2.
  assert (forall tx m m', getTxKey tx = Ok k -> IsOracleTx (GetMsgs tx) = false -> 0 <= maxTx m ->
    Insert tx m = (Ok tt, m') -> m' = push_regular k tx m) as Hins.
  { clear. intros tx m m' Hk Ho Hm E. unfold Insert in E. erewrite (M_bind_run get) in E by done.
    destruct (_ && _); [by injection E|]. rewrite (proj2 (Z.ltb_ge _ _) Hm) in E.
    erewrite (M_bind_run (lift _)) in E by (unfold lift; by rewrite Hk). rewrite Ho in E.
    by injection E. }
  apply Hins in E1 as ->; [|done..]. apply Hins in E2 as ->; [|done..].
  destruct Hr as [Hreg _ Q1 _]. rewrite <- Q1, map_map in Hnew.
  pose proof (queue_push _ _ _ k tx1 Hreg Hk1 Hnew) as [Hids Hf Hkeyed Hmap].
  set (e := mkElem (next_id mp) tx1). exists e. split; [done|].
  assert (orphan e (push_regular k tx2 (push_regular k tx1 mp))) as Horph.
  { split; cbn -[map].
    - rewrite !elem_of_app, list_elem_of_singleton. auto.
    - by apply push_ids.
    - by apply push_ids.
    - intros k' e' Hl. rewrite elem_of_app. destruct (decide (k' = k)) as [->|Hne].
      + rewrite lookup_insert_eq in Hl. injection Hl as <-. rewrite list_elem_of_singleton.
        split; [auto|]. by apply key_of_ok.
      + rewrite lookup_insert_ne in Hl by done. apply Hmap in Hl as [? ?]. auto.
    - intros k' Hl. destruct (decide (k' = k)) as [->|Hne].
      + rewrite lookup_insert_eq in Hl. injection Hl as Hid _. lia.
      + rewrite lookup_insert_ne in Hl by done. apply Hmap in Hl as [_ Hl].
        destruct Hne. rewrite <- Hl. by apply key_of_ok. }
  intros mp' Hs. assert (orphan e mp') as [Hq _ _ _ _].
  { induction Hs as [|x y z Hxy _ IH]; [done|]. apply IH. by eapply orphan_step. }
  split; [done|]. unfold CountTx. destruct (txs mp'); [by apply not_elem_of_nil in Hq|].
  simpl. lia.
Qed.

(** ** Concurrent insertions

    [Insert] holds the read lock, which any number of callers hold at once,
    so calls interleave between the atomic operations on the list and the
    map.  A thread is one call; [thread_step] is its next atomic operation. *)
Inductive thread : Type :=
| T_start (tx : Tx)
| T_half (tx : Tx) (regular : Z)                   (* read txs.Len() *)
| T_counted (tx : Tx) (totalTxs : Z)               (* read txsOracle.Len() *)
| T_checked (tx : Tx) (txKey : customTxKey)        (* the guards passed *)
| T_pushed (tx : Tx) (txKey : customTxKey) (e : CElement)
| T_done (r : res unit).

Definition thread_step (mp : FifoMempool) (t : thread) : option (FifoMempool * thread) :=
  match t with
  | T_start tx => Some (mp, T_half tx (Z.of_nat (length (txs mp))))
  | T_half tx n => Some (mp, T_counted tx (n + Z.of_nat (length (txsOracle mp))))
  | T_counted tx totalTxs =>
      Some (mp,
        if (0 <=? maxTx mp) && (maxTx mp <=? totalTxs) then T_done (Err ErrMempoolTxMaxCapacity)
        else if maxTx mp <? 0 then T_done (Ok tt)
        else match getTxKey tx with
             | Ok k => T_checked tx k
             | Err e => T_done (Err e)
             | Panic => T_done Panic
             end)
  | T_checked tx k =>
      let e := mkElem (next_id mp) tx in
      Some (if IsOracleTx (GetMsgs tx)
            then mkPool (txs mp) (txsOracle mp ++ [e]) (txsMap mp) (txsMapOracle mp) (maxTx mp)
                   (S (next_id mp))
            else mkPool (txs mp ++ [e]) (txsOracle mp) (txsMap mp) (txsMapOracle mp) (maxTx mp)
                   (S (next_id mp)),
            T_pushed tx k e)
  | T_pushed tx k e =>
      Some (if IsOracleTx (GetMsgs tx)
            then mkPool (txs mp) (txsOracle mp) (txsMap mp) (<[k := e]> (txsMapOracle mp)) (maxTx mp)
                   (next_id mp)
            else mkPool (txs mp) (txsOracle mp) (<[k := e]> (txsMap mp)) (txsMapOracle mp) (maxTx mp)
                   (next_id mp),
            T_done (Ok tt))
  | T_done _ => None
  end.

(** A thread that runs alone. *)
Fixpoint solo (fuel : nat) (mp : FifoMempool) (t : thread) : FifoMempool * thread :=
  match fuel with
  | O => (mp, t)
  | S fuel => match thread_step mp t with Some (mp', t') => solo fuel mp' t' | None => (mp, t) end
  end.

(** Without interleaving, the steps are [Insert]. *)
Lemma solo_insert tx mp :
  solo 5 mp (T_start tx) = let (r, mp') := Insert tx mp in (mp', T_done r).
Proof.
  unfold Insert. cbn -[Z.of_nat Z.add]. unfold mbind, M_bind, get, CountTx.
  destruct (_ && _); [done|]. destruct (_ <? 0); [done|]. unfold lift.
  destruct (getTxKey tx); [|done..]. cbn -[Z.of_nat]. by destruct (IsOracleTx (GetMsgs tx)).
Qed.

Definition config : Type := FifoMempool * list thread.

Inductive cstep : config -> config -> Prop :=
| cstep_at i mp ts t mp' t' :
    ts !! i = Some t -> thread_step mp t = Some (mp', t') ->
    cstep (mp, ts) (mp', <[i := t']> ts).

(** Whether a thread may still push, given what it has read. *)
Definition may_push (mp : FifoMempool) (t : thread) : Z :=
  let below z := if z <? maxTx mp then 1 else 0 in
  match t with
  | T_start _ => below (CountTx mp)
  | T_half _ n => below (n + Z.of_nat (length (txsOracle mp)))
  | T_counted _ n => below n
  | T_checked _ _ => 1
  | T_pushed _ _ _ | T_done _ => 0
  end.

Definition in_flight (mp : FifoMempool) (ts : list thread) : Z := Zsum (map (may_push mp) ts).

Definition grown (mp mp' : FifoMempool) : Prop :=
  maxTx mp' = maxTx mp /\ (length (txs mp) <= length (txs mp'))%nat /\
  (length (txsOracle mp) <= length (txsOracle mp'))%nat.

Lemma may_push_mono mp mp' t : grown mp mp' -> may_push mp' t <= may_push mp t.
Proof.
  intros (Hm & H1 & H2). destruct t; unfold may_push, CountTx; rewrite ?Hm; try lia;
    repeat (match goal with |- context [?a <? ?b] => destruct (Z.ltb_spec a b) end); lia.
Qed.

Lemma thread_step_grown mp t mp' t' : thread_step mp t = Some (mp', t') -> grown mp mp'.
Proof.
  unfold grown. destruct t; simpl; intros E; simplify_eq; try (split_and!; lia || done);
    destruct (IsOracleTx _); simpl; rewrite ?length_app; simpl; split_and!; lia || done.
Qed.

(** A step never raises the count together with what may still come. *)
Lemma thread_step_count mp t mp' t' : 0 <= maxTx mp -> thread_step mp t = Some (mp', t') ->
  CountTx mp' + may_push mp' t' <= CountTx mp + may_push mp t.
Proof.
  intros Hm E. destruct t; cbn [thread_step] in E; simplify_eq; unfold CountTx;
    cbn [may_push]; try (unfold CountTx; lia).
  - rewrite (proj2 (Z.leb_le _ _) Hm), (proj2 (Z.ltb_ge _ _) Hm).
    destruct (Z.leb_spec (maxTx mp') totalTxs); cbn [andb];
      [rewrite (proj2 (Z.ltb_ge _ _)) by done|rewrite (proj2 (Z.ltb_lt _ _)) by done];
      [simpl; lia|]. destruct (getTxKey tx); simpl; lia.
  - destruct (IsOracleTx _); simpl; rewrite length_app; simpl; lia.
  - destruct (IsOracleTx _); simpl; lia.
Qed.

Lemma Zsum_mono {A} (f g : A -> Z) l : (forall x, f x <= g x) -> Zsum (map f l) <= Zsum (map g l).
Proof.
  intros H. unfold Zsum. induction l as [|x l IH]; simpl; [lia|]. specialize (H x). lia.
Qed.

Lemma Zsum_insert {A} (f : A -> Z) l i x y : l !! i = Some x ->
  Zsum (map f (<[i := y]> l)) = Zsum (map f l) - f x + f y.
Proof.
  unfold Zsum. revert i. induction l as [|z l IH]; intros i Hi; [done|].
  destruct i; simpl in *; [injection Hi as ->; lia|]. rewrite (IH _ Hi). lia.
Qed.

Lemma Zsum_except {A} (f g : A -> Z) l i x : l !! i = Some x -> (forall x, f x <= g x) ->
  Zsum (map f l) - f x <= Zsum (map g l) - g x.
Proof.
  intros Hi H. revert i Hi. unfold Zsum. induction l as [|z l IH]; intros i Hi; [done|].
  destruct i; simpl in *.
  - injection Hi as ->. pose proof (Zsum_mono f g l H). unfold Zsum in *. lia.
  - specialize (IH _ Hi). specialize (H z). lia.
Qed.

Lemma cstep_count mp ts mp' ts' : 0 <= maxTx mp -> cstep (mp, ts) (mp', ts') ->
  maxTx mp' = maxTx mp /\ length ts' = length ts /\
  CountTx mp' + in_flight mp' ts' <= CountTx mp + in_flight mp ts.
Proof.
  intros Hm Hs. inversion Hs as [i mp0 ts0 t mp1 t' Hi Ht]; subst.
  pose proof (thread_step_grown _ _ _ _ Ht) as Hg.
  pose proof (thread_step_count _ _ _ _ Hm Ht) as Hc.
  split; [apply Hg|]. split; [apply length_insert|]. unfold in_flight.
  rewrite (Zsum_insert _ _ _ _ _ Hi).
  pose proof (Zsum_except (may_push mp') (may_push mp) ts i t Hi
    (fun t => may_push_mono mp mp' t Hg)).
  lia.
Qed.

(** [Insert] takes only the read lock, so concurrent calls can all pass
    the capacity check before one of them appends: over every interleaving of
    [n] insertions into a mempool that is not over its capacity, the count
    exceeds the capacity by at most [n - 1]. *)
Theorem capacity_overshoot_bound mp pending mp' ts' :
  0 <= maxTx mp -> CountTx mp <= maxTx mp -> pending <> [] ->
  rtc cstep (mp, map T_start pending) (mp', ts') ->
  CountTx mp' <= maxTx mp + Z.of_nat (length pending) - 1.
Proof.
  intros Hm Hc Hne Hs.
  assert (CountTx mp + in_flight mp (map T_start pending)
    <= maxTx mp + Z.of_nat (length pending) - 1) as Hinit.
  { unfold in_flight. assert (Zsum (map (may_push mp) (map T_start pending))
      = Z.of_nat (length pending) * if CountTx mp <? maxTx mp then 1 else 0) as ->.
    { clear. unfold Zsum. induction pending as [|tx l IH]; [done|].
      cbn [map foldr may_push length]. rewrite IH. lia. }
    destruct pending; [done|]. simpl length. destruct (Z.ltb_spec (CountTx mp) (maxTx mp)); lia. }
  assert (forall ts, 0 <= in_flight mp' ts) as Hpos.
  { intros ts. unfold in_flight, Zsum. clear. induction ts as [|t ts IH]; simpl; [lia|].
    assert (0 <= may_push mp' t) by (destruct t; simpl; try case_match; lia). lia. }
  enough (forall c c', rtc cstep c c' -> 0 <= maxTx c.1 ->
    maxTx c'.1 = maxTx c.1 /\ CountTx c'.1 + in_flight c'.1 c'.2 <= CountTx c.1 + in_flight c.1 c.2)
    as Hrun.
  { destruct (Hrun _ _ Hs Hm) as [_ Hle]. simpl in Hle. specialize (Hpos ts'). lia. }
  clear. induction 1 as [c|[mp ts] [mp1 ts1] c Hst _ IH]; intros Hm; [split; [done|lia]|].
  destruct (cstep_count _ _ _ _ Hm Hst) as (Heq & _ & Hle). simpl in *.
  rewrite Heq in IH. destruct (IH Hm) as [-> ?]. split; [done|lia].
Qed.

(** ** Witnesses *)
Module Example.
Definition pay (who : string) (n : Z) : Tx :=
  mkTx [OtherMsg "/cosmos.bank.v1beta1.MsgSend"] (Ok [mkSignature (Some who) n]).
Definition vote (who : string) (n : Z) : Tx :=
  mkTx [MsgAggregateDoRateVote; MsgAggregateDoRatePrevote] (Ok [mkSignature (Some who) n]).
Definition pool0 : FifoMempool := NewFifoMempool 3.
Definition pool2 : FifoMempool := (Insert (vote "val" 1) (Insert (pay "kim" 7) pool0).2).2.

Definition full1 : FifoMempool := NewFifoMempool 1.
(** Both calls read the lengths before either one appends. *)
Definition schedule : list nat := [0; 0; 1; 1; 0; 1; 0; 1; 0; 1]%nat.
Fixpoint run_schedule (sched : list nat) (c : config) : config :=
  match sched with
  | [] => c
  | i :: rest =>
    match c.2 !! i with
    | Some t => match thread_step c.1 t with
                | Some (mp', t') => run_schedule rest (mp', <[i := t']> c.2)
                | None => run_schedule rest c
                end
    | None => run_schedule rest c
    end
  end.
End Example.

Lemma run_schedule_rtc sched c : rtc cstep c (Example.run_schedule sched c).
Proof.
  revert c. induction sched as [|i sched IH]; intros [mp ts]; [apply rtc_refl|].
  cbn [Example.run_schedule fst snd]. destruct (ts !! i) as [t|] eqn:Hi; [|apply IH].
  destruct (thread_step mp t) as [[mp' t']|] eqn:Ht; [|apply IH].
  eapply rtc_l; [by apply cstep_at with (t := t)|apply IH].
Qed.

Lemma pool2_refines : refines Example.pool2 (mkSpec [Example.vote "val" 1] [Example.pay "kim" 7]).
Proof.
  destruct (insert_refines Example.pool0 (mkSpec [] []) (Example.pay "kim" 7) ("kim", 7))
    as (mp1 & E1 & H1 & M1); [apply new_mempool_refines|done|done|done|by intros ?%not_elem_of_nil|].
  destruct (insert_refines mp1 (spec_insert (Example.pay "kim" 7) (mkSpec [] []))
    (Example.vote "val" 1) ("val", 1)) as (mp2 & E2 & H2 & M2);
    [done|done|by rewrite M1|by rewrite M1|by intros ?%not_elem_of_nil|].
  unfold Example.pool2. rewrite E1. cbn [snd]. rewrite E2. exact H2.
Qed.

Lemma mempool_refines_fifo_witness :
  select_all Example.pool2 = [Example.vote "val" 1; Example.pay "kim" 7] /\
  Remove (Example.pay "lee" 2) Example.pool2 = (Err ErrTxNotFound, Example.pool2).
Proof.
  destruct (mempool_refines_fifo Example.pool2 (mkSpec [Example.vote "val" 1] [Example.pay "kim" 7])
    (Example.pay "lee" 2) ("lee", 2)) as (Hs & _ & _ & _ & _ & Hr);
    [exact pool2_refines|reflexivity|vm_compute; discriminate|].
  split; [exact Hs|]. apply Hr. apply (bool_decide_unpack _). vm_compute. exact I.
Defined.

Lemma duplicate_key_leaks_witness :
  exists e, e_Value e = Example.pay "kim" 7 /\
    forall mp', rtc pool_step (Insert (Example.pay "kim" 7) (Insert (Example.pay "kim" 7)
      Example.pool0).2).2 mp' -> e ∈ txs mp' /\ 1 <= CountTx mp'.
Proof.
  apply (duplicate_key_leaks Example.pool0 (mkSpec [] []) (Example.pay "kim" 7) (Example.pay "kim" 7)
    ("kim", 7) (Insert (Example.pay "kim" 7) Example.pool0).2);
    [apply new_mempool_refines|vm_compute; discriminate|reflexivity|reflexivity|reflexivity
    |reflexivity|apply (bool_decide_unpack _); vm_compute; exact I|reflexivity|reflexivity].
Defined.

(** The bound is reached: a mempool with room for one transaction ends up
    with two. *)
Lemma capacity_overshoot_bound_witness :
  CountTx (Example.run_schedule Example.schedule
    (Example.full1, map T_start [Example.pay "kim" 1; Example.pay "lee" 1])).1 = 2 /\
  CountTx (Example.run_schedule Example.schedule
    (Example.full1, map T_start [Example.pay "kim" 1; Example.pay "lee" 1])).1 <= 1 + 2 - 1.
Proof.
  split; [vm_compute; reflexivity|].
  apply (capacity_overshoot_bound Example.full1 [Example.pay "kim" 1; Example.pay "lee" 1] _
    (Example.run_schedule Example.schedule
      (Example.full1, map T_start [Example.pay "kim" 1; Example.pay "lee" 1])).2);
    [vm_compute; discriminate|vm_compute; discriminate|discriminate|].
  rewrite <- surjective_pairing. apply run_schedule_rtc.
Defined.
