(* ===== verification/Mfa.v ===== *)
(** * Multi-factor approval of transactions (src/x/mfa)

    An account may register a second key; from then on a transaction that
    sends its [udo] with one of the messages the module protects must carry,
    in the memo, an approval signed with that key, or one of the account's
    guardian for a change of the policy.  A lost
    key is replaced by a recovery that waits 72 hours.  The state is the
    store of policies.  [MFARequirementDecorator_AnteHandle] is the check
    before the fees, [MFAControlApplyDecorator_AnteHandle] applies the change
    the memo asks for after the signatures were verified; no decorator
    between them touches the store.  Signatures, base64, hashing and JSON are
    parameters ([MfaCrypto], [MfaJson]).  The theorems: a
    transaction with a protected message of an account that has a policy
    passes only with an approval or as the carrier of a recovery, and
    messages of every other kind pass without one, those that move [udo]
    included; without an approval the key of an account cannot change within
    72 hours. *)
From stdpp Require Import base gmap sets list strings fin_maps.
From Stdlib Require Import ZArith Lia.
From S2P Require Import Prelude Sdk SdkRef Core OracleState.
#[local] Open Scope Z_scope.

(** ** types/keys.go, types/errors.go, types/approval.go *)
Definition ModuleName : string := "mfa".
Definition ErrMFARequired : error := Registered ModuleName 2.
Definition ErrInvalidMFAApproval : error := Registered ModuleName 3.
Definition ErrExpiredMFAApproval : error := Registered ModuleName 4.
Definition ErrInvalidMFAPolicy : error := Registered ModuleName 5.

Definition ApprovalVersion : string := "dochain-mfa-v1".
Definition GuardianApprovalVersion : string := "dochain-mfa-guardian-v1".
Definition RecoveryActionDisable : string := "disable".
Definition RecoveryActionRotate : string := "rotate".
Definition PubKeySize : nat := 33.

Record MemoEnable : Type := mkMemoEnable {
  en_Account : string; en_ApprovalPubKey : string; en_GuardianAddress : string;
}.
Record MemoSetGuardian : Type := mkMemoSetGuardian {
  sg_Account : string; sg_GuardianAddress : string;
}.
Record MemoRecoveryStart : Type := mkMemoRecoveryStart {
  rs_Account : string; rs_Action : string; rs_ApprovalPubKey : string;
}.
Record MemoApproval : Type := mkMemoApproval {
  ap_Account : string; ap_ExpiresAt : Z; ap_Signature : string;
}.
Record MemoGuardianApproval : Type := mkMemoGuardianApproval {
  ga_Account : string; ga_GuardianAddress : string; ga_Action : string;
  ga_ApprovalPubKey : string; ga_GuardianPubKey : string; ga_ExpiresAt : Z; ga_Signature : string;
}.

(** [Disable], [RecoveryCancel] and [RecoveryExecute] hold an account only. *)
Record MemoMFA : Type := mkMemoMFA {
  Approvals : list MemoApproval;
  Enable : option MemoEnable;
  Disable : option string;
  SetGuardian : option MemoSetGuardian;
  RecoveryStart : option MemoRecoveryStart;
  RecoveryCancel : option string;
  RecoveryExecute : option string;
  GuardianApproval : option MemoGuardianApproval;
}.

Record SignerSequence : Type := mkSignerSequence { ss_Address : string; ss_Sequence : Z }.
Record ApprovalPayload : Type := mkApprovalPayload {
  pl_Version : string; pl_ChainID : string; pl_Account : string; pl_ExpiresAt : Z;
  pl_TimeoutHeight : Z; pl_MessagesHash : string; pl_Signers : list SignerSequence;
}.
Record GuardianApprovalPayload : Type := mkGuardianPayload {
  gp_Version : string; gp_ChainID : string; gp_Account : string; gp_GuardianAddress : string;
  gp_Action : string; gp_ApprovalPubKey : string; gp_ExpiresAt : Z; gp_TimeoutHeight : Z;
  gp_MessagesHash : string; gp_Signers : list SignerSequence;
}.

(** ** types/policy.go *)
Definition RecoveryDelaySeconds : Z := 72 * 60 * 60.

Record PendingRecovery : Type := mkPendingRecovery {
  pr_Action : string; pr_ApprovalPubKey : string; pr_RequestedAt : Z; pr_ExecuteAfter : Z;
}.
Record Policy : Type := mkPolicy {
  po_Account : string; po_ApprovalPubKey : string; po_Enabled : bool;
  po_GuardianAddress : string; po_PendingRecovery : option PendingRecovery;
}.

Definition IsRecoveryAction (action : string) : bool :=
  String.eqb action RecoveryActionDisable || String.eqb action RecoveryActionRotate.

Definition PendingRecovery_ValidateBasic (r : PendingRecovery) : res unit :=
  if negb (IsRecoveryAction (pr_Action r)) then Err (Plain "invalid mfa recovery action")
  else if String.eqb (pr_Action r) RecoveryActionRotate &&
          negb (Nat.eqb (String.length (pr_ApprovalPubKey r)) PubKeySize)
  then Err (Plain "invalid mfa recovery approval public key length")
  else if String.eqb (pr_Action r) RecoveryActionDisable &&
          negb (Nat.eqb (String.length (pr_ApprovalPubKey r)) 0)
  then Err (Plain "disable recovery must not include an approval public key")
  else if pr_RequestedAt r <=? 0 then Err (Plain "invalid mfa recovery request time")
  else if pr_ExecuteAfter r <? i64 (pr_RequestedAt r + RecoveryDelaySeconds)
  then Err (Plain "mfa recovery delay is too short")
  else Ok tt.

(** ** Messages and transactions as the decorators see them

    [MsgExec] holds what [GetMessages] answers. *)
Inductive Msg : Type :=
| MsgSend (FromAddress ToAddress : string) (Amount : list Coin)
| MsgMultiSend (Inputs : list (string * list Coin))
| MsgUndelegate (DelegatorAddress : string) (Amount : Coin)
| MsgBeginRedelegate (DelegatorAddress : string) (Amount : Coin)
| MsgTransfer (Sender : string) (Token : Coin)
| MsgExecuteContract (Sender : string) (Funds : list Coin)
| LegacyMsgExecuteContract (Sender : string) (Coins : list Coin)
| MsgSwapSend (FromAddress : string) (OfferCoin : Coin)
| MsgSwap (Trader : string) (OfferCoin : Coin)
| MsgExec (Messages : res (list Msg))
| OtherMsg (typeURL : string).

(** The transactions of the application have a memo, a timeout height and
    signers; an error of [GetSigners] and a transaction that does not expose
    them are the same error. *)
Record Tx : Type := mkTx {
  GetMsgs : list Msg; GetMemo : string; GetTimeoutHeight : Z; GetSigners : res (list AccAddress);
}.

(** The sequence of the account, when there is one. *)
Abbreviation Accounts := (AccAddress -> option Z) (only parsing).

Class MfaCrypto : Type := {
  VerifySignature : string -> string -> string -> bool;
  PubKeyAddress : string -> AccAddress;
  DecodeString : string -> res string;
  Sha256 : string -> string;
}.
Class MfaJson : Type := {
  UnmarshalEnvelope : string -> res (option MemoMFA);
  HasMemoKey : string -> bool;
  MarshalInterfaceJSON : Msg -> res string;
  MustSortJSON : string -> res string;
  ApprovalSignBytes : ApprovalPayload -> string;
  GuardianSignBytes : GuardianApprovalPayload -> string;
}.

Abbreviation State := (gmap string Policy) (only parsing).

Section mfa.
Context `{AddrCodec} `{CoinOps} `{MfaCrypto} `{MfaJson} `{MapRange}.
Implicit Types s : State.

Definition NewPolicy (account : AccAddress) (approvalPubKey : string) : Policy :=
  mkPolicy (AccAddressString account) approvalPubKey true "" None.

(** The error of a call replaced by a registered one. *)
Definition wrap {A} (e : error) (r : res A) : res A :=
  match r with Err _ => Err e | _ => r end.
Definition parse_account (address : string) : res AccAddress :=
  wrap (SdkError "ErrInvalidAddress") (AccAddressFromBech32 address).

Definition Policy_ValidateBasic (p : Policy) : res unit :=
  _ ← wrap (Plain "invalid mfa account") (AccAddressFromBech32 (po_Account p));
  if negb (po_Enabled p) then Ok tt
  else if negb (Nat.eqb (String.length (po_ApprovalPubKey p)) PubKeySize)
  then Err (Plain "invalid mfa approval public key length")
  else
    _ ← (if negb (String.eqb (po_GuardianAddress p) "")
         then _ ← wrap (Plain "invalid mfa guardian address")
                    (AccAddressFromBech32 (po_GuardianAddress p)); Ok tt
         else Ok tt);
    match po_PendingRecovery p with
    | Some r => PendingRecovery_ValidateBasic r
    | None => Ok tt
    end.

(** ** keeper/policy.go: policies are kept under the text of the account *)
Definition SetPolicy (policy : Policy) : M State unit :=
  _ ← lift (Policy_ValidateBasic policy);
  modify (<[po_Account policy := policy]>).
Definition GetPolicy s (account : AccAddress) : option Policy :=
  match s !! AccAddressString account with
  | Some policy => if po_Enabled policy then Some policy else None
  | None => None
  end.
Definition DeletePolicy (account : AccAddress) : M State unit :=
  modify (delete (AccAddressString account)).
Definition HasPolicy s (account : AccAddress) : bool :=
  match GetPolicy s account with Some _ => true | None => false end.

(** ** ante/ante.go: helpers *)
Definition parseMFAMemo (tx : Tx) : res (option MemoMFA) :=
  if String.eqb (GetMemo tx) "" then Ok None else UnmarshalEnvelope (GetMemo tx).
Definition containsMFAKey (memo : string) : bool := HasMemoKey memo.
Definition containsDo (coins : list Coin) : bool := 0 <? AmountOf coins MicroDoDenom.

Definition addAccount (accounts : gmap string AccAddress) (address : string) :
    res (gmap string AccAddress) :=
  account ← parse_account address;
  Ok (<[AccAddressString account := account]> accounts).

Fixpoint addProtectedAccounts (accounts : gmap string AccAddress) (msg : Msg) :
    res (gmap string AccAddress) :=
  match msg with
  | MsgSend from _ amount => if containsDo amount then addAccount accounts from else Ok accounts
  | MsgMultiSend inputs =>
      foldRes (fun acc input => if containsDo input.2 then addAccount acc input.1 else Ok acc)
        accounts inputs
  | MsgUndelegate delegator amount | MsgBeginRedelegate delegator amount =>
      if String.eqb (Denom amount) MicroDoDenom then addAccount accounts delegator else Ok accounts
  | MsgTransfer sender token =>
      if String.eqb (Denom token) MicroDoDenom then addAccount accounts sender else Ok accounts
  | MsgExecuteContract sender funds | LegacyMsgExecuteContract sender funds =>
      if containsDo funds then addAccount accounts sender else Ok accounts
  | MsgSwapSend from offer | MsgSwap from offer =>
      if String.eqb (Denom offer) MicroDoDenom then addAccount accounts from else Ok accounts
  | MsgExec (Ok innerMsgs) =>
      (fix loop acc (l : list Msg) : res (gmap string AccAddress) :=
         match l with
         | [] => Ok acc
         | m :: l => acc' ← addProtectedAccounts acc m; loop acc' l
         end) accounts innerMsgs
  | MsgExec (Err _) => Err ErrInvalidMFAApproval
  | MsgExec Panic => Panic
  | OtherMsg _ => Ok accounts
  end.

Definition protectedAccounts (msgs : list Msg) : res (gmap string AccAddress) :=
  foldRes addProtectedAccounts ∅ msgs.

Fixpoint hash_loop (acc : string) (msgs : list Msg) : res string :=
  match msgs with
  | [] => Ok acc
  | msg :: rest =>
    bz ← wrap ErrInvalidMFAApproval (MarshalInterfaceJSON msg);
    sorted ← match MustSortJSON bz with Ok x => Ok x | _ => Panic end;
    hash_loop (acc +:+ sorted) rest
  end.
Definition messagesHash (msgs : list Msg) : res string :=
  bytes ← hash_loop "" msgs;
  Ok (EncodeToString (Sha256 bytes)).

Definition signerSequences (accounts : Accounts) (tx : Tx) : res (list SignerSequence) :=
  signers ← wrap ErrInvalidMFAApproval (GetSigners tx);
  Ok (map (fun a => mkSignerSequence (AccAddressString a) (default 0 (accounts a))) signers).

Definition requireTxSigner (tx : Tx) (account : AccAddress) : res unit :=
  signers ← wrap ErrInvalidMFAApproval (GetSigners tx);
  if existsb (String.eqb account) signers then Ok tt else Err (SdkError "ErrUnauthorized").

Definition newApprovalPayload (ctx : Ctx) (account : string) (expiresAt timeoutHeight : Z)
    (messagesHash : string) (signers : list SignerSequence) : ApprovalPayload :=
  mkApprovalPayload ApprovalVersion (ChainID ctx) account expiresAt timeoutHeight messagesHash signers.
Definition newGuardianApprovalPayload (ctx : Ctx)
    (account guardianAddress action approvalPubKey : string) (expiresAt timeoutHeight : Z)
    (messagesHash : string) (signers : list SignerSequence) : GuardianApprovalPayload :=
  mkGuardianPayload GuardianApprovalVersion (ChainID ctx) account guardianAddress action approvalPubKey
    expiresAt timeoutHeight messagesHash signers.

Definition approvalPayload (ctx : Ctx) (accounts : Accounts) (tx : Tx) (account : string)
    (expiresAt : Z) : res ApprovalPayload :=
  msgsHash ← messagesHash (GetMsgs tx);
  signers ← signerSequences accounts tx;
  Ok (newApprovalPayload ctx account expiresAt (GetTimeoutHeight tx) msgsHash signers).

Fixpoint approvalForAccount (approvals : list MemoApproval) (account : string) :
    option MemoApproval :=
  match approvals with
  | [] => None
  | a :: rest => if String.eqb (ap_Account a) account then Some a else approvalForAccount rest account
  end.

Definition one {A} (o : option A) : nat := match o with Some _ => 1 | None => 0 end.
Definition validateControlActionCount (m : MemoMFA) : res unit :=
  let actions := (one (Enable m) + one (Disable m) + one (SetGuardian m) + one (RecoveryStart m) +
                  one (RecoveryCancel m) + one (RecoveryExecute m))%nat in
  if (1 <? actions)%nat then Err ErrInvalidMFAApproval else Ok tt.

Definition recoveryBypassAccount (m : MemoMFA) : res (option AccAddress) :=
  let account :=
    match RecoveryStart m with
    | Some r => Some (rs_Account r)
    | None => match RecoveryCancel m with Some a => Some a | None => RecoveryExecute m end
    end in
  match account with
  | None => Ok None
  | Some a => addr ← parse_account a; Ok (Some addr)
  end.

Definition requireRecoveryControlCarrier (tx : Tx) (account : AccAddress) : res unit :=
  match GetMsgs tx with
  | [] => Ok tt
  | [MsgSend from to amount] =>
      if negb (String.eqb from (AccAddressString account)) ||
         negb (String.eqb to (AccAddressString account))
      then Err ErrInvalidMFAApproval
      else
        coin ← NewCoin MicroDoDenom 1;
        exact ← NewCoins [coin];
        if negb (AmountOf amount MicroDoDenom =? 1) || negb (bool_decide (amount = exact))
        then Err ErrInvalidMFAApproval
        else Ok tt
  | _ => Err ErrInvalidMFAApproval
  end.

Definition validateOptionalGuardianAddress (address : string) : res unit :=
  if String.eqb address "" then Ok tt else _ ← parse_account address; Ok tt.

Definition recoveryApprovalPubKey (action encodedPubKey : string) : res string :=
  if String.eqb action RecoveryActionDisable then
    if negb (String.eqb encodedPubKey "") then Err ErrInvalidMFAPolicy else Ok ""
  else
    pubKey ← wrap ErrInvalidMFAPolicy (DecodeString encodedPubKey);
    if negb (Nat.eqb (String.length pubKey) PubKeySize) then Err ErrInvalidMFAPolicy else Ok pubKey.

Definition validateRecoveryRequest (action approvalPubKey : string) : res unit :=
  if negb (IsRecoveryAction action) then Err ErrInvalidMFAPolicy
  else _ ← recoveryApprovalPubKey action approvalPubKey; Ok tt.

Definition guardianControlAction (m : MemoMFA) : option (string * string) :=
  match Disable m with
  | Some _ => Some (RecoveryActionDisable, "")
  | None =>
    match Enable m with
    | Some e => Some (RecoveryActionRotate, en_ApprovalPubKey e)
    | None => None
    end
  end.

(** ** ante/ante.go: what the memo demands *)
Definition policy_or s (account : AccAddress) : res Policy :=
  match GetPolicy s account with Some p => Ok p | None => Err ErrInvalidMFAPolicy end.

Definition addControlRequirements s (accounts : gmap string AccAddress) (m : MemoMFA) :
    res (gmap string AccAddress) :=
  accounts ←
    match Enable m with
    | None => Ok accounts
    | Some en =>
      addr ← parse_account (en_Account en);
      Ok (if HasPolicy s addr then <[AccAddressString addr := addr]> accounts else accounts)
    end;
  accounts ←
    match Disable m with
    | None => Ok accounts
    | Some a =>
      addr ← parse_account a;
      _ ← policy_or s addr;
      Ok (<[AccAddressString addr := addr]> accounts)
    end;
  accounts ←
    match SetGuardian m with
    | None => Ok accounts
    | Some sg =>
      addr ← parse_account (sg_Account sg);
      _ ← policy_or s addr;
      _ ← validateOptionalGuardianAddress (sg_GuardianAddress sg);
      Ok (<[AccAddressString addr := addr]> accounts)
    end;
  _ ←
    match RecoveryStart m with
    | None => Ok tt
    | Some r =>
      addr ← parse_account (rs_Account r);
      _ ← policy_or s addr;
      validateRecoveryRequest (rs_Action r) (rs_ApprovalPubKey r)
    end;
  _ ←
    match RecoveryCancel m with
    | None => Ok tt
    | Some a => addr ← parse_account a; _ ← policy_or s addr; Ok tt
    end;
  _ ←
    match RecoveryExecute m with
    | None => Ok tt
    | Some a =>
      addr ← parse_account a;
      policy ← policy_or s addr;
      match po_PendingRecovery policy with None => Err ErrInvalidMFAPolicy | Some _ => Ok tt end
    end;
  Ok accounts.

Definition accountsWithPolicy s (accounts : gmap string AccAddress) : gmap string AccAddress :=
  filter (fun kv => HasPolicy s kv.2 = true) accounts.

Definition verifyInitialEnableApproval (ctx : Ctx) (accounts : Accounts) (tx : Tx) (m : MemoMFA) s :
    res unit :=
  match Enable m with
  | None => Ok tt
  | Some en =>
    account ← parse_account (en_Account en);
    if HasPolicy s account then Ok tt
    else
      _ ← requireTxSigner tx account;
      pubKey ← wrap ErrInvalidMFAPolicy (DecodeString (en_ApprovalPubKey en));
      _ ← wrap ErrInvalidMFAPolicy (Policy_ValidateBasic (NewPolicy account pubKey));
      _ ← validateOptionalGuardianAddress (en_GuardianAddress en);
      match approvalForAccount (Approvals m) (AccAddressString account) with
      | None => Err ErrMFARequired
      | Some approval =>
        if ap_ExpiresAt approval <=? BlockTime ctx then Err ErrExpiredMFAApproval
        else
          signature ← wrap ErrInvalidMFAApproval (DecodeString (ap_Signature approval));
          payload ← approvalPayload ctx accounts tx (AccAddressString account) (ap_ExpiresAt approval);
          if negb (VerifySignature pubKey (ApprovalSignBytes payload) signature)
          then Err ErrInvalidMFAApproval
          else Ok tt
      end
  end.

Definition verifyGuardianApproval (ctx : Ctx) (account : string) (policy : Policy) (m : MemoMFA)
    (timeoutHeight : Z) (msgsHash : string) (signers : list SignerSequence) : res bool :=
  match GuardianApproval m with
  | None => Ok false
  | Some approval =>
    if String.eqb (po_GuardianAddress policy) "" then Err ErrInvalidMFAApproval
    else
      match guardianControlAction m with
      | None => Err ErrInvalidMFAApproval
      | Some (action, approvalPubKey) =>
        if negb (String.eqb (ga_Account approval) account) then Ok false
        else if negb (String.eqb (ga_GuardianAddress approval) (po_GuardianAddress policy))
        then Err ErrInvalidMFAApproval
        else if negb (String.eqb (ga_Action approval) action) ||
                negb (String.eqb (ga_ApprovalPubKey approval) approvalPubKey)
        then Err ErrInvalidMFAApproval
        else if ga_ExpiresAt approval <=? BlockTime ctx then Err ErrExpiredMFAApproval
        else
          guardianPubKey ← wrap ErrInvalidMFAApproval (DecodeString (ga_GuardianPubKey approval));
          let guardianAddress := AccAddressString (PubKeyAddress guardianPubKey) in
          if negb (String.eqb guardianAddress (po_GuardianAddress policy))
          then Err ErrInvalidMFAApproval
          else
            signature ← wrap ErrInvalidMFAApproval (DecodeString (ga_Signature approval));
            let payload := newGuardianApprovalPayload ctx account (po_GuardianAddress policy) action
              approvalPubKey (ga_ExpiresAt approval) timeoutHeight msgsHash signers in
            if negb (VerifySignature guardianPubKey (GuardianSignBytes payload) signature)
            then Err ErrInvalidMFAApproval
            else Ok true
      end
  end.

(** One account of the loop in [verifyApprovals]. *)
Definition verify_one (ctx : Ctx) (tx : Tx) (m : MemoMFA) s
    (approvalByAccount : gmap string MemoApproval) (msgsHash : string)
    (signers : list SignerSequence) (kv : string * AccAddress) : res unit :=
  let '(account, addr) := kv in
  match GetPolicy s addr with
  | None => Ok tt
  | Some policy =>
    match approvalByAccount !! account with
    | Some approval =>
      if ap_ExpiresAt approval <=? BlockTime ctx then Err ErrExpiredMFAApproval
      else
        signature ← wrap ErrInvalidMFAApproval (DecodeString (ap_Signature approval));
        let payload := newApprovalPayload ctx account (ap_ExpiresAt approval)
          (GetTimeoutHeight tx) msgsHash signers in
        if VerifySignature (po_ApprovalPubKey policy) (ApprovalSignBytes payload) signature
        then Ok tt
        else Err ErrInvalidMFAApproval
    | None =>
      guardianOK ← verifyGuardianApproval ctx account policy m (GetTimeoutHeight tx) msgsHash signers;
      if (guardianOK : bool) then Ok tt else Err ErrMFARequired
    end
  end.

Definition approvals_by_account (approvals : list MemoApproval) : gmap string MemoApproval :=
  foldl (fun acc a => <[ap_Account a := a]> acc) ∅ approvals.

Definition verifyApprovals (ctx : Ctx) (accounts : Accounts) (tx : Tx)
    (required : gmap string AccAddress) (m : MemoMFA) s : res unit :=
  msgsHash ← messagesHash (GetMsgs tx);
  signers ← signerSequences accounts tx;
  foldRes (fun _ kv => verify_one ctx tx m s (approvals_by_account (Approvals m)) msgsHash signers kv)
    tt (map_range required).

Definition MFARequirementDecorator_AnteHandle (ctx : Ctx) (accounts : Accounts) (tx : Tx) s : res unit :=
  let parsed := parseMFAMemo tx in
  let memoErr := negb (is_ok parsed) in
  let mfaMemo := match parsed with Ok m => m | _ => None end in
  protected ← protectedAccounts (GetMsgs tx);
  protected ←
    match mfaMemo with
    | None => Ok protected
    | Some m =>
      _ ← validateControlActionCount m;
      protected ← addControlRequirements s protected m;
      bypass ← recoveryBypassAccount m;
      match bypass with
      | None => Ok protected
      | Some account =>
        _ ← requireRecoveryControlCarrier tx account;
        Ok (delete (AccAddressString account) protected)
      end
    end;
  let required := accountsWithPolicy s protected in
  _ ←
    (if negb (bool_decide (required = ∅)) then
       if memoErr then Err ErrInvalidMFAApproval
       else
         match mfaMemo with
         | None => Err ErrMFARequired
         | Some m => verifyApprovals ctx accounts tx required m s
         end
     else if memoErr && containsMFAKey (GetMemo tx) then Err ErrInvalidMFAApproval
     else Ok tt);
  match mfaMemo with
  | None => Ok tt
  | Some m => verifyInitialEnableApproval ctx accounts tx m s
  end.

(** ** ante/ante.go: what the memo changes *)
Definition set_policy (p : Policy) : M State unit := fun s =>
  match SetPolicy p s with (Err _, s') => (Err ErrInvalidMFAPolicy, s') | r => r end.

Definition apply_enable (tx : Tx) (en : MemoEnable) : M State unit :=
  account ← lift (parse_account (en_Account en));
  _ ← lift (requireTxSigner tx account);
  pubKey ← lift (wrap ErrInvalidMFAPolicy (DecodeString (en_ApprovalPubKey en)));
  s ← get;
  let guardianAddress :=
    match GetPolicy s account with
    | Some existing => if String.eqb (en_GuardianAddress en) "" then po_GuardianAddress existing
                       else en_GuardianAddress en
    | None => en_GuardianAddress en
    end in
  _ ← lift (validateOptionalGuardianAddress guardianAddress);
  set_policy (mkPolicy (AccAddressString account) pubKey true guardianAddress None).

Definition apply_disable (tx : Tx) (a : string) : M State unit :=
  account ← lift (parse_account a);
  _ ← lift (requireTxSigner tx account);
  DeletePolicy account.

Definition apply_set_guardian (tx : Tx) (sg : MemoSetGuardian) : M State unit :=
  account ← lift (parse_account (sg_Account sg));
  _ ← lift (requireTxSigner tx account);
  _ ← lift (validateOptionalGuardianAddress (sg_GuardianAddress sg));
  s ← get;
  policy ← lift (policy_or s account);
  set_policy (mkPolicy (po_Account policy) (po_ApprovalPubKey policy) (po_Enabled policy)
    (sg_GuardianAddress sg) (po_PendingRecovery policy)).

Definition with_pending (p : Policy) (r : option PendingRecovery) : Policy :=
  mkPolicy (po_Account p) (po_ApprovalPubKey p) (po_Enabled p) (po_GuardianAddress p) r.

Definition apply_recovery_start (ctx : Ctx) (tx : Tx) (r : MemoRecoveryStart) : M State unit :=
  account ← lift (parse_account (rs_Account r));
  _ ← lift (requireTxSigner tx account);
  s ← get;
  policy ← lift (policy_or s account);
  approvalPubKey ← lift (recoveryApprovalPubKey (rs_Action r) (rs_ApprovalPubKey r));
  let requestedAt := BlockTime ctx in
  set_policy (with_pending policy (Some (mkPendingRecovery (rs_Action r) approvalPubKey requestedAt
    (i64 (requestedAt + RecoveryDelaySeconds))))).

Definition apply_recovery_cancel (tx : Tx) (a : string) : M State unit :=
  account ← lift (parse_account a);
  _ ← lift (requireTxSigner tx account);
  s ← get;
  policy ← lift (policy_or s account);
  set_policy (with_pending policy None).

Definition apply_recovery_execute (ctx : Ctx) (tx : Tx) (a : string) : M State unit :=
  account ← lift (parse_account a);
  _ ← lift (requireTxSigner tx account);
  s ← get;
  policy ← lift (policy_or s account);
  match po_PendingRecovery policy with
  | None => throw ErrInvalidMFAPolicy
  | Some r =>
    if BlockTime ctx <? pr_ExecuteAfter r then throw ErrMFARequired
    else if String.eqb (pr_Action r) RecoveryActionDisable then DeletePolicy account
    else if String.eqb (pr_Action r) RecoveryActionRotate then
      set_policy (mkPolicy (AccAddressString account) (pr_ApprovalPubKey r) true
        (po_GuardianAddress policy) None)
    else throw ErrInvalidMFAPolicy
  end.

Definition on_some {A} (o : option A) (f : A -> M State unit) : M State unit :=
  match o with Some a => f a | None => mret tt end.

Definition applyControlActions (ctx : Ctx) (tx : Tx) (m : MemoMFA) : M State unit :=
  on_some (Enable m) (apply_enable tx) ;;
  on_some (Disable m) (apply_disable tx) ;;
  on_some (SetGuardian m) (apply_set_guardian tx) ;;
  on_some (RecoveryStart m) (apply_recovery_start ctx tx) ;;
  on_some (RecoveryCancel m) (apply_recovery_cancel tx) ;;
  on_some (RecoveryExecute m) (apply_recovery_execute ctx tx).

Definition MFAControlApplyDecorator_AnteHandle (ctx : Ctx) (tx : Tx) : M State unit :=
  match parseMFAMemo tx with
  | Ok (Some m) =>
      _ ← lift (validateControlActionCount m);
      applyControlActions ctx tx m
  | Ok None => mret tt
  | _ => if containsMFAKey (GetMemo tx) then throw ErrInvalidMFAApproval else mret tt
  end.

(** The two decorators of a transaction, in the order of the chain. *)
Definition mfa_ante (ctx : Ctx) (accounts : Accounts) (tx : Tx) : M State unit :=
  s ← get;
  _ ← lift (MFARequirementDecorator_AnteHandle ctx accounts tx s);
  MFAControlApplyDecorator_AnteHandle ctx tx.

(** ** genesis.go *)
Fixpoint validate_policies (seen : gset string) (policies : list Policy) : res unit :=
  match policies with
  | [] => Ok tt
  | p :: rest =>
    _ ← Policy_ValidateBasic p;
    if bool_decide (po_Account p ∈ seen) then Err (Plain "duplicate mfa policy")
    else validate_policies ({[po_Account p]} ∪ seen) rest
  end.
Definition ValidateGenesis (policies : list Policy) : res unit := validate_policies ∅ policies.
Definition InitGenesis (policies : list Policy) : M State unit :=
  _ ← must (ValidateGenesis policies);
  forM (fun p s => match SetPolicy p s with (Err _, s') => (Panic, s') | r => r end) policies.
Definition ExportGenesis s : list Policy :=
  omap (fun kv => match AccAddressFromBech32 kv.1 with
                  | Ok addr => GetPolicy s addr
                  | _ => None
                  end) (kv_iter s).
End mfa.

(** ** The protected messages, and the accounts whose [udo] they move

    This is the list of the module's README.  Delegations, deposits, payments
    to the community pool, funds for the instantiation of a contract and fees
    move [udo] too and are not on it. *)
Section protection.
Context `{AddrCodec} `{CoinOps} `{MfaCrypto} `{MfaJson} `{MapRange}.
Context `{!AddrLaws} `{!MapRangeLaws}.

Inductive protected_message : Msg -> string -> Prop :=
| pm_send from to amount : 0 < AmountOf amount MicroDoDenom -> protected_message (MsgSend from to amount) from
| pm_multi_send inputs i : i ∈ inputs -> 0 < AmountOf i.2 MicroDoDenom ->
    protected_message (MsgMultiSend inputs) i.1
| pm_undelegate d c : Denom c = MicroDoDenom -> protected_message (MsgUndelegate d c) d
| pm_redelegate d c : Denom c = MicroDoDenom -> protected_message (MsgBeginRedelegate d c) d
| pm_transfer a c : Denom c = MicroDoDenom -> protected_message (MsgTransfer a c) a
| pm_execute a cs : 0 < AmountOf cs MicroDoDenom -> protected_message (MsgExecuteContract a cs) a
| pm_legacy_execute a cs : 0 < AmountOf cs MicroDoDenom -> protected_message (LegacyMsgExecuteContract a cs) a
| pm_swap_send a c : Denom c = MicroDoDenom -> protected_message (MsgSwapSend a c) a
| pm_swap a c : Denom c = MicroDoDenom -> protected_message (MsgSwap a c) a
| pm_exec inner m a : m ∈ inner -> protected_message m a -> protected_message (MsgExec (Ok inner)) a.

Lemma Msg_nested_ind (P : Msg -> Prop) :
  (forall m, match m with MsgExec (Ok _) => False | _ => True end -> P m) ->
  (forall inner, Forall P inner -> P (MsgExec (Ok inner))) -> forall m, P m.
Proof.
  intros Hflat Hexec. fix IH 1. intros m. destruct m as [| | | | | | | | |[inner| |]|];
    try (apply Hflat; exact I).
  apply Hexec. induction inner as [|x inner IHl]; [constructor|]. constructor; [apply IH|exact IHl].
Qed.

(** Collected accounts are kept under the text that parses to them. *)
Definition wf_accounts (acc : gmap string AccAddress) : Prop :=
  forall k a, acc !! k = Some a -> AccAddressFromBech32 k = Ok a.

Definition adds (acc acc' : gmap string AccAddress) (Q : string -> Prop) : Prop :=
  wf_accounts acc' /\ acc ⊆ acc' /\
  forall t a, Q t -> AccAddressFromBech32 t = Ok a -> acc' !! AccAddressString a = Some a.

Lemma parse_account_ok t a : parse_account t = Ok a -> AccAddressFromBech32 t = Ok a.
Proof. unfold parse_account, wrap. by destruct (AccAddressFromBech32 t). Qed.

Lemma insert_account acc t a : wf_accounts acc -> AccAddressFromBech32 t = Ok a ->
  wf_accounts (<[AccAddressString a := a]> acc) /\ acc ⊆ <[AccAddressString a := a]> acc.
Proof.
  intros Hwf Ht. pose proof (acc_roundtrip _ _ Ht) as Hr. split.
  - intros k b. destruct (decide (k = AccAddressString a)) as [->|Hne].
    + rewrite lookup_insert_eq. by intros [= <-].
    + rewrite lookup_insert_ne by done. apply Hwf.
  - apply map_subseteq_spec. intros k b Hk. destruct (decide (k = AccAddressString a)) as [->|Hne].
    + rewrite lookup_insert_eq. apply Hwf in Hk. congruence.
    + by rewrite lookup_insert_ne.
Qed.

Lemma addAccount_adds acc t acc' : wf_accounts acc -> addAccount acc t = Ok acc' ->
  adds acc acc' (fun t' => t' = t).
Proof.
  unfold addAccount. intros Hwf E. apply res_bind_ok in E as (a & Ha & E). injection E as <-.
  apply parse_account_ok in Ha. destruct (insert_account acc t a Hwf Ha) as [? ?].
  split_and!; [done|done|]. intros t' b -> Hb. rewrite Ha in Hb. injection Hb as <-.
  apply lookup_insert_eq.
Qed.

Lemma adds_weaken acc acc' Q Q' : adds acc acc' Q -> (forall t, Q' t -> Q t) -> adds acc acc' Q'.
Proof. intros (? & ? & Hq) Hi. split_and!; [done..|]. intros t a Ht. apply Hq. auto. Qed.

Lemma adds_none acc Q : wf_accounts acc -> (forall t, Q t -> False) -> adds acc acc Q.
Proof. intros Hwf Hno. split_and!; [done|done|]. intros t a Ht. by apply Hno in Ht. Qed.

Lemma fold_adds {A} (f : gmap string AccAddress -> A -> res (gmap string AccAddress))
    (Q : A -> string -> Prop) l : forall acc acc',
  (forall x, x ∈ l -> forall b b', wf_accounts b -> f b x = Ok b' -> adds b b' (Q x)) ->
  wf_accounts acc -> foldRes f acc l = Ok acc' ->
  adds acc acc' (fun t => exists x, x ∈ l /\ Q x t).
Proof.
  induction l as [|x l IH]; simpl; intros acc acc' Hf Hwf E.
  - injection E as <-. apply adds_none; [done|]. intros t (x & Hx & _). by apply not_elem_of_nil in Hx.
  - apply res_bind_ok in E as (b & Hb & E). apply Hf in Hb as (Hwb & Hsub & Hq); [|left|done].
    apply IH in E as (Hw' & Hsub' & Hq'); [|intros; apply Hf; [by right|done..]|done].
    split_and!; [done|by transitivity b|]. intros t a (y & [->|Hy]%elem_of_cons & Hyt) Ht.
    + eapply lookup_weaken; [by eapply Hq|done].
    + by eapply Hq'; eauto.
Qed.

Lemma exec_loop l : forall acc,
  addProtectedAccounts acc (MsgExec (Ok l)) = foldRes addProtectedAccounts acc l.
Proof.
  induction l as [|m l IH]; intros acc; [done|]. simpl in *.
  destruct (addProtectedAccounts acc m); simpl; [apply IH|done..].
Qed.

Lemma containsDo_true cs : containsDo cs = true <-> 0 < AmountOf cs MicroDoDenom.
Proof. unfold containsDo. apply Z.ltb_lt. Qed.

Ltac flat_message Hwf E :=
  match type of E with
  | (if ?c then _ else _) = _ =>
      let C := fresh "C" in destruct c eqn:C;
      [eapply adds_weaken; [by eapply addAccount_adds|by inversion 1]
      |injection E as <-; apply adds_none; [done|];
       inversion 1; subst; rewrite ?(proj2 (containsDo_true _)) in C by done;
       rewrite ?(proj2 (String.eqb_eq _ _)) in C by done; discriminate]
  end.

Lemma addProtectedAccounts_adds msg : forall acc acc', wf_accounts acc ->
  addProtectedAccounts acc msg = Ok acc' -> adds acc acc' (protected_message msg).
Proof.
  induction msg as [msg Hflat|inner IH] using Msg_nested_ind; intros acc acc' Hwf E.
  - destruct msg as [| | | | | | | | |[| |]|]; try done; cbn [addProtectedAccounts] in E;
      try flat_message Hwf E.
    + eapply adds_weaken; [eapply (fold_adds _
        (fun (i : string * list Coin) t => 0 < AmountOf i.2 MicroDoDenom /\ t = i.1)); [|done|done]|].
      * intros i _ b b' Hb Eb. cbn beta in Eb. destruct (containsDo i.2) eqn:C.
        -- eapply adds_weaken; [by eapply addAccount_adds|]. by intros t [_ ->].
        -- injection Eb as <-. apply adds_none; [done|]. intros t [Hp _].
           apply containsDo_true in Hp. congruence.
      * intros t Ht. inversion Ht; subst. eauto.
    + injection E as <-. apply adds_none; [done|]. by inversion 1.
  - rewrite exec_loop in E.
    eapply adds_weaken; [eapply (fold_adds _ protected_message); [|done|done]|].
    + intros x Hx. rewrite Forall_forall in IH. by apply IH.
    + intros t Ht. inversion Ht; subst. eauto.
Qed.

Lemma protectedAccounts_adds msgs acc : protectedAccounts msgs = Ok acc ->
  adds ∅ acc (fun t => exists m, m ∈ msgs /\ protected_message m t).
Proof.
  apply fold_adds.
  - intros m _ b b'. apply addProtectedAccounts_adds.
  - intros k a. by rewrite lookup_empty.
Qed.

Lemma other_messages msgs : (forall msg, msg ∈ msgs -> exists typeURL, msg = OtherMsg typeURL) -> forall acc,
  foldRes addProtectedAccounts acc msgs = Ok acc.
Proof.
  induction msgs as [|m msgs IH]; intros Ho acc; [done|]. destruct (Ho m) as [url ->]; [left|].
  apply IH. intros msg Hm. apply Ho. by right.
Qed.
Lemma accountsWithPolicy_empty s : accountsWithPolicy s ∅ = ∅.
Proof. apply map_filter_empty. Qed.
End protection.

(** ** What passing the requirement means *)
Section requirement.
Context `{AddrCodec} `{CoinOps} `{MfaCrypto} `{MfaJson} `{MapRange}.
Context `{!AddrLaws} `{!MapRangeLaws}.
Implicit Types s : State.

(** The second key of the account signed this transaction. *)
Definition own_approval (ctx : Ctx) (tx : Tx) (m : MemoMFA) (policy : Policy) (account : string)
    (hash : string) (signers : list SignerSequence) : Prop :=
  exists a sig, a ∈ Approvals m /\ ap_Account a = account /\ BlockTime ctx < ap_ExpiresAt a /\
    DecodeString (ap_Signature a) = Ok sig /\
    VerifySignature (po_ApprovalPubKey policy) (ApprovalSignBytes (newApprovalPayload ctx account
      (ap_ExpiresAt a) (GetTimeoutHeight tx) hash signers)) sig = true.

(** The guardian of the account signed this change of its policy. *)
Definition guardian_approval (ctx : Ctx) (tx : Tx) (m : MemoMFA) (policy : Policy) (account : string)
    (hash : string) (signers : list SignerSequence) : Prop :=
  exists g pk sig action key, GuardianApproval m = Some g /\ ga_Account g = account /\
    BlockTime ctx < ga_ExpiresAt g /\ po_GuardianAddress policy <> "" /\
    AccAddressString (PubKeyAddress pk) = po_GuardianAddress policy /\
    guardianControlAction m = Some (action, key) /\
    DecodeString (ga_GuardianPubKey g) = Ok pk /\ DecodeString (ga_Signature g) = Ok sig /\
    VerifySignature pk (GuardianSignBytes (newGuardianApprovalPayload ctx account
      (po_GuardianAddress policy) action key (ga_ExpiresAt g) (GetTimeoutHeight tx) hash signers))
      sig = true.

Definition approved (ctx : Ctx) (accounts : Accounts) (tx : Tx) (m : MemoMFA) (policy : Policy)
    (account : string) : Prop :=
  exists hash signers, messagesHash (GetMsgs tx) = Ok hash /\
    signerSequences accounts tx = Ok signers /\
    (own_approval ctx tx m policy account hash signers \/
     guardian_approval ctx tx m policy account hash signers).

(** The transaction only carries a recovery of the account. *)
Definition carries_recovery (tx : Tx) (m : MemoMFA) (account : string) : Prop :=
  (is_Some (RecoveryStart m) \/ is_Some (RecoveryCancel m) \/ is_Some (RecoveryExecute m)) /\
  (GetMsgs tx = [] \/
   exists coin exact, NewCoin MicroDoDenom 1 = Ok coin /\ NewCoins [coin] = Ok exact /\
     GetMsgs tx = [MsgSend account account exact]).

Lemma wrap_ok {A} e (r : res A) a : wrap e r = Ok a -> r = Ok a.
Proof. unfold wrap. by destruct r. Qed.

Lemma approvals_by_account_ok l k a : approvals_by_account l !! k = Some a ->
  a ∈ l /\ ap_Account a = k.
Proof.
  unfold approvals_by_account.
  assert (forall acc : gmap string MemoApproval, (forall k a, acc !! k = Some a -> a ∈ l /\ ap_Account a = k) -> forall l',
    (forall a, a ∈ l' -> a ∈ l) ->
    foldl (fun acc a => <[ap_Account a := a]> acc) acc l' !! k = Some a -> a ∈ l /\ ap_Account a = k)
    as Hgen.
  { intros acc Hacc l'. revert acc Hacc. induction l' as [|x l' IH]; simpl; intros acc Hacc Hl E;
      [by apply Hacc|]. eapply IH; [|intros; apply Hl; by right|exact E].
    intros k' a' Hk. destruct (decide (k' = ap_Account x)) as [->|Hne].
    - rewrite lookup_insert_eq in Hk. injection Hk as <-. split; [apply Hl; left|done].
    - rewrite lookup_insert_ne in Hk by done. by apply Hacc. }
  apply Hgen; [|done]. intros k' a'. by rewrite lookup_empty.
Qed.

Lemma verifyGuardianApproval_ok ctx account policy m tx hash signers :
  verifyGuardianApproval ctx account policy m (GetTimeoutHeight tx) hash signers = Ok true ->
  guardian_approval ctx tx m policy account hash signers.
Proof.
  unfold verifyGuardianApproval. intros E. destruct (GuardianApproval m) as [g|] eqn:Hg; [|done].
  destruct (String.eqb (po_GuardianAddress policy) "") eqn:C0; [done|].
  destruct (guardianControlAction m) as [[action key]|] eqn:Hc; [|done].
  destruct (negb (String.eqb (ga_Account g) account)) eqn:C1; [done|].
  destruct (negb (String.eqb (ga_GuardianAddress g) _)) eqn:C2; [done|].
  destruct (negb _ || negb _) eqn:C3; [done|].
  destruct (ga_ExpiresAt g <=? BlockTime ctx) eqn:C4; [done|].
  apply res_bind_ok in E as (pk & Hpk & E). apply wrap_ok in Hpk.
  destruct (negb (String.eqb (AccAddressString _) _)) eqn:C5; [done|].
  apply res_bind_ok in E as (sig & Hsig & E). apply wrap_ok in Hsig.
  destruct (negb (VerifySignature _ _ _)) eqn:C6; [done|]. zbool.
  exists g, pk, sig, action, key. split_and!; done.
Qed.

Lemma verify_one_ok ctx tx m s hash signers account addr policy :
  verify_one ctx tx m s (approvals_by_account (Approvals m)) hash signers (account, addr) = Ok tt ->
  GetPolicy s addr = Some policy ->
  own_approval ctx tx m policy account hash signers \/
  guardian_approval ctx tx m policy account hash signers.
Proof.
  unfold verify_one. intros E Hp. rewrite Hp in E.
  destruct (approvals_by_account (Approvals m) !! account) as [a|] eqn:Ha.
  - left. destruct (ap_ExpiresAt a <=? BlockTime ctx) eqn:C1; [done|].
    apply res_bind_ok in E as (sig & Hsig & E). apply wrap_ok in Hsig.
    destruct (VerifySignature _ _ _) eqn:C2; [|done]. zbool.
    apply approvals_by_account_ok in Ha as [? ?]. exists a, sig. split_and!; done.
  - right. apply res_bind_ok in E as (b & Hb & E). destruct b; [|done].
    by apply verifyGuardianApproval_ok.
Qed.

Lemma foldRes_all {A} (f : A -> res unit) l :
  foldRes (fun _ x => f x) tt l = Ok tt -> forall x, x ∈ l -> f x = Ok tt.
Proof.
  induction l as [|y l IH]; simpl; intros E x Hx; [by apply not_elem_of_nil in Hx|].
  apply res_bind_ok in E as ([] & Hy & E). apply elem_of_cons in Hx as [->|Hx]; [done|by apply IH].
Qed.

Lemma verifyApprovals_ok ctx accounts tx required m s account addr policy :
  verifyApprovals ctx accounts tx required m s = Ok tt ->
  required !! account = Some addr -> GetPolicy s addr = Some policy ->
  approved ctx accounts tx m policy account.
Proof.
  unfold verifyApprovals. intros E Hr Hp.
  apply res_bind_ok in E as (hash & Hh & E). apply res_bind_ok in E as (signers & Hs & E).
  exists hash, signers. split_and!; [done|done|].
  eapply verify_one_ok; [|done]. eapply foldRes_all; [exact E|].
  rewrite map_range_perm. by apply elem_of_map_to_list.
Qed.

Lemma carrier_ok tx account : requireRecoveryControlCarrier tx account = Ok tt ->
  GetMsgs tx = [] \/
  exists coin exact, NewCoin MicroDoDenom 1 = Ok coin /\ NewCoins [coin] = Ok exact /\
    GetMsgs tx = [MsgSend (AccAddressString account) (AccAddressString account) exact].
Proof.
  unfold requireRecoveryControlCarrier. intros E.
  destruct (GetMsgs tx) as [|msg [|? ?]]; [by left| |by destruct msg].
  destruct msg; try done. right. destruct (negb _ || negb _) eqn:C; [done|]. zbool.
  apply res_bind_ok in E as (coin & Hc & E). apply res_bind_ok in E as (exact & He & E).
  destruct (negb _ || negb _) eqn:C2; [done|]. zbool.
  match goal with Hd : bool_decide _ = true |- _ => apply bool_decide_eq_true in Hd end.
  exists coin, exact. split_and!; [done..|]. congruence.
Qed.

(** The accounts whose policy the memo asks to change. *)
Definition control_target s (m : MemoMFA) (t : string) : Prop :=
  (exists en a, Enable m = Some en /\ en_Account en = t /\ AccAddressFromBech32 t = Ok a /\
     HasPolicy s a = true) \/
  Disable m = Some t \/
  (exists sg, SetGuardian m = Some sg /\ sg_Account sg = t).

Lemma adds_insert acc acc' t a (Q Q' : string -> Prop) :
  adds acc acc' Q -> AccAddressFromBech32 t = Ok a -> (forall x, Q' x -> Q x \/ x = t) ->
  adds acc (<[AccAddressString a := a]> acc') Q'.
Proof.
  intros (Hwf & Hsub & Hq) Ht Hi. destruct (insert_account acc' t a Hwf Ht) as [Hwf' Hsub'].
  split_and!; [done|by transitivity acc'|]. intros x b [Hx| ->]%Hi Hb.
  - eapply lookup_weaken; [by eapply Hq|done].
  - rewrite Ht in Hb. injection Hb as <-. apply lookup_insert_eq.
Qed.

Lemma addControlRequirements_adds s acc m acc' : wf_accounts acc ->
  addControlRequirements s acc m = Ok acc' -> adds acc acc' (control_target s m).
Proof.
  intros Hwf E. unfold addControlRequirements in E.
  apply res_bind_ok in E as (acc1 & E1 & E). apply res_bind_ok in E as (acc2 & E2 & E).
  apply res_bind_ok in E as (acc3 & E3 & E). apply res_bind_ok in E as (? & _ & E).
  apply res_bind_ok in E as (? & _ & E). apply res_bind_ok in E as (? & _ & E). injection E as <-.
  assert (adds acc acc1 (fun t => exists en a, Enable m = Some en /\ en_Account en = t /\
    AccAddressFromBech32 t = Ok a /\ HasPolicy s a = true)) as A1.
  { destruct (Enable m) as [en|].
    - apply res_bind_ok in E1 as (a & Ha & E1). apply parse_account_ok in Ha. injection E1 as <-.
      destruct (HasPolicy s a) eqn:Hp.
      + eapply adds_insert; [by apply (adds_none acc (fun _ => False))|exact Ha|].
        intros y (en' & b & [= <-] & <- & _). auto.
      + apply adds_none; [done|]. intros t (en' & b & [= <-] & <- & Hb & Hp'). congruence.
    - injection E1 as <-. apply adds_none; [done|]. by intros t (? & ? & ? & _). }
  assert (adds acc acc2 (fun t => (exists en a, Enable m = Some en /\ en_Account en = t /\
    AccAddressFromBech32 t = Ok a /\ HasPolicy s a = true) \/ Disable m = Some t)) as A2.
  { destruct (Disable m) as [t|].
    - apply res_bind_ok in E2 as (a & Ha & E2). apply parse_account_ok in Ha.
      apply res_bind_ok in E2 as (? & _ & E2). injection E2 as <-.
      eapply adds_insert; [exact A1|exact Ha|]. intros y [Hx|[= <-]]; auto.
    - injection E2 as <-. eapply adds_weaken; [exact A1|]. intros y [Hx|Hx]; [done|discriminate Hx]. }
  destruct (SetGuardian m) as [sg|] eqn:Hsg.
  - apply res_bind_ok in E3 as (a & Ha & E3). apply parse_account_ok in Ha.
    apply res_bind_ok in E3 as (? & _ & E3). apply res_bind_ok in E3 as (? & _ & E3).
    injection E3 as <-. eapply adds_insert; [exact A2|exact Ha|].
    intros y [Hx|[Hx|(sg' & Hs & <-)]]; [auto|auto|]. rewrite Hsg in Hs. injection Hs as <-. auto.
  - injection E3 as <-. eapply adds_weaken; [exact A2|].
    intros y [Hx|[Hx|(sg' & Hs & <-)]]; [auto|auto|congruence].
Qed.

Lemma bypass_ok m X : recoveryBypassAccount m = Ok (Some X) ->
  (is_Some (RecoveryStart m) \/ is_Some (RecoveryCancel m) \/ is_Some (RecoveryExecute m)) /\
  exists t, AccAddressFromBech32 t = Ok X.
Proof.
  unfold recoveryBypassAccount. intros E.
  destruct (RecoveryStart m); [|destruct (RecoveryCancel m); [|destruct (RecoveryExecute m)]];
    try (apply res_bind_ok in E as (a & Ha & E); apply parse_account_ok in Ha; injection E as <-);
    first [discriminate E|split; [by eauto|eauto]].
Qed.

Lemma GetPolicy_has s X pol : GetPolicy s X = Some pol -> HasPolicy s X = true.
Proof. unfold HasPolicy. by intros ->. Qed.

Lemma requirement_ok ctx accounts tx s X t pol :
  MFARequirementDecorator_AnteHandle ctx accounts tx s = Ok tt ->
  AccAddressFromBech32 t = Ok X -> GetPolicy s X = Some pol ->
  ((exists msg, msg ∈ GetMsgs tx /\ protected_message msg t) \/
   (exists m, parseMFAMemo tx = Ok (Some m) /\ control_target s m t)) ->
  exists m, parseMFAMemo tx = Ok (Some m) /\
    (approved ctx accounts tx m pol (AccAddressString X) \/
     carries_recovery tx m (AccAddressString X)).
Proof.
  unfold MFARequirementDecorator_AnteHandle. intros E Ht Hpol Hreason.
  apply res_bind_ok in E as (p0 & Hp0 & E). apply res_bind_ok in E as (p1 & Hp1 & E).
  apply res_bind_ok in E as ([] & Hreq & _).
  apply protectedAccounts_adds in Hp0 as (Hwf0 & _ & Hq0).
  assert (p1 !! AccAddressString X = Some X \/ exists m, parseMFAMemo tx = Ok (Some m) /\
    carries_recovery tx m (AccAddressString X)) as [Hin|(m & Hm & Hc)]; [|
    assert (accountsWithPolicy s p1 !! AccAddressString X = Some X) as Hreq1 by
      (apply map_lookup_filter_Some; split; [done|by eapply GetPolicy_has])|by eauto].
  - destruct (parseMFAMemo tx) as [[m|]| |] eqn:Hm;
      try (injection Hp1 as <-; left; destruct Hreason as [Hr|(m' & [=] & _)]; by apply (Hq0 t)).
    apply res_bind_ok in Hp1 as (? & _ & Hp1). apply res_bind_ok in Hp1 as (p2 & Hp2 & Hp1).
    apply res_bind_ok in Hp1 as (by_ & Hby & Hp1).
    apply addControlRequirements_adds in Hp2 as (Hwf2 & Hsub & Hq2); [|done].
    assert (p2 !! AccAddressString X = Some X) as Hin2.
    { destruct Hreason as [Hr|(m' & [= <-] & Hr)]; [|by apply (Hq2 t)].
      eapply lookup_weaken; [by apply (Hq0 t)|done]. }
    destruct by_ as [Y|]; [|injection Hp1 as <-; by left].
    apply res_bind_ok in Hp1 as ([] & Hcar & Hp1). injection Hp1 as <-.
    destruct (decide (AccAddressString Y = AccAddressString X)) as [Heq|Hne].
    + right. exists m. split; [done|]. apply bypass_ok in Hby as [Hk _].
      split; [done|]. rewrite <- Heq. by apply carrier_ok.
    + left. by rewrite lookup_delete_ne.
  - rewrite bool_decide_eq_false_2 in Hreq by (intros He; by rewrite He, lookup_empty in Hreq1).
    destruct (parseMFAMemo tx) as [[m|]| |] eqn:Hm; cbn [negb is_ok] in Hreq;
      try discriminate Hreq.
    exists m. split; [done|]. left. eapply verifyApprovals_ok; [exact Hreq|exact Hreq1|exact Hpol].
Qed.

(** C11: a transaction with one of the protected messages, which spends the
    [udo] of an account with a policy, by itself or from within an
    authorisation, passes only when the memo carries an unexpired approval
    that the policy's key signed over this chain, these messages and these
    sequence numbers, or such an approval of the guardian for a change of the
    policy, or when the transaction is nothing but the carrier of a recovery:
    one transfer of exactly one [udo] from the account to itself.  Messages of
    every other type pass without an approval: delegations, deposits and
    contract instantiations are among them, and move [udo] too. *)
Theorem protected_message_needs_approval ctx accounts tx s :
  (forall msg t X pol,
    MFARequirementDecorator_AnteHandle ctx accounts tx s = Ok tt ->
    msg ∈ GetMsgs tx -> protected_message msg t ->
    AccAddressFromBech32 t = Ok X -> GetPolicy s X = Some pol ->
    exists m, parseMFAMemo tx = Ok (Some m) /\
      (approved ctx accounts tx m pol (AccAddressString X) \/
       exists coin exact, NewCoin MicroDoDenom 1 = Ok coin /\ NewCoins [coin] = Ok exact /\
         GetMsgs tx = [MsgSend (AccAddressString X) (AccAddressString X) exact])) /\
  (parseMFAMemo tx = Ok None -> (forall msg, msg ∈ GetMsgs tx -> exists typeURL, msg = OtherMsg typeURL) ->
    MFARequirementDecorator_AnteHandle ctx accounts tx s = Ok tt).
Proof.
  split.
  - intros msg t X pol E Hmsg Hmoves Ht Hpol.
    destruct (requirement_ok _ _ _ _ _ _ _ E Ht Hpol) as (m & Hm & [Ha|[_ [Hnil|Hc]]]); eauto.
    rewrite Hnil in Hmsg. by apply not_elem_of_nil in Hmsg.
  - intros Hm Ho. unfold MFARequirementDecorator_AnteHandle, protectedAccounts. rewrite Hm, other_messages by done.
    cbn [mbind res_bind is_ok negb]. rewrite bool_decide_true; [done|]. by rewrite accountsWithPolicy_empty.
Qed.

(** ** Changes of a policy over time *)

(** Every policy is kept under its own account. *)
Definition store_ok s : Prop := forall k p, s !! k = Some p -> po_Account p = k.

Lemma set_policy_ok p s u s' : set_policy p s = (Ok u, s') -> s' = <[po_Account p := p]> s.
Proof.
  unfold set_policy. destruct (SetPolicy p s) as [[x|e|] s1] eqn:E; intros Hs; simplify_eq.
  unfold SetPolicy in E. m_lift E as v Ev. by m_inv E.
Qed.

Lemma store_ok_insert s p : store_ok s -> store_ok (<[po_Account p := p]> s).
Proof.
  intros Hs k q. destruct (decide (k = po_Account p)) as [->|Hne].
  - rewrite lookup_insert_eq. by intros [= <-].
  - rewrite lookup_insert_ne by done. apply Hs.
Qed.

Lemma GetPolicy_account s a p : store_ok s -> GetPolicy s a = Some p ->
  s !! AccAddressString a = Some p /\ po_Enabled p = true /\ po_Account p = AccAddressString a.
Proof.
  unfold GetPolicy. intros Hs E. destruct (s !! AccAddressString a) as [q|] eqn:Hq; [|done].
  destruct (po_Enabled q) eqn:He; [|done]. injection E as <-. split_and!; [done..|by apply Hs].
Qed.

Lemma GetPolicy_other s k p X : k <> AccAddressString X -> GetPolicy (<[k := p]> s) X = GetPolicy s X.
Proof. intros Hk. unfold GetPolicy. by rewrite lookup_insert_ne. Qed.

Lemma GetPolicy_same s p X : po_Enabled p = true ->
  GetPolicy (<[AccAddressString X := p]> s) X = Some p.
Proof. intros Hp. unfold GetPolicy. by rewrite lookup_insert_eq, Hp. Qed.

Lemma same_text t a X tx : AccAddressFromBech32 t = Ok a -> AccAddressFromBech32 tx = Ok X ->
  AccAddressString a = AccAddressString X -> a = X.
Proof. intros Ha%acc_roundtrip HX%acc_roundtrip Heq. congruence. Qed.

(** What one transaction can do to the policy of [X] without an approval. *)
Inductive effect (ctx : Ctx) (pol : Policy) : option Policy -> Prop :=
| eff_none : effect ctx pol (Some pol)
| eff_cancel : effect ctx pol (Some (with_pending pol None))
| eff_start action key : effect ctx pol (Some (with_pending pol (Some (mkPendingRecovery action key
    (BlockTime ctx) (i64 (BlockTime ctx + RecoveryDelaySeconds))))))
| eff_execute r after : po_PendingRecovery pol = Some r -> pr_ExecuteAfter r <= BlockTime ctx ->
    effect ctx pol after.

Definition preserves (ctx : Ctx) (X : AccAddress) (pol : Policy) (f : M State unit) : Prop :=
  forall s u s', store_ok s -> GetPolicy s X = Some pol -> f s = (Ok u, s') ->
    store_ok s' /\ effect ctx pol (GetPolicy s' X).

Lemma policy_or_ok s a p : policy_or s a = Ok p -> GetPolicy s a = Some p.
Proof. unfold policy_or. destruct (GetPolicy s a); by intros; simplify_eq. Qed.

Lemma with_pending_effect ctx s X a p r pol :
  store_ok s -> GetPolicy s a = Some p -> GetPolicy s X = Some pol ->
  (forall p, effect ctx p (Some (with_pending p r))) ->
  effect ctx pol (GetPolicy (<[po_Account (with_pending p r) := with_pending p r]> s) X).
Proof.
  intros Hs Hp Hpol Hr. apply GetPolicy_account in Hp as (Hl & He & Hacc); [|done].
  cbn [with_pending po_Account]. rewrite Hacc.
  destruct (decide (AccAddressString a = AccAddressString X)) as [Heq|Hne].
  - rewrite Heq. rewrite GetPolicy_same by done.
    assert (p = pol) as <-; [|apply Hr]. unfold GetPolicy in Hpol. rewrite <- Heq, Hl, He in Hpol.
    congruence.
  - rewrite GetPolicy_other by done. rewrite Hpol. constructor.
Qed.

Lemma recovery_start_preserves ctx tx r X pol : preserves ctx X pol (apply_recovery_start ctx tx r).
Proof.
  intros s u s' Hs Hpol E. unfold apply_recovery_start in E.
  m_lift E as a Ha. m_lift E as v Hv. m_bind E as s0 E0. m_inv E0. m_lift E as p Hp.
  apply policy_or_ok in Hp. m_lift E as k Hk. apply set_policy_ok in E as ->.
  split; [by apply store_ok_insert|]. eapply with_pending_effect; [done|exact Hp|done|].
  intros q. apply eff_start.
Qed.

Lemma recovery_cancel_preserves ctx tx t X pol : preserves ctx X pol (apply_recovery_cancel tx t).
Proof.
  intros s u s' Hs Hpol E. unfold apply_recovery_cancel in E.
  m_lift E as a Ha. m_lift E as v Hv. m_bind E as s0 E0. m_inv E0. m_lift E as p Hp.
  apply policy_or_ok in Hp. apply set_policy_ok in E as ->.
  split; [by apply store_ok_insert|]. eapply with_pending_effect; [done|exact Hp|done|].
  intros q. apply eff_cancel.
Qed.

Lemma store_ok_delete s k : store_ok s -> store_ok (delete k s).
Proof. intros Hs k' p [_ Hk]%lookup_delete_Some. by apply Hs. Qed.

Lemma recovery_execute_preserves ctx tx t X pol : preserves ctx X pol (apply_recovery_execute ctx tx t).
Proof.
  intros s u s' Hs Hpol E. unfold apply_recovery_execute in E.
  m_lift E as a Ha. m_lift E as v Hv. m_bind E as s0 E0. m_inv E0. m_lift E as p Hp.
  apply policy_or_ok in Hp. destruct (po_PendingRecovery p) as [r|] eqn:Hr; [|by m_inv E].
  destruct (BlockTime ctx <? pr_ExecuteAfter r) eqn:Ht; [by m_inv E|]. zbool.
  destruct (decide (AccAddressString a = AccAddressString X)) as [Heq|Hne].
  - assert (effect ctx pol (GetPolicy s' X)) as Heff.
    { apply (eff_execute ctx pol r); [|done]. pose proof (GetPolicy_account _ _ _ Hs Hp) as (Hl & He & _).
      unfold GetPolicy in Hpol. rewrite <- Heq, Hl, He in Hpol. congruence. }
    split; [|done]. destruct (String.eqb _ _).
    { unfold DeletePolicy in E. m_inv E. by apply store_ok_delete. }
    destruct (String.eqb _ _); [|by m_inv E]. apply set_policy_ok in E as ->. by apply store_ok_insert.
  - destruct (String.eqb _ _).
    { unfold DeletePolicy in E. m_inv E. split; [by apply store_ok_delete|].
      unfold GetPolicy in *. rewrite lookup_delete_ne by done. rewrite Hpol. constructor. }
    destruct (String.eqb _ _); [|by m_inv E]. apply set_policy_ok in E as ->.
    split; [by apply store_ok_insert|]. cbn [po_Account]. rewrite GetPolicy_other by done.
    rewrite Hpol. constructor.
Qed.

(** A change that is not a recovery leaves the policies of others alone. *)
Definition touches (t : string) (X : AccAddress) : Prop := AccAddressFromBech32 t = Ok X.

Lemma enable_preserves ctx tx en X tX pol : AccAddressFromBech32 tX = Ok X ->
  ~ touches (en_Account en) X -> preserves ctx X pol (apply_enable tx en).
Proof.
  intros HX Hno s u s' Hs Hpol E. unfold apply_enable in E.
  m_lift E as a Ha. apply parse_account_ok in Ha. m_lift E as v Hv. m_lift E as k Hk.
  m_bind E as s0 E0. m_inv E0. m_lift E as w Hw. apply set_policy_ok in E as ->.
  split; [by apply store_ok_insert|]. cbn [po_Account]. rewrite GetPolicy_other.
  - rewrite Hpol. constructor.
  - intros Heq. apply Hno. by rewrite <- (same_text _ _ _ _ Ha HX Heq).
Qed.

Lemma disable_preserves ctx tx t X tX pol : AccAddressFromBech32 tX = Ok X ->
  ~ touches t X -> preserves ctx X pol (apply_disable tx t).
Proof.
  intros HX Hno s u s' Hs Hpol E. unfold apply_disable in E.
  m_lift E as a Ha. apply parse_account_ok in Ha. m_lift E as v Hv.
  unfold DeletePolicy in E. m_inv E. split; [by apply store_ok_delete|].
  unfold GetPolicy in *. rewrite lookup_delete_ne; [rewrite Hpol; constructor|].
  intros Heq. apply Hno. by rewrite <- (same_text _ _ _ _ Ha HX Heq).
Qed.

Lemma set_guardian_preserves ctx tx sg X tX pol : AccAddressFromBech32 tX = Ok X ->
  ~ touches (sg_Account sg) X -> preserves ctx X pol (apply_set_guardian tx sg).
Proof.
  intros HX Hno s u s' Hs Hpol E. unfold apply_set_guardian in E.
  m_lift E as a Ha. apply parse_account_ok in Ha. m_lift E as v Hv. m_lift E as w Hw.
  m_bind E as s0 E0. m_inv E0. m_lift E as p Hp. apply policy_or_ok in Hp.
  apply set_policy_ok in E as ->. split; [by apply store_ok_insert|]. cbn [po_Account].
  apply GetPolicy_account in Hp as (_ & _ & Hacc); [|done]. rewrite Hacc, GetPolicy_other.
  - rewrite Hpol. constructor.
  - intros Heq. apply Hno. by rewrite <- (same_text _ _ _ _ Ha HX Heq).
Qed.

Lemma unapproved_untouched ctx accounts tx s X tX pol m t :
  MFARequirementDecorator_AnteHandle ctx accounts tx s = Ok tt ->
  AccAddressFromBech32 tX = Ok X -> GetPolicy s X = Some pol -> parseMFAMemo tx = Ok (Some m) ->
  ~ approved ctx accounts tx m pol (AccAddressString X) ->
  RecoveryStart m = None -> RecoveryCancel m = None -> RecoveryExecute m = None ->
  (touches t X -> control_target s m t) -> ~ touches t X.
Proof.
  intros Hreq HX Hpol Hm Hno R1 R2 R3 Htarget Ht.
  destruct (requirement_ok ctx accounts tx s X t pol Hreq Ht Hpol) as (m' & Hm' & [Ha|[Hr _]]).
  - right. eauto.
  - congruence.
  - rewrite Hm in Hm'. injection Hm' as <-. rewrite R1, R2, R3 in Hr.
    by destruct Hr as [[? ?]|[[? ?]|[? ?]]].
Qed.

Lemma mfa_step ctx accounts tx s u s' X tX pol :
  mfa_ante ctx accounts tx s = (Ok u, s') -> store_ok s ->
  AccAddressFromBech32 tX = Ok X -> GetPolicy s X = Some pol ->
  (forall m, parseMFAMemo tx = Ok (Some m) ->
     ~ approved ctx accounts tx m pol (AccAddressString X)) ->
  store_ok s' /\ effect ctx pol (GetPolicy s' X).
Proof.
  unfold mfa_ante. intros E Hs HX Hpol Hno. m_bind E as s0 E0. m_inv E0. m_lift E as [] Hreq.
  unfold MFAControlApplyDecorator_AnteHandle in E.
  assert (forall v, (mret tt : M State unit) s0 = (Ok v, s') -> store_ok s' /\ effect ctx pol (GetPolicy s' X)) as Hskip.
  { intros v Hv. m_inv Hv. split; [done|]. rewrite Hpol. constructor. }
  destruct (parseMFAMemo tx) as [[m|]|e|] eqn:Hm;
    [|by eapply Hskip|destruct (containsMFAKey _); [by m_inv E|by eapply Hskip]..].
  specialize (Hno m eq_refl). m_lift E as [] Hcount. unfold applyControlActions in E.
  m_bind E as [] A1. m_bind E as [] A2. m_bind E as [] A3. m_bind E as [] A4. m_bind E as [] A5.
  unfold validateControlActionCount in Hcount.
  destruct (Enable m) as [en|] eqn:Q1, (Disable m) as [di|] eqn:Q2, (SetGuardian m) as [sg|] eqn:Q3,
    (RecoveryStart m) as [rs|] eqn:Q4, (RecoveryCancel m) as [rc|] eqn:Q5,
    (RecoveryExecute m) as [re|] eqn:Q6; try discriminate Hcount;
    cbn [on_some] in *; m_inv A1; m_inv A2; m_inv A3; m_inv A4; m_inv A5; m_inv E.
  - eapply enable_preserves; [exact HX| |exact Hs|exact Hpol|exact A1].
    eapply unapproved_untouched; [done..|]. intros Ht. left. exists en, X.
    split_and!; [done..|]. by eapply GetPolicy_has.
  - eapply disable_preserves; [exact HX| |exact Hs|exact Hpol|exact A2].
    eapply unapproved_untouched; [done..|]. intros _. right. by left.
  - eapply set_guardian_preserves; [exact HX| |exact Hs|exact Hpol|exact A3].
    eapply unapproved_untouched; [done..|]. intros _. right. right. by exists sg.
  - by eapply recovery_start_preserves.
  - by eapply recovery_cancel_preserves.
  - by eapply recovery_execute_preserves.
  - by eapply (Hskip tt).
Qed.

(** A history without an approval for [X]: transactions in blocks of
    non-decreasing time.  A transaction that fails leaves the store as it
    was. *)
Inductive unapproved_run (X : AccAddress) (t0 : Z) (s0 : State) : Z -> State -> Prop :=
| ur_start : unapproved_run X t0 s0 t0 s0
| ur_tx t s ctx accounts tx s' : unapproved_run X t0 s0 t s -> t <= BlockTime ctx ->
    mfa_ante ctx accounts tx s = (Ok tt, s') ->
    (forall m pol, parseMFAMemo tx = Ok (Some m) -> GetPolicy s X = Some pol ->
       ~ approved ctx accounts tx m pol (AccAddressString X)) ->
    unapproved_run X t0 s0 (BlockTime ctx) s'.

(** C6: without an approval of the account's second key or its guardian, no
    sequence of transactions changes the key or the guardian of a policy, or
    removes it, within 72 hours: a recovery that is started has to wait, and
    the owner of the key has that time to cancel it. *)
Theorem recovery_takes_72_hours X tX t0 s0 t s pol :
  unapproved_run X t0 s0 t s -> AccAddressFromBech32 tX = Ok X -> store_ok s0 ->
  GetPolicy s0 X = Some pol -> po_PendingRecovery pol = None ->
  0 <= t0 -> t0 + RecoveryDelaySeconds < 2 ^ 62 -> t < t0 + RecoveryDelaySeconds ->
  exists pol', GetPolicy s X = Some pol' /\
    po_ApprovalPubKey pol' = po_ApprovalPubKey pol /\
    po_GuardianAddress pol' = po_GuardianAddress pol /\
    forall r, po_PendingRecovery pol' = Some r -> t0 + RecoveryDelaySeconds <= pr_ExecuteAfter r.
Proof.
  intros Hrun HX Hs0 Hpol Hnone Ht0 Hbig Hlt.
  enough (t0 <= t /\ store_ok s /\ exists pol', GetPolicy s X = Some pol' /\
    po_ApprovalPubKey pol' = po_ApprovalPubKey pol /\
    po_GuardianAddress pol' = po_GuardianAddress pol /\
    forall r, po_PendingRecovery pol' = Some r -> t0 + RecoveryDelaySeconds <= pr_ExecuteAfter r)
    as (_ & _ & ?) by done.
  induction Hrun as [|t1 s1 ctx accounts tx s2 Hrun IH Hle E Hno].
  - split_and!; [lia|done|]. exists pol. split_and!; [done..|]. intros r Hr. congruence.
  - destruct IH as (Ht1 & Hs1 & pol1 & Hp1 & Hk & Hg & Hpend); [lia|].
    destruct (mfa_step _ _ _ _ _ _ _ _ _ E Hs1 HX Hp1) as [Hs2 Heff]; [eauto|].
    split_and!; [lia|done|]. inversion Heff as [Q|Q|action key Q|r after Hr Hexec].
    + by exists pol1.
    + eexists. split_and!; [reflexivity|done|done|]. by intros r [=].
    + eexists. split_and!; [reflexivity|done|done|]. intros r [= <-]. cbn [pr_ExecuteAfter].
      unfold i64. unfold RecoveryDelaySeconds in *. rewrite Z.mod_small by lia. lia.
    + apply Hpend in Hr. lia.
Qed.
End requirement.

(** ** Witnesses *)
Module Example.
Definition key33 : string := "kkkkkkkkkkkkkkkkkkkkkkkkkkkkkkkkk".
Definition no_memo : MemoMFA := mkMemoMFA [] None None None None None None None.
Definition start : MemoMFA :=
  mkMemoMFA [] None None None (Some (mkMemoRecoveryStart "do1kim" "disable" "")) None None None.
Definition approve : MemoMFA :=
  mkMemoMFA [mkMemoApproval "do1kim" 2000 (key33 +:+ "do1kim")] None None None None None None None.

(** A signature is the key followed by what it signs. *)
#[export] Instance crypto : MfaCrypto := {|
  VerifySignature pk msg sig := String.eqb sig (pk +:+ msg);
  PubKeyAddress pk := pk;
  DecodeString t := Ok t;
  Sha256 t := t;
|}.
#[export] Instance json : MfaJson := {|
  UnmarshalEnvelope t :=
    if String.eqb t "start" then Ok (Some start)
    else if String.eqb t "approve" then Ok (Some approve) else Err (Foreign "json");
  HasMemoKey _ := false;
  MarshalInterfaceJSON _ := Ok "msg";
  MustSortJSON t := Ok t;
  ApprovalSignBytes p := pl_Account p;
  GuardianSignBytes p := gp_Account p;
|}.

Definition policy : Policy := mkPolicy "do1kim" key33 true "" None.
Definition store : gmap string Policy := {["do1kim" := policy]}.
Definition at_time (t : Z) : Ctx := mkCtx 10 t "test" false false.
Definition accounts : AccAddress -> option Z := fun _ => Some 3.
Definition send : Msg := MsgSend "do1kim" "do1lee" [mkCoin "udo" 5].
Definition payment : Tx := mkTx [send] "approve" 0 (Ok ["kim"]).
Definition delegation : Tx := mkTx [OtherMsg "/cosmos.staking.v1beta1.MsgDelegate"] "" 0 (Ok ["kim"]).
Definition start_tx : Tx :=
  mkTx [MsgSend "do1kim" "do1kim" [mkCoin "udo" 1]] "start" 0 (Ok ["kim"]).
Definition after : gmap string Policy := (mfa_ante (at_time 1000) accounts start_tx store).2.
End Example.
#[local] Existing Instance Example.crypto.
#[local] Existing Instance Example.json.

Lemma protected_message_needs_approval_witness :
  MFARequirementDecorator_AnteHandle (Example.at_time 1000) Example.accounts Example.payment
    Example.store = Ok tt /\
  (exists m, parseMFAMemo Example.payment = Ok (Some m) /\
    approved (Example.at_time 1000) Example.accounts Example.payment m Example.policy "do1kim") /\
  MFARequirementDecorator_AnteHandle (Example.at_time 1000) Example.accounts Example.delegation
    Example.store = Ok tt.
Proof.
  split; [vm_compute; reflexivity|]. split.
  - destruct (protected_message_needs_approval (Example.at_time 1000) Example.accounts Example.payment Example.store) as [H _].
    destruct (H Example.send "do1kim" "kim" Example.policy) as (m & Hm & [Ha|(c & e & _ & _ & Hbad)]);
      [vm_compute; reflexivity|apply list_elem_of_singleton; reflexivity|apply pm_send; reflexivity
      |reflexivity|reflexivity| |].
    + exists m. split; [exact Hm|exact Ha].
    + discriminate Hbad.
  - destruct (protected_message_needs_approval (Example.at_time 1000) Example.accounts Example.delegation Example.store) as [_ H].
    apply H; [vm_compute; reflexivity|]. intros msg Hin. exists "/cosmos.staking.v1beta1.MsgDelegate".
    apply list_elem_of_singleton in Hin. exact Hin.
Defined.

Lemma recovery_takes_72_hours_witness :
  exists pol, GetPolicy Example.after "kim" = Some pol /\
    po_ApprovalPubKey pol = Example.key33 /\
    forall r, po_PendingRecovery pol = Some r -> 1000 + 259200 <= pr_ExecuteAfter r.
Proof.
  destruct (recovery_takes_72_hours "kim" "do1kim" 1000 Example.store 1000 Example.after Example.policy)
    as (pol & H1 & H2 & _ & H4);
    [|reflexivity| |reflexivity|reflexivity|lia|vm_compute; reflexivity|vm_compute; reflexivity|].
  - apply (ur_tx "kim" 1000 Example.store 1000 Example.store (Example.at_time 1000) Example.accounts
      Example.start_tx); [apply ur_start|simpl; lia|unfold Example.after; apply run_eq; vm_compute;
      reflexivity|].
    intros m pol Hm _ (hash & signers & _ & _ & [(a & sig & Hin & _)|(g & pk & sig & ac & ke & Hg & _)]);
      vm_compute in Hm; injection Hm as <-; [|discriminate Hg].
    simpl in Hin. exact (not_elem_of_nil _ Hin).
  - intros k p Hk. unfold Example.store in Hk. apply lookup_singleton_Some in Hk as [<- <-]. reflexivity.
  - exists pol. split; [exact H1|split; [exact H2|exact H4]].
Defined.
