(* ===== verification/Vesting.v ===== *)
(** * Vesting by denomination (src/x/vesting/types)

    A [LazyGradedVestingAccount] is the SDK's base vesting account with, per
    denomination, a list of schedules: each releases a ratio of the original
    amount linearly between two times.  The base account (its delegation
    bookkeeping and its own validation) belongs to the SDK and is a parameter,
    [BaseVestingOps].  The theorems: for an account that [Validate] accepts
    and whose amounts are below the tolerance of that check, vested and
    vesting coins are defined at every time and add up to the original; what
    is vested never decreases; above the tolerance an accepted account panics
    when its vesting coins are read. *)
From stdpp Require Import base gmap sets list strings fin_maps.
From Stdlib Require Import ZArith Lia.
From S2P Require Import Prelude Sdk SdkRef.
#[local] Open Scope Z_scope.

(** ** types/vesting.pb.go, types/schedule.go *)
Record Schedule : Type := mkSchedule { StartTime : Z; EndTime : Z; Ratio : Z }.
Record VestingSchedule : Type := mkVestingSchedule { vs_Denom : string; Schedules : list Schedule }.

Definition NewSchedule (startTime endTime ratio : Z) : Schedule :=
  mkSchedule startTime endTime ratio.

Definition NewVestingSchedule (denom : string) (schedules : list Schedule) : VestingSchedule :=
  mkVestingSchedule denom schedules.

Definition Schedule_Validate (s : Schedule) : res unit :=
  if StartTime s <? 0 then Err (Plain "vesting start-time cannot be negative")
  else if EndTime s <? StartTime s
  then Err (Plain "vesting start-time cannot be before end-time")
  else if Ratio s <=? LegacyZeroDec
  then Err (Plain "vesting ratio cannot be smaller than or equal with zero")
  else Ok tt.

(** ** The base account of the SDK: the fields the code sets or reads. *)
Record BaseVestingAccount (BA : Type) : Type := mkBaseVestingAccount {
  BaseAccount : BA;
  OriginalVesting : list Coin;
  DelegatedFree : list Coin;
  DelegatedVesting : list Coin;
  bva_EndTime : Z;
}.
Arguments mkBaseVestingAccount {BA}.
Arguments BaseAccount {BA}.
Arguments OriginalVesting {BA}.
Arguments DelegatedFree {BA}.
Arguments DelegatedVesting {BA}.
Arguments bva_EndTime {BA}.

Class BaseVestingOps (BA : Type) : Type := {
  LockedCoinsFromVesting : BaseVestingAccount BA -> list Coin -> res (list Coin);
  BaseTrackDelegation : list Coin -> list Coin -> list Coin ->
    BaseVestingAccount BA -> res (BaseVestingAccount BA);
  BaseVesting_Validate : BaseVestingAccount BA -> res unit;
}.

(** What is locked is what is vesting and not delegated from it; a
    delegation of [D] takes [min(max(V - DV, 0), D)] from the vesting coins
    and the rest from the free ones. *)
Class BaseVestingLaws (BA : Type) `{CoinOps} `{BaseVestingOps BA} : Prop := {
  Locked_inv a vc lc d : CoinsIsValid vc = true -> CoinsIsValid (DelegatedVesting a) = true ->
    LockedCoinsFromVesting a vc = Ok lc ->
    AmountOf lc d = Z.max 0 (AmountOf vc d - AmountOf (DelegatedVesting a) d);
  Locked_ok a vc : CoinsIsValid vc = true -> CoinsIsValid (DelegatedVesting a) = true ->
    is_ok (LockedCoinsFromVesting a vc) = true;
}.

Record LazyGradedVestingAccount (BA : Type) : Type := mkLazyGradedVestingAccount {
  lg_Base : BaseVestingAccount BA;
  VestingSchedules : list VestingSchedule;
}.
Arguments mkLazyGradedVestingAccount {BA}.
Arguments lg_Base {BA}.
Arguments VestingSchedules {BA}.

Section ops.
Context `{MathOps} `{CoinOps} `{CoinSubOps} {BA : Type} `{BaseVestingOps BA}.

(** [RoundInt64] panics when the rounded value is not an int64. *)
Definition RoundInt64 (d : Z) : res Z :=
  r ← DecRoundInt d;
  if bool_decide (is_i64 r) then Ok r else Panic.

Definition ratio_step (blockTime sumRatio : Z) (s : Schedule) : res Z :=
  if blockTime <? StartTime s then Ok sumRatio
  else
    ratio ← (if blockTime <? EndTime s then
               m ← DecMulInt64 (Ratio s) (i64 (blockTime - StartTime s));
               DecQuoInt64 m (i64 (EndTime s - StartTime s))
             else Ok (Ratio s));
    DecAdd sumRatio ratio.

Definition GetVestedRatio (vs : VestingSchedule) (blockTime : Z) : res Z :=
  foldRes (ratio_step blockTime) LegacyZeroDec (Schedules vs).

Definition fixedPointDecimals : Z := 1000000000.

Definition validate_step (sumRatio : Z) (s : Schedule) : res Z :=
  Schedule_Validate s ;; DecAdd sumRatio (Ratio s).

Definition VestingSchedule_Validate (vs : VestingSchedule) : res unit :=
  sumRatio ← foldRes validate_step LegacyZeroDec (Schedules vs);
  scaled ← DecMulInt64 sumRatio fixedPointDecimals;
  rounded ← RoundInt64 scaled;
  q ← DecQuoInt64 (LegacyNewDec rounded) fixedPointDecimals;
  if negb (q =? LegacyOneDec) then Err (Plain "vesting total ratio must be one")
  else Ok tt.

(** ** types/vesting_account.go *)
Definition NewLazyGradedVestingAccountRaw (base : BaseVestingAccount BA)
    (schedules : list VestingSchedule) : LazyGradedVestingAccount BA :=
  mkLazyGradedVestingAccount base schedules.

Definition NewLazyGradedVestingAccount (baseAcc : BA) (originalVesting : list Coin)
    (schedules : list VestingSchedule) : res (LazyGradedVestingAccount BA) :=
  free ← NewCoins [];
  vesting ← NewCoins [];
  Ok (mkLazyGradedVestingAccount
        (mkBaseVestingAccount baseAcc originalVesting free vesting 0) schedules).

Definition GetVestingSchedule (lgva : LazyGradedVestingAccount BA) (denom : string)
    : option VestingSchedule :=
  List.find (fun vs => String.eqb (vs_Denom vs) denom) (VestingSchedules lgva).

Definition vested_step (lgva : LazyGradedVestingAccount BA) (blockTime : Z)
    (vestedCoins : list Coin) (ovc : Coin) : res (list Coin) :=
  match GetVestingSchedule lgva (Denom ovc) with
  | Some vestingSchedule =>
      vestedRatio ← GetVestedRatio vestingSchedule blockTime;
      p ← DecMul (LegacyNewDecFromInt (Amount ovc)) vestedRatio;
      vestedAmt ← DecRoundInt p;
      if vestedAmt =? 0 then Ok vestedCoins
      else c ← NewCoin (Denom ovc) vestedAmt; Ok (vestedCoins ++ [c])
  | None => c ← NewCoin (Denom ovc) (Amount ovc); Ok (vestedCoins ++ [c])
  end.

Definition GetVestedCoins (lgva : LazyGradedVestingAccount BA) (blockTime : Z)
    : res (list Coin) :=
  foldRes (vested_step lgva blockTime) [] (OriginalVesting (lg_Base lgva)).

Definition GetVestingCoins (lgva : LazyGradedVestingAccount BA) (blockTime : Z)
    : res (list Coin) :=
  vested ← GetVestedCoins lgva blockTime;
  CoinsSub (OriginalVesting (lg_Base lgva)) vested.

Definition LockedCoins (lgva : LazyGradedVestingAccount BA) (blockTime : Z)
    : res (list Coin) :=
  vesting ← GetVestingCoins lgva blockTime;
  LockedCoinsFromVesting (lg_Base lgva) vesting.

Definition TrackDelegation (lgva : LazyGradedVestingAccount BA) (blockTime : Z)
    (balance amount : list Coin) : res (LazyGradedVestingAccount BA) :=
  vesting ← GetVestingCoins lgva blockTime;
  base ← BaseTrackDelegation balance vesting amount (lg_Base lgva);
  Ok (mkLazyGradedVestingAccount base (VestingSchedules lgva)).

Definition GetStartTime (lgva : LazyGradedVestingAccount BA) : Z := 0.
Definition GetEndTime (lgva : LazyGradedVestingAccount BA) : Z := 0.

Fixpoint validate_schedules (denomMap : gset string) (l : list VestingSchedule) : res unit :=
  match l with
  | [] => Ok tt
  | vs :: l =>
      if bool_decide (vs_Denom vs ∈ denomMap)
      then Err (Plain "cannot have multiple vesting schedules")
      else
        VestingSchedule_Validate vs ;;
        validate_schedules ({[vs_Denom vs]} ∪ denomMap) l
  end.

Definition Validate (lgva : LazyGradedVestingAccount BA) : res unit :=
  validate_schedules ∅ (VestingSchedules lgva) ;;
  BaseVesting_Validate (lg_Base lgva).
End ops.

(** ** The released ratio as a function of time *)
Definition released (t : Z) (s : Schedule) : Z :=
  if t <? StartTime s then 0
  else if t <? EndTime s then Ratio s * (t - StartTime s) / (EndTime s - StartTime s)
  else Ratio s.

Definition ratio_at (l : list Schedule) (t : Z) : Z := Zsum (map (released t) l).
Definition ratio_sum (l : list Schedule) : Z := Zsum (map Ratio l).

Definition schedule_ok (s : Schedule) : Prop :=
  0 <= StartTime s <= EndTime s /\ EndTime s < 2 ^ 63 /\ 0 < Ratio s.

Lemma released_bounds t s : schedule_ok s -> 0 <= released t s <= Ratio s.
Proof.
  unfold schedule_ok, released. intros (? & ? & ?).
  repeat case_match; zbool; [lia| |lia]. split.
  - apply Z.div_pos; nia.
  - apply Z.div_le_upper_bound; nia.
Qed.

Lemma released_mono t t' s : schedule_ok s -> t <= t' -> released t s <= released t' s.
Proof.
  intros Hs Ht. pose proof (released_bounds t s Hs). pose proof (released_bounds t' s Hs).
  destruct Hs as (? & ? & ?). unfold released in *.
  repeat case_match; zbool; try lia. apply Z.div_le_mono; nia.
Qed.

Lemma ratio_at_bounds l t : Forall schedule_ok l -> 0 <= ratio_at l t <= ratio_sum l.
Proof.
  unfold ratio_at, ratio_sum, Zsum. induction 1 as [|s l Hs _ IH]; simpl; [lia|].
  pose proof (released_bounds t s Hs). lia.
Qed.

Lemma ratio_at_mono l t t' : Forall schedule_ok l -> t <= t' -> ratio_at l t <= ratio_at l t'.
Proof.
  unfold ratio_at, Zsum. intros Hl Ht. induction Hl as [|s l Hs _ IH]; simpl; [lia|].
  pose proof (released_mono t t' s Hs Ht). lia.
Qed.

Lemma ratio_at_start l t : Forall (fun s => t < StartTime s) l -> ratio_at l t = 0.
Proof.
  unfold ratio_at, Zsum. induction 1 as [|s l Hs _ IH]; simpl; [done|].
  rewrite IH. unfold released. by rewrite (proj2 (Z.ltb_lt _ _) Hs).
Qed.

Lemma ratio_at_end l t : Forall schedule_ok l -> Forall (fun s => EndTime s <= t) l ->
  ratio_at l t = ratio_sum l.
Proof.
  unfold ratio_at, ratio_sum, Zsum. induction 1 as [|s l Hs _ IH]; simpl; [lia|].
  intros [Ht Hl]%Forall_cons. rewrite IH by done. destruct Hs as (? & ? & ?).
  unfold released. rewrite !(proj2 (Z.ltb_ge _ _)) by lia. lia.
Qed.

Section correctness.
Context `{MathOps} `{CoinOps} `{CoinSubOps} {BA : Type} `{BaseVestingOps BA}.
Context `{!MathLaws} `{!CoinLaws} `{!CoinSubLaws}.
Implicit Types lgva : LazyGradedVestingAccount BA.

(** *** Schedules *)

(** The times of a schedule are int64 fields. *)
Definition typed (s : Schedule) : Prop := is_i64 (StartTime s) /\ is_i64 (EndTime s).

(** A total above or below one by less than half of [10 ^ -9]. *)
Definition near_one (r : Z) : Prop := 2 * fixedPointDecimals * Z.abs (r - Precision) <= Precision.

Lemma i64_id z : is_i64 z -> i64 z = z.
Proof. unfold is_i64, i64. intros. rewrite Z.mod_small; lia. Qed.

Lemma Schedule_Validate_ok s u : typed s -> Schedule_Validate s = Ok u -> schedule_ok s.
Proof.
  unfold typed, is_i64, Schedule_Validate, schedule_ok, LegacyZeroDec. intros [? ?] E.
  res_inv E. zbool. lia.
Qed.

Lemma validate_sum l acc r :
  Forall typed l -> foldRes validate_step acc l = Ok r ->
  r = acc + ratio_sum l /\ Forall schedule_ok l.
Proof.
  unfold ratio_sum. intros Hl. revert acc. induction Hl as [|s l Hs _ IH]; simpl; intros acc E.
  - split; [|done]. res_inv E. lia.
  - apply res_bind_ok in E as (acc' & Es & E). apply IH in E as [-> ?].
    apply res_bind_ok in Es as (u & Ev & Es). math_inv. subst.
    apply Schedule_Validate_ok in Ev; [|done]. split; [lia|by constructor].
Qed.

Lemma scaled_one n : Z.quot (n * Precision) fixedPointDecimals = Precision ->
  n = fixedPointDecimals.
Proof.
  replace (n * Precision) with (n * 10 ^ 9 * fixedPointDecimals) by reflexivity || (unfold
    Precision, fixedPointDecimals; lia).
  rewrite Z.quot_mul by done. unfold Precision, fixedPointDecimals. lia.
Qed.

Lemma VestingSchedule_Validate_ok vs u :
  Forall typed (Schedules vs) -> VestingSchedule_Validate vs = Ok u ->
  Forall schedule_ok (Schedules vs) /\ near_one (ratio_sum (Schedules vs)).
Proof.
  unfold VestingSchedule_Validate, RoundInt64. intros Hl E.
  apply res_bind_ok in E as (r & Er & E). apply validate_sum in Er as [-> ?]; [|done].
  split; [done|]. apply res_bind_ok in E as (x & Ex & E). apply res_bind_ok in E as (n & En & E).
  apply res_bind_ok in E as (q & Eq & E). apply res_bind_ok in En as (n' & En' & En).
  res_inv En. res_inv E. math_inv. apply DecRoundInt_inv in En'.
  rewrite DecQuoInt64_nz in Eq by done. injection Eq as <-. zbool.
  unfold LegacyOneDec, LegacyNewDec in *. apply scaled_one in C0. subst.
  unfold near_one, LegacyZeroDec, fixedPointDecimals, Precision in *. lia.
Qed.

Lemma ratio_step_eq t acc s :
  is_i64 t -> schedule_ok s -> Ratio s <= 2 ^ 62 -> dec_safe (acc + released t s) ->
  ratio_step t acc s = Ok (acc + released t s).
Proof.
  unfold schedule_ok, ratio_step, released, is_i64. intros Ht (? & ? & ?) Hr Hsafe.
  case_match; [by rewrite Z.add_0_r|]. case_match; zbool.
  - rewrite !i64_id by (unfold is_i64; lia). rewrite DecMulInt64_ok by (unfold dec_safe; nia).
    cbn [mbind res_bind]. rewrite DecQuoInt64_nz by lia. cbn [mbind res_bind].
    rewrite Z.quot_div_nonneg by nia. by apply DecAdd_ok.
  - by apply DecAdd_ok.
Qed.

Lemma ratio_loop_eq t l acc :
  is_i64 t -> Forall schedule_ok l -> 0 <= acc -> acc + ratio_sum l <= 2 ^ 62 ->
  foldRes (ratio_step t) acc l = Ok (acc + ratio_at l t).
Proof.
  unfold ratio_sum, ratio_at. intros Ht Hl. revert acc.
  induction Hl as [|s l Hs Hl IH]; cbn [map Zsum foldr foldRes]; intros acc Ha Hb.
  - by rewrite Z.add_0_r.
  - pose proof (released_bounds t s Hs). pose proof (ratio_at_bounds l t Hl).
    unfold ratio_at, ratio_sum, Zsum in *. simpl in Hb.
    rewrite ratio_step_eq; [|done|done|lia|unfold dec_safe; lia].
    cbn [mbind res_bind]. rewrite IH by lia. simpl. f_equal. lia.
Qed.

Lemma near_one_bound r : near_one r -> r <= 2 ^ 62.
Proof. unfold near_one, fixedPointDecimals, Precision. lia. Qed.

Lemma GetVestedRatio_eq vs t :
  is_i64 t -> Forall schedule_ok (Schedules vs) -> near_one (ratio_sum (Schedules vs)) ->
  GetVestedRatio vs t = Ok (ratio_at (Schedules vs) t).
Proof.
  intros. unfold GetVestedRatio, LegacyZeroDec. apply ratio_loop_eq; [done|done|lia|].
  by apply near_one_bound.
Qed.

(** *** Accounts *)

(** What [Validate] establishes of every schedule of an account. *)
Definition schedules_ok lgva : Prop :=
  Forall (fun vs => Forall schedule_ok (Schedules vs) /\ near_one (ratio_sum (Schedules vs)))
    (VestingSchedules lgva).

(** The times are int64 values, the original vesting is a set of coins, with
    amounts far below the limit of a LegacyDec. *)
Record account_typed lgva : Prop := {
  typed_times : Forall (fun vs => Forall typed (Schedules vs)) (VestingSchedules lgva);
  typed_coins : CoinsIsValid (OriginalVesting (lg_Base lgva)) = true;
  typed_amounts : Forall (fun c => Amount c <= 2 ^ 160) (OriginalVesting (lg_Base lgva));
}.

(** The ratios of a denomination may exceed one by so little that it does
    not show after rounding the amount. *)
Definition within_tolerance lgva : Prop :=
  forall c vs, c ∈ OriginalVesting (lg_Base lgva) ->
    GetVestingSchedule lgva (Denom c) = Some vs ->
    2 * Amount c * (ratio_sum (Schedules vs) - Precision) < Precision.

Lemma validate_schedules_ok seen l u :
  Forall (fun vs => Forall typed (Schedules vs)) l -> validate_schedules seen l = Ok u ->
  Forall (fun vs => Forall schedule_ok (Schedules vs) /\ near_one (ratio_sum (Schedules vs))) l.
Proof.
  intros Hl. revert seen. induction Hl as [|vs l Hvs _ IH]; intros seen E; [constructor|].
  cbn [validate_schedules] in E. case_match; [done|]. apply res_bind_ok in E as (v & Ev & E).
  constructor; [by eapply VestingSchedule_Validate_ok|by eapply IH].
Qed.

Lemma Validate_ok lgva u : account_typed lgva -> Validate lgva = Ok u -> schedules_ok lgva.
Proof.
  intros T E. apply res_bind_ok in E as (v & Ev & E).
  eapply validate_schedules_ok; [by apply typed_times|done].
Qed.

(** The amount of an original coin that is vested at a time. *)
Definition vested_amount lgva (t : Z) (c : Coin) : Z :=
  match GetVestingSchedule lgva (Denom c) with
  | Some vs => match DecRoundInt (Amount c * ratio_at (Schedules vs) t) with
               | Ok v => v | _ => 0 end
  | None => Amount c
  end.

(** Coins with their amounts replaced, those at zero dropped. *)
Definition reprice (v : Coin -> Z) (c : Coin) : option Coin :=
  if v c <=? 0 then None else Some (mkCoin (Denom c) (v c)).

Lemma coins_sum_reprice v l d : (forall c, c ∈ l -> 0 <= v c) ->
  coins_sum (omap (reprice v) l) d = coins_sum (map (fun c => mkCoin (Denom c) (v c)) l) d.
Proof.
  intros Hv. induction l as [|c l IH]; [done|]. cbn [omap list_omap map coins_sum].
  pose proof (Hv c (list_elem_of_here _ _)). unfold reprice at 1.
  destruct (Z.leb_spec (v c) 0); cbn [coins_sum Denom Amount];
    (rewrite IH; [|intros; apply Hv; by right]); [|done].
  case_match; lia.
Qed.

Lemma coins_sum_le v w l d : (forall c, c ∈ l -> 0 <= v c <= w c) ->
  coins_sum (omap (reprice v) l) d <= coins_sum (omap (reprice w) l) d.
Proof.
  intros Hle. rewrite !coins_sum_reprice by (intros c Hc; specialize (Hle c Hc); lia).
  induction l as [|c l IH]; [done|]. cbn [map coins_sum Denom Amount].
  pose proof (Hle c (list_elem_of_here _ _)).
  specialize (IH ltac:(intros; apply Hle; by right)). case_match; lia.
Qed.

Lemma coins_sum_amounts l d : (forall c, c ∈ l -> 0 < Amount c) ->
  coins_sum (omap (reprice Amount) l) d = coins_sum l d.
Proof.
  intros Hl. rewrite coins_sum_reprice by (intros c Hc; specialize (Hl c Hc); lia). clear Hl.
  f_equal. induction l as [|[] l IH]; [done|]. simpl. by rewrite IH.
Qed.

Lemma coins_sum_reprice_in v l c : (forall c, c ∈ l -> 0 <= v c) ->
  NoDup (map Denom l) -> c ∈ l -> coins_sum (omap (reprice v) l) (Denom c) = v c.
Proof.
  intros Hv. rewrite coins_sum_reprice by done. clear Hv. induction l as [|c' l IH]; [by intros _ ?%elem_of_nil|].
  cbn [map coins_sum Denom Amount]. intros [Hc Hn]%NoDup_cons [->|Hin]%elem_of_cons.
  - rewrite String.eqb_refl, coins_sum_absent; [lia|]. rewrite map_map. cbn [Denom]. done.
  - rewrite IH by done. rewrite (proj2 (String.eqb_neq _ _)); [lia|]. intros E. apply Hc.
    rewrite E. by apply list_elem_of_fmap_2.
Qed.

Section account.
Context (lgva : LazyGradedVestingAccount BA) (t : Z).
Context (T : account_typed lgva) (S : schedules_ok lgva) (Ht : is_i64 t).
Implicit Types c : Coin.

Lemma GetVestingSchedule_ok d vs : GetVestingSchedule lgva d = Some vs ->
  Forall schedule_ok (Schedules vs) /\ near_one (ratio_sum (Schedules vs)).
Proof.
  intros [Hin _]%find_some. revert S. unfold schedules_ok. rewrite Forall_forall. intros S'.
  by apply S', list_elem_of_In.
Qed.

Lemma amount_bounds c : c ∈ OriginalVesting (lg_Base lgva) -> 0 < Amount c <= 2 ^ 160.
Proof.
  intros Hc. split; [by eapply CoinsIsValid_pos, Hc; apply typed_coins|].
  pose proof (typed_amounts _ T) as Hall. rewrite Forall_forall in Hall. by apply Hall.
Qed.

Lemma product_safe c d vs : c ∈ OriginalVesting (lg_Base lgva) -> GetVestingSchedule lgva d = Some vs ->
  0 <= ratio_at (Schedules vs) t <= 2 ^ 62 /\
  0 <= Amount c * ratio_at (Schedules vs) t /\
  dec_safe (Amount c * Precision * ratio_at (Schedules vs) t) /\
  dec_safe (Amount c * ratio_at (Schedules vs) t).
Proof.
  intros Hc [Hs Hn]%GetVestingSchedule_ok. pose proof (amount_bounds c Hc).
  pose proof (ratio_at_bounds _ t Hs). pose proof (near_one_bound _ Hn).
  unfold dec_safe, Precision. repeat split; try lia; nia.
Qed.

Lemma vested_amount_round c vs : c ∈ OriginalVesting (lg_Base lgva) -> GetVestingSchedule lgva (Denom c) = Some vs ->
  DecRoundInt (Amount c * ratio_at (Schedules vs) t) = Ok (vested_amount lgva t c) /\
  2 * Z.abs (vested_amount lgva t c * Precision - Amount c * ratio_at (Schedules vs) t)
    <= Precision.
Proof.
  intros Hc E. destruct (product_safe c _ vs Hc E) as (_ & _ & _ & Hs).
  unfold vested_amount. rewrite E.
  destruct (DecRoundInt _) eqn:Er; [|apply DecRoundInt_ok in Hs; by rewrite Er in Hs..].
  split; [done|]. by apply DecRoundInt_inv.
Qed.

Lemma vested_amount_nonneg c : c ∈ OriginalVesting (lg_Base lgva) -> 0 <= vested_amount lgva t c.
Proof.
  intros Hc. destruct (GetVestingSchedule lgva (Denom c)) as [vs|] eqn:E.
  - destruct (vested_amount_round c vs Hc E) as [_ Hr].
    destruct (product_safe c _ vs Hc E) as (_ & ? & _). unfold Precision in *. lia.
  - unfold vested_amount. rewrite E. by apply Z.lt_le_incl, amount_bounds.
Qed.

Lemma DecMul_int a r p : DecMul (a * Precision) r = Ok p -> p = a * r.
Proof. intros E%DecMul_inv. unfold Precision in *. nia. Qed.

Lemma vested_step_eq acc c : c ∈ OriginalVesting (lg_Base lgva) ->
  vested_step lgva t acc c = Ok (acc ++ omap (reprice (vested_amount lgva t)) [c]).
Proof.
  intros Hc. pose proof (vested_amount_nonneg c Hc) as Hv. pose proof (amount_bounds c Hc).
  assert (ValidDenom (Denom c) = true) as Hd
    by (eapply CoinsIsValid_denom; [by apply (typed_coins _ T)|done]).
  unfold vested_step. cbn [omap list_omap]. unfold reprice.
  destruct (GetVestingSchedule lgva (Denom c)) as [vs|] eqn:E.
  - destruct (GetVestingSchedule_ok _ _ E) as [Hs Hn]. rewrite GetVestedRatio_eq by done.
    destruct (product_safe c _ vs Hc E) as (_ & _ & Hp & _).
    destruct (vested_amount_round c vs Hc E) as [Hr _]. cbn [mbind res_bind].
    unfold LegacyNewDecFromInt. destruct (DecMul _ _) as [p| |] eqn:Ep;
      [|apply DecMul_ok in Hp; by rewrite Ep in Hp..].
    apply DecMul_int in Ep as ->. cbn [mbind res_bind]. rewrite Hr. cbn [mbind res_bind].
    destruct (Z.eqb_spec (vested_amount lgva t c) 0), (Z.leb_spec (vested_amount lgva t c) 0);
      try lia; [by rewrite app_nil_r|]. by rewrite NewCoin_ok.
  - assert (vested_amount lgva t c = Amount c) as -> by (unfold vested_amount; by rewrite E).
    rewrite NewCoin_ok by (done || lia). cbn [mbind res_bind].
    destruct (Z.leb_spec (Amount c) 0); [lia|done].
Qed.

Lemma GetVestedCoins_eq : GetVestedCoins lgva t = Ok (omap (reprice (vested_amount lgva t)) (OriginalVesting (lg_Base lgva))).
Proof.
  unfold GetVestedCoins.
  assert (forall l acc, (forall c, c ∈ l -> c ∈ OriginalVesting (lg_Base lgva)) -> foldRes (vested_step lgva t) acc l =
    Ok (acc ++ omap (reprice (vested_amount lgva t)) l)) as Hl.
  { induction l as [|c l IH]; intros acc Hin; [by rewrite app_nil_r|]. cbn [foldRes].
    rewrite vested_step_eq by (apply Hin; left). cbn [mbind res_bind].
    rewrite IH by (intros; apply Hin; by right). rewrite <- app_assoc. do 2 f_equal.
    cbn [omap list_omap]. by destruct (reprice _ c). }
  by apply Hl.
Qed.

Lemma vested_valid :
  CoinsIsValid (omap (reprice (vested_amount lgva t)) (OriginalVesting (lg_Base lgva))) = true.
Proof.
  apply CoinsIsValid_keep; [by apply typed_coins|]. intros c c'. unfold reprice.
  case_match; intros; simplify_eq. zbool. done.
Qed.
End account.

Lemma vested_le_original lgva t c :
  account_typed lgva -> schedules_ok lgva -> is_i64 t -> within_tolerance lgva ->
  c ∈ OriginalVesting (lg_Base lgva) -> vested_amount lgva t c <= Amount c.
Proof.
  intros T S Ht W Hc. destruct (GetVestingSchedule lgva (Denom c)) as [vs|] eqn:E.
  - destruct (vested_amount_round lgva t T S c vs Hc E) as [_ Hr].
    destruct (GetVestingSchedule_ok lgva S _ _ E) as [Hs _].
    pose proof (ratio_at_bounds _ t Hs). pose proof (W c vs Hc E).
    pose proof (amount_bounds lgva T c Hc). unfold Precision in *. nia.
  - unfold vested_amount. by rewrite E.
Qed.

Lemma vested_mono lgva t t' c :
  account_typed lgva -> schedules_ok lgva -> t <= t' ->
  c ∈ OriginalVesting (lg_Base lgva) -> vested_amount lgva t c <= vested_amount lgva t' c.
Proof.
  intros T S Ht Hc. destruct (GetVestingSchedule lgva (Denom c)) as [vs|] eqn:E.
  - destruct (vested_amount_round lgva t T S c vs Hc E) as [Hr Hb].
    destruct (vested_amount_round lgva t' T S c vs Hc E) as [Hr' Hb'].
    destruct (GetVestingSchedule_ok lgva S _ _ E) as [Hs _].
    pose proof (ratio_at_mono _ t t' Hs Ht). pose proof (amount_bounds lgva T c Hc).
    destruct (Z.eq_dec (ratio_at (Schedules vs) t) (ratio_at (Schedules vs) t')) as [Eq|].
    + rewrite Eq in Hr. rewrite Hr in Hr'. injection Hr' as ->. done.
    + unfold Precision in *. nia.
  - unfold vested_amount. by rewrite E.
Qed.

(** The vested coins of an accepted account, by denomination. *)
Lemma vested_coins_spec lgva t :
  account_typed lgva -> Validate lgva = Ok tt -> is_i64 t ->
  exists vested, GetVestedCoins lgva t = Ok vested /\ CoinsIsValid vested = true /\
    (forall d, AmountOf vested d
       = coins_sum (omap (reprice (vested_amount lgva t)) (OriginalVesting (lg_Base lgva))) d) /\
    (forall c, c ∈ OriginalVesting (lg_Base lgva) ->
       AmountOf vested (Denom c) = vested_amount lgva t c).
Proof.
  intros T V Ht. pose proof (Validate_ok lgva _ T V) as S.
  pose proof (vested_valid lgva t T) as Hv.
  eexists. split; [by apply GetVestedCoins_eq|]. split; [done|].
  assert (forall d, AmountOf (omap (reprice (vested_amount lgva t))
    (OriginalVesting (lg_Base lgva))) d = coins_sum (omap (reprice (vested_amount lgva t))
    (OriginalVesting (lg_Base lgva))) d) as Hd by (intros; by apply AmountOf_sum).
  split; [done|]. intros c Hc. rewrite Hd. apply coins_sum_reprice_in; [|apply CoinsIsValid_nodup|];
    [|by apply typed_coins|done]. intros. by apply vested_amount_nonneg.
Qed.

Lemma vested_sum_le lgva t d :
  account_typed lgva -> schedules_ok lgva -> is_i64 t -> within_tolerance lgva ->
  coins_sum (omap (reprice (vested_amount lgva t)) (OriginalVesting (lg_Base lgva))) d
    <= AmountOf (OriginalVesting (lg_Base lgva)) d.
Proof.
  intros T S Ht W. rewrite AmountOf_sum by by apply typed_coins.
  rewrite <- (coins_sum_amounts (OriginalVesting (lg_Base lgva)))
    by (intros c Hc; by apply (amount_bounds lgva)).
  apply coins_sum_le. intros c Hc. split; [by apply vested_amount_nonneg|by apply vested_le_original].
Qed.

Lemma vesting_coins_spec lgva t vested :
  account_typed lgva -> Validate lgva = Ok tt -> within_tolerance lgva -> is_i64 t ->
  GetVestedCoins lgva t = Ok vested ->
  exists vesting, GetVestingCoins lgva t = Ok vesting /\ CoinsIsValid vesting = true /\
    forall d, AmountOf vesting d = AmountOf (OriginalVesting (lg_Base lgva)) d - AmountOf vested d.
Proof.
  intros T V W Ht E. pose proof (Validate_ok lgva _ T V) as S. pose proof (typed_coins _ T) as HO.
  destruct (vested_coins_spec lgva t T V Ht) as (vested' & Ev & Hv & Hsum & _).
  rewrite E in Ev. injection Ev as <-.
  destruct (is_ok_ex (CoinsSub (OriginalVesting (lg_Base lgva)) vested)) as [z Es].
  { apply CoinsSub_ok; [done|done|]. intros d. rewrite Hsum. by apply vested_sum_le. }
  exists z. split; [unfold GetVestingCoins; by rewrite E|].
  split; [exact (CoinsSub_valid _ _ _ HO Hv Es)|]. intros d.
  exact (CoinsSub_inv _ _ _ d HO Hv Es).
Qed.

(** C26: For an account that [Validate] accepts and whose amounts are within
    the tolerance of the ratios, the vested, vesting and locked coins are
    defined at every block time; what is vested and what is vesting add up to
    the original vesting in every denomination; the locked coins are what is
    vesting beyond what was delegated from it; and the vested amount is the
    original amount times the released ratio, rounded to the nearest unit. *)
Theorem vesting_partition `{!BaseVestingLaws BA} lgva t :
  account_typed lgva -> CoinsIsValid (DelegatedVesting (lg_Base lgva)) = true ->
  Validate lgva = Ok tt -> within_tolerance lgva -> is_i64 t ->
  exists vested vesting locked,
    GetVestedCoins lgva t = Ok vested /\ GetVestingCoins lgva t = Ok vesting /\
    LockedCoins lgva t = Ok locked /\
    (forall d, 0 <= AmountOf vested d /\ 0 <= AmountOf vesting d /\
       AmountOf vested d + AmountOf vesting d = AmountOf (OriginalVesting (lg_Base lgva)) d /\
       AmountOf locked d
         = Z.max 0 (AmountOf vesting d - AmountOf (DelegatedVesting (lg_Base lgva)) d)) /\
    (forall c vs, c ∈ OriginalVesting (lg_Base lgva) ->
       GetVestingSchedule lgva (Denom c) = Some vs ->
       2 * Z.abs (AmountOf vested (Denom c) * Precision - Amount c * ratio_at (Schedules vs) t)
         <= Precision).
Proof.
  intros T Hdv V W Ht. pose proof (Validate_ok lgva _ T V) as S.
  destruct (vested_coins_spec lgva t T V Ht) as (vested & Ev & Hv & Hsum & Hat).
  destruct (vesting_coins_spec lgva t vested T V W Ht Ev) as (vesting & Eg & Hgv & Hg).
  destruct (is_ok_ex _ (Locked_ok (lg_Base lgva) vesting Hgv Hdv)) as [locked El].
  exists vested, vesting, locked. split; [done|]. split; [done|].
  split; [unfold LockedCoins; by rewrite Eg|]. split.
  - intros d. pose proof (AmountOf_nonneg _ d Hv). pose proof (AmountOf_nonneg _ d Hgv).
    rewrite (Locked_inv _ _ _ d Hgv Hdv El). rewrite Hg in *. lia.
  - intros c vs Hc Hvs. rewrite Hat by done. by apply vested_amount_round.
Qed.

(** Vested coins never decrease: for an accepted account and two block
    times in order, both sets of vested coins are defined and the later one
    has at least as much of every denomination; nothing of a scheduled coin
    is vested before its first schedule starts, and all of it is once every
    schedule has ended, if the ratios add up to exactly one. *)
Theorem vested_never_decreases lgva t t' :
  account_typed lgva -> Validate lgva = Ok tt -> is_i64 t -> is_i64 t' -> t <= t' ->
  exists vested vested',
    GetVestedCoins lgva t = Ok vested /\ GetVestedCoins lgva t' = Ok vested' /\
    (forall d, AmountOf vested d <= AmountOf vested' d) /\
    (forall c vs, c ∈ OriginalVesting (lg_Base lgva) ->
       GetVestingSchedule lgva (Denom c) = Some vs ->
       (Forall (fun s => t < StartTime s) (Schedules vs) -> AmountOf vested (Denom c) = 0) /\
       (Forall (fun s => EndTime s <= t') (Schedules vs) ->
        ratio_sum (Schedules vs) = Precision -> AmountOf vested' (Denom c) = Amount c)).
Proof.
  intros T V Ht Ht' Hle. pose proof (Validate_ok lgva _ T V) as S.
  destruct (vested_coins_spec lgva t T V Ht) as (v & Ev & _ & Hsum & Hat).
  destruct (vested_coins_spec lgva t' T V Ht') as (v' & Ev' & _ & Hsum' & Hat').
  exists v, v'. split; [done|]. split; [done|]. split.
  - intros d. rewrite Hsum, Hsum'. apply coins_sum_le. intros c Hc.
    split; [by apply vested_amount_nonneg|by apply vested_mono].
  - intros c vs Hc Hvs. rewrite Hat, Hat' by done.
    destruct (GetVestingSchedule_ok lgva S _ _ Hvs) as [Hs _]. split.
    + intros Hst. destruct (vested_amount_round lgva t T S c vs Hc Hvs) as [_ Hr].
      rewrite ratio_at_start in Hr by done. unfold Precision in *. lia.
    + intros Hend Hone. destruct (vested_amount_round lgva t' T S c vs Hc Hvs) as [_ Hr].
      rewrite ratio_at_end, Hone in Hr by done. unfold Precision in *. lia.
Qed.

(** The rounding that [Validate] allows in the ratios is not harmless:
    when the ratios of a coin exceed one by enough to show after rounding its
    amount, the accepted account panics whenever its vesting coins are read
    after the schedules have ended, because the vested amount is larger than
    the original one. *)
Theorem accepted_account_panics lgva t c vs :
  account_typed lgva -> Validate lgva = Ok tt -> is_i64 t ->
  c ∈ OriginalVesting (lg_Base lgva) -> GetVestingSchedule lgva (Denom c) = Some vs ->
  Forall (fun s => EndTime s <= t) (Schedules vs) ->
  Precision < 2 * Amount c * (ratio_sum (Schedules vs) - Precision) ->
  GetVestingCoins lgva t = Panic /\ LockedCoins lgva t = Panic.
Proof.
  intros T V Ht Hc Hvs Hend Hex. pose proof (Validate_ok lgva _ T V) as S.
  destruct (vested_coins_spec lgva t T V Ht) as (v & Ev & Hv & Hsum & Hat).
  destruct (GetVestingSchedule_ok lgva S _ _ Hvs) as [Hs _].
  assert (GetVestingCoins lgva t = Panic) as E;
    [|split; [done|unfold LockedCoins; by rewrite E]].
  unfold GetVestingCoins. rewrite Ev. cbn [mbind res_bind].
  apply (CoinsSub_negative _ _ (Denom c)); [by apply typed_coins|done|].
  rewrite Hat, AmountOf_sum, coins_sum_in by
    (done || (by apply typed_coins) || (apply CoinsIsValid_nodup; by apply typed_coins)).
  destruct (vested_amount_round lgva t T S c vs Hc Hvs) as [_ Hr].
  rewrite ratio_at_end in Hr by done. unfold Precision in *. nia.
Qed.
End correctness.

(** ** A reference base account and an example *)
Definition locked_of (dv : list Coin) (c : Coin) : Z :=
  Z.max 0 (Amount c - coins_sum dv (Denom c)).

#[export] Instance ref_base_vesting : BaseVestingOps string := {|
  LockedCoinsFromVesting a vc := Ok (omap (reprice (locked_of (DelegatedVesting a))) vc);
  BaseTrackDelegation balance vc amount a :=
    foldRes (fun a c =>
      if (Amount c =? 0) || (AmountOf balance (Denom c) <? Amount c) then Panic
      else
        let x := Z.min (Z.max 0 (AmountOf vc (Denom c) - AmountOf (DelegatedVesting a) (Denom c)))
                       (Amount c) in
        free ← CoinsAdd (DelegatedFree a) (nonzero [mkCoin (Denom c) (Amount c - x)]);
        vesting ← CoinsAdd (DelegatedVesting a) (nonzero [mkCoin (Denom c) x]);
        Ok (mkBaseVestingAccount (BaseAccount a) (OriginalVesting a) free vesting (bva_EndTime a)))
      a amount;
  BaseVesting_Validate a :=
    if forallb (fun c => Amount c <=? AmountOf (OriginalVesting a) (Denom c)) (DelegatedVesting a)
    then Ok tt else Err (Foreign "delegated vesting");
|}.

Lemma locked_of_nonneg dv c : 0 <= locked_of dv c.
Proof. unfold locked_of. lia. Qed.

#[export] Instance ref_base_vesting_laws : BaseVestingLaws string.
Proof.
  split; [|done]. intros a vc lc d Hvc Hdv [= <-].
  rewrite AmountOf_sum.
  2: { apply CoinsIsValid_keep; [done|]. intros c c'. unfold reprice.
       case_match; intros; simplify_eq. zbool. done. }
  pose proof (AmountOf_nonneg _ d Hdv). pose proof (CoinsIsValid_nodup _ Hvc) as Hn.
  rewrite !AmountOf_sum in * by done. destruct (decide (d ∈ map Denom vc)) as [Hin|Hout].
  - apply list_elem_of_fmap in Hin as (c & -> & Hc).
    rewrite coins_sum_reprice_in, coins_sum_in by (done || intros; apply locked_of_nonneg). done.
  - rewrite coins_sum_reprice by (intros; apply locked_of_nonneg).
    rewrite (coins_sum_absent vc d) by done. rewrite coins_sum_absent by by rewrite map_map. lia.
Qed.

Module Example.
(** Two schedules of 40% and 60% over overlapping periods. *)
Definition graded : VestingSchedule :=
  mkVestingSchedule "udo" [mkSchedule 100 200 (4 * 10 ^ 17); mkSchedule 150 350 (6 * 10 ^ 17)].

Definition account : LazyGradedVestingAccount string :=
  mkLazyGradedVestingAccount
    (mkBaseVestingAccount "owner" [mkCoin "udo" 1000; mkCoin "uusd" 70] [] [mkCoin "udo" 300] 0)
    [graded].

(** The ratios add up to 1.0000000004, which [Validate] rounds to one. *)
Definition over_one : VestingSchedule :=
  mkVestingSchedule "udo" [mkSchedule 100 200 (5 * 10 ^ 17);
                           mkSchedule 200 300 (5 * 10 ^ 17 + 4 * 10 ^ 8)].

Definition excessive : LazyGradedVestingAccount string :=
  mkLazyGradedVestingAccount
    (mkBaseVestingAccount "owner" [mkCoin "udo" (10 ^ 10)] [] [] 0)
    [over_one].
End Example.

Ltac account_facts :=
  split; [repeat constructor; vm_compute; congruence|vm_compute; reflexivity
         |repeat constructor; vm_compute; congruence].

Lemma vesting_partition_witness :
  GetVestedCoins Example.account 250 = Ok [mkCoin "udo" 700; mkCoin "uusd" 70] /\
  exists vested vesting locked,
    GetVestedCoins Example.account 250 = Ok vested /\
    GetVestingCoins Example.account 250 = Ok vesting /\
    LockedCoins Example.account 250 = Ok locked /\
    AmountOf vested "udo" + AmountOf vesting "udo" = 1000.
Proof.
  split; [vm_compute; reflexivity|].
  destruct (vesting_partition Example.account 250) as (v & g & l & Hv & Hg & Hl & H & _);
    [account_facts|vm_compute; reflexivity|vm_compute; reflexivity| |unfold is_i64; lia|].
  - intros c vs _ E. apply find_some in E as [[<-|[]] _]. change (ratio_sum (Schedules Example.graded)) with Precision.
    unfold Precision. lia.
  - exists v, g, l. split; [exact Hv|]. split; [exact Hg|]. split; [exact Hl|].
    exact (proj1 (proj2 (proj2 (H "udo")))).
Defined.

Lemma vested_never_decreases_witness :
  GetVestedCoins Example.account 160 = Ok [mkCoin "udo" 270; mkCoin "uusd" 70] /\
  exists vested vested',
    GetVestedCoins Example.account 160 = Ok vested /\
    GetVestedCoins Example.account 400 = Ok vested' /\
    AmountOf vested "udo" <= AmountOf vested' "udo" /\ AmountOf vested' "udo" = 1000.
Proof.
  split; [vm_compute; reflexivity|].
  destruct (vested_never_decreases Example.account 160 400) as (v & v' & Hv & Hv' & Hle & H);
    [account_facts|vm_compute; reflexivity|unfold is_i64; lia
    |unfold is_i64; lia|lia|].
  exists v, v'. split; [exact Hv|]. split; [exact Hv'|]. split; [apply Hle|].
  apply (H (mkCoin "udo" 1000) Example.graded); [apply list_elem_of_here|reflexivity| |reflexivity].
  repeat constructor; vm_compute; congruence.
Defined.

Lemma accepted_account_panics_witness :
  Validate Example.excessive = Ok tt /\ GetVestingCoins Example.excessive 300 = Panic.
Proof.
  split; [vm_compute; reflexivity|].
  destruct (accepted_account_panics Example.excessive 300 (mkCoin "udo" (10 ^ 10))
    Example.over_one) as [H _];
    [account_facts|vm_compute; reflexivity|unfold is_i64; lia|apply list_elem_of_here|reflexivity
    |repeat constructor; vm_compute; congruence|vm_compute; reflexivity|exact H].
Defined.
