(* ===== verification/GovTally.v ===== *)
(** * The governance tally (src/app/keepers/gov_tally.go)

    The application replaces the vote counting of the governance module.
    Before the fork height the delegated stake counts, with a validator
    voting for the shares whose delegators did not; from the fork on only
    accounts that are not validators count, each with at most 2.5% of the
    bonded tokens; and once the DODx module switches it on, an account counts
    with the DODx it has staked.  The governance store, the staking module and
    the codecs are parameters; the stakes are read through the interface
    [StakeView], which [DodxStaking] implements.  The theorems: what each
    voter counts in each mode and the bounds on it, that the counted votes are
    removed and no others, and that the order in which Go visits the
    validators does not matter. *)
From stdpp Require Import base gmap sets list strings fin_maps countable.
From Stdlib Require Import ZArith Lia.
From S2P Require Import Prelude Sdk SdkRef Core DodxStaking.
#[local] Open Scope Z_scope.

(** ** The governance types the code reads *)
Inductive VoteOption : Type :=
| OptionEmpty
| OptionYes
| OptionAbstain
| OptionNo
| OptionNoWithVeto.

#[export] Instance VoteOption_eq_dec : EqDecision VoteOption.
Proof. solve_decision. Defined.

Definition option_code (o : VoteOption) : nat :=
  match o with
  | OptionEmpty => 0 | OptionYes => 1 | OptionAbstain => 2 | OptionNo => 3 | OptionNoWithVeto => 4
  end%nat.

#[export] Instance VoteOption_countable : Countable VoteOption.
Proof.
  apply (inj_countable option_code (fun n => match n with
    | 0 => Some OptionEmpty | 1 => Some OptionYes | 2 => Some OptionAbstain
    | 3 => Some OptionNo | 4 => Some OptionNoWithVeto | _ => None end)%nat).
  by intros [].
Defined.

Record WeightedVoteOption : Type := mkWeighted { wo_Option : VoteOption; Weight : string }.
Record Vote : Type := mkVote { Voter : string; Options : list WeightedVoteOption }.
Record ValidatorGovInfo : Type := mkValidatorGovInfo {
  vi_Address : string;
  BondedTokens : Z;
  DelegatorShares : Z;
  DelegatorDeductions : Z;
  vi_Vote : list WeightedVoteOption;
}.
Record DelegationI : Type := mkDelegationI { GetValidatorAddr : string; GetShares : Z }.

Abbreviation TallyResults := (gmap VoteOption Z) (only parsing).
Abbreviation Validators := (gmap string ValidatorGovInfo) (only parsing).

(** The votes of the governance module: the entries under a proposal in key
    order, and the removal of one. *)
Class VotesOps (V : Type) : Type := {
  Votes_Get : V -> Z -> AccAddress -> option Vote;
  Votes_Walk : V -> Z -> res (list (AccAddress * Vote));
  Votes_Remove : Z -> AccAddress -> V -> res V;
}.
Class VotesLaws (V : Type) `{VotesOps V} : Prop := {
  Walk_elem v p l a vote : Votes_Walk v p = Ok l -> (a, vote) ∈ l <-> Votes_Get v p a = Some vote;
  Walk_nodup v p l : Votes_Walk v p = Ok l -> NoDup l.*1;
  Remove_get p a v v' p' a' : Votes_Remove p a v = Ok v' ->
    Votes_Get v' p' a' = if bool_decide (p' = p /\ a' = a) then None else Votes_Get v p' a';
}.

(** The delegations of an account, in the order the staking module iterates
    over them. *)
Class DelegationOps (K : Type) : Type := {
  IterateDelegations : K -> AccAddress -> res (list DelegationI);
}.

(** The address codecs, and [LegacyNewDecFromStr] without its error: the
    code ignores the error and keeps the nil decimal. *)
Class TallyCodec : Type := {
  StringToBytes : string -> res AccAddress;
  ValBytesToString : AccAddress -> res string;
  DecFromStr : string -> option Z;
}.

(** What the tally asks of the DODx staking module, over its state [S]: in
    a state that satisfies [sv_ok], the stakes of distinct accounts are
    nonnegative and add up to at most the recorded total. *)
Class StakeView (S : Type) : Type := {
  sv_GovernanceEnabled : S -> bool;
  sv_GetStakeAmount : S -> AccAddress -> Z;
  sv_total : S -> Z;
  sv_ok : S -> Prop;
}.
Class StakeViewLaws (S : Type) `{StakeView S} : Prop := {
  sv_nonneg s a : sv_ok s -> 0 <= sv_GetStakeAmount s a;
  sv_sum s l : sv_ok s -> NoDup l -> Zsum (map (sv_GetStakeAmount s) l) <= sv_total s;
}.

Definition communityVoterPowerCapNumerator : Z := 25.
Definition communityVoterPowerCapDenominator : Z := 1000.

Definition emptyCommunityTallyResults : TallyResults :=
  <[OptionYes := LegacyZeroDec]> (<[OptionAbstain := LegacyZeroDec]>
    (<[OptionNo := LegacyZeroDec]> (<[OptionNoWithVeto := LegacyZeroDec]> ∅))).

Definition doCommunityGovernanceActive (ctx : Ctx) : bool :=
  (0 <? DoCommunityGovernanceHeight) && (DoCommunityGovernanceHeight <=? BlockHeight ctx).

Definition capCommunityVoterPower (votingPower cap : Z) : Z :=
  if (cap =? 0) || (votingPower <=? cap) then votingPower else cap.

(** The variables the callbacks of a tally share. *)
Record Tally : Type := mkTally {
  totalVotingPower : Z;
  results : TallyResults;
  votesToRemove : list AccAddress;
  validators : Validators;
}.

Section ops.
Context {V K S : Type} `{VotesOps V} `{StakingOps K} `{DelegationOps K} `{StakeView S}.
Context `{MathOps} `{TallyCodec} `{MapRange}.

(** [results[o] = results[o].Add(votingPower.Mul(weight))]: a weight that
    does not parse and an option without an entry are nil decimals, on which
    the arithmetic panics. *)
Definition add_option (votingPower : Z) (r : TallyResults) (option : WeightedVoteOption)
    : res TallyResults :=
  match DecFromStr (Weight option), r !! wo_Option option with
  | Some weight, Some cur =>
      m ← DecMul votingPower weight;
      v ← DecAdd cur m;
      Ok (<[wo_Option option := v]> r)
  | _, _ => Panic
  end.

Definition cast_vote (votingPower : Z) (options : list WeightedVoteOption) (t : Tally)
    : res Tally :=
  r ← foldRes (add_option votingPower) (results t) options;
  total ← DecAdd (totalVotingPower t) votingPower;
  Ok (mkTally total r (votesToRemove t) (validators t)).

Definition mark_vote (key : AccAddress) (t : Tally) : Tally :=
  mkTally (totalVotingPower t) (results t) (votesToRemove t ++ [key]) (validators t).

(** [shares.MulInt(val.BondedTokens).Quo(val.DelegatorShares)] *)
Definition shares_power (shares : Z) (val : ValidatorGovInfo) : res Z :=
  m ← DecMulInt shares (BondedTokens val);
  DecQuo m (DelegatorShares val).

Definition add_delegation (vals : Validators) (power : Z) (d : DelegationI) : res Z :=
  match vals !! GetValidatorAddr d with
  | Some val => votingPower ← shares_power (GetShares d) val; DecAdd power votingPower
  | None => Ok power
  end.

Definition remove_votes (proposal : Z) (keys : list AccAddress) : M V unit :=
  forM (fun key => call_on id (fun v _ => v) (fun v => v' ← Votes_Remove proposal key v; Ok (tt, v')))
    keys.

(** One vote from the fork on. *)
Definition community_vote (k : K) (cap : Z) (t : Tally) (kv : AccAddress * Vote) : res Tally :=
  let '(key, vote) := kv in
  voter ← StringToBytes (Voter vote);
  valAddrStr ← ValBytesToString voter;
  match validators t !! valAddrStr with
  | Some _ => Ok (mark_vote key t)
  | None =>
      delegations ← IterateDelegations k voter;
      voterVotingPower ← foldRes (add_delegation (validators t)) LegacyZeroDec delegations;
      t' ← cast_vote (capCommunityVoterPower voterVotingPower cap) (Options vote) t;
      Ok (mark_vote key t')
  end.

(** One vote when DODx stakes count. *)
Definition staked_vote (s : S) (t : Tally) (kv : AccAddress * Vote) : res Tally :=
  let '(key, vote) := kv in
  voter ← StringToBytes (Voter vote);
  t' ← cast_vote (LegacyNewDecFromInt (sv_GetStakeAmount s voter)) (Options vote) t;
  Ok (mark_vote key t').

Definition dodxStakedTallyFn (s : S) (proposal : Z) (vals : Validators) : M V Tally :=
  votes ← (v ← get; lift (Votes_Walk v proposal));
  t ← lift (foldRes (staked_vote s) (mkTally LegacyZeroDec emptyCommunityTallyResults [] vals) votes);
  remove_votes proposal (votesToRemove t) ;;
  mret t.

(** One delegation of a voter before the fork: its shares are deducted from
    the validator's and counted for the voter. *)
Definition default_delegation (options : list WeightedVoteOption) (t : Tally) (d : DelegationI)
    : res Tally :=
  match validators t !! GetValidatorAddr d with
  | Some val =>
      deductions ← DecAdd (DelegatorDeductions val) (GetShares d);
      let val' := mkValidatorGovInfo (vi_Address val) (BondedTokens val) (DelegatorShares val)
                    deductions (vi_Vote val) in
      let t' := mkTally (totalVotingPower t) (results t) (votesToRemove t)
                  (<[GetValidatorAddr d := val']> (validators t)) in
      votingPower ← shares_power (GetShares d) val';
      cast_vote votingPower options t'
  | None => Ok t
  end.

Definition set_vote (valAddrStr : string) (options : list WeightedVoteOption) (t : Tally) : Tally :=
  match validators t !! valAddrStr with
  | Some val =>
      mkTally (totalVotingPower t) (results t) (votesToRemove t)
        (<[valAddrStr := mkValidatorGovInfo (vi_Address val) (BondedTokens val)
             (DelegatorShares val) (DelegatorDeductions val) options]> (validators t))
  | None => t
  end.

Definition default_vote (k : K) (t : Tally) (kv : AccAddress * Vote) : res Tally :=
  let '(key, vote) := kv in
  voter ← StringToBytes (Voter vote);
  valAddrStr ← ValBytesToString voter;
  delegations ← IterateDelegations k voter;
  t' ← foldRes (default_delegation (Options vote)) (set_vote valAddrStr (Options vote) t) delegations;
  Ok (mark_vote key t').

(** What is left of a validator's shares, for its own vote. *)
Definition validator_vote (t : Tally) (kv : string * ValidatorGovInfo) : res Tally :=
  let val := kv.2 in
  if Nat.eqb (length (vi_Vote val)) 0 then Ok t
  else
    sharesAfterDeductions ← DecSub (DelegatorShares val) (DelegatorDeductions val);
    votingPower ← shares_power sharesAfterDeductions val;
    cast_vote votingPower (vi_Vote val) t.

Definition defaultCommunityTallyFn (k : K) (proposal : Z) (vals : Validators) : M V Tally :=
  votes ← (v ← get; lift (Votes_Walk v proposal));
  t ← lift (foldRes (default_vote k) (mkTally LegacyZeroDec emptyCommunityTallyResults [] vals) votes);
  remove_votes proposal (votesToRemove t) ;;
  lift (foldRes validator_vote t (map_range (validators t))).

Definition DoCommunityTallyFn (ctx : Ctx) (s : S) (k : K) (proposal : Z) (vals : Validators)
    : M V Tally :=
  if negb (doCommunityGovernanceActive ctx) then defaultCommunityTallyFn k proposal vals
  else if sv_GovernanceEnabled s then dodxStakedTallyFn s proposal vals
  else
    totalBonded ← lift (TotalBondedTokens k);
    m ← lift (DecMulInt64 (LegacyNewDecFromInt totalBonded) communityVoterPowerCapNumerator);
    voterPowerCap ← lift (DecQuoInt64 m communityVoterPowerCapDenominator);
    votes ← (v ← get; lift (Votes_Walk v proposal));
    t ← lift (foldRes (community_vote k voterPowerCap)
                (mkTally LegacyZeroDec emptyCommunityTallyResults [] vals) votes);
    remove_votes proposal (votesToRemove t) ;;
    mret t.
End ops.

(** ** The DODx module implements the interface *)
Section stake_view.
Context {B : Type} `{BankOps B} `{MathOps} `{CoinOps} `{AddrCodec}.

#[export] Instance dodx_stake_view : StakeView (State B) := {|
  sv_GovernanceEnabled := GovernanceEnabled;
  sv_GetStakeAmount := GetStakeAmount;
  sv_total := GetTotalStakedAmount;
  sv_ok := inv;
|}.

#[export] Instance dodx_stake_view_laws : StakeViewLaws (State B).
Proof.
  split; cbn; intros s.
  - intros a. apply stake_nonneg.
  - intros l I Hl. rewrite (inv_total s I).
    replace (Zsum (map (GetStakeAmount s) l))
      with (foldr (fun k acc => default 0 (st_stakes s !! k) + acc) 0 l)
      by (unfold Zsum; clear Hl; induction l as [|a l IH]; [done|]; simpl; by rewrite IH).
    apply map_sum_keys; [|done]. eapply map_Forall_impl; [apply (inv_pos s I)|]. simpl. lia.
Qed.
End stake_view.

(** ** What a vote adds to a tally *)
Section counting.
Context {V K S : Type} `{VotesOps V} `{StakingOps K} `{DelegationOps K} `{StakeView S}.
Context `{MathOps} `{TallyCodec}.
Context `{!VotesLaws V} `{!StakeViewLaws S} `{!MathLaws}.
Implicit Types (t : Tally) (kv : AccAddress * Vote) (vals : Validators).

(** What the options of a vote of some power give to one option. *)
Definition option_power (p : Z) (x : WeightedVoteOption) : Z :=
  match DecFromStr (Weight x) with
  | Some w => match DecMul p w with Ok m => m | _ => 0 end
  | None => 0
  end.

Definition cast (p : Z) (options : list WeightedVoteOption) (o : VoteOption) : Z :=
  Zsum (map (fun x => if bool_decide (wo_Option x = o) then option_power p x else 0) options).

(** [t'] is [t] with [p] added to the total and [f o] to each option. *)
Definition grown (t t' : Tally) (p : Z) (f : VoteOption -> Z) : Prop :=
  totalVotingPower t' = totalVotingPower t + p /\
  forall o, results t' !! o = (fun r => r + f o) <$> results t !! o.

Lemma grown_none t t' :
  totalVotingPower t' = totalVotingPower t -> results t' = results t ->
  grown t t' 0 (fun _ => 0).
Proof.
  intros E1 E2. split; [lia|]. intros o. rewrite E2. destruct (results t !! o); simpl; [|done].
  f_equal. lia.
Qed.

Lemma grown_trans t t1 t2 p q f g :
  grown t t1 p f -> grown t1 t2 q g -> grown t t2 (p + q) (fun o => f o + g o).
Proof.
  intros [E1 F1] [E2 F2]. split; [lia|]. intros o. rewrite F2, F1.
  destruct (results t !! o); simpl; [|done]. f_equal. lia.
Qed.

Lemma grown_ext t t' p q f g : p = q -> (forall o, f o = g o) -> grown t t' p f -> grown t t' q g.
Proof. intros -> E [E1 F1]. split; [done|]. intros o. by rewrite F1, E. Qed.

Lemma add_options_ok p options r r' :
  foldRes (add_option p) r options = Ok r' ->
  forall o, r' !! o = (fun x => x + cast p options o) <$> r !! o.
Proof.
  unfold cast. revert r. induction options as [|x l IH]; cbn [foldRes map]; intros r E o.
  - injection E as <-. destruct (r !! o); simpl; [|done]. f_equal. unfold Zsum. simpl. lia.
  - apply res_bind_ok in E as (r1 & E1 & E). rewrite (IH _ E o). unfold add_option in E1.
    unfold option_power at 2. cbn [Zsum foldr].
    destruct (DecFromStr _) as [w|]; [|done]. destruct (r !! wo_Option x) as [cur|] eqn:Ec; [|done].
    apply res_bind_ok in E1 as (m & -> & E1). apply res_bind_ok in E1 as (v & Ev & E1).
    injection E1 as <-. math_inv. subst. unfold Zsum. case_bool_decide as Eo.
    + subst. rewrite lookup_insert_eq, Ec. simpl. f_equal. lia.
    + rewrite lookup_insert_ne by done. destruct (r !! o); simpl; [|done]. f_equal.
Qed.

Lemma cast_vote_ok p options t t' :
  cast_vote p options t = Ok t' ->
  grown t t' p (cast p options) /\ votesToRemove t' = votesToRemove t /\
  validators t' = validators t.
Proof.
  unfold cast_vote. intros E. apply res_bind_ok in E as (r & Er & E).
  apply res_bind_ok in E as (x & Ex & E). injection E as <-. math_inv. subst.
  split; [|done]. split; [done|]. simpl. by apply add_options_ok.
Qed.

Lemma grown_mark t t' key p f : grown t t' p f -> grown t (mark_vote key t') p f.
Proof. done. Qed.

(** A loop over votes, each of which adds what [pw] and [cs] say. *)
Lemma votes_loop {A} (step : Tally -> A -> res Tally) (key : A -> list AccAddress)
    (pw : A -> Z) (cs : A -> VoteOption -> Z) (I : Tally -> Prop) l t t' :
  (forall t x t', I t -> x ∈ l -> step t x = Ok t' ->
     grown t t' (pw x) (cs x) /\ votesToRemove t' = votesToRemove t ++ key x /\
     validators t' = validators t /\ I t') ->
  I t -> foldRes step t l = Ok t' ->
  grown t t' (Zsum (map pw l)) (fun o => Zsum (map (fun x => cs x o) l)) /\
  votesToRemove t' = votesToRemove t ++ concat (map key l) /\ validators t' = validators t.
Proof.
  intros Hstep. revert t. induction l as [|x l IH]; cbn [foldRes map concat]; intros t Ht E.
  - injection E as <-. rewrite app_nil_r. split; [by apply grown_none|done].
  - apply res_bind_ok in E as (t1 & E1 & E).
    apply Hstep in E1 as (G1 & R1 & V1 & I1); [|done|left].
    apply IH in E as (G & R & V'); [|intros; eapply Hstep; [done|by right|done]|done].
    split; [exact (grown_trans _ _ _ _ _ _ _ G1 G)|].
    rewrite R, R1, V', V1, app_assoc. done.
Qed.

Lemma remove_votes_get proposal keys v u v' :
  remove_votes proposal keys v = (Ok u, v') ->
  forall p a, Votes_Get v' p a =
    if bool_decide (p = proposal /\ a ∈ keys) then None else Votes_Get v p a.
Proof.
  unfold remove_votes. revert v. induction keys as [|key keys IH]; cbn [forM]; intros v E p a.
  - injection E as _ <-. case_bool_decide as Hd; [|done]. by destruct Hd as [_ ?%elem_of_nil].
  - apply M_bind_ok in E as (x & v1 & E1 & E). apply call_on_ok in E1 as (v2 & E1 & ->).
    apply res_bind_ok in E1 as (v3 & E1 & [= ? ?]). subst v3.
    rewrite (IH _ E p a). cbn beta. rewrite (Remove_get _ _ _ _ p a E1). repeat case_bool_decide; try done; set_solver.
Qed.

(** Once the walked keys are removed the proposal has no vote left. *)
Lemma remove_all_votes proposal l v u v' :
  Votes_Walk v proposal = Ok l -> remove_votes proposal l.*1 v = (Ok u, v') ->
  forall p a, Votes_Get v' p a = if bool_decide (p = proposal) then None else Votes_Get v p a.
Proof.
  intros Hw E p a. rewrite (remove_votes_get _ _ _ _ _ E p a).
  repeat case_bool_decide; try done; [naive_solver|]. subst.
  destruct (Votes_Get v proposal a) as [vote|] eqn:Eg; [|done].
  apply (Walk_elem _ _ _ _ _ Hw) in Eg.
  exfalso. select (~ _) (fun H => apply H). split; [done|].
  apply list_elem_of_fmap. by exists (a, vote).
Qed.

Lemma empty_results o : o <> OptionEmpty -> emptyCommunityTallyResults !! o = Some 0.
Proof. by destruct o. Qed.

(** *** From the fork on *)
Definition voter_is_validator vals kv : bool :=
  match StringToBytes (Voter kv.2) ≫= ValBytesToString with
  | Ok a => bool_decide (is_Some (vals !! a))
  | _ => false
  end.

(** The cap on one account: 25/1000 of the bonded tokens. *)
Definition voter_cap (bonded : Z) : Z :=
  Z.quot (bonded * Precision * communityVoterPowerCapNumerator) communityVoterPowerCapDenominator.

(** The power of an account through its delegations to listed validators. *)
Definition delegated_power (k : K) vals kv : Z :=
  match (voter ← StringToBytes (Voter kv.2); ds ← IterateDelegations k voter;
         foldRes (add_delegation vals) LegacyZeroDec ds) with
  | Ok w => w
  | _ => 0
  end.

Definition community_power (k : K) vals (cap : Z) kv : Z :=
  if voter_is_validator vals kv then 0
  else capCommunityVoterPower (delegated_power k vals kv) cap.

Lemma voter_cap_eq bonded : 40 * voter_cap bonded = bonded * Precision.
Proof.
  unfold voter_cap, communityVoterPowerCapNumerator, communityVoterPowerCapDenominator.
  replace (bonded * Precision * 25) with (bonded * (Precision / 40) * 1000)
    by (change (Precision / 40) with 25000000000000000; unfold Precision; lia).
  rewrite Z.quot_mul by done. change (Precision / 40) with 25000000000000000.
  unfold Precision. lia.
Qed.

Lemma community_power_capped k vals bonded kv :
  0 < bonded -> 40 * community_power k vals (voter_cap bonded) kv <= bonded * Precision.
Proof.
  intros Hb. pose proof (voter_cap_eq bonded). unfold community_power, capCommunityVoterPower.
  assert (voter_cap bonded <> 0) by (unfold Precision in *; lia).
  case_match; [unfold Precision; lia|].
  destruct (Z.eqb_spec (voter_cap bonded) 0); [done|]. simpl. case_match; zbool; lia.
Qed.

Lemma community_vote_ok k cap t kv t' :
  community_vote k cap t kv = Ok t' ->
  let p := community_power k (validators t) cap kv in
  grown t t' p (fun o => if voter_is_validator (validators t) kv then 0
                         else cast p (Options kv.2) o) /\
  votesToRemove t' = votesToRemove t ++ [kv.1] /\ validators t' = validators t.
Proof.
  destruct kv as [key vote]. unfold community_vote, community_power, voter_is_validator,
    delegated_power. cbn [fst snd]. intros E.
  apply res_bind_ok in E as (voter & Ev & E). apply res_bind_ok in E as (a & Ea & E).
  rewrite Ev. cbn [mbind res_bind]. rewrite Ea.
  destruct (validators t !! a) as [val|] eqn:El.
  - injection E as <-. rewrite bool_decide_eq_true_2 by done. split; [by apply grown_none|done].
  - rewrite bool_decide_eq_false_2 by by intros [? ?].
    apply res_bind_ok in E as (ds & Ed & E). apply res_bind_ok in E as (w & Ew & E).
    apply res_bind_ok in E as (t1 & Et & E). injection E as <-. rewrite Ed. cbn [mbind res_bind].
    rewrite Ew. apply cast_vote_ok in Et as (G & R & Hv).
    split; [by apply grown_mark|]. simpl. by rewrite R, Hv.
Qed.

(** *** DODx stakes *)
Definition staked_power (s : S) kv : Z :=
  match StringToBytes (Voter kv.2) with
  | Ok voter => LegacyNewDecFromInt (sv_GetStakeAmount s voter)
  | _ => 0
  end.

Lemma staked_vote_ok s t kv t' :
  staked_vote s t kv = Ok t' ->
  grown t t' (staked_power s kv) (cast (staked_power s kv) (Options kv.2)) /\
  votesToRemove t' = votesToRemove t ++ [kv.1] /\ validators t' = validators t.
Proof.
  destruct kv as [key vote]. unfold staked_vote, staked_power. cbn [fst snd]. intros E.
  apply res_bind_ok in E as (voter & -> & E). apply res_bind_ok in E as (t1 & Et & E).
  injection E as <-. apply cast_vote_ok in Et as (G & R & Hv).
  split; [by apply grown_mark|]. simpl. by rewrite R, Hv.
Qed.

Lemma concat_keys (l : list (AccAddress * Vote)) : concat (map (fun kv => [kv.1]) l) = l.*1.
Proof. induction l as [|kv l IH]; [done|]. simpl. by rewrite IH. Qed.

(** Votes stored under the address of their voter count distinct stakes. *)
Lemma staked_total s v proposal l :
  sv_ok s -> Votes_Walk v proposal = Ok l ->
  (forall a vote, Votes_Get v proposal a = Some vote -> StringToBytes (Voter vote) = Ok a) ->
  0 <= Zsum (map (staked_power s) l) <= sv_total s * Precision.
Proof.
  intros Hok Hw Hkey. pose proof (Walk_nodup _ _ _ Hw) as Hn.
  assert (Zsum (map (staked_power s) l) = Zsum (map (sv_GetStakeAmount s) l.*1) * Precision
          /\ 0 <= Zsum (map (sv_GetStakeAmount s) l.*1)) as [E Hpos].
  { assert (forall a vote, (a, vote) ∈ l -> StringToBytes (Voter vote) = Ok a) as Hl
      by (intros a vote Hin; apply Hkey; by apply (Walk_elem _ _ _ _ _ Hw)).
    clear Hw Hn. unfold Zsum. induction l as [|[a vote] l IH]; [done|].
    change ((a, vote) :: l).*1 with (a :: l.*1). cbn [map foldr].
    destruct IH as [IH ?]; [intros; apply Hl; by right|]. rewrite IH.
    unfold staked_power at 1. cbn [snd]. rewrite (Hl a vote (list_elem_of_here _ _)).
    unfold LegacyNewDecFromInt. pose proof (sv_nonneg s a Hok). split; [ring|lia]. }
  pose proof (sv_sum s l.*1 Hok Hn). rewrite E. unfold Precision. lia.
Qed.


(** A tally that starts from the empty results. *)
Lemma grown_results t t' p f o :
  results t = emptyCommunityTallyResults -> totalVotingPower t = 0 -> grown t t' p f ->
  totalVotingPower t' = p /\ (o <> OptionEmpty -> results t' !! o = Some (f o)).
Proof.
  intros Hr Ht [Hp Hf]. split; [lia|]. intros Ho. rewrite Hf, Hr, empty_results by done. done.
Qed.

Definition start_tally vals : Tally := mkTally LegacyZeroDec emptyCommunityTallyResults [] vals.

Lemma community_loop k cap vals l t :
  foldRes (community_vote k cap) (start_tally vals) l = Ok t ->
  grown (start_tally vals) t (Zsum (map (community_power k vals cap) l))
    (fun o => Zsum (map (fun kv => if voter_is_validator vals kv then 0
                                   else cast (community_power k vals cap kv) (Options kv.2) o) l)) /\
  votesToRemove t = l.*1.
Proof.
  intros E. rewrite <- (concat_keys l).
  apply (votes_loop _ (fun kv => [kv.1]) (community_power k vals cap)
    (fun kv o => if voter_is_validator vals kv then 0
                 else cast (community_power k vals cap kv) (Options kv.2) o)
    (fun t => validators t = vals)) in E as (G & R & _); [done| |done].
  intros t0 kv t' Hv _ E0. apply community_vote_ok in E0 as (G & R & Hv'). rewrite Hv in *.
  by rewrite Hv'.
Qed.

Lemma staked_loop s vals l t :
  foldRes (staked_vote s) (start_tally vals) l = Ok t ->
  grown (start_tally vals) t (Zsum (map (staked_power s) l))
    (fun o => Zsum (map (fun kv => cast (staked_power s kv) (Options kv.2) o) l)) /\
  votesToRemove t = l.*1.
Proof.
  intros E. rewrite <- (concat_keys l).
  apply (votes_loop _ (fun kv => [kv.1]) (staked_power s)
    (fun kv o => cast (staked_power s kv) (Options kv.2) o) (fun _ => True))
    in E as (G & R & _); [done| |done].
  intros t0 kv t' _ _ E0. by apply staked_vote_ok in E0 as (G & R & Hv').
Qed.

(** The walk that opens each tally reads the votes and changes nothing. *)
Lemma walk_ok (v : V) proposal l v1 :
  (v0 ← get; lift (Votes_Walk v0 proposal)) v = (Ok l, v1) -> Votes_Walk v proposal = Ok l /\ v1 = v.
Proof. intros E. m_inv E. done. Qed.

(** C16: From the fork on, while DODx governance is off, the tally of a
    proposal is the sum over the accounts that are not validators of their
    delegated voting power, each capped at 2.5% of the bonded tokens, split
    over the options by weight; validators' own votes count nothing; the
    votes of the proposal are removed and those of other proposals kept. *)
Theorem community_tally_capped `{MapRange} ctx s k proposal vals v t v' :
  doCommunityGovernanceActive ctx = true -> sv_GovernanceEnabled s = false ->
  DoCommunityTallyFn ctx s k proposal vals v = (Ok t, v') ->
  exists bonded l,
    TotalBondedTokens k = Ok bonded /\ Votes_Walk v proposal = Ok l /\
    totalVotingPower t = Zsum (map (community_power k vals (voter_cap bonded)) l) /\
    (forall o, o <> OptionEmpty -> results t !! o =
       Some (Zsum (map (fun kv => if voter_is_validator vals kv then 0
         else cast (community_power k vals (voter_cap bonded) kv) (Options kv.2) o) l))) /\
    (forall kv, voter_is_validator vals kv = true ->
       community_power k vals (voter_cap bonded) kv = 0) /\
    (0 < bonded -> forall kv,
       40 * community_power k vals (voter_cap bonded) kv <= bonded * Precision) /\
    (forall p a, Votes_Get v' p a = if bool_decide (p = proposal) then None else Votes_Get v p a).
Proof.
  intros Ha He. unfold DoCommunityTallyFn. rewrite Ha, He. cbn [negb]. intros E.
  m_lift E as bonded Eb. m_lift E as m Em. m_lift E as cap Ec.
  apply M_bind_ok in E as (l & v1 & El & E). apply walk_ok in El as [El ->].
  m_lift E as t1 Et. apply M_bind_ok in E as (u & v2 & Er & E). injection E as <- <-.
  math_inv. subst m. rewrite DecQuoInt64_nz in Ec by done. injection Ec as <-.
  apply (community_loop k (voter_cap bonded)) in Et as [G R]. rewrite R in Er.
  exists bonded, l. split; [done|]. split; [done|].
  split; [exact (proj1 (grown_results (start_tally vals) _ _ _ OptionYes eq_refl eq_refl G))|].
  split; [intros o; exact (proj2 (grown_results (start_tally vals) _ _ _ o eq_refl eq_refl G))|].
  split; [intros kv Hkv; unfold community_power; by rewrite Hkv|].
  split; [intros; by apply community_power_capped|]. by eapply remove_all_votes.
Qed.

(** C21: While DODx governance is on, every vote counts the DODx its voter
    has staked, split over the options by weight; if votes are stored under
    the address of their voter, the total voting power is at most the DODx
    recorded as staked; the votes of the proposal are removed and no other. *)
Theorem dodx_tally_within_stake `{MapRange} ctx s k proposal vals v t v' :
  doCommunityGovernanceActive ctx = true -> sv_GovernanceEnabled s = true -> sv_ok s ->
  (forall a vote, Votes_Get v proposal a = Some vote -> StringToBytes (Voter vote) = Ok a) ->
  DoCommunityTallyFn ctx s k proposal vals v = (Ok t, v') ->
  exists l, Votes_Walk v proposal = Ok l /\
    totalVotingPower t = Zsum (map (staked_power s) l) /\
    0 <= totalVotingPower t <= sv_total s * Precision /\
    (forall o, o <> OptionEmpty -> results t !! o =
       Some (Zsum (map (fun kv => cast (staked_power s kv) (Options kv.2) o) l))) /\
    (forall p a, Votes_Get v' p a = if bool_decide (p = proposal) then None else Votes_Get v p a).
Proof.
  intros Ha He Hok Hkey. unfold DoCommunityTallyFn. rewrite Ha, He. cbn [negb].
  unfold dodxStakedTallyFn. intros E.
  apply M_bind_ok in E as (l & v1 & El & E). apply walk_ok in El as [El ->].
  m_lift E as t1 Et. apply M_bind_ok in E as (u & v2 & Er & E). injection E as <- <-.
  apply staked_loop in Et as [G R]. rewrite R in Er. exists l. split; [done|].
  destruct (grown_results (start_tally vals) _ _ _ OptionYes eq_refl eq_refl G) as [Ht _]. rewrite Ht.
  split; [done|]. split; [by eapply staked_total|].
  split; [intros o; exact (proj2 (grown_results (start_tally vals) _ _ _ o eq_refl eq_refl G))|]. by eapply remove_all_votes.
Qed.

(** *** Before the fork: the order in which validators are visited *)

(** What a validator's own vote adds. *)
Definition validator_power (val : ValidatorGovInfo) : Z :=
  if Nat.eqb (length (vi_Vote val)) 0 then 0
  else match (x ← DecSub (DelegatorShares val) (DelegatorDeductions val); shares_power x val) with
       | Ok p => p | _ => 0 end.

Lemma validator_vote_ok t kval t' :
  validator_vote t kval = Ok t' ->
  grown t t' (validator_power kval.2) (cast (validator_power kval.2) (vi_Vote kval.2)) /\
  votesToRemove t' = votesToRemove t /\ validators t' = validators t.
Proof.
  unfold validator_vote, validator_power. case_match eqn:El; intros E.
  - injection E as <-. apply Nat.eqb_eq, nil_length_inv in El. rewrite El.
    split; [|done]. by apply grown_none.
  - apply res_bind_ok in E as (x & -> & E). apply res_bind_ok in E as (p & Hp & E).
    cbn [mbind res_bind]. rewrite Hp. by apply cast_vote_ok.
Qed.

Lemma grown_eq t t1 t2 p f :
  grown t t1 p f -> grown t t2 p f -> votesToRemove t1 = votesToRemove t2 ->
  validators t1 = validators t2 -> t1 = t2.
Proof.
  intros [P1 F1] [P2 F2] R Hv. destruct t1, t2; simpl in *. subst. f_equal.
  apply map_eq. intros o. by rewrite F1, F2.
Qed.

Lemma Zsum_map_perm {A} (f : A -> Z) l l' : l ≡ₚ l' -> Zsum (map f l) = Zsum (map f l').
Proof. intros E. by rewrite E. Qed.

(** Before the fork the tally ranges over a Go map of validators: if
    it returns under two orders of iteration, the voting power, the results,
    the validators' deductions and the votes left in the store are the same. *)
Theorem default_tally_order_independent (R1 R2 : MapRange) k proposal vals v t1 v1 t2 v2 :
  @MapRangeLaws R1 -> @MapRangeLaws R2 ->
  @defaultCommunityTallyFn V K _ _ _ _ R1 k proposal vals v = (Ok t1, v1) ->
  @defaultCommunityTallyFn V K _ _ _ _ R2 k proposal vals v = (Ok t2, v2) ->
  t1 = t2 /\ v1 = v2.
Proof.
  intros L1 L2. unfold defaultCommunityTallyFn. intros E1 E2.
  apply M_bind_ok in E1 as (l & w & El & E1). rewrite (M_bind_run _ _ _ _ _ El) in E2.
  apply walk_ok in El as [El ->].
  m_lift E1 as t Et. rewrite Et in E2. rewrite (M_bind_run _ _ v t v) in E2 by done.
  apply M_bind_ok in E1 as (u & v3 & Er & E1). rewrite (M_bind_run _ _ _ _ _ Er) in E2.
  apply lift_ok in E1 as [E1 ->]. apply lift_ok in E2 as [E2 ->]. split; [|done].
  assert (forall lv t', foldRes validator_vote t lv = Ok t' ->
    grown t t' (Zsum (map (fun kval => validator_power kval.2) lv))
      (fun o => Zsum (map (fun kval => cast (validator_power kval.2) (vi_Vote kval.2) o) lv)) /\
    votesToRemove t' = votesToRemove t ++ concat (map (fun _ => []) lv) /\
    validators t' = validators t) as Hloop.
  { intros lv t' E. eapply (votes_loop _ _ _ _ (fun _ => True)); [|done|done].
    intros t0 kval t0' _ _ E0. apply validator_vote_ok in E0 as (G & R & Hv).
    by rewrite app_nil_r. }
  destruct (Hloop _ _ E1) as (G1 & Q1 & W1). destruct (Hloop _ _ E2) as (G2 & Q2 & W2).
  assert (@map_range R1 _ (validators t) ≡ₚ @map_range R2 _ (validators t)) as Hp
    by by rewrite (@map_range_perm R1 L1), (@map_range_perm R2 L2).
  eapply (grown_eq t); [exact G1| | |congruence].
  - eapply grown_ext; [| |exact G2]; [|intros o]; apply Zsum_map_perm; by symmetry.
  - rewrite Q1, Q2. f_equal.
    assert (forall lv : list (string * ValidatorGovInfo), concat (map (fun _ => @nil AccAddress) lv) = [])
      as Hc by (induction lv; done). by rewrite !Hc.
Qed.
End counting.

(** ** Reference store and an example *)
Definition under (p : Z) (e : (Z * string) * Vote) : option (string * Vote) :=
  if bool_decide (e.1.1 = p) then Some (e.1.2, e.2) else None.

#[export] Instance ref_votes : VotesOps (gmap (Z * string) Vote) := {|
  Votes_Get v p a := v !! (p, a);
  Votes_Walk v p := Ok (omap (under p) (map_to_list v));
  Votes_Remove p a v := Ok (delete (p, a) v);
|}.

Lemma under_elem (l : list ((Z * string) * Vote)) p a vote :
  (a, vote) ∈ omap (under p) l <-> ((p, a), vote) ∈ l.
Proof.
  rewrite list_elem_of_omap. unfold under. split.
  - intros ([[p' a'] vote'] & Hin & E). simpl in E. case_bool_decide; [|done]. by simplify_eq.
  - intros Hin. exists ((p, a), vote). split; [done|]. simpl. by rewrite bool_decide_eq_true_2.
Qed.

#[export] Instance ref_votes_laws : VotesLaws (gmap (Z * string) Vote).
Proof.
  split; cbn.
  - intros v p l a vote [= <-]. by rewrite under_elem, elem_of_map_to_list.
  - intros v p l [= <-]. pose proof (NoDup_fst_map_to_list v) as Hn.
    induction (map_to_list v) as [|[[p' a] vote] l IH]; [constructor|].
    rewrite fmap_cons in Hn. apply list.NoDup_cons in Hn as [Hk Hn].
    cbn [omap list_omap]. unfold under at 1. cbn [fst snd].
    case_bool_decide; [|by apply IH]. rewrite fmap_cons. apply list.NoDup_cons.
    split; [|by apply IH]. subst. intros ([a' vote'] & Ha & Hin)%list_elem_of_fmap. simpl in Ha.
    subst. apply under_elem in Hin. apply Hk, list_elem_of_fmap. by exists ((p, a'), vote').
  - intros p a v v' p' a' [= <-]. case_bool_decide as Hd.
    + destruct Hd as [-> ->]. apply lookup_delete_eq.
    + apply lookup_delete_ne. naive_solver.
Qed.

Module Example.
(** Two validators; alice delegates to both, the first validator votes too,
    bob has staked DODx in the module's example state. *)
#[local] Instance delegations : DelegationOps (list ref_validator) := {|
  IterateDelegations _ a :=
    Ok (if String.eqb a "alice" then [mkDelegationI "val:v1" (30 * Precision);
                                      mkDelegationI "val:v2" (10 * Precision)]
        else if String.eqb a "v1" then [mkDelegationI "val:v1" (50 * Precision)] else []);
|}.
#[local] Instance codec : TallyCodec := {|
  StringToBytes := strip "do1";
  ValBytesToString a := Ok ("val:" +:+ a);
  DecFromStr s := if String.eqb s "1.0" then Some Precision
                  else if String.eqb s "0.5" then Some (Precision / 2) else None;
|}.

Definition staking : list ref_validator :=
  [mkRefValidator "v1" 8 true false; mkRefValidator "v2" 2 true false].

Definition vals : gmap string ValidatorGovInfo :=
  <["val:v1" := mkValidatorGovInfo "v1" 8000000 (80 * Precision) 0 []]>
    (<["val:v2" := mkValidatorGovInfo "v2" 2000000 (20 * Precision) 0 []]> ∅).

Definition votes : gmap (Z * string) Vote :=
  <[(3, "alice") := mkVote "do1alice" [mkWeighted OptionYes "0.5"; mkWeighted OptionNo "0.5"]]>
    (<[(3, "bob") := mkVote "do1bob" [mkWeighted OptionAbstain "1.0"]]>
      (<[(3, "v1") := mkVote "do1v1" [mkWeighted OptionNo "1.0"]]>
        (<[(4, "bob") := mkVote "do1bob" [mkWeighted OptionYes "1.0"]]> ∅))).

Definition at_height (h : Z) : Ctx := mkCtx h 0 "cookie-1" false false.
Definition off : State ledger := (SetGovernanceEnabled false DodxStaking.Example.later).2.
Definition on : State ledger := (SetGovernanceEnabled true DodxStaking.Example.later).2.

Definition community := DoCommunityTallyFn (at_height 1540500) off staking 3 vals votes.
Definition staked := DoCommunityTallyFn (at_height 1540500) on staking 3 vals votes.
Definition default_tally := defaultCommunityTallyFn staking 3 vals votes.

(** A second order of iteration: backwards. *)
Definition backwards : MapRange := fun A m => rev (map_to_list m).
Definition default_backwards :=
  @defaultCommunityTallyFn _ _ _ _ _ _ backwards staking 3 vals votes.

Lemma backwards_laws : @MapRangeLaws backwards.
Proof. intros A m. unfold map_range, backwards. by rewrite <- Permutation_rev. Qed.

Definition the_tally (r : res Tally * gmap (Z * string) Vote) : Tally :=
  match r.1 with Ok t => t | _ => start_tally ∅ end.

Lemma tally_eq r : is_ok r.1 = true -> r = (Ok (the_tally r), r.2).
Proof. destruct r as [[]]; simpl; intros; [done|discriminate..]. Qed.
End Example.

Lemma community_tally_capped_witness :
  totalVotingPower (Example.the_tally Example.community) = 250000 * Precision /\
  (forall a, Votes_Get Example.community.2 3 a = None).
Proof.
  destruct (@community_tally_capped _ _ (State ledger) _ _ Example.delegations _ _ Example.codec
    _ _ _ _ (Example.at_height 1540500) Example.off Example.staking 3 Example.vals Example.votes
    (Example.the_tally Example.community) Example.community.2)
    as (bonded & l & Hb & _ & _ & _ & _ & _ & Hr);
    [reflexivity|reflexivity|apply Example.tally_eq; vm_compute; reflexivity|].
  split; [vm_compute; reflexivity|]. intros a. rewrite Hr. reflexivity.
Defined.

Lemma dodx_tally_within_stake_witness :
  totalVotingPower (Example.the_tally Example.staked) = 12 * Precision /\
  totalVotingPower (Example.the_tally Example.staked)
    <= GetTotalStakedAmount Example.on * Precision.
Proof.
  split; [vm_compute; reflexivity|].
  destruct (@dodx_tally_within_stake _ _ (State ledger) _ _ Example.delegations _ _ Example.codec
    _ _ _ _ (Example.at_height 1540500) Example.on Example.staking 3 Example.vals Example.votes
    (Example.the_tally Example.staked) Example.staked.2) as (l & _ & _ & H & _);
    [reflexivity|reflexivity| | |apply Example.tally_eq; vm_compute; reflexivity|exact (proj2 H)].
  - destruct DodxStaking.Example.later_inv as [I _]. destruct I. split; assumption.
  - intros a vote. unfold Votes_Get, ref_votes, Example.votes.
    rewrite !lookup_insert_Some, lookup_empty. intros H.
    repeat (destruct H as [[E H]|[? H]]; [first [discriminate E|injection E as <-; subst vote; reflexivity]|]).
    discriminate H.
Defined.

Lemma default_tally_order_independent_witness :
  totalVotingPower (Example.the_tally Example.default_tally) = 9000000 * Precision /\
  Example.the_tally Example.default_tally = Example.the_tally Example.default_backwards.
Proof.
  split; [vm_compute; reflexivity|].
  apply (@default_tally_order_independent _ _ _ Example.delegations _ Example.codec _
    ref_range Example.backwards Example.staking 3 Example.vals Example.votes
    (Example.the_tally Example.default_tally) Example.default_tally.2
    (Example.the_tally Example.default_backwards) Example.default_backwards.2);
    [apply ref_range_laws|apply Example.backwards_laws
    |apply Example.tally_eq; vm_compute; reflexivity|apply Example.tally_eq; vm_compute; reflexivity].
Defined.
