(* ===== verification/Dyncomm.v ===== *)
(** * Dynamic commission (src/x/dyncomm)

    The module keeps, per validator, a minimum commission rate that grows
    with its share of the voting power and the rate its operator asked for
    (the target).  At the end of every week the rates of the bonded
    validators are recomputed; a decorator before execution refuses an edit
    below the minimum that is recorded under the text of its address, one
    after execution records the target.  The staking
    keeper is a parameter.  The theorems: the minimum lies between the
    staking module's minimum and the cap, and grows with the voting power;
    after an update every bonded validator charges the larger of its target
    and its minimum; the filter looks through authorisations and interchain
    packets at any depth, and lets an edit with another text of the same
    address pass; what the recording decorator and the genesis
    functions leave out. *)
From stdpp Require Import base gmap sets list strings fin_maps.
From Stdlib Require Import ZArith Lia.
From S2P Require Import Prelude Sdk SdkRef Core.
#[local] Open Scope Z_scope.

(** ** types/params.go, types/genesis.go *)
Record Params : Type := mkParams { MaxZero : Z; SlopeBase : Z; SlopeVpImpact : Z; Cap : Z }.

Definition DefaultParams : Params :=
  mkParams (LegacyNewDecWithPrec 5 1) (LegacyNewDecWithPrec 2 0) (LegacyNewDecWithPrec 10 0)
    (LegacyNewDecWithPrec 2 1).

Definition Params_Validate (p : Params) : res unit :=
  if SlopeBase p <? 0 then Err (Plain "slope base must be positive or zero")
  else if negb (0 <? SlopeVpImpact p) then Err (Plain "solpe vp impact should be positive")
  else if Cap p <? 0 then Err (Plain "cap shall be 0 or positive")
  else if LegacyOneDec <? Cap p then Err (Plain "cap shall be less than 1.0")
  else if MaxZero p <? 0 then Err (Plain "max zero shall be 0 or positive")
  else if LegacyOneDec <? MaxZero p then Err (Plain "max zero shall be less than 1.0")
  else Ok tt.

Definition validateMaxZero (v : Z) : res unit :=
  if v <? 0 then Err (Plain "max zero shall be 0 or positive")
  else if LegacyOneDec <? v then Err (Plain "max zero shall be less than 1.0")
  else Ok tt.
Definition validateSlopeBase (v : Z) : res unit :=
  if v <? 0 then Err (Plain "slope base must be positive or Zero") else Ok tt.
Definition validateSlopeVpImpact (v : Z) : res unit :=
  if negb (0 <? v) then Err (Plain "slope vp impact must be positive") else Ok tt.
Definition validateCap (v : Z) : res unit :=
  if v <? 0 then Err (Plain "cap shall be 0 or positive")
  else if LegacyOneDec <? v then Err (Plain "cap shall be less than 1.0")
  else Ok tt.

Definition ParamSetPairs (p : Params) : list (res unit) :=
  [validateMaxZero (MaxZero p); validateSlopeBase (SlopeBase p);
   validateSlopeVpImpact (SlopeVpImpact p); validateCap (Cap p)].

Record ValidatorCommissionRate : Type := mkRate {
  ValidatorAddress : string; MinCommissionRate : Z; TargetCommissionRate : Z;
}.
Record GenesisState : Type := mkGenesisState {
  GenParams : Params; ValidatorCommissionRates : list ValidatorCommissionRate;
}.

Definition NewGenesisState (params : Params) (rates : list ValidatorCommissionRate) : GenesisState :=
  mkGenesisState params rates.
Definition DefaultGenesisState : GenesisState := mkGenesisState DefaultParams [].

(** ** types/expected_keepers.go: the staking validators the code reads and
    writes back, and the keeper's operations.  Errors of [IterateValidators]
    and [SetValidator] are never looked at. *)
Record Commission : Type := mkCommission {
  Rate : Z; MaxRate : Z; MaxChangeRate : Z; UpdateTime : Z;
}.
Record SValidator : Type := mkSValidator {
  OperatorAddress : string; Tokens : Z; Bonded : bool; v_Commission : Commission;
}.

Class CommissionKeeper (K : Type) : Type := {
  sk_MinCommissionRate : K -> res Z;
  sk_GetLastTotalPower : K -> res Z;
  sk_PowerReduction : K -> Z;
  sk_IterateValidators : K -> list SValidator;
  sk_SetValidator : SValidator -> K -> K;
}.

(** Writing a validator replaces the one of the same operator and nothing
    else; an operator has one validator. *)
Class CommissionKeeperLaws (K : Type) `{CommissionKeeper K} : Prop := {
  sk_nodup k : NoDup (map OperatorAddress (sk_IterateValidators k));
  sk_set v k : OperatorAddress v ∈ map OperatorAddress (sk_IterateValidators k) ->
    sk_IterateValidators (sk_SetValidator v k) =
      map (fun w => if String.eqb (OperatorAddress w) (OperatorAddress v) then v else w)
        (sk_IterateValidators k);
  sk_set_min v k : sk_MinCommissionRate (sk_SetValidator v k) = sk_MinCommissionRate k;
  sk_set_power v k : sk_GetLastTotalPower (sk_SetValidator v k) = sk_GetLastTotalPower k;
  sk_set_reduction v k : sk_PowerReduction (sk_SetValidator v k) = sk_PowerReduction k;
}.

(** The messages the decorators look at.  An authorisation unpacks into
    messages or fails; the data of a packet is no interchain account data, or
    of another type, or a transaction that decodes or not. *)
Inductive Msg : Type :=
| MsgEditValidator (validator : string) (commissionRate : option Z)
| MsgCreateValidator (validator : string) (rate : Z)
| MsgExec (unpacked : option (list Msg))
| MsgRecvPacket (data : PacketData)
| MsgOther
with PacketData : Type :=
| NotInterchain
| InterchainOther
| InterchainTx (decoded : option (list Msg)).

Record State (K : Type) : Type := mkState {
  st_params : option Params;
  st_rates : gmap string ValidatorCommissionRate;
  st_staking : K;
}.
Arguments mkState {K}.
Arguments st_params {K}.
Arguments st_rates {K}.
Arguments st_staking {K}.

Section ops.
Context {K : Type} `{CommissionKeeper K} `{MathOps}.
Implicit Types s : State K.

(** ** keeper/params.go *)
Definition get_param {A} (f : Params -> A) s : res A :=
  match st_params s with Some p => Ok (f p) | None => Panic end.
Definition GetMaxZero s : res Z := get_param MaxZero s.
Definition GetSlopeBase s : res Z := get_param SlopeBase s.
Definition GetSlopeVpImpact s : res Z := get_param SlopeVpImpact s.
Definition GetCap s : res Z := get_param Cap s.
Definition GetParams s : res Params := get_param id s.
Definition SetParams (p : Params) : M (State K) unit := fun s =>
  if forallb is_ok (ParamSetPairs p)
  then (Ok tt, mkState (Some p) (st_rates s) (st_staking s))
  else (Panic, s).

(** ** keeper/dyncomm.go *)

(** [Int64] of an [Int] panics when the value does not fit. *)
Definition Int64 (z : Z) : res Z := if bool_decide (is_i64 z) then Ok z else Panic.

(** [sdk.TokensToConsensusPower] *)
Definition TokensToConsensusPower (tokens reduction : Z) : res Z :=
  q ← IntQuo tokens reduction; Int64 q.

Definition CalculateVotingPower s (v : SValidator) : res Z :=
  match sk_GetLastTotalPower (st_staking s) with
  | Ok totalPower =>
      validatorPower ← TokensToConsensusPower (Tokens v) (sk_PowerReduction (st_staking s));
      total ← Int64 totalPower;
      q ← DecQuoInt64 (LegacyNewDec validatorPower) total;
      DecMulInt64 q 100
  | Err _ => Ok LegacyZeroDec
  | Panic => Panic
  end.

Definition CalculateDynCommission s (v : SValidator) : res Z :=
  A ← GetMaxZero s;
  B ← GetSlopeBase s;
  C ← GetSlopeVpImpact s;
  cap ← GetCap s;
  D ← DecMulInt64 cap 100;
  x ← CalculateVotingPower s v;
  factorA ← DecSub x A;
  quotient ← DecQuo x C;
  factorB ← DecAdd quotient B;
  match sk_MinCommissionRate (st_staking s) with
  | Ok minComm =>
      minComm ← DecMulInt64 minComm 100;
      y ← DecMul factorA factorB;
      let y := if D <? y then D else y in
      let y := if y <? minComm then minComm else y in
      DecQuoInt64 y 100
  | Err _ => Ok LegacyZeroDec
  | Panic => Panic
  end.

Definition SetDynCommissionRate (validator : string) (rate : Z) : M (State K) unit :=
  modify (fun s =>
    let targetRate := match st_rates s !! validator with
                      | Some r => TargetCommissionRate r | None => LegacyZeroDec end in
    mkState (st_params s) (<[validator := mkRate validator rate targetRate]> (st_rates s))
      (st_staking s)).

Definition SetTargetCommissionRate (validator : string) (rate : Z) : M (State K) unit :=
  modify (fun s =>
    let minRate := match st_rates s !! validator with
                   | Some r => MinCommissionRate r | None => LegacyZeroDec end in
    mkState (st_params s) (<[validator := mkRate validator minRate rate]> (st_rates s))
      (st_staking s)).

Definition GetDynCommissionRate s (validator : string) : Z :=
  match st_rates s !! validator with Some r => MinCommissionRate r | None => LegacyZeroDec end.

Definition GetTargetCommissionRate s (validator : string) : Z :=
  match st_rates s !! validator with Some r => TargetCommissionRate r | None => LegacyZeroDec end.

(** The callback threads an accumulator and answers [true] to stop. *)
Fixpoint iterate_rates {A} (cb : ValidatorCommissionRate -> A -> A * bool)
    (l : list (string * ValidatorCommissionRate)) (a : A) : A :=
  match l with
  | [] => a
  | (_, entry) :: l => let '(a', stop) := cb entry a in
                       if stop : bool then a' else iterate_rates cb l a'
  end.
Definition IterateDynCommissionRates {A} (cb : ValidatorCommissionRate -> A -> A * bool) s (a : A)
    : A := iterate_rates cb (kv_iter (st_rates s)) a.

Definition set_validator (v : SValidator) : M (State K) unit :=
  modify (fun s => mkState (st_params s) (st_rates s) (sk_SetValidator v (st_staking s))).

Definition UpdateValidatorMinRates (v : SValidator) : M (State K) unit :=
  s ← get;
  minRate ← lift (CalculateDynCommission s v);
  let newMaxRate := MaxRate (v_Commission v) in
  let targetRate := GetTargetCommissionRate s (OperatorAddress v) in
  let newRate := if targetRate <? minRate then minRate else targetRate in
  let newMaxRate := if newMaxRate <? minRate then minRate else newMaxRate in
  set_validator (mkSValidator (OperatorAddress v) (Tokens v) (Bonded v)
    (mkCommission newRate newMaxRate (MaxChangeRate (v_Commission v)) (UpdateTime (v_Commission v)))) ;;
  SetDynCommissionRate (OperatorAddress v) minRate.

Definition update_bonded (v : SValidator) : M (State K) unit :=
  if negb (Bonded v) then mret tt else UpdateValidatorMinRates v.

(** The validators visited are those stored when the iteration starts. *)
Definition UpdateAllBondedValidatorRates : M (State K) unit :=
  s ← get; forM update_bonded (sk_IterateValidators (st_staking s)).

(** ** abci.go, genesis.go, keeper/querier.go *)
Definition EndBlocker (ctx : Ctx) : M (State K) unit :=
  last ← lift (IsPeriodLastBlock ctx BlocksPerWeek);
  if negb last then mret tt else UpdateAllBondedValidatorRates.

Definition InitGenesis (data : GenesisState) : M (State K) unit :=
  SetParams (GenParams data) ;;
  s ← get;
  forM (fun v => SetTargetCommissionRate (OperatorAddress v) (Rate (v_Commission v)))
    (sk_IterateValidators (st_staking s)) ;;
  UpdateAllBondedValidatorRates.

Definition ExportGenesis s : res GenesisState :=
  params ← GetParams s;
  let rates := IterateDynCommissionRates (fun rate rates => (rates ++ [rate], false)) s [] in
  Ok (NewGenesisState params rates).

Definition QueryParams s : res Params := GetParams s.
Definition QueryRate s (addr : string) : Z * Z :=
  (GetDynCommissionRate s addr, GetTargetCommissionRate s addr).

(** ** ante/ante.go *)
Definition ProcessEditValidator_ante s (operator : string) (commissionRate : option Z) : res unit :=
  match commissionRate with
  | None => Ok tt
  | Some newIntendedRate =>
      if newIntendedRate <? GetDynCommissionRate s operator
      then Err (Plain "commission must be at least the minimum") else Ok tt
  end.

(** The variable [err] of the loop: what the last message left in it.  A
    packet that is not interchain account data leaves its decoding error
    there and goes on to the next message. *)
Definition unauthorized (e : res unit) : res unit :=
  match e with Err _ => Err (SdkError "ErrUnauthorized") | r => r end.

Section filter_loop.
Variable process : res unit -> Msg -> res unit * bool.
Fixpoint filter_loop (err : res unit) (msgs : list Msg) : res unit :=
  match msgs with
  | [] => Ok tt
  | m :: msgs =>
      let '(err', skip) := process err m in
      if skip : bool then filter_loop err' msgs
      else match err' with Ok _ => filter_loop err' msgs | _ => unauthorized err' end
  end.
End filter_loop.

Fixpoint filter_msg (s : State K) (err : res unit) (msg : Msg) {struct msg} : res unit * bool :=
  match msg with
  | MsgEditValidator operator rate => (ProcessEditValidator_ante s operator rate, false)
  | MsgExec (Some messages) => (filter_loop (filter_msg s) (Ok tt) messages, false)
  | MsgExec None => (err, false)
  | MsgRecvPacket NotInterchain => (Err (Foreign "json"), true)
  | MsgRecvPacket InterchainOther => (Ok tt, true)
  | MsgRecvPacket (InterchainTx (Some messages)) =>
      (filter_loop (filter_msg s) (Ok tt) messages, false)
  | MsgRecvPacket (InterchainTx None) => (Ok tt, false)
  | MsgCreateValidator _ _ | MsgOther => (err, true)
  end.

Definition filter_msgs (s : State K) : res unit -> list Msg -> res unit := filter_loop (filter_msg s).

Definition FilterMsgsAndProcessMsgs_ante s (msgs : list Msg) : res unit := filter_msgs s (Ok tt) msgs.

Definition DyncommDecorator_AnteHandle (next : M (State K) unit) (msgs : list Msg)
    : M (State K) unit :=
  s ← get; lift (FilterMsgsAndProcessMsgs_ante s msgs) ;; next.

(** ** post/post.go *)
Definition ProcessEditValidator_post (validator : string) (commissionRate : option Z)
    : M (State K) unit :=
  match commissionRate with
  | None => mret tt
  | Some newIntendedRate => SetTargetCommissionRate validator newIntendedRate
  end.

Definition ProcessCreateValidator (validator : string) (rate : Z) : M (State K) unit :=
  SetTargetCommissionRate validator rate.

Definition post_msg (msg : Msg) : M (State K) unit :=
  match msg with
  | MsgEditValidator validator rate => ProcessEditValidator_post validator rate
  | MsgCreateValidator validator rate => ProcessCreateValidator validator rate
  | _ => mret tt
  end.

Definition FilterMsgsAndProcessMsgs_post (msgs : list Msg) : M (State K) unit := forM post_msg msgs.

Definition DyncommDecorator_PostHandle (ctx : Ctx) (simulate : bool) (next : M (State K) unit)
    (msgs : list Msg) : M (State K) unit :=
  if simulate then next
  else if IsCheckTx ctx then next
  else FilterMsgsAndProcessMsgs_post msgs ;; next.
End ops.

(** ** The minimum rate *)
Section rates.
Context {K : Type} `{CommissionKeeper K} `{MathOps} `{!MathLaws}.
Implicit Types s : State K.

Lemma Int64_ok z r : Int64 z = Ok r -> r = z /\ is_i64 z.
Proof. unfold Int64. case_bool_decide; intros; by simplify_eq. Qed.

(** The computation, step by step, when it succeeds. *)
Lemma CalculateDynCommission_ok s v p m r :
  st_params s = Some p -> sk_MinCommissionRate (st_staking s) = Ok m ->
  CalculateDynCommission s v = Ok r ->
  exists x q y, CalculateVotingPower s v = Ok x /\ DecQuo x (SlopeVpImpact p) = Ok q /\
    DecMul (x - MaxZero p) (q + SlopeBase p) = Ok y /\
    r = Z.quot (Z.max (m * 100) (Z.min y (Cap p * 100))) 100.
Proof.
  unfold CalculateDynCommission, GetMaxZero, GetSlopeBase, GetSlopeVpImpact, GetCap, get_param.
  intros -> Hm E. rewrite Hm in E. cbn [mbind res_bind] in E.
  apply res_bind_ok in E as (D & ED & E). apply res_bind_ok in E as (x & Ex & E).
  apply res_bind_ok in E as (fa & Ea & E). apply res_bind_ok in E as (q & Eq & E).
  apply res_bind_ok in E as (fb & Eb & E). apply res_bind_ok in E as (mc & Emc & E).
  apply res_bind_ok in E as (y & Ey & E). math_inv. subst.
  rewrite DecQuoInt64_nz in E by done. injection E as <-.
  exists x, q, y. split; [done|]. split; [done|]. split; [done|]. f_equal.
  destruct (Z.ltb_spec (Cap p * 100) y);
    [destruct (Z.ltb_spec (Cap p * 100) (m * 100))|destruct (Z.ltb_spec y (m * 100))]; lia.
Qed.

(** The minimum commission of a validator is at least the staking
    module's minimum and at most the cap (or that minimum, if it is larger);
    it is the staking module's minimum for a validator whose share of the
    voting power is at most the threshold [MaxZero]. *)
Theorem dyn_commission_bounds s v p m r :
  st_params s = Some p -> Params_Validate p = Ok tt ->
  sk_MinCommissionRate (st_staking s) = Ok m -> 0 <= m ->
  CalculateDynCommission s v = Ok r ->
  m <= r <= Z.max m (Cap p) /\
  (forall x, CalculateVotingPower s v = Ok x -> 0 <= x <= MaxZero p -> r = m).
Proof.
  intros Hp Hv Hm Hm0 E. destruct (CalculateDynCommission_ok _ _ _ _ _ Hp Hm E)
    as (x & q & y & Ex & Eq & Ey & ->). unfold Params_Validate in Hv. res_inv Hv. zbool.
  rewrite Z.quot_div_nonneg by lia. split.
  - split; [apply Z.div_le_lower_bound; lia|].
    apply Z.lt_succ_r, Z.div_lt_upper_bound; lia.
  - intros x' Ex' Hx. rewrite Ex in Ex'. injection Ex' as <-.
    assert (0 <= q) by (apply DecQuo_inv in Eq; unfold Precision in *; nia).
    assert (y <= 0) by (apply DecMul_inv in Ey; unfold Precision in *; nia).
    rewrite Z.max_l by lia. by rewrite Z.div_mul.
Qed.

(** *** Monotonicity *)
Lemma DecMul_mono a b a' b' c c' :
  DecMul a b = Ok c -> DecMul a' b' = Ok c' -> a * b < a' * b' -> c <= c'.
Proof. intros E%DecMul_inv E'%DecMul_inv Hlt. unfold Precision in *. lia. Qed.

Lemma DecQuo_mono x x' d q q' :
  0 < d -> 2 * d < Precision * Precision -> x < x' ->
  DecQuo x d = Ok q -> DecQuo x' d = Ok q' -> q <= q'.
Proof.
  intros Hd Hs Hlt E%DecQuo_inv E'%DecQuo_inv.
  rewrite (Z.abs_eq d) in * by lia.
  assert (2 * Precision * (q * d - x * Precision) <= (Precision + 2) * d) by (unfold Precision in *; lia).
  assert (- ((Precision + 2) * d) <= 2 * Precision * (q' * d - x' * Precision))
    by (unfold Precision in *; lia).
  assert (0 < Precision) by reflexivity.
  destruct (Z.le_gt_cases q q') as [|Hgt]; [done|]. exfalso.
  assert (Precision * d <= Precision * (q * d - q' * d)) by nia.
  assert (Precision * (q * d - q' * d) <= (Precision + 2) * d + Precision * (x - x') * Precision) by lia.
  assert (Precision * (x - x') * Precision <= - (Precision * Precision)) by nia. lia.
Qed.

Lemma CalculateVotingPower_mono s v w x x' :
  0 < sk_PowerReduction (st_staking s) ->
  (forall t, sk_GetLastTotalPower (st_staking s) = Ok t -> 0 < t) ->
  0 <= Tokens v <= Tokens w ->
  CalculateVotingPower s v = Ok x -> CalculateVotingPower s w = Ok x' -> 0 <= x <= x'.
Proof.
  unfold CalculateVotingPower, TokensToConsensusPower. intros Hr Ht Hle.
  destruct (sk_GetLastTotalPower _) as [t| |] eqn:E; [|intros [= <-] [= <-]; done|done].
  specialize (Ht t eq_refl). intros E1 E2.
  apply res_bind_ok in E1 as (p & Ep & E1). apply res_bind_ok in E2 as (p' & Ep' & E2).
  apply res_bind_ok in E1 as (t1 & [-> _]%Int64_ok & E1).
  apply res_bind_ok in E2 as (t2 & [-> _]%Int64_ok & E2).
  rewrite IntQuo_nz in Ep, Ep' by lia. cbn [mbind res_bind] in Ep, Ep'.
  apply Int64_ok in Ep as [-> _]. apply Int64_ok in Ep' as [-> _].
  rewrite DecQuoInt64_nz in E1, E2 by lia. cbn [mbind res_bind] in E1, E2. math_inv. subst.
  unfold LegacyNewDec. assert (0 < Precision) by reflexivity.
  rewrite !(Z.quot_div_nonneg (Tokens _)) by lia.
  assert (0 <= Tokens v / sk_PowerReduction (st_staking s) <= Tokens w / sk_PowerReduction (st_staking s))
    by (split; [apply Z.div_pos|apply Z.div_le_mono]; lia).
  rewrite !Z.quot_div_nonneg by nia.
  assert (0 <= Tokens v / sk_PowerReduction (st_staking s) * Precision / t
    <= Tokens w / sk_PowerReduction (st_staking s) * Precision / t)
    by (split; [apply Z.div_pos|apply Z.div_le_mono]; nia).
  lia.
Qed.

(** The minimum commission grows with the stake: of two validators in
    the same state, the one with more tokens has a minimum rate at least as
    high. *)
Theorem dyn_commission_monotone s v w p m r r' :
  st_params s = Some p -> Params_Validate p = Ok tt -> 2 * SlopeVpImpact p < Precision * Precision ->
  sk_MinCommissionRate (st_staking s) = Ok m -> 0 <= m ->
  0 < sk_PowerReduction (st_staking s) ->
  (forall t, sk_GetLastTotalPower (st_staking s) = Ok t -> 0 < t) ->
  0 <= Tokens v <= Tokens w ->
  CalculateDynCommission s v = Ok r -> CalculateDynCommission s w = Ok r' -> r <= r'.
Proof.
  intros Hp Hv Hsm Hm Hm0 Hr Ht Hle E E'.
  destruct (CalculateDynCommission_ok _ _ _ _ _ Hp Hm E) as (x & q & y & Ex & Eq & Ey & ->).
  destruct (CalculateDynCommission_ok _ _ _ _ _ Hp Hm E') as (x' & q' & y' & Ex' & Eq' & Ey' & ->).
  pose proof (CalculateVotingPower_mono s v w x x' Hr Ht Hle Ex Ex') as Hx.
  unfold Params_Validate in Hv. res_inv Hv. zbool.
  apply Z.quot_le_mono; [lia|].
  enough (y <= y' \/ y <= 0) by lia.
  destruct (Z.eq_dec x x') as [<-|Hne].
  { rewrite Eq in Eq'. injection Eq' as <-. rewrite Ey in Ey'. injection Ey' as <-. lia. }
  assert (q <= q') by (eapply (DecQuo_mono x x'); [| | |exact Eq|exact Eq']; lia).
  assert (0 <= q) by (apply DecQuo_inv in Eq; unfold Precision in *; nia).
  destruct (Z.le_gt_cases x (MaxZero p)).
  { right. apply DecMul_inv in Ey. unfold Precision in *. nia. }
  left. destruct (Z.eq_dec (q' + SlopeBase p) 0).
  { assert (q + SlopeBase p = 0) as Hq by lia. rewrite Hq in Ey.
    apply DecMul_inv in Ey, Ey'. unfold Precision in *. nia. }
  eapply DecMul_mono; [exact Ey|exact Ey'|]. nia.
Qed.
End rates.

(** ** The weekly update *)
Section update.
Context {K : Type} `{CommissionKeeper K} `{!CommissionKeeperLaws K} `{MathOps} `{!MathLaws}.
Implicit Types s : State K.
Implicit Types v w : SValidator.

(** What a minimum rate depends on. *)
Definition same_env s s' : Prop :=
  st_params s' = st_params s /\
  sk_MinCommissionRate (st_staking s') = sk_MinCommissionRate (st_staking s) /\
  sk_GetLastTotalPower (st_staking s') = sk_GetLastTotalPower (st_staking s) /\
  sk_PowerReduction (st_staking s') = sk_PowerReduction (st_staking s) /\
  (forall a, GetTargetCommissionRate s' a = GetTargetCommissionRate s a).

Lemma same_env_refl s : same_env s s.
Proof. by split_and!. Qed.

Lemma same_env_trans s1 s2 s3 : same_env s1 s2 -> same_env s2 s3 -> same_env s1 s3.
Proof.
  intros (? & ? & ? & ? & Ht) (? & ? & ? & ? & Ht'). split_and!; congruence.
Qed.

Lemma Calculate_env s s' v : same_env s s' -> CalculateDynCommission s' v = CalculateDynCommission s v.
Proof.
  intros (E1 & E2 & E3 & E4 & _).
  unfold CalculateDynCommission, CalculateVotingPower, GetMaxZero, GetSlopeBase, GetSlopeVpImpact,
    GetCap, get_param. by rewrite E1, E2, E3, E4.
Qed.

(** The minimum rate of a validator, and the validator charging it. *)
Definition min_rate s v : Z := match CalculateDynCommission s v with Ok m => m | _ => 0 end.

Definition charged s v : SValidator :=
  mkSValidator (OperatorAddress v) (Tokens v) (Bonded v)
    (mkCommission (Z.max (GetTargetCommissionRate s (OperatorAddress v)) (min_rate s v))
       (Z.max (MaxRate (v_Commission v)) (min_rate s v))
       (MaxChangeRate (v_Commission v)) (UpdateTime (v_Commission v))).

Lemma charged_env s s' v : same_env s s' -> charged s' v = charged s v.
Proof.
  intros E. unfold charged, min_rate. rewrite (Calculate_env s s') by done.
  destruct E as (_ & _ & _ & _ & ->). done.
Qed.

Lemma UpdateValidatorMinRates_ok v s u s' :
  UpdateValidatorMinRates v s = (Ok u, s') ->
  same_env s s' /\ CalculateDynCommission s v = Ok (min_rate s v) /\
  st_staking s' = sk_SetValidator (charged s v) (st_staking s) /\
  (forall a, GetDynCommissionRate s' a =
     if String.eqb a (OperatorAddress v) then min_rate s v else GetDynCommissionRate s a).
Proof.
  unfold UpdateValidatorMinRates. intros E. apply M_bind_ok in E as (x & s0 & [= <- <-] & E).
  m_lift E as m Em. unfold set_validator, SetDynCommissionRate in E. m_inv E.
  unfold same_env, charged, min_rate. rewrite Em. split_and!; cbn [st_params st_rates st_staking].
  - done.
  - apply sk_set_min.
  - apply sk_set_power.
  - apply sk_set_reduction.
  - intros a. unfold GetTargetCommissionRate. cbn [st_rates].
    destruct (String.eqb_spec a (OperatorAddress v)) as [->|];
      [by rewrite lookup_insert_eq|by rewrite lookup_insert_ne].
  - done.
  - f_equal. f_equal. f_equal;
      [destruct (Z.ltb_spec (GetTargetCommissionRate s (OperatorAddress v)) m)
      |destruct (Z.ltb_spec (MaxRate (v_Commission v)) m)]; lia.
  - intros a. unfold GetDynCommissionRate. cbn [st_rates].
    destruct (String.eqb_spec a (OperatorAddress v)) as [->|];
      [by rewrite lookup_insert_eq|by rewrite lookup_insert_ne].
Qed.

Definition listed (l : list SValidator) (a : string) : bool :=
  existsb (fun v => String.eqb a (OperatorAddress v) && Bonded v) l.

Definition charge s (l : list SValidator) w : SValidator :=
  if listed l (OperatorAddress w) then charged s w else w.

Lemma listed_false l a : a ∉ map OperatorAddress l -> listed l a = false.
Proof.
  induction l as [|v l IH]; [done|]. cbn [map]. intros [Ha Hl]%not_elem_of_cons. simpl.
  rewrite IH, (proj2 (String.eqb_neq _ _)) by done. done.
Qed.

Lemma same_operator l v w : NoDup (map OperatorAddress l) -> v ∈ l -> w ∈ l ->
  OperatorAddress v = OperatorAddress w -> v = w.
Proof.
  intros Hn Hv Hw E. apply list_elem_of_lookup in Hv as [i Hi], Hw as [j Hj].
  assert (i = j) as ->; [|congruence]. eapply (NoDup_lookup (map OperatorAddress l)); [done| |].
  - change (map OperatorAddress l) with (OperatorAddress <$> l). by rewrite list_lookup_fmap, Hi.
  - change (map OperatorAddress l) with (OperatorAddress <$> l). rewrite list_lookup_fmap, Hj.
    simpl. by rewrite E.
Qed.

Lemma operators_set v k : OperatorAddress v ∈ map OperatorAddress (sk_IterateValidators k) ->
  map OperatorAddress (sk_IterateValidators (sk_SetValidator v k))
    = map OperatorAddress (sk_IterateValidators k).
Proof.
  intros Hv. rewrite sk_set by done. rewrite map_map. apply map_ext. intros w.
  destruct (String.eqb_spec (OperatorAddress w) (OperatorAddress v)); congruence.
Qed.

Lemma charge_unlisted s l w : OperatorAddress w ∉ map OperatorAddress l -> charge s l w = w.
Proof. intros Hw. unfold charge. by rewrite listed_false. Qed.

Lemma charge_env s s' l w : same_env s s' -> charge s' l w = charge s l w.
Proof. intros E. unfold charge. by rewrite (charged_env s s'). Qed.

(** One bonded validator written back: the rest of the list is still there,
    and charging it afterwards is charging the whole list before. *)
Lemma update_one v l s u s' :
  Bonded v = true -> NoDup (map OperatorAddress (v :: l)) ->
  (forall w, w ∈ v :: l -> w ∈ sk_IterateValidators (st_staking s)) ->
  UpdateValidatorMinRates v s = (Ok u, s') ->
  (forall w, w ∈ l -> w ∈ sk_IterateValidators (st_staking s')) /\
  map (charge s' l) (sk_IterateValidators (st_staking s'))
    = map (charge s (v :: l)) (sk_IterateValidators (st_staking s)).
Proof.
  intros Hb [Hv Hn]%list.NoDup_cons Hin (Henv & _ & Hst & _)%UpdateValidatorMinRates_ok.
  assert (v ∈ sk_IterateValidators (st_staking s)) as Hvin by (apply Hin; left).
  rewrite Hst, sk_set by (by apply (list_elem_of_fmap_2 OperatorAddress _ v)). split.
  - intros w Hw. apply list_elem_of_fmap. exists w. split; [|by apply Hin; right].
    simpl. rewrite (proj2 (String.eqb_neq _ _)); [done|]. intros E. apply Hv. rewrite <- E.
    by apply list_elem_of_fmap_2.
  - rewrite map_map. apply map_ext_in. intros w Hw%list_elem_of_In. cbn [OperatorAddress charged].
    rewrite (charge_env s s') by done.
    destruct (String.eqb_spec (OperatorAddress w) (OperatorAddress v)) as [E|E].
    + assert (w = v) as -> by (eapply same_operator; [apply sk_nodup|done..]).
      rewrite charge_unlisted by done. unfold charge, listed. simpl.
      by rewrite String.eqb_refl, Hb.
    + unfold charge, listed. simpl. by rewrite (proj2 (String.eqb_neq _ _)) by done.
Qed.

Lemma map_unchanged {A} (f : A -> A) l : (forall x, x ∈ l -> f x = x) -> map f l = l.
Proof.
  intros Hf. induction l as [|x l IH]; [done|]. simpl. rewrite Hf by left.
  f_equal. apply IH. intros; apply Hf; by right.
Qed.

Lemma update_loop l s u s' :
  NoDup (map OperatorAddress l) -> (forall v, v ∈ l -> v ∈ sk_IterateValidators (st_staking s)) ->
  forM update_bonded l s = (Ok u, s') ->
  same_env s s' /\
  sk_IterateValidators (st_staking s') = map (charge s l) (sk_IterateValidators (st_staking s)) /\
  (forall v, v ∈ l -> Bonded v = true ->
     CalculateDynCommission s v = Ok (min_rate s v) /\
     GetDynCommissionRate s' (OperatorAddress v) = min_rate s v) /\
  (forall a, listed l a = false -> GetDynCommissionRate s' a = GetDynCommissionRate s a).
Proof.
  revert s. induction l as [|v l IH]; intros s Hn Hin E.
  { injection E as _ <-. split; [apply same_env_refl|]. split; [|split; [by intros v ?%elem_of_nil|done]].
    symmetry. by apply map_unchanged. }
  cbn [forM] in E. apply M_bind_ok in E as (x & s1 & Ev & E). unfold update_bonded in Ev.
  pose proof Hn as [Hv Hn']%list.NoDup_cons. destruct (Bonded v) eqn:Hb; cbn [negb] in Ev.
  - destruct (update_one v l s x s1 Hb Hn Hin Ev) as [Hin1 Hmap].
    apply UpdateValidatorMinRates_ok in Ev as (Henv & Hc & _ & Hd).
    destruct (IH s1 Hn' Hin1 E) as (Henv1 & Hit & Hbd & Hnl).
    split; [by eapply same_env_trans|]. split; [congruence|]. split.
    + intros w [->|Hw]%elem_of_cons Hwb.
      * split; [done|]. rewrite Hnl by (by apply listed_false). by rewrite Hd, String.eqb_refl.
      * destruct (Hbd w Hw Hwb) as [E1 E2]. unfold min_rate in *.
        rewrite (Calculate_env s s1) in E1, E2 by done. done.
    + intros a Ha. unfold listed in Ha. simpl in Ha. apply orb_false_iff in Ha as [Ha Hl].
      rewrite Hnl by done. rewrite Hd. rewrite Hb, andb_true_r in Ha. by rewrite Ha.
  - injection Ev as _ <-. destruct (IH s Hn' ltac:(intros; apply Hin; by right) E)
      as (Henv1 & Hit & Hbd & Hnl). split; [done|]. split.
    + rewrite Hit. apply map_ext. intros w. unfold charge, listed. simpl. by rewrite Hb, andb_false_r.
    + split; [intros w [->|Hw]%elem_of_cons Hwb; [congruence|by apply Hbd]|].
      intros a Ha. apply Hnl. unfold listed in *. simpl in Ha. by rewrite Hb, andb_false_r in Ha.
Qed.

(** C24: After the weekly update every bonded validator has its minimum rate
    recomputed from the state before it and charges the larger of that and
    its target, with a maximum rate that is not below the minimum; targets,
    parameters and validators that are not bonded are unchanged. *)
Theorem rates_after_update s u s' :
  UpdateAllBondedValidatorRates s = (Ok u, s') ->
  (forall v, v ∈ sk_IterateValidators (st_staking s) ->
     exists w, w ∈ sk_IterateValidators (st_staking s') /\
       OperatorAddress w = OperatorAddress v /\ Tokens w = Tokens v /\ Bonded w = Bonded v /\
       (Bonded v = false -> w = v) /\
       (Bonded v = true ->
          let m := GetDynCommissionRate s' (OperatorAddress v) in
          CalculateDynCommission s v = Ok m /\
          Rate (v_Commission w) = Z.max (GetTargetCommissionRate s (OperatorAddress v)) m /\
          MaxRate (v_Commission w) = Z.max (MaxRate (v_Commission v)) m)) /\
  (forall a, GetTargetCommissionRate s' a = GetTargetCommissionRate s a) /\
  st_params s' = st_params s.
Proof.
  unfold UpdateAllBondedValidatorRates. intros E. apply M_bind_ok in E as (x & s0 & [= <- <-] & E).
  set (l := sk_IterateValidators (st_staking s)) in *. pose proof (sk_nodup (st_staking s)) as Hn.
  destruct (update_loop l s u s' Hn ltac:(done) E) as ((Hp & _ & _ & _ & Ht) & Hit & Hbd & _).
  split; [|done]. intros v Hv. exists (charge s l v).
  split; [rewrite Hit; by apply list_elem_of_fmap_2|]. unfold charge.
  destruct (listed l (OperatorAddress v)) eqn:Hl.
  - unfold listed in Hl. apply existsb_exists in Hl as (w & Hw & Hwl).
    apply list_elem_of_In in Hw. zbool.
    assert (v = w) as <- by (eapply same_operator; [exact Hn|done..]).
    destruct (Hbd v Hv) as [Hc Hd]; [done|]. cbn. rewrite Hd. split_and!; try done; congruence.
  - split_and!; try done. intros Hb. exfalso. revert Hl. unfold listed.
    apply not_false_iff_true, existsb_exists. exists v. split; [by apply list_elem_of_In|].
    by rewrite String.eqb_refl.
Qed.
End update.

(** ** The decorators *)
Section decorators.
Context {K : Type} `{CommissionKeeper K} `{!CommissionKeeperLaws K} `{MathOps} `{!MathLaws}.
Implicit Types s : State K.
Implicit Types m : Msg.

(** An edit of a commission rate, at any depth of authorisations and
    interchain account packets. *)
Inductive contains_edit : Msg -> string -> Z -> Prop :=
| ce_edit op r : contains_edit (MsgEditValidator op (Some r)) op r
| ce_exec l m op r : m ∈ l -> contains_edit m op r -> contains_edit (MsgExec (Some l)) op r
| ce_packet l m op r : m ∈ l -> contains_edit m op r ->
    contains_edit (MsgRecvPacket (InterchainTx (Some l))) op r.

Lemma filter_exec s err l :
  filter_msg s err (MsgExec (Some l)) = (filter_msgs s (Ok tt) l, false).
Proof. done. Qed.

Lemma filter_packet s err l :
  filter_msg s err (MsgRecvPacket (InterchainTx (Some l))) = (filter_msgs s (Ok tt) l, false).
Proof. rewrite <- (filter_exec s err). done. Qed.

(** A list that passes has given each of its messages its turn. *)
Lemma filter_each s err l m : filter_msgs s err l = Ok tt -> m ∈ l ->
  exists e, (filter_msg s e m).2 = true \/ (filter_msg s e m).1 = Ok tt.
Proof.
  revert err. induction l as [|m' l IH]; intros err E Hm; [by apply elem_of_nil in Hm|].
  cbn [filter_msgs filter_loop] in E. fold (filter_msgs s) in E.
  destruct (filter_msg s err m') as [e skip] eqn:Em.
  apply elem_of_cons in Hm as [->|Hm].
  - exists err. rewrite Em. destruct skip; [by left|right]. destruct e as [[]| |]; simpl in *; done.
  - destruct skip; [by eapply IH|]. destruct e; [by eapply IH|done|done].
Qed.

Lemma filter_edit s m op r : contains_edit m op r -> forall err,
  (filter_msg s err m).2 = false /\
  ((filter_msg s err m).1 = Ok tt -> GetDynCommissionRate s op <= r).
Proof.
  induction 1 as [op r|l m op r Hm _ IH|l m op r Hm _ IH]; intros err.
  - split; [done|]. simpl. case_match; [done|]. zbool. done.
  - rewrite filter_exec. split; [done|]. simpl. intros E.
    destruct (filter_each _ _ _ _ E Hm) as (e & [Hskip|Hok]); destruct (IH e); [congruence|auto].
  - rewrite filter_packet. split; [done|]. simpl. intros E.
    destruct (filter_each _ _ _ _ E Hm) as (e & [Hskip|Hok]); destruct (IH e); [congruence|auto].
Qed.

(** Induction over messages with the messages inside them. *)
Lemma dyn_msg_ind (P : Msg -> Prop) :
  (forall op r, P (MsgEditValidator op r)) -> (forall op r, P (MsgCreateValidator op r)) ->
  (forall l, Forall P l -> P (MsgExec (Some l))) -> P (MsgExec None) ->
  (forall l, Forall P l -> P (MsgRecvPacket (InterchainTx (Some l)))) ->
  P (MsgRecvPacket (InterchainTx None)) -> P (MsgRecvPacket NotInterchain) ->
  P (MsgRecvPacket InterchainOther) -> P MsgOther -> forall m, P m.
Proof.
  intros Hedit Hcreate Hexec Hbad Htx Hbadtx Hnot Hother Hrest. fix IH 1.
  intros [op r|op r|[l|]|[| |[l|]]|];
    [apply Hedit|apply Hcreate| |exact Hbad|exact Hnot|exact Hother| |exact Hbadtx|exact Hrest].
  - apply Hexec. induction l as [|m l IHl]; constructor; [apply IH|apply IHl].
  - apply Htx. induction l as [|m l IHl]; constructor; [apply IH|apply IHl].
Qed.

Lemma filter_msgs_no_panic s l :
  Forall (fun m => forall err, err <> Panic -> (filter_msg s err m).1 <> Panic) l ->
  forall err, err <> Panic ->
  filter_msgs s err l = Ok tt \/ filter_msgs s err l = Err (SdkError "ErrUnauthorized").
Proof.
  induction 1 as [|m l Hm _ IH]; intros err Herr; [by left|]. cbn [filter_msgs filter_loop].
  specialize (Hm err Herr). destruct (filter_msg s err m) as [e []]; simpl in Hm; [by apply IH|].
  destruct e; [by apply IH|by right|done].
Qed.

Lemma filter_msg_no_panic s m : forall err, err <> Panic -> (filter_msg s err m).1 <> Panic.
Proof.
  induction m using dyn_msg_ind; intros err Herr; rewrite ?filter_exec, ?filter_packet; try done;
    simpl; try (destruct (filter_msgs_no_panic s l ltac:(done) (Ok tt) ltac:(done)) as [-> | ->]; done).
  unfold ProcessEditValidator_ante. by repeat case_match.
Qed.

Lemma filter_result s l :
  FilterMsgsAndProcessMsgs_ante s l = Ok tt \/
  FilterMsgsAndProcessMsgs_ante s l = Err (SdkError "ErrUnauthorized").
Proof.
  apply filter_msgs_no_panic; [|done]. apply Forall_forall. intros m _. apply filter_msg_no_panic.
Qed.

(** C22: The decorator lets a transaction through only if every edit of a
    commission rate in it that it can read, however deeply nested in
    authorisations or interchain account packets, is at least the minimum
    recorded under the very text of the address in the edit; a transaction
    with a lower one is refused as unauthorised, the rest of the chain does
    not run and the state is unchanged.  It has two gaps.  Rates are recorded
    under the text of the validator's own record, and under any other text of
    the same address, such as the one in capitals, the minimum is zero: an
    edit with that text passes at any rate.  And authorisations and packets
    whose messages cannot be decoded are passed over. *)
Theorem edits_respect_minimum (next : M (State K) unit) s :
  (forall msgs m op r, m ∈ msgs -> contains_edit m op r ->
    (forall u s', DyncommDecorator_AnteHandle next msgs s = (Ok u, s') ->
       GetDynCommissionRate s op <= r) /\
    (r < GetDynCommissionRate s op ->
       DyncommDecorator_AnteHandle next msgs s = (Err (SdkError "ErrUnauthorized"), s))) /\
  (forall op r, st_rates s !! op = None -> 0 <= r ->
    DyncommDecorator_AnteHandle next [MsgEditValidator op (Some r)] s = next s) /\
  (forall m, m ∈ [MsgExec None; MsgRecvPacket NotInterchain; MsgRecvPacket InterchainOther;
                  MsgRecvPacket (InterchainTx None)] ->
    DyncommDecorator_AnteHandle next [m] s = next s).
Proof.
  unfold DyncommDecorator_AnteHandle. split; [|split].
  - intros msgs m op r Hm Hc. rewrite !(M_bind_run get _ s s s) by done.
    assert (FilterMsgsAndProcessMsgs_ante s msgs = Ok tt -> GetDynCommissionRate s op <= r) as Hs.
    { intros E. destruct (filter_each _ _ _ _ E Hm) as (e & [Hskip|Hok]);
        destruct (filter_edit s m op r Hc e); [congruence|auto]. }
    split.
    + intros u s' E. m_lift E as x Ex. destruct x. by apply Hs.
    + intros Hlt. destruct (filter_result s msgs) as [E|E]; [specialize (Hs E); lia|].
      by rewrite (M_bind_err _ _ s (SdkError "ErrUnauthorized") s) by (unfold lift; by rewrite E).
  - intros op r Hop Hr. rewrite !(M_bind_run get _ s s s) by done. rewrite (M_bind_run _ _ s tt s); [done|].
    unfold lift, FilterMsgsAndProcessMsgs_ante, filter_msgs. cbn [filter_loop filter_msg].
    unfold ProcessEditValidator_ante, GetDynCommissionRate. rewrite Hop. unfold LegacyZeroDec.
    by rewrite (proj2 (Z.ltb_ge _ _)).
  - intros m Hm. rewrite !(M_bind_run get _ s s s) by done. rewrite (M_bind_run _ _ s tt s); [done|].
    repeat (apply elem_of_cons in Hm as [->|Hm]; [done|]). by apply not_elem_of_nil in Hm.
Qed.

(** What a validator charges after the next update depends on how its
    edit was sent: an edit sent directly becomes the target, one inside an
    authorisation changes the rate when it executes but is not recorded, so
    that the update goes back to the old target (or the minimum). *)
Theorem nested_edit_forgotten ctx s v r :
  IsCheckTx ctx = false -> v ∈ sk_IterateValidators (st_staking s) -> Bonded v = true ->
  let edit := MsgEditValidator (OperatorAddress v) (Some r) in
  let after msgs s1 u s2 :=
    DyncommDecorator_PostHandle ctx false (mret tt) msgs s = (Ok tt, s1) /\
    UpdateAllBondedValidatorRates s1 = (Ok u, s2) in
  (forall s1 u s2, after [edit] s1 u s2 ->
     exists w, w ∈ sk_IterateValidators (st_staking s2) /\ OperatorAddress w = OperatorAddress v /\
       Rate (v_Commission w) = Z.max r (GetDynCommissionRate s2 (OperatorAddress v))) /\
  (forall s1 u s2, after [MsgExec (Some [edit])] s1 u s2 ->
     exists w, w ∈ sk_IterateValidators (st_staking s2) /\ OperatorAddress w = OperatorAddress v /\
       Rate (v_Commission w) = Z.max (GetTargetCommissionRate s (OperatorAddress v))
                                 (GetDynCommissionRate s2 (OperatorAddress v))).
Proof.
  intros Hc Hv Hb edit after. unfold after, DyncommDecorator_PostHandle. rewrite Hc.
  split; intros s1 u s2 [Hp Hu]; apply rates_after_update in Hu as (Hall & Ht & _).
  - cbn in Hp. unfold SetTargetCommissionRate in Hp. m_inv Hp.
    destruct (Hall v Hv) as (w & Hw & Ho & _ & _ & _ & Hbd). destruct (Hbd Hb) as (_ & HR & _).
    exists w. split; [done|]. split; [done|]. rewrite HR. unfold GetTargetCommissionRate. cbn [st_rates].
    by rewrite lookup_insert_eq.
  - cbn in Hp. m_inv Hp.
    destruct (Hall v Hv) as (w & Hw & Ho & _ & _ & _ & Hbd). destruct (Hbd Hb) as (_ & HR & _).
    by exists w.
Qed.

(** *** Genesis *)
Lemma set_targets l s u s' :
  NoDup (map OperatorAddress l) ->
  forM (fun v => SetTargetCommissionRate (OperatorAddress v) (Rate (v_Commission v))) l s = (Ok u, s') ->
  st_staking s' = st_staking s /\ st_params s' = st_params s /\
  (forall a, a ∉ map OperatorAddress l -> GetTargetCommissionRate s' a = GetTargetCommissionRate s a) /\
  (forall v, v ∈ l -> GetTargetCommissionRate s' (OperatorAddress v) = Rate (v_Commission v)).
Proof.
  revert s. induction l as [|v l IH]; intros s Hn E.
  { injection E as _ <-. split_and!; try done. by intros v ?%elem_of_nil. }
  cbn [forM] in E. apply M_bind_ok in E as (x & s1 & Ev & E). unfold SetTargetCommissionRate in Ev.
  unfold modify in Ev. injection Ev as _ <-. apply list.NoDup_cons in Hn as [Hv Hn].
  apply (IH _ Hn) in E as (E1 & E2 & E3 & E4). split_and!; [done|done| |].
  - intros a [Ha Hl]%not_elem_of_cons. rewrite E3 by done. unfold GetTargetCommissionRate.
    cbn [st_rates]. by rewrite lookup_insert_ne.
  - intros w [->|Hw]%elem_of_cons; [|by apply E4]. rewrite E3 by done.
    unfold GetTargetCommissionRate. cbn [st_rates]. by rewrite lookup_insert_eq.
Qed.

(** Importing an exported genesis keeps the parameters and forgets the
    targets: the exported rates are ignored, and every validator's target
    becomes the rate it was charging.  A validator whose target was below its
    minimum keeps charging the minimum of the export when its minimum falls. *)
Theorem import_forgets_targets s g s0 u s1 :
  ExportGenesis s = Ok g -> st_staking s0 = st_staking s -> InitGenesis g s0 = (Ok u, s1) ->
  st_params s1 = st_params s /\
  (forall a r, st_rates s !! a = Some r -> r ∈ ValidatorCommissionRates g) /\
  (forall v, v ∈ sk_IterateValidators (st_staking s) ->
     GetTargetCommissionRate s1 (OperatorAddress v) = Rate (v_Commission v)).
Proof.
  unfold ExportGenesis, GetParams, get_param, InitGenesis. intros Eg Hst E.
  destruct (st_params s) as [p|] eqn:Hp; [|done]. cbn [mbind res_bind] in Eg. injection Eg as <-.
  apply M_bind_ok in E as (x & s2 & Es & E). unfold SetParams in Es. case_match; [|done].
  injection Es as _ <-. apply M_bind_ok in E as (y & s3 & [= <- <-] & E).
  apply M_bind_ok in E as (z & s4 & Et & E). cbn [st_staking] in Et. rewrite Hst in Et.
  apply set_targets in Et as (Hs4 & Hp4 & _ & Ht); [|apply sk_nodup].
  apply rates_after_update in E as (_ & Htt & Hpp). split_and!.
  - rewrite Hpp, Hp4. done.
  - intros a r Hr. cbn. unfold IterateDynCommissionRates.
    apply elem_of_kv_iter in Hr. revert Hr. generalize (kv_iter (st_rates s)).
    assert (forall l acc, (forall r, r ∈ acc -> r ∈ iterate_rates
      (fun rate rates => (rates ++ [rate], false)) l acc) /\
      ((a, r) ∈ l -> r ∈ iterate_rates (fun rate rates => (rates ++ [rate], false)) l acc)) as Hl.
    { induction l as [|[a' r'] l IH]; intros acc; simpl; [split; [done|by intros ?%elem_of_nil]|].
      destruct (IH (acc ++ [r'])) as [IH1 IH2]. split; [intros; apply IH1; set_solver|].
      intros [[= <- <-]|Hin]%elem_of_cons; [apply IH1; set_solver|by apply IH2]. }
    intros l Hin. by apply Hl.
  - intros v Hv. rewrite Htt. by apply Ht.
Qed.
End decorators.

(** ** A reference keeper and an example *)
Record ref_set : Type := mkRefSet { rs_vals : list SValidator; rs_min : Z; rs_power : Z }.

Definition same_op (v w : SValidator) : bool := String.eqb (OperatorAddress w) (OperatorAddress v).

Fixpoint firsts (l : list SValidator) : list SValidator :=
  match l with
  | [] => []
  | v :: l => v :: List.filter (fun w => negb (same_op v w)) (firsts l)
  end.

Definition replace_op (v w : SValidator) : SValidator := if same_op v w then v else w.

#[export] Instance ref_commission : CommissionKeeper ref_set := {|
  sk_MinCommissionRate k := Ok (rs_min k);
  sk_GetLastTotalPower k := Ok (rs_power k);
  sk_PowerReduction _ := 1000000;
  sk_IterateValidators k := firsts (rs_vals k);
  sk_SetValidator v k := mkRefSet (map (replace_op v) (rs_vals k)) (rs_min k) (rs_power k);
|}.

Lemma firsts_nodup l : NoDup (map OperatorAddress (firsts l)).
Proof.
  induction l as [|v l IH]; [constructor|]. cbn [firsts map]. apply list.NoDup_cons. split.
  - intros (w & Hw & Hin)%list_elem_of_fmap. apply list_elem_of_In, filter_In in Hin as [_ Hne].
    unfold same_op in Hne. by rewrite Hw, String.eqb_refl in Hne.
  - eapply sublist_NoDup; [exact IH|].
    change (map OperatorAddress) with (fmap (M:=list) OperatorAddress). apply fmap_sublist.
    clear IH. induction (firsts l) as [|w k IHk]; [constructor|]. simpl.
    destruct (negb (same_op v w)); [by apply sublist_skip|by apply sublist_cons].
Qed.

Lemma firsts_replace v l : firsts (map (replace_op v) l) = map (replace_op v) (firsts l).
Proof.
  assert (forall w, OperatorAddress (replace_op v w) = OperatorAddress w) as Hop.
  { intros w. unfold replace_op, same_op. destruct (String.eqb_spec (OperatorAddress w) (OperatorAddress v)); congruence. }
  induction l as [|w l IH]; [done|]. cbn [map firsts]. rewrite IH. f_equal.
  clear IH. induction (firsts l) as [|x k IHk]; [done|]. simpl.
  assert (same_op (replace_op v w) (replace_op v x) = same_op w x) as -> by (unfold same_op; by rewrite !Hop).
  destruct (same_op w x); simpl; by rewrite IHk.
Qed.

#[export] Instance ref_commission_laws : CommissionKeeperLaws ref_set.
Proof.
  split; cbn; try done.
  - intros k. apply firsts_nodup.
  - intros v k _. apply firsts_replace.
Qed.

Module Example.
Definition big : SValidator := mkSValidator "big" 30000000 true (mkCommission (5 * 10 ^ 16) (10 ^ 17) 0 0).
Definition small : SValidator := mkSValidator "small" 1000000 true (mkCommission (6 * 10 ^ 16) (10 ^ 17) 0 0).
Definition idle : SValidator := mkSValidator "idle" 5000000 false (mkCommission (10 ^ 16) (10 ^ 17) 0 0).

(** 5% is the minimum of the staking module; [big] holds 10% of the power. *)
Definition start : State ref_set :=
  mkState (Some DefaultParams)
    (<["big" := mkRate "big" 0 (5 * 10 ^ 16)]> (<["small" := mkRate "small" 0 (6 * 10 ^ 16)]> ∅))
    (mkRefSet [big; small; idle] (5 * 10 ^ 16) 300).

Definition updated : State ref_set := (UpdateAllBondedValidatorRates start).2.
Definition block : Ctx := mkCtx 7 0 "cookie-1" false false.
Definition edit : Msg := MsgEditValidator "small" (Some (9 * 10 ^ 16)).
Definition nested_then : State ref_set :=
  (DyncommDecorator_PostHandle block false (mret tt) [MsgExec (Some [edit])] start).2.
End Example.

(** With 10% of the power the formula gives (10 - 0.5) * (10/10 + 2) = 28.5
    percent, above the cap of 20. *)
Lemma dyn_commission_bounds_witness :
  CalculateDynCommission Example.start Example.big = Ok (2 * 10 ^ 17) /\
  2 * 10 ^ 17 <= Z.max (5 * 10 ^ 16) (Cap DefaultParams).
Proof.
  assert (CalculateDynCommission Example.start Example.big = Ok (2 * 10 ^ 17)) as E
    by (vm_compute; reflexivity).
  split; [exact E|].
  destruct (dyn_commission_bounds Example.start Example.big DefaultParams (5 * 10 ^ 16) (2 * 10 ^ 17))
    as [H _]; [reflexivity|vm_compute; reflexivity|reflexivity|lia|exact E|exact (proj2 H)].
Defined.

Lemma dyn_commission_monotone_witness :
  CalculateDynCommission Example.start Example.small = Ok (5 * 10 ^ 16) /\ 5 * 10 ^ 16 <= 2 * 10 ^ 17.
Proof.
  assert (CalculateDynCommission Example.start Example.small = Ok (5 * 10 ^ 16)) as E
    by (vm_compute; reflexivity).
  split; [exact E|].
  apply (dyn_commission_monotone Example.start Example.small Example.big DefaultParams (5 * 10 ^ 16));
    [reflexivity|vm_compute; reflexivity|reflexivity|reflexivity|lia|reflexivity
    |intros t [= <-]; reflexivity|vm_compute; split; congruence|exact E|vm_compute; reflexivity].
Defined.

Lemma rates_after_update_witness :
  GetDynCommissionRate Example.updated "big" = 2 * 10 ^ 17 /\
  exists w, w ∈ sk_IterateValidators (st_staking Example.updated) /\ OperatorAddress w = "big" /\
    Rate (v_Commission w) = Z.max (5 * 10 ^ 16) (GetDynCommissionRate Example.updated "big").
Proof.
  split; [vm_compute; reflexivity|].
  destruct (rates_after_update Example.start tt Example.updated) as [H _];
    [unfold Example.updated; apply run_eq; vm_compute; reflexivity|].
  destruct (H Example.big (list_elem_of_here _ _)) as (w & Hw & Ho & _ & _ & _ & Hb).
  destruct (Hb eq_refl) as (_ & HR & _). exists w. split; [exact Hw|]. split; [exact Ho|exact HR].
Defined.

Lemma edits_respect_minimum_witness :
  let low := MsgExec (Some [MsgRecvPacket (InterchainTx (Some [MsgEditValidator "big" (Some 1)]))]) in
  DyncommDecorator_AnteHandle (mret tt) [MsgOther; low] Example.updated
    = (Err (SdkError "ErrUnauthorized"), Example.updated) /\
  DyncommDecorator_AnteHandle (mret tt) [MsgEditValidator "BIG" (Some 1)] Example.updated = (Ok tt, Example.updated).
Proof.
  intros low.
  destruct (edits_respect_minimum (mret tt) Example.updated) as (H & Hgap & _). split.
  - destruct (H [MsgOther; low] low "big" 1) as [_ Hl];
      [right; left|eapply ce_exec; [left|]; eapply ce_packet; [left|]; apply ce_edit|].
    apply Hl. vm_compute. reflexivity.
  - apply (Hgap "BIG" 1); [vm_compute; reflexivity|lia].
Defined.

Lemma nested_edit_forgotten_witness :
  exists w, w ∈ sk_IterateValidators (st_staking (UpdateAllBondedValidatorRates Example.nested_then).2) /\
    OperatorAddress w = "small" /\ Rate (v_Commission w) = 6 * 10 ^ 16.
Proof.
  destruct (nested_edit_forgotten Example.block Example.start Example.small (9 * 10 ^ 16)) as [_ H];
    [reflexivity|right; left|reflexivity|].
  destruct (H Example.nested_then tt (UpdateAllBondedValidatorRates Example.nested_then).2)
    as (w & Hw & Ho & HR).
  - split; [unfold Example.nested_then; apply run_eq; reflexivity|].
    apply run_eq. vm_compute. reflexivity.
  - exists w. split; [exact Hw|]. split; [exact Ho|]. rewrite HR. vm_compute. reflexivity.
Defined.

Lemma import_forgets_targets_witness :
  GetTargetCommissionRate Example.updated "big" = 5 * 10 ^ 16 /\
  exists g s1, ExportGenesis Example.updated = Ok g /\ InitGenesis g Example.updated = (Ok tt, s1) /\
    GetTargetCommissionRate s1 "big" = 2 * 10 ^ 17.
Proof.
  split; [vm_compute; reflexivity|].
  destruct (ExportGenesis Example.updated) as [g| |] eqn:E;
    [|vm_compute in E; discriminate|vm_compute in E; discriminate].
  assert (InitGenesis g Example.updated = (Ok tt, (InitGenesis g Example.updated).2)) as Ei
    by (apply run_eq; vm_compute in E; injection E as <-; vm_compute; reflexivity).
  exists g, (InitGenesis g Example.updated).2. split; [reflexivity|]. split; [exact Ei|].
  destruct (import_forgets_targets Example.updated g Example.updated tt
    (InitGenesis g Example.updated).2 E eq_refl Ei) as (_ & _ & H).
  apply (H (mkSValidator "big" 30000000 true (mkCommission (2 * 10 ^ 17) (2 * 10 ^ 17) 0 0))).
  vm_compute. left.
Defined.
