(* ===== verification/Ante.v ===== *)
(** * The ante handler (src/custom/auth/ante)

    Every transaction passes a chain of decorators before it executes.  This
    file models the decorators of the application's own: the memo limit that
    knows approval memos, the limits on free oracle transactions, the limits
    on IBC transfers, the minimum initial deposit of proposals and the fees,
    and the chain that [NewAnteHandler] builds around them with the
    decorators of other packages as parameters.  The keepers are behind the
    interface [AnteEnv]; the oracle and the treasury of this library implement
    their parts of it.  The theorems: free oracle transactions are limited to
    one prevote and one vote per validator text and height, over any sequence
    of checked transactions; who pays which fee; proposals need their deposit
    (unless nested); a transaction refused by a check before the fee pays
    nothing. *)
From stdpp Require Import base gmap sets list strings fin_maps.
From Stdlib Require Import ZArith Lia.
From S2P Require Import Mempool OracleState Treasury Prelude Sdk SdkRef Core.
#[local] Open Scope Z_scope.

(** ** Messages, transactions and contexts as the decorators see them *)
Inductive Msg : Type :=
| MsgAggregateDoRatePrevote (Feeder Validator : string)
| MsgAggregateDoRateVote (Feeder Validator : string)
| MsgTransfer (Memo Receiver : string)
| MsgSubmitProposalV1beta1 (InitialDeposit : list Coin)
| MsgSubmitProposalV1 (InitialDeposit : list Coin)
| MsgExec (Msgs : list Msg)
| OtherMsg (typeURL : string).

(** Whether a transaction implements the interfaces [FeeTx], [TxWithMemo] and
    [SigVerifiableTx], with what their methods answer. *)
Record Tx : Type := mkTx {
  is_FeeTx : bool; is_TxWithMemo : bool; is_SigVerifiableTx : bool;
  GetMsgs : list Msg;
  GetMemo : string;
  GetFee : list Coin;
  GetGas : Z;
  FeePayer : AccAddress;
  FeeGranter : option AccAddress;
  GetSigners : res (list AccAddress);
}.

Record Actx : Type := mkActx { a_ctx : Ctx; MinGasPrices : list DecCoin; Priority : Z }.

(** The keepers the decorators call, over their joint state [O]. *)
Class AnteEnv (O : Type) : Type := {
  ValidateFeeder : O -> AccAddress -> ValAddress -> res unit;
  GetMinInitialDepositRatio : O -> res Z;
  GovMinDeposit : O -> res (list Coin);
  MaxMemoCharacters : O -> Z;
  HasAccount : O -> AccAddress -> bool;
  FeeCollectorAddress : option AccAddress;
  FeegrantEnabled : bool;
  UseGrantedFees : AccAddress -> AccAddress -> list Coin -> list Msg -> O -> res O;
}.

(** [Coins.IsAnyGTE] and [Coins.IsAllGTE] *)
Class CoinCmpOps : Type := {
  IsAnyGTE : list Coin -> list Coin -> bool;
  IsAllGTE : list Coin -> list Coin -> bool;
}.
Class CoinCmpLaws `{CoinOps} `{CoinCmpOps} : Prop := {
  IsAnyGTE_spec x y : IsAnyGTE x y = true <->
    exists c, c ∈ x /\ AmountOf y (Denom c) <> 0 /\ AmountOf y (Denom c) <= Amount c;
  AmountOf_found cs d : AmountOf cs d <> 0 ->
    exists c, c ∈ cs /\ Denom c = d /\ Amount c = AmountOf cs d;
  IsAllGTE_spec x y : CoinsIsValid x = true -> CoinsIsValid y = true ->
    IsAllGTE x y = true <-> forall d, AmountOf y d <= AmountOf x d;
}.

(** The keys of a JSON object, or an error. *)
Class MemoJson : Type := { UnmarshalKeys : string -> option (list string) }.

Definition FeeCollectorName : string := "fee_collector".
Definition maxMFAMemoCharacters : Z := 4096.
Definition MaxOracleGasLimit : Z := 1000000.
Definition DefaultMaxMemoLength : Z := 1024.
Definition DefaultMaxReceiverLength : Z := 128.
Definition ErrReceiverTooLong : error := Registered "ibcspamprevention" 11.
Definition ErrMemoTooLong : error := Registered "ibcspamprevention" 12.

(** The bank, the other keepers, and the two maps the spamming decorator
    shares between transactions. *)
Record State (B O : Type) : Type := mkState {
  st_bank : B;
  st_env : O;
  oraclePrevoteMap : gmap string Z;
  oracleVoteMap : gmap string Z;
}.
Arguments mkState {B O}.
Arguments st_bank {B O}.
Arguments st_env {B O}.
Arguments oraclePrevoteMap {B O}.
Arguments oracleVoteMap {B O}.

(** The view of a message that [helper.IsOracleTx] takes. *)
Definition as_mempool_msg (m : Msg) : Mempool.Msg :=
  match m with
  | MsgAggregateDoRatePrevote _ _ => Mempool.MsgAggregateDoRatePrevote
  | MsgAggregateDoRateVote _ _ => Mempool.MsgAggregateDoRateVote
  | _ => Mempool.OtherMsg ""
  end.
Definition IsOracleTx (msgs : list Msg) : bool := Mempool.IsOracleTx (map as_mempool_msg msgs).

Section ops.
Context {B O : Type} `{BankOps B} `{AnteEnv O} `{MathOps} `{CoinOps} `{CoinCmpOps} `{AddrCodec}
  `{MemoJson}.

Definition Handler : Type := Actx -> Tx -> bool -> M (State B O) Actx.
Definition Decorator : Type := Actx -> Tx -> bool -> Handler -> M (State B O) Actx.

(** ** mfa_memo.go *)
Definition isAllowedMFAMemo (memo : string) (memoLength : Z) : bool :=
  if maxMFAMemoCharacters <? memoLength then false
  else match UnmarshalKeys memo with
       | None => false
       | Some keys => existsb (String.eqb "dochain_mfa") keys
       end.

Definition MFAMemoAwareValidateMemoDecorator : Decorator := fun ctx tx simulate next =>
  if negb (is_TxWithMemo tx) then throw (SdkError "ErrTxDecode")
  else
    let memo := GetMemo tx in
    let memoLength := Z.of_nat (String.length memo) in
    s ← get;
    if (0 <? memoLength) && (MaxMemoCharacters (st_env s) <? memoLength) &&
       negb (isAllowedMFAMemo memo memoLength)
    then throw (SdkError "ErrMemoTooLarge")
    else next ctx tx simulate.

(** ** spamming_prevention.go *)
Definition containsOracleMsg (msgs : list Msg) : bool :=
  existsb (fun m => match m with
                    | MsgAggregateDoRatePrevote _ _ | MsgAggregateDoRateVote _ _ => true
                    | _ => false end) msgs.

Definition set_prevote (validator : string) (h : Z) : M (State B O) unit := modify (fun s =>
  mkState (st_bank s) (st_env s) (<[validator := h]> (oraclePrevoteMap s)) (oracleVoteMap s)).
Definition set_vote (validator : string) (h : Z) : M (State B O) unit := modify (fun s =>
  mkState (st_bank s) (st_env s) (oraclePrevoteMap s) (<[validator := h]> (oracleVoteMap s))).

Definition check_feeder (feeder validator : string) : M (State B O) unit :=
  feederAddr ← lift (AccAddressFromBech32 feeder);
  valAddr ← lift (ValAddressFromBech32 validator);
  s ← get;
  lift (ValidateFeeder (st_env s) feederAddr valAddr).

(** The loop ends at the first message that is not the oracle's. *)
Fixpoint CheckOracleSpamming (ctx : Actx) (msgs : list Msg) : M (State B O) unit :=
  let curHeight := BlockHeight (a_ctx ctx) in
  match msgs with
  | [] => mret tt
  | MsgAggregateDoRatePrevote feeder validator :: msgs =>
      check_feeder feeder validator ;;
      s ← get;
      if bool_decide (oraclePrevoteMap s !! validator = Some curHeight)
      then throw (SdkError "ErrInvalidRequest")
      else set_prevote validator curHeight ;; CheckOracleSpamming ctx msgs
  | MsgAggregateDoRateVote feeder validator :: msgs =>
      check_feeder feeder validator ;;
      s ← get;
      if bool_decide (oracleVoteMap s !! validator = Some curHeight)
      then throw (SdkError "ErrInvalidRequest")
      else set_vote validator curHeight ;; CheckOracleSpamming ctx msgs
  | _ :: _ => mret tt
  end.

Definition check_oracle_gas (tx : Tx) : res unit :=
  if containsOracleMsg (GetMsgs tx) then
    if negb (is_FeeTx tx) then Err (SdkError "ErrTxDecode")
    else if MaxOracleGasLimit <? GetGas tx then Err (SdkError "ErrInvalidGasLimit")
    else Ok tt
  else Ok tt.

Definition SpammingPreventionDecorator : Decorator := fun ctx tx simulate next =>
  if IsReCheckTx (a_ctx ctx) then next ctx tx simulate
  else if negb simulate && IsCheckTx (a_ctx ctx) then
    lift (check_oracle_gas tx) ;;
    CheckOracleSpamming ctx (GetMsgs tx) ;;
    next ctx tx simulate
  else next ctx tx simulate.

(** ** ibc_spamming_prevention.go *)
Fixpoint check_transfers (msgs : list Msg) : res unit :=
  match msgs with
  | [] => Ok tt
  | MsgTransfer memo receiver :: msgs =>
      if DefaultMaxMemoLength <? Z.of_nat (String.length memo) then Err ErrMemoTooLong
      else if DefaultMaxReceiverLength <? Z.of_nat (String.length receiver) then Err ErrReceiverTooLong
      else check_transfers msgs
  | _ :: msgs => check_transfers msgs
  end.

Definition IBCTransferSpamPreventionDecorator : Decorator := fun ctx tx simulate next =>
  if IsReCheckTx (a_ctx ctx) then next ctx tx simulate
  else lift (check_transfers (GetMsgs tx)) ;; next ctx tx simulate.

(** ** min_initial_deposit.go *)
Definition IsMsgSubmitProposal (m : Msg) : bool :=
  match m with MsgSubmitProposalV1beta1 _ | MsgSubmitProposalV1 _ => true | _ => false end.

Definition HandleCheckMinInitialDeposit (env : O) (msg : Msg) : res unit :=
  initialDepositCoins ← match msg with
                        | MsgSubmitProposalV1beta1 cs | MsgSubmitProposalV1 cs => Ok cs
                        | _ => Err (Plain "could not dereference msg as MsgSubmitProposal")
                        end;
  minDeposit ← GovMinDeposit env;
  match minDeposit with
  | [] => Err (Plain "governance min deposit is not configured")
  | c :: _ =>
      ratio ← GetMinInitialDepositRatio env;
      p ← DecMul (LegacyNewDecFromInt (Amount c)) ratio;
      requiredAmount ← DecTruncateInt p;
      coin ← NewCoin (Denom c) requiredAmount;
      requiredDepositCoins ← NewCoins [coin];
      if negb (IsAllGTE initialDepositCoins requiredDepositCoins)
      then Err (Plain "not enough initial deposit provided")
      else Ok tt
  end.

Fixpoint check_deposits (env : O) (msgs : list Msg) : res unit :=
  match msgs with
  | [] => Ok tt
  | msg :: msgs =>
      if negb (IsMsgSubmitProposal msg) then check_deposits env msgs
      else match HandleCheckMinInitialDeposit env msg with
           | Ok _ => check_deposits env msgs
           | Err _ => Err (SdkError "ErrUnauthorized")
           | Panic => Panic
           end
  end.

Definition MinInitialDepositDecorator : Decorator := fun ctx tx simulate next =>
  if simulate then next ctx tx simulate
  else s ← get; lift (check_deposits (st_env s) (GetMsgs tx)) ;; next ctx tx simulate.

(** ** fee_tax.go, fee.go *)
Definition FilterMsgAndComputeTax (msgs : list Msg) : res (list Coin * list Coin) :=
  x ← NewCoins []; y ← NewCoins []; Ok (x, y).

Definition required_fee (glDec : Z) (gp : DecCoin) : res Coin :=
  fee ← DecMul (DAmount gp) glDec;
  c ← DecCeil fee;
  n ← DecRoundInt c;
  NewCoin (DDenom gp) n.

Definition required_fees (gas : Z) (prices : list DecCoin) : res (list Coin) :=
  foldRes (fun acc gp => c ← required_fee (LegacyNewDec (i64 gas)) gp; Ok (acc ++ [c])) [] prices.

Definition raise_priority (gas priority : Z) (c : Coin) : res Z :=
  gasPrice ← IntQuo (Amount c) (i64 gas);
  if bool_decide (is_i64 gasPrice) && (priority <? gasPrice) then Ok gasPrice else Ok priority.

Definition DecCoinsIsZero (prices : list DecCoin) : bool := forallb (fun c => DAmount c =? 0) prices.

Definition checkTxFee (ctx : Actx) (tx : Tx) : res Z :=
  if negb (is_FeeTx tx) then Err (SdkError "ErrTxDecode")
  else
    (if negb (IsOracleTx (GetMsgs tx)) && negb (DecCoinsIsZero (MinGasPrices ctx)) then
       requiredFees ← required_fees (GetGas tx) (MinGasPrices ctx);
       if negb (IsAnyGTE (GetFee tx) requiredFees) then Err (SdkError "ErrInsufficientFee")
       else Ok tt
     else Ok tt) ;;
    foldRes (raise_priority (GetGas tx)) 0 (GetFee tx).

Definition bank_call (f : B -> res B) : M (State B O) unit :=
  call_on st_bank (fun b s => mkState b (st_env s) (oraclePrevoteMap s) (oracleVoteMap s))
    (fun b => b' ← f b; Ok (tt, b')).
Definition env_call (f : O -> res O) : M (State B O) unit :=
  call_on st_env (fun e s => mkState (st_bank s) e (oraclePrevoteMap s) (oracleVoteMap s))
    (fun e => e' ← f e; Ok (tt, e')).

Definition DeductFees (addr : AccAddress) (fees : list Coin) : M (State B O) unit :=
  if negb (CoinsIsValid fees) then throw (SdkError "ErrInsufficientFee")
  else bank_call (fun b => match SendCoinsFromAccountToModule addr FeeCollectorName fees b with
                           | Err _ => Err (SdkError "ErrInsufficientFunds") | r => r end).

Definition fee_payer (tx : Tx) : res AccAddress :=
  if negb (Nat.eqb (String.length (FeePayer tx)) 0) then Ok (FeePayer tx)
  else if negb (is_SigVerifiableTx tx)
  then Err (Plain "fee payer address not found and cannot cast to SigVerifiableTx")
  else match GetSigners tx with
       | Err _ => Err (Plain "fee payer address not found and cannot get signers")
       | Panic => Panic
       | Ok [] => Err (Plain "fee payer address not found and no signers available")
       | Ok (a :: _) => Ok a
       end.

Definition checkDeductFee (ctx : Actx) (tx : Tx) (taxes : list Coin) (simulate : bool)
    : M (State B O) unit :=
  match FeeCollectorAddress with
  | None => throw (Plain "fee collector module account has not been set")
  | Some _ =>
      let fee := if IsOracleTx (GetMsgs tx) then [] else GetFee tx in
      feePayer ← lift (fee_payer tx);
      deductFeesFrom ←
        match FeeGranter tx with
        | None => mret feePayer
        | Some feeGranter =>
            if negb FeegrantEnabled then throw (SdkError "ErrInvalidRequest")
            else
              (if negb (String.eqb feeGranter feePayer)
               then env_call (UseGrantedFees feeGranter feePayer fee (GetMsgs tx))
               else mret tt) ;;
              mret feeGranter
        end;
      s ← get;
      if negb (HasAccount (st_env s) deductFeesFrom) then throw (SdkError "ErrUnknownAddress")
      else
        let feesToDeduct := if simulate && CoinsIsZero fee then taxes else fee in
        if negb (CoinsIsZero feesToDeduct) then DeductFees deductFeesFrom feesToDeduct
        else mret tt
  end.

Definition FeeDecorator : Decorator := fun ctx tx simulate next =>
  if negb (is_FeeTx tx) then throw (SdkError "ErrTxDecode")
  else if negb simulate && (0 <? BlockHeight (a_ctx ctx)) && (GetGas tx =? 0)
  then throw (SdkError "ErrInvalidGasLimit")
  else
    '(taxes, _) ← lift (FilterMsgAndComputeTax (GetMsgs tx));
    priority ← (if negb simulate then lift (checkTxFee ctx tx) else mret 0);
    checkDeductFee ctx tx taxes simulate ;;
    next (mkActx (a_ctx ctx) (MinGasPrices ctx) priority) tx simulate.

(** ** ante.go *)
Record HandlerOptions : Type := mkHandlerOptions {
  has_AccountKeeper : bool; has_BankKeeper : bool; has_OracleKeeper : bool;
  has_TreasuryKeeper : bool; has_SignModeHandler : bool; has_WasmConfig : bool;
  has_TXCounterStore : bool;
}.

(** [sdk.ChainAnteDecorators]: each decorator gets the rest of the chain; the
    last one gets a handler that returns its context. *)
Definition ChainAnteDecorators (ds : list Decorator) : Handler :=
  foldr (fun d next => fun ctx tx simulate => d ctx tx simulate next)
    (fun ctx _ _ => mret ctx) ds.

(** The decorators of other packages, by the name of their constructor. *)
Definition before_fee (ext : string -> Decorator) : list Decorator :=
  map ext ["SetUpContext"; "LimitSimulationGas"; "CountTX"; "GasRegister"; "ExtensionOptions";
           "ValidateBasic"; "TxTimeoutHeight"] ++
  [MFAMemoAwareValidateMemoDecorator; SpammingPreventionDecorator;
   IBCTransferSpamPreventionDecorator; MinInitialDepositDecorator;
   ext "MFARequirement"; ext "ConsumeGasForTxSize"].

Definition after_fee (ext : string -> Decorator) : list Decorator :=
  map ext ["Dyncomm"; "SetPubKey"; "ValidateSigCount"; "SigGasConsume"; "SigVerification";
           "MFAControlApply"; "IncrementSequence"; "RedundantRelay"].

Definition NewAnteHandler (ext : string -> Decorator) (options : HandlerOptions) : res Handler :=
  if negb (has_AccountKeeper options && has_BankKeeper options && has_OracleKeeper options &&
           has_TreasuryKeeper options && has_SignModeHandler options && has_WasmConfig options &&
           has_TXCounterStore options)
  then Err (SdkError "ErrLogic")
  else Ok (ChainAnteDecorators (before_fee ext ++ [FeeDecorator] ++ after_fee ext)).
End ops.

(** ** Free oracle transactions are limited *)
Section spamming.
Context {B O : Type} `{BankOps B} `{AnteEnv O} `{MathOps} `{CoinOps} `{CoinCmpOps} `{AddrCodec}
  `{MemoJson}.
Implicit Types s : State B O.

Definition prevotes (msgs : list Msg) : list string :=
  omap (fun m => match m with MsgAggregateDoRatePrevote _ v => Some v | _ => None end) msgs.
Definition votes (msgs : list Msg) : list string :=
  omap (fun m => match m with MsgAggregateDoRateVote _ v => Some v | _ => None end) msgs.

(** The feeder check, which changes nothing. *)
Definition feeder_result (env : O) (feeder validator : string) : res unit :=
  feederAddr ← AccAddressFromBech32 feeder;
  valAddr ← ValAddressFromBech32 validator;
  ValidateFeeder env feederAddr valAddr.

Lemma check_feeder_run f v s : check_feeder f v s = (feeder_result (st_env s) f v, s).
Proof.
  unfold check_feeder, feeder_result, lift, get, mbind, M_bind, res_bind.
  destruct (AccAddressFromBech32 f); [|done|done]. by destruct (ValAddressFromBech32 v).
Qed.

(** What a height leaves in the maps stays there while that height lasts. *)
Definition keeps (h : Z) s s' : Prop :=
  st_bank s' = st_bank s /\ st_env s' = st_env s /\
  (forall v, oraclePrevoteMap s !! v = Some h -> oraclePrevoteMap s' !! v = Some h) /\
  (forall v, oracleVoteMap s !! v = Some h -> oracleVoteMap s' !! v = Some h).

Lemma keeps_refl h s : keeps h s s.
Proof. by split_and!. Qed.

Lemma keeps_trans h s1 s2 s3 : keeps h s1 s2 -> keeps h s2 s3 -> keeps h s1 s3.
Proof. intros (? & ? & ? & ?) (? & ? & ? & ?). split_and!; [congruence|congruence|auto|auto]. Qed.

Lemma keeps_prevote h v s : keeps h s (set_prevote v h s).2.
Proof.
  split_and!; try done. intros v' Hv. simpl. destruct (decide (v = v')) as [->|];
    [by rewrite lookup_insert_eq|by rewrite lookup_insert_ne].
Qed.

Lemma keeps_vote h v s : keeps h s (set_vote v h s).2.
Proof.
  split_and!; try done. intros v' Hv. simpl. destruct (decide (v = v')) as [->|];
    [by rewrite lookup_insert_eq|by rewrite lookup_insert_ne].
Qed.

(** One message at a time. *)
Lemma spam_prevote ctx f v msgs s :
  CheckOracleSpamming ctx (MsgAggregateDoRatePrevote f v :: msgs) s =
  match feeder_result (st_env s) f v with
  | Ok _ => if bool_decide (oraclePrevoteMap s !! v = Some (BlockHeight (a_ctx ctx)))
            then (Err (SdkError "ErrInvalidRequest"), s)
            else CheckOracleSpamming ctx msgs (set_prevote v (BlockHeight (a_ctx ctx)) s).2
  | Err e => (Err e, s)
  | Panic => (Panic, s)
  end.
Proof.
  cbn [CheckOracleSpamming]. unfold mbind, M_bind. rewrite check_feeder_run.
  destruct (feeder_result _ _ _); [|done|done]. cbn. by case_bool_decide.
Qed.

Lemma spam_vote ctx f v msgs s :
  CheckOracleSpamming ctx (MsgAggregateDoRateVote f v :: msgs) s =
  match feeder_result (st_env s) f v with
  | Ok _ => if bool_decide (oracleVoteMap s !! v = Some (BlockHeight (a_ctx ctx)))
            then (Err (SdkError "ErrInvalidRequest"), s)
            else CheckOracleSpamming ctx msgs (set_vote v (BlockHeight (a_ctx ctx)) s).2
  | Err e => (Err e, s)
  | Panic => (Panic, s)
  end.
Proof.
  cbn [CheckOracleSpamming]. unfold mbind, M_bind. rewrite check_feeder_run.
  destruct (feeder_result _ _ _); [|done|done]. cbn. by case_bool_decide.
Qed.

(** Whatever the check answers. *)
Lemma spamming_keeps ctx msgs : forall s r s',
  CheckOracleSpamming ctx msgs s = (r, s') -> keeps (BlockHeight (a_ctx ctx)) s s'.
Proof.
  induction msgs as [|m msgs IH]; intros s r s' E; [injection E as _ <-; apply keeps_refl|].
  destruct m as [f v|f v| | | | |]; rewrite ?spam_prevote, ?spam_vote in E;
    try (injection E as _ <-; apply keeps_refl);
    (destruct (feeder_result _ _ _); [|injection E as _ <-; apply keeps_refl..]);
    (case_bool_decide; [injection E as _ <-; apply keeps_refl|]).
  - eapply keeps_trans; [apply (keeps_prevote _ v)|]. eapply IH, E.
  - eapply keeps_trans; [apply (keeps_vote _ v)|]. eapply IH, E.
Qed.

(** An accepted list of oracle messages was fresh at this height, has
    permitted feeders, and is recorded. *)
Definition fresh (h : Z) (m : gmap string Z) (l : list string) : Prop :=
  NoDup l /\ forall v, v ∈ l -> m !! v <> Some h.

Definition oracle_msg (m : Msg) : bool :=
  match m with MsgAggregateDoRatePrevote _ _ | MsgAggregateDoRateVote _ _ => true | _ => false end.

Lemma IsOracleTx_all msgs : IsOracleTx msgs = true -> forallb oracle_msg msgs = true.
Proof.
  assert (forall l, forallb (fun msg => match msg with
    | Mempool.MsgAggregateDoRatePrevote | Mempool.MsgAggregateDoRateVote => true
    | Mempool.OtherMsg _ => false end) (map as_mempool_msg l) = forallb oracle_msg l) as E.
  { induction l as [|[] l IH]; simpl; congruence. }
  intros Hm. rewrite <- E. by destruct msgs.
Qed.

Lemma spamming_ok ctx msgs : forall s u s',
  forallb oracle_msg msgs = true -> CheckOracleSpamming ctx msgs s = (Ok u, s') ->
  let h := BlockHeight (a_ctx ctx) in
  fresh h (oraclePrevoteMap s) (prevotes msgs) /\ fresh h (oracleVoteMap s) (votes msgs) /\
  (forall v, v ∈ prevotes msgs -> oraclePrevoteMap s' !! v = Some h) /\
  (forall v, v ∈ votes msgs -> oracleVoteMap s' !! v = Some h) /\
  (forall f v, MsgAggregateDoRatePrevote f v ∈ msgs \/ MsgAggregateDoRateVote f v ∈ msgs ->
     feeder_result (st_env s) f v = Ok tt).
Proof.
  induction msgs as [|m msgs IH]; intros s u s' Ho E.
  { injection E as _ <-. unfold fresh. split_and!; try constructor; try by intros ? ?%elem_of_nil.
    intros f v [?%elem_of_nil|?%elem_of_nil]; done. }
  cbn [forallb] in Ho. apply andb_true_iff in Ho as [Hm Ho].
  destruct m as [f v|f v| | | | |]; try discriminate Hm; rewrite ?spam_prevote, ?spam_vote in E;
    (destruct (feeder_result _ _ _) as [[]| |] eqn:Hf; [|done|done]);
    (case_bool_decide as Hb; [done|]);
    pose proof (spamming_keeps _ _ _ _ _ E) as (_ & _ & Kp & Kv);
    destruct (IH _ _ _ Ho E) as ((Hn1 & Hf1) & (Hn2 & Hf2) & Hp & Hv & Hfe);
    cbn [set_prevote set_vote modify snd st_env oraclePrevoteMap oracleVoteMap] in *;
    cbn [prevotes votes omap list_omap]; unfold fresh.
  - assert (v ∉ prevotes msgs) as Hnv by (intros Hin; apply (Hf1 v Hin), lookup_insert_eq).
    split_and!; [by apply list.NoDup_cons| |done|done| | |].
    + intros w [->|Hw]%elem_of_cons; [done|]. specialize (Hf1 w Hw).
      rewrite lookup_insert_ne in Hf1 by set_solver. done.
    + intros w [->|Hw]%elem_of_cons; [apply Kp, lookup_insert_eq|by apply Hp].
    + done.
    + intros f' v' [[[= -> ->]|Hin]%elem_of_cons|[?|Hin]%elem_of_cons]; eauto; discriminate.
  - assert (v ∉ votes msgs) as Hnv by (intros Hin; apply (Hf2 v Hin), lookup_insert_eq).
    split_and!; [done|done|by apply list.NoDup_cons| |done| |].
    + intros w [->|Hw]%elem_of_cons; [done|]. specialize (Hf2 w Hw).
      rewrite lookup_insert_ne in Hf2 by set_solver. done.
    + intros w [->|Hw]%elem_of_cons; [apply Kv, lookup_insert_eq|by apply Hv].
    + intros f' v' [[?|Hin]%elem_of_cons|[[= -> ->]|Hin]%elem_of_cons]; eauto; discriminate.
Qed.

(** *** The decorator over a sequence of transactions *)
Definition pass : @Handler B O := fun ctx _ _ => mret ctx.

(** The transactions accepted while checking at one height; other decorators
    and refused transactions may change the bank and the keepers, and the
    maps of this decorator are never rolled back. *)
Inductive checks (ctx : Actx) : State B O -> list Tx -> Prop :=
| checks_nil s : checks ctx s []
| checks_other s b e l :
    checks ctx (mkState b e (oraclePrevoteMap s) (oracleVoteMap s)) l -> checks ctx s l
| checks_accept s tx c s1 l :
    SpammingPreventionDecorator ctx tx false pass s = (Ok c, s1) -> checks ctx s1 l ->
    checks ctx s (tx :: l)
| checks_refuse s tx r s1 l :
    SpammingPreventionDecorator ctx tx false pass s = (r, s1) -> checks ctx s1 l -> checks ctx s l.

Lemma decorator_keeps ctx tx s r s1 :
  SpammingPreventionDecorator ctx tx false pass s = (r, s1) -> keeps (BlockHeight (a_ctx ctx)) s s1.
Proof.
  unfold SpammingPreventionDecorator. destruct (IsReCheckTx _); [intros [= _ <-]; apply keeps_refl|].
  destruct (IsCheckTx _); cbn [negb andb]; [|intros [= _ <-]; apply keeps_refl].
  unfold lift, mbind, M_bind. destruct (check_oracle_gas tx); [|intros [= _ <-]; apply keeps_refl..].
  destruct (CheckOracleSpamming ctx (GetMsgs tx) s) as [[] s2] eqn:Ec;
    apply spamming_keeps in Ec; intros [= _ <-]; exact Ec.
Qed.

Lemma decorator_accepts ctx tx s c s1 :
  IsCheckTx (a_ctx ctx) = true -> IsReCheckTx (a_ctx ctx) = false ->
  SpammingPreventionDecorator ctx tx false pass s = (Ok c, s1) ->
  check_oracle_gas tx = Ok tt /\ CheckOracleSpamming ctx (GetMsgs tx) s = (Ok tt, s1).
Proof.
  unfold SpammingPreventionDecorator. intros Hc Hr. rewrite Hc, Hr. cbn [negb andb]. intros E.
  m_lift E as u Eu. m_bind E as u' Ec. unfold pass in E. injection E as _ <-. by destruct u, u'.
Qed.

Definition free (l : list Tx) : list Tx := List.filter (fun tx => IsOracleTx (GetMsgs tx)) l.
Definition all_prevotes (l : list Tx) : list string := concat (map (fun tx => prevotes (GetMsgs tx)) l).
Definition all_votes (l : list Tx) : list string := concat (map (fun tx => votes (GetMsgs tx)) l).

(** Fresh now and fresh after what was recorded now. *)
Lemma fresh_app h (m m' : gmap string Z) l k :
  fresh h m l -> (forall v, v ∈ l -> m' !! v = Some h) ->
  (forall v, m !! v = Some h -> m' !! v = Some h) -> fresh h m' k -> fresh h m (l ++ k).
Proof.
  intros [Hn Hf] Hrec Hkeep [Hn' Hf']. split.
  - apply NoDup_app. split; [done|]. split; [|done]. intros v Hv Hk. exact (Hf' v Hk (Hrec v Hv)).
  - intros v [Hv|Hv]%elem_of_app; [by apply Hf|]. intros E. exact (Hf' v Hv (Hkeep v E)).
Qed.

Lemma fresh_keeps h (m m' : gmap string Z) k :
  (forall v, m !! v = Some h -> m' !! v = Some h) -> fresh h m' k -> fresh h m k.
Proof. intros Hk [Hn Hf]. split; [done|]. intros v Hv E. exact (Hf v Hv (Hk v E)). Qed.

Lemma checks_fresh ctx s l :
  IsCheckTx (a_ctx ctx) = true -> IsReCheckTx (a_ctx ctx) = false -> checks ctx s l ->
  let h := BlockHeight (a_ctx ctx) in
  fresh h (oraclePrevoteMap s) (all_prevotes (free l)) /\
  fresh h (oracleVoteMap s) (all_votes (free l)) /\
  forall tx, tx ∈ free l -> GetGas tx <= MaxOracleGasLimit.
Proof.
  intros Hc Hr. induction 1 as [s|s b e l _ IH|s tx c s1 l E _ IH|s tx r s1 l E _ IH].
  - unfold fresh. split_and!; try constructor; by intros ? ?%elem_of_nil.
  - exact IH.
  - pose proof (decorator_keeps _ _ _ _ _ E) as (_ & _ & Kp & Kv).
    destruct IH as (IHp & IHv & IHg). unfold free. cbn [List.filter].
    destruct (IsOracleTx (GetMsgs tx)) eqn:Ho; fold (free l).
    + apply IsOracleTx_all in Ho as Hall. apply decorator_accepts in E as [Hg E]; [|done|done].
      destruct (spamming_ok _ _ _ _ _ Hall E) as (F1 & F2 & R1 & R2 & _). split_and!.
      * by eapply fresh_app.
      * by eapply fresh_app.
      * intros tx' [->|Hin]%elem_of_cons; [|by apply IHg]. unfold check_oracle_gas in Hg.
        destruct (GetMsgs tx) as [|m ms]; [discriminate Ho|]. cbn [forallb] in Hall.
        replace (containsOracleMsg (m :: ms)) with true in Hg by (by destruct m).
        res_inv Hg. zbool. done.
    + split_and!; [by eapply fresh_keeps|by eapply fresh_keeps|done].
  - pose proof (decorator_keeps _ _ _ _ _ E) as (_ & _ & Kp & Kv).
    destruct IH as (IHp & IHv & IHg). split_and!; [by eapply fresh_keeps|by eapply fresh_keeps|done].
Qed.

(** C14: Transactions that pay no fee are limited: while transactions are
    checked at one height, in any order and mixed with refused ones, the free
    oracle transactions that are accepted carry at most one prevote and one
    vote per validator text, none that an earlier check at that height
    recorded, and at most a million gas each; and every one of their messages
    has a feeder the oracle permits. *)
Theorem free_oracle_txs_limited ctx s l :
  IsCheckTx (a_ctx ctx) = true -> IsReCheckTx (a_ctx ctx) = false -> checks ctx s l ->
  NoDup (all_prevotes (free l)) /\ NoDup (all_votes (free l)) /\
  (forall v, v ∈ all_prevotes (free l) -> oraclePrevoteMap s !! v <> Some (BlockHeight (a_ctx ctx))) /\
  (forall tx, tx ∈ free l -> GetGas tx <= MaxOracleGasLimit) /\
  (forall tx c s0 s1 f v, SpammingPreventionDecorator ctx tx false pass s0 = (Ok c, s1) ->
     IsOracleTx (GetMsgs tx) = true ->
     MsgAggregateDoRatePrevote f v ∈ GetMsgs tx \/ MsgAggregateDoRateVote f v ∈ GetMsgs tx ->
     feeder_result (st_env s0) f v = Ok tt).
Proof.
  intros Hc Hr Hl. destruct (checks_fresh ctx s l Hc Hr Hl) as ([Hn1 Hf1] & [Hn2 _] & Hg).
  split_and!; [done|done|done|done|]. intros tx c s0 s1 f v E Ho Hin.
  apply decorator_accepts in E as [_ E]; [|done|done]. apply IsOracleTx_all in Ho.
  destruct (spamming_ok _ _ _ _ _ Ho E) as (_ & _ & _ & _ & Hfe). by apply Hfe.
Qed.

(** The limit is on the text of the address, not on the validator: when
    two texts decode to the same validator, as the upper-case and the
    lower-case form of a Bech32 address do, its feeder has a free prevote
    accepted for each of them at the same height. *)
Theorem limit_is_per_text ctx s f v v' a w :
  v <> v' -> ValAddressFromBech32 v = Ok w -> ValAddressFromBech32 v' = Ok w ->
  AccAddressFromBech32 f = Ok a -> ValidateFeeder (st_env s) a w = Ok tt ->
  oraclePrevoteMap s !! v <> Some (BlockHeight (a_ctx ctx)) ->
  oraclePrevoteMap s !! v' <> Some (BlockHeight (a_ctx ctx)) ->
  IsOracleTx [MsgAggregateDoRatePrevote f v; MsgAggregateDoRatePrevote f v'] = true /\
  exists s', CheckOracleSpamming ctx
    [MsgAggregateDoRatePrevote f v; MsgAggregateDoRatePrevote f v'] s = (Ok tt, s').
Proof.
  intros Hne Hv Hv' Ha Hf Hm Hm'. split; [done|].
  assert (forall s0, st_env s0 = st_env s -> forall x, ValAddressFromBech32 x = Ok w ->
    feeder_result (st_env s0) f x = Ok tt) as Hfr.
  { intros s0 E x Hx. unfold feeder_result. rewrite Ha, Hx. cbn. by rewrite E. }
  rewrite spam_prevote, Hfr by done. rewrite bool_decide_eq_false_2 by done.
  rewrite spam_prevote, Hfr by done. rewrite bool_decide_eq_false_2; [eexists; reflexivity|].
  simpl. by rewrite lookup_insert_ne.
Qed.
End spamming.

(** ** Fees *)
Section fees.
Context {B O : Type} `{BankOps B} `{AnteEnv O} `{MathOps} `{CoinOps} `{CoinCmpOps} `{AddrCodec}
  `{MemoJson}.
Context `{!BankLaws B} `{!MathLaws} `{!CoinLaws} `{!CoinCmpLaws}.
Implicit Types s : State B O.

(** The price asked of a coin for an amount of gas, rounded up to a unit. *)
Lemma required_fee_ok gas gp c :
  required_fee (LegacyNewDec gas) gp = Ok c ->
  Denom c = DDenom gp /\ DAmount gp * gas <= Amount c * Precision.
Proof.
  unfold required_fee, LegacyNewDec. intros E.
  apply res_bind_ok in E as (f & Ef & E). apply res_bind_ok in E as (x & Ex & E).
  apply res_bind_ok in E as (n & En & E). math_inv. subst. split; [done|]. simpl.
  apply DecMul_inv in Ef. apply DecCeil_inv in Ex as [[Hx _] Hd]. apply DecRoundInt_inv in En.
  apply Z.mod_divide in Hd as [k ->]; [|done].
  assert (n = k) as -> by (unfold Precision in *; lia).
  assert (f = DAmount gp * gas) as -> by (unfold Precision in *; lia). done.
Qed.

Lemma required_fees_in gas prices cs c :
  required_fees gas prices = Ok cs -> c ∈ cs ->
  exists gp, gp ∈ prices /\ Denom c = DDenom gp /\ DAmount gp * i64 gas <= Amount c * Precision.
Proof.
  unfold required_fees.
  assert (forall l acc, foldRes (fun acc gp => c ← required_fee (LegacyNewDec (i64 gas)) gp;
      Ok (acc ++ [c])) acc l = Ok cs -> c ∈ cs ->
    c ∈ acc \/ exists gp, gp ∈ l /\ Denom c = DDenom gp /\ DAmount gp * i64 gas <= Amount c * Precision)
    as Hl.
  { induction l as [|gp l IH]; cbn [foldRes]; intros acc E Hc; [left; by injection E as <-|].
    apply res_bind_ok in E as (acc' & Ea & E). apply res_bind_ok in Ea as (x & Ex & [= <-]).
    apply required_fee_ok in Ex.
    destruct (IH _ E Hc) as [[Hin|Heq%list_elem_of_singleton]%elem_of_app|(gp' & Hg & Hx)].
    - by left.
    - subst. right. exists gp. split; [left|done].
    - right. exists gp'. split; [by right|done]. }
  intros E Hc. destruct (Hl _ _ E Hc) as [?%elem_of_nil|?]; [done|done].
Qed.

Lemma checkTxFee_ok ctx tx p :
  checkTxFee ctx tx = Ok p -> IsOracleTx (GetMsgs tx) = false ->
  DecCoinsIsZero (MinGasPrices ctx) = false ->
  exists c gp, c ∈ GetFee tx /\ gp ∈ MinGasPrices ctx /\ Denom c = DDenom gp /\
    DAmount gp * i64 (GetGas tx) <= Amount c * Precision.
Proof.
  unfold checkTxFee. intros E Ho Hz. destruct (is_FeeTx tx); [|done]. cbn [negb] in E.
  rewrite Ho, Hz in E. cbn [negb andb] in E. apply res_bind_ok in E as (u & Eu & _).
  apply res_bind_ok in Eu as (cs & Ecs & Eu). destruct (IsAnyGTE _ _) eqn:Hg; [|done].
  apply IsAnyGTE_spec in Hg as (c & Hc & Hlo & Hhi).
  destruct (AmountOf_found cs (Denom c)) as (x & Hx & Hdx & Hax); [done|].
  destruct (required_fees_in _ _ _ _ Ecs Hx) as (gp & Hgp & Hd & Hle).
  exists c, gp. split_and!; [done|done|congruence|]. rewrite Hax in Hle. unfold Precision in *. lia.
Qed.

Lemma ante_bank_ok (f : B -> res B) s u s' :
  bank_call f s = (Ok u, s') -> f (st_bank s) = Ok (st_bank s') /\ st_env s' = st_env s.
Proof.
  unfold bank_call. intros (b & Eb & ->)%call_on_ok. apply res_bind_ok in Eb as (b' & Eb & [= _ <-]). done.
Qed.

Lemma env_call_ok (f : O -> res O) s u s' :
  env_call f s = (Ok u, s') -> f (st_env s) = Ok (st_env s') /\ st_bank s' = st_bank s.
Proof.
  unfold env_call. intros (b & Eb & ->)%call_on_ok. apply res_bind_ok in Eb as (b' & Eb & [= _ <-]). done.
Qed.

(** Who is charged, and what the charge does to the ledger. *)
Definition charged_to (tx : Tx) (from : AccAddress) : Prop :=
  match FeeGranter tx with Some g => from = g | None => fee_payer tx = Ok from end.

Definition effective_fee (tx : Tx) : list Coin := if IsOracleTx (GetMsgs tx) then [] else GetFee tx.

Lemma checkDeductFee_ok ctx tx taxes s u s' :
  checkDeductFee ctx tx taxes false s = (Ok u, s') ->
  exists from, charged_to tx from /\ HasAccount (st_env s') from = true /\
    if CoinsIsZero (effective_fee tx) then st_bank s' = st_bank s
    else CoinsIsValid (effective_fee tx) = true /\
         moved from (ModuleAddress FeeCollectorName) (effective_fee tx) (st_bank s) (st_bank s').
Proof.
  unfold checkDeductFee, charged_to. destruct FeeCollectorAddress; [|done]. intros E.
  fold (effective_fee tx) in E. m_lift E as payer Ep. apply M_bind_ok in E as (from & s1 & Ef & E).
  assert (st_bank s1 = st_bank s /\ match FeeGranter tx with Some g => from = g
    | None => fee_payer tx = Ok from end) as [Hb Hfrom].
  { destruct (FeeGranter tx) as [g|]; [|injection Ef as <- <-; done].
    destruct FeegrantEnabled; [|done]. cbn [negb] in Ef. m_bind Ef as y Ey.
    injection Ef as <- <-. split; [|done]. destruct (String.eqb g payer); cbn [negb] in Ey.
    - by injection Ey as _ <-.
    - by apply env_call_ok in Ey as [_ ?]. }
  apply M_bind_ok in E as (x & s2 & [= <- <-] & E). destruct (HasAccount (st_env s1) from) eqn:Ha; [|done].
  cbn [negb andb] in E. exists from. split; [done|].
  destruct (CoinsIsZero (effective_fee tx)); cbn [negb] in E.
  - injection E as _ <-. done.
  - unfold DeductFees in E. destruct (CoinsIsValid _) eqn:Hv; [|done]. cbn [negb] in E.
    apply ante_bank_ok in E as [E He]. rewrite He. split; [done|]. split; [done|]. rewrite <- Hb.
    destruct (SendCoinsFromAccountToModule _ _ _ _) eqn:Esend; [|done|done].
    injection E as <-. by apply SendAM_inv in Esend.
Qed.

(** C17: A transaction that passes the fee decorator outside a simulation has
    positive gas (after genesis) and, unless it is an oracle transaction,
    offers some coin at the node's price for all of its gas; the fee granter,
    if named, or else the fee payer, has an account and is charged exactly
    the fee, which the fee collector receives; an oracle transaction is not
    charged at all. *)
Theorem fee_charged ctx tx s c s' :
  FeeDecorator ctx tx false pass s = (Ok c, s') ->
  (0 < BlockHeight (a_ctx ctx) -> GetGas tx <> 0) /\
  (IsOracleTx (GetMsgs tx) = false -> DecCoinsIsZero (MinGasPrices ctx) = false ->
     exists coin gp, coin ∈ GetFee tx /\ gp ∈ MinGasPrices ctx /\ Denom coin = DDenom gp /\
       DAmount gp * i64 (GetGas tx) <= Amount coin * Precision) /\
  (exists from, charged_to tx from /\ HasAccount (st_env s') from = true /\
     if IsOracleTx (GetMsgs tx) || CoinsIsZero (GetFee tx) then st_bank s' = st_bank s
     else moved from (ModuleAddress FeeCollectorName) (GetFee tx) (st_bank s) (st_bank s')).
Proof.
  unfold FeeDecorator. intros E. destruct (is_FeeTx tx) eqn:Hft; [|done]. cbn [negb andb] in E.
  destruct ((0 <? BlockHeight (a_ctx ctx)) && (GetGas tx =? 0)) eqn:Hgas; [done|].
  m_lift E as [taxes ?] Et. m_lift E as p Ep. m_bind E as u Ed. injection E as _ <-.
  apply checkDeductFee_ok in Ed as (from & Hfrom & Hacc & Hb). split_and!.
  - intros Hh Hz. rewrite Hz, (proj2 (Z.ltb_lt _ _) Hh) in Hgas. discriminate.
  - intros. by eapply checkTxFee_ok.
  - exists from. split; [done|]. split; [done|]. unfold effective_fee in Hb.
    destruct (IsOracleTx (GetMsgs tx)); cbn [orb].
    + by rewrite CoinsIsZero_spec in Hb.
    + destruct (CoinsIsZero (GetFee tx)); [done|]. by destruct Hb.
Qed.

(** ** Initial deposits *)
Definition deposit_of (m : Msg) : option (list Coin) :=
  match m with MsgSubmitProposalV1beta1 cs | MsgSubmitProposalV1 cs => Some cs | _ => None end.

Lemma check_deposits_ok env msgs m cs :
  check_deposits env msgs = Ok tt -> m ∈ msgs -> deposit_of m = Some cs ->
  HandleCheckMinInitialDeposit env m = Ok tt.
Proof.
  induction msgs as [|m' msgs IH]; intros E Hm Hd; [by apply elem_of_nil in Hm|].
  cbn [check_deposits] in E. apply elem_of_cons in Hm as [<-|Hm].
  - assert (IsMsgSubmitProposal m = true) as Hs by (by destruct m). rewrite Hs in E. cbn [negb] in E.
    destruct (HandleCheckMinInitialDeposit env m) as [[]| |]; done.
  - destruct (IsMsgSubmitProposal m'); cbn [negb] in E; [|by apply IH].
    destruct (HandleCheckMinInitialDeposit env m'); [by apply IH|done|done].
Qed.

Lemma HandleCheck_ok env m cs :
  deposit_of m = Some cs -> CoinsIsValid cs = true -> HandleCheckMinInitialDeposit env m = Ok tt ->
  exists c l ratio p, GovMinDeposit env = Ok (c :: l) /\ GetMinInitialDepositRatio env = Ok ratio /\
    DecMul (LegacyNewDecFromInt (Amount c)) ratio = Ok p /\
    Z.quot p Precision <= AmountOf cs (Denom c).
Proof.
  intros Hd Hv E. unfold HandleCheckMinInitialDeposit in E.
  apply res_bind_ok in E as (cs' & Ecs & E).
  assert (cs' = cs) as -> by (destruct m; simpl in *; congruence).
  apply res_bind_ok in E as (md & Emd & E). destruct md as [|c l]; [done|].
  apply res_bind_ok in E as (ratio & Er & E). apply res_bind_ok in E as (p & Ep & E).
  apply res_bind_ok in E as (n & En & E). apply res_bind_ok in E as (coin & Ec & E).
  apply res_bind_ok in E as (req & Ereq & E). destruct (IsAllGTE cs req) eqn:Hg; [|done].
  math_inv. subst. exists c, l, ratio, p. split_and!; [done|done|done|].
  apply IsAllGTE_spec with (d := Denom c) in Hg; [|done|by eapply NewCoins_valid].
  rewrite (NewCoins_inv _ _ _ Ereq) in Hg. cbn [coins_sum Denom Amount] in Hg.
  rewrite String.eqb_refl in Hg. lia.
Qed.

(** A transaction whose messages propose to governance passes the
    deposit decorator only if each of these deposits holds at least the
    truncated ratio of the first coin of governance's minimum deposit; a
    proposal inside an authorisation is not looked at and passes with any
    deposit. *)
Theorem deposit_enforced_top_level ctx tx s c s' m cs :
  MinInitialDepositDecorator ctx tx false pass s = (Ok c, s') ->
  m ∈ GetMsgs tx -> deposit_of m = Some cs -> CoinsIsValid cs = true ->
  (exists d l ratio p, GovMinDeposit (st_env s) = Ok (d :: l) /\
     GetMinInitialDepositRatio (st_env s) = Ok ratio /\
     DecMul (LegacyNewDecFromInt (Amount d)) ratio = Ok p /\
     Z.quot p Precision <= AmountOf cs (Denom d)) /\
  (forall msgs, MinInitialDepositDecorator ctx
     (mkTx true true true [MsgExec msgs] "" [] 0 "" None (Ok [])) false pass s = (Ok ctx, s)).
Proof.
  intros E Hm Hd Hv. split; [|done]. unfold MinInitialDepositDecorator in E.
  m_bind E as x Ex. injection Ex as <- <-. m_lift E as u Eu. destruct u.
  eapply HandleCheck_ok; [done|done|]. by eapply check_deposits_ok.
Qed.
End fees.

(** ** The order of the chain *)
Section order.
Context {B O : Type} `{BankOps B} `{AnteEnv O} `{MathOps} `{CoinOps} `{CoinCmpOps} `{AddrCodec}
  `{MemoJson}.
Implicit Types s : State B O.

(** A decorator that lets only transactions satisfying [P] through, does not
    touch the bank or the keepers, and then runs the rest of the chain on the
    same transaction. *)
Definition gate (P : Ctx -> Tx -> bool -> O -> Prop) (d : @Decorator B O) : Prop :=
  forall ctx tx simulate next s r s', d ctx tx simulate next s = (r, s') ->
    st_bank s' = st_bank s \/
    (P (a_ctx ctx) tx simulate (st_env s) /\
     exists ctx1 s1, a_ctx ctx1 = a_ctx ctx /\ st_bank s1 = st_bank s /\ st_env s1 = st_env s /\
       next ctx1 tx simulate s1 = (r, s')).

Definition no_condition : Ctx -> Tx -> bool -> O -> Prop := fun _ _ _ _ => True.

Definition memo_ok (_ : Ctx) (tx : Tx) (_ : bool) (env : O) : Prop :=
  is_TxWithMemo tx = true /\
  (Z.of_nat (String.length (GetMemo tx)) <= MaxMemoCharacters env \/
   String.length (GetMemo tx) = Datatypes.O \/
   (Z.of_nat (String.length (GetMemo tx)) <= maxMFAMemoCharacters /\
    exists keys, UnmarshalKeys (GetMemo tx) = Some keys /\ "dochain_mfa" ∈ keys)).

Definition transfers_ok (ctx : Ctx) (tx : Tx) (_ : bool) (_ : O) : Prop :=
  IsReCheckTx ctx = false -> forall memo receiver, MsgTransfer memo receiver ∈ GetMsgs tx ->
    Z.of_nat (String.length memo) <= DefaultMaxMemoLength /\
    Z.of_nat (String.length receiver) <= DefaultMaxReceiverLength.

Definition deposits_ok (_ : Ctx) (tx : Tx) (simulate : bool) (env : O) : Prop :=
  simulate = false -> check_deposits env (GetMsgs tx) = Ok tt.

Lemma gate_chain Ps ds next ctx tx simulate s r s' :
  Forall2 gate Ps ds ->
  foldr (fun d next => fun ctx tx simulate => d ctx tx simulate next) next ds ctx tx simulate s
    = (r, s') ->
  st_bank s' = st_bank s \/
  (Forall (fun P => P (a_ctx ctx) tx simulate (st_env s)) Ps /\
   exists ctx1 s1, a_ctx ctx1 = a_ctx ctx /\ st_bank s1 = st_bank s /\
     next ctx1 tx simulate s1 = (r, s')).
Proof.
  intros Hg. revert ctx s. induction Hg as [|P d Ps ds Hd _ IH]; intros ctx s E.
  { right. split; [constructor|]. by exists ctx, s. }
  simpl in E. apply Hd in E as [E|(HP & ctx1 & s1 & Hc & Hb & He & E)]; [by left|].
  apply IH in E as [E|(HPs & ctx2 & s2 & Hc2 & Hb2 & E)]; [left; congruence|].
  right. rewrite Hc, He in HPs. split; [by constructor|]. exists ctx2, s2. split_and!; congruence.
Qed.

Lemma memo_gate : gate memo_ok MFAMemoAwareValidateMemoDecorator.
Proof.
  intros ctx tx simulate next s r s' E. unfold MFAMemoAwareValidateMemoDecorator in E.
  destruct (is_TxWithMemo tx) eqn:Ht; cbn [negb] in E; [|left; by injection E as _ <-].
  rewrite (M_bind_run get _ s s s) in E by done.
  destruct (_ && _) eqn:Hc; [left; by injection E as _ <-|]. right.
  split; [|by exists ctx, s]. split; [done|].
  destruct (Z.leb_spec (Z.of_nat (String.length (GetMemo tx))) (MaxMemoCharacters (st_env s))); [by left|].
  right. destruct (String.length (GetMemo tx)) eqn:Hl; [by left|]. right.
  rewrite (proj2 (Z.ltb_lt _ _)) in Hc by lia. rewrite (proj2 (Z.ltb_lt _ _)) in Hc by lia.
  cbn [andb] in Hc. apply negb_false_iff in Hc. unfold isAllowedMFAMemo in Hc.
  destruct (Z.ltb_spec maxMFAMemoCharacters (Z.of_nat (Datatypes.S n))); [done|]. split; [done|].
  destruct (UnmarshalKeys (GetMemo tx)) as [keys|]; [|done]. exists keys. split; [done|].
  apply existsb_exists in Hc as (k & Hk & ->%String.eqb_eq). by apply list_elem_of_In.
Qed.

Lemma spamming_gate : gate no_condition SpammingPreventionDecorator.
Proof.
  intros ctx tx simulate next s r s' E. unfold SpammingPreventionDecorator in E.
  destruct (IsReCheckTx _); [right; split; [done|by exists ctx, s]|].
  destruct (negb simulate && _); [|right; split; [done|by exists ctx, s]].
  unfold lift, mbind, M_bind in E. destruct (check_oracle_gas tx); [|left; by injection E as _ <-..].
  destruct (CheckOracleSpamming ctx (GetMsgs tx) s) as [[] s2] eqn:Ec;
    apply spamming_keeps in Ec as (Hb & He & _);
    [|left; by injection E as _ <-..].
  right. split; [done|]. by exists ctx, s2.
Qed.

Lemma check_transfers_ok msgs : check_transfers msgs = Ok tt ->
  forall memo receiver, MsgTransfer memo receiver ∈ msgs ->
    Z.of_nat (String.length memo) <= DefaultMaxMemoLength /\
    Z.of_nat (String.length receiver) <= DefaultMaxReceiverLength.
Proof.
  induction msgs as [|m msgs IH]; intros E memo receiver Hin; [by apply elem_of_nil in Hin|].
  apply elem_of_cons in Hin as [<-|Hin].
  - cbn [check_transfers] in E. res_inv E. zbool. done.
  - destruct m; cbn [check_transfers] in E; try by apply IH. res_inv E. by apply IH.
Qed.

Lemma transfer_gate : gate transfers_ok IBCTransferSpamPreventionDecorator.
Proof.
  intros ctx tx simulate next s r s' E. unfold IBCTransferSpamPreventionDecorator in E.
  destruct (IsReCheckTx (a_ctx ctx)) eqn:Hr.
  { right. split; [intros Hf; congruence|by exists ctx, s]. }
  unfold lift, mbind, M_bind in E. destruct (check_transfers (GetMsgs tx)) as [[]| |] eqn:Hc;
    [|left; by injection E as _ <-..].
  right. split; [intros _; by apply check_transfers_ok|]. by exists ctx, s.
Qed.

Lemma deposit_gate : gate deposits_ok MinInitialDepositDecorator.
Proof.
  intros ctx tx simulate next s r s' E. unfold MinInitialDepositDecorator in E.
  destruct simulate; [right; split; [done|by exists ctx, s]|].
  rewrite (M_bind_run get _ s s s) in E by done.
  unfold lift, mbind, M_bind in E. destruct (check_deposits _ _) as [[]| |] eqn:Hc;
    [|left; by injection E as _ <-..].
  right. split; [intros _; exact Hc|]. by exists ctx, s.
Qed.

(** C35: A transaction pays nothing before it has passed the checks: if
    running the ante handler changes any balance, then the memo is within its
    limit or an approval memo, the IBC transfers are within theirs, and the
    proposals have their deposits, given that the decorators of other
    packages that come before the fee leave balances and parameters alone. *)
Theorem refused_tx_pays_nothing (ext : string -> Decorator) options h ctx tx s r s' :
  (forall name, gate no_condition (ext name)) ->
  NewAnteHandler ext options = Ok h ->
  h ctx tx false s = (r, s') -> st_bank s' <> st_bank s ->
  memo_ok (a_ctx ctx) tx false (st_env s) /\ transfers_ok (a_ctx ctx) tx false (st_env s) /\
  check_deposits (st_env s) (GetMsgs tx) = Ok tt.
Proof.
  intros Hext Hh E Hne. unfold NewAnteHandler in Hh. destruct (_ && _); [|done]. cbn [negb] in Hh.
  assert (h = ChainAnteDecorators (before_fee ext ++ [FeeDecorator] ++ after_fee ext)) as -> by congruence.
  unfold ChainAnteDecorators in E. rewrite fold_right_app in E.
  set (free := no_condition) in *.
  apply (gate_chain [free; free; free; free; free; free; free;
    memo_ok; free; transfers_ok; deposits_ok; free; free]) in E as [E|[HP _]]; [done| |].
  - rewrite !Forall_cons in HP.
    destruct HP as (_ & _ & _ & _ & _ & _ & _ & Hm & _ & Ht & Hd & _). split_and!; [done|done|].
    by apply Hd.
  - unfold before_fee. repeat (apply Forall2_cons; split);
      eauto using memo_gate, spamming_gate, transfer_gate, deposit_gate, Hext.
Qed.
End order.

(** ** Instances and an example *)
#[export] Instance ref_coin_cmp : CoinCmpOps := {|
  IsAnyGTE x y := existsb (fun c => (AmountOf y (Denom c) <=? Amount c) &&
                                    negb (AmountOf y (Denom c) =? 0)) x;
  IsAllGTE x y := forallb (fun c => Amount c <=? AmountOf x (Denom c)) y;
|}.

#[export] Instance ref_coin_cmp_laws : CoinCmpLaws.
Proof.
  split; cbn -[CoinsIsValid AmountOf].
  - intros x y. rewrite existsb_exists. split; intros (c & Hc & Ha); exists c; (split; [by apply list_elem_of_In|]).
    + by zbool.
    + destruct Ha as [Hz Hle]. by rewrite (proj2 (Z.leb_le _ _) Hle), (proj2 (Z.eqb_neq _ _) Hz).
  - intros cs d. cbn [AmountOf ref_coins]. unfold find_amount.
    destruct (List.find _ cs) as [c|] eqn:E; [|done]. intros _.
    apply find_some in E as [Hin Hd]. apply String.eqb_eq in Hd. exists c.
    split; [by apply list_elem_of_In|done].
  - intros x y Hx Hy. rewrite forallb_forall. split.
    + intros Hall d. destruct (decide (d ∈ map Denom y)) as [Hin|Hout].
      * apply list_elem_of_fmap in Hin as (c & -> & Hc). apply list_elem_of_In in Hc as Hc'.
        specialize (Hall c Hc'). zbool. rewrite (AmountOf_sum y) by done.
        by rewrite coins_sum_in by (done || by apply coins_ok_nodup).
      * rewrite (AmountOf_sum y) by done. rewrite coins_sum_absent by done. by apply AmountOf_nonneg.
    + intros Hall c Hc%list_elem_of_In. apply Z.leb_le. etransitivity; [|apply Hall].
      rewrite AmountOf_sum by done. by rewrite coins_sum_in by (done || by apply coins_ok_nodup).
Qed.

(** The keepers of the application: the oracle and the treasury of this
    library, with the parameters of governance and of the accounts. *)
Record Modules (B K D O : Type) : Type := mkModules {
  m_oracle : OracleState.State B K D;
  m_treasury : Treasury.State B K (list DecCoin) O;
  m_min_deposit : list Coin;
  m_max_memo : Z;
  m_accounts : list AccAddress;
}.
Arguments mkModules {B K D O}.
Arguments m_oracle {B K D O}.
Arguments m_treasury {B K D O}.
Arguments m_min_deposit {B K D O}.
Arguments m_max_memo {B K D O}.
Arguments m_accounts {B K D O}.

#[export] Instance modules_env {B K D O} `{StakingOps K} : AnteEnv (Modules B K D O) := {|
  ValidateFeeder e f v := OracleState.ValidateFeeder f v (m_oracle e);
  GetMinInitialDepositRatio e := Treasury.GetMinInitialDepositRatio (m_treasury e);
  GovMinDeposit e := Ok (m_min_deposit e);
  MaxMemoCharacters e := m_max_memo e;
  HasAccount e a := existsb (String.eqb a) (m_accounts e);
  FeeCollectorAddress := Some "module:fee_collector";
  FeegrantEnabled := true;
  UseGrantedFees granter grantee _ _ e :=
    if String.eqb granter "rich" then Ok e else Err (Foreign "feegrant");
|}.

Module Example.
#[local] Instance memo_json : MemoJson := {|
  UnmarshalKeys memo := if String.prefix "{dochain_mfa:" memo then Some ["dochain_mfa"] else None;
|}.

Definition Env : Type :=
  Modules ledger (list ref_validator) (list (string * list DecCoin))
    (Market.State ledger Treasury.Example.Oracle).

(** The minimum deposit is 1000 udo, of which 10% have to come first. *)
Definition env : Env :=
  mkModules OracleState.Example.s0
    (Treasury.SetMinInitialDepositRatio (LegacyNewDecWithPrec 1 1) Treasury.Example.s0).2
    [mkCoin "udo" 1000] 256 ["alice"; "rich"; "val"].

Definition bank0 : ledger :=
  mkLedger ["udo"] (fun a _ => if String.eqb a "alice" then 500
                              else if String.eqb a "rich" then 9000 else 0) (fun _ => 9500).

Definition start : State ledger Env := mkState bank0 env ∅ ∅.

Definition ctx : Actx :=
  mkActx (mkCtx 7 0 "cookie-1" true false) [mkDecCoin "udo" (Precision / 1000)] 0.

Definition oracle_tx (msgs : list Msg) : Tx := mkTx true true true msgs "" [] 200000 "val" None (Ok ["val"]).
Definition prevote_tx : Tx := oracle_tx [MsgAggregateDoRatePrevote "do1val" "dovaloper1val"].
Definition vote_tx : Tx := oracle_tx [MsgAggregateDoRateVote "do1val" "dovaloper1val"].

Definition proposal_tx (deposit fee : Z) : Tx :=
  mkTx true true true [MsgSubmitProposalV1 [mkCoin "udo" deposit]] "a proposal"
    [mkCoin "udo" fee] 200000 "alice" (Some "rich") (Ok ["alice"]).

Definition after_prevote : State ledger Env := (SpammingPreventionDecorator ctx prevote_tx false pass start).2.
Definition after_vote : State ledger Env := (SpammingPreventionDecorator ctx vote_tx false pass after_prevote).2.
Definition paid : State ledger Env := (FeeDecorator ctx (proposal_tx 150 300) false pass start).2.

(** Decorators of other packages that only pass on. *)
Definition passing (_ : string) : @Decorator ledger Env := fun ctx tx simulate next => next ctx tx simulate.
Definition options : HandlerOptions := mkHandlerOptions true true true true true true true.
Definition handler : @Handler ledger Env :=
  ChainAnteDecorators (before_fee passing ++ [FeeDecorator] ++ after_fee passing).
Definition handled : State ledger Env := (handler ctx (proposal_tx 150 300) false start).2.

(** Both forms of a Bech32 text. *)
Definition two_forms : AddrCodec := {|
  AccAddressFromBech32 := strip "do1";
  AccAddressString a := ("do1" +:+ a)%string;
  ValAddressFromBech32 t := match strip "dovaloper1" t with Ok a => Ok a | _ => strip "DOVALOPER1" t end;
  ValAddressString a := ("dovaloper1" +:+ a)%string;
|}.
End Example.

Lemma free_oracle_txs_limited_witness :
  is_ok (SpammingPreventionDecorator Example.ctx Example.prevote_tx false pass Example.after_prevote).1
    = false /\
  NoDup (all_prevotes (free [Example.prevote_tx; Example.vote_tx])).
Proof.
  split; [vm_compute; reflexivity|].
  destruct (free_oracle_txs_limited Example.ctx Example.start [Example.prevote_tx; Example.vote_tx])
    as [H _]; [reflexivity|reflexivity| |exact H].
  apply (checks_accept _ _ _ Example.ctx Example.after_prevote);
    [unfold Example.after_prevote; apply run_eq; vm_compute; reflexivity|].
  apply (checks_refuse _ _ Example.prevote_tx
    (SpammingPreventionDecorator Example.ctx Example.prevote_tx false pass Example.after_prevote).1
    (SpammingPreventionDecorator Example.ctx Example.prevote_tx false pass Example.after_prevote).2);
    [apply surjective_pairing|].
  replace (SpammingPreventionDecorator Example.ctx Example.prevote_tx false pass Example.after_prevote).2
    with Example.after_prevote by (vm_compute; reflexivity).
  apply (checks_accept _ _ _ Example.ctx Example.after_vote);
    [unfold Example.after_vote; apply run_eq; vm_compute; reflexivity|]. apply checks_nil.
Defined.

Lemma limit_is_per_text_witness :
  exists s', @CheckOracleSpamming ledger Example.Env _ Example.two_forms Example.ctx
    [MsgAggregateDoRatePrevote "do1val" "dovaloper1val";
     MsgAggregateDoRatePrevote "do1val" "DOVALOPER1val"] Example.start = (Ok tt, s').
Proof.
  destruct (@limit_is_per_text ledger Example.Env _ Example.two_forms Example.ctx Example.start
    "do1val" "dovaloper1val" "DOVALOPER1val" "val" "val") as [_ H];
    [discriminate|reflexivity|reflexivity|reflexivity|vm_compute; reflexivity
    |discriminate|discriminate|exact H].
Defined.

Lemma fee_charged_witness :
  GetBalance (st_bank Example.paid) "rich" "udo" = 8700 /\
  exists from, charged_to (Example.proposal_tx 150 300) from /\ from = "rich".
Proof.
  split; [vm_compute; reflexivity|].
  destruct (fee_charged Example.ctx (Example.proposal_tx 150 300) Example.start
    (mkActx (a_ctx Example.ctx) (MinGasPrices Example.ctx) 0) Example.paid)
    as (_ & _ & from & Hf & _); [unfold Example.paid; apply run_eq; vm_compute; reflexivity|].
  exists from. split; [exact Hf|exact Hf].
Defined.

Lemma deposit_enforced_top_level_witness :
  is_ok (MinInitialDepositDecorator Example.ctx (Example.proposal_tx 99 300) false pass Example.start).1
    = false /\
  MinInitialDepositDecorator Example.ctx
    (mkTx true true true [MsgExec [MsgSubmitProposalV1 []]] "" [] 0 "" None (Ok [])) false pass
    Example.start = (Ok Example.ctx, Example.start).
Proof.
  split; [vm_compute; reflexivity|].
  destruct (deposit_enforced_top_level Example.ctx (Example.proposal_tx 150 300) Example.start
    Example.ctx Example.start (MsgSubmitProposalV1 [mkCoin "udo" 150]) [mkCoin "udo" 150]) as [_ H];
    [|apply list_elem_of_here|reflexivity|vm_compute; reflexivity|exact (H _)].
  rewrite (run_eq (MinInitialDepositDecorator Example.ctx (Example.proposal_tx 150 300) false pass)
    Example.start (Ok Example.ctx)) by (vm_compute; reflexivity).
  reflexivity.
Defined.

Lemma refused_tx_pays_nothing_witness :
  GetBalance (st_bank Example.handled) "rich" "udo" = 8700 /\
  check_deposits (st_env Example.start) (GetMsgs (Example.proposal_tx 150 300)) = Ok tt.
Proof.
  split; [vm_compute; reflexivity|].
  destruct (@refused_tx_pays_nothing ledger Example.Env _ _ _ _ _ _ Example.memo_json
    Example.passing Example.options Example.handler Example.ctx (Example.proposal_tx 150 300)
    Example.start (Ok (mkActx (a_ctx Example.ctx) (MinGasPrices Example.ctx) 0)) Example.handled)
    as (_ & _ & H); [|reflexivity| | |exact H].
  - intros name ctx tx simulate next s r s' E. right. split; [exact I|]. exists ctx, s. auto.
  - unfold Example.handled. apply run_eq. vm_compute. reflexivity.
  - intros E. assert (GetBalance (st_bank Example.handled) "rich" "udo" = 9000) as Hb
      by (rewrite E; reflexivity).
    vm_compute in Hb. discriminate.
Defined.
