(* ===== verification/StakingHook.v ===== *)
(** * The limit on a validator's voting power

    [src/custom/staking/hook.go]: after a delegation changed, the staking
    module calls the hook, whose error rejects the change.  On the main
    network a validator may hold at most a fifth of the bonded power.
    [src/custom/staking/query_server.go]: the staking parameters a query at a
    historical height sees.  The staking keeper, the query server and the old
    parameter store belong to the SDK and are parameters. *)
From stdpp Require Import base gmap sets list strings fin_maps.
From Stdlib Require Import ZArith Lia.
From S2P Require Import Prelude Core Sdk SdkRef Dyncomm.
#[local] Open Scope Z_scope.

Class StakingReader (K : Type) : Type := {
  GetValidator : K -> string -> res SValidator;
  GetAllValidators : K -> res (list SValidator);
  PowerReduction : K -> Z;
}.

Section hook.
Context `{MathOps} {K : Type} `{!StakingReader K}.
Implicit Type k : K.

Definition ErrPowerLimit : error := Plain "validator power is over the allowed limit".

(** The loop over the validators: the power of the bonded ones. *)
Definition add_power k (totalPower : Z) (val : SValidator) : res Z :=
  if Bonded val then
    valPower ← TokensToConsensusPower (Tokens val) (PowerReduction k);
    Ok (i64 (totalPower + valPower))
  else Ok totalPower.

(** An error of the keeper lets the change pass. *)
Definition AfterDelegationModified (ctx : Ctx) k (valAddr : string) : res unit :=
  if negb (String.eqb (ChainID ctx) ColumbusChainID) then Ok tt
  else if BlockHeight ctx =? 0 then Ok tt
  else match GetValidator k valAddr with
  | Ok validator =>
      validatorPower ← TokensToConsensusPower (Tokens validator) (PowerReduction k);
      match GetAllValidators k with
      | Ok allValidators =>
          totalPower ← foldRes (add_power k) 0 allValidators;
          if totalPower =? 0 then Ok tt
          else
            validatorDelegationPercent ← DecQuo (LegacyNewDec validatorPower) (LegacyNewDec totalPower);
            if LegacyNewDecWithPrec 20 2 <? validatorDelegationPercent then Err ErrPowerLimit
            else Ok tt
      | Err _ => Ok tt
      | Panic => Panic
      end
  | Err _ => Ok tt
  | Panic => Panic
  end.

End hook.

(** The other hooks do nothing. *)
Definition other_hook : res unit := Ok tt.

(** ** query_server.go *)
Record LegacyParams := mkLegacyParams {
  UnbondingTime : Z; MaxValidators : Z; MaxEntries : Z; HistoricalEntries : Z; BondDenom : string;
}.
Record StakingParams := mkStakingParams { sp_Legacy : LegacyParams; sp_MinCommissionRate : Z }.

(** The old parameter store, read with the key table of one or the other
    version; a missing parameter panics. *)
Class LegacySubspace (S : Type) : Type := {
  GetParamSet_V1 : S -> res LegacyParams;
  GetParamSet_V2 : S -> res StakingParams;
}.

Section queries.
Context {S : Type} `{!LegacySubspace S} {Req Resp : Type}.

(** [stored] is the keeper's parameters in the context of the query; the
    error of [SetParams] is not looked at. *)
Definition ensureLegacyParams (ctx : Ctx) (subspace : S) (stored : StakingParams) : res StakingParams :=
  match GetLegacyHandling (ChainID ctx) (BlockHeight ctx) with
  | LegacyHandlingV1 =>
      params ← GetParamSet_V1 subspace;
      Ok (mkStakingParams
            (mkLegacyParams (UnbondingTime params) (MaxValidators params) (MaxEntries params)
               (HistoricalEntries params) (BondDenom params)) LegacyZeroDec)
  | LegacyHandlingV2 => GetParamSet_V2 subspace
  | LegacyHandlingNone => Ok stored
  end.

(** Every query runs the original one with these parameters. *)
Definition forward (query : Ctx -> StakingParams -> Req -> res Resp) (ctx : Ctx) (subspace : S)
    (stored : StakingParams) (req : Req) : res Resp :=
  params ← ensureLegacyParams ctx subspace stored; query ctx params req.

End queries.

(** ** The limit *)
Section limit.
Context `{MathLaws} {K : Type} `{!StakingReader K}.
Implicit Type k : K.

(** The power of a validator, and of all bonded ones. *)
Definition power k (v : SValidator) : Z := Z.quot (Tokens v) (PowerReduction k).
Definition bonded_power k (vs : list SValidator) : Z :=
  Zsum (map (fun v => if Bonded v then power k v else 0) vs).

Lemma power_ok k v : PowerReduction k <> 0 -> is_i64 (power k v) ->
  TokensToConsensusPower (Tokens v) (PowerReduction k) = Ok (power k v).
Proof.
  intros Hr Hp. unfold TokensToConsensusPower. rewrite IntQuo_nz by done. simpl.
  unfold Int64, power in *. by rewrite bool_decide_true.
Qed.

Lemma power_nonneg k v : 0 < PowerReduction k -> 0 <= Tokens v -> 0 <= power k v.
Proof. intros. unfold power. by apply Z.quot_pos. Qed.

Lemma bonded_nonneg k vs : 0 < PowerReduction k -> Forall (fun v => 0 <= Tokens v) vs ->
  0 <= bonded_power k vs.
Proof.
  intros Hr. unfold bonded_power. induction 1 as [|v vs Hv Hvs IH]; simpl; [lia|].
  pose proof (power_nonneg k v Hr Hv). unfold Zsum in *. simpl. destruct (Bonded v); lia.
Qed.

Lemma total_ok k vs : 0 < PowerReduction k -> Forall (fun v => 0 <= Tokens v) vs ->
  forall acc, 0 <= acc -> acc + bonded_power k vs < 2 ^ 63 ->
  foldRes (add_power k) acc vs = Ok (acc + bonded_power k vs).
Proof.
  intros Hr. induction 1 as [|v vs Hv Hvs IH]; intros acc Ha Hb.
  - unfold bonded_power. simpl. f_equal. unfold Zsum. simpl. lia.
  - assert (bonded_power k (v :: vs) = (if Bonded v then power k v else 0) + bonded_power k vs) as E
      by done.
    pose proof (bonded_nonneg k vs Hr Hvs). pose proof (power_nonneg k v Hr Hv).
    rewrite E in *. cbn [foldRes]. unfold add_power at 2. destruct (Bonded v).
    + rewrite power_ok by (unfold is_i64; lia). cbn [mbind res_bind].
      replace (i64 (acc + power k v)) with (acc + power k v)
        by (unfold i64; rewrite Z.mod_small by lia; lia).
      rewrite IH by lia. f_equal. lia.
    + cbn [mbind res_bind]. by rewrite IH by lia.
Qed.

(** The rounded quotient decides the exact comparison. *)
Lemma percent_exact p t q : 0 <= p -> 0 < t <= 10 ^ 17 ->
  DecQuo (LegacyNewDec p) (LegacyNewDec t) = Ok q ->
  (LegacyNewDecWithPrec 20 2 <? q) = (t <? 5 * p).
Proof.
  intros Hp Ht E%DecQuo_inv. unfold LegacyNewDec, LegacyNewDecWithPrec, Precision in *.
  assert (2 * 10 ^ 18 * Z.abs (q * t - p * 10 ^ 18) <= (10 ^ 18 + 2) * t) as B by nia.
  change (20 * 10 ^ (18 - 2)) with 200000000000000000 in *.
  destruct (Z.ltb_spec t (5 * p)); [apply Z.ltb_lt|apply Z.ltb_ge]; nia.
Qed.

(** C32: On the main network after genesis, a change that leaves a validator
    with more than a fifth of the bonded power is refused, and no other
    change is.  The powers are whole numbers and the total is at most
    [10 ^ 17], so that rounding the share does not matter. *)
Theorem power_limit_enforced ctx k valAddr v vs :
  ChainID ctx = ColumbusChainID -> BlockHeight ctx <> 0 ->
  GetValidator k valAddr = Ok v -> GetAllValidators k = Ok vs ->
  0 < PowerReduction k -> 0 <= Tokens v -> Forall (fun v => 0 <= Tokens v) vs ->
  power k v < 2 ^ 63 -> 0 < bonded_power k vs <= 10 ^ 17 ->
  AfterDelegationModified ctx k valAddr =
    if bonded_power k vs <? 5 * power k v then Err ErrPowerLimit else Ok tt.
Proof.
  intros Hc Hh Hv Hvs Hr Ht Hts Hp Hb. unfold AfterDelegationModified.
  rewrite Hc, String.eqb_refl, (proj2 (Z.eqb_neq _ _) Hh), Hv. cbn [negb].
  pose proof (power_nonneg k v Hr Ht).
  rewrite power_ok by (unfold is_i64; lia). cbn [mbind res_bind]. rewrite Hvs.
  rewrite total_ok by (done || lia). rewrite Z.add_0_l. cbn [mbind res_bind].
  rewrite (proj2 (Z.eqb_neq _ _)) by lia.
  destruct (is_ok_ex (DecQuo (LegacyNewDec (power k v)) (LegacyNewDec (bonded_power k vs)))) as [q Eq].
  { apply DecQuo_ok; unfold LegacyNewDec, dec_safe, Precision; nia. }
  rewrite Eq. cbn [mbind res_bind]. by rewrite (percent_exact (power k v) (bonded_power k vs) q).
Qed.

(** When the keeper cannot read the validator or the list of validators
    the change passes, whatever power it gives. *)
Theorem unreadable_power_passes ctx k valAddr e :
  GetValidator k valAddr = Err e \/
  (exists v, GetValidator k valAddr = Ok v /\ is_i64 (power k v) /\ PowerReduction k <> 0 /\
     GetAllValidators k = Err e) ->
  AfterDelegationModified ctx k valAddr = Ok tt.
Proof.
  intros Hk. unfold AfterDelegationModified.
  destruct (String.eqb _ _); [|done]. cbn [negb]. destruct (BlockHeight ctx =? 0); [done|].
  destruct Hk as [->|(v & -> & Hp & Hr & Hvs)]; [done|].
  rewrite power_ok by done. cbn [mbind res_bind]. by rewrite Hvs.
Qed.

End limit.

(** ** Examples *)
Module Example.

#[export] Instance reader : StakingReader (list SValidator) := {
  GetValidator vs a :=
    match List.find (fun v => String.eqb (OperatorAddress v) a) vs with
    | Some v => Ok v | None => Err (Foreign "no validator") end;
  GetAllValidators vs := Ok vs;
  PowerReduction _ := 10 ^ 6;
}.

Definition val (a : string) (tokens : Z) (bonded : bool) : SValidator :=
  mkSValidator a tokens bonded (mkCommission 0 0 0 0).
Definition vals : list SValidator :=
  [val "small" (4 * 10 ^ 6) true; val "large" (11 * 10 ^ 6) true; val "idle" (90 * 10 ^ 6) false;
   val "other" (37 * 10 ^ 6) true].
Definition main : Ctx := mkCtx 10 0 ColumbusChainID false false.

End Example.

#[local] Existing Instance Example.reader.

Lemma power_limit_enforced_witness :
  AfterDelegationModified Example.main Example.vals "large" = Err ErrPowerLimit /\
  AfterDelegationModified Example.main Example.vals "small" = Ok tt.
Proof.
  split.
  - rewrite (power_limit_enforced Example.main Example.vals "large"
      (Example.val "large" (11 * 10 ^ 6) true) Example.vals); try done.
    repeat constructor; done.
  - rewrite (power_limit_enforced Example.main Example.vals "small"
      (Example.val "small" (4 * 10 ^ 6) true) Example.vals); try done.
    repeat constructor; done.
Defined.

Lemma unreadable_power_passes_witness :
  AfterDelegationModified Example.main Example.vals "unknown" = Ok tt.
Proof.
  apply (unreadable_power_passes Example.main Example.vals "unknown" (Foreign "no validator")).
  by left.
Defined.
