(* ===== verification/WasmKeys.v ===== *)
(** * Byte keys, stores and the two key layouts of the wasm module

    Byte strings with Go's ordering, key-value stores with their iterators,
    and the key builders of both layouts: the current one
    ([third_party/wasmd/x/wasm/types/keys.go]) and the one the chain used
    before the upgrade v13 ([app/upgrades/v13/constants.go], [helper.go]). *)
From stdpp Require Import base gmap sets list strings fin_maps sorting.
From Stdlib Require Import ZArith Lia.
From S2P Require Import Prelude.
#[local] Open Scope Z_scope.

Notation bytes := (list Z).

Definition is_byte (c : Z) : Prop := 0 <= c < 256.

(** [bytes.Compare] *)
Fixpoint Compare (a b : bytes) : comparison :=
  match a, b with
  | [], [] => Eq
  | [], _ => Lt
  | _, [] => Gt
  | x :: a, y :: b => match x ?= y with Eq => Compare a b | c => c end
  end.

Definition bytes_leb (a b : bytes) : bool :=
  match Compare a b with Gt => false | _ => true end.
Definition bytes_ltb (a b : bytes) : bool :=
  match Compare a b with Lt => true | _ => false end.

(** ** Stores

    A store maps keys to values.  [Iterator] visits the keys from [start] on
    and before [end_], in ascending order; a missing bound ([nil]) is open. *)
Notation Store := (gmap bytes bytes).

Definition entry_le (x y : bytes * bytes) : Prop := bytes_leb x.1 y.1 = true.

#[export] Instance entry_le_dec : RelDecision entry_le.
Proof. intros x y. unfold entry_le. apply _. Defined.

Definition entries (s : Store) : list (bytes * bytes) := merge_sort entry_le (map_to_list s).

Definition in_range (start end_ : option bytes) (k : bytes) : bool :=
  match start with Some b => bytes_leb b k | None => true end &&
  match end_ with Some e => bytes_ltb k e | None => true end.

Definition Iterator (s : Store) (start end_ : option bytes) : list (bytes * bytes) :=
  base.filter (fun kv => in_range start end_ kv.1 = true) (entries s).

Definition ReverseIterator (s : Store) (start end_ : option bytes) : list (bytes * bytes) :=
  reverse (Iterator s start end_).

(** ** What the SDK provides

    [PrefixEndBytes] is the end of the range of the keys with a prefix;
    [VerifyAddressFormat] applies the verifier of the configuration;
    [MustLengthPrefix] writes the length before an address. *)
Class KeyLib := {
  PrefixEndBytes : bytes -> option bytes;
  VerifyAddressFormat : (bytes -> res unit) -> bytes -> res unit;
  MustLengthPrefix : bytes -> res bytes;
}.

Class KeyLaws `{KeyLib} : Prop := {
  PrefixEndBytes_range : forall p k, p <> [] -> Forall is_byte p -> Forall is_byte k ->
    in_range (Some p) (PrefixEndBytes p) k = bool_decide (p `prefix_of` k);
  PrefixEndBytes_last : forall p c, c <> 255 -> PrefixEndBytes (p ++ [c]) = Some (p ++ [c + 1]);
  PrefixEndBytes_full : forall p, PrefixEndBytes (p ++ [255]) = PrefixEndBytes p;
  VerifyAddressFormat_verifier : forall v b, VerifyAddressFormat v b = v b;
  MustLengthPrefix_ok : forall b, 0 < Z.of_nat (length b) < 256 ->
    MustLengthPrefix b = Ok (Z.of_nat (length b) :: b);
}.

(** [binary.BigEndian]: the eight bytes of a 64-bit number. *)
Definition Uint64ToBigEndian (n : Z) : bytes :=
  map (fun i => Z.land (Z.shiftr n (8 * i)) 255) [7; 6; 5; 4; 3; 2; 1; 0].

(** [copy(r[off:], src)]: overwrites as much of [r] as there is room for. *)
Definition copy_at (r : bytes) (off : nat) (src : bytes) : bytes :=
  take off r ++ take (length r - off) src ++ drop (off + length src) r.

Definition make (n : nat) : bytes := replicate n 0.

(** ** third_party/wasmd/x/wasm/types *)
Definition ContractAddrLen : nat := 32.
Definition SDKAddrLen : nat := 20.

Definition VerifyAddressLen (addr : bytes) : res unit :=
  if negb (Nat.eqb (length addr) ContractAddrLen) && negb (Nat.eqb (length addr) SDKAddrLen)
  then Err (SdkError "ErrInvalidAddress") else Ok tt.

Module wasmtypes.

Definition CodeKeyPrefix : bytes := [0x01].
Definition ContractKeyPrefix : bytes := [0x02].
Definition ContractStorePrefix : bytes := [0x03].
Definition SequenceKeyPrefix : bytes := [0x04].
Definition ContractCodeHistoryElementPrefix : bytes := [0x05].
Definition ContractByCodeIDAndCreatedSecondaryIndexPrefix : bytes := [0x06].
Definition PinnedCodeIndexPrefix : bytes := [0x07].
Definition TXCounterPrefix : bytes := [0x08].
Definition ContractsByCreatorPrefix : bytes := [0x09].
Definition ParamsKey : bytes := [0x10].

(** The bytes of an ASCII text. *)
Definition text (s : string) : bytes :=
  map (fun a => Z.of_nat (Ascii.nat_of_ascii a)) (String.list_ascii_of_string s).

Definition KeySequenceCodeID : bytes := SequenceKeyPrefix ++ text "lastCodeId".
Definition KeySequenceInstanceID : bytes := SequenceKeyPrefix ++ text "lastContractId".

Definition AbsoluteTxPositionLen : nat := 16.

Record AbsoluteTxPosition := { BlockHeight : Z; TxIndex : Z }.

Record ContractCodeHistoryEntry := { CodeID : Z; Updated : option AbsoluteTxPosition }.

Definition AbsoluteTxPosition_Bytes (a : option AbsoluteTxPosition) : res bytes :=
  match a with
  | None => Panic
  | Some a =>
      let r := make AbsoluteTxPositionLen in
      let r := copy_at r 0 (Uint64ToBigEndian (BlockHeight a)) in
      Ok (copy_at r 8 (Uint64ToBigEndian (TxIndex a)))
  end.

Definition GetCodeKey (codeID : Z) : bytes := CodeKeyPrefix ++ Uint64ToBigEndian codeID.
Definition GetContractAddressKey (addr : bytes) : bytes := ContractKeyPrefix ++ addr.
Definition GetContractStorePrefix (addr : bytes) : bytes := ContractStorePrefix ++ addr.

Definition GetContractsByCreatorPrefix `{KeyLib} (addr : bytes) : res bytes :=
  bz ← MustLengthPrefix addr; Ok (ContractsByCreatorPrefix ++ bz).

Definition GetContractByCodeIDSecondaryIndexPrefix (codeID : Z) : bytes :=
  let prefixLen := length ContractByCodeIDAndCreatedSecondaryIndexPrefix in
  let r := make (prefixLen + 8) in
  let r := copy_at r 0 ContractByCodeIDAndCreatedSecondaryIndexPrefix in
  copy_at r prefixLen (Uint64ToBigEndian codeID).

Definition GetContractByCreatedSecondaryIndexKey (contractAddr : bytes)
    (c : ContractCodeHistoryEntry) : res bytes :=
  let prefix := GetContractByCodeIDSecondaryIndexPrefix (CodeID c) in
  let prefixLen := length prefix in
  let r := make (prefixLen + AbsoluteTxPositionLen + length contractAddr) in
  let r := copy_at r 0 prefix in
  position ← AbsoluteTxPosition_Bytes (Updated c);
  let r := copy_at r prefixLen position in
  Ok (copy_at r (prefixLen + AbsoluteTxPositionLen) contractAddr).

Definition GetContractCodeHistoryElementPrefix (contractAddr : bytes) : bytes :=
  let prefixLen := length ContractCodeHistoryElementPrefix in
  let r := make (prefixLen + length contractAddr) in
  let r := copy_at r 0 ContractCodeHistoryElementPrefix in
  copy_at r prefixLen contractAddr.

Definition GetContractCodeHistoryElementKey (contractAddr : bytes) (pos : Z) : bytes :=
  let prefix := GetContractCodeHistoryElementPrefix contractAddr in
  let r := copy_at (make (length prefix + 8)) 0 prefix in
  copy_at r (length prefix) (Uint64ToBigEndian pos).

Definition GetPinnedCodeIndexPrefix (codeID : Z) : bytes :=
  let prefixLen := length PinnedCodeIndexPrefix in
  let r := copy_at (make (prefixLen + 8)) 0 PinnedCodeIndexPrefix in
  copy_at r prefixLen (Uint64ToBigEndian codeID).

End wasmtypes.

(** ** app/upgrades/v13/constants.go *)
Record LegacyPrefix := {
  lp_KeySequenceCodeID : bytes;
  lp_KeySequenceInstanceID : bytes;
  lp_CodeKeyPrefix : bytes;
  lp_ContractKeyPrefix : bytes;
  lp_ContractStorePrefix : bytes;
  lp_ContractCodeHistoryElementPrefix : bytes;
  lp_PinnedCodeIndexPrefix : bytes;
  lp_TXCounterPrefix : bytes;
  lp_ContractsByCreatorPrefix : bytes;
  lp_ContractByCodeIDAndCreatedSecondaryIndexPrefix : bytes;
  lp_ParamsKey : bytes;
  lp_AbsoluteTxPositionLen : nat;
}.

Definition LegacyPrefixes : LegacyPrefix := {|
  lp_KeySequenceCodeID := [0x01];
  lp_KeySequenceInstanceID := [0x02];
  lp_CodeKeyPrefix := [0x03];
  lp_ContractKeyPrefix := [0x04];
  lp_ContractStorePrefix := [0x05];
  lp_ContractCodeHistoryElementPrefix := [0x06];
  lp_PinnedCodeIndexPrefix := [0x07];
  lp_TXCounterPrefix := [0x08];
  lp_ContractsByCreatorPrefix := [0x09];
  lp_ContractByCodeIDAndCreatedSecondaryIndexPrefix := [0x10];
  lp_ParamsKey := [0x11];
  lp_AbsoluteTxPositionLen := 16;
|}.

(** ** app/upgrades/v13/helper.go *)
Definition GetContractByCodeIDSecondaryIndexPrefixLegacy (codeID : Z) : bytes :=
  let prefixLen := length (lp_ContractByCodeIDAndCreatedSecondaryIndexPrefix LegacyPrefixes) in
  let r := make (prefixLen + 8) in
  let r := copy_at r 0 (lp_ContractByCodeIDAndCreatedSecondaryIndexPrefix LegacyPrefixes) in
  copy_at r prefixLen (Uint64ToBigEndian codeID).

Definition GetContractByCreatedSecondaryIndexKeyLegacy (contractAddr : bytes)
    (c : wasmtypes.ContractCodeHistoryEntry) : res bytes :=
  let prefix := GetContractByCodeIDSecondaryIndexPrefixLegacy (wasmtypes.CodeID c) in
  let prefixLen := length prefix in
  let r := make (prefixLen + (lp_AbsoluteTxPositionLen LegacyPrefixes) + length contractAddr) in
  let r := copy_at r 0 prefix in
  position ← wasmtypes.AbsoluteTxPosition_Bytes (wasmtypes.Updated c);
  let r := copy_at r prefixLen position in
  Ok (copy_at r (prefixLen + (lp_AbsoluteTxPositionLen LegacyPrefixes)) contractAddr).

Definition GetContractsByCreatorPrefixLegacy `{KeyLib} (addr : bytes) : res bytes :=
  bz ← MustLengthPrefix addr; Ok ((lp_ContractsByCreatorPrefix LegacyPrefixes) ++ bz).

Definition GetPinnedCodeIndexPrefixLegacy (codeID : Z) : bytes :=
  let prefixLen := length (lp_PinnedCodeIndexPrefix LegacyPrefixes) in
  let r := copy_at (make (prefixLen + 8)) 0 (lp_PinnedCodeIndexPrefix LegacyPrefixes) in
  copy_at r prefixLen (Uint64ToBigEndian codeID).

Definition GetCodeKeyLegacy `{KeyLib} (addr : bytes) : res bytes :=
  bz ← MustLengthPrefix addr; Ok ((lp_CodeKeyPrefix LegacyPrefixes) ++ bz).

Definition GetContractAddressKeyLegacy `{KeyLib} (addr : bytes) : res bytes :=
  bz ← MustLengthPrefix addr; Ok ((lp_ContractKeyPrefix LegacyPrefixes) ++ bz).

Definition GetContractStorePrefixLegacy `{KeyLib} (addr : bytes) : res bytes :=
  bz ← MustLengthPrefix addr; Ok ((lp_ContractStorePrefix LegacyPrefixes) ++ bz).

Definition GetContractCodeHistoryElementPrefixLegacy (contractAddr : bytes) : bytes :=
  let prefixLen := length (lp_ContractCodeHistoryElementPrefix LegacyPrefixes) in
  let r := make (prefixLen + length contractAddr) in
  let r := copy_at r 0 (lp_ContractCodeHistoryElementPrefix LegacyPrefixes) in
  copy_at r prefixLen contractAddr.

Definition GetContractCodeHistoryElementKeyLegacy (contractAddr : bytes) (pos : Z) : bytes :=
  let prefix := GetContractCodeHistoryElementPrefixLegacy contractAddr in
  let r := copy_at (make (length prefix + 8)) 0 prefix in
  copy_at r (length prefix) (Uint64ToBigEndian pos).

(** ** Byte order *)
Lemma Compare_refl a : Compare a a = Eq.
Proof. induction a as [|x a IH]; simpl; [done|]. by rewrite Z.compare_refl. Qed.

Lemma Compare_eq a b : Compare a b = Eq -> a = b.
Proof.
  revert b. induction a as [|x a IH]; intros [|y b]; simpl; try done.
  destruct (x ?= y) eqn:E; try done. intros H.
  apply Z.compare_eq in E. by rewrite E, (IH b).
Qed.

Lemma Compare_antisym a b : Compare b a = CompOpp (Compare a b).
Proof.
  revert b. induction a as [|x a IH]; intros [|y b]; simpl; try done.
  rewrite (Z.compare_antisym x y). destruct (x ?= y); simpl; [apply IH|done..].
Qed.

Lemma bytes_leb_trans a b c :
  bytes_leb a b = true -> bytes_leb b c = true -> bytes_leb a c = true.
Proof.
  unfold bytes_leb. revert b c.
  induction a as [|x a IH]; intros [|y b] [|z c]; simpl; try done.
  destruct (Z.compare_spec x y), (Z.compare_spec y z); try done; subst.
  - rewrite Z.compare_refl. apply IH.
  - intros _ _. by destruct (Z.compare_spec y z); try lia.
  - intros _ _. by destruct (Z.compare_spec x z); try lia.
  - intros _ _. by destruct (Z.compare_spec x z); try lia.
Qed.

#[export] Instance entry_le_trans : Transitive entry_le.
Proof. intros x y z. apply bytes_leb_trans. Qed.

#[export] Instance entry_le_total : Total entry_le.
Proof.
  intros x y. unfold entry_le, bytes_leb. rewrite (Compare_antisym x.1 y.1).
  destruct (Compare x.1 y.1); simpl; auto.
Qed.

Lemma bytes_leb_antisym a b : bytes_leb a b = true -> bytes_leb b a = true -> a = b.
Proof.
  unfold bytes_leb. rewrite (Compare_antisym a b).
  destruct (Compare a b) eqn:E; simpl; try done. intros. by apply Compare_eq.
Qed.

(** A common prefix does not matter. *)
Lemma Compare_app p a b : Compare (p ++ a) (p ++ b) = Compare a b.
Proof. induction p as [|x p IH]; simpl; [done|]. by rewrite Z.compare_refl. Qed.

(** ** Iterators *)
Lemma elem_of_entries (s : Store) k v : (k, v) ∈ entries s <-> s !! k = Some v.
Proof. unfold entries. by rewrite merge_sort_Permutation, elem_of_map_to_list. Qed.

Lemma store_entries_nodup (s : Store) : NoDup (entries s).*1.
Proof. unfold entries. rewrite merge_sort_Permutation. apply NoDup_fst_map_to_list. Qed.

Lemma entries_sorted (s : Store) : StronglySorted entry_le (entries s).
Proof. apply (StronglySorted_merge_sort _). Qed.

Lemma elem_of_Iterator (s : Store) b e k v :
  (k, v) ∈ Iterator s b e <-> s !! k = Some v /\ in_range b e k = true.
Proof. unfold Iterator. rewrite list_elem_of_filter, elem_of_entries. simpl. tauto. Qed.

Lemma nodup_fst_filter {A B} (P : A * B -> Prop) `{!forall x, Decision (P x)} (l : list (A * B)) :
  NoDup l.*1 -> NoDup (base.filter P l).*1.
Proof.
  induction l as [|x l IH]; [done|]. rewrite fmap_cons, filter_cons, list.NoDup_cons.
  intros [Hx Hl]. case_decide; [|by apply IH]. rewrite fmap_cons, list.NoDup_cons.
  split; [|by apply IH]. contradict Hx. apply list_elem_of_fmap in Hx as (y & -> & Hy).
  apply list_elem_of_filter in Hy as [_ Hy]. by apply list_elem_of_fmap_2.
Qed.

Lemma Iterator_nodup (s : Store) b e : NoDup (Iterator s b e).*1.
Proof. apply nodup_fst_filter, store_entries_nodup. Qed.

Lemma strongly_sorted_filter {A} (R : A -> A -> Prop) (P : A -> Prop)
    `{!forall x, Decision (P x)} (l : list A) :
  StronglySorted R l -> StronglySorted R (base.filter P l).
Proof.
  induction 1 as [|x l Hl IH Hx]; [constructor|]. rewrite filter_cons.
  case_decide; [|done]. constructor; [done|].
  rewrite list.Forall_forall in Hx |- *. intros y [_ Hy]%list_elem_of_filter. auto.
Qed.

Lemma Iterator_sorted (s : Store) b e : StronglySorted entry_le (Iterator s b e).
Proof. apply strongly_sorted_filter, entries_sorted. Qed.

(** Two sorted lists with distinct keys and the same entries are equal. *)
Lemma sorted_entries_eq (l1 l2 : list (bytes * bytes)) :
  StronglySorted entry_le l1 -> StronglySorted entry_le l2 ->
  NoDup l1.*1 -> NoDup l2.*1 -> (forall kv, kv ∈ l1 <-> kv ∈ l2) -> l1 = l2.
Proof.
  intros S1 S2 N1 N2 He.
  pose proof (NoDup_fmap_1 _ _ N1) as H1'.
  pose proof (NoDup_fmap_1 _ _ N2) as H2'.
  assert (l1 ≡ₚ l2) as Hp by (apply NoDup_Permutation; done).
  refine (StronglySorted_unique_strong entry_le l1 l2 _ S1 S2 Hp).
  intros [k1 v1] [k2 v2] Ha Hb Hab Hba.
  assert (k1 = k2) as -> by by apply bytes_leb_antisym.
  f_equal. apply He in Hb.
  destruct (list_elem_of_lookup_1 _ _ Ha) as [i Hi], (list_elem_of_lookup_1 _ _ Hb) as [j Hj].
  assert (i = j) as ->.
  { eapply NoDup_lookup; [exact N1|rewrite list_lookup_fmap, Hi; done|rewrite list_lookup_fmap, Hj; done]. }
  congruence.
Qed.

(** ** Buffers *)
Lemma copy_fill n src : (length src <= n)%nat ->
  copy_at (make n) 0 src = src ++ make (n - length src).
Proof.
  intros. unfold copy_at, make. rewrite length_replicate, (take_ge src), drop_replicate by lia.
  by rewrite take_0.
Qed.

Lemma copy_next p n src : (length src <= n)%nat ->
  copy_at (p ++ make n) (length p) src = (p ++ src) ++ make (n - length src).
Proof.
  intros. unfold copy_at, make. rewrite length_app, length_replicate.
  rewrite take_app_length, (take_ge src) by lia.
  rewrite drop_app_ge, drop_replicate by lia. rewrite <- app_assoc. do 3 f_equal. lia.
Qed.

Lemma Uint64_length n : length (Uint64ToBigEndian n) = 8%nat.
Proof. done. Qed.

(** Writing two or three parts one after the other fills the buffer. *)
Lemma two_parts a b n : n = (length a + length b)%nat ->
  copy_at (copy_at (make n) 0 a) (length a) b = a ++ b.
Proof.
  intros ->. rewrite copy_fill, copy_next by lia.
  replace (_ - _ - _)%nat with 0%nat by lia. apply app_nil_r.
Qed.

Lemma three_parts a b c n : n = (length a + length b + length c)%nat ->
  copy_at (copy_at (copy_at (make n) 0 a) (length a) b) (length a + length b) c = a ++ b ++ c.
Proof.
  intros ->. rewrite copy_fill, copy_next by lia.
  rewrite <- (length_app a b), copy_next by (rewrite length_app; lia).
  replace (_ - _ - _ - _)%nat with 0%nat by (rewrite length_app; lia). rewrite app_nil_r. symmetry. apply app_assoc.
Qed.

Lemma position_bytes p :
  wasmtypes.AbsoluteTxPosition_Bytes (Some p) =
    Ok (Uint64ToBigEndian (wasmtypes.BlockHeight p) ++ Uint64ToBigEndian (wasmtypes.TxIndex p)).
Proof. done. Qed.

(** The history and index keys of the two layouts differ in the prefix only. *)
Lemma history_keys a pos :
  GetContractCodeHistoryElementKeyLegacy a pos = 6 :: a ++ Uint64ToBigEndian pos /\
  wasmtypes.GetContractCodeHistoryElementKey a pos = 5 :: a ++ Uint64ToBigEndian pos.
Proof.
  split.
  - unfold GetContractCodeHistoryElementKeyLegacy, GetContractCodeHistoryElementPrefixLegacy.
    rewrite (two_parts [6] a) by done. by rewrite two_parts.
  - unfold wasmtypes.GetContractCodeHistoryElementKey,
      wasmtypes.GetContractCodeHistoryElementPrefix.
    rewrite (two_parts [5] a) by done. by rewrite two_parts.
Qed.

Lemma index_keys a c p : wasmtypes.Updated c = Some p ->
  exists body, GetContractByCreatedSecondaryIndexKeyLegacy a c = Ok (16 :: body) /\
    wasmtypes.GetContractByCreatedSecondaryIndexKey a c = Ok (6 :: body).
Proof.
  intros E. unfold GetContractByCreatedSecondaryIndexKeyLegacy,
    wasmtypes.GetContractByCreatedSecondaryIndexKey. rewrite E, position_bytes.
  cbn [mbind res_bind].
  set (q := _ ++ _). assert (length q = 16%nat) as Hq by done.
  eexists (_ ++ q ++ a). unfold wasmtypes.AbsoluteTxPositionLen.
  cbn [lp_AbsoluteTxPositionLen LegacyPrefixes]. rewrite <- Hq.
  rewrite !three_parts by lia.
  unfold GetContractByCodeIDSecondaryIndexPrefixLegacy, wasmtypes.GetContractByCodeIDSecondaryIndexPrefix.
  rewrite (two_parts [16]), (two_parts [6]) by done. done.
Qed.

(** ** A reference instance *)
Fixpoint prefix_end (p : bytes) : option bytes :=
  match p with
  | [] => None
  | c :: p => match prefix_end p with
              | Some e => Some (c :: e)
              | None => if c =? 255 then None else Some [c + 1]
              end
  end.

#[export] Instance key_lib : KeyLib := {
  PrefixEndBytes := prefix_end;
  VerifyAddressFormat := fun v b => v b;
  MustLengthPrefix := fun b =>
    if 255 <? Z.of_nat (length b) then Panic
    else match b with [] => Ok [] | _ => Ok (Z.of_nat (length b) :: b) end;
}.

Lemma prefix_end_none p : prefix_end p = None -> Forall (fun c => c = 255) p.
Proof.
  induction p as [|c p IH]; simpl; [constructor|].
  destruct (prefix_end p); [done|]. destruct (Z.eqb_spec c 255); [|done]. constructor; auto.
Qed.

Lemma full_prefix p k : Forall (fun c => c = 255) p -> Forall is_byte k ->
  bytes_leb p k = bool_decide (p `prefix_of` k).
Proof.
  intros Hp. revert k. induction Hp as [|c p -> Hp IH]; intros k Hk.
  - rewrite bool_decide_true by apply prefix_nil. by destruct k.
  - destruct k as [|x k].
    { rewrite bool_decide_false; [done|]. by intros [? [=]]. }
    apply Forall_cons in Hk as [Hx Hk]. specialize (IH k Hk).
    unfold bytes_leb in *. cbn [Compare]. unfold is_byte in Hx.
    destruct (Z.compare_spec 255 x); [|lia|].
    + subst. cbn iota. rewrite IH. apply bool_decide_ext. split; [apply prefix_cons|].
      apply prefix_cons_inv_2.
    + rewrite bool_decide_false; [done|]. intros ?%prefix_cons_inv_1. lia.
Qed.

Lemma prefix_end_range p k : p <> [] -> Forall is_byte p -> Forall is_byte k ->
  in_range (Some p) (prefix_end p) k = bool_decide (p `prefix_of` k).
Proof.
  intros Hn Hp. revert k. induction Hp as [|c p Hc Hp IH]; [done|]. clear Hn.
  intros [|x k] Hk.
  { rewrite bool_decide_false; [done|]. by intros [? [=]]. }
  apply Forall_cons in Hk as [Hx Hk].
  destruct (decide (x = c)) as [->|Hne].
  - replace (bool_decide (c :: p `prefix_of` c :: k)) with (bool_decide (p `prefix_of` k))
      by (apply bool_decide_ext; split; [apply prefix_cons|apply prefix_cons_inv_2]).
    cbn [prefix_end]. destruct (prefix_end p) as [e|] eqn:E.
    + destruct p as [|d p]; [done|]. rewrite <- (IH ltac:(done) k Hk).
      unfold in_range, bytes_leb, bytes_ltb. cbn [Compare]. by rewrite Z.compare_refl.
    + rewrite <- (full_prefix p k) by (done || by apply prefix_end_none).
      unfold in_range, bytes_leb, bytes_ltb. destruct (Z.eqb_spec c 255); cbn [Compare].
      * by rewrite Z.compare_refl, andb_true_r.
      * rewrite Z.compare_refl. destruct (Z.compare_spec c (c + 1)); try lia.
        by rewrite andb_true_r.
  - rewrite bool_decide_false by (intros ?%prefix_cons_inv_1; congruence).
    unfold in_range, bytes_leb, bytes_ltb, is_byte in *. cbn [Compare prefix_end].
    destruct (Z.compare_spec c x); [done| |done]. simpl.
    destruct (prefix_end p) as [e|]; cbn [Compare].
    + destruct (Z.compare_spec x c); [done|lia|done].
    + destruct (Z.eqb_spec c 255); [lia|]. cbn [Compare].
      destruct (Z.compare_spec x (c + 1)); [by destruct k|lia|done].
Qed.

#[export] Instance key_laws : KeyLaws.
Proof.
  split.
  - apply prefix_end_range.
  - intros p c Hc. simpl. induction p as [|x p IH]; simpl.
    + by destruct (Z.eqb_spec c 255).
    + by rewrite IH.
  - intros p. simpl. induction p as [|x p IH]; simpl; [done|]. by rewrite IH.
  - done.
  - intros b Hb. simpl. destruct (Z.ltb_spec 255 (Z.of_nat (length b))); [lia|].
    destruct b; [simpl in Hb; lia|done].
Qed.
