(* ===== verification/WasmMigration.v ===== *)
(** * The upgrade v13: moving the wasm store to the current key layout

    [src/app/upgrades/v13/upgrades.go].  The old and the new layout use the
    same one-byte prefixes for different things, so the order of the steps
    matters.  An iteration over an old prefix is taken from the store at its
    start: the loop deletes the entry it has read and writes under another
    prefix. *)
From stdpp Require Import base gmap sets list strings fin_maps sorting.
From Stdlib Require Import ZArith Lia.
From S2P Require Import Prelude WasmKeys.
#[local] Open Scope Z_scope.

Section upgrade.
Context `{KeyLib}.

(** [store.Set], [store.Delete], [store.Get], [store.Has] *)
Definition Set_ (k v : bytes) : M Store unit := modify (<[k := v]>).
Definition Delete (k : bytes) : M Store unit := modify (delete k).
Definition Get (k : bytes) : M Store (option bytes) := gets (fun s => s !! k).
Definition Has (k : bytes) : M Store bool := gets (fun s => bool_decide (is_Some (s !! k))).

(** [prefix.NewStore(store, p).Iterator(nil, nil)]: the entries under a
    prefix, which is taken off the keys. *)
Definition prefix_Iterator (p : bytes) : M Store (list (bytes * bytes)) :=
  gets (fun s => map (fun kv => (drop (length p) kv.1, kv.2)) (Iterator s (Some p) (PrefixEndBytes p))).

Record sequenceKeys := { codeIDValue : option bytes; instanceIDValue : option bytes }.

Definition buildFullKey (prefix key : bytes) : bytes := prefix ++ key.

Definition removeLengthPrefixIfNeeded (b : bytes) : bytes * bool :=
  if is_ok (VerifyAddressFormat VerifyAddressLen b) then (b, false)
  else match b with
       | n :: payload =>
           if (1 <? Z.of_nat (length b)) && (n =? Z.of_nat (length b) - 1)
              && is_ok (VerifyAddressFormat VerifyAddressLen payload)
           then (payload, true)
           else (b, false)
       | [] => (b, false)
       end.

Definition rebuildCompositeKey (originalKey : bytes) : bytes :=
  match originalKey with
  | n :: _ =>
      if 1 <? Z.of_nat (length originalKey) then
        let candidateLen := n + 1 in
        if candidateLen <=? Z.of_nat (length originalKey) then
          let head := take (Z.to_nat candidateLen) originalKey in
          let tail := drop (Z.to_nat candidateLen) originalKey in
          let '(unprefHead, stripped) := removeLengthPrefixIfNeeded head in
          if (stripped : bool) then unprefHead ++ tail else originalKey
        else originalKey
      else originalKey
  | [] => originalKey
  end.

(** The body of the loops: write the entry under its new key, delete the old. *)
Definition move_entry (oldPrefix newPrefix : bytes) (rename : bytes -> bytes)
    (kv : bytes * bytes) : M Store unit :=
  Set_ (buildFullKey newPrefix (rename kv.1)) kv.2 ;;
  Delete (buildFullKey oldPrefix kv.1).

Definition migratePrefix (oldPrefix newPrefix : bytes) : M Store unit :=
  kvs ← prefix_Iterator oldPrefix;
  forM (move_entry oldPrefix newPrefix id) kvs.

Definition migrateContractKeys : M Store unit :=
  kvs ← prefix_Iterator (lp_ContractKeyPrefix LegacyPrefixes);
  forM (move_entry (lp_ContractKeyPrefix LegacyPrefixes) wasmtypes.ContractKeyPrefix
          (fun key => (removeLengthPrefixIfNeeded key).1)) kvs.

Definition saveSequenceKeys : M Store sequenceKeys :=
  code ← Get (lp_KeySequenceCodeID LegacyPrefixes);
  match code with
  | Some _ => Delete (lp_KeySequenceCodeID LegacyPrefixes)
  | None => mret tt
  end ;;
  inst ← Get (lp_KeySequenceInstanceID LegacyPrefixes);
  match inst with
  | Some _ => Delete (lp_KeySequenceInstanceID LegacyPrefixes)
  | None => mret tt
  end ;;
  mret {| codeIDValue := code; instanceIDValue := inst |}.

Definition zero_sequence : bytes := [0; 0; 0; 0; 0; 0; 0; 0].

Definition migrateSequenceKeys (seq : sequenceKeys) : M Store unit :=
  has ← Has wasmtypes.KeySequenceCodeID;
  (if (has : bool) then mret tt
   else Set_ wasmtypes.KeySequenceCodeID (default zero_sequence (codeIDValue seq))) ;;
  has ← Has wasmtypes.KeySequenceInstanceID;
  (if (has : bool) then mret tt
   else Set_ wasmtypes.KeySequenceInstanceID (default zero_sequence (instanceIDValue seq))).

Definition migrateContractHistoryKey : M Store unit :=
  migratePrefix (lp_ContractCodeHistoryElementPrefix LegacyPrefixes)
    wasmtypes.ContractCodeHistoryElementPrefix.

Definition migrateSecondaryIndexKeys : M Store unit :=
  kvs ← prefix_Iterator (lp_ContractByCodeIDAndCreatedSecondaryIndexPrefix LegacyPrefixes);
  forM (move_entry (lp_ContractByCodeIDAndCreatedSecondaryIndexPrefix LegacyPrefixes)
          wasmtypes.ContractByCodeIDAndCreatedSecondaryIndexPrefix id) kvs.

Definition migrateDirectContractStoreKeys (oldPrefix newPrefix : bytes) : M Store unit :=
  kvs ← prefix_Iterator oldPrefix;
  forM (move_entry oldPrefix newPrefix rebuildCompositeKey) kvs.

Definition migrateContractStoreKeys : M Store unit :=
  migrateDirectContractStoreKeys (lp_ContractStorePrefix LegacyPrefixes) wasmtypes.ContractStorePrefix.

Definition migrateParamsKey : M Store unit :=
  value ← Get (lp_ParamsKey LegacyPrefixes);
  match value with
  | None => mret tt
  | Some v => Set_ wasmtypes.ParamsKey v ;; Delete (lp_ParamsKey LegacyPrefixes)
  end.

Definition migrateCodeKeys : M Store unit :=
  kvs ← prefix_Iterator (lp_CodeKeyPrefix LegacyPrefixes);
  forM (move_entry (lp_CodeKeyPrefix LegacyPrefixes) wasmtypes.CodeKeyPrefix id) kvs.

(** The tests of the source for nil keys and values are left out: a store
    holds none. *)
Definition migrateWasmKeys : M Store unit :=
  seq ← saveSequenceKeys;
  migrateContractKeys ;;
  migrateSequenceKeys seq ;;
  migrateCodeKeys ;;
  migrateContractStoreKeys ;;
  migrateContractHistoryKey ;;
  migrateSecondaryIndexKeys ;;
  migrateParamsKey.

End upgrade.

(** ** What a wasm store holds

    The entries of the module by their meaning.  Code infos, history, index,
    pinned codes, counters and creator entries are identified by the bytes
    after the prefix, which both layouts share. *)
Inductive wasm_key : Type :=
| KCodeSequence
| KInstanceSequence
| KParams
| KCode (body : bytes)
| KContract (addr : bytes)
| KState (addr key : bytes)
| KHistory (body : bytes)
| KIndex (body : bytes)
| KPinned (body : bytes)
| KTxCounter (body : bytes)
| KCreator (body : bytes).

(** Where each entry lies before and after the upgrade. *)
Definition old_key (k : wasm_key) : bytes :=
  match k with
  | KCodeSequence => [0x01]
  | KInstanceSequence => [0x02]
  | KCode body => 0x03 :: body
  | KContract addr => 0x04 :: Z.of_nat (length addr) :: addr
  | KState addr key => 0x05 :: Z.of_nat (length addr) :: addr ++ key
  | KHistory body => 0x06 :: body
  | KPinned body => 0x07 :: body
  | KTxCounter body => 0x08 :: body
  | KCreator body => 0x09 :: body
  | KIndex body => 0x10 :: body
  | KParams => [0x11]
  end.

Definition new_key (k : wasm_key) : bytes :=
  match k with
  | KCode body => 0x01 :: body
  | KContract addr => 0x02 :: addr
  | KState addr key => 0x03 :: addr ++ key
  | KCodeSequence => wasmtypes.KeySequenceCodeID
  | KInstanceSequence => wasmtypes.KeySequenceInstanceID
  | KHistory body => 0x05 :: body
  | KIndex body => 0x06 :: body
  | KPinned body => 0x07 :: body
  | KTxCounter body => 0x08 :: body
  | KCreator body => 0x09 :: body
  | KParams => [0x10]
  end.

(** The contents of a store, and a store that holds them in a layout. *)
Notation contents := (wasm_key -> option bytes).

Definition holds (layout : wasm_key -> bytes) (m : contents) (s : Store) : Prop :=
  forall b v, s !! b = Some v <-> exists k, layout k = b /\ m k = Some v.

(** Addresses have one of the two lengths, and no address with state begins
    with another one.  Without the second condition the current layout itself
    cannot tell the state of two contracts apart. *)
Definition address_ok (a : bytes) : Prop := length a = 20%nat \/ length a = 32%nat.

Definition key_ok (k : wasm_key) : Prop :=
  match k with KContract a => address_ok a | KState a _ => address_ok a | _ => True end.

Definition prefix_free (m : contents) : Prop :=
  forall a b x y, m (KState a x) <> None -> m (KState b y) <> None -> a `prefix_of` b -> a = b.

Definition contents_ok (m : contents) : Prop :=
  (forall k, m k <> None -> key_ok k) /\ prefix_free m.

(** The upgrade also starts the sequences that were never used. *)
Definition sequences_started (m : contents) : contents := fun k =>
  match k with
  | KCodeSequence | KInstanceSequence => Some (default zero_sequence (m k))
  | _ => m k
  end.

(** While the upgrade runs, the entries up to some stage lie in the new
    layout and the others in the old one. *)
Definition stage (k : wasm_key) : nat :=
  match k with
  | KContract _ => 1
  | KCodeSequence | KInstanceSequence => 2
  | KCode _ => 3
  | KState _ _ => 4
  | KHistory _ => 5
  | KIndex _ => 6
  | KParams => 7
  | KPinned _ | KTxCounter _ | KCreator _ => 0
  end.

Definition layout_at (n : nat) (k : wasm_key) : bytes :=
  if Nat.leb (stage k) n then new_key k else old_key k.

Definition without_sequences (m : contents) : contents := fun k =>
  match k with KCodeSequence | KInstanceSequence => None | _ => m k end.

(** ** The loops *)
Section loops.
Context `{KeyLaws}.

Lemma prefix_range a k : a <> 255 ->
  in_range (Some [a]) (PrefixEndBytes [a]) k = true <-> exists x, k = a :: x.
Proof.
  intros Ha. rewrite (PrefixEndBytes_last [] a Ha : PrefixEndBytes [a] = Some [a + 1]).
  unfold in_range, bytes_leb, bytes_ltb. destruct k as [|c x]; cbn [Compare].
  - split; [done|]. by intros [? [=]].
  - destruct (Z.compare_spec a c) as [->|Hc|Hc]; cbn iota.
    + destruct (Z.compare_spec c (c + 1)); try lia.
      split; [by exists x|]. intros _. by destruct x.
    + destruct (Z.compare_spec c (a + 1)); try lia.
      * split; [by destruct x|]. intros [? [=]]. lia.
      * split; [done|]. intros [? [=]]. lia.
    + split; [done|]. intros [? [=]]. lia.
Qed.

Lemma prefix_entries a s : a <> 255 ->
  exists kvs, prefix_Iterator [a] s = (Ok kvs, s) /\
    forall x v, (x, v) ∈ kvs <-> s !! (a :: x) = Some v.
Proof.
  intros Ha. eexists. split; [reflexivity|]. intros x v. rewrite list_elem_of_fmap. split.
  - intros ([k w] & [= -> ->] & Hkv). apply elem_of_Iterator in Hkv as [Hk Hr].
    apply (prefix_range a _ Ha) in Hr as [y ->]. done.
  - intros Hx. exists (a :: x, v). split; [done|]. apply elem_of_Iterator.
    split; [done|]. apply prefix_range; eauto.
Qed.

Definition moved (a b : Z) (f : bytes -> bytes) (s : Store) (kv : bytes * bytes) : Store :=
  delete (a :: kv.1) (<[b :: f kv.1 := kv.2]> s).

Lemma move_loop_run a b f kvs s :
  forM (move_entry [a] [b] f) kvs s = (Ok tt, foldl (moved a b f) s kvs).
Proof. revert s. induction kvs as [|kv kvs IH]; intros s; [done|]. apply IH. Qed.

(** What the loop leaves when entries with equal new keys have equal values. *)
Lemma moved_lookup a b f kvs s k v : a <> b ->
  (forall x y w u, (x, w) ∈ kvs -> (y, u) ∈ kvs -> f x = f y -> w = u) ->
  foldl (moved a b f) s kvs !! k = Some v <->
    (exists x, (x, v) ∈ kvs /\ k = b :: f x) \/
    (s !! k = Some v /\ forall x w, (x, w) ∈ kvs -> k <> a :: x /\ k <> b :: f x).
Proof.
  intros Hab. revert s. induction kvs as [|[x0 v0] kvs IH]; intros s Hf.
  - split; [|by intros [(x & Hx & _)|[? _]]; [inversion Hx|]].
    intros ?. right. split; [done|]. intros ? ? Hx. inversion Hx.
  - simpl. rewrite IH by (intros; eapply Hf; eauto using list_elem_of_further).
    unfold moved. simpl. rewrite lookup_delete_Some, lookup_insert_Some. split.
    + intros [(x & Hx & ->)|[[Hne [[<- <-]|[Hb Hk]]] Hr]].
      * left. exists x. by split; [apply list_elem_of_further|].
      * left. exists x0. by split; [apply list_elem_of_here|].
      * right. split; [done|]. intros x w [[= -> ->]|Hx]%elem_of_cons; [done|eauto].
    + intros [(x & [[= -> ->]|Hx]%elem_of_cons & ->)|[Hk Hr]].
      * destruct (decide (f x0 ∈ f <$> kvs.*1)) as [He|He].
        -- apply list_elem_of_fmap in He as (y & Hy & He).
           apply list_elem_of_fmap in He as ([y' u] & -> & Hu). simpl in Hy. left. exists y'.
           rewrite Hy. split; [|done].
           by rewrite (Hf x0 y' v0 u (list_elem_of_here _ _) (list_elem_of_further _ _ _ Hu) Hy).
        -- right. split; [split; [congruence|by left]|]. intros y w Hy. split; [congruence|].
           intros [= E]. apply He. rewrite E.
           apply (list_elem_of_fmap_2 f), (list_elem_of_fmap_2 fst _ (y, w)), Hy.
      * left. eauto.
      * right. destruct (Hr x0 v0 (list_elem_of_here _ _)) as [Ha Hb].
        split; [split; [done|]; right; done|]. intros. eapply Hr, list_elem_of_further. done.
Qed.

(** One step of the upgrade: the entries under [a] move under [b], which no
    entry uses, and the rest stays. *)
Lemma migrate_step (L L' : wasm_key -> bytes) (m : contents) a b f s :
  a <> 255 -> a <> b -> holds L m s ->
  (forall k, m k <> None ->
    (exists x, L k = a :: x /\ L' k = b :: f x) \/
    (L' k = L k /\ forall x, L k <> a :: x /\ L k <> b :: x)) ->
  (forall k1 k2 x y, m k1 <> None -> m k2 <> None ->
    L k1 = a :: x -> L k2 = a :: y -> f x = f y -> k1 = k2) ->
  exists s', (kvs ← prefix_Iterator [a]; forM (move_entry [a] [b] f) kvs) s = (Ok tt, s') /\
    holds L' m s'.
Proof.
  intros Ha Hab Hs Hk Hf. destruct (prefix_entries a s Ha) as (kvs & E & Hkvs).
  exists (foldl (moved a b f) s kvs). split.
  { rewrite (M_bind_run _ _ _ _ _ E). apply move_loop_run. }
  assert (forall x v, (x, v) ∈ kvs <-> exists k, L k = a :: x /\ m k = Some v) as Hx
    by (intros; rewrite Hkvs; apply Hs).
  intros k v. rewrite moved_lookup; [|done|].
  2:{ intros x y w u (k1 & E1 & M1)%Hx (k2 & E2 & M2)%Hx Hxy.
      assert (k1 = k2) by (eapply (Hf k1 k2 x y); congruence). congruence. }
  split.
  - intros [(x & (j & Ej & Mj)%Hx & ->)|[(j & Ej & Mj)%Hs Hr]]; exists j; split; try done.
    + destruct (Hk j) as [(y & Ey & Ey')|[_ Hn]]; [congruence| |by destruct (Hn x)].
      rewrite Ej in Ey. injection Ey as <-. done.
    + destruct (Hk j) as [(y & Ey & Ey')|[-> _]]; [congruence| |done].
      destruct (Hr y v) as [Hc _]; [|congruence]. apply Hx. eauto.
  - intros (j & Ej & Mj). destruct (Hk j) as [(y & Ey & Ey')|[Eq Hn]]; [congruence| |].
    + left. exists y. split; [apply Hx; eauto|congruence].
    + right. split; [apply Hs; exists j; split; congruence|].
      intros x w _. rewrite <- Ej, Eq. split; [apply (Hn x)|apply (Hn (f x))].
Qed.

End loops.

(** ** The steps *)
Section steps.
Context `{KeyLaws}.

Lemma verify_address a : is_ok (VerifyAddressLen a) = true <-> address_ok a.
Proof.
  unfold VerifyAddressLen, address_ok, ContractAddrLen, SDKAddrLen.
  destruct (Nat.eqb_spec (length a) 32), (Nat.eqb_spec (length a) 20); simpl;
    intuition (congruence || lia).
Qed.

Lemma strip_prefixed a : address_ok a ->
  removeLengthPrefixIfNeeded (Z.of_nat (length a) :: a) = (a, true).
Proof.
  intros Ha. unfold removeLengthPrefixIfNeeded. rewrite !VerifyAddressFormat_verifier.
  rewrite (proj2 (verify_address a) Ha).
  destruct (is_ok (VerifyAddressLen (_ :: a))) eqn:E.
  { apply verify_address in E. unfold address_ok in *. simpl in E. lia. }
  rewrite (proj2 (Z.ltb_lt _ _)) by (unfold address_ok in Ha; cbn [length]; lia).
  rewrite (proj2 (Z.eqb_eq _ _)) by (cbn [length]; lia). done.
Qed.

Lemma rebuild_state_key a key : address_ok a ->
  rebuildCompositeKey (Z.of_nat (length a) :: a ++ key) = a ++ key.
Proof.
  intros Ha. unfold rebuildCompositeKey.
  assert (length a <> 0)%nat by (unfold address_ok in Ha; lia).
  rewrite (proj2 (Z.ltb_lt _ _)) by (cbn [length]; rewrite length_app; lia).
  rewrite (proj2 (Z.leb_le _ _)) by (cbn [length]; rewrite length_app; lia).
  replace (Z.to_nat (_ + 1)) with (S (length a)) by lia. simpl.
  by rewrite take_app_length, drop_app_length, strip_prefixed.
Qed.

(** The addresses found at an old contract or state key. *)
Lemma same_state (m : contents) a b x y : contents_ok m ->
  m (KState a x) <> None -> m (KState b y) <> None -> a ++ x = b ++ y ->
  KState a x = KState b y.
Proof.
  intros [_ Hp] Ha Hb E.
  assert (a = b) as ->.
  { destruct (prefix_weak_total a b (b ++ y)) as [Hab|Hba].
    - rewrite <- E. by exists x.
    - by exists y.
    - by eapply Hp.
    - symmetry. by eapply Hp. }
  by apply app_inv_head in E as ->.
Qed.

(** Every step moves the entries of its stage: what is left to check is that
    the two prefixes are free, entry by entry. *)
Ltac layouts :=
  unfold layout_at; simpl; try (right; split; [done|]; intros x; split; discriminate).

(** The entry at a key with the prefix of a stage. *)
Ltac same_stage k E :=
  destruct k; try discriminate E; injection E as <-.

Lemma contracts_step m s : contents_ok m ->
  holds (layout_at 0) (without_sequences m) s ->
  exists s', migrateContractKeys s = (Ok tt, s') /\
    holds (layout_at 1) (without_sequences m) s'.
Proof.
  intros [Hm _] Hs. apply (migrate_step (layout_at 0) (layout_at 1) _ 4 2
    (fun key => (removeLengthPrefixIfNeeded key).1)); [done|done|done| |].
  - intros [| | |?|a|? ?|?|?|?|?|?] Hk; layouts; [done|].
    left. eexists. split; [done|]. by rewrite (strip_prefixed a) by apply (Hm _ Hk).
  - intros k1 k2 x y H1' H2' E1 E2. same_stage k1 E1. same_stage k2 E2.
    by rewrite !strip_prefixed by (apply (Hm _ H1') || apply (Hm _ H2')); intros [= ->].
Qed.

Lemma codes_step m s : holds (layout_at 2) m s ->
  exists s', migrateCodeKeys s = (Ok tt, s') /\ holds (layout_at 3) m s'.
Proof.
  intros Hs. apply (migrate_step (layout_at 2)); [done|done|done| |].
  - intros [| | |?|a|? ?|?|?|?|?|?] Hk; layouts. left. by eexists.
  - intros k1 k2 x y _ _ E1 E2. same_stage k1 E1. same_stage k2 E2. unfold id. congruence.
Qed.

Lemma states_step m s : contents_ok m -> holds (layout_at 3) m s ->
  exists s', migrateContractStoreKeys s = (Ok tt, s') /\ holds (layout_at 4) m s'.
Proof.
  intros Hm Hs. apply (migrate_step (layout_at 3) (layout_at 4) m 5 3 rebuildCompositeKey); [done|done|done| |].
  - intros [| | |?|a|a key|?|?|?|?|?] Hk; layouts.
    left. eexists. split; [done|]. by rewrite (rebuild_state_key a key) by apply (proj1 Hm _ Hk).
  - intros k1 k2 x y Ha Hb E1 E2. same_stage k1 E1. same_stage k2 E2.
    rewrite !rebuild_state_key by (apply (proj1 Hm _ Ha) || apply (proj1 Hm _ Hb)).
    by apply (same_state m).
Qed.

Lemma history_step m s : holds (layout_at 4) m s ->
  exists s', migrateContractHistoryKey s = (Ok tt, s') /\ holds (layout_at 5) m s'.
Proof.
  intros Hs. apply (migrate_step (layout_at 4)); [done|done|done| |].
  - intros [| | |?|a|? ?|?|?|?|?|?] Hk; layouts. left. by eexists.
  - intros k1 k2 x y _ _ E1 E2. same_stage k1 E1. same_stage k2 E2. unfold id. congruence.
Qed.

Lemma index_step m s : holds (layout_at 5) m s ->
  exists s', migrateSecondaryIndexKeys s = (Ok tt, s') /\ holds (layout_at 6) m s'.
Proof.
  intros Hs. apply (migrate_step (layout_at 5)); [done|done|done| |].
  - intros [| | |?|a|? ?|?|?|?|?|?] Hk; layouts. left. by eexists.
  - intros k1 k2 x y _ _ E1 E2. same_stage k1 E1. same_stage k2 E2. unfold id. congruence.
Qed.

End steps.

(** ** The whole upgrade *)
Section migration.
Context `{KeyLaws}.

Lemma sequences_saved m s : holds old_key m s ->
  exists s', saveSequenceKeys s =
      (Ok {| codeIDValue := m KCodeSequence; instanceIDValue := m KInstanceSequence |}, s') /\
    holds (layout_at 0) (without_sequences m) s'.
Proof.
  intros Hs.
  assert (forall k c, old_key k = [c] -> (forall j, old_key j = [c] -> j = k) -> s !! [c] = m k)
    as Hget.
  { intros k c E Hu. destruct (s !! [c]) as [v|] eqn:Ev.
    - apply Hs in Ev as (j & Ej & Mj). by rewrite <- (Hu j Ej).
    - destruct (m k) as [v|] eqn:Mk; [|done].
      assert (s !! [c] = Some v) by (apply Hs; eauto). congruence. }
  assert (s !! [1] = m KCodeSequence) as E1 by (apply Hget; [done|]; by intros []).
  assert (s !! [2] = m KInstanceSequence) as E2 by (apply Hget; [done|]; by intros []).
  exists (delete [2] (delete [1] s)). split.
  - unfold saveSequenceKeys, Get, Delete, gets, modify.
    unfold mbind, M_bind. cbn beta iota.
    cbn [lp_KeySequenceCodeID lp_KeySequenceInstanceID LegacyPrefixes]. rewrite E1. destruct (m KCodeSequence) as [v|] eqn:M1; simpl.
    + rewrite lookup_delete_ne, E2 by done. destruct (m KInstanceSequence) eqn:M2; simpl; [done|].
      rewrite (delete_id _ [2]); [done|]. by rewrite lookup_delete_ne, E2.
    + rewrite E2, (delete_id _ [1]) by done. destruct (m KInstanceSequence) eqn:M2; simpl; [done|].
      by rewrite (delete_id _ [2]) by by rewrite E2.
  - intros b v. rewrite !lookup_delete_Some. rewrite (Hs b v). split.
    + intros (N2 & N1 & k & <- & Mk). exists k. by destruct k.
    + intros (k & <- & Mk). destruct k eqn:Ek; try discriminate Mk;
        (split; [discriminate|]; split; [discriminate|]; exists k; by rewrite Ek).
Qed.

Lemma sequences_step m s :
  holds (layout_at 1) (without_sequences m) s ->
  exists s', migrateSequenceKeys
      {| codeIDValue := m KCodeSequence; instanceIDValue := m KInstanceSequence |} s = (Ok tt, s') /\
    holds (layout_at 2) (sequences_started m) s'.
Proof.
  intros Hs.
  assert (forall x, s !! (4 :: x) = None) as Hfree.
  { intros x. destruct (s !! (4 :: x)) as [v|] eqn:E; [|done].
    apply Hs in E as (k & Ek & Mk). by destruct k. }
  assert (s !! wasmtypes.KeySequenceCodeID = None) as F1 by apply Hfree.
  assert (s !! wasmtypes.KeySequenceInstanceID = None) as F2 by apply Hfree.
  eexists. split.
  - unfold migrateSequenceKeys, Has, Set_, gets, modify, mbind, M_bind.
    cbn beta iota. rewrite bool_decide_false by (rewrite F1; by intros [? ?]). simpl.
    rewrite bool_decide_false; [reflexivity|].
    rewrite lookup_insert_ne, F2 by done. by intros [? ?].
  - intros b v. rewrite !lookup_insert_Some, (Hs b v). split.
    + intros [[<- <-]|(N1 & [[<- <-]|(N2 & k & <- & Mk)])].
      * by exists KInstanceSequence.
      * by exists KCodeSequence.
      * exists k. by destruct k.
    + intros (k & <- & Mk). destruct k eqn:Ek; simpl in Mk;
        try (right; split; [discriminate|]; right; split; [discriminate|];
             exists k; by rewrite Ek).
      * right. split; [discriminate|]. left. by injection Mk as <-.
      * left. by injection Mk as <-.
Qed.

Lemma params_step m s : holds (layout_at 6) m s ->
  exists s', migrateParamsKey s = (Ok tt, s') /\ holds new_key m s'.
Proof.
  intros Hs. unfold migrateParamsKey, Get, Set_, Delete, gets, modify, mbind, M_bind.
  destruct (s !! (lp_ParamsKey LegacyPrefixes)) as [p|] eqn:E.
  - apply Hs in E as (k & Ek & Mk). assert (k = KParams) as -> by by destruct k.
    eexists. split; [reflexivity|]. intros b v.
    rewrite lookup_delete_Some, lookup_insert_Some, (Hs b v). split.
    + intros (N & [[<- <-]|(N' & k & <- & Mk')]); [by exists KParams|].
      exists k. by destruct k.
    + intros (k & <- & Mk'). destruct k eqn:Ek';
        try (split; [discriminate|]; right; split; [discriminate|]; exists k; by rewrite Ek').
      split; [discriminate|]. left. by rewrite Mk in Mk'; injection Mk' as <-.
  - eexists. split; [reflexivity|]. intros b v. rewrite (Hs b v).
    assert (m KParams = None) as Mp.
    { destruct (m KParams) as [p|] eqn:Mp; [|done].
      assert (s !! [17] = Some p) by (apply Hs; by exists KParams).
      simpl in E. congruence. }
    split; intros (k & <- & Mk); exists k; destruct k; done || by rewrite Mp in Mk.
Qed.

Lemma migration_runs m s : contents_ok m -> holds old_key m s ->
  exists s', migrateWasmKeys s = (Ok tt, s') /\ holds new_key (sequences_started m) s'.
Proof.
  intros Hm Hs.
  assert (contents_ok (sequences_started m)) as Hm'.
  { destruct Hm as [H1 H2]. split; [|exact H2]. intros k Hk. destruct k; try done; by apply H1. }
  destruct (sequences_saved m s Hs) as (s0 & E0 & Hs0).
  destruct (contracts_step m s0 Hm Hs0) as (s1 & E1 & Hs1).
  destruct (sequences_step m s1 Hs1) as (s2 & E2 & Hs2).
  destruct (codes_step _ s2 Hs2) as (s3 & E3 & Hs3).
  destruct (states_step _ s3 Hm' Hs3) as (s4 & E4 & Hs4).
  destruct (history_step _ s4 Hs4) as (s5 & E5 & Hs5).
  destruct (index_step _ s5 Hs5) as (s6 & E6 & Hs6).
  destruct (params_step _ s6 Hs6) as (s7 & E7 & Hs7).
  exists s7. split; [|done]. unfold migrateWasmKeys.
  rewrite (M_bind_run _ _ _ _ _ E0), (M_bind_run _ _ _ _ _ E1), (M_bind_run _ _ _ _ _ E2).
  rewrite (M_bind_run _ _ _ _ _ E3), (M_bind_run _ _ _ _ _ E4), (M_bind_run _ _ _ _ _ E5).
  by rewrite (M_bind_run _ _ _ _ _ E6).
Qed.

(** The builders of the source give the keys of the two layouts. *)
Lemma legacy_builders addr : address_ok addr ->
  GetContractAddressKeyLegacy addr = Ok (old_key (KContract addr)) /\
  GetContractStorePrefixLegacy addr = Ok (old_key (KState addr [])).
Proof.
  intros Ha. unfold GetContractAddressKeyLegacy, GetContractStorePrefixLegacy.
  rewrite MustLengthPrefix_ok by (unfold address_ok in Ha; lia).
  simpl. by rewrite app_nil_r.
Qed.

Lemma held (layout : wasm_key -> bytes) m s k v : holds layout m s -> m k = Some v ->
  s !! layout k = Some v.
Proof. intros Hs Hk. apply Hs. eauto. Qed.

(** What the old builders name is found where the current ones say: the info
    and the state of a contract, its history and its place in the index. *)
Definition found_by_builders (s s' : Store) : Prop :=
  (forall addr k v, address_ok addr -> GetContractAddressKeyLegacy addr = Ok k ->
    s !! k = Some v -> s' !! wasmtypes.GetContractAddressKey addr = Some v) /\
  (forall addr p key v, address_ok addr -> GetContractStorePrefixLegacy addr = Ok p ->
    s !! (p ++ key) = Some v -> s' !! (wasmtypes.GetContractStorePrefix addr ++ key) = Some v) /\
  (forall addr pos v, s !! GetContractCodeHistoryElementKeyLegacy addr pos = Some v ->
    s' !! wasmtypes.GetContractCodeHistoryElementKey addr pos = Some v) /\
  (forall addr c p k v, wasmtypes.Updated c = Some p ->
    GetContractByCreatedSecondaryIndexKeyLegacy addr c = Ok k -> s !! k = Some v ->
    exists k', wasmtypes.GetContractByCreatedSecondaryIndexKey addr c = Ok k' /\ s' !! k' = Some v).

Lemma builders_found m s s' : holds old_key m s -> holds new_key (sequences_started m) s' ->
  found_by_builders s s'.
Proof.
  intros Hs Hs'. repeat split.
  - intros addr k v Ha Hk Hv. destruct (legacy_builders addr Ha) as [E _].
    rewrite E in Hk. injection Hk as <-. apply Hs in Hv as (j & Ej & Mj).
    destruct j; try discriminate Ej. injection Ej as _ ->.
    exact (held _ _ _ (KContract addr) v Hs' Mj).
  - intros addr p key v Ha Hp Hv. destruct (legacy_builders addr Ha) as [_ E].
    rewrite E in Hp. injection Hp as <-. apply Hs in Hv as (j & Ej & Mj).
    destruct j as [| | |?|?|b key'|?|?|?|?|?]; try discriminate Ej. injection Ej as El Ej.
    rewrite app_nil_r in Ej. apply app_inj_1 in Ej as [-> ->]; [|lia].
    exact (held _ _ _ (KState addr key) v Hs' Mj).
  - intros addr pos v. destruct (history_keys addr pos) as [-> ->].
    intros (j & Ej & Mj)%Hs. destruct j; try discriminate Ej. injection Ej as ->.
    exact (held _ _ _ (KHistory _) v Hs' Mj).
  - intros addr c p k v Hp Hk Hv. destruct (index_keys addr c p Hp) as (body & E1 & E2).
    rewrite E1 in Hk. injection Hk as <-. exists (6 :: body). split; [done|].
    apply Hs in Hv as (j & Ej & Mj). destruct j; try discriminate Ej. injection Ej as ->.
    exact (held _ _ _ (KIndex body) v Hs' Mj).
Qed.

(** C3: The upgrade renames every entry from the old to the new layout.
    Whatever a store held under the old layout, with addresses of 20 or 32
    bytes none of which begins with another, it holds under the new layout
    afterwards and nothing else, apart from sequences that start at zero;
    the upgrade does not fail.  So what was stored under a key of the old
    builders is found under the key of the current ones. *)
Theorem migration_renames m s : contents_ok m -> holds old_key m s ->
  exists s', migrateWasmKeys s = (Ok tt, s') /\
    holds new_key (sequences_started m) s' /\ found_by_builders s s'.
Proof.
  intros Hm Hs. destruct (migration_runs m s Hm Hs) as (s' & E & Hs').
  exists s'. split; [done|]. split; [done|]. by apply (builders_found m).
Qed.

End migration.

(** ** Concrete stores *)
#[export] Instance wasm_key_eq_dec : EqDecision wasm_key.
Proof. solve_decision. Defined.

Fixpoint contents_of (l : list (wasm_key * bytes)) : contents := fun k =>
  match l with
  | [] => None
  | (j, v) :: l => if decide (k = j) then Some v else contents_of l k
  end.

Definition store_of (layout : wasm_key -> bytes) (l : list (wasm_key * bytes)) : Store :=
  list_to_map (map (fun kv => (layout kv.1, kv.2)) l).

Lemma contents_of_elem l k v : NoDup l.*1 -> contents_of l k = Some v <-> (k, v) ∈ l.
Proof.
  induction l as [|[j w] l IH]; intros Hn; simpl.
  - split; [done|]. intros Hx. inversion Hx.
  - rewrite fmap_cons, list.NoDup_cons in Hn. destruct Hn as [Hj Hn].
    rewrite elem_of_cons. case_decide as E.
    + subst j. split; [intros [= ->]; by left|]. intros [[= ->]|Hx]; [done|].
      by apply (list_elem_of_fmap_2 fst) in Hx.
    + rewrite IH by done. split; [by right|]. by intros [[= -> ->]|?].
Qed.

Lemma holds_list layout l : NoDup (map layout l.*1) ->
  holds layout (contents_of l) (store_of layout l).
Proof.
  intros Hn b v. unfold store_of. rewrite <- elem_of_list_to_map.
  - rewrite list_elem_of_fmap. assert (NoDup l.*1) as Hn' by apply (NoDup_fmap_1 _ _ Hn). split.
    + intros ([k w] & [= -> ->] & Hk). exists k. split; [done|]. by apply contents_of_elem.
    + intros (k & <- & Hk). exists (k, v). split; [done|]. by apply contents_of_elem.
  - change (NoDup (layout <$> (fst <$> l))) in Hn. rewrite <- list_fmap_compose in Hn.
    by rewrite <- list_fmap_compose.
Qed.

(** The conditions on the addresses, entry by entry. *)
Definition entries_ok (l : list (wasm_key * bytes)) : Prop :=
  Forall (fun kv => key_ok kv.1) l /\
  Forall (fun kv1 => Forall (fun kv2 =>
    match kv1.1, kv2.1 with
    | KState a _, KState b _ => a = b \/ ~ a `prefix_of` b
    | _, _ => True
    end) l) l.

#[export] Instance entries_ok_dec l : Decision (entries_ok l).
Proof.
  apply and_dec; apply Forall_dec; intros [k1 v1].
  - destruct k1; simpl; unfold address_ok; apply _.
  - apply Forall_dec. intros [k2 v2]. destruct k1, k2; simpl; apply _.
Defined.

Lemma entries_contents_ok l : NoDup l.*1 -> entries_ok l -> contents_ok (contents_of l).
Proof.
  intros Hn [H1 H2]. rewrite list.Forall_forall in H1. rewrite list.Forall_forall in H2.
  assert (forall k, contents_of l k <> None -> exists v, (k, v) ∈ l) as Hin.
  { intros k Hk. destruct (contents_of l k) as [v|] eqn:E; [|done].
    exists v. by apply contents_of_elem. }
  split.
  - intros k [v Hv]%Hin. apply (H1 _ Hv).
  - intros a b x y [v Hv]%Hin [w Hw]%Hin Hab.
    specialize (H2 _ Hv). rewrite list.Forall_forall in H2. by destruct (H2 _ Hw).
Qed.

Module Example.

Definition addr20 : bytes := replicate 20 7.
Definition addr32 : bytes := replicate 32 9.

Definition old_entries : list (wasm_key * bytes) := [
  (KCodeSequence, [0; 0; 0; 0; 0; 0; 0; 2]);
  (KParams, [1; 2; 3]);
  (KCode (Uint64ToBigEndian 1), [4]);
  (KContract addr20, [5]);
  (KContract addr32, [6]);
  (KState addr20 [1], [7]);
  (KState addr20 [], [8]);
  (KState addr32 [1; 2], [9]);
  (KHistory (addr20 ++ Uint64ToBigEndian 1), [10]);
  (KIndex (Uint64ToBigEndian 1), [11]);
  (KPinned (Uint64ToBigEndian 1), [])].

Definition old_store : Store := store_of old_key old_entries.

Lemma old_holds : holds old_key (contents_of old_entries) old_store.
Proof. apply holds_list. apply (bool_decide_unpack _). by vm_compute. Qed.

Lemma old_ok : contents_ok (contents_of old_entries).
Proof. apply entries_contents_ok; apply (bool_decide_unpack _); by vm_compute. Qed.

End Example.

Lemma migration_renames_witness :
  contents_ok (contents_of Example.old_entries) /\
  exists s', migrateWasmKeys Example.old_store = (Ok tt, s') /\
    holds new_key (sequences_started (contents_of Example.old_entries)) s' /\
    found_by_builders Example.old_store s'.
Proof.
  split; [exact Example.old_ok|].
  exact (migration_renames _ _ Example.old_ok Example.old_holds).
Defined.
