(* ===== verification/LegacyStore.v ===== *)
(** * Reading the old wasm store through the current key layout

    [src/custom/wasm/legacy_store.go], [query_server.go], [query_handler.go].
    A query at a height before the upgrade v13 meets a store in the old
    layout.  The legacy store answers reads of current keys from it: single
    reads try every old key the current one may have had, iterations
    translate the bounds and then every key they meet.

    The theorems compare it with the store the upgrade produces
    ([WasmMigration]): reads of single keys agree, and so does the iteration
    over the state of a contract with a 20-byte address that does not end in
    [0xff].  Iterations over other contracts and over pinned codes come back
    empty. *)
From stdpp Require Import base gmap sets list strings fin_maps sorting.
From Stdlib Require Import ZArith Lia.
From S2P Require Import Prelude Core WasmKeys WasmMigration.
#[local] Open Scope Z_scope.

(** ** Keys *)
Definition newToOldSimple (c : Z) : option Z :=
  match c with
  | 0x01 => Some 0x03
  | 0x02 => Some 0x04
  | 0x03 => Some 0x05
  | 0x05 => Some 0x06
  | 0x06 => Some 0x10
  | _ => None
  end.

Definition oldToNewSimple (c : Z) : option Z :=
  match c with
  | 0x03 => Some 0x01
  | 0x04 => Some 0x02
  | 0x05 => Some 0x03
  | 0x06 => Some 0x05
  | 0x10 => Some 0x06
  | _ => None
  end.

Definition seqPrefixNew : Z := 0x04.
Definition lastCodeIDKey : bytes := wasmtypes.text "lastCodeId".
Definition lastContractIDKey : bytes := wasmtypes.text "lastContractId".
Definition legacyParamsOld : Z := 0x11.
Definition legacyParamsNew : Z := 0x10.

Definition buildLenVariants (basePrefix : Z) (addrOrRest : bytes) : list bytes :=
  [basePrefix :: addrOrRest] ++
  (if Nat.leb 20 (length addrOrRest)
   then [(basePrefix :: 20 :: take 20 addrOrRest) ++ drop 20 addrOrRest] else []) ++
  (if Nat.leb 32 (length addrOrRest)
   then [(basePrefix :: 32 :: take 32 addrOrRest) ++ drop 32 addrOrRest] else []).

Definition translateNewToOld (newKey : bytes) : list bytes :=
  match newKey with
  | [] => [newKey]
  | c :: body =>
      if (c =? seqPrefixNew) && bool_decide (newKey = seqPrefixNew :: lastCodeIDKey)
      then [[0x01]]
      else if (c =? seqPrefixNew) && bool_decide (newKey = seqPrefixNew :: lastContractIDKey)
      then [[0x02]]
      else if (c =? legacyParamsNew) && Nat.eqb (length newKey) 1 then [[legacyParamsOld]]
      else match newToOldSimple c with
           | Some oldPref =>
               if (c =? 0x02) || (c =? 0x03) then buildLenVariants oldPref body
               else [oldPref :: body]
           | None => [newKey]
           end
  end.

Definition stripLegacyLenPrefix (b : bytes) : bytes :=
  match b with
  | n :: b' =>
      if Nat.leb 21 (length b) && (n =? 20) && (n =? Z.of_nat (length b) - 1) then b' else b
  | [] => b
  end.

Definition rebuildContractStoreBody (rest : bytes) : bytes :=
  match rest with
  | n :: rest' =>
      if (n =? 20) || (n =? 32) then
        if 1 + n <=? Z.of_nat (length rest) then rest' else rest
      else rest
  | [] => rest
  end.

Definition mapOldToNew (old : bytes) : option bytes :=
  match old with
  | [] => None
  | c :: body =>
      if (c =? 0x01) && Nat.eqb (length old) 1 then Some (seqPrefixNew :: lastCodeIDKey)
      else if (c =? 0x02) && Nat.eqb (length old) 1 then Some (seqPrefixNew :: lastContractIDKey)
      else if (c =? legacyParamsOld) && Nat.eqb (length old) 1 then Some [legacyParamsNew]
      else match oldToNewSimple c with
           | Some newPref =>
               let body :=
                 if c =? 0x04 then stripLegacyLenPrefix body
                 else if c =? 0x05 then rebuildContractStoreBody body
                 else body in
               Some (newPref :: body)
           | None => None
           end
  end.

(** ** Values

    Code and contract infos were stored in another format.  The encoders are
    generated code. *)
Record LegacyCodeInfo := { lc_CodeID : Z; lc_CodeHash : bytes; lc_Creator : string }.
Record LegacyContractInfo := {
  lk_Address : string; lk_Creator : string; lk_Admin : string; lk_CodeID : Z; lk_InitMsg : bytes;
}.
Record CodeInfo := { ci_CodeHash : bytes; ci_Creator : string }.
Record ContractInfo := { ki_CodeID : Z; ki_Creator : string; ki_Admin : string }.

Class WasmCodec := {
  LegacyCodeInfo_Unmarshal : bytes -> res LegacyCodeInfo;
  LegacyContractInfo_Unmarshal : bytes -> res LegacyContractInfo;
  CodeInfo_Marshal : CodeInfo -> res bytes;
  ContractInfo_Marshal : ContractInfo -> res bytes;
}.

(** Which contexts are before the upgrade. *)
Definition wasmMigrationHeightMainnet : Z := 25619230.
Definition wasmMigrationHeightTestnet : Z := 26888496.
Definition wasmMigrationHeightLocal : Z := 0.

Definition isPreWasmKeyMigration (chainID : string) (height : Z) : bool :=
  if height <=? 0 then false
  else if String.eqb chainID ColumbusChainID then height <? wasmMigrationHeightMainnet
  else if String.eqb chainID RebelChainID then height <? wasmMigrationHeightTestnet
  else if String.eqb chainID "localdo" || String.eqb chainID "localdo-legacy"
       then height <? wasmMigrationHeightLocal
  else false.

Section store.
Context `{KeyLib} `{WasmCodec}.

Definition translateLegacyCodeInfoValue (value : bytes) : bytes :=
  match LegacyCodeInfo_Unmarshal value with
  | Ok legacyInfo =>
      match CodeInfo_Marshal {| ci_CodeHash := lc_CodeHash legacyInfo;
                                ci_Creator := lc_Creator legacyInfo |} with
      | Ok marshaled => marshaled
      | _ => value
      end
  | _ => value
  end.

Definition translateLegacyContractInfoValue (value : bytes) : bytes :=
  match LegacyContractInfo_Unmarshal value with
  | Ok legacyInfo =>
      match ContractInfo_Marshal {| ki_CodeID := lk_CodeID legacyInfo;
                                    ki_Creator := lk_Creator legacyInfo;
                                    ki_Admin := lk_Admin legacyInfo |} with
      | Ok marshaled => marshaled
      | _ => value
      end
  | _ => value
  end.

Definition translateLegacyValueForKey (newKey value : bytes) : bytes :=
  match newKey with
  | [] => value
  | c :: _ =>
      if c =? 0x01 then translateLegacyCodeInfoValue value
      else if c =? 0x02 then translateLegacyContractInfoValue value
      else value
  end.

(** ** Reads

    [s] is the parent store. *)
Fixpoint first_present (s : Store) (candidates : list bytes) : option bytes :=
  match candidates with
  | [] => None
  | c :: cs => match s !! c with Some bz => Some bz | None => first_present s cs end
  end.

Definition legacy_Get (s : Store) (key : bytes) : option bytes :=
  match first_present s (translateNewToOld key) with
  | Some bz => Some (translateLegacyValueForKey key bz)
  | None => None
  end.


(** Writes are dropped: queries only read. *)
Definition legacy_Set (s : Store) (_ _ : bytes) : Store := s.
Definition legacy_Delete (s : Store) (_ : bytes) : Store := s.

Definition iterator_valid (l : list (bytes * bytes)) : bool :=
  match l with [] => false | _ => true end.

Definition getAddressLengthPrefix (s : Store) (body : bytes) : option Z :=
  if Nat.ltb (length body) 20 then None
  else
    let key20 := [0x05; 0x14] ++ take 20 body in
    if iterator_valid (Iterator s (Some key20) (PrefixEndBytes key20)) then Some 0x14
    else if Nat.leb 32 (length body) then
      let key32 := [0x05; 0x20] ++ take 32 body in
      if iterator_valid (Iterator s (Some key32) (PrefixEndBytes key32)) then Some 0x20
      else Some 0x14
    else Some 0x14.

(** The smallest or greatest of the candidates. *)
Definition pick_bound (better : bytes -> bytes -> bool) (candidates : list bytes) : option bytes :=
  match candidates with
  | [] => None
  | c :: cs => Some (foldl (fun best c => if better c best then c else best) c cs)
  end.

Definition bound_len (b : option bytes) : nat := length (default [] b).

Definition translate_bound (better : bytes -> bytes -> bool) (b : option bytes) : option bytes :=
  match b with
  | Some (c :: k) => pick_bound better (translateNewToOld (c :: k))
  | _ => None
  end.

Definition translateBoundsForIteration (s : Store) (start end_ : option bytes) :
    option bytes * option bytes :=
  if Nat.eqb (bound_len start) 0 && Nat.eqb (bound_len end_) 0 then (None, None)
  else match start with
  | Some (0x03 :: body) =>
      match getAddressLengthPrefix s body with
      | None => (Some [0x05; 0xff], Some [0x05; 0xff])
      | Some lenPrefix =>
          let oldStart := Some (0x05 :: lenPrefix :: body) in
          match end_ with
          | Some (0x03 :: bodyEnd) =>
              match getAddressLengthPrefix s bodyEnd with
              | Some lenPrefix => (oldStart, Some (0x05 :: lenPrefix :: bodyEnd))
              | None => (oldStart, oldStart)
              end
          | _ => (oldStart, None)
          end
      end
  | _ =>
      (translate_bound (fun c best => bytes_ltb c best) start,
       translate_bound (fun c best => bytes_ltb best c) end_)
  end.

(** ** Iterators *)
Definition rangeOK (k : bytes) (start end_ : option bytes) : bool :=
  match start with Some b => negb (bytes_ltb k b) | None => true end &&
  match end_ with Some e => bytes_ltb k e | None => true end.

Record legacyIterator := {
  under : list (bytes * bytes);
  it_start : option bytes;
  it_end : option bytes;
  it_valid : bool;
  it_key : bytes;
  it_val : bytes;
}.

(** [advance] skips keys that are not wasm keys or out of range.  The
    underlying iterator is the list of the entries it has not passed. *)
Fixpoint advance_loop (it : legacyIterator) (rest : list (bytes * bytes)) : legacyIterator :=
  match rest with
  | [] => {| under := []; it_start := it_start it; it_end := it_end it; it_valid := false;
             it_key := it_key it; it_val := it_val it |}
  | (oldKey, value) :: rest =>
      match mapOldToNew oldKey with
      | None => advance_loop it rest
      | Some newKey =>
          if negb (rangeOK newKey (it_start it) (it_end it)) then advance_loop it rest
          else {| under := rest; it_start := it_start it; it_end := it_end it; it_valid := true;
                  it_key := newKey; it_val := translateLegacyValueForKey newKey value |}
      end
  end.

Definition advance (it : legacyIterator) : legacyIterator := advance_loop it (under it).

Definition newLegacyIterator (l : list (bytes * bytes)) (start end_ : option bytes) : legacyIterator :=
  advance {| under := l; it_start := start; it_end := end_; it_valid := false;
             it_key := []; it_val := [] |}.

Definition legacy_Iterator (s : Store) (start end_ : option bytes) : legacyIterator :=
  let '(oldStart, oldEnd) := translateBoundsForIteration s start end_ in
  newLegacyIterator (Iterator s oldStart oldEnd) start end_.

Definition legacy_ReverseIterator (s : Store) (start end_ : option bytes) : legacyIterator :=
  let '(oldStart, oldEnd) := translateBoundsForIteration s start end_ in
  newLegacyIterator (ReverseIterator s oldStart oldEnd) start end_.

(** A client's loop [for ; it.Valid(); it.Next()], with a bound on the number
    of rounds: [None] when it has not ended by then. *)
Fixpoint read_all (fuel : nat) (it : legacyIterator) : option (list (bytes * bytes)) :=
  match fuel with
  | O => None
  | S n =>
      if it_valid it then
        rest ← read_all n (advance it); Some ((it_key it, it_val it) :: rest)
      else Some []
  end.

End store.

(** ** Iteration *)
Section iteration.
Context `{KeyLib} `{WasmCodec}.

(** What a round of the loop makes of an entry of the parent store; that the
    entries shown are the right ones is [legacy_iteration_ends]. *)
Definition round_shows (start end_ : option bytes) (kv : bytes * bytes) : option (bytes * bytes) :=
  match mapOldToNew kv.1 with
  | Some k => if rangeOK k start end_ then Some (k, translateLegacyValueForKey k kv.2) else None
  | None => None
  end.

Lemma read_advanced it rest fuel : (length rest < fuel)%nat ->
  read_all fuel (advance_loop it rest) = Some (omap (round_shows (it_start it) (it_end it)) rest).
Proof.
  revert it fuel. induction rest as [|[k v] rest IH]; intros it [|fuel] Hf; simpl in Hf; try lia.
  - done.
  - cbn [advance_loop omap list_omap]. unfold round_shows at 1. cbn [fst snd].
    destruct (mapOldToNew k) as [k'|]; [|apply IH; lia].
    destruct (rangeOK k' _ _) eqn:E; cbn [negb]; [|apply IH; lia].
    cbn [read_all it_valid it_key it_val]. unfold advance. cbn [under].
    by rewrite IH by lia.
Qed.

End iteration.

(** ** Single keys *)
Definition compat (p q : bytes) : Prop := p `prefix_of` q \/ q `prefix_of` p.

#[export] Instance compat_dec p q : Decision (compat p q).
Proof. unfold compat. apply _. Defined.

(** An address is apart from the contracts with state when neither their
    addresses nor those with their length in front begin like it. *)
Definition address_apart (m : wasm_key -> option bytes) (a : bytes) : Prop :=
  forall b y, m (KState b y) <> None ->
    (a <> b -> ~ compat a b) /\ ~ compat a (Z.of_nat (length b) :: b).

Definition read_ok (m : wasm_key -> option bytes) (k : wasm_key) : Prop :=
  match k with
  | KContract a => address_ok a
  | KState a _ => address_ok a /\ address_apart m a
  | _ => True
  end.

Lemma app_compat a b x y : a ++ x = b ++ y -> compat a b.
Proof.
  intros E. apply (prefix_weak_total a b (b ++ y)); [|by exists y]. rewrite <- E. by exists x.
Qed.

Lemma old_key_inj j k : old_key j = old_key k -> j = k.
Proof.
  intros E. destruct j; destruct k; try discriminate E; try done;
    try (injection E as ->; done); try (injection E as _ ->; done).
  injection E as El E. apply app_inj_1 in E as [-> ->]; [done|lia].
Qed.


(** Lookup by meaning in the two layouts. *)
Lemma old_lookup m s k : holds old_key m s -> s !! old_key k = m k.
Proof.
  intros Hs. destruct (m k) as [v|] eqn:E; [by apply Hs; exists k|].
  destruct (s !! old_key k) as [v|] eqn:Ev; [|done].
  apply Hs in Ev as (j & Ej & Mj). apply old_key_inj in Ej as ->. congruence.
Qed.


Lemma first_present_only s cs c : c ∈ cs ->
  (forall d, d ∈ cs -> d <> c -> s !! d = None) -> first_present s cs = s !! c.
Proof.
  induction cs as [|d cs IH]; intros Hc Ho; [inversion Hc|]. simpl.
  destruct (decide (d = c)) as [->|Hne].
  - destruct (s !! c) eqn:E; [done|].
    clear IH Hc. induction cs as [|e cs IH]; [done|]. simpl.
    destruct (decide (e = c)) as [->|]; [rewrite E|rewrite (Ho e) by (set_solver)];
      apply IH; set_solver.
  - rewrite (Ho d) by (done || apply list_elem_of_here).
    apply elem_of_cons in Hc as [->|Hc]; [done|].
    apply IH; [done|]. intros. apply Ho; [by apply list_elem_of_further|done].
Qed.


Lemma variants_elem p body d : d ∈ buildLenVariants p body ->
  d = p :: body \/ d = p :: 20 :: body \/ d = p :: 32 :: body.
Proof.
  unfold buildLenVariants. rewrite !elem_of_app.
  intros [Hd|[Hd|Hd]].
  - apply list_elem_of_singleton in Hd. auto.
  - destruct (Nat.leb 20 _); [|inversion Hd]. apply list_elem_of_singleton in Hd.
    simpl in Hd. rewrite take_drop in Hd. auto.
  - destruct (Nat.leb 32 _); [|inversion Hd]. apply list_elem_of_singleton in Hd.
    simpl in Hd. rewrite take_drop in Hd. auto.
Qed.

Lemma variants_have p a x : address_ok a ->
  p :: Z.of_nat (length a) :: a ++ x ∈ buildLenVariants p (a ++ x).
Proof.
  intros Ha. unfold buildLenVariants. rewrite !elem_of_app, length_app. right.
  destruct Ha as [E|E]; rewrite E; [left|right].
  - rewrite (proj2 (Nat.leb_le _ _)) by lia. simpl. rewrite take_drop.
    by apply list_elem_of_singleton.
  - rewrite (proj2 (Nat.leb_le _ _)) by lia. simpl. rewrite take_drop.
    by apply list_elem_of_singleton.
Qed.

(** The candidates for a current key find what the old store holds. *)
Lemma state_candidates m s a x : holds old_key m s -> address_ok a -> address_apart m a ->
  first_present s (buildLenVariants 5 (a ++ x)) = m (KState a x).
Proof.
  intros Hs Ha Hap. rewrite <- (old_lookup m s) by done.
  apply first_present_only; [by apply variants_have|].
  intros d Hd Hne. destruct (s !! d) as [v|] eqn:E; [|done]. exfalso.
  apply Hs in E as (j & <- & Mj). apply variants_elem in Hd.
  destruct j as [| | |?|?|b y|?|?|?|?|?]; try (destruct Hd as [Hd|[Hd|Hd]]; discriminate Hd).
  destruct (Hap b y) as [Hab Hlen]; [congruence|].
  assert (forall n, old_key (KState b y) = 5 :: n :: a ++ x -> False) as Hn.
  { intros n En. apply Hne. injection En as _ En.
    destruct (decide (a = b)) as [->|Hab']; [by apply app_inv_head in En as ->|].
    exfalso. apply Hab; [done|]. symmetry in En. by eapply app_compat. }
  destruct Hd as [Hd|[Hd|Hd]]; [|by apply Hn in Hd..].
  apply Hlen, (app_compat _ _ x y). injection Hd as Hd. done.
Qed.

Lemma contract_candidates m s a : contents_ok m -> holds old_key m s -> address_ok a ->
  first_present s (buildLenVariants 4 a) = m (KContract a).
Proof.
  intros Hm Hs Ha. rewrite <- (old_lookup m s) by done.
  apply first_present_only.
  { pose proof (variants_have 4 a [] Ha) as Hv. by rewrite app_nil_r in Hv. }
  intros d Hd Hne. destruct (s !! d) as [v|] eqn:E; [|done]. exfalso.
  apply Hs in E as (j & <- & Mj). apply variants_elem in Hd.
  destruct j as [| | |?|b|? ?|?|?|?|?|?]; try (destruct Hd as [Hd|[Hd|Hd]]; discriminate Hd).
  assert (address_ok b) as Hb by (apply (proj1 Hm (KContract b)); congruence).
  destruct Hd as [Hd|[Hd|Hd]].
  - injection Hd as <-. unfold address_ok in *. simpl in Ha. lia.
  - injection Hd as _ ->. done.
  - injection Hd as _ ->. done.
Qed.

Lemma old_candidates m s k : contents_ok m -> holds old_key m s -> read_ok m k ->
  first_present s (translateNewToOld (new_key k)) = m k.
Proof.
  intros Hm Hs Hk. rewrite <- (old_lookup m s k Hs).
  assert (forall j, first_present s [old_key j] = s !! old_key j) as H1
    by (intros j; simpl; by destruct (s !! old_key j)).
  destruct k as [| | |body|a|a x|body|body|body|body|body];
    try (rewrite <- H1; reflexivity).
  - rewrite (old_lookup m) by done. by apply contract_candidates.
  - rewrite (old_lookup m) by done. destruct Hk. by apply state_candidates.
Qed.

Section reads.
Context `{KeyLaws} `{WasmCodec}.


End reads.

(** ** The state of one contract *)
Lemma rangeOK_in_range k b e : rangeOK k b e = in_range b e k.
Proof.
  unfold rangeOK, in_range. f_equal. destruct b as [b|]; [|done].
  unfold bytes_ltb, bytes_leb. rewrite (Compare_antisym b k). by destruct (Compare b k).
Qed.

Lemma omap_all {A B} (f : A -> option B) (g : A -> B) l :
  (forall x, x ∈ l -> f x = Some (g x)) -> omap f l = map g l.
Proof.
  induction l as [|x l IH]; intros Hf; [done|]. simpl.
  rewrite (Hf x) by apply list_elem_of_here. f_equal. apply IH. intros. by apply Hf, list_elem_of_further.
Qed.

Lemma strongly_sorted_map {A B} (R : A -> A -> Prop) (R' : B -> B -> Prop) (g : A -> B) l :
  (forall x y, x ∈ l -> y ∈ l -> R x y -> R' (g x) (g y)) ->
  StronglySorted R l -> StronglySorted R' (map g l).
Proof.
  intros Hg Hl. induction Hl as [|x l Hl IH Hx]; simpl; constructor.
  - apply IH. intros. apply Hg; by try apply list_elem_of_further.
  - apply list.Forall_forall. intros y (z & -> & Hz)%list_elem_of_fmap.
    rewrite list.Forall_forall in Hx. apply Hg; [apply list_elem_of_here|by apply list_elem_of_further|].
    by apply Hx.
Qed.

Lemma iterator_length s b e : (length (Iterator s b e) <= size s)%nat.
Proof.
  unfold Iterator, entries. etransitivity; [apply length_filter|].
  rewrite merge_sort_Permutation, length_map_to_list. done.
Qed.

(** ** What an iteration shows

    The entries of the old store by their meaning: the key under which an
    iteration shows an entry, and the value it shows.  The length in front of
    a 32-byte address stays in the key of its contract info; entries whose
    prefix did not change are not shown at all. *)
Definition shown_key (k : wasm_key) : option bytes :=
  match k with
  | KContract addr =>
      Some (0x02 :: if Nat.eqb (length addr) 20 then addr else Z.of_nat (length addr) :: addr)
  | KPinned _ | KTxCounter _ | KCreator _ => None
  | _ => Some (new_key k)
  end.

Definition answer {A} (r : res A) : option A := match r with Ok a => Some a | _ => None end.

Section shown.
Context `{WasmCodec}.

(** Infos are shown in the current format when they can be decoded and
    encoded, and as they are otherwise. *)
Definition shown_value (k : wasm_key) (v : bytes) : bytes :=
  match k with
  | KCode _ => default v
      (i ← answer (LegacyCodeInfo_Unmarshal v);
       answer (CodeInfo_Marshal {| ci_CodeHash := lc_CodeHash i; ci_Creator := lc_Creator i |}))
  | KContract _ => default v
      (i ← answer (LegacyContractInfo_Unmarshal v);
       answer (ContractInfo_Marshal {| ki_CodeID := lk_CodeID i; ki_Creator := lk_Creator i;
                                       ki_Admin := lk_Admin i |}))
  | _ => v
  end.

(** Bounds whose translation reaches every entry they ask for: none at all,
    two keys under the prefix of code infos, histories or the index, and the
    whole prefix of code infos or of histories. *)
Inductive full_bounds : option bytes -> option bytes -> Prop :=
| fb_all : full_bounds None None
| fb_within c x y : c ∈ [0x01; 0x05; 0x06] -> full_bounds (Some (c :: x)) (Some (c :: y))
| fb_codes : full_bounds (Some [0x01]) (Some [0x02])
| fb_histories : full_bounds (Some [0x05]) (Some [0x06]).

Lemma mapped_key k : key_ok k -> mapOldToNew (old_key k) = shown_key k.
Proof.
  destruct k as [| | |?|a|a x|?|?|?|?|?]; try done; cbn [key_ok]; intros Ha.
  - unfold mapOldToNew. cbn [old_key shown_key length Nat.eqb]. change (oldToNewSimple 4) with (Some 2).
    rewrite !andb_false_r. cbn [Z.eqb Pos.eqb andb]. unfold stripLegacyLenPrefix.
    by destruct Ha as [E|E]; cbn [length]; rewrite E.
  - unfold mapOldToNew. cbn [old_key shown_key new_key length Nat.eqb].
    change (oldToNewSimple 5) with (Some 3). rewrite !andb_false_r. unfold rebuildContractStoreBody.
    cbn [length]. rewrite length_app.
    destruct Ha as [E|E]; rewrite E; cbn -[Z.leb Z.add Z.of_nat Nat.add];
      by rewrite (proj2 (Z.leb_le _ _)) by lia.
Qed.

Lemma translated_value k kb v : shown_key k = Some kb ->
  translateLegacyValueForKey kb v = shown_value k v.
Proof.
  destruct k; try done; intros [= <-]; cbn; try done.
  - unfold translateLegacyCodeInfoValue, answer.
    destruct (LegacyCodeInfo_Unmarshal v); [|done..]. cbn. by destruct (CodeInfo_Marshal _).
  - unfold translateLegacyContractInfoValue, answer.
    destruct (LegacyContractInfo_Unmarshal v); [|done..]. cbn. by destruct (ContractInfo_Marshal _).
Qed.

Context `{KeyLib}.

Lemma range_within c x y k : in_range (Some (c :: x)) (Some (c :: y)) k = true -> exists b, k = c :: b.
Proof.
  unfold in_range, bytes_leb, bytes_ltb. destruct k as [|d b]; cbn [Compare]; [done|].
  rewrite (Z.compare_antisym c d). destruct (Z.compare_spec c d) as [->|Hc|Hc]; cbn; try done; eauto.
Qed.

Lemma range_tails c o x y b :
  in_range (Some (c :: x)) (Some (c :: y)) (c :: b) = in_range (Some (o :: x)) (Some (o :: y)) (o :: b).
Proof. unfold in_range, bytes_leb, bytes_ltb. cbn [Compare]. by rewrite !Z.compare_refl. Qed.

Lemma range_prefix c k : in_range (Some [c]) (Some [c + 1]) k = true <-> exists b, k = c :: b.
Proof.
  unfold in_range, bytes_leb, bytes_ltb. destruct k as [|d b]; cbn [Compare]; [split; [done|by intros [? [=]]]|].
  destruct (Z.compare_spec c d) as [->|Hc|Hc]; cbn; try (split; [done|intros [? [=]]; lia]).
  - destruct (Z.compare_spec d (d + 1)); try lia. split; [eauto|by destruct b].
  - destruct (Z.compare_spec d (c + 1)) as [->| |]; try lia; destruct b; (split; [done|intros [? [=]]; lia]).
Qed.

(** The old key of an entry within full bounds is within their translation. *)
Lemma full_bounds_reach s start end_ k kb : full_bounds start end_ -> shown_key k = Some kb ->
  in_range start end_ kb = true ->
  in_range (translateBoundsForIteration s start end_).1 (translateBoundsForIteration s start end_).2
    (old_key k) = true.
Proof.
  intros [|c x y Hc| |] Hk Hr; [done|..].
  - apply range_within in Hr as Hb. destruct Hb as [b ->].
    repeat (apply elem_of_cons in Hc as [->|Hc]); [..|by apply elem_of_nil in Hc];
      destruct k; try discriminate Hk; injection Hk as Hk; try discriminate Hk; subst; cbn [old_key];
      rewrite <- Hr; symmetry; apply range_tails.
  - apply (range_prefix 1) in Hr as [b ->]. destruct k; try discriminate Hk; injection Hk as Hk; try discriminate Hk.
    apply (range_prefix 3). eauto.
  - apply (range_prefix 5) in Hr as [b ->]. destruct k as [| | |?|?|? ?|body|?|?|?|?]; try discriminate Hk; injection Hk as Hk; try discriminate Hk.
    by destruct body.
Qed.

Lemma rounds_spec m s start end_ b e kb v : contents_ok m -> holds old_key m s ->
  (kb, v) ∈ omap (round_shows start end_) (Iterator s b e) <->
  exists k w, m k = Some w /\ shown_key k = Some kb /\ v = shown_value k w /\
    in_range start end_ kb = true /\ in_range b e (old_key k) = true.
Proof.
  intros [Hok _] Hs. rewrite list_elem_of_omap. unfold round_shows. split.
  - intros ([k' w] & [Hw Hr]%elem_of_Iterator & E). apply Hs in Hw as (k & <- & Mk). cbn [fst snd] in E.
    rewrite mapped_key in E by (apply Hok; congruence). destruct (shown_key k) as [kb'|] eqn:Ek; [|done].
    destruct (rangeOK kb' start end_) eqn:Eo; [|done]. injection E as <- <-.
    exists k, w. rewrite rangeOK_in_range in Eo. by rewrite (translated_value k).
  - intros (k & w & Mk & Ek & -> & Hr & Hb). exists (old_key k, w). split.
    + apply elem_of_Iterator. split; [|done]. apply Hs. eauto.
    + cbn [fst snd]. rewrite mapped_key by (apply Hok; congruence).
      rewrite Ek, rangeOK_in_range, Hr. by rewrite (translated_value k).
Qed.

Lemma omap_reverse {A B} (f : A -> option B) l : omap f (reverse l) = reverse (omap f l).
Proof.
  induction l as [|x l IH]; [done|]. rewrite reverse_cons, omap_app, IH. cbn [omap list_omap].
  destruct (f x); [by rewrite reverse_cons|by rewrite app_nil_r].
Qed.

(** C29: a loop over an iterator of the legacy store ends, with more rounds
    than the old store has entries, for all bounds: it has then shown entries
    of the old store only, each under a key within the bounds that says what
    the entry means, and with its value in the current format.  It shows all
    of them when the bounds reach them ([full_bounds]); the backward iterator
    shows the same entries in the opposite order. *)
Theorem legacy_iteration_ends m s start end_ fuel : contents_ok m -> holds old_key m s ->
  (size s < fuel)%nat ->
  exists shown, read_all fuel (legacy_Iterator s start end_) = Some shown /\
    read_all fuel (legacy_ReverseIterator s start end_) = Some (reverse shown) /\
    (forall kb v, (kb, v) ∈ shown ->
       in_range start end_ kb = true /\
       exists k w, m k = Some w /\ shown_key k = Some kb /\ v = shown_value k w) /\
    (full_bounds start end_ -> forall k w kb,
       m k = Some w -> shown_key k = Some kb -> in_range start end_ kb = true ->
       (kb, shown_value k w) ∈ shown).
Proof.
  intros Hm Hs Hf. unfold legacy_Iterator, legacy_ReverseIterator.
  pose proof (full_bounds_reach s start end_) as Hreach.
  destruct (translateBoundsForIteration s start end_) as [b e]. cbn [fst snd] in Hreach.
  pose proof (rounds_spec m s start end_ b e) as Hspec. pose proof (iterator_length s b e) as Hlen.
  exists (omap (round_shows start end_) (Iterator s b e)).
  unfold newLegacyIterator, advance. cbn [under]. split; [rewrite read_advanced; [done|]; lia|].
  split; [rewrite read_advanced; unfold ReverseIterator; [by rewrite omap_reverse|rewrite length_reverse; lia]|].
  split.
  - intros kb v (k & w & Mk & Ek & -> & Hr & _)%Hspec; [|done..]. eauto 6.
  - intros Hb k w kb Mk Ek Hr. apply Hspec; [done..|]. exists k, w. eauto 6.
Qed.
End shown.

Section scan.
Context `{KeyLaws} `{WasmCodec}.

(** The bounds of the keys with a prefix, as a prefix store passes them. *)
Definition scan (s : Store) (p : bytes) : legacyIterator :=
  legacy_Iterator s (Some p) (PrefixEndBytes p).

Lemma short_prefix s body : length body = 20%nat -> getAddressLengthPrefix s body = Some 20.
Proof.
  intros E. unfold getAddressLengthPrefix. rewrite E. simpl. by destruct (iterator_valid _).
Qed.

Lemma prefix_end_cons x ini c : c <> 255 ->
  PrefixEndBytes (x :: ini ++ [c]) = Some (x :: ini ++ [c + 1]).
Proof. exact (PrefixEndBytes_last (x :: ini) c). Qed.

Lemma scan_bounds s ini c : length ini = 19%nat -> c <> 255 ->
  PrefixEndBytes (3 :: ini ++ [c]) = Some (3 :: ini ++ [c + 1]) /\
  translateBoundsForIteration s (Some (3 :: ini ++ [c])) (Some (3 :: ini ++ [c + 1])) =
    (Some (5 :: 20 :: ini ++ [c]), PrefixEndBytes (5 :: 20 :: ini ++ [c])).
Proof.
  intros Hl Hc. split; [by apply prefix_end_cons|].
  rewrite (prefix_end_cons 5 (20 :: ini) c Hc : PrefixEndBytes (5 :: 20 :: ini ++ [c]) = _).
  unfold translateBoundsForIteration. cbn [bound_len default length Nat.eqb andb].
  unfold bound_len. simpl.
  by rewrite !short_prefix by (rewrite length_app; simpl; lia).
Qed.

Lemma prefix_of_bytes (p k : bytes) : p `prefix_of` k -> Forall is_byte k -> Forall is_byte p.
Proof. intros [x ->] Hk. by apply Forall_app in Hk as [? _]. Qed.

(** The keys of a store under a prefix of bytes. *)
Lemma elem_of_prefix s p k v : p <> [] -> Forall is_byte p ->
  (forall b w, s !! b = Some w -> Forall is_byte b) ->
  (k, v) ∈ Iterator s (Some p) (PrefixEndBytes p) <-> s !! k = Some v /\ p `prefix_of` k.
Proof.
  intros Hn Hp Hb. rewrite elem_of_Iterator. split; intros [Hk Hr]; split; try done.
  - rewrite PrefixEndBytes_range in Hr by eauto. by apply bool_decide_eq_true in Hr.
  - rewrite PrefixEndBytes_range by eauto. by apply bool_decide_eq_true.
Qed.

Lemma round_shows_state a x v : length a = 20%nat -> Forall is_byte (3 :: a ++ x) ->
  round_shows (Some (3 :: a)) (PrefixEndBytes (3 :: a)) (5 :: 20 :: a ++ x, v) = Some (3 :: a ++ x, v).
Proof.
  intros Ha Hb. unfold round_shows.
  assert (mapOldToNew (5 :: 20 :: a ++ x) = Some (3 :: a ++ x)) as E.
  { cbn [fst mapOldToNew]. simpl. rewrite (proj2 (Z.leb_le _ _)); [done|].
    cbn [length]. rewrite length_app. lia. }
  cbn [fst snd]. rewrite E, rangeOK_in_range, PrefixEndBytes_range; [|done| |done].
  - by rewrite bool_decide_true by (by exists x).
  - apply (prefix_of_bytes _ (3 :: a ++ x)); [by exists x|done].
Qed.

Lemma state_at m s a x v : holds old_key m s -> length a = 20%nat ->
  s !! (5 :: 20 :: a ++ x) = Some v <-> m (KState a x) = Some v.
Proof.
  intros Hs Ha. rewrite <- (old_lookup m s (KState a x) Hs). simpl. by rewrite Ha.
Qed.

(** Contents whose keys are bytes. *)
Definition bytes_ok (m : wasm_key -> option bytes) : Prop :=
  forall k, m k <> None -> Forall is_byte (old_key k).

Lemma new_bytes k : Forall is_byte (old_key k) -> Forall is_byte (new_key k).
Proof.
  assert (forall c d l, is_byte d -> Forall is_byte (c :: l) -> Forall is_byte (d :: l)) as Hh.
  { intros c d l Hd Hl. apply Forall_cons in Hl as [_ Hl]. by constructor. }
  destruct k; simpl; intros Hk.
  1,2,3: by apply (bool_decide_unpack _); vm_compute.
  all: try (by eapply (Hh _ _ _ _ Hk)).
  all: apply Forall_cons in Hk as [_ Hk]; eapply Hh; [|exact Hk]; done.
  Unshelve. all: done.
Qed.

Lemma held_bytes (layout : wasm_key -> bytes) m s :
  (forall k, m k <> None -> Forall is_byte (layout k)) -> holds layout m s ->
  forall b w, s !! b = Some w -> Forall is_byte b.
Proof. intros Hm Hs b w (k & <- & Mk)%Hs. apply Hm. congruence. Qed.

Lemma scanned_entries m s a k v : holds old_key m s -> length a = 20%nat -> Forall is_byte a ->
  (forall b w, s !! b = Some w -> Forall is_byte b) ->
  (k, v) ∈ Iterator s (Some (5 :: 20 :: a)) (PrefixEndBytes (5 :: 20 :: a)) <->
    exists x, k = 5 :: 20 :: a ++ x /\ m (KState a x) = Some v.
Proof.
  intros Hs Ha Hba Hb.
  rewrite elem_of_prefix by (try done; do 2 (constructor; [done|]); done). split.
  - intros [Hk [x ->]]. exists x. split; [done|]. by apply (state_at m s).
  - intros (x & -> & Mx). split; [by apply (state_at m s)|by exists x].
Qed.

(** The entries of a contract in the old store, under their current keys, are
    those of the upgraded store. *)
Lemma scanned_equal m s s' a :
  holds old_key m s -> holds new_key (sequences_started m) s' -> length a = 20%nat ->
  (forall b w, s !! b = Some w -> Forall is_byte b) ->
  (forall b w, s' !! b = Some w -> Forall is_byte b) ->
  Forall is_byte a ->
  (forall b y, m (KState b y) <> None -> a <> b -> ~ compat a b) ->
  map (fun kv => (3 :: drop 2 kv.1, kv.2))
    (Iterator s (Some (5 :: 20 :: a)) (PrefixEndBytes (5 :: 20 :: a))) =
  Iterator s' (Some (3 :: a)) (PrefixEndBytes (3 :: a)).
Proof.
  intros Hs Hs' Ha Hb Hb' Hba Hap.
  assert (Forall is_byte (3 :: a)) as H3 by (constructor; done).
  pose proof (fun k v => scanned_entries m s a k v Hs Ha Hba Hb) as Hl.
  set (l := Iterator s _ _) in *.
  apply sorted_entries_eq.
  - apply (strongly_sorted_map entry_le); [|apply Iterator_sorted].
    intros [k1 v1] [k2 v2] (x & -> & _)%Hl (y & -> & _)%Hl. done.
  - apply Iterator_sorted.
  - rewrite <- list_fmap_compose.
    change (NoDup ((fun k => 3 :: drop 2 k) ∘ fst <$> l)). rewrite list_fmap_compose.
    apply NoDup_fmap_2_strong; [|apply Iterator_nodup].
    intros k1 k2 ([? v1] & -> & (x & -> & _)%Hl)%list_elem_of_fmap
      ([? v2] & -> & (y & -> & _)%Hl)%list_elem_of_fmap. intros [= E].
    change (a ++ x = a ++ y) in E. by rewrite E.
  - apply Iterator_nodup.
  - intros [k v]. rewrite elem_of_prefix by done. rewrite list_elem_of_fmap. split.
    + intros ([? w] & [= -> ->] & (x & -> & Mx)%Hl). split; [|by exists x].
      by apply Hs'; exists (KState a x).
    + intros [Hk [x ->]]. exists (5 :: 20 :: a ++ x, v). split; [done|]. apply Hl.
      exists x. split; [done|]. apply Hs' in Hk as (j & Ej & Mj).
      destruct j as [| | |?|?|b y|?|?|?|?|?]; try discriminate Ej. injection Ej as Ej.
      destruct (decide (a = b)) as [->|Hne]; [by apply app_inv_head in Ej as ->|].
      exfalso. apply (Hap b y); [simpl in Mj; congruence|done|]. symmetry in Ej. by eapply app_compat.
Qed.

(** Iterating over the state of a contract through the legacy store
    shows what the same iteration shows after the upgrade, in the same order,
    when its address has 20 bytes and does not end in [0xff] and no other
    address with state begins like it. *)
Theorem contract_scan_agrees m s s' ini c fuel :
  let a := ini ++ [c] in
  contents_ok m -> bytes_ok m -> holds old_key m s -> migrateWasmKeys s = (Ok tt, s') ->
  length a = 20%nat -> c <> 255 -> Forall is_byte a ->
  (forall b y, m (KState b y) <> None -> a <> b -> ~ compat a b) ->
  (size s < fuel)%nat ->
  read_all fuel (scan s (3 :: a)) = Some (Iterator s' (Some (3 :: a)) (PrefixEndBytes (3 :: a))).
Proof.
  intros a Hm Hb Hs Hrun Ha Hc Hba Hap Hf.
  destruct (migration_runs m s Hm Hs) as (s1 & E & Hs'). rewrite Hrun in E. injection E as <-.
  assert (length ini = 19%nat) as Hi by (unfold a in Ha; rewrite length_app in Ha; simpl in Ha; lia).
  destruct (scan_bounds s ini c Hi Hc) as [Eend Ebounds]. fold a in Eend, Ebounds.
  pose proof (held_bytes _ _ _ Hb Hs) as Hbs.
  assert (forall b w, s' !! b = Some w -> Forall is_byte b) as Hbs'.
  { apply (held_bytes new_key (sequences_started m)); [|done]. intros k Hk. apply new_bytes.
    destruct k; try (by apply Hb); by apply (bool_decide_unpack _); vm_compute. }
  unfold scan, legacy_Iterator. rewrite Eend, Ebounds. cbn iota.
  unfold newLegacyIterator, advance.
  rewrite read_advanced; cbn [under it_start it_end].
  2:{ eapply Nat.le_lt_trans; [|exact Hf]. apply iterator_length. }
  f_equal. rewrite (omap_all _ (fun kv => (3 :: drop 2 kv.1, kv.2))).
  2:{ intros [k v] (x & -> & Mx)%(scanned_entries m s a k v Hs Ha Hba Hbs).
      rewrite <- Eend. apply round_shows_state; [done|]. apply (new_bytes (KState a x)), Hb. congruence. }
  rewrite <- Eend. by apply (scanned_equal m s s' a).
Qed.

(** ** Iterations that come back empty *)
Lemma range_empty s b e : bytes_leb e b = true -> Iterator s (Some b) (Some e) = [].
Proof.
  intros Hb. apply elem_of_nil_inv. intros [k v] [_ Hr]%elem_of_Iterator.
  unfold in_range in Hr. apply andb_true_iff in Hr as [H1' H2'].
  pose proof (bytes_leb_trans e b k Hb H1') as Hek.
  unfold bytes_leb, bytes_ltb in *. rewrite (Compare_antisym e k) in H2'.
  by destruct (Compare e k).
Qed.

Lemma none_under m s p : holds old_key m s -> bytes_ok m -> p <> [] -> Forall is_byte p ->
  (forall k v, m k = Some v -> ~ p `prefix_of` old_key k) ->
  iterator_valid (Iterator s (Some p) (PrefixEndBytes p)) = false.
Proof.
  intros Hs Hb Hn Hp Hk. destruct (Iterator _ _ _) as [|[k v] l] eqn:E; [done|]. exfalso.
  assert ((k, v) ∈ Iterator s (Some p) (PrefixEndBytes p)) as Hin
    by (rewrite E; apply list_elem_of_here).
  apply elem_of_prefix in Hin as [Hkv Hpk]; [|done|done|by apply (held_bytes old_key m)].
  apply Hs in Hkv as (j & <- & Mj). by eapply Hk.
Qed.

Lemma some_under m s p k : holds old_key m s -> bytes_ok m -> p <> [] -> m k <> None ->
  p `prefix_of` old_key k ->
  iterator_valid (Iterator s (Some p) (PrefixEndBytes p)) = true.
Proof.
  intros Hs Hb Hn Mk Hp. destruct (m k) as [v|] eqn:E; [|done].
  assert ((old_key k, v) ∈ Iterator s (Some p) (PrefixEndBytes p)) as Hin.
  { apply elem_of_prefix; [done| |by apply (held_bytes old_key m)|].
    - apply (prefix_of_bytes _ _ Hp), Hb. congruence.
    - split; [|done]. apply Hs. eauto. }
  destruct (Iterator _ _ _); [inversion Hin|done].
Qed.

(** A 20-byte address that ends in [0xff]: the end of its range is shorter
    than an address. *)
Lemma full_address_scan s ini c fuel : length ini = 18%nat -> c <> 255 ->
  read_all (S fuel) (scan s (3 :: ini ++ [c; 255])) = Some [].
Proof.
  intros Hl Hc. unfold scan.
  replace (3 :: ini ++ [c; 255]) with ((3 :: ini ++ [c]) ++ [255])
    by (simpl; by rewrite <- app_assoc).
  rewrite PrefixEndBytes_full, prefix_end_cons by done.
  unfold legacy_Iterator, translateBoundsForIteration, bound_len. simpl.
  rewrite short_prefix by (rewrite !length_app; simpl; lia).
  unfold getAddressLengthPrefix. rewrite (proj2 (Nat.ltb_lt _ _)) by (rewrite length_app; simpl; lia).
  rewrite range_empty; [done|].
  unfold bytes_leb. by rewrite Compare_refl.
Qed.


(** A 32-byte address: its length is looked up for both bounds, and nothing
    is stored under the address of the end, so that its length counts as 20. *)
Lemma long_address_scan m s ini c fuel :
  let a := ini ++ [c] in
  contents_ok m -> bytes_ok m -> holds old_key m s ->
  length ini = 31%nat -> c <> 255 -> Forall is_byte ini -> is_byte (c + 1) ->
  (exists x, m (KState a x) <> None) ->
  (forall y, m (KState (ini ++ [c + 1]) y) = None) ->
  read_all (S fuel) (scan s (3 :: a)) = Some [].
Proof.
  intros a Hm Hb Hs Hl Hc Hbi Hc1 [x0 Hx0] Hnext. unfold a in *.
  assert (forall d, take 20 (ini ++ [d]) = take 20 ini) as Ht
    by (intros; apply take_app_le; lia).
  assert (forall d, iterator_valid (Iterator s (Some ([5; 20] ++ take 20 (ini ++ [d])))
            (PrefixEndBytes ([5; 20] ++ take 20 (ini ++ [d])))) = false) as H20.
  { intros d. rewrite Ht. apply (none_under m); [done|done|done| |].
    - do 2 (constructor; [done|]). by apply Forall_take.
    - intros k v Mk [z Ez]. destruct k as [| | |?|?|b y|?|?|?|?|?]; try discriminate Ez.
      injection Ez as El Ez.
      assert (b = take 20 ini) as ->.
      { apply app_inj_1 in Ez as [-> _]; [done|]. rewrite length_take, Hl. lia. }
      assert (take 20 ini = ini ++ [c]) as E.
      { eapply (proj2 Hm); [rewrite Mk; done|exact Hx0|]. exists (drop 20 ini ++ [c]).
        by rewrite app_assoc, take_drop. }
      apply (f_equal length) in E. rewrite length_take, length_app, Hl in E. done. }
  assert (iterator_valid (Iterator s (Some ([5; 32] ++ (ini ++ [c + 1])))
            (PrefixEndBytes ([5; 32] ++ (ini ++ [c + 1])))) = false) as H32.
  { apply (none_under m); [done|done|done| |].
    - do 2 (constructor; [done|]). apply Forall_app. by split; [|constructor].
    - intros k v Mk [z Ez]. destruct k as [| | |?|?|b y|?|?|?|?|?]; try discriminate Ez.
      injection Ez as El Ez. apply app_inj_1 in Ez as [-> _].
      + by rewrite Hnext in Mk.
      + rewrite length_app. simpl. lia. }
  assert (forall d, Nat.ltb (length (ini ++ [d])) 20 = false /\ Nat.leb 32 (length (ini ++ [d])) = true /\
    take 32 (ini ++ [d]) = ini ++ [d]) as Hlen.
  { intros d. rewrite length_app, Hl. split; [done|]. split; [done|].
    apply take_ge. rewrite length_app, Hl. done. }
  destruct (Hlen c) as (L1 & L2 & L3), (Hlen (c + 1)) as (L4 & L5 & L6).
  unfold scan. rewrite (prefix_end_cons 3 ini c Hc).
  unfold legacy_Iterator, translateBoundsForIteration, bound_len. cbn [default length Nat.eqb andb].
  unfold getAddressLengthPrefix. rewrite L1, L2, L3, L4, L5, L6, !H20, H32.
  rewrite (some_under m s _ (KState (ini ++ [c]) x0)); [|done..|].
  - unfold id. cbn [length Nat.eqb andb]. by rewrite range_empty.
  - exists x0. simpl. by rewrite length_app, Hl.
Qed.

Lemma pinned_scan s fuel :
  (size s < fuel)%nat -> read_all fuel (scan s [7]) = Some [].
Proof.
  intros Hf. unfold scan, legacy_Iterator.
  rewrite (PrefixEndBytes_last [] 7 ltac:(done) : PrefixEndBytes [7] = Some [8]).
  change (translateBoundsForIteration s (Some [7]) (Some [8])) with (Some [7], Some [8]).
  cbn iota. unfold newLegacyIterator, advance. rewrite read_advanced; cbn [under it_start it_end].
  2:{ eapply Nat.le_lt_trans; [apply iterator_length|exact Hf]. }
  f_equal. apply elem_of_nil_inv. intros x ([k v] & Hk & Hv)%list_elem_of_omap.
  apply elem_of_Iterator in Hk as [_ Hr].
  rewrite <- (PrefixEndBytes_last [] 7 ltac:(done) : PrefixEndBytes [7] = Some [8]) in Hr.
  apply (prefix_range 7) in Hr as [y ->]; done.
Qed.

(** Some iterations through the legacy store come back empty although
    the entries are there and single reads find them: over the state of a
    contract whose 20-byte address ends in [0xff] (but not in two of them),
    over the state of a contract with a 32-byte address whose successor has
    no state, and over the pinned codes. *)
Theorem legacy_scans_miss m s fuel :
  contents_ok m -> bytes_ok m -> holds old_key m s -> (size s < fuel)%nat ->
  (forall ini c x v, length ini = 18%nat -> c <> 255 ->
    let a := ini ++ [c; 255] in
    address_apart m a -> m (KState a x) = Some v ->
    legacy_Get s (3 :: a ++ x) = Some v /\ read_all fuel (scan s (3 :: a)) = Some []) /\
  (forall ini c x v, length ini = 31%nat -> c <> 255 ->
    let a := ini ++ [c] in
    address_apart m a -> m (KState a x) = Some v -> (forall y, m (KState (ini ++ [c + 1]) y) = None) ->
    legacy_Get s (3 :: a ++ x) = Some v /\ read_all fuel (scan s (3 :: a)) = Some []) /\
  (forall codeID v, m (KPinned codeID) = Some v ->
    legacy_Get s (7 :: codeID) = Some v /\ read_all fuel (scan s [7]) = Some []).
Proof.
  intros Hm Hb Hs Hf.
  assert (forall k v, read_ok m k -> m k = Some v -> hd 0 (new_key k) <> 1 -> hd 0 (new_key k) <> 2 ->
    legacy_Get s (new_key k) = Some v) as Hget.
  { intros k v Hk Mk N1 N2. unfold legacy_Get. rewrite (old_candidates m), Mk by done. f_equal.
    unfold translateLegacyValueForKey. destruct (new_key k) as [|c l]; [done|]. simpl in N1, N2.
    destruct (Z.eqb_spec c 1); [done|]. by destruct (Z.eqb_spec c 2). }
  destruct fuel as [|fuel]; [lia|]. split; [|split].
  - intros ini c x v Hl Hc a Ha Mx. split; [|by apply full_address_scan].
    apply (Hget (KState a x)); try done. split; [|done].
    apply (proj1 Hm (KState a x)). congruence.
  - intros ini c x v Hl Hc a Ha Mx Hn. split.
    + apply (Hget (KState a x)); try done. split; [|done].
      apply (proj1 Hm (KState a x)). congruence.
    + assert (Forall is_byte (5 :: 32 :: a ++ x)) as Hk.
      { pose proof (Hb (KState a x) ltac:(congruence)) as Hk. simpl in Hk.
        unfold a in Hk at 1. rewrite length_app, Hl in Hk. exact Hk. }
      apply Forall_cons in Hk as [_ Hk]. apply Forall_cons in Hk as [_ Hk].
      apply Forall_app in Hk as [Hk _]. apply Forall_app in Hk as [Hi Hcb].
      apply Forall_cons in Hcb as [Hcb _].
      apply (long_address_scan m); try done; [unfold is_byte in *; lia|].
      exists x. fold a. congruence.
  - intros codeID v Mk. split; [by apply (Hget (KPinned codeID))|by apply pinned_scan].
Qed.

End scan.

(** ** Queries at historical heights

    [query_server.go], [query_handler.go].  A context sees the stores of the
    modules; wrapping it puts a legacy store in front of the wasm store.  The
    wrapped query server and keeper belong to the wasm module and are
    parameters. *)
Inductive KVStore : Type :=
| BaseStore (s : Store)
| LegacyWasmStore (parent : KVStore).

Record QueryCtx := { q_ctx : Ctx; GetKVStore : string -> KVStore }.

(** [legacyMultiStore.GetKVStore] *)
Definition legacyMultiStore_GetKVStore (ms : string -> KVStore) (wasmKey : string) (legacy : KVStore)
    (key : string) : KVStore :=
  if String.eqb key wasmKey then legacy else ms key.

(** A nil store key is [None]. *)
Definition prepareLegacyWasmContext (ctx : QueryCtx) (wasmKey : option string) : QueryCtx * bool :=
  match wasmKey with
  | None => (ctx, false)
  | Some wasmKey =>
      if negb (isPreWasmKeyMigration (ChainID (q_ctx ctx)) (BlockHeight (q_ctx ctx))) then (ctx, false)
      else
        let legacyStore := LegacyWasmStore (GetKVStore ctx wasmKey) in
        ({| q_ctx := q_ctx ctx;
            GetKVStore := legacyMultiStore_GetKVStore (GetKVStore ctx) wasmKey legacyStore |}, true)
  end.

Class WasmServer (Req Resp : Type) := {
  QueryServer_SmartContractState : QueryCtx -> Req -> res Resp;
  QueryServer_ContractInfo : QueryCtx -> Req -> res Resp;
  QueryServer_ContractHistory : QueryCtx -> Req -> res Resp;
  QueryServer_ContractsByCode : QueryCtx -> Req -> res Resp;
  QueryServer_AllContractState : QueryCtx -> Req -> res Resp;
  QueryServer_RawContractState : QueryCtx -> Req -> res Resp;
  QueryServer_Code : QueryCtx -> Req -> res Resp;
  QueryServer_Codes : QueryCtx -> Req -> res Resp;
  QueryServer_PinnedCodes : QueryCtx -> Req -> res Resp;
  QueryServer_Params : QueryCtx -> Req -> res Resp;
  keeper_QuerySmart : QueryCtx -> string -> bytes -> res Resp;
  req_Address : Req -> string;
  req_QueryData : Req -> bytes;
  AccAddressFromBech32_ok : string -> bool;
  next_HandleQuery : QueryCtx -> string -> Req -> res Resp;
}.

Section server.
Context {Req Resp : Type} `{!WasmServer Req Resp} (storeKey : option string).

Definition ensureLegacyWasm (ctx : QueryCtx) : QueryCtx * bool :=
  if isPreWasmKeyMigration (ChainID (q_ctx ctx)) (BlockHeight (q_ctx ctx)) then
    let '(wrappedCtx, ok) := prepareLegacyWasmContext ctx storeKey in
    if (ok : bool) then (wrappedCtx, true) else (ctx, false)
  else (ctx, false).

(** [time.Date(2022, 1, 1, 0, 0, 0, 0, time.UTC)] in seconds, as block times
    are kept, and [time.Minute] in nanoseconds, as durations are. *)
Definition time_2022 : Z := 1640995200.
Definition time_Minute : Z := 60 * 10 ^ 9.

Definition WithBlockTime (ctx : QueryCtx) (t : Z) : QueryCtx :=
  {| q_ctx := mkCtx (BlockHeight (q_ctx ctx)) t (ChainID (q_ctx ctx)) (IsCheckTx (q_ctx ctx))
                (IsReCheckTx (q_ctx ctx));
     GetKVStore := GetKVStore ctx |}.

Definition SmartContractState (ctx : QueryCtx) (req : option Req) : res Resp :=
  match req with
  | None => Err (Registered "wasm" 12)
  | Some req =>
      if negb (isPreWasmKeyMigration (ChainID (q_ctx ctx)) (BlockHeight (q_ctx ctx)))
      then QueryServer_SmartContractState ctx req
      else
        let '(ctx, _) := ensureLegacyWasm ctx in
        let hasTimeIssue := BlockTime (q_ctx ctx) <=? 0 in
        let effectiveCtx :=
          if hasTimeIssue
          then WithBlockTime ctx (time_2022 + i64 (BlockHeight (q_ctx ctx) * time_Minute) / 10 ^ 9)
          else ctx in
        if negb (AccAddressFromBech32_ok (req_Address req)) then Panic
        else keeper_QuerySmart effectiveCtx (req_Address req) (req_QueryData req)
  end.

Definition ContractInfo_query (ctx : QueryCtx) (req : Req) : res Resp :=
  let '(ctx, _) := ensureLegacyWasm ctx in QueryServer_ContractInfo ctx req.
Definition ContractHistory (ctx : QueryCtx) (req : Req) : res Resp :=
  let '(ctx, _) := ensureLegacyWasm ctx in QueryServer_ContractHistory ctx req.
Definition ContractsByCode (ctx : QueryCtx) (req : Req) : res Resp :=
  let '(ctx, _) := ensureLegacyWasm ctx in QueryServer_ContractsByCode ctx req.
Definition AllContractState (ctx : QueryCtx) (req : Req) : res Resp :=
  let '(ctx, _) := ensureLegacyWasm ctx in QueryServer_AllContractState ctx req.
Definition RawContractState (ctx : QueryCtx) (req : Req) : res Resp :=
  let '(ctx, _) := ensureLegacyWasm ctx in QueryServer_RawContractState ctx req.
Definition Code (ctx : QueryCtx) (req : Req) : res Resp :=
  let '(ctx, _) := ensureLegacyWasm ctx in QueryServer_Code ctx req.
Definition Codes (ctx : QueryCtx) (req : Req) : res Resp :=
  let '(ctx, _) := ensureLegacyWasm ctx in QueryServer_Codes ctx req.
Definition PinnedCodes (ctx : QueryCtx) (req : Req) : res Resp :=
  let '(ctx, _) := ensureLegacyWasm ctx in QueryServer_PinnedCodes ctx req.
Definition Params_query (ctx : QueryCtx) (req : Req) : res Resp :=
  let '(ctx, _) := ensureLegacyWasm ctx in QueryServer_Params ctx req.

Definition HandleQuery (ctx : QueryCtx) (caller : string) (request : Req) : res Resp :=
  let ctx :=
    if isPreWasmKeyMigration (ChainID (q_ctx ctx)) (BlockHeight (q_ctx ctx)) then
      let '(wrappedCtx, ok) := prepareLegacyWasmContext ctx storeKey in
      if (ok : bool) then wrappedCtx else ctx
    else ctx in
  next_HandleQuery ctx caller request.

(** Which contexts a query runs in: before the upgrade, on the two networks,
    the wasm store is read through the legacy store and a missing block time
    is replaced by a minute per block from 2022 on; afterwards nothing
    changes. *)
Theorem historical_contexts ctx name height limit :
  storeKey = Some name -> BlockHeight (q_ctx ctx) = height -> 0 < height ->
  (ChainID (q_ctx ctx) = ColumbusChainID /\ limit = wasmMigrationHeightMainnet \/
   ChainID (q_ctx ctx) = RebelChainID /\ limit = wasmMigrationHeightTestnet) ->
  (height < limit ->
    exists ctx', ensureLegacyWasm ctx = (ctx', true) /\ q_ctx ctx' = q_ctx ctx /\
      (forall key, GetKVStore ctx' key =
        if String.eqb key name then LegacyWasmStore (GetKVStore ctx name) else GetKVStore ctx key) /\
      forall req, AccAddressFromBech32_ok (req_Address req) = true ->
        SmartContractState ctx (Some req) =
          keeper_QuerySmart
            (if BlockTime (q_ctx ctx) <=? 0 then WithBlockTime ctx' (time_2022 + 60 * height) else ctx')
            (req_Address req) (req_QueryData req)) /\
  (limit <= height -> ensureLegacyWasm ctx = (ctx, false) /\
    forall req, SmartContractState ctx (Some req) = QueryServer_SmartContractState ctx req).
Proof.
  intros Hk Hh Hpos Hlim.
  assert (isPreWasmKeyMigration (ChainID (q_ctx ctx)) (BlockHeight (q_ctx ctx)) = (height <? limit)
          /\ limit <= wasmMigrationHeightTestnet) as [Hpre Hlt].
  { unfold isPreWasmKeyMigration. rewrite Hh, (proj2 (Z.leb_gt _ _) Hpos).
    destruct Hlim as [[-> ->]|[-> ->]]; done. }
  unfold ensureLegacyWasm, SmartContractState, ensureLegacyWasm, prepareLegacyWasmContext.
  rewrite Hk, Hpre. split.
  - intros Hl%Z.ltb_lt. rewrite Hl. cbn [negb]. eexists. split; [reflexivity|].
    split; [done|]. split; [done|]. intros req ->. cbn [negb q_ctx]. rewrite Hh.
    assert (i64 (height * time_Minute) / 10 ^ 9 = 60 * height) as ->.
    { apply Z.ltb_lt in Hl. unfold i64, time_Minute, wasmMigrationHeightTestnet in *.
      rewrite Z.mod_small by lia.
      replace (_ - 2 ^ 63) with (60 * height * 10 ^ 9) by lia. apply Z.div_mul. lia. }
    done.
  - intros Hl%Z.ltb_ge. by rewrite Hl.
Qed.

End server.

(** ** Examples *)
Module Example.
Import WasmMigration.Example.

Definition addr_ff : bytes := replicate 18 1 ++ [2; 255].

Definition l0 : list (wasm_key * bytes) := (KState addr_ff [3], [12]) :: old_entries.
Definition m0 : wasm_key -> option bytes := contents_of l0.
Definition s0 : Store := store_of old_key l0.

#[export] Instance codec : WasmCodec := {
  LegacyCodeInfo_Unmarshal _ := Err (Plain "wire type");
  LegacyContractInfo_Unmarshal _ := Err (Plain "wire type");
  CodeInfo_Marshal _ := Ok [];
  ContractInfo_Marshal _ := Ok [];
}.

Lemma m0_ok : contents_ok m0.
Proof. apply entries_contents_ok; apply (bool_decide_unpack _); by vm_compute. Qed.

Lemma s0_holds : holds old_key m0 s0.
Proof. apply holds_list. apply (bool_decide_unpack _). by vm_compute. Qed.

(** A condition on the entries of a list holds of its contents. *)
Lemma contents_forall (P : wasm_key -> Prop) l : Forall (fun kv => P kv.1) l ->
  forall k, contents_of l k <> None -> P k.
Proof.
  induction 1 as [|[j v] l Hj Hl IH]; intros k Hk; [done|]. simpl in Hk.
  case_decide; [by subst|by apply IH].
Qed.

Definition state_ok (P : bytes -> Prop) (k : wasm_key) : Prop :=
  match k with KState b _ => P b | _ => True end.

#[export] Instance state_ok_dec P `{!forall b, Decision (P b)} k : Decision (state_ok P k).
Proof. destruct k; simpl; apply _. Defined.

Lemma m0_bytes : bytes_ok m0.
Proof.
  refine (contents_forall (fun k => Forall is_byte (old_key k)) l0 _).
  apply (bool_decide_unpack _). by vm_compute.
Qed.

Definition apart (a b : bytes) : Prop :=
  (a <> b -> ~ compat a b) /\ ~ compat a (Z.of_nat (length b) :: b).

#[export] Instance apart_dec a b : Decision (apart a b).
Proof. unfold apart. apply _. Defined.

Lemma m0_apart a : bool_decide (Forall (fun kv => state_ok (apart a) kv.1) l0) = true ->
  address_apart m0 a.
Proof. intros Ha%bool_decide_eq_true b y Hb. apply (contents_forall _ _ Ha (KState b y) Hb). Qed.

Definition s1 : Store := (migrateWasmKeys s0).2.

Lemma s1_run : migrateWasmKeys s0 = (Ok tt, s1).
Proof. unfold s1. apply run_eq. by vm_compute. Qed.

End Example.

#[local] Existing Instances Example.codec Example.state_ok_dec.

Lemma legacy_iteration_ends_witness :
  exists shown, read_all 13 (legacy_Iterator Example.s0 None None) = Some shown /\
    (3 :: WasmMigration.Example.addr20 ++ [1], [7]) ∈ shown.
Proof.
  destruct (legacy_iteration_ends Example.m0 Example.s0 None None 13 Example.m0_ok Example.s0_holds)
    as (shown & E & _ & _ & Hall); [vm_compute; lia|].
  exists shown. split; [exact E|].
  apply (Hall fb_all (KState WasmMigration.Example.addr20 [1]) [7]); reflexivity.
Defined.


Lemma contract_scan_agrees_witness :
  read_all 13 (scan Example.s0 (3 :: WasmMigration.Example.addr20)) =
    Some (Iterator Example.s1 (Some (3 :: WasmMigration.Example.addr20))
            (PrefixEndBytes (3 :: WasmMigration.Example.addr20))) /\
  length (Iterator Example.s1 (Some (3 :: WasmMigration.Example.addr20))
            (PrefixEndBytes (3 :: WasmMigration.Example.addr20))) = 2%nat.
Proof.
  split; [|by vm_compute].
  apply (contract_scan_agrees Example.m0 Example.s0 Example.s1 (replicate 19 7) 7 13
    Example.m0_ok Example.m0_bytes Example.s0_holds Example.s1_run); try done.
  - apply (bool_decide_unpack _). by vm_compute.
  - intros b y Hb. apply (Example.m0_apart (replicate 19 7 ++ [7])) in Hb as [Hb _]; [done|].
    by vm_compute.
  - vm_compute. lia.
Defined.

Lemma legacy_scans_miss_witness :
  legacy_Get Example.s0 (3 :: Example.addr_ff ++ [3]) = Some [12] /\
  read_all 13 (scan Example.s0 (3 :: Example.addr_ff)) = Some [] /\
  legacy_Get Example.s0 (3 :: WasmMigration.Example.addr32 ++ [1; 2]) = Some [9] /\
  read_all 13 (scan Example.s0 (3 :: WasmMigration.Example.addr32)) = Some [] /\
  legacy_Get Example.s0 (7 :: Uint64ToBigEndian 1) = Some [] /\
  read_all 13 (scan Example.s0 [7]) = Some [].
Proof.
  destruct (legacy_scans_miss Example.m0 Example.s0 13 Example.m0_ok Example.m0_bytes
    Example.s0_holds ltac:(vm_compute; lia)) as (H1 & H2 & H3).
  destruct (H1 (replicate 18 1) 2 [3] [12]) as [A1 A2]; [done|done| |done|].
  { apply Example.m0_apart. by vm_compute. }
  destruct (H2 (replicate 31 9) 9 [1; 2] [9]) as [B1 B2]; [done|done| |done| |].
  { apply Example.m0_apart. by vm_compute. }
  { intros y. destruct (Example.m0 _) eqn:E; [|done]. exfalso.
    assert (Example.state_ok (fun b => b <> replicate 31 9 ++ [9 + 1])
              (KState (replicate 31 9 ++ [9 + 1]) y)) as Hn; [|by apply Hn].
    apply (Example.contents_forall _ Example.l0); [|unfold Example.m0 in E; by rewrite E].
    apply (bool_decide_unpack _). by vm_compute. }
  destruct (H3 (Uint64ToBigEndian 1) []) as [C1 C2]; [done|].
  by repeat split.
Defined.
