(* ===== verification/Bindings.v ===== *)
(** * Contract bindings

    [src/wasmbinding]: what a contract can ask of the chain through its own
    messages and queries, and [src/custom/wasm/keeper/handler_plugin.go]: how
    the messages a contract emits reach the modules.  Requests are JSON
    values; the JSON form of a coin, the message router and the messenger
    behind the custom one belong to other packages and are parameters.
    Answers are kept as values: printing them is left out. *)
From stdpp Require Import base gmap sets list strings fin_maps.
From Stdlib Require Import ZArith Lia Ascii.
From S2P Require Import Prelude Core Sdk SdkRef Market.
#[local] Open Scope Z_scope.

(** ** JSON, as encoding/json reads it into Go values *)
Inductive json : Type :=
| JNull
| JBool (b : bool)
| JNumber (text : string)
| JString (text : string)
| JArray (l : list json)
| JObject (fields : list (string * json)).

(** A map is read key by key: the last entry of a name counts. *)
Fixpoint field (name : string) (fs : list (string * json)) : option json :=
  match fs with
  | [] => None
  | (n, j) :: fs =>
      match field name fs with
      | Some v => Some v
      | None => if String.eqb n name then Some j else None
      end
  end.

Definition ErrJSON : error := Plain "json".

(** The name of a field of a struct is compared up to case: letters of ASCII
    are raised, and so are the two letters of Unicode that fold to one, the
    long s and the sign of Kelvin. *)
Fixpoint foldName (s : string) : string :=
  match s with
  | EmptyString => EmptyString
  | String "197" (String "191" s) => String "S" (foldName s)
  | String "226" (String "132" (String "170" s)) => String "K" (foldName s)
  | String c s =>
      let n := nat_of_ascii c in
      String (if (97 <=? n)%nat && (n <=? 122)%nat then ascii_of_nat (n - 32) else c) (foldName s)
  end.
Definition is_field (name key : string) : bool := String.eqb (foldName key) (foldName name).

(** The decoders read into the value that is there: the entries of an object
    are read one after the other, so a second entry of a field is read into
    what the first one left, and [null] changes nothing but a pointer or a
    slice, which it sets to nil. *)
Definition decode_text (old : string) (j : json) : res string :=
  match j with JNull => Ok old | JString s => Ok s | _ => Err ErrJSON end.

Fixpoint decode_elems (old : list string) (l : list json) : res (list string) :=
  match l with
  | [] => Ok []
  | j :: l =>
      t ← decode_text (hd "" old) j;
      ts ← decode_elems (tl old) l;
      Ok (t :: ts)
  end.
Definition decode_texts (old : list string) (j : json) : res (list string) :=
  match j with JNull => Ok [] | JArray l => decode_elems old l | _ => Err ErrJSON end.

Definition decode_pointer {A} (decode : A -> json -> res A) (zero : A) (old : option A) (j : json) : res (option A) :=
  match j with JNull => Ok None | _ => a ← decode (default zero old) j; Ok (Some a) end.

(** [step] reads one entry; entries of other names are passed over. *)
Definition decode_struct {A} (step : A -> string * json -> res A) (old : A) (j : json) : res A :=
  match j with
  | JNull => Ok old
  | JObject fs => foldRes step old fs
  | _ => Err ErrJSON
  end.

(** ** wasmbinding/bindings *)

(** A coin as it is read: one that the request leaves out, or gives without an
    amount, has a nil amount. *)
Record JsonCoin : Type := mkJsonCoin { jc_Denom : string; jc_Amount : option Z }.
Definition no_coin : JsonCoin := mkJsonCoin "" None.
Definition given (c : Coin) : JsonCoin := mkJsonCoin (Denom c) (Some (Amount c)).
Definition coin_of (c : JsonCoin) : option Coin :=
  match jc_Amount c with Some a => Some (mkCoin (jc_Denom c) a) | None => None end.

Record Swap_binding : Type := mkSwap { sw_OfferCoin : JsonCoin; sw_AskDenom : string }.
Record SwapSend_binding : Type := mkSwapSend {
  ss_ToAddress : string; ss_OfferCoin : JsonCoin; ss_AskDenom : string;
}.
Record DoMsg : Type := mkDoMsg { dm_Swap : option Swap_binding; dm_SwapSend : option SwapSend_binding }.

Record ExchangeRateQueryParams : Type := mkRates { BaseDenom : string; QuoteDenoms : list string }.
Record DoQuery : Type := mkDoQuery {
  dq_Swap : option Swap_binding;
  dq_ExchangeRates : option ExchangeRateQueryParams;
  dq_TaxRate : bool;
  dq_TaxCap : option string;
}.

Record ExchangeRateItem : Type := mkItem { ExchangeRate : Z; QuoteDenom : string }.

Inductive QueryAnswer : Type :=
| SwapQueryResponse (receive : Coin)
| ExchangeRatesQueryResponse (baseDenom : string) (rates : list ExchangeRateItem)
| TaxRateQueryResponse (rate : Z)
| TaxCapQueryResponse (cap : Z).

(** The JSON form of an [sdk.Coin], read into a coin. *)
Class CoinJson : Type := coin_of_json : JsonCoin -> json -> res JsonCoin.

Section parsing.
Context `{CoinJson}.

Definition decode_Swap (old : Swap_binding) (j : json) : res Swap_binding :=
  decode_struct (fun m kv =>
    if is_field "offer_coin" kv.1 then offer ← coin_of_json (sw_OfferCoin m) kv.2; Ok (mkSwap offer (sw_AskDenom m))
    else if is_field "ask_denom" kv.1 then ask ← decode_text (sw_AskDenom m) kv.2; Ok (mkSwap (sw_OfferCoin m) ask)
    else Ok m) old j.

Definition decode_SwapSend (old : SwapSend_binding) (j : json) : res SwapSend_binding :=
  decode_struct (fun m kv =>
    if is_field "to_address" kv.1 then
      to ← decode_text (ss_ToAddress m) kv.2; Ok (mkSwapSend to (ss_OfferCoin m) (ss_AskDenom m))
    else if is_field "offer_coin" kv.1 then
      offer ← coin_of_json (ss_OfferCoin m) kv.2; Ok (mkSwapSend (ss_ToAddress m) offer (ss_AskDenom m))
    else if is_field "ask_denom" kv.1 then
      ask ← decode_text (ss_AskDenom m) kv.2; Ok (mkSwapSend (ss_ToAddress m) (ss_OfferCoin m) ask)
    else Ok m) old j.

Definition decode_swap_pointer := decode_pointer decode_Swap (mkSwap no_coin "").
Definition decode_send_pointer := decode_pointer decode_SwapSend (mkSwapSend "" no_coin "").

Definition unmarshal_DoMsg (j : json) : res DoMsg :=
  decode_struct (fun m kv =>
    if is_field "swap" kv.1 then p ← decode_swap_pointer (dm_Swap m) kv.2; Ok (mkDoMsg p (dm_SwapSend m))
    else if is_field "swap_send" kv.1 then p ← decode_send_pointer (dm_SwapSend m) kv.2; Ok (mkDoMsg (dm_Swap m) p)
    else Ok m) (mkDoMsg None None) j.

Definition decode_Rates (old : ExchangeRateQueryParams) (j : json) : res ExchangeRateQueryParams :=
  decode_struct (fun m kv =>
    if is_field "base_denom" kv.1 then base ← decode_text (BaseDenom m) kv.2; Ok (mkRates base (QuoteDenoms m))
    else if is_field "quote_denoms" kv.1 then quotes ← decode_texts (QuoteDenoms m) kv.2; Ok (mkRates (BaseDenom m) quotes)
    else Ok m) old j.

Definition decode_Empty (old : unit) (j : json) : res unit := decode_struct (fun m _ => Ok m) old j.

Definition decode_TaxCap (old : string) (j : json) : res string :=
  decode_struct (fun m kv => if is_field "denom" kv.1 then decode_text m kv.2 else Ok m) old j.

Definition unmarshal_DoQuery (j : json) : res DoQuery :=
  decode_struct (fun q kv =>
    if is_field "swap" kv.1 then
      p ← decode_swap_pointer (dq_Swap q) kv.2; Ok (mkDoQuery p (dq_ExchangeRates q) (dq_TaxRate q) (dq_TaxCap q))
    else if is_field "exchange_rates" kv.1 then
      p ← decode_pointer decode_Rates (mkRates "" []) (dq_ExchangeRates q) kv.2;
      Ok (mkDoQuery (dq_Swap q) p (dq_TaxRate q) (dq_TaxCap q))
    else if is_field "tax_rate" kv.1 then
      p ← decode_pointer decode_Empty tt None kv.2;
      Ok (mkDoQuery (dq_Swap q) (dq_ExchangeRates q) (bool_decide (is_Some p)) (dq_TaxCap q))
    else if is_field "tax_cap" kv.1 then
      p ← decode_pointer decode_TaxCap "" (dq_TaxCap q) kv.2;
      Ok (mkDoQuery (dq_Swap q) (dq_ExchangeRates q) (dq_TaxRate q) p)
    else Ok q) (mkDoQuery None None false None) j.

(** ** query_plugin.go: the routed form of old contracts.  [len] is the length
    of the text of the request. *)
Record legacyRouted : Type := mkRouted { lr_Route : string; lr_QueryData : list (string * json) }.
Definition decode_QueryData (old : list (string * json)) (j : json) : res (list (string * json)) :=
  match j with JNull => Ok [] | JObject q => Ok (old ++ q) | _ => Err ErrJSON end.
Definition unmarshal_legacyRouted (j : json) : res legacyRouted :=
  decode_struct (fun m kv =>
    if is_field "route" kv.1 then route ← decode_text (lr_Route m) kv.2; Ok (mkRouted route (lr_QueryData m))
    else if is_field "query_data" kv.1 then
      q ← decode_QueryData (lr_QueryData m) kv.2; Ok (mkRouted (lr_Route m) q)
    else Ok m) (mkRouted "" []) j.

Definition normalizeLegacyRoutedQueryJSON (len : Z) (request : json) : json :=
  if Z.shiftl 64 10 <? len then request
  else match unmarshal_legacyRouted request with
  | Ok lr =>
          let route := lr_Route lr in
          let queryData := lr_QueryData lr in
          if String.eqb route "" then request
          else if String.eqb route "treasury" then
            match field "tax_rate" queryData with
            | Some _ => JObject [("tax_rate", JObject [])]
            | None =>
                match field "tax_cap" queryData with
                | Some capRaw => JObject [("tax_cap", capRaw)]
                | None => request
                end
            end
          else if String.eqb route "oracle" then
            match field "exchange_rates" queryData with
            | Some er => JObject [("exchange_rates", er)]
            | None => request
            end
          else if String.eqb route "market" then
            match field "swap" queryData with
            | Some sw => JObject [("swap", sw)]
            | None => request
            end
          else request
  | _ => request
  end.

End parsing.

(** What the querier reads of the treasury, and the text form of a coin. *)
Class TreasuryView (T : Type) : Type := {
  view_TaxRate : T -> Z;
  view_TaxCap : T -> string -> res Z;
}.

Class CoinText : Type := {
  CoinString : Coin -> string;
  ParseCoinNormalized : string -> res Coin;
}.

(** A valid coin is read back from its text. *)
Class CoinTextLaws `{CoinText} `{CoinOps} : Prop :=
  parse_coin_string : forall c, CoinIsValid c = true -> ParseCoinNormalized (CoinString c) = Ok c.

Section bindings.
Context {B O T : Type} `{BankOps B} `{OracleKeeper O} `{MathOps} `{CoinOps} `{AddrCodec}
  `{!TreasuryView T} `{CoinJson} `{CoinText}.
Implicit Types (s : State B O) (t : T).

(** ** message_plugin.go

    A coin without an amount makes [ValidateBasic] panic when it compares the
    amount, after the address has been parsed. *)
Definition PerformSwap (ctx : Ctx) (contractAddr : AccAddress) (contractMsg : option Swap_binding) :
    M (State B O) MsgSwapResponse :=
  match contractMsg with
  | None => throw (Plain "market swap msg was null")
  | Some m =>
      match coin_of (sw_OfferCoin m) with
      | None => panic
      | Some offer =>
          let msgSwap := mkMsgSwap (AccAddressString contractAddr) offer (sw_AskDenom m) in
          lift (MsgSwap_ValidateBasic msgSwap) ;;
          Swap ctx msgSwap
      end
  end.

Definition PerformSwapSend (ctx : Ctx) (contractAddr : AccAddress)
    (contractMsg : option SwapSend_binding) : M (State B O) MsgSwapResponse :=
  match contractMsg with
  | None => throw (Plain "market swap send msg was null")
  | Some m =>
      toAddr ← lift (AccAddressFromBech32 (ss_ToAddress m));
      match coin_of (ss_OfferCoin m) with
      | None => panic
      | Some offer =>
          let msgSwapSend := mkMsgSwapSend (AccAddressString contractAddr) (AccAddressString toAddr)
                               offer (ss_AskDenom m) in
          lift (MsgSwapSend_ValidateBasic msgSwapSend) ;;
          SwapSend ctx msgSwapSend
      end
  end.

Definition swap (ctx : Ctx) (contractAddr : AccAddress) (contractMsg : Swap_binding) :
    M (State B O) (list MsgSwapResponse) :=
  r ← PerformSwap ctx contractAddr (Some contractMsg); mret [r].

Definition swapSend (ctx : Ctx) (contractAddr : AccAddress) (contractMsg : SwapSend_binding) :
    M (State B O) (list MsgSwapResponse) :=
  r ← PerformSwapSend ctx contractAddr (Some contractMsg); mret [r].

(** A message of a contract: [msg.Custom], or one for the messenger behind. *)
Definition CustomMessenger_DispatchMsg {Other : Type}
    (wrapped : AccAddress -> Other -> M (State B O) (list MsgSwapResponse))
    (ctx : Ctx) (contractAddr : AccAddress) (msg : json + Other) :
    M (State B O) (list MsgSwapResponse) :=
  match msg with
  | inl custom =>
      contractMsg ← lift (unmarshal_DoMsg custom);
      match dm_Swap contractMsg, dm_SwapSend contractMsg with
      | Some m, _ => swap ctx contractAddr m
      | None, Some m => swapSend ctx contractAddr m
      | None, None => throw (Foreign "unknown do msg variant")
      end
  | inr other => wrapped contractAddr other
  end.

(** ** query_plugin.go

    The text of a coin without an amount is not the text of a coin. *)
Fixpoint rate_items s (base : Z) (quotes : list string) : res (list ExchangeRateItem) :=
  match quotes with
  | [] => Ok []
  | q :: quotes =>
      match GetDoExchangeRate (st_oracle s) q with
      | Ok rate =>
          r ← DecQuo rate base;
          items ← rate_items s base quotes;
          Ok (mkItem r q :: items)
      | Err _ => rate_items s base quotes
      | Panic => Panic
      end
  end.

Definition answer_query s t (q : DoQuery) : res QueryAnswer :=
  match dq_Swap q, dq_ExchangeRates q, dq_TaxRate q, dq_TaxCap q with
  | Some m, _, _, _ =>
      match coin_of (sw_OfferCoin m) with
      | None =>
          if negb (ValidDenom (sw_AskDenom m)) then Err (Plain "invalid ask denom")
          else Err (Plain "InvalidArgument")
      | Some offer =>
          ret ← QuerySwap ParseCoinNormalized s (CoinString offer) (sw_AskDenom m);
          Ok (SwapQueryResponse ret)
      end
  | None, Some r, _, _ =>
      base ← GetDoExchangeRate (st_oracle s) (BaseDenom r);
      items ← rate_items s base (QuoteDenoms r);
      Ok (ExchangeRatesQueryResponse (BaseDenom r) items)
  | None, None, true, _ => Ok (TaxRateQueryResponse (view_TaxRate t))
  | None, None, false, Some denom =>
      cap ← view_TaxCap t denom; Ok (TaxCapQueryResponse cap)
  | None, None, false, None => Err (Foreign "unknown do query variant")
  end.

Definition CustomQuerier s t (len : Z) (request : json) : res QueryAnswer :=
  contractQuery ← unmarshal_DoQuery (normalizeLegacyRoutedQueryJSON len request);
  answer_query s t contractQuery.

End bindings.

(** ** custom/wasm/keeper/handler_plugin.go

    A message is a Go value that may or may not have the methods
    [ValidateBasic] and [GetSigners]; [GetSigners] of a malformed message
    panics. *)
Record SdkMsg (Body : Type) : Type := mkSdkMsg {
  msg_ValidateBasic : option (res unit);
  msg_GetSigners : option (res (list AccAddress));
  msg_body : Body;
}.
Arguments mkSdkMsg {Body}.
Arguments msg_ValidateBasic {Body}.
Arguments msg_GetSigners {Body}.
Arguments msg_body {Body}.

Section handler.
Context {S Body CosmosMsg Data : Type}.
Variable router : Body -> option (M S Data).
Variable encode : AccAddress -> CosmosMsg -> res (list (SdkMsg Body)).

Definition check_signers (contractAddr : AccAddress) (signers : list AccAddress) : res unit :=
  foldRes (fun _ acct => if String.eqb acct contractAddr then Ok tt
                         else Err (SdkError "ErrUnauthorized")) tt signers.

Definition handleSdkMessage (contractAddr : AccAddress) (msg : SdkMsg Body) : M S Data :=
  lift (match msg_ValidateBasic msg with Some r => r | None => Ok tt end) ;;
  lift (match msg_GetSigners msg with
        | Some signers => l ← signers; check_signers contractAddr l
        | None => Ok tt
        end) ;;
  match router (msg_body msg) with
  | Some handler => handler
  | None => throw (SdkError "ErrUnknownRequest")
  end.

Fixpoint handle_all (contractAddr : AccAddress) (msgs : list (SdkMsg Body)) : M S (list Data) :=
  match msgs with
  | [] => mret []
  | msg :: msgs =>
      d ← handleSdkMessage contractAddr msg;
      ds ← handle_all contractAddr msgs;
      mret (d :: ds)
  end.

Definition SDKMessageHandler_DispatchMsg (contractAddr : AccAddress) (msg : CosmosMsg) : M S (list Data) :=
  sdkMsgs ← lift (encode contractAddr msg);
  handle_all contractAddr sdkMsgs.

End handler.

(** ** Swaps of contracts *)
Section swaps.
Context {B O T : Type} `{BankOps B} `{OracleKeeper O} `{MathOps} `{CoinOps} `{AddrCodec}
  `{!TreasuryView T} `{CoinJson} `{CoinText}.
Context `{!BankLaws B} `{!MathLaws} `{!CoinLaws} `{!AddrLaws} `{!CoinTextLaws}.
Implicit Types (s : State B O) (t : T).

(** What a message of a contract asks of the market. *)
Inductive asks : DoMsg -> option string -> Coin -> string -> Prop :=
| asks_swap offer ask other :
    asks (mkDoMsg (Some (mkSwap (given offer) ask)) other) None offer ask
| asks_send to offer ask :
    asks (mkDoMsg None (Some (mkSwapSend to (given offer) ask))) (Some to) offer ask.

Lemma asked c ask other to offer ask' :
  asks (mkDoMsg (Some (mkSwap (given c) ask)) other) to offer ask' -> to = None /\ offer = c /\ ask' = ask.
Proof. destruct c as [d n]. intros Ha. inversion Ha as [[d' n'] a o Eo|]. by simplify_eq/=. Qed.

Lemma MsgSwap_valid m : MsgSwap_ValidateBasic m = Ok tt ->
  0 < Amount (OfferCoin m) /\ bit_len (Amount (OfferCoin m)) <= 100.
Proof.
  unfold MsgSwap_ValidateBasic. destruct (AccAddressFromBech32 _); try done.
  destruct (Z.leb_spec (Amount (OfferCoin m)) 0); [done|].
  destruct (Z.ltb_spec 100 (bit_len (Amount (OfferCoin m)))); [done|]. intros _. lia.
Qed.

Lemma MsgSwapSend_valid m : MsgSwapSend_ValidateBasic m = Ok tt ->
  0 < Amount (SendOfferCoin m) /\ bit_len (Amount (SendOfferCoin m)) <= 100.
Proof.
  unfold MsgSwapSend_ValidateBasic. destruct (AccAddressFromBech32 _); try done.
  destruct (AccAddressFromBech32 _); try done.
  destruct (Z.leb_spec (Amount (SendOfferCoin m)) 0); [done|].
  destruct (Z.ltb_spec 100 (bit_len (Amount (SendOfferCoin m)))); [done|]. intros _. lia.
Qed.

(** A custom message that succeeds is one request to the market, with the
    contract as the trader. *)
Lemma dispatch_ok {Other} (wrapped : AccAddress -> Other -> M (State B O) (list MsgSwapResponse))
    ctx contract txt j s rs s' :
  AccAddressFromBech32 txt = Ok contract ->
  CustomMessenger_DispatchMsg wrapped ctx contract (inl j) s = (Ok rs, s') ->
  exists m to offer ask receiver r, unmarshal_DoMsg j = Ok m /\ asks m to offer ask /\
    match to with Some to => AccAddressFromBech32 to = Ok receiver | None => receiver = contract end /\
    0 < Amount offer /\ bit_len (Amount offer) <= 100 /\ rs = [r] /\
    handleSwapRequest ctx contract receiver offer ask s = (Ok r, s').
Proof.
  intros Hc E. apply acc_roundtrip in Hc as Ha.
  unfold CustomMessenger_DispatchMsg in E. m_lift E as m Em.
  destruct m as [[[[d [n|]] ask]|] other]; cbn [dm_Swap dm_SwapSend] in E.
  - unfold swap in E. m_bind E as r Er. cbn [PerformSwap sw_OfferCoin sw_AskDenom coin_of jc_Amount jc_Denom] in Er.
    set (offer := mkCoin d n) in Er. change (mkJsonCoin d (Some n)) with (given offer) in Em.
    m_lift Er as [] Ev. unfold Swap in Er. m_lift Er as a Ea. cbn [Trader OfferCoin AskDenom] in *.
    rewrite Ha in Ea. injection Ea as <-. apply MsgSwap_valid in Ev as [? ?]. m_inv E.
    eexists _, None, offer, ask, contract, r. split; [exact Em|]. split; [constructor|]. done.
  - unfold swap in E. m_bind E as r Er. done.
  - destruct other as [[to [d [n|]] ask]|]; [| |done].
    + unfold swapSend in E. m_bind E as r Er.
      cbn [PerformSwapSend ss_OfferCoin ss_AskDenom ss_ToAddress coin_of jc_Amount jc_Denom] in Er.
      set (offer := mkCoin d n) in Er. change (mkJsonCoin d (Some n)) with (given offer) in Em.
      m_lift Er as toAddr Et. m_lift Er as [] Ev. unfold SwapSend in Er.
      m_lift Er as a Ea. cbn [FromAddress ToAddress SendOfferCoin SendAskDenom] in *.
      rewrite Ha in Ea. injection Ea as <-. m_lift Er as b Eb.
      apply acc_roundtrip in Et as Et'. rewrite Et' in Eb. injection Eb as <-.
      apply MsgSwapSend_valid in Ev as [? ?]. m_inv E.
      eexists _, (Some to), offer, ask, toAddr, r. split; [exact Em|]. split; [constructor|]. done.
    + unfold swapSend in E. m_bind E as r Er. cbn [PerformSwapSend ss_OfferCoin] in Er.
      m_lift Er as a Ea. done.
Qed.

(** C4: A swap a contract asks for is paid by the contract alone: it loses
    the coins it offers, it or the address it names receives the result, the
    oracle gets the fee, and no other account loses anything. *)
Theorem contract_pays_its_swaps {Other}
    (wrapped : AccAddress -> Other -> M (State B O) (list MsgSwapResponse))
    ctx contract txt j s rs s' :
  AccAddressFromBech32 txt = Ok contract ->
  CustomMessenger_DispatchMsg wrapped ctx contract (inl j) s = (Ok rs, s') ->
  exists m to offer ask receiver r, unmarshal_DoMsg j = Ok m /\ asks m to offer ask /\
    match to with Some to => AccAddressFromBech32 to = Ok receiver | None => receiver = contract end /\
    rs = [r] /\ 0 < Amount offer /\ 0 < Amount (SwapCoin r) /\
    (forall a d, GetBalance (st_bank s') a d = GetBalance (st_bank s) a d
       - at_addr contract a (of_denom (Denom offer) d (Amount offer))
       + at_addr receiver a (of_denom ask d (Amount (SwapCoin r)))
       + at_addr (ModuleAddress oracle_ModuleName) a (of_denom ask d (Amount (SwapFee r)))) /\
    (forall a d, a <> contract -> GetBalance (st_bank s) a d <= GetBalance (st_bank s') a d).
Proof.
  intros Hc (m & to & offer & ask & receiver & r & Em & Ha & Ht & Hp & _ & -> & Er)
    %(dispatch_ok _ _ _ _ _ _ _ _ Hc).
  apply handleSwapRequest_ok in Er as [HA HT].
  apply swap_amounts_split in HA as (ret & spread & _ & _ & Hd1 & Hd2 & Hsp & Hfn & _).
  pose proof (swap_transfers_net _ _ _ _ _ _ _ Hd1 Hd2 Hfn HT) as [Hbal _].
  exists m, to, offer, ask, receiver, r. split_and!; try done.
  intros a d Hne. rewrite Hbal. unfold at_addr at 1.
  rewrite (proj2 (String.eqb_neq contract a)) by congruence.
  unfold at_addr, of_denom. repeat case_match; lia.
Qed.

Lemma computed_valid s offer ask r : swap_amounts s offer ask r ->
  CoinIsValid offer = true /\ ValidDenom ask = true.
Proof.
  intros (ret & spread & fee & HC & _ & _ & _ & _ & Hv & _). split; [|done].
  unfold ComputeSwap in HC. destruct (String.eqb _ _); [done|].
  apply res_bind_ok in HC as (dc & Hdc & _). by apply NewDecCoinFromCoin_inv in Hdc as [_ ?].
Qed.

(** The quote a contract gets for a swap is what it is paid: if the swap
    it asks for goes through, the query with the same JSON on the same state
    answers the coin that was paid out. *)
Theorem quoted_swap_paid {Other}
    (wrapped : AccAddress -> Other -> M (State B O) (list MsgSwapResponse))
    ctx contract txt m s r s' t len :
  AccAddressFromBech32 txt = Ok contract ->
  CustomMessenger_DispatchMsg wrapped ctx contract (inl (JObject [("swap", m)])) s = (Ok [r], s') ->
  CustomQuerier s t len (JObject [("swap", m)]) = Ok (SwapQueryResponse (SwapCoin r)).
Proof.
  intros Hc (d & to & offer & ask & receiver & r' & Em & Ha & _ & _ & Hb & [= <-] & Er)
    %(dispatch_ok _ _ _ _ _ _ _ _ Hc).
  apply handleSwapRequest_ok in Er as [HA _].
  pose proof (computed_valid _ _ _ _ HA) as [Hv Hd].
  assert (decode_swap_pointer None m = Ok (dm_Swap d) /\ dm_SwapSend d = None) as [Ep Es].
  { unfold unmarshal_DoMsg in Em. cbn in Em. apply res_bind_ok in Em as (x & Em & [= <-]).
    apply res_bind_ok in Em as (p & Ep & [= <-]). done. }
  inversion Ha as [o' a' x E1|]; subst; [|done]. cbn [dm_Swap] in Ep.
  assert (unmarshal_DoQuery (JObject [("swap", m)]) = Ok (mkDoQuery (Some (mkSwap (given offer) ask)) None false None))
    as Eq.
  { unfold unmarshal_DoQuery. cbn -[decode_swap_pointer]. by rewrite Ep. }
  unfold CustomQuerier.
  replace (normalizeLegacyRoutedQueryJSON len (JObject [("swap", m)])) with (JObject [("swap", m)])
    by (unfold normalizeLegacyRoutedQueryJSON; by destruct (_ <? len)).
  rewrite Eq. cbn [mbind res_bind answer_query dq_Swap sw_OfferCoin sw_AskDenom given coin_of jc_Amount jc_Denom].
  replace (mkCoin (Denom offer) (Amount offer)) with offer by by destruct offer.
  unfold QuerySwap. rewrite Hd, parse_coin_string by done. cbn [negb].
  by rewrite (simulated_amounts s offer ask r).
Qed.

End swaps.

(** ** Routed queries *)
Section routes.
Context {B O T : Type} `{BankOps B} `{OracleKeeper O} `{MathOps} `{CoinOps} `{AddrCodec}
  `{!TreasuryView T} `{CoinJson} `{CoinText}.
Implicit Types (s : State B O) (t : T).

Definition routed (route name : string) (raw : json) : json :=
  JObject [("route", JString route); ("query_data", JObject [(name, raw)])].

(** A query in the routed form of old contracts, of at most 64 KiB, gets
    the answer of the query it wraps; the tax rate is answered whatever comes
    with it.  A longer one is not recognised. *)
Theorem routed_query_same_answer s t len len' raw :
  (len <= 64 * 1024 ->
    CustomQuerier s t len (routed "market" "swap" raw) = CustomQuerier s t len' (JObject [("swap", raw)]) /\
    CustomQuerier s t len (routed "oracle" "exchange_rates" raw) =
      CustomQuerier s t len' (JObject [("exchange_rates", raw)]) /\
    CustomQuerier s t len (routed "treasury" "tax_cap" raw) =
      CustomQuerier s t len' (JObject [("tax_cap", raw)]) /\
    CustomQuerier s t len (routed "treasury" "tax_rate" raw) =
      Ok (TaxRateQueryResponse (view_TaxRate t))) /\
  (64 * 1024 < len -> forall route name,
    CustomQuerier s t len (routed route name raw) = Err (Foreign "unknown do query variant")).
Proof.
  assert (forall name, is_field "route" name = false -> is_field "query_data" name = false ->
    normalizeLegacyRoutedQueryJSON len' (JObject [(name, raw)]) = JObject [(name, raw)]) as Hm.
  { intros name Hn Hq. unfold normalizeLegacyRoutedQueryJSON. destruct (_ <? len'); [done|].
    unfold unmarshal_legacyRouted. cbn [decode_struct foldRes fst]. by rewrite Hn, Hq. }
  split.
  - intros Hl. unfold CustomQuerier. rewrite !Hm by done. unfold normalizeLegacyRoutedQueryJSON.
    change (Z.shiftl 64 10) with 65536. rewrite (proj2 (Z.ltb_ge _ _)) by lia. done.
  - intros Hl route name. unfold CustomQuerier, normalizeLegacyRoutedQueryJSON.
    change (Z.shiftl 64 10) with 65536. rewrite (proj2 (Z.ltb_lt _ _)) by lia. done.
Qed.

End routes.

(** ** Signers *)
Section signers.
Context {S Body CosmosMsg Data : Type}.
Variable router : Body -> option (M S Data).
Variable encode : AccAddress -> CosmosMsg -> res (list (SdkMsg Body)).

Lemma check_signers_ok contract l : check_signers contract l = Ok tt -> Forall (fun a => a = contract) l.
Proof.
  unfold check_signers. induction l as [|a l IH]; intros E; constructor; simpl in E;
    destruct (String.eqb_spec a contract); try done. by apply IH.
Qed.

Lemma handle_all_signers contract msgs s ds s' :
  handle_all router contract msgs s = (Ok ds, s') ->
  Forall (fun m => forall r, msg_GetSigners m = Some r ->
    exists l, r = Ok l /\ Forall (fun a => a = contract) l) msgs.
Proof.
  revert s ds s'. induction msgs as [|m msgs IH]; intros s ds s' E; constructor.
  - cbn [handle_all] in E. m_bind E as d Ed. unfold handleSdkMessage in Ed.
    m_lift Ed as u Ev. m_lift Ed as [] Es. intros r Er. rewrite Er in Es.
    apply res_bind_ok in Es as (l & -> & Es). exists l. split; [done|]. by apply check_signers_ok.
  - cbn [handle_all] in E. m_bind E as d Ed. m_bind E as ds' Eds. by eapply IH.
Qed.

(** When a contract's message goes through, every module message it
    stands for that names its signers names the contract only. *)
Theorem declared_signers_checked contract msg s ds s' :
  SDKMessageHandler_DispatchMsg router encode contract msg s = (Ok ds, s') ->
  exists msgs, encode contract msg = Ok msgs /\
    forall m r, m ∈ msgs -> msg_GetSigners m = Some r ->
      exists l, r = Ok l /\ Forall (fun a => a = contract) l.
Proof.
  unfold SDKMessageHandler_DispatchMsg. intros E. m_lift E as msgs Em. exists msgs.
  split; [done|]. apply handle_all_signers in E. rewrite list.Forall_forall in E. eauto.
Qed.

End signers.

(** ** Executing a contract: third_party/wasmd, types/tx.go and
    keeper/msg_server.go.  [MsgExecuteContract] has [ValidateBasic] but no
    [GetSigners].  [json_Valid] is [json.Valid]; [execute] is the keeper. *)
Record MsgExecuteContract : Type := mkExecute {
  ec_Sender : string; ec_Contract : string; ec_Msg : string; ec_Funds : list Coin;
}.

Section execute.
Context `{AddrCodec} `{CoinOps} {S Data CosmosMsg : Type}.
Variable json_Valid : string -> bool.
Variable execute : AccAddress -> AccAddress -> string -> list Coin -> M S Data.

Definition MsgExecuteContract_ValidateBasic (msg : MsgExecuteContract) : res unit :=
  _ ← AccAddressFromBech32 (ec_Sender msg);
  _ ← AccAddressFromBech32 (ec_Contract msg);
  if negb (CoinsIsValid (ec_Funds msg)) then Err (Foreign "funds")
  else if negb (json_Valid (ec_Msg msg)) then Err (Registered "wasm" 14)
  else Ok tt.

Definition ExecuteContract (msg : MsgExecuteContract) : M S Data :=
  lift (MsgExecuteContract_ValidateBasic msg) ;;
  senderAddr ← lift (AccAddressFromBech32 (ec_Sender msg));
  contractAddr ← lift (AccAddressFromBech32 (ec_Contract msg));
  execute contractAddr senderAddr (ec_Msg msg) (ec_Funds msg).

(** The message as the handler of contract messages sees it. *)
Definition execute_msg (msg : MsgExecuteContract) : SdkMsg MsgExecuteContract :=
  mkSdkMsg (Some (MsgExecuteContract_ValidateBasic msg)) None msg.

(** C8: A contract executes another contract in the name of any account: a
    well-formed [MsgExecuteContract] it emits runs with the sender and the
    funds written in it, whoever that sender is. *)
Theorem contract_executes_as_anyone encode (any : CosmosMsg) contract msg victim target s :
  encode contract any = Ok [execute_msg msg] ->
  AccAddressFromBech32 (ec_Sender msg) = Ok victim ->
  AccAddressFromBech32 (ec_Contract msg) = Ok target ->
  CoinsIsValid (ec_Funds msg) = true -> json_Valid (ec_Msg msg) = true ->
  SDKMessageHandler_DispatchMsg (fun m => Some (ExecuteContract m)) encode contract any s =
    (d ← execute target victim (ec_Msg msg) (ec_Funds msg); mret [d]) s.
Proof.
  intros He Hs Hc Hf Hj.
  assert (MsgExecuteContract_ValidateBasic msg = Ok tt) as Hv.
  { unfold MsgExecuteContract_ValidateBasic. rewrite Hs, Hc. cbn [mbind res_bind]. by rewrite Hf, Hj. }
  unfold SDKMessageHandler_DispatchMsg, lift. rewrite He. unfold mbind, M_bind.
  cbn [handle_all]. unfold handleSdkMessage, ExecuteContract, lift, mbind, M_bind, mret, M_ret.
  cbn [execute_msg msg_ValidateBasic msg_GetSigners msg_body]. rewrite Hv, Hs, Hc.
  by destruct (execute _ _ _ _ s) as [[] ?].
Qed.

End execute.

(** ** Examples

    The text of a coin in the examples is its amount in binary, a colon and
    the denomination. *)
Module Example.
Import Market.Example.
#[local] Existing Instance Market.Example.oracle.

Fixpoint bits (p : positive) (rest : string) : string :=
  match p with
  | xH => String "1"%char rest
  | xO p => String "0"%char (bits p rest)
  | xI p => String "1"%char (bits p rest)
  end.

Fixpoint read_bits (s : string) : option (Z * string) :=
  match s with
  | String c s =>
      if Ascii.eqb c ":"%char then Some (0, s)
      else '(n, rest) ← read_bits s; Some (2 * n + (if Ascii.eqb c "1"%char then 1 else 0), rest)
  | EmptyString => None
  end.

Lemma read_bits_pos p rest : read_bits (bits p (String ":"%char rest)) = Some (Zpos p, rest).
Proof. induction p as [p IH|p IH|]; simpl; [by rewrite IH|by rewrite IH|done]. Qed.

#[export] Instance coin_text : CoinText := {|
  CoinString c := match Amount c with
                  | Zpos p => bits p (String ":"%char (Denom c))
                  | _ => String ":"%char (Denom c)
                  end;
  ParseCoinNormalized s := match read_bits s with
                           | Some (n, d) => Ok (mkCoin d n)
                           | None => Err (Plain "coin") end;
|}.

#[export] Instance coin_text_laws : CoinTextLaws.
Proof.
  intros [d a] [_ Ha]%CoinIsValid_spec. simpl in *. destruct a as [|p|p]; [done| |lia].
  by rewrite read_bits_pos.
Qed.

#[export] Instance coin_json : CoinJson := fun _ j =>
  match j with
  | JArray [JString d; JString "1000001"] => Ok (mkJsonCoin d (Some 1000001))
  | _ => Err ErrJSON
  end.

#[export] Instance treasury : TreasuryView unit := {|
  view_TaxRate _ := 5;
  view_TaxCap _ _ := Ok 7;
|}.

Definition request : json :=
  JObject [("offer_coin", JArray [JString "uusd"; JString "1000001"]); ("ask_denom", JString "udo")].

(** Names are read up to case, and a second entry is read into the first. *)
Lemma folded_names : unmarshal_DoMsg (JObject [("SWAP", request)]) = unmarshal_DoMsg (JObject [("swap", request)]).
Proof. by vm_compute. Qed.
Lemma merged_entries :
  unmarshal_DoMsg (JObject [("swap", JObject [("ask_denom", JString "udo")]);
                            ("Swap", JObject [("offer_coin", JArray [JString "uusd"; JString "1000001"])])])
  = unmarshal_DoMsg (JObject [("swap", request)]).
Proof. by vm_compute. Qed.

Definition no_messenger : AccAddress -> unit -> M (State ledger unit) (list MsgSwapResponse) :=
  fun _ _ => throw (Plain "none").

Definition st2 : State ledger unit :=
  (CustomMessenger_DispatchMsg no_messenger ctx0 "alice" (inl (JObject [("swap", request)])) st0).2.

Lemma swap_run :
  CustomMessenger_DispatchMsg no_messenger ctx0 "alice" (inl (JObject [("swap", request)])) st0 =
    (Ok [resp], st2).
Proof. unfold st2. apply run_eq. vm_compute. reflexivity. Qed.

Lemma alice_addr : AccAddressFromBech32 "do1alice" = Ok "alice".
Proof. vm_compute. reflexivity. Qed.

Definition attack : MsgExecuteContract := mkExecute "do1victim" "do1shop" "{}" [].
Definition execute (target sender msg : string) (_ : list Coin) : M (list (string * string)) unit :=
  modify (fun log => (target, sender) :: log).

End Example.

#[local] Existing Instances Market.Example.oracle Example.coin_text Example.coin_text_laws
  Example.coin_json Example.treasury.

Lemma contract_pays_its_swaps_witness :
  GetBalance (st_bank Example.st2) "alice" "uusd" = 2000000 - 1000001 + 0 + 0.
Proof.
  destruct (contract_pays_its_swaps Example.no_messenger Market.Example.ctx0 "alice" "do1alice"
    (JObject [("swap", Example.request)]) Market.Example.st0 [Market.Example.resp] Example.st2
    Example.alice_addr
    Example.swap_run)
    as (m & to & offer & ask & receiver & r & Em & Ha & Ht & Er & _ & _ & Hb & _).
  specialize (Hb "alice" "uusd"). injection Er as <-.
  assert (m = mkDoMsg (Some (mkSwap (given Market.Example.offer) "udo")) None) as ->
    by (vm_compute in Em; by injection Em as <-).
  apply asked in Ha as (-> & -> & ->). simpl in Ht. subst receiver. exact Hb.
Defined.

Lemma quoted_swap_paid_witness :
  CustomQuerier Market.Example.st0 tt 100 (JObject [("swap", Example.request)]) =
    Ok (SwapQueryResponse (mkCoin "udo" 3920003)).
Proof.
  exact (quoted_swap_paid Example.no_messenger Market.Example.ctx0 "alice" "do1alice" Example.request
    Market.Example.st0 Market.Example.resp Example.st2 tt 100 Example.alice_addr Example.swap_run).
Defined.

Lemma routed_query_same_answer_witness :
  CustomQuerier Market.Example.st0 tt 100 (routed "market" "swap" Example.request) =
    CustomQuerier Market.Example.st0 tt 60 (JObject [("swap", Example.request)]).
Proof.
  destruct (routed_query_same_answer Market.Example.st0 tt 100 60 Example.request) as [Hr _].
  by apply Hr.
Defined.

Lemma declared_signers_checked_witness :
  exists msgs, Ok [mkSdkMsg None (Some (Ok ["do"])) 3] = Ok msgs /\
    forall m r, m ∈ msgs -> msg_GetSigners m = Some r ->
      exists l, r = Ok l /\ Forall (fun a => a = "do") l.
Proof.
  exact (declared_signers_checked (fun _ : Z => Some (mret tt)) (fun _ (_ : unit) => Ok [mkSdkMsg None (Some (Ok ["do"])) 3])
    "do" tt 0 [tt] 0 eq_refl).
Defined.

Lemma contract_executes_as_anyone_witness :
  SDKMessageHandler_DispatchMsg (fun m => Some (ExecuteContract (fun _ => true) Example.execute m))
    (fun _ (_ : unit) => Ok [execute_msg (fun _ => true) Example.attack]) "contract" tt [] =
    (Ok [tt], [("shop", "victim")]).
Proof.
  rewrite (contract_executes_as_anyone (fun _ => true) Example.execute
    (fun _ (_ : unit) => Ok [execute_msg (fun _ => true) Example.attack]) tt "contract" Example.attack
    "victim" "shop"); done.
Defined.
