(* ===== verification/Stargate.v ===== *)
(** * Stargate queries of contracts

    [src/wasmbinding/stargate_whitelist.go], [helper.go] and the
    [StargateQuerier] of [query_plugin.go].  The whitelist gives each path one
    response object, which every query of that path shares: a query decodes
    the answer of the module into the object, prints the object as JSON and
    resets it.  Queries run in several threads, so the steps of a query are
    kept apart: [step] is one step of one thread on the shared objects. *)
From stdpp Require Import base gmap sets list strings fin_maps relations.
From Stdlib Require Import ZArith Lia.
From S2P Require Import Prelude.
#[local] Open Scope Z_scope.

(** The response messages of the whitelisted paths. *)
Inductive response : Type :=
| QuerySwapResponse
| QueryTaxCapResponse
| QueryTaxRateResponse
| QueryExchangeRateResponse.

Definition stargateWhitelist : list (string * response) := [
  ("/do.market.v1beta1.Query/Swap", QuerySwapResponse);
  ("/do.treasury.v1beta1.Query/TaxCap", QueryTaxCapResponse);
  ("/do.treasury.v1beta1.Query/TaxRate", QueryTaxRateResponse);
  ("/do.oracle.v1beta1.Query/ExchangeRate", QueryExchangeRateResponse)].

Definition ErrUnsupported : error := Foreign "UnsupportedRequest".
Definition ErrUnknown : error := Foreign "Unknown".

Definition GetWhitelistedQuery (queryPath : string) : res response :=
  match List.find (fun p => String.eqb p.1 queryPath) stargateWhitelist with
  | Some (_, r) => Ok r
  | None => Err ErrUnsupported
  end.

#[export] Instance response_eq_dec : EqDecision response.
Proof. solve_decision. Defined.

(** The codec and the routes of the modules.  An object holds the fields a
    decoder has written; decoding writes the fields of the bytes over those
    of the object, also when it fails half way. *)
Class ProtoCodec (Bytes Obj Json : Type) : Type := {
  empty_obj : response -> Obj;
  Unmarshal : response -> Bytes -> Obj -> res unit * Obj;
  MarshalJSON : response -> Obj -> res Json;
  route : string -> option (Bytes -> res Bytes);
}.

Section stargate.
Context {Bytes Obj Json : Type} `{!ProtoCodec Bytes Obj Json}.

(** The shared objects: one per path of the whitelist. *)
Notation objects := (response -> Obj).

Definition set_obj (r : response) (o : Obj) (os : objects) : objects :=
  fun r' => if decide (r' = r) then o else os r'.

(** ** helper.go, run by one thread alone *)
Definition ConvertProtoToJSONMarshal (r : response) (bz : Bytes) : M objects Json :=
  os ← get;
  let '(err, o) := Unmarshal r bz (os r) in
  modify (set_obj r o) ;;
  match err with
  | Ok _ =>
      match MarshalJSON r o with
      | Ok j => modify (set_obj r (empty_obj r)) ;; mret j
      | Panic => panic
      | Err _ => throw ErrUnknown
      end
  | Panic => panic
  | Err _ => throw ErrUnknown
  end.

Definition StargateQuerier (path : string) (data : Bytes) : M objects Json :=
  protoResponseType ← lift (GetWhitelistedQuery path);
  match route path with
  | None => throw ErrUnsupported
  | Some handler =>
      bz ← lift (handler data);
      ConvertProtoToJSONMarshal protoResponseType bz
  end.

(** ** Threads *)
Inductive thread : Type :=
| Decode (r : response) (bz : Bytes)
| Print (r : response)
| Reset (r : response) (j : Json)
| Done (answer : res Json).

(** The next step of a query that has its answer from the module. *)
Definition thread_step (os : objects) (t : thread) : objects * thread :=
  match t with
  | Decode r bz =>
      let '(err, o) := Unmarshal r bz (os r) in
      (set_obj r o os,
       match err with
       | Ok _ => Print r
       | Panic => Done Panic
       | Err _ => Done (Err ErrUnknown)
       end)
  | Print r =>
      match MarshalJSON r (os r) with
      | Ok j => (os, Reset r j)
      | Panic => (os, Done Panic)
      | Err _ => (os, Done (Err ErrUnknown))
      end
  | Reset r j => (set_obj r (empty_obj r) os, Done (Ok j))
  | Done a => (os, Done a)
  end.

Inductive step : objects * list thread -> objects * list thread -> Prop :=
| step_thread os ts i t os' t' :
    ts !! i = Some t -> (forall a, t <> Done a) -> thread_step os t = (os', t') ->
    step (os, ts) (os', <[i := t']> ts).

(** ** One query at a time *)
Definition clean (os : objects) : Prop := forall r, os r = empty_obj r.

(** Decoding into an empty object and printing it. *)
Definition answer (r : response) (bz : Bytes) : res Json :=
  match Unmarshal r bz (empty_obj r) with
  | (Ok _, o) => match MarshalJSON r o with Ok j => Ok j | Panic => Panic | Err _ => Err ErrUnknown end
  | (Panic, _) => Panic
  | (Err _, _) => Err ErrUnknown
  end.

(** One query at a time is answered by its own data: started with empty
    objects, a whitelisted query gives the JSON of the module's answer, and
    after a successful one the objects are empty again.  A path that is not
    listed is refused and no module is asked. *)
Theorem alone_query_answered path data os :
  clean os ->
  (forall r handler bz, GetWhitelistedQuery path = Ok r -> route path = Some handler ->
    handler data = Ok bz ->
    (StargateQuerier path data os).1 = answer r bz /\
    (is_ok (answer r bz) = true -> clean (StargateQuerier path data os).2)) /\
  (path ∉ map fst stargateWhitelist -> StargateQuerier path data os = (Err ErrUnsupported, os)).
Proof.
  intros Hc. split.
  - intros r handler bz Hw Hr Hh.
    assert (StargateQuerier path data os = ConvertProtoToJSONMarshal r bz os) as ->.
    { unfold StargateQuerier, mbind, M_bind, lift. by rewrite Hw, Hr, Hh. }
    unfold ConvertProtoToJSONMarshal, answer, mbind, M_bind, get, modify. rewrite Hc.
    destruct (Unmarshal r bz (empty_obj r)) as [[?| |] o]; [|done..]. cbn iota beta.
    destruct (MarshalJSON r o) as [j| |]; [|done..]. split; [done|]. intros _ r'. simpl.
    unfold set_obj. by destruct (decide (r' = r)) as [->|].
  - intros Hp. unfold StargateQuerier, GetWhitelistedQuery.
    destruct (List.find _ _) as [[p r]|] eqn:E; [|done]. exfalso. apply Hp.
    apply find_some in E as [Hin Heq]. apply String.eqb_eq in Heq. simpl in Heq. subst p.
    apply list_elem_of_In. by apply (in_map fst) in Hin.
Qed.

(** ** Two queries at a time *)

(** Two queries of the same path at the same time can mix their answers:
    when the data of the second overwrites that of the first, there is an
    interleaving of their steps after which both are answered with the data
    of the second. *)
Theorem concurrent_queries_mix r bz1 bz2 os o1 o2 j :
  Unmarshal r bz1 (os r) = (Ok tt, o1) -> Unmarshal r bz2 o1 = (Ok tt, o2) -> MarshalJSON r o2 = Ok j ->
  rtc step (os, [Decode r bz1; Decode r bz2])
    (set_obj r (empty_obj r) (set_obj r (empty_obj r) (set_obj r o2 (set_obj r o1 os))),
     [Done (Ok j); Done (Ok j)]).
Proof.
  intros H1 H2 Hj.
  assert (forall (o : Obj) os', set_obj r o os' r = o) as Hs
    by (intros; unfold set_obj; by rewrite decide_True).
  eapply rtc_l; [apply (step_thread _ _ 0 (Decode r bz1) (set_obj r o1 os) (Print r)); [done|done|]|].
  { simpl. by rewrite H1. }
  eapply rtc_l; [apply (step_thread _ _ 1 (Decode r bz2) (set_obj r o2 (set_obj r o1 os)) (Print r));
    [done|done|]|].
  { simpl. by rewrite Hs, H2. }
  eapply rtc_l; [apply (step_thread _ _ 0 (Print r) (set_obj r o2 (set_obj r o1 os)) (Reset r j));
    [done|done|]|].
  { simpl. by rewrite Hs, Hj. }
  eapply rtc_l; [apply (step_thread _ _ 1 (Print r) (set_obj r o2 (set_obj r o1 os)) (Reset r j));
    [done|done|]|].
  { simpl. by rewrite Hs, Hj. }
  eapply rtc_l; [by apply (step_thread _ _ 0 (Reset r j))|].
  eapply rtc_l; [by apply (step_thread _ _ 1 (Reset r j))|]. apply rtc_refl.
Qed.

End stargate.

(** ** Examples: answers are numbers, and so are the objects. *)
Module Example.

#[export] Instance codec : ProtoCodec Z (option Z) Z := {
  empty_obj _ := None;
  Unmarshal _ bz _ := (Ok tt, Some bz);
  MarshalJSON _ o := match o with Some n => Ok n | None => Err (Plain "empty") end;
  route path := Some (fun data => Ok (data + 1));
}.

Definition none : response -> option Z := fun _ => None.

End Example.

#[local] Existing Instance Example.codec.

Lemma alone_query_answered_witness :
  (StargateQuerier "/do.treasury.v1beta1.Query/TaxRate" 4 Example.none).1 = Ok 5.
Proof.
  destruct (alone_query_answered "/do.treasury.v1beta1.Query/TaxRate" 4 Example.none) as [Ha _]; [done|].
  by destruct (Ha QueryTaxRateResponse (fun data => Ok (data + 1)) 5) as [-> _].
Defined.

Lemma concurrent_queries_mix_witness :
  exists os, rtc step (Example.none, [Decode QuerySwapResponse 3; Decode QuerySwapResponse 8])
    (os, [Done (Ok 8); Done (Ok 8)]).
Proof.
  eexists. apply (concurrent_queries_mix QuerySwapResponse 3 8 Example.none (Some 3) (Some 8) 8); done.
Defined.
