(* ===== verification/LegacyMsgs.v ===== *)
(** * The messages of the former wasm module

    [src/custom/wasm/types/legacy/msgs.go]: validation and signers of the
    messages that old transactions carry.  [json_Valid] is [json.Valid]. *)
From stdpp Require Import base gmap sets list strings fin_maps.
From Stdlib Require Import ZArith Lia.
From S2P Require Import Prelude Sdk SdkRef.
#[local] Open Scope Z_scope.

(** from legacy x/wasm/types/params.go *)
Definition EnforcedMaxContractSize : Z := 3000 * 1024.
Definition EnforcedMaxContractGas : Z := 100000000.
Definition EnforcedMaxContractMsgSize : Z := 20 * 1024.

Record MsgStoreCode := mkStoreCode { sc_Sender : string; sc_WASMByteCode : string }.
Record MsgMigrateCode := mkMigrateCode { mc_CodeID : Z; mc_Sender : string; mc_WASMByteCode : string }.
Record MsgInstantiateContract := mkInstantiate {
  ic_Sender : string; ic_Admin : string; ic_CodeID : Z; ic_InitMsg : string; ic_InitCoins : list Coin;
}.
Record MsgExecuteContract := mkExecuteContract {
  xc_Sender : string; xc_Contract : string; xc_ExecuteMsg : string; xc_Coins : list Coin;
}.
Record MsgMigrateContract := mkMigrateContract {
  gc_Admin : string; gc_Contract : string; gc_NewCodeID : Z; gc_MigrateMsg : string;
}.
Record MsgUpdateContractAdmin := mkUpdateAdmin {
  ua_Admin : string; ua_NewAdmin : string; ua_Contract : string;
}.
Record MsgClearContractAdmin := mkClearAdmin { ca_Admin : string; ca_Contract : string }.

Section msgs.
Context `{AddrCodec} `{CoinOps}.
Variable json_Valid : string -> bool.

Definition ErrInvalidAddress : error := SdkError "ErrInvalidAddress".
Definition ErrInvalidRequest : error := SdkError "ErrInvalidRequest".
Definition ErrInvalidCoins : error := SdkError "ErrInvalidCoins".

(** [_, err := sdk.AccAddressFromBech32(text)], wrapped as an invalid address. *)
Definition check_address (text : string) : res unit :=
  match AccAddressFromBech32 text with
  | Ok _ => Ok tt
  | Err _ => Err ErrInvalidAddress
  | Panic => Panic
  end.

(** [GetSigners]: one address, and a panic when its text is malformed. *)
Definition signer (text : string) : res (list AccAddress) :=
  match AccAddressFromBech32 text with Ok a => Ok [a] | _ => Panic end.

Definition check_code (code : string) : res unit :=
  if Nat.eqb (String.length code) 0 then Err ErrInvalidRequest
  else if EnforcedMaxContractSize <? Z.of_nat (String.length code) then Err ErrInvalidRequest
  else Ok tt.

Definition check_msg (msg : string) : res unit :=
  if EnforcedMaxContractMsgSize <? Z.of_nat (String.length msg) then Err ErrInvalidRequest
  else if negb (json_Valid msg) then Err ErrInvalidRequest
  else Ok tt.

Definition MsgStoreCode_ValidateBasic (msg : MsgStoreCode) : res unit :=
  _ ← check_address (sc_Sender msg); check_code (sc_WASMByteCode msg).
Definition MsgStoreCode_GetSigners (msg : MsgStoreCode) := signer (sc_Sender msg).

Definition MsgMigrateCode_ValidateBasic (msg : MsgMigrateCode) : res unit :=
  _ ← check_address (mc_Sender msg); check_code (mc_WASMByteCode msg).
Definition MsgMigrateCode_GetSigners (msg : MsgMigrateCode) := signer (mc_Sender msg).

Definition MsgInstantiateContract_ValidateBasic (msg : MsgInstantiateContract) : res unit :=
  _ ← check_address (ic_Sender msg);
  _ ← (if negb (Nat.eqb (String.length (ic_Admin msg)) 0) then check_address (ic_Admin msg) else Ok tt);
  if negb (CoinsIsValid (ic_InitCoins msg)) then Err ErrInvalidCoins
  else check_msg (ic_InitMsg msg).
Definition MsgInstantiateContract_GetSigners (msg : MsgInstantiateContract) := signer (ic_Sender msg).

Definition MsgExecuteContract_ValidateBasic (msg : MsgExecuteContract) : res unit :=
  _ ← check_address (xc_Sender msg);
  _ ← check_address (xc_Contract msg);
  if negb (CoinsIsValid (xc_Coins msg)) then Err ErrInvalidCoins
  else check_msg (xc_ExecuteMsg msg).
Definition MsgExecuteContract_GetSigners (msg : MsgExecuteContract) := signer (xc_Sender msg).

Definition MsgMigrateContract_ValidateBasic (msg : MsgMigrateContract) : res unit :=
  if gc_NewCodeID msg =? 0 then Err ErrInvalidRequest
  else
    _ ← check_address (gc_Admin msg);
    _ ← check_address (gc_Contract msg);
    check_msg (gc_MigrateMsg msg).
Definition MsgMigrateContract_GetSigners (msg : MsgMigrateContract) := signer (gc_Admin msg).

Definition MsgUpdateContractAdmin_ValidateBasic (msg : MsgUpdateContractAdmin) : res unit :=
  _ ← check_address (ua_Admin msg);
  _ ← check_address (ua_NewAdmin msg);
  check_address (ua_Contract msg).
Definition MsgUpdateContractAdmin_GetSigners (msg : MsgUpdateContractAdmin) := signer (ua_Admin msg).

Definition MsgClearContractAdmin_ValidateBasic (msg : MsgClearContractAdmin) : res unit :=
  _ ← check_address (ca_Admin msg); check_address (ca_Contract msg).
Definition MsgClearContractAdmin_GetSigners (msg : MsgClearContractAdmin) := signer (ca_Admin msg).

(** Constructors print addresses; an empty admin stays empty. *)
Definition NewMsgStoreCode (sender : AccAddress) (wasmByteCode : string) : MsgStoreCode :=
  mkStoreCode (AccAddressString sender) wasmByteCode.
Definition NewMsgMigrateCode (codeID : Z) (sender : AccAddress) (wasmByteCode : string) : MsgMigrateCode :=
  mkMigrateCode codeID (AccAddressString sender) wasmByteCode.
Definition NewMsgInstantiateContract (sender admin : AccAddress) (codeID : Z) (initMsg : string)
    (initCoins : list Coin) : MsgInstantiateContract :=
  let adminAddr := if Nat.eqb (String.length admin) 0 then "" else AccAddressString admin in
  mkInstantiate (AccAddressString sender) adminAddr codeID initMsg initCoins.
Definition NewMsgExecuteContract (sender contract : AccAddress) (execMsg : string) (coins : list Coin) :
    MsgExecuteContract :=
  mkExecuteContract (AccAddressString sender) (AccAddressString contract) execMsg coins.
Definition NewMsgMigrateContract (admin contract : AccAddress) (newCodeID : Z) (migrateMsg : string) :
    MsgMigrateContract :=
  mkMigrateContract (AccAddressString admin) (AccAddressString contract) newCodeID migrateMsg.
Definition NewMsgUpdateContractAdmin (admin newAdmin contract : AccAddress) : MsgUpdateContractAdmin :=
  mkUpdateAdmin (AccAddressString admin) (AccAddressString newAdmin) (AccAddressString contract).
Definition NewMsgClearContractAdmin (admin contract : AccAddress) : MsgClearContractAdmin :=
  mkClearAdmin (AccAddressString admin) (AccAddressString contract).

(** ** All messages *)
Inductive legacy_msg : Type :=
| LStoreCode (m : MsgStoreCode)
| LMigrateCode (m : MsgMigrateCode)
| LInstantiate (m : MsgInstantiateContract)
| LExecute (m : MsgExecuteContract)
| LMigrate (m : MsgMigrateContract)
| LUpdateAdmin (m : MsgUpdateContractAdmin)
| LClearAdmin (m : MsgClearContractAdmin).

Definition ValidateBasic (m : legacy_msg) : res unit :=
  match m with
  | LStoreCode m => MsgStoreCode_ValidateBasic m
  | LMigrateCode m => MsgMigrateCode_ValidateBasic m
  | LInstantiate m => MsgInstantiateContract_ValidateBasic m
  | LExecute m => MsgExecuteContract_ValidateBasic m
  | LMigrate m => MsgMigrateContract_ValidateBasic m
  | LUpdateAdmin m => MsgUpdateContractAdmin_ValidateBasic m
  | LClearAdmin m => MsgClearContractAdmin_ValidateBasic m
  end.

Definition GetSigners (m : legacy_msg) : res (list AccAddress) :=
  match m with
  | LStoreCode m => MsgStoreCode_GetSigners m
  | LMigrateCode m => MsgMigrateCode_GetSigners m
  | LInstantiate m => MsgInstantiateContract_GetSigners m
  | LExecute m => MsgExecuteContract_GetSigners m
  | LMigrate m => MsgMigrateContract_GetSigners m
  | LUpdateAdmin m => MsgUpdateContractAdmin_GetSigners m
  | LClearAdmin m => MsgClearContractAdmin_GetSigners m
  end.

(** The address that acts, and the payload with its limit. *)
Definition actor (m : legacy_msg) : string :=
  match m with
  | LStoreCode m => sc_Sender m
  | LMigrateCode m => mc_Sender m
  | LInstantiate m => ic_Sender m
  | LExecute m => xc_Sender m
  | LMigrate m => gc_Admin m
  | LUpdateAdmin m => ua_Admin m
  | LClearAdmin m => ca_Admin m
  end.

Definition payload (m : legacy_msg) : string * Z :=
  match m with
  | LStoreCode m => (sc_WASMByteCode m, EnforcedMaxContractSize)
  | LMigrateCode m => (mc_WASMByteCode m, EnforcedMaxContractSize)
  | LInstantiate m => (ic_InitMsg m, EnforcedMaxContractMsgSize)
  | LExecute m => (xc_ExecuteMsg m, EnforcedMaxContractMsgSize)
  | LMigrate m => (gc_MigrateMsg m, EnforcedMaxContractMsgSize)
  | LUpdateAdmin _ | LClearAdmin _ => ("", 0)
  end.

Lemma check_address_ok text u : check_address text = Ok u -> exists a, AccAddressFromBech32 text = Ok a.
Proof. unfold check_address. destruct (AccAddressFromBech32 text); try done. eauto. Qed.

Lemma check_code_ok code u : check_code code = Ok u ->
  Z.of_nat (String.length code) <= EnforcedMaxContractSize.
Proof.
  unfold check_code. destruct (Nat.eqb _ _); [done|].
  by destruct (Z.ltb_spec EnforcedMaxContractSize (Z.of_nat (String.length code))).
Qed.

Lemma check_msg_ok msg u : check_msg msg = Ok u ->
  Z.of_nat (String.length msg) <= EnforcedMaxContractMsgSize.
Proof.
  unfold check_msg.
  by destruct (Z.ltb_spec EnforcedMaxContractMsgSize (Z.of_nat (String.length msg))).
Qed.

(** C40: A message that passes validation has exactly one signer, the
    account that acts in it, so that asking for the signers does not panic,
    and its code or contract message is within the limit. *)
Theorem validated_message_signed m : ValidateBasic m = Ok tt ->
  exists a, AccAddressFromBech32 (actor m) = Ok a /\ GetSigners m = Ok [a] /\
    Z.of_nat (String.length (payload m).1) <= (payload m).2.
Proof.
  intros E.
  assert (exists u, check_address (actor m) = Ok u) as [u Hu].
  { destruct m; cbn [ValidateBasic actor] in *;
      try (apply res_bind_ok in E as (u & Hu & _); by exists u).
    unfold MsgMigrateContract_ValidateBasic in E. destruct (_ =? 0); [done|].
    apply res_bind_ok in E as (u & Hu & _). by exists u. }
  apply check_address_ok in Hu as [a Ha]. exists a. split; [done|]. split.
  { destruct m; cbn [GetSigners actor] in *; unfold MsgStoreCode_GetSigners, MsgMigrateCode_GetSigners,
      MsgInstantiateContract_GetSigners, MsgExecuteContract_GetSigners, MsgMigrateContract_GetSigners,
      MsgUpdateContractAdmin_GetSigners, MsgClearContractAdmin_GetSigners, signer; by rewrite Ha. }
  destruct m; cbn [ValidateBasic payload fst snd] in *; try done.
  - apply res_bind_ok in E as (? & _ & E). by eapply check_code_ok.
  - apply res_bind_ok in E as (? & _ & E). by eapply check_code_ok.
  - apply res_bind_ok in E as (? & _ & E). apply res_bind_ok in E as (? & _ & E).
    destruct (negb _); [done|]. by eapply check_msg_ok.
  - apply res_bind_ok in E as (? & _ & E). apply res_bind_ok in E as (? & _ & E).
    destruct (negb _); [done|]. by eapply check_msg_ok.
  - unfold MsgMigrateContract_ValidateBasic in E. destruct (_ =? 0); [done|].
    apply res_bind_ok in E as (? & _ & E). apply res_bind_ok in E as (? & _ & E).
    by eapply check_msg_ok.
Qed.

End msgs.

Lemma validated_message_signed_witness :
  exists a, AccAddressFromBech32 "do1admin" = Ok a /\
    GetSigners (LMigrate (mkMigrateContract "do1admin" "do1shop" 3 "{}")) = Ok [a] /\ 2 <= 20480.
Proof.
  apply (validated_message_signed (fun _ => true) (LMigrate (mkMigrateContract "do1admin" "do1shop" 3 "{}"))).
  vm_compute. reflexivity.
Defined.
