(* ===== verification/TxLogs.v ===== *)
(** * The HTTP middleware of the query server

    [src/server/tx_logs_middleware.go] puts the [logs] field back into the
    answers to transaction queries, from their events;
    [src/server/middleware.go] turns a height parameter into a header.
    Bodies are JSON values ([Bindings.json]); an object that is read into a
    Go map has its fields by name. *)
From stdpp Require Import base gmap sets list strings fin_maps pretty.
From Stdlib Require Import ZArith Lia Ascii.
From S2P Require Import Prelude Bindings.
#[local] Open Scope Z_scope.

(** [strconv.Atoi]: an optional sign and decimal digits, within an int64. *)
Definition digit (c : ascii) : option Z :=
  let n := Z.of_nat (nat_of_ascii c) in
  if (48 <=? n) && (n <=? 57) then Some (n - 48) else None.

Fixpoint digits (acc : Z) (s : string) : option Z :=
  match s with
  | EmptyString => Some acc
  | String c s => d ← digit c; digits (10 * acc + d) s
  end.

Definition unsigned (s : string) : option Z :=
  match s with EmptyString => None | _ => digits 0 s end.

Definition ParseInt (s : string) : res Z :=
  let r := match s with
           | String "-" s => n ← unsigned s; Some (- n)
           | String "+" s => unsigned s
           | s => unsigned s
           end in
  match r with
  | Some n => if bool_decide (is_i64 n) then Ok n else Err (Plain "out of range")
  | None => Err (Plain "syntax error")
  end.

Definition Atoi := ParseInt.

(** [m[name] = j] on the map of an object. *)
Definition set_field (name : string) (j : json) (fs : list (string * json)) : list (string * json) :=
  base.filter (fun f => f.1 <> name) fs ++ [(name, j)].

Section logs.
(** The int of a JSON number, which is read as a float64. *)
Variable float_int : string -> Z.

Definition toInt (v : json) : Z :=
  match v with
  | JNumber n => float_int n
  | JString s => match Atoi s with Ok i => i | _ => 0 end
  | _ => 0
  end.

Fixpoint attribute_index (attributes : list json) : Z :=
  match attributes with
  | [] => 0
  | JObject attr :: rest =>
      match field "msg_index" attr with
      | Some msgIndex => toInt msgIndex
      | None =>
          match field "key" attr, field "value" attr with
          | Some (JString "msg_index"), Some (JString value) =>
              match Atoi value with Ok idx => idx | _ => attribute_index rest end
          | _, _ => attribute_index rest
          end
      end
  | _ :: rest => attribute_index rest
  end.

Definition extractMsgIndex (event : list (string * json)) : Z :=
  match field "attributes" event with
  | Some (JArray attributes) => attribute_index attributes
  | _ => 0
  end.

Definition copy_attribute (attr : json) : option json :=
  match attr with
  | JObject fs =>
      Some (JObject (match field "key" fs with Some (JString k) => [("key", JString k)] | _ => [] end ++
                     match field "value" fs with Some v => [("value", v)] | None => [] end))
  | _ => None
  end.

Definition copyEventForLogs (event : list (string * json)) : json :=
  JObject (match field "type" event with Some (JString t) => [("type", JString t)] | _ => [] end ++
           match field "attributes" event with
           | Some (JArray attributes) => [("attributes", JArray (omap copy_attribute attributes))]
           | _ => []
           end).

(** The loop over the events: the copies by index, and the largest index. *)
Definition group_event (acc : gmap Z (list json) * Z) (event : json) : gmap Z (list json) * Z :=
  match event with
  | JObject e =>
      let msgIndex := extractMsgIndex e in
      (<[msgIndex := default [] (acc.1 !! msgIndex) ++ [copyEventForLogs e]]> acc.1,
       if acc.2 <? msgIndex then msgIndex else acc.2)
  | _ => acc
  end.

Definition group_events (events : list json) : gmap Z (list json) * Z :=
  foldl group_event (∅, 0) events.

(** The indices [0], ..., [max] that the second loop visits. *)
Definition indices (max : Z) : list Z := map Z.of_nat (seq 0 (Z.to_nat (max + 1))).

Definition log_entry (i : Z) (msgEvents : list json) : json :=
  JObject [("msg_index", JNumber (pretty i)); ("log", JString ""); ("events", JArray msgEvents)].

Definition build_logs (groups : gmap Z (list json)) (max : Z) : list json :=
  omap (fun i => match groups !! i with
                 | Some (e :: es) => Some (log_entry i (e :: es))
                 | _ => None
                 end) (indices max).

(** [make] panics on a capacity that is negative. *)
Definition reconstructLogs (txResponse : list (string * json)) : res (list (string * json)) :=
  match field "logs" txResponse with
  | Some (JArray (_ :: _)) => Ok txResponse
  | _ =>
      match field "events" txResponse with
      | Some (JArray (e :: es)) =>
          let '(groups, maxMsgIndex) := group_events (e :: es) in
          if i64 (maxMsgIndex + 1) <? 0 then Panic
          else
            match build_logs groups maxMsgIndex with
            | [] => Ok txResponse
            | logs => Ok (set_field "logs" (JArray logs) txResponse)
            end
      | _ => Ok txResponse
      end
  end.

Definition reconstruct_object (j : json) : res json :=
  match j with
  | JObject fs => fs' ← reconstructLogs fs; Ok (JObject fs')
  | _ => Ok j
  end.

Fixpoint reconstruct_all (l : list json) : res (list json) :=
  match l with
  | [] => Ok []
  | j :: l => j' ← reconstruct_object j; l' ← reconstruct_all l; Ok (j' :: l')
  end.

(** A body that is no object does not decode into a map. *)
Definition transformTxResponse (body : json) : res json :=
  match body with
  | JObject response =>
      response ← match field "tx_response" response with
                 | Some (JObject tx) => tx' ← reconstructLogs tx; Ok (set_field "tx_response" (JObject tx') response)
                 | _ => Ok response
                 end;
      response ← match field "tx_responses" response with
                 | Some (JArray txs) => txs' ← reconstruct_all txs; Ok (set_field "tx_responses" (JArray txs') response)
                 | _ => Ok response
                 end;
      Ok (JObject response)
  | JNull => Ok JNull
  | _ => Err ErrJSON
  end.

(** ** The handlers *)
Record Request := mkRequest { r_Method : string; r_Path : string; r_Height : string }.
Record Response := mkResponse { w_Status : Z; w_Body : json }.

Definition isTxQueryEndpoint (path : string) : bool := String.prefix "/cosmos/tx/v1beta1/txs" path.

Definition TxLogsMiddleware (next : Request -> res Response) (r : Request) : res Response :=
  if negb (String.eqb (r_Method r) "GET") || negb (isTxQueryEndpoint (r_Path r)) then next r
  else
    recorder ← next r;
    if negb (w_Status recorder =? 200) then Ok recorder
    else match transformTxResponse (w_Body recorder) with
         | Ok transformed => Ok (mkResponse (w_Status recorder) transformed)
         | Err _ => Ok recorder
         | Panic => Panic
         end.

Definition error_response (status : Z) (err : string) : Response :=
  mkResponse status (JObject [("error", JString err)]).

(** The header is the text of the parameter, when it is a positive height. *)
Definition BlockHeightMiddleware (next : option string -> Request -> res Response) (r : Request) :
    res Response :=
  if String.eqb (r_Height r) "" then next None r
  else match ParseInt (r_Height r) with
       | Ok height =>
           if height <? 0 then
             Ok (error_response 400 "height must be equal or greater than zero")
           else if 0 <? height then next (Some (r_Height r)) r
           else next None r
       | _ => Ok (error_response 400 "syntax error")
       end.

End logs.

(** ** The rebuilt logs *)
Section rebuilt.
Variable float_int : string -> Z.

(** The copy of an event that belongs to a message, and the copies of all
    events with an index that is not negative. *)
Definition copy_at_index (i : Z) (event : json) : option json :=
  match event with
  | JObject e => if extractMsgIndex float_int e =? i then Some (copyEventForLogs e) else None
  | _ => None
  end.

Definition events_at (i : Z) (events : list json) : list json := omap (copy_at_index i) events.

Definition copy_indexed (event : json) : option json :=
  match event with
  | JObject e => if extractMsgIndex float_int e <? 0 then None else Some (copyEventForLogs e)
  | _ => None
  end.

Definition index_of (event : json) : Z :=
  match event with JObject e => extractMsgIndex float_int e | _ => 0 end.

Lemma group_app events acc : forall i,
  default [] ((foldl (group_event float_int) acc events).1 !! i) =
    default [] (acc.1 !! i) ++ events_at i events.
Proof.
  revert acc. induction events as [|e events IH]; intros acc i; simpl; [by rewrite app_nil_r|].
  rewrite IH. unfold events_at at 2. simpl. destruct e as [| | | | |e]; try done.
  cbn [group_event fst copy_at_index].
  destruct (Z.eqb_spec (extractMsgIndex float_int e) i) as [->|Hne].
  - rewrite lookup_insert_eq. simpl. by rewrite <- app_assoc.
  - by rewrite lookup_insert_ne.
Qed.

Lemma group_at events i :
  default [] ((group_events float_int events).1 !! i) = events_at i events.
Proof. unfold group_events. by rewrite group_app. Qed.

Lemma group_max_from events acc :
  acc.2 <= (foldl (group_event float_int) acc events).2 /\
  Forall (fun e => index_of e <= Z.max 0 (foldl (group_event float_int) acc events).2) events /\
  ((foldl (group_event float_int) acc events).2 = acc.2 \/
   exists e, e ∈ events /\ index_of e = (foldl (group_event float_int) acc events).2).
Proof.
  revert acc. induction events as [|e events IH]; intros acc; simpl; [split; [lia|by auto]|].
  destruct (IH (group_event float_int acc e)) as (H1 & H2 & H3).
  assert (acc.2 <= (group_event float_int acc e).2 /\
    index_of e <= Z.max 0 (group_event float_int acc e).2 /\
    ((group_event float_int acc e).2 = acc.2 \/ index_of e = (group_event float_int acc e).2))
    as (G1 & G2 & G3).
  { destruct e; simpl; try (split; [lia|]; split; [lia|by left]).
    destruct (Z.ltb_spec acc.2 (extractMsgIndex float_int fields)); lia. }
  split; [lia|]. split; [constructor; [lia|done]|].
  destruct H3 as [E|(e' & He' & E)].
  - rewrite E. destruct G3 as [->|G3]; [by left|]. right. exists e. split; [by left|done].
  - right. exists e'. split; [by right|done].
Qed.

Definition max_index (events : list json) : Z := (group_events float_int events).2.

Lemma max_index_bounds events :
  0 <= max_index events /\ Forall (fun e => index_of e <= max_index events) events /\
  (max_index events = 0 \/ exists e, e ∈ events /\ index_of e = max_index events).
Proof.
  destruct (group_max_from events (∅, 0)) as (H1 & H2 & H3). unfold max_index, group_events.
  simpl in H1. split; [done|]. rewrite Z.max_r in H2 by done. done.
Qed.

Lemma elem_of_indices m i : i ∈ indices m <-> 0 <= i <= m.
Proof.
  unfold indices. rewrite list_elem_of_fmap. split.
  - intros (n & -> & Hn). apply elem_of_seq in Hn. lia.
  - intros Hi. exists (Z.to_nat i). split; [lia|]. apply elem_of_seq. lia.
Qed.

Lemma indices_nodup m : NoDup (indices m).
Proof. unfold indices. apply NoDup_fmap_2; [intros x y; lia|apply NoDup_seq]. Qed.

Lemma build_logs_eq events :
  build_logs (group_events float_int events).1 (max_index events) =
    map (fun i => log_entry i (events_at i events))
      (base.filter (fun i => events_at i events <> []) (indices (max_index events))).
Proof.
  unfold build_logs. induction (indices (max_index events)) as [|i l IH]; [done|].
  cbn [omap list_omap]. rewrite filter_cons, IH. pose proof (group_at events i) as E.
  destruct ((group_events float_int events).1 !! i) as [[|e es]|]; simpl in E; rewrite <- E.
  - by rewrite decide_False by (intros H; by apply H).
  - rewrite decide_True by done. simpl. by rewrite <- E.
  - by rewrite decide_False by (intros H; by apply H).
Qed.

(** One more element in one of the parts. *)
Lemma concat_insert {A} (g : Z -> list A) (k : Z) (x : A) (l : list Z) : NoDup l ->
  concat (map (fun i => (if k =? i then [x] else []) ++ g i) l) ≡ₚ
    (if bool_decide (k ∈ l) then [x] else []) ++ concat (map g l).
Proof.
  induction l as [|i l IH]; intros Hn; [done|]. apply list.NoDup_cons in Hn as [Hi Hn]. simpl.
  rewrite IH by done. destruct (Z.eqb_spec k i) as [->|Hne].
  - rewrite (bool_decide_true (i ∈ i :: l)) by apply list_elem_of_here.
    by rewrite bool_decide_false.
  - simpl. destruct (decide (k ∈ l)).
    + rewrite !bool_decide_true by (done || by apply list_elem_of_further). simpl.
      by rewrite Permutation_middle.
    + rewrite (bool_decide_false (k ∈ l)) by done.
      by rewrite bool_decide_false by (intros [?|?]%elem_of_cons; done).
Qed.

Lemma events_partition events m : Forall (fun e => index_of e <= m) events ->
  concat (map (fun i => events_at i events) (indices m)) ≡ₚ omap copy_indexed events.
Proof.
  induction 1 as [|e events He Hev IH]; simpl.
  - unfold events_at. simpl. by induction (indices m).
  - destruct e as [| | | | |e]; try exact IH. cbn [copy_indexed index_of] in *.
    transitivity (concat (map (fun i => (if extractMsgIndex float_int e =? i then [copyEventForLogs e] else [])
      ++ events_at i events) (indices m))).
    { apply reflexive_eq. f_equal. apply map_ext. intros i. unfold events_at. simpl.
      by destruct (extractMsgIndex float_int e =? i). }
    rewrite concat_insert, IH by apply indices_nodup.
    destruct (Z.ltb_spec (extractMsgIndex float_int e) 0).
    + by rewrite bool_decide_false by (rewrite elem_of_indices; lia).
    + by rewrite bool_decide_true by (rewrite elem_of_indices; lia).
Qed.

(** The events in a log entry. *)
Definition log_events (log : json) : list json :=
  match log with
  | JObject fs => match field "events" fs with Some (JArray es) => es | _ => [] end
  | _ => []
  end.

Definition has_logs (tx : list (string * json)) : bool :=
  match field "logs" tx with Some (JArray (_ :: _)) => true | _ => false end.

Lemma field_filtered name fs : field name (base.filter (fun f : string * json => f.1 <> name) fs) = None.
Proof.
  induction fs as [|[n j] fs IH]; [done|]. rewrite filter_cons. simpl.
  case_decide as Hn; [|done]. simpl. rewrite IH.
  by rewrite (proj2 (String.eqb_neq n name)).
Qed.

Lemma field_app name fs gs : field name (fs ++ gs) =
  match field name gs with Some j => Some j | None => field name fs end.
Proof.
  induction fs as [|[n j] fs IH]; simpl; [by destruct (field name gs)|]. rewrite IH.
  by destruct (field name gs).
Qed.

Lemma field_set name j fs : field name (set_field name j fs) = Some j.
Proof. unfold set_field. rewrite field_app. simpl. by rewrite String.eqb_refl. Qed.

Lemma reconstruct_run tx e es : has_logs tx = false -> field "events" tx = Some (JArray (e :: es)) ->
  max_index (e :: es) + 1 < 2 ^ 63 ->
  reconstructLogs float_int tx = Ok
    (match build_logs (group_events float_int (e :: es)).1 (max_index (e :: es)) with
     | [] => tx
     | logs => set_field "logs" (JArray logs) tx
     end).
Proof.
  intros Hl He Hm. unfold reconstructLogs, has_logs in *.
  pose proof (max_index_bounds (e :: es)) as [H0 _].
  assert (i64 (max_index (e :: es) + 1) <? 0 = false) as Hc.
  { apply Z.ltb_ge. unfold i64. rewrite Z.mod_small by lia. lia. }
  rewrite He. unfold max_index in *. destruct (group_events float_int (e :: es)) as [groups mx].
  cbn [fst snd] in *. rewrite Hc.
  by destruct (field "logs" tx) as [[| | | |[|]|]|]; try done; destruct (build_logs groups mx).
Qed.

Lemma list_eq_nil {A} (l : list A) : l = [] \/ l <> [].
Proof. destruct l; auto. Qed.

(** An answer without logs gets one log entry per message with events,
    in ascending order, which holds copies of exactly the events of that
    message in their order; together the entries hold every event whose index
    is not negative, once.  A second pass changes nothing. *)
Theorem logs_rebuilt tx e es tx' : has_logs tx = false ->
  field "events" tx = Some (JArray (e :: es)) -> max_index (e :: es) + 1 < 2 ^ 63 ->
  reconstructLogs float_int tx = Ok tx' ->
  let logs := map (fun i => log_entry i (events_at i (e :: es)))
    (base.filter (fun i => events_at i (e :: es) <> []) (indices (max_index (e :: es)))) in
  tx' = match logs with [] => tx | _ => set_field "logs" (JArray logs) tx end /\
  concat (map log_events logs) ≡ₚ omap copy_indexed (e :: es) /\
  reconstructLogs float_int tx' = Ok tx'.
Proof.
  intros Hl He Hm E logs. rewrite (reconstruct_run tx e es Hl He Hm), build_logs_eq in E.
  fold logs in E. injection E as E.
  assert (tx' = match logs with [] => tx | _ => set_field "logs" (JArray logs) tx end) as Etx
    by (rewrite <- E; by destruct logs).
  split; [done|]. split.
  - rewrite <- (events_partition (e :: es) (max_index (e :: es))) by apply max_index_bounds.
    unfold logs. clear logs E Etx. apply reflexive_eq. induction (indices _) as [|i l IH]; [done|].
    rewrite filter_cons. destruct (decide (events_at i (e :: es) <> [])) as [Hn|Hn];
      cbn [map concat]; rewrite <- IH.
    + done.
    + destruct (list_eq_nil (events_at i (e :: es))) as [->|Hne]; [done|]. by destruct Hn.
  - rewrite Etx. destruct logs as [|log logs'] eqn:El.
    + rewrite (reconstruct_run tx e es Hl He Hm), build_logs_eq. fold logs. by rewrite El.
    + unfold reconstructLogs. by rewrite field_set.
Qed.

(** The index of an event is read from its attributes.  An event that
    carries the largest int64 as its [msg_index] makes the middleware panic,
    and any other index is the number of rounds it takes. *)
Theorem index_drives_work tx e es : has_logs tx = false ->
  field "events" tx = Some (JArray (e :: es)) ->
  (index_of e = 2 ^ 63 - 1 -> Forall (fun x => index_of x <= 2 ^ 63 - 1) es ->
    reconstructLogs float_int tx = Panic) /\
  (0 <= index_of e -> index_of e < Z.of_nat (length (indices (max_index (e :: es))))).
Proof.
  intros Hl He. pose proof (max_index_bounds (e :: es)) as (H0 & Hmax & Hex).
  apply Forall_cons in Hmax as [Hmax Hrest]. split.
  - intros Hi Hes.
    assert (max_index (e :: es) = 2 ^ 63 - 1) as Hm.
    { destruct Hex as [|(x & [->|Hx]%elem_of_cons & Ex)]; [lia|lia|].
      rewrite list.Forall_forall in Hes. specialize (Hes x Hx). lia. }
    unfold reconstructLogs, has_logs, max_index in *. rewrite He.
    destruct (group_events float_int (e :: es)) as [groups mx]. cbn [snd] in Hm. subst mx.
    by destruct (field "logs" tx) as [[| | | |[|]|]|].
  - intros Hi. unfold indices. rewrite length_map, length_seq. lia.
Qed.

End rebuilt.

(** ** Examples *)
Module Example.

Definition attr (k v : string) : json := JObject [("key", JString k); ("value", JString v)].
Definition event (t i : string) : json :=
  JObject [("type", JString t); ("attributes", JArray [attr "amount" "5"; attr "msg_index" i])].
Definition events : list json := [event "transfer" "1"; event "swap" "0"; event "burn" "1"; event "odd" "-2"].
Definition tx : list (string * json) := [("height", JString "7"); ("events", JArray events)].
Definition copied (t i : string) : json :=
  JObject [("type", JString t); ("attributes", JArray [attr "amount" "5"; attr "msg_index" i])].
Definition logs : list json :=
  [log_entry 0 [copied "swap" "0"]; log_entry 1 [copied "transfer" "1"; copied "burn" "1"]].
Definition huge : json := event "wasm" "9223372036854775807".

End Example.

Lemma logs_rebuilt_witness :
  reconstructLogs (fun _ => 0) Example.tx = Ok (set_field "logs" (JArray Example.logs) Example.tx) /\
  reconstructLogs (fun _ => 0) (set_field "logs" (JArray Example.logs) Example.tx) =
    Ok (set_field "logs" (JArray Example.logs) Example.tx).
Proof.
  assert (reconstructLogs (fun _ => 0) Example.tx = Ok (set_field "logs" (JArray Example.logs) Example.tx))
    as E by (vm_compute; reflexivity).
  split; [exact E|].
  apply (logs_rebuilt (fun _ => 0) Example.tx (Example.event "transfer" "1") (tail Example.events)
    (set_field "logs" (JArray Example.logs) Example.tx)); try done.
Defined.

Lemma index_drives_work_witness :
  reconstructLogs (fun _ => 0) [("events", JArray [Example.huge])] = Panic.
Proof.
  destruct (index_drives_work (fun _ => 0) [("events", JArray [Example.huge])] Example.huge [])
    as [Hp _]; [done|done|].
  apply Hp; [vm_compute; reflexivity|constructor].
Defined.
