(* ===== verification/AppGenesis.v ===== *)
(** * The default genesis of the application

    [src/app/genesis.go] rewrites the default genesis of the modules so that
    a new network starts closed.  A raw message is a JSON text; it is read
    into Go maps, patched and printed again, which sorts the fields of every
    object.  The text of a number that went through a float64 is a
    parameter. *)
From stdpp Require Import base gmap sets list strings fin_maps sorting.
From Stdlib Require Import ZArith Lia.
From S2P Require Import Prelude Bindings.
#[local] Open Scope Z_scope.

(** ** JSON objects as Go maps *)

(** Of fields with the same name the last counts. *)
Definition fields (fs : list (string * json)) : gmap string json :=
  foldl (fun acc kv => <[kv.1 := kv.2]> acc) ∅ fs.

(** [json.Marshal] of a map prints its fields in the order of their names. *)
Definition object (m : gmap string json) : json := JObject (kv_iter m).

(** [v.(map[string]any)] and [v.([]any)] of a field, [None] when it is missing
    or of another type. *)
Definition as_map (o : option json) : option (gmap string json) :=
  match o with Some (JObject fs) => Some (fields fs) | _ => None end.
Definition as_list (o : option json) : option (list json) :=
  match o with Some (JArray l) => Some l | _ => None end.
(** [s, _ := v.(string)] *)
Definition as_text (o : option json) : string :=
  match o with Some (JString s) => s | _ => "" end.

(** A raw message: nothing, a text that is not JSON, or a JSON text, which may
    have white space around it. *)
Inductive RawMessage : Type :=
| RawEmpty
| RawInvalid
| RawText (padded : bool) (j : json).

Notation GenesisState := (gmap string RawMessage).

Section genesis.
(** How a number reads after it was a float64; [None] out of its range. *)
Variable float_text : string -> option string.

(** [json.Unmarshal] into a variable of type any. *)
Fixpoint read_value (j : json) : option json :=
  match j with
  | JNumber n => t ← float_text n; Some (JNumber t)
  | JArray l =>
      l' ← (fix read_list (l : list json) : option (list json) :=
              match l with
              | [] => Some []
              | x :: l => y ← read_value x; l' ← read_list l; Some (y :: l')
              end) l;
      Some (JArray l')
  | JObject fs =>
      fs' ← (fix read_fields (fs : list (string * json)) : option (list (string * json)) :=
               match fs with
               | [] => Some []
               | (k, x) :: fs => y ← read_value x; fs' ← read_fields fs; Some ((k, y) :: fs')
               end) fs;
      Some (object (fields fs'))
  | _ => Some j
  end.

(** [ensureObject(parent, key)] and what the caller writes into the map it
    returns, which is the map kept in the parent. *)
Definition ensureObject (key : string) (write : gmap string json -> gmap string json)
    (parent : gmap string json) : gmap string json :=
  <[key := object (write (default ∅ (as_map (parent !! key))))]> parent.

Definition put (key : string) (v : json) (m : gmap string json) : gmap string json := <[key := v]> m.

(** A nil map can be read, but writing to it panics; every patch writes. *)
Definition patchGenesisModule (moduleName : string)
    (patch : gmap string json -> gmap string json) (genesis : GenesisState) : res GenesisState :=
  match genesis !! moduleName with
  | None | Some RawEmpty | Some RawInvalid | Some (RawText false JNull) => Ok genesis
  | Some (RawText true JNull) => Panic
  | Some (RawText _ (JObject fs)) =>
      match read_value (JObject fs) with
      | Some (JObject state) =>
          Ok (<[moduleName := RawText false (object (patch (fields state)))]> genesis)
      | _ => Ok genesis
      end
  | Some (RawText _ _) => Ok genesis
  end.

(** ** The patches *)
Definition patch_wasm (state : gmap string json) : gmap string json :=
  ensureObject "params" (fun params =>
    put "instantiate_default_permission" (JString "Nobody")
      (put "code_upload_access"
         (object (put "addresses" (JArray []) (put "permission" (JString "Nobody") ∅))) params)) state.

Definition patch_ibc (state : gmap string json) : gmap string json :=
  ensureObject "client_genesis"
    (ensureObject "params" (put "allowed_clients" (JArray [JString "07-tendermint"]))) state.

Definition patch_ica (state : gmap string json) : gmap string json :=
  ensureObject "host_genesis_state"
    (ensureObject "params" (fun hostParams =>
       put "allow_messages" (JArray []) (put "host_enabled" (JBool false) hostParams)))
    (ensureObject "controller_genesis_state"
       (ensureObject "params" (put "controller_enabled" (JBool false))) state).

Definition patch_transfer (state : gmap string json) : gmap string json :=
  ensureObject "params" (fun params =>
    put "receive_enabled" (JBool false) (put "send_enabled" (JBool false) params)) state.

Definition mainnetZeroTobinTax : string := "0.000000000000000000".
Definition mainnetUSDTobinTax : string := "0.002500000000000000".

Definition whitelist_entry (name tobin_tax : string) : json :=
  object (put "tobin_tax" (JString tobin_tax) (put "name" (JString name) ∅)).

Definition patch_oracle (state : gmap string json) : gmap string json :=
  put "tobin_taxes" (JArray [])
    (put "exchange_rates" (JArray [])
       (ensureObject "params"
          (put "whitelist" (JArray [whitelist_entry "udo" mainnetZeroTobinTax;
                                    whitelist_entry "uusd" mainnetUSDTobinTax])) state)).

Definition denom_unit (denom exponent : string) (aliases : list json) : json :=
  object (put "aliases" (JArray aliases)
    (put "exponent" (JNumber exponent) (put "denom" (JString denom) ∅))).

Definition denomMetadata (base display name symbol : string) : gmap string json :=
  put "uri_hash" (JString "") (put "uri" (JString "") (put "symbol" (JString symbol)
    (put "name" (JString name) (put "display" (JString display) (put "base" (JString base)
      (put "denom_units" (JArray [denom_unit base "0" [JString ("micro" +:+ display)];
                                  denom_unit display "6" []])
        (put "description" (JString name) ∅))))))).

(** The first entry with the base is replaced. *)
Definition has_base (base : string) (item : json) : bool :=
  match as_map (Some item) with
  | Some entry => String.eqb (as_text (entry !! "base")) base
  | None => false
  end.

Fixpoint replace_first (p : json -> bool) (v : json) (l : list json) : option (list json) :=
  match l with
  | [] => None
  | x :: l => if p x then Some (v :: l) else l' ← replace_first p v l; Some (x :: l')
  end.

Definition ensureMetadata (existing : list json) (metadata : gmap string json) : list json :=
  match replace_first (has_base (as_text (metadata !! "base"))) (object metadata) existing with
  | Some l => l
  | None => existing ++ [object metadata]
  end.

Definition coinListHasDenom (coins : list json) (denom : string) : bool :=
  existsb (fun item => match as_map (Some item) with
                       | Some coin => String.eqb (as_text (coin !! "denom")) denom
                       | None => false
                       end) coins.

Definition bankHasDenom (bank : gmap string json) (denom : string) : bool :=
  match as_list (bank !! "supply") with
  | Some coins => coinListHasDenom coins denom
  | None => false
  end ||
  match as_list (bank !! "balances") with
  | Some balances =>
      existsb (fun item => match as_map (Some item) with
                           | Some balance => coinListHasDenom (default [] (as_list (balance !! "coins"))) denom
                           | None => false
                           end) balances
  | None => false
  end.

Definition bank_metadata (state : gmap string json) : list json :=
  let metadata := default [] (as_list (state !! "denom_metadata")) in
  let metadata := ensureMetadata metadata (denomMetadata "udo" "do" "Do" "DO") in
  let metadata := ensureMetadata metadata (denomMetadata "udodx" "dodx" "Do governance token" "DODx") in
  let metadata := ensureMetadata metadata (denomMetadata "uusd" "usd" "Do USD oracle unit" "USD") in
  if bankHasDenom state "ubaked"
  then ensureMetadata metadata (denomMetadata "ubaked" "baked" "Do baked token" "BAKED")
  else metadata.

Definition patch_bank (state : gmap string json) : gmap string json :=
  put "denom_metadata" (JArray (bank_metadata state)) state.

Definition hardenWasmGenesis := patchGenesisModule "wasm" patch_wasm.
Definition hardenIBCGenesis := patchGenesisModule "ibc" patch_ibc.
Definition hardenICAGenesis := patchGenesisModule "interchainaccounts" patch_ica.
Definition hardenTransferGenesis := patchGenesisModule "transfer" patch_transfer.
Definition hardenOracleGenesis := patchGenesisModule "oracle" patch_oracle.
Definition hardenBankGenesis := patchGenesisModule "bank" patch_bank.

Definition HardenMainnetGenesisDefaults (genesis : GenesisState) : res GenesisState :=
  genesis ← hardenWasmGenesis genesis;
  genesis ← hardenIBCGenesis genesis;
  genesis ← hardenICAGenesis genesis;
  genesis ← hardenTransferGenesis genesis;
  genesis ← hardenOracleGenesis genesis;
  hardenBankGenesis genesis.

(** The default genesis of the registered modules is the argument. *)
Definition NewDefaultGenesisState (defaults : GenesisState) : res GenesisState :=
  HardenMainnetGenesisDefaults defaults.

End genesis.

(** ** Reading back what was printed *)
Lemma fields_iter m : fields (kv_iter m) = m.
Proof. unfold fields. by rewrite kv_iter_rebuild. Qed.

Lemma fields_object m : as_map (Some (object m)) = Some m.
Proof. unfold as_map, object. by rewrite fields_iter. Qed.

Lemma json_ind' (P : json -> Prop) :
  P JNull -> (forall b, P (JBool b)) -> (forall n, P (JNumber n)) -> (forall s, P (JString s)) ->
  (forall l, Forall P l -> P (JArray l)) ->
  (forall fs, Forall (fun kv => P kv.2) fs -> P (JObject fs)) ->
  forall j, P j.
Proof.
  intros H1 H2 H3 H4 H5 H6. fix IH 1. intros [| | | |l|fs]; [done|done|done|done| |].
  - apply H5. induction l as [|x l IHl]; constructor; [apply IH|apply IHl].
  - apply H6. induction fs as [|[k x] fs IHl]; constructor; [apply IH|apply IHl].
Qed.

Section laws.
Variable float_text : string -> option string.
(** The text of a float64 reads as the same float64. *)
Hypothesis float_again : forall n t, float_text n = Some t -> float_text t = Some t.
Hypothesis float_0 : float_text "0" = Some "0".
Hypothesis float_6 : float_text "6" = Some "6".

Definition read_list (l : list json) : option (list json) := mapM (read_value float_text) l.
Definition read_fields (fs : list (string * json)) : option (list (string * json)) :=
  mapM (fun kv => y ← read_value float_text kv.2; Some (kv.1, y)) fs.

Lemma read_array l : read_value float_text (JArray l) = l' ← read_list l; Some (JArray l').
Proof. cbn [read_value]. by f_equal. Qed.

Lemma read_object fs :
  read_value float_text (JObject fs) = fs' ← read_fields fs; Some (object (fields fs')).
Proof.
  cbn [read_value]. f_equal. unfold read_fields.
  induction fs as [|[k x] fs IH]; [done|]. cbn [mapM fst snd].
  destruct (read_value float_text x); [|done]. cbn [mbind option_bind]. by rewrite IH.
Qed.

(** A value that reading leaves as it is. *)
Definition canonical (j : json) : Prop := read_value float_text j = Some j.
Definition canonical_map (m : gmap string json) : Prop := map_Forall (fun _ => canonical) m.

Lemma canonical_array l : Forall canonical l -> canonical (JArray l).
Proof.
  intros Hl. unfold canonical. rewrite read_array. unfold read_list.
  replace (mapM (read_value float_text) l) with (Some l); [done|]. symmetry.
  apply mapM_Some. by induction Hl; constructor.
Qed.

Lemma canonical_object m : canonical_map m -> canonical (object m).
Proof.
  intros Hm. unfold canonical, object. rewrite read_object.
  replace (read_fields (kv_iter m)) with (Some (kv_iter m)).
  - simpl. unfold object. by rewrite fields_iter.
  - symmetry. apply mapM_Some, Forall_Forall2_diag, Forall_forall. intros [k v] Hk. simpl.
    apply elem_of_kv_iter in Hk. by rewrite (Hm k v Hk).
Qed.

Lemma canonical_put k v m : canonical v -> canonical_map m -> canonical_map (put k v m).
Proof. intros Hv Hm. by apply map_Forall_insert_2. Qed.

Lemma canonical_empty : canonical_map ∅.
Proof. apply map_Forall_empty. Qed.

Lemma fields_canonical fs : Forall (fun kv => canonical kv.2) fs -> canonical_map (fields fs).
Proof.
  unfold fields.
  assert (forall acc, canonical_map acc -> Forall (fun kv : string * json => canonical kv.2) fs ->
    canonical_map (foldl (fun acc kv => <[kv.1 := kv.2]> acc) acc fs)) as H.
  { induction fs as [|[k v] fs IH]; intros acc Ha Hf; [done|]. inv Hf. simpl.
    apply IH; [|done]. by apply canonical_put. }
  intros Hf. apply H; [apply canonical_empty|done].
Qed.

Lemma read_canonical j j' : read_value float_text j = Some j' -> canonical j'.
Proof.
  revert j'. induction j using json_ind'; intros j' Hr.
  - by simplify_eq/=.
  - by simplify_eq/=.
  - simpl in Hr. destruct (float_text n) as [t|] eqn:E; simplify_eq/=.
    unfold canonical. simpl. by rewrite (float_again n t E).
  - by simplify_eq/=.
  - rewrite read_array in Hr. destruct (read_list l) as [l'|] eqn:E; simplify_eq/=.
    apply canonical_array. apply mapM_Some in E.
    induction E; inv H; constructor; eauto.
  - rewrite read_object in Hr. destruct (read_fields fs) as [fs'|] eqn:E; simplify_eq/=.
    apply canonical_object, fields_canonical. apply mapM_Some in E.
    induction E as [|[k x] [k' y] fs fs' Hxy E IH]; inv H; constructor; [|by apply IH].
    simpl in *. destruct (read_value float_text x) as [z|] eqn:Ez; simplify_eq/=. eauto.
Qed.

(** ** One module *)
Definition patch_entry (patch : gmap string json -> gmap string json) (r : RawMessage) : res RawMessage :=
  match r with
  | RawText true JNull => Panic
  | RawText _ (JObject fs) =>
      match read_value float_text (JObject fs) with
      | Some (JObject state) => Ok (RawText false (object (patch (fields state))))
      | _ => Ok r
      end
  | _ => Ok r
  end.

Lemma patch_module name patch g :
  patchGenesisModule float_text name patch g =
    match g !! name with
    | None => Ok g
    | Some r => r' ← patch_entry patch r; Ok (<[name := r']> g)
    end.
Proof.
  unfold patchGenesisModule, patch_entry. destruct (g !! name) as [r|] eqn:E; [|done].
  assert (Ok g = Ok (<[name:=r]> g)) as Hid by by rewrite insert_id.
  destruct r as [| |[] [| | | | |fs]]; try done;
    destruct (read_value float_text (JObject fs)) as [[]|]; done.
Qed.

(** The patches that a canonical state keeps canonical and that change nothing
    the second time. *)
Record good_patch (patch : gmap string json -> gmap string json) : Prop := {
  gp_canonical : forall m, canonical_map m -> canonical_map (patch m);
  gp_again : forall m, patch (patch m) = patch m;
}.

Lemma patch_entry_again patch r r' : good_patch patch ->
  patch_entry patch r = Ok r' -> patch_entry patch r' = Ok r'.
Proof.
  intros [Hc Ha] Hr. unfold patch_entry in Hr.
  destruct r as [| |b [| | | | |fs]]; try (by destruct b; simplify_eq); try by simplify_eq.
  destruct (read_value float_text (JObject fs)) as [state|] eqn:E;
    [|destruct b; simplify_eq/=; by rewrite E].
  rewrite read_object in E.
  destruct (read_fields fs) as [fs'|] eqn:Ef; simplify_eq/=.
  assert (canonical_map (fields fs')) as Hm.
  { apply fields_canonical, Forall_forall. intros [k v] Hk. apply mapM_Some in Ef.
    apply list_elem_of_lookup in Hk as [i Hi].
    destruct (Forall2_lookup_r _ _ _ _ _ Ef Hi) as ([k' x] & _ & Hx). simpl in *.
    destruct (read_value float_text x) as [z|] eqn:Ez; simplify_eq/=. by eapply read_canonical. }
  assert (r' = RawText false (object (patch (fields fs')))) as ->.
  { rewrite fields_iter in Hr. by destruct b; simplify_eq/=. }
  pose proof (canonical_object _ (Hc _ Hm)) as Ho. unfold canonical in Ho.
  unfold patch_entry. unfold object in *. rewrite Ho. by rewrite fields_iter, Ha.
Qed.

(** ** The patches are good *)
Lemma object_canonical fs : canonical (JObject fs) -> canonical_map (fields fs).
Proof.
  unfold canonical. rewrite read_object. destruct (read_fields fs) as [fs'|] eqn:E; [|done].
  intros [=Hfs]. apply fields_canonical, Forall_forall. intros [k v] Hk.
  rewrite <- Hfs, elem_of_kv_iter in Hk. simpl.
  apply mapM_Some in E. 
  assert (canonical_map (fields fs')) as Hc; [|by apply (Hc k v)].
  apply fields_canonical, Forall_forall. intros [k' v'] Hk'.
  apply list_elem_of_lookup in Hk' as [i Hi].
  destruct (Forall2_lookup_r _ _ _ _ _ E Hi) as ([k'' x] & _ & Hx). simpl in *.
  destruct (read_value float_text x) as [z|] eqn:Ez; simplify_eq/=. by eapply read_canonical.
Qed.

Lemma array_canonical l : canonical (JArray l) -> Forall canonical l.
Proof.
  unfold canonical. rewrite read_array. destruct (read_list l) as [l'|] eqn:E; [|done].
  intros [=->]. apply mapM_Some in E. apply Forall_forall. intros x Hx.
  apply list_elem_of_lookup in Hx as [i Hi]. exact (Forall2_lookup_lr _ _ _ _ _ _ E Hi Hi).
Qed.

Lemma as_map_canonical m k : canonical_map m -> canonical_map (default ∅ (as_map (m !! k))).
Proof.
  intros Hm. destruct (m !! k) as [[]|] eqn:E; simpl; try apply canonical_empty.
  apply object_canonical, (Hm k _ E).
Qed.

(** A patch that writes one field, from what that field was. *)
Definition writes (key : string) (patch : gmap string json -> gmap string json) : Prop :=
  exists f, forall m, patch m = <[key := f (m !! key)]> m.

Lemma put_writes k v : writes k (put k v).
Proof. by exists (fun _ => v). Qed.

Lemma ensure_writes k w : writes k (ensureObject k w).
Proof. by exists (fun o => object (w (default ∅ (as_map o)))). Qed.

Lemma writes_commute k k' p q m : k <> k' -> writes k p -> writes k' q -> p (q m) = q (p m).
Proof.
  intros Hk [f Hf] [g Hg]. rewrite !Hf, !Hg, !lookup_insert_ne by done. by rewrite insert_insert_ne.
Qed.

Lemma good_put k v : canonical v -> good_patch (put k v).
Proof. intros Hv. split; intros m; [by apply canonical_put|apply insert_insert_eq]. Qed.

Lemma good_ensure k w : good_patch w -> good_patch (ensureObject k w).
Proof.
  intros [Hc Ha]. split; intros m.
  - intros Hm. apply canonical_put; [|done]. by apply canonical_object, Hc, as_map_canonical.
  - unfold ensureObject. rewrite lookup_insert_eq, fields_object. simpl. by rewrite Ha, insert_insert_eq.
Qed.

Lemma good_compose p q : good_patch p -> good_patch q -> (forall m, p (q m) = q (p m)) ->
  good_patch (fun m => p (q m)).
Proof.
  intros [Hc Ha] [Hc' Ha'] Hpq. split; intros m; [by intros; apply Hc, Hc'|].
  by rewrite <- (Hpq (q m)), Ha', Ha.
Qed.

#[local] Hint Resolve good_put good_ensure canonical_object canonical_put canonical_empty
  canonical_array put_writes ensure_writes : genesis.
#[local] Hint Extern 1 (canonical (JString _)) => reflexivity : genesis.
#[local] Hint Extern 1 (canonical (JBool _)) => reflexivity : genesis.
#[local] Hint Extern 1 (Forall canonical _) => repeat constructor : genesis.

Ltac two k k' := apply (good_compose _ _); [| |intros; by apply (writes_commute k k'); eauto with genesis].

Lemma good_wasm : good_patch patch_wasm.
Proof.
  apply good_ensure. two "instantiate_default_permission" "code_upload_access"; eauto with genesis.
  apply good_put. eauto 8 with genesis.
Qed.

Lemma good_ibc : good_patch patch_ibc.
Proof. unfold patch_ibc. eauto 7 with genesis. Qed.

Lemma good_ica : good_patch patch_ica.
Proof.
  unfold patch_ica. two "host_genesis_state" "controller_genesis_state"; [|eauto 7 with genesis].
  do 2 apply good_ensure. two "allow_messages" "host_enabled"; eauto with genesis.
Qed.

Lemma good_transfer : good_patch patch_transfer.
Proof. apply good_ensure. two "receive_enabled" "send_enabled"; eauto with genesis. Qed.

Lemma good_oracle : good_patch patch_oracle.
Proof.
  assert (forall n t, canonical (whitelist_entry n t)) as Hw.
  { intros. unfold whitelist_entry. eauto 7 with genesis. }
  apply (good_compose (put "tobin_taxes" (JArray []))).
  - eauto with genesis.
  - two "exchange_rates" "params"; eauto with genesis.
  - intros m. unfold put, ensureObject. rewrite lookup_insert_ne by done.
    by rewrite (insert_insert_ne _ "tobin_taxes" "exchange_rates"), (insert_insert_ne _ "tobin_taxes" "params").
Qed.

(** ** Bank metadata *)
Lemma has_base_inj b b' item : has_base b item = true -> has_base b' item = true -> b = b'.
Proof.
  unfold has_base. destruct (as_map (Some item)); [|done].
  intros H1%String.eqb_eq H2%String.eqb_eq. congruence.
Qed.

Lemma find_filter (p : json -> bool) l : List.find p l = head (List.filter p l).
Proof. induction l as [|x l IH]; simpl; [done|]. by destruct (p x). Qed.

Section metadata.
Variable metadata : gmap string json.
Let base := as_text (metadata !! "base").

Lemma object_has_base : has_base base (object metadata) = true.
Proof. unfold has_base. rewrite fields_object. apply String.eqb_refl. Qed.

Lemma replace_first_find p v l : p v = true ->
  match replace_first p v l with
  | Some l' => List.find p l' = Some v /\ exists x, p x = true /\ List.find p l = Some x
  | None => List.find p l = None
  end.
Proof.
  intros Hv. induction l as [|x l IH]; simpl; [done|]. destruct (p x) eqn:Ex; simpl.
  - rewrite Hv. eauto.
  - destruct (replace_first p v l); simpl; [|done]. by rewrite Ex.
Qed.

(** The metadata is the first entry of its base. *)
Lemma ensure_registers l : List.find (has_base base) (ensureMetadata l metadata) = Some (object metadata).
Proof.
  unfold ensureMetadata. fold base.
  pose proof (replace_first_find (has_base base) (object metadata) l object_has_base) as H.
  destruct (replace_first _ _ _) as [l'|]; [by destruct H|].
  rewrite find_filter in *. rewrite List.filter_app. simpl. rewrite object_has_base.
  by destruct (List.filter _ l).
Qed.

Lemma ensure_id l : List.find (has_base base) l = Some (object metadata) -> ensureMetadata l metadata = l.
Proof.
  unfold ensureMetadata. fold base. intros Hf.
  assert (replace_first (has_base base) (object metadata) l = Some l) as ->; [|done].
  induction l as [|x l IH]; simpl in *; [done|]. destruct (has_base base x); [congruence|].
  by rewrite (IH Hf).
Qed.

(** Entries it does not concern stay, in their order. *)
Lemma ensure_keeps (p : json -> bool) l : (forall x, has_base base x = true -> p x = false) ->
  List.filter p (ensureMetadata l metadata) = List.filter p l.
Proof.
  intros Hp. unfold ensureMetadata. fold base.
  destruct (replace_first _ _ l) as [l'|] eqn:E.
  - revert l' E. induction l as [|x l IH]; intros l' E; simpl in *; [done|].
    destruct (has_base base x) eqn:Ex; simplify_eq/=.
    + by rewrite (Hp x Ex), (Hp _ object_has_base).
    + destruct (replace_first _ _ l); simplify_eq/=. by rewrite (IH _ eq_refl).
  - rewrite List.filter_app. simpl. rewrite (Hp _ object_has_base). apply app_nil_r.
Qed.

Lemma ensure_canonical l : canonical_map metadata -> Forall canonical l ->
  Forall canonical (ensureMetadata l metadata).
Proof.
  intros Hm Hl. unfold ensureMetadata. destruct (replace_first _ _ l) as [l'|] eqn:E.
  - revert l' E. induction Hl as [|x l Hx Hl IH]; intros l' E; simpl in *; [done|].
    destruct (has_base _ x); simplify_eq/=; [constructor; auto using canonical_object|].
    destruct (replace_first _ _ l); simplify_eq/=. constructor; eauto.
  - apply Forall_app. split; [done|]. repeat constructor. by apply canonical_object.
Qed.

End metadata.

(** The entry of another base stays the first of that base. *)
Lemma ensure_find metadata b l : as_text (metadata !! "base") <> b ->
  List.find (has_base b) (ensureMetadata l metadata) = List.find (has_base b) l.
Proof.
  intros Hb. rewrite !find_filter, ensure_keeps; [done|]. intros x Hx.
  destruct (has_base b x) eqn:E; [|done]. by destruct Hb; eapply has_base_inj.
Qed.

Lemma metadata_canonical b d n y : canonical_map (denomMetadata b d n y).
Proof.
  assert (forall a e l, float_text e = Some e -> Forall canonical l -> canonical (denom_unit a e l)) as Hu.
  { intros a e l He Hl. unfold denom_unit. apply canonical_object.
    repeat apply canonical_put; eauto with genesis. unfold canonical. simpl. by rewrite He. }
  unfold denomMetadata. repeat apply canonical_put; eauto with genesis.
Qed.

Definition base_of (md : gmap string json) : string := as_text (md !! "base").

Lemma registered_all ms l : NoDup (base_of <$> ms) ->
  forall md, md ∈ ms -> List.find (has_base (base_of md)) (foldl ensureMetadata l ms) = Some (object md).
Proof.
  assert (forall ms l b, b ∉ (base_of <$> ms) ->
    List.find (has_base b) (foldl ensureMetadata l ms) = List.find (has_base b) l) as Hrest.
  { clear. induction ms as [|m ms IH]; intros l b Hb; [done|]. simpl.
    rewrite fmap_cons, not_elem_of_cons in Hb. destruct Hb as [Hb Hms].
    rewrite IH by done. apply ensure_find. intros <-. by apply Hb. }
  revert l. induction ms as [|m ms IH]; intros l Hn md Hmd; [by apply elem_of_nil in Hmd|].
  rewrite fmap_cons, NoDup_cons in Hn. destruct Hn as [Hm Hn]. simpl.
  apply elem_of_cons in Hmd as [->|Hmd]; [|by apply IH].
  rewrite Hrest by done. apply ensure_registers.
Qed.

Lemma ensure_all_id ms l :
  (forall md, md ∈ ms -> List.find (has_base (base_of md)) l = Some (object md)) ->
  foldl ensureMetadata l ms = l.
Proof.
  induction ms as [|m ms IH]; intros H; [done|]. simpl. rewrite ensure_id by (apply H; set_solver).
  apply IH. intros md Hmd. apply H. set_solver.
Qed.

(** The metadata of the chain's own denominations. *)
Definition natives (state : gmap string json) : list (gmap string json) :=
  [denomMetadata "udo" "do" "Do" "DO"; denomMetadata "udodx" "dodx" "Do governance token" "DODx";
   denomMetadata "uusd" "usd" "Do USD oracle unit" "USD"] ++
  (if bankHasDenom state "ubaked" then [denomMetadata "ubaked" "baked" "Do baked token" "BAKED"] else []).

Lemma bank_metadata_natives state :
  bank_metadata state = foldl ensureMetadata (default [] (as_list (state !! "denom_metadata"))) (natives state).
Proof. unfold bank_metadata, natives. by destruct (bankHasDenom state "ubaked"). Qed.

Lemma natives_nodup state : NoDup (base_of <$> natives state).
Proof.
  unfold natives. destruct (bankHasDenom state "ubaked");
    apply (bool_decide_unpack _); by vm_compute.
Qed.

Lemma natives_canonical state : Forall canonical_map (natives state).
Proof.
  unfold natives. destruct (bankHasDenom state "ubaked"); repeat constructor; apply metadata_canonical.
Qed.

Lemma natives_put l state : natives (put "denom_metadata" l state) = natives state.
Proof. unfold natives, bankHasDenom, put. by rewrite !lookup_insert_ne. Qed.

Lemma good_bank : good_patch patch_bank.
Proof.
  split; intros m.
  - intros Hm. apply canonical_put; [|done]. apply canonical_array. rewrite bank_metadata_natives.
    assert (Forall canonical (default [] (as_list (m !! "denom_metadata")))) as Hl.
    { destruct (m !! "denom_metadata") as [[]|] eqn:E; simpl; try constructor.
      apply array_canonical, (Hm _ _ E). }
    revert Hl. generalize (default [] (as_list (m !! "denom_metadata"))).
    induction (natives_canonical m) as [|md mds Hmd _ IH]; intros l Hl; simpl; [done|].
    by apply IH, ensure_canonical.
  - unfold patch_bank. rewrite !bank_metadata_natives, natives_put. unfold put at 1 2.
    rewrite lookup_insert_eq. cbn [as_list default from_option id].
    rewrite ensure_all_id by apply registered_all, natives_nodup.
    unfold put. by rewrite insert_insert_eq.
Qed.

(** ** The whole genesis *)
Definition patches : list (string * (gmap string json -> gmap string json)) :=
  [("wasm", patch_wasm); ("ibc", patch_ibc); ("interchainaccounts", patch_ica);
   ("transfer", patch_transfer); ("oracle", patch_oracle); ("bank", patch_bank)].

Definition patch_all (g : GenesisState) (l : list (string * (gmap string json -> gmap string json))) :
    res GenesisState :=
  foldRes (fun g np => patchGenesisModule float_text np.1 np.2 g) g l.

Lemma harden_patches g : HardenMainnetGenesisDefaults float_text g = patch_all g patches.
Proof.
  unfold HardenMainnetGenesisDefaults, patch_all, patches. cbn [foldRes fst snd].
  unfold hardenWasmGenesis, hardenIBCGenesis, hardenICAGenesis, hardenTransferGenesis,
    hardenOracleGenesis, hardenBankGenesis.
  repeat (match goal with |- (?a ≫= _) = (?a ≫= _) => destruct a; simpl; [|done|done] end).
  by destruct (patchGenesisModule _ "bank" _ _).
Qed.

Lemma good_patches : Forall (fun np => good_patch np.2) patches.
Proof.
  unfold patches. repeat apply Forall_cons_2; [apply good_wasm|apply good_ibc|apply good_ica|
    apply good_transfer|apply good_oracle|apply good_bank|constructor].
Qed.

Lemma patches_nodup : NoDup patches.*1.
Proof. apply (bool_decide_unpack _). by vm_compute. Qed.

(** A null message with white space around it, which the guard overlooks. *)
Definition padded_null (o : option RawMessage) : Prop := o = Some (RawText true JNull).

Lemma patch_entry_ok patch r : r <> RawText true JNull -> exists r', patch_entry patch r = Ok r'.
Proof.
  intros Hr. unfold patch_entry. destruct r as [| |[] [| | | | |fs]]; eauto; try done;
    destruct (read_value float_text (JObject fs)) as [[]|]; eauto.
Qed.

Definition patched (patch : gmap string json -> gmap string json) (o o' : option RawMessage) : Prop :=
  match o with
  | None => o' = None
  | Some r => exists r', patch_entry patch r = Ok r' /\ o' = Some r'
  end.

Lemma patch_all_spec l g : NoDup l.*1 -> (forall n, n ∈ l.*1 -> ~ padded_null (g !! n)) ->
  exists g', patch_all g l = Ok g' /\
    (forall n p, (n, p) ∈ l -> patched p (g !! n) (g' !! n)) /\
    (forall n, n ∉ l.*1 -> g' !! n = g !! n).
Proof.
  revert g. induction l as [|[n p] l IH]; intros g Hn Hg; [exists g; split_and!; set_solver|].
  rewrite fmap_cons, NoDup_cons in Hn. destruct Hn as [Hnl Hn]. simpl in Hnl.
  assert (exists g1, patchGenesisModule float_text n p g = Ok g1 /\ patched p (g !! n) (g1 !! n) /\
    forall n', n' <> n -> g1 !! n' = g !! n') as (g1 & E1 & Hp & Hrest).
  { rewrite patch_module. unfold patched. destruct (g !! n) as [r|] eqn:E; [|eauto].
    destruct (patch_entry_ok p r) as [r' Hr'].
    { intros ->. eapply (Hg n); [set_solver|done]. }
    rewrite Hr'. simpl. eexists. split; [done|]. split; [exists r'; by rewrite lookup_insert_eq|].
    intros n' Hn'. by rewrite lookup_insert_ne. }
  destruct (IH g1 Hn) as (g' & E' & Hl & Hr).
  { intros n' Hn'. rewrite Hrest by set_solver. apply Hg. set_solver. }
  exists g'. unfold patch_all in *. cbn [foldRes fst snd]. rewrite E1. split; [done|]. split.
  - intros n' p' [[= -> ->]|Hp']%elem_of_cons; [by rewrite (Hr n)|].
    assert (n' ∈ l.*1) by (apply (list_elem_of_fmap_2 fst _ _ Hp')).
    rewrite <- (Hrest n') by set_solver. by apply Hl.
  - intros n' Hn'. rewrite fmap_cons, not_elem_of_cons in Hn'. destruct Hn' as [Hne Hn'].
    rewrite Hr by done. by apply Hrest.
Qed.

Lemma patch_all_again l (g g' : GenesisState) : Forall (fun np => good_patch np.2) l ->
  (forall n p, (n, p) ∈ l -> patched p (g !! n) (g' !! n)) -> patch_all g' l = Ok g'.
Proof.
  induction l as [|[n p] l IH]; intros Hgood Hp; [done|]. inv Hgood. unfold patch_all in *. simpl.
  assert (patchGenesisModule float_text n p g' = Ok g') as ->; [|by apply IH; set_solver].
  rewrite patch_module. specialize (Hp n p ltac:(set_solver)). unfold patched in Hp.
  destruct (g !! n) as [r|]; [|by rewrite Hp]. destruct Hp as (r' & Hr & E). rewrite E.
  rewrite (patch_entry_again p r r') by done. simpl. by rewrite insert_id.
Qed.

(** The value at a path of field names. *)
Fixpoint at_path (path : list string) (m : gmap string json) : option json :=
  match path with
  | [] => None
  | [k] => m !! k
  | k :: path => m' ← as_map (m !! k); at_path path m'
  end.

Lemma at_path_ensure k k' path w m :
  at_path (k :: k' :: path) (ensureObject k w m) = at_path (k' :: path) (w (default ∅ (as_map (m !! k)))).
Proof. cbn [at_path]. unfold ensureObject. by rewrite lookup_insert_eq, fields_object. Qed.

(** What a closed network starts with. *)
Definition settings : list (string * list string * json) :=
  [("wasm", ["params"; "code_upload_access"; "permission"], JString "Nobody");
   ("wasm", ["params"; "code_upload_access"; "addresses"], JArray []);
   ("wasm", ["params"; "instantiate_default_permission"], JString "Nobody");
   ("ibc", ["client_genesis"; "params"; "allowed_clients"], JArray [JString "07-tendermint"]);
   ("interchainaccounts", ["controller_genesis_state"; "params"; "controller_enabled"], JBool false);
   ("interchainaccounts", ["host_genesis_state"; "params"; "host_enabled"], JBool false);
   ("interchainaccounts", ["host_genesis_state"; "params"; "allow_messages"], JArray []);
   ("transfer", ["params"; "send_enabled"], JBool false);
   ("transfer", ["params"; "receive_enabled"], JBool false);
   ("oracle", ["params"; "whitelist"],
     JArray [whitelist_entry "udo" mainnetZeroTobinTax; whitelist_entry "uusd" mainnetUSDTobinTax]);
   ("oracle", ["exchange_rates"], JArray []);
   ("oracle", ["tobin_taxes"], JArray [])].

Lemma at_path_other k k' v path m : k <> k' ->
  at_path (k' :: path) (<[k := v]> m) = at_path (k' :: path) m.
Proof. intros. cbn [at_path]. by rewrite lookup_insert_ne. Qed.

Lemma at_path_ensure_other k k' w path m : k <> k' ->
  at_path (k' :: path) (ensureObject k w m) = at_path (k' :: path) m.
Proof. apply at_path_other. Qed.

Lemma settings_hold name path v p m : (name, path, v) ∈ settings -> (name, p) ∈ patches ->
  at_path path (p m) = Some v.
Proof.
  unfold settings, patches. rewrite !elem_of_cons, !elem_of_nil. intros H Hp.
  destruct_or! H; simplify_eq; destruct_or! Hp; simplify_eq;
    unfold patch_wasm, patch_ibc, patch_ica, patch_transfer, patch_oracle, put;
    repeat (rewrite at_path_ensure || (rewrite at_path_other by done) ||
      (rewrite at_path_ensure_other by done)); cbn [at_path];
    rewrite ?lookup_insert_eq, ?fields_object; simpl; by simplify_map_eq.
Qed.

(** A message that [json.Unmarshal] reads into a map. *)
Definition readable (r : RawMessage) : Prop :=
  exists b fs state, r = RawText b (JObject fs) /\ read_value float_text (JObject fs) = Some state.

Lemma patch_readable patch r r' : readable r -> patch_entry patch r = Ok r' ->
  exists m, r' = RawText false (object (patch m)).
Proof.
  intros (b & fs & state & -> & E). unfold patch_entry. rewrite E. rewrite read_object in E.
  destruct (read_fields fs); simplify_eq/=. intros H. destruct b; simplify_eq; eauto.
Qed.

(** The default genesis always comes out, unless a module's message is a
    [null] with white space around it, and then starts closed: every module
    whose message can be read has the settings above (no contract uploads and
    instantiations, only Tendermint clients, no interchain accounts, no
    transfers, two oracle denominations and no rates); the messages of other
    modules are untouched; and hardening it again changes nothing. *)
Theorem network_starts_closed (g : GenesisState) :
  (forall name, name ∈ patches.*1 -> ~ padded_null (g !! name)) ->
  exists g', HardenMainnetGenesisDefaults float_text g = Ok g' /\
    (forall name path v r, (name, path, v) ∈ settings -> g !! name = Some r -> readable r ->
      exists m, g' !! name = Some (RawText false (object m)) /\ at_path path m = Some v) /\
    (forall name, name ∉ patches.*1 -> g' !! name = g !! name) /\
    HardenMainnetGenesisDefaults float_text g' = Ok g'.
Proof.
  intros Hg. destruct (patch_all_spec patches g patches_nodup Hg) as (g' & E & Hp & Hr).
  exists g'. rewrite !harden_patches. split; [done|]. split_and!; [|done|].
  - intros name path v r Hs Hn Hrd.
    assert (exists p, (name, p) ∈ patches) as [p Hin].
    { unfold settings in Hs. unfold patches. rewrite !elem_of_cons, elem_of_nil in Hs.
      destruct_or! Hs; simplify_eq; eexists; rewrite !elem_of_cons; eauto 8. }
    specialize (Hp name p Hin). rewrite Hn in Hp. destruct Hp as (r' & Hr' & ->).
    destruct (patch_readable _ _ _ Hrd Hr') as [m ->]. exists (p m).
    split; [done|]. by eapply settings_hold.
  - eapply patch_all_again; [apply good_patches|apply Hp].
Qed.

(** In the hardened bank genesis the first metadata entry of [udo],
    [udodx] and [uusd], and of [ubaked] when the supply or some balance has
    it, is the chain's own; the entries of all other denominations stay, in
    their order, and no other field of the bank state changes. *)
Theorem native_metadata_registered state :
  as_list (patch_bank state !! "denom_metadata") = Some (bank_metadata state) /\
  (forall md, md ∈ natives state ->
    List.find (has_base (base_of md)) (bank_metadata state) = Some (object md)) /\
  (let foreign := fun item => negb (existsb (fun md => has_base (base_of md) item) (natives state)) in
   List.filter foreign (bank_metadata state) =
     List.filter foreign (default [] (as_list (state !! "denom_metadata")))) /\
  (forall key, key <> "denom_metadata" -> patch_bank state !! key = state !! key).
Proof.
  split_and!.
  - unfold patch_bank, put. by rewrite lookup_insert_eq.
  - rewrite bank_metadata_natives. apply registered_all, natives_nodup.
  - intros foreign. rewrite bank_metadata_natives.
    generalize (default [] (as_list (state !! "denom_metadata"))).
    assert (forall md, md ∈ natives state -> forall x, has_base (base_of md) x = true -> foreign x = false) as Hf.
    { intros md Hmd x Hx. unfold foreign. apply negb_false_iff, List.existsb_exists.
      exists md. split; [by apply list_elem_of_In|done]. }
    clearbody foreign. induction (natives state) as [|md mds IH]; intros l; simpl; [done|].
    rewrite IH by (intros md' Hmd'; apply Hf; set_solver).
    apply ensure_keeps, Hf. set_solver.
  - intros key Hk. unfold patch_bank, put. by rewrite lookup_insert_ne.
Qed.

End laws.

(** ** An instance *)
Module Example.

Definition ft (n : string) : option string := Some n.

Definition g0 : GenesisState :=
  <["bank" := RawText false (JObject [("supply", JArray [JObject [("denom", JString "ubaked")]])])]>
    (<["transfer" := RawText true (JObject [("params", JObject [("send_enabled", JBool true)])])]>
      (<["gov" := RawText false JNull]> ∅)).

End Example.

Lemma network_starts_closed_witness :
  exists g', HardenMainnetGenesisDefaults Example.ft Example.g0 = Ok g' /\
    exists m, g' !! "transfer" = Some (RawText false (object m)) /\
      at_path ["params"; "send_enabled"] m = Some (JBool false).
Proof.
  destruct (network_starts_closed Example.ft ltac:(by intros n t [= ->]) eq_refl eq_refl Example.g0)
    as (g' & E & Hs & _).
  - apply Forall_forall. repeat constructor; by vm_compute.
  - exists g'. split; [done|]. eapply Hs; [|by vm_compute|].
    + unfold settings. set_solver.
    + do 3 eexists. split; [done|]. by vm_compute.
Defined.
