(* ===== verification/Upgrades.v ===== *)
(** * Forks and upgrades of the application

    [src/app/forks.go], [src/app/upgrades] and the upgrade part of
    [src/app/app.go]: what happens to the keepers at a fork height and when a
    software upgrade runs, and the manual plan that brings version 16.  The
    handlers work on the states of the modules modelled in the other files;
    the parameter stores of governance, slashing and contracts, the module
    manager and the upgrade keeper are other packages'. *)
From stdpp Require Import base gmap sets list strings fin_maps.
From Stdlib Require Import ZArith Lia Ascii.
From S2P Require Import Prelude Core Sdk SdkRef.
From S2P Require DodxStaking Market OracleState Treasury WasmKeys WasmMigration.
#[local] Open Scope Z_scope.

(** ** The other packages *)

(** A stored record of parameters. *)
Class ParamStore (S P : Type) : Type := { Load : S -> res P; Save : P -> S -> res S }.
Class ParamStoreLaws (S P : Type) `{ParamStore S P} : Prop := {
  Save_ok (p : P) (s : S) : exists s', Save p s = Ok s';
  Load_Save (p : P) (s s' : S) : Save p s = Ok s' -> Load s' = Ok p;
}.

Record GovParams (R : Type) : Type := mkGovParams {
  MinDeposit : list Coin; ExpeditedMinDeposit : list Coin; gov_rest : R;
}.
Arguments mkGovParams {R}. Arguments MinDeposit {R}.
Arguments ExpeditedMinDeposit {R}. Arguments gov_rest {R}.

Record SlashingParams (R : Type) : Type := mkSlashingParams {
  SlashFractionDowntime : Z; SlashFractionDoubleSign : Z; slashing_rest : R;
}.
Arguments mkSlashingParams {R}. Arguments SlashFractionDowntime {R}.
Arguments SlashFractionDoubleSign {R}. Arguments slashing_rest {R}.

(** ** wasmd: access to contract code *)
Inductive AccessType : Type :=
| AccessTypeUnspecified
| AccessTypeNobody
| AccessTypeEverybody
| AccessTypeAnyOfAddresses
| AccessTypeOther (n : Z).

#[export] Instance AccessType_eq_dec : EqDecision AccessType.
Proof. solve_decision. Defined.

Record AccessConfig : Type := mkAccess { Permission : AccessType; Addresses : list string }.
Record WasmParams : Type := mkWasmParams {
  CodeUploadAccess : AccessConfig; InstantiateDefaultPermission : AccessType;
}.

Definition ErrEmpty : error := Registered "wasm" 12.
Definition ErrInvalid : error := Registered "wasm" 14.
Definition ErrDuplicate : error := Registered "wasm" 15.
Definition MaxAddressCount : Z := 50.

Section access.
Context `{AddrCodec}.

Fixpoint distinct_addresses (index : gset string) (l : list string) : res unit :=
  match l with
  | [] => Ok tt
  | addr :: l =>
      _ ← AccAddressFromBech32 addr;
      if decide (ToUpper addr ∈ index) then Err ErrDuplicate
      else distinct_addresses ({[ToUpper addr]} ∪ index) l
  end.

Definition validateBech32Addresses (addresses : list string) : res unit :=
  match addresses with
  | [] => Err ErrEmpty
  | _ =>
      if MaxAddressCount <? Z.of_nat (length addresses) then Err (SdkError "ErrInvalidRequest")
      else distinct_addresses ∅ addresses
  end.

Definition validateAccessType (a : AccessType) : res unit :=
  match a with
  | AccessTypeUnspecified => Err ErrEmpty
  | AccessTypeNobody | AccessTypeAnyOfAddresses | AccessTypeEverybody => Ok tt
  | AccessTypeOther _ => Err ErrInvalid
  end.

Definition AccessConfig_ValidateBasic (a : AccessConfig) : res unit :=
  match Permission a with
  | AccessTypeUnspecified => Err ErrEmpty
  | AccessTypeNobody | AccessTypeEverybody => Ok tt
  | AccessTypeAnyOfAddresses => validateBech32Addresses (Addresses a)
  | AccessTypeOther _ => Err ErrInvalid
  end.

Definition WasmParams_ValidateBasic (p : WasmParams) : res unit :=
  _ ← validateAccessType (InstantiateDefaultPermission p);
  AccessConfig_ValidateBasic (CodeUploadAccess p).

(** [AccessConfig.Allowed], used when code is uploaded. *)
Definition Allowed (a : AccessConfig) (actor : AccAddress) : res bool :=
  match Permission a with
  | AccessTypeNobody => Ok false
  | AccessTypeEverybody => Ok true
  | AccessTypeAnyOfAddresses => Ok (bool_decide (AccAddressString actor ∈ Addresses a))
  | _ => Panic
  end.
End access.

(** ** IBC channels *)
Inductive ChannelState : Type := CLOSED | OPEN | ChannelOther (n : Z).
Record Channel (R : Type) : Type := mkChannel { ch_State : ChannelState; ch_rest : R }.
Arguments mkChannel {R}. Arguments ch_State {R}. Arguments ch_rest {R}.

Notation VersionMap := (gmap string Z).

(** ** The keepers *)
Record AppKeepers (Mk Or Tr Dx G L W R U : Type) : Type := mkApp {
  MarketKeeper : Mk;
  OracleKeeper : Or;
  TreasuryKeeper : Tr;
  DODxStakingKeeper : Dx;
  GovKeeper : G;
  SlashingKeeper : L;
  WasmKeeper : W;
  WasmStore : WasmKeys.Store;
  Channels : gmap (string * string) (Channel R);
  AllowedClients : list string;
  Subspaces : gmap string (option string);
  ModuleVersions : VersionMap;
  UpgradeKeeper : U;
}.
Arguments mkApp {Mk Or Tr Dx G L W R U}.
Arguments MarketKeeper {Mk Or Tr Dx G L W R U}.
Arguments OracleKeeper {Mk Or Tr Dx G L W R U}.
Arguments TreasuryKeeper {Mk Or Tr Dx G L W R U}.
Arguments DODxStakingKeeper {Mk Or Tr Dx G L W R U}.
Arguments GovKeeper {Mk Or Tr Dx G L W R U}.
Arguments SlashingKeeper {Mk Or Tr Dx G L W R U}.
Arguments WasmKeeper {Mk Or Tr Dx G L W R U}.
Arguments WasmStore {Mk Or Tr Dx G L W R U}.
Arguments Channels {Mk Or Tr Dx G L W R U}.
Arguments AllowedClients {Mk Or Tr Dx G L W R U}.
Arguments Subspaces {Mk Or Tr Dx G L W R U}.
Arguments ModuleVersions {Mk Or Tr Dx G L W R U}.
Arguments UpgradeKeeper {Mk Or Tr Dx G L W R U}.

Section upgrades.
Context {B K D DT O MO G L W R U RG RL : Type}.
Context `{AddrCodec} `{CoinOps} `{ParamStore G (GovParams RG)} `{ParamStore L (SlashingParams RL)}
  `{ParamStore W WasmParams}
  `{WasmKeys.KeyLib}.
#[local] Abbreviation MarketState := (Market.State B MO).
#[local] Abbreviation OracleSt := (OracleState.State B K D).
#[local] Abbreviation TreasurySt := (Treasury.State B K DT O).
#[local] Abbreviation DodxState := (DodxStaking.State B).
#[local] Abbreviation App := (AppKeepers MarketState OracleSt TreasurySt DodxState G L W R U).
Implicit Types a : App.

(** A call of one keeper, and writes to the other stores. *)
Definition in_market {X} (m : M MarketState X) : M App X := fun a =>
  let '(r, s) := m (MarketKeeper a) in
  (r, mkApp s (OracleKeeper a) (TreasuryKeeper a) (DODxStakingKeeper a) (GovKeeper a)
    (SlashingKeeper a) (WasmKeeper a) (WasmStore a) (Channels a) (AllowedClients a) (Subspaces a)
    (ModuleVersions a) (UpgradeKeeper a)).
Definition in_oracle {X} (m : M OracleSt X) : M App X := fun a =>
  let '(r, s) := m (OracleKeeper a) in
  (r, mkApp (MarketKeeper a) s (TreasuryKeeper a) (DODxStakingKeeper a) (GovKeeper a)
    (SlashingKeeper a) (WasmKeeper a) (WasmStore a) (Channels a) (AllowedClients a) (Subspaces a)
    (ModuleVersions a) (UpgradeKeeper a)).
Definition in_treasury {X} (m : M TreasurySt X) : M App X := fun a =>
  let '(r, s) := m (TreasuryKeeper a) in
  (r, mkApp (MarketKeeper a) (OracleKeeper a) s (DODxStakingKeeper a) (GovKeeper a)
    (SlashingKeeper a) (WasmKeeper a) (WasmStore a) (Channels a) (AllowedClients a) (Subspaces a)
    (ModuleVersions a) (UpgradeKeeper a)).
Definition in_dodx {X} (m : M DodxState X) : M App X := fun a =>
  let '(r, s) := m (DODxStakingKeeper a) in
  (r, mkApp (MarketKeeper a) (OracleKeeper a) (TreasuryKeeper a) s (GovKeeper a)
    (SlashingKeeper a) (WasmKeeper a) (WasmStore a) (Channels a) (AllowedClients a) (Subspaces a)
    (ModuleVersions a) (UpgradeKeeper a)).
Definition in_wasm_store {X} (m : M WasmKeys.Store X) : M App X := fun a =>
  let '(r, s) := m (WasmStore a) in
  (r, mkApp (MarketKeeper a) (OracleKeeper a) (TreasuryKeeper a) (DODxStakingKeeper a)
    (GovKeeper a) (SlashingKeeper a) (WasmKeeper a) s (Channels a) (AllowedClients a)
    (Subspaces a) (ModuleVersions a) (UpgradeKeeper a)).
Definition set_gov (g : G) a : App :=
  mkApp (MarketKeeper a) (OracleKeeper a) (TreasuryKeeper a) (DODxStakingKeeper a) g
    (SlashingKeeper a) (WasmKeeper a) (WasmStore a) (Channels a) (AllowedClients a) (Subspaces a)
    (ModuleVersions a) (UpgradeKeeper a).
Definition set_slashing (l : L) a : App :=
  mkApp (MarketKeeper a) (OracleKeeper a) (TreasuryKeeper a) (DODxStakingKeeper a) (GovKeeper a) l
    (WasmKeeper a) (WasmStore a) (Channels a) (AllowedClients a) (Subspaces a) (ModuleVersions a)
    (UpgradeKeeper a).
Definition set_wasm (w : W) a : App :=
  mkApp (MarketKeeper a) (OracleKeeper a) (TreasuryKeeper a) (DODxStakingKeeper a) (GovKeeper a)
    (SlashingKeeper a) w (WasmStore a) (Channels a) (AllowedClients a) (Subspaces a)
    (ModuleVersions a) (UpgradeKeeper a).
Definition on_channels (f : gmap (string * string) (Channel R) -> gmap (string * string) (Channel R)) a : App :=
  mkApp (MarketKeeper a) (OracleKeeper a) (TreasuryKeeper a) (DODxStakingKeeper a) (GovKeeper a)
    (SlashingKeeper a) (WasmKeeper a) (WasmStore a) (f (Channels a) ) (AllowedClients a)
    (Subspaces a) (ModuleVersions a) (UpgradeKeeper a).
Definition on_clients (f : list string -> list string) a : App :=
  mkApp (MarketKeeper a) (OracleKeeper a) (TreasuryKeeper a) (DODxStakingKeeper a) (GovKeeper a)
    (SlashingKeeper a) (WasmKeeper a) (WasmStore a) (Channels a) (f (AllowedClients a) )
    (Subspaces a) (ModuleVersions a) (UpgradeKeeper a).
Definition on_subspaces (f : gmap string (option string) -> gmap string (option string)) a : App :=
  mkApp (MarketKeeper a) (OracleKeeper a) (TreasuryKeeper a) (DODxStakingKeeper a) (GovKeeper a)
    (SlashingKeeper a) (WasmKeeper a) (WasmStore a) (Channels a) (AllowedClients a)
    (f (Subspaces a) ) (ModuleVersions a) (UpgradeKeeper a).
Definition set_versions (v : VersionMap) a : App :=
  mkApp (MarketKeeper a) (OracleKeeper a) (TreasuryKeeper a) (DODxStakingKeeper a) (GovKeeper a)
    (SlashingKeeper a) (WasmKeeper a) (WasmStore a) (Channels a) (AllowedClients a) (Subspaces a)
    v (UpgradeKeeper a).

(** ** app/upgrades/v15_1 *)
Definition doChainID : string := "Do-Chain".
Definition cosmWasmUploadAllowlist : list string := [].

Definition setGovDepositParams : M App unit :=
  a ← get;
  params ← must (Load (GovKeeper a));
  proposalDeposit ← must (NewCoin MicroDODxDenom MicroUnit);
  deposit ← must (NewCoins [proposalDeposit]);
  expedited ← must (NewCoins [proposalDeposit]);
  g ← must (Save (mkGovParams deposit expedited (gov_rest params)) (GovKeeper a));
  modify (set_gov g).

Definition wasmUploadAccessConfig : AccessConfig :=
  match cosmWasmUploadAllowlist with
  | [] => mkAccess AccessTypeEverybody []
  | l => mkAccess AccessTypeAnyOfAddresses l
  end.

Definition setWasmAccessParams : M App unit :=
  a ← get;
  params ← must (Load (WasmKeeper a));
  let params := mkWasmParams wasmUploadAccessConfig (InstantiateDefaultPermission params) in
  let params := mkWasmParams (CodeUploadAccess params) (Permission (CodeUploadAccess params)) in
  _ ← must (WasmParams_ValidateBasic params);
  w ← must (Save params (WasmKeeper a));
  modify (set_wasm w).

Definition disableDelegatorSlashingOnJail : M App unit :=
  a ← get;
  let p := OracleState.GetParams (OracleKeeper a) in
  _ ← in_oracle (OracleState.SetParams
        (OracleState.mkParams (OracleState.p_VotePeriod p) (OracleState.p_VoteThreshold p)
          (OracleState.p_RewardBand p) (OracleState.p_RewardDistributionWindow p)
          (OracleState.p_Whitelist p) LegacyZeroDec (OracleState.p_SlashWindow p)
          (OracleState.p_MinValidPerWindow p)));
  slashingParams ← must (Load (SlashingKeeper a));
  l ← must (Save (mkSlashingParams LegacyZeroDec LegacyZeroDec (slashing_rest slashingParams))
              (SlashingKeeper a));
  modify (set_slashing l).

Definition v15_1_runForkLogic (ctx : Ctx) : M App unit :=
  if negb (String.eqb (ChainID ctx) doChainID) then mret tt
  else setGovDepositParams ;; setWasmAccessParams ;; disableDelegatorSlashingOnJail.

(** ** app/upgrades/forks: forks of the past, which no list of the
    application names any more. *)
Definition PortID : string := "transfer".
Definition fork_channels : list string := ["channel-1"; "channel-49"; "channel-20"].

Definition set_channel_state (st : ChannelState) (channelID : string) : M App unit :=
  a ← get;
  match Channels a !! (PortID, channelID) with
  | None => panic
  | Some channel => modify (on_channels (<[(PortID, channelID) := mkChannel st (ch_rest channel)]>))
  end.

Definition runForkLogicSwapDisable (ctx : Ctx) : M App unit :=
  if String.eqb (ChainID ctx) ColumbusChainID then
    a ← get;
    params ← must (Treasury.nil_deref (Market.GetParams (MarketKeeper a)));
    _ ← in_market (Market.SetParams (Market.mkParams (Market.p_BasePool params)
          (Market.p_PoolRecoveryPeriod params) LegacyOneDec));
    forM (set_channel_state CLOSED) fork_channels
  else mret tt.

Definition runForkLogicIbcEnable (ctx : Ctx) : M App unit :=
  if String.eqb (ChainID ctx) ColumbusChainID
  then forM (set_channel_state OPEN) fork_channels
  else mret tt.

(** The version map of the module manager. *)
Variable GetVersionMap : VersionMap.

Definition runForkLogicVersionMapEnable (ctx : Ctx) : M App unit :=
  if String.eqb (ChainID ctx) ColumbusChainID then modify (set_versions GetVersionMap) else mret tt.

(** ** app/forks.go *)
Record Fork : Type := mkFork {
  fork_Name : string; fork_Height : Z; BeginForkLogic : Ctx -> M App unit;
}.

Definition DisableSwapFork : Fork := mkFork "v0.5.20" 7607790 runForkLogicSwapDisable.
Definition IbcEnableFork : Fork := mkFork "v0.5.23" 10542500 runForkLogicIbcEnable.
Definition VersionMapEnableFork : Fork := mkFork "v1.0.5" 11543150 runForkLogicVersionMapEnable.
Definition v15_1_Fork : Fork := mkFork "v15_1" DoCommunityGovernanceHeight v15_1_runForkLogic.

Definition Forks : list Fork := [v15_1_Fork].

Fixpoint run_forks (l : list Fork) (ctx : Ctx) : M App unit :=
  match l with
  | [] => mret tt
  | fork :: l =>
      if BlockHeight ctx =? fork_Height fork then BeginForkLogic fork ctx else run_forks l ctx
  end.

Definition BeginBlockForks (ctx : Ctx) : M App unit := run_forks Forks ctx.

(** ** app/upgrades: handlers.  The module manager's migrations and those of
    the consensus parameters belong to the SDK. *)
Definition UpgradeHandler : Type := Ctx -> VersionMap -> M App VersionMap.
Variable RunMigrations : UpgradeHandler.
Variable MigrateParams : M App unit.
Variable DefaultClients : list string.

Definition CreateV2UpgradeHandler : UpgradeHandler := RunMigrations.
Definition CreateV3UpgradeHandler : UpgradeHandler := RunMigrations.
Definition CreateV4UpgradeHandler : UpgradeHandler := RunMigrations.
Definition CreateV5UpgradeHandler : UpgradeHandler := RunMigrations.
Definition CreateV6UpgradeHandler : UpgradeHandler := RunMigrations.
Definition CreateV6_1UpgradeHandler : UpgradeHandler := RunMigrations.
Definition CreateV7UpgradeHandler : UpgradeHandler := RunMigrations.
Definition CreateV7_1UpgradeHandler : UpgradeHandler := RunMigrations.
Definition CreateV82UpgradeHandler : UpgradeHandler := RunMigrations.
Definition CreateV83UpgradeHandler : UpgradeHandler := RunMigrations.
Definition CreateV11UpgradeHandler : UpgradeHandler := RunMigrations.
Definition CreateV111UpgradeHandler : UpgradeHandler := RunMigrations.
Definition CreateV112UpgradeHandler : UpgradeHandler := RunMigrations.
Definition CreateV12UpgradeHandler : UpgradeHandler := RunMigrations.
Definition CreateV131UpgradeHandler : UpgradeHandler := RunMigrations.

Definition key_table (name : string) : option string :=
  if bool_decide (name ∈ ["auth"; "bank"; "staking"; "distribution"; "slashing"; "gov"; "wasm"; "crisis"])
  then Some name else None.

(** Every subspace without a key table gets the one of its module. *)
Definition set_key_tables (subspaces : gmap string (option string)) : gmap string (option string) :=
  map_imap (fun name table => Some (match table with Some t => Some t | None => key_table name end))
    subspaces.

Definition baseapp_Paramspace : string := "baseapp".

Definition CreateV8UpgradeHandler : UpgradeHandler := fun ctx fromVM =>
  modify (on_subspaces set_key_tables) ;;
  a ← get;
  _ ← match Subspaces a !! baseapp_Paramspace with
      | Some _ => panic
      | None => modify (on_subspaces (<[baseapp_Paramspace := Some "consensus"]>))
      end;
  MigrateParams ;;
  modify (on_clients (fun l => l ++ ["09-localhost"])) ;;
  RunMigrations ctx fromVM.

Definition CreateV81UpgradeHandler : UpgradeHandler := fun ctx fromVM =>
  in_treasury (Treasury.SetOracleSplitRate Treasury.DefaultOracleSplit) ;;
  RunMigrations ctx fromVM.

Definition CreateV101UpgradeHandler : UpgradeHandler := fun ctx fromVM =>
  in_treasury (Treasury.SetTaxRate LegacyZeroDec) ;;
  a ← get;
  let p := Treasury.GetParams (TreasuryKeeper a) in
  policy ← must (Treasury.nil_deref (Treasury.p_TaxPolicy p));
  _ ← in_treasury (Treasury.SetParams (Treasury.mkParams
        (Some (Treasury.mkPolicy LegacyZeroDec LegacyZeroDec (Treasury.Cap policy)
                 (Treasury.ChangeRateMax policy)))
        (Treasury.p_RewardPolicy p) (Treasury.p_SeigniorageBurdenTarget p)
        (Treasury.p_MiningIncrement p) (Treasury.p_WindowShort p) (Treasury.p_WindowLong p)
        (Treasury.p_WindowProbation p) (Treasury.p_BurnTaxSplit p)
        (Treasury.p_MinInitialDepositRatio p) (Treasury.p_OracleSplit p)));
  RunMigrations ctx fromVM.

Definition CreateV13UpgradeHandler : UpgradeHandler := fun ctx fromVM =>
  in_wasm_store WasmMigration.migrateWasmKeys ;;
  RunMigrations ctx fromVM.

Definition CreateV141UpgradeHandler : UpgradeHandler := fun ctx fromVM =>
  modify (on_clients (fun _ => DefaultClients)) ;;
  RunMigrations ctx fromVM.

Definition CreateV16UpgradeHandler : UpgradeHandler := fun ctx fromVM =>
  in_dodx (DodxStaking.SetGovernanceEnabled true) ;;
  RunMigrations ctx fromVM.

(** ** app/upgrades/types.go and the constants of every version *)
Record StoreUpgrades : Type := mkStoreUpgrades {
  Added : list string; Deleted : list string; Renamed : list (string * string);
}.
Record Upgrade : Type := mkUpgrade {
  UpgradeName : string; CreateUpgradeHandler : UpgradeHandler; up_StoreUpgrades : StoreUpgrades;
}.

Definition v2_Upgrade : Upgrade :=
  mkUpgrade "v2" CreateV2UpgradeHandler (mkStoreUpgrades [] [] []).
Definition v3_Upgrade : Upgrade :=
  mkUpgrade "v3" CreateV3UpgradeHandler (mkStoreUpgrades [] [] []).
Definition v4_Upgrade : Upgrade :=
  mkUpgrade "v4" CreateV4UpgradeHandler (mkStoreUpgrades ["icahost"] [] []).
Definition v5_Upgrade : Upgrade :=
  mkUpgrade "v5" CreateV5UpgradeHandler (mkStoreUpgrades ["icacontroller"] [] []).
Definition v6_Upgrade : Upgrade :=
  mkUpgrade "v6" CreateV6UpgradeHandler (mkStoreUpgrades ["dyncomm"] [] []).
Definition v6_1_Upgrade : Upgrade :=
  mkUpgrade "v6_1" CreateV6_1UpgradeHandler (mkStoreUpgrades [] [] []).
Definition v7_Upgrade : Upgrade :=
  mkUpgrade "v7" CreateV7UpgradeHandler (mkStoreUpgrades ["hooks-for-ibc"] [] []).
Definition v7_1_Upgrade : Upgrade :=
  mkUpgrade "v7_1" CreateV7_1UpgradeHandler (mkStoreUpgrades [] [] []).
Definition v8_Upgrade : Upgrade :=
  mkUpgrade "v8" CreateV8UpgradeHandler (mkStoreUpgrades ["consensus"; "crisis"] [] []).
Definition v8_1_Upgrade : Upgrade :=
  mkUpgrade "v8_1" CreateV81UpgradeHandler (mkStoreUpgrades [] [] []).
Definition v8_2_Upgrade : Upgrade :=
  mkUpgrade "v8_2" CreateV82UpgradeHandler (mkStoreUpgrades [] [] []).
Definition v8_3_Upgrade : Upgrade :=
  mkUpgrade "v8_3" CreateV83UpgradeHandler (mkStoreUpgrades [] [] []).
Definition v10_1_Upgrade : Upgrade :=
  mkUpgrade "v10_1" CreateV101UpgradeHandler (mkStoreUpgrades [] [] []).
Definition v11_Upgrade : Upgrade :=
  mkUpgrade "v11" CreateV11UpgradeHandler (mkStoreUpgrades [] [] []).
Definition v11_1_Upgrade : Upgrade :=
  mkUpgrade "v11_1" CreateV111UpgradeHandler (mkStoreUpgrades [] [] []).
Definition v11_2_Upgrade : Upgrade :=
  mkUpgrade "v11_2" CreateV112UpgradeHandler (mkStoreUpgrades [] [] []).
Definition v12_Upgrade : Upgrade :=
  mkUpgrade "v12" CreateV12UpgradeHandler (mkStoreUpgrades [] [] []).
Definition v13_Upgrade : Upgrade :=
  mkUpgrade "v13" CreateV13UpgradeHandler (mkStoreUpgrades [] [] []).
Definition v13_1_Upgrade : Upgrade :=
  mkUpgrade "v13_1" CreateV131UpgradeHandler (mkStoreUpgrades [] [] []).
Definition v14_1_Upgrade : Upgrade :=
  mkUpgrade "v14_1" CreateV141UpgradeHandler (mkStoreUpgrades [] ["crisis"] []).
Definition v16_Upgrade : Upgrade :=
  mkUpgrade "v16" CreateV16UpgradeHandler (mkStoreUpgrades ["dodxstaking"] [] []).

Definition Upgrades : list Upgrade :=
  [v2_Upgrade; v3_Upgrade; v4_Upgrade; v5_Upgrade; v6_Upgrade; v6_1_Upgrade; v7_Upgrade;
   v7_1_Upgrade; v8_Upgrade; v8_1_Upgrade; v8_2_Upgrade; v8_3_Upgrade; v10_1_Upgrade;
   v11_Upgrade; v11_1_Upgrade; v11_2_Upgrade; v12_Upgrade; v13_Upgrade; v13_1_Upgrade;
   v14_1_Upgrade; v16_Upgrade].

Definition setupUpgradeHandlers : gmap string UpgradeHandler :=
  foldl (fun handlers upgrade => <[UpgradeName upgrade := CreateUpgradeHandler upgrade]> handlers) ∅ Upgrades.

(** ** app/app.go: the manual plan for version 16 *)
Record Plan : Type := mkPlan { plan_Name : string; plan_Height : Z; plan_Info : string }.
Definition empty_plan : Plan := mkPlan "" 0 "".

(** What reading a file gives: no file, another error, or its plan, which the
    JSON decoder may refuse. *)
Inductive PlanFile : Type :=
| NoFile
| Unreadable (e : error)
| PlanText (plan : res Plan).

(** [Plan.ValidateBasic] of the upgrade module, and its keeper. *)
Variable Plan_ValidateBasic : Plan -> res unit.
Variable GetDoneHeight : U -> string -> res Z.
Variable ApplyUpgrade : option UpgradeHandler -> Ctx -> Plan -> M App unit.
Variable IsSkipHeight : Z -> bool.

Definition readManualV16UpgradePlan (file : PlanFile) : res (Plan * bool) :=
  match file with
  | NoFile => Ok (empty_plan, false)
  | Unreadable e => Err e
  | PlanText r =>
      plan ← r;
      let plan := if String.eqb (plan_Name plan) ""
                  then mkPlan "v16" (plan_Height plan) (plan_Info plan) else plan in
      if negb (String.eqb (plan_Name plan) "v16")
      then Err (Plain "manual v16 upgrade plan name must be v16")
      else _ ← Plan_ValidateBasic plan; Ok (plan, true)
  end.

(** The manual plan the node keeps, and the upgrade its store loader runs. *)
Record Loader : Type := mkLoader {
  manualV16UpgradePlan : Plan;
  store_loader : option (Z * StoreUpgrades);
}.

Definition setupUpgradeStoreLoaders (disk : res Plan) (file : PlanFile) : res Loader :=
  match disk with
  | Ok upgradeInfo =>
      manual ← (if String.eqb (plan_Name upgradeInfo) "" then
                  match readManualV16UpgradePlan file with
                  | Ok (plan, true) => Ok (plan, plan)
                  | Ok (_, false) => Ok (empty_plan, upgradeInfo)
                  | _ => Panic
                  end
                else Ok (empty_plan, upgradeInfo));
      let '(plan, upgradeInfo) := manual in
      if IsSkipHeight (plan_Height upgradeInfo) then Ok (mkLoader plan None)
      else
        Ok (mkLoader plan
          (foldl (fun loader upgrade =>
                    if String.eqb (plan_Name upgradeInfo) (UpgradeName upgrade)
                    then Some (plan_Height upgradeInfo, up_StoreUpgrades upgrade) else loader)
             None Upgrades))
  | _ => Panic
  end.

Definition applyManualV16Upgrade (loader : Loader) (ctx : Ctx) : M App unit :=
  let plan := manualV16UpgradePlan loader in
  if String.eqb (plan_Name plan) "" || negb (BlockHeight ctx =? plan_Height plan) then mret tt
  else
    a ← get;
    doneHeight ← lift (GetDoneHeight (UpgradeKeeper a) (plan_Name plan));
    if negb (doneHeight =? 0) then mret tt
    else ApplyUpgrade (setupUpgradeHandlers !! plan_Name plan) ctx plan.

(** [mm.PreBlock] runs the modules' own code before a block. *)
Variable mm_PreBlock : Ctx -> M App unit.
Variable mm_BeginBlock : Ctx -> M App unit.

Definition PreBlocker (loader : Loader) (ctx : Ctx) : M App unit :=
  mm_PreBlock ctx ;; applyManualV16Upgrade loader ctx.

Definition BeginBlocker (ctx : Ctx) : M App unit :=
  BeginBlockForks ctx ;; mm_BeginBlock ctx.

End upgrades.

(** ** What they do *)
Section facts.
Context {B K D DT O MO G L W R U RG RL : Type}.
Context `{AddrCodec} `{MathOps} `{CoinOps} `{!CoinLaws} `{ParamStore G (GovParams RG)}
  `{ParamStore L (SlashingParams RL)} `{ParamStore W WasmParams} `{WasmKeys.KeyLib}.
Context `{!ParamStoreLaws G (GovParams RG)} `{!ParamStoreLaws L (SlashingParams RL)}
  `{!ParamStoreLaws W WasmParams}.
#[local] Abbreviation App := (AppKeepers (Market.State B MO) (OracleState.State B K D)
  (Treasury.State B K DT O) (DodxStaking.State B) G L W R U).
Implicit Types a : App.

Definition one_dodx : Coin := mkCoin MicroDODxDenom MicroUnit.

Lemma deposit_coins : NewCoin MicroDODxDenom MicroUnit = Ok one_dodx /\
  exists cs, NewCoins [one_dodx] = Ok cs /\
    forall d, AmountOf cs d = if String.eqb MicroDODxDenom d then MicroUnit else 0.
Proof.
  assert (NewCoin MicroDODxDenom MicroUnit = Ok one_dodx) as E.
  { apply NewCoin_ok; [by apply ValidDenom_word|done]. }
  split; [done|]. pose proof (NewCoins_one one_dodx) as Hc.
  destruct (NewCoins [one_dodx]) as [cs| |] eqn:Ec.
  - exists cs. split; [done|]. intros d. rewrite (NewCoins_inv _ _ d Ec). simpl. lia.
  - discriminate Hc. apply CoinIsValid_spec. split; [by apply ValidDenom_word|done].
  - discriminate Hc. apply CoinIsValid_spec. split; [by apply ValidDenom_word|done].
Qed.

(** What the fork needs of the stored parameters. *)
Record fork_ready a : Prop := {
  fr_gov : is_ok (Load (GovKeeper a)) = true;
  fr_wasm : is_ok (Load (WasmKeeper a)) = true;
  fr_slashing : is_ok (Load (SlashingKeeper a)) = true;
  fr_oracle : forallb is_ok (OracleState.ParamSetPairs (OracleState.GetParams (OracleKeeper a))) = true;
}.

(** The state after the fork. *)
Record forked a a' : Prop := {
  fk_gov gp : Load (GovKeeper a) = Ok gp -> exists gp', Load (GovKeeper a') = Ok gp' /\
    gov_rest gp' = gov_rest gp /\ ExpeditedMinDeposit gp' = MinDeposit gp' /\
    forall d, AmountOf (MinDeposit gp') d = if String.eqb MicroDODxDenom d then MicroUnit else 0;
  fk_wasm : exists w, Load (WasmKeeper a') = Ok w /\ InstantiateDefaultPermission w = AccessTypeEverybody /\
    forall actor, Allowed (CodeUploadAccess w) actor = Ok true;
  fk_slashing sp : Load (SlashingKeeper a) = Ok sp ->
    Load (SlashingKeeper a') = Ok (mkSlashingParams 0 0 (slashing_rest sp));
  fk_oracle : OracleState.SlashFraction (OracleKeeper a') = Ok 0 /\
    OracleState.st_misses (OracleKeeper a') = OracleState.st_misses (OracleKeeper a) /\
    OracleState.st_rates (OracleKeeper a') = OracleState.st_rates (OracleKeeper a);
  fk_others : MarketKeeper a' = MarketKeeper a /\ TreasuryKeeper a' = TreasuryKeeper a /\
    DODxStakingKeeper a' = DODxStakingKeeper a /\ WasmStore a' = WasmStore a /\
    Channels a' = Channels a /\ UpgradeKeeper a' = UpgradeKeeper a;
}.

(** The oracle's parameters without slashing. *)
Definition unslashed (p : OracleState.Params) : OracleState.Params :=
  OracleState.mkParams (OracleState.p_VotePeriod p) (OracleState.p_VoteThreshold p)
    (OracleState.p_RewardBand p) (OracleState.p_RewardDistributionWindow p)
    (OracleState.p_Whitelist p) 0 (OracleState.p_SlashWindow p) (OracleState.p_MinValidPerWindow p).

Lemma set_unslashed p (s : OracleState.State B K D) : forallb is_ok (OracleState.ParamSetPairs p) = true ->
  OracleState.SetParams (unslashed p) s = (Ok tt, OracleState.set_params (Some (unslashed p)) s).
Proof.
  intros Ho. unfold OracleState.SetParams.
  replace (forallb is_ok (OracleState.ParamSetPairs (unslashed p))) with true; [done|].
  symmetry. revert Ho. unfold OracleState.ParamSetPairs. cbn [forallb].
  rewrite !andb_true_iff. intuition.
Qed.

Lemma fork_logic ctx a : ChainID ctx = doChainID -> fork_ready a ->
  exists a', v15_1_runForkLogic ctx a = (Ok tt, a') /\ forked a a'.
Proof.
  intros Hc [Hg Hw Hl Ho]. destruct a as [mk o t dx g l w ws ch cl sb vm u]. simpl in *.
  destruct (Load g) as [gp| |] eqn:Eg; try done.
  destruct (Load w) as [wp| |] eqn:Ew; try done.
  destruct (Load l) as [sp| |] eqn:El; try done.
  destruct deposit_coins as (Ec & cs & Ecs & Hcs).
  destruct (Save_ok (mkGovParams cs cs (gov_rest gp)) g) as [g' Eg'].
  destruct (Save_ok (mkWasmParams (mkAccess AccessTypeEverybody []) AccessTypeEverybody) w) as [w' Ew'].
  destruct (Save_ok (mkSlashingParams 0 0 (slashing_rest sp)) l) as [l' El'].
  eexists. split.
  - unfold v15_1_runForkLogic. rewrite Hc. simpl negb. cbv iota.
    unfold setGovDepositParams, setWasmAccessParams, disableDelegatorSlashingOnJail.
    unfold mbind, M_bind, get, must, modify, in_oracle. simpl.
    rewrite Eg. cbv iota beta. rewrite Ec. cbv iota beta. rewrite Ecs. cbv iota beta.
    rewrite Eg'. simpl. rewrite Ew. unfold wasmUploadAccessConfig. simpl. rewrite Ew'. simpl.
    change LegacyZeroDec with 0. fold (unslashed (OracleState.GetParams o)).
    rewrite set_unslashed by done. cbv iota beta. simpl. rewrite El. simpl. by rewrite El'.
  - split; simpl.
    + intros gp0 E. rewrite Eg in E. injection E as <-. eexists. split; [by eapply Load_Save|]. done.
    + eexists. split; [by eapply Load_Save|]. done.
    + intros sp0 E. rewrite El in E. injection E as <-. by eapply Load_Save.
    + done.
    + done.
Qed.

(** The community governance fork runs at its height on the network
    [Do-Chain] and nowhere else: at any other height or on any other network
    the start of a block changes nothing.  There, if the parameters are
    stored and valid, it always succeeds: deposits of one DODx, uploads and
    instantiations open to everybody, slashing fractions of zero; the other
    modules are untouched. *)
Theorem community_fork ctx a :
  (BlockHeight ctx <> DoCommunityGovernanceHeight \/ ChainID ctx <> doChainID ->
    BeginBlockForks ctx a = (Ok tt, a)) /\
  (BlockHeight ctx = DoCommunityGovernanceHeight -> ChainID ctx = doChainID -> fork_ready a ->
    exists a', BeginBlockForks ctx a = (Ok tt, a') /\ forked a a').
Proof.
  unfold BeginBlockForks, Forks, run_forks. simpl. split.
  - destruct (Z.eqb_spec (BlockHeight ctx) DoCommunityGovernanceHeight); [|done].
    intros [?|Hc]; [done|]. unfold v15_1_runForkLogic.
    destruct (String.eqb_spec (ChainID ctx) doChainID); done.
  - intros -> Hc Hr. by apply fork_logic.
Qed.

(** ** Handlers *)
Variable RunMigrations : Ctx -> VersionMap -> M App VersionMap.

(** The migrations of the modules leave the treasury's policy alone. *)
Definition keeps_policy : Prop := forall ctx vm a vm' a', RunMigrations ctx vm a = (Ok vm', a') ->
  Treasury.policy_part (TreasuryKeeper a') = Treasury.policy_part (TreasuryKeeper a).

Lemma in_treasury_ok {X} (m : M (Treasury.State B K DT O) X) a x a' :
  in_treasury m a = (Ok x, a') -> m (TreasuryKeeper a) = (Ok x, TreasuryKeeper a').
Proof.
  unfold in_treasury. destruct (m (TreasuryKeeper a)) as [r s] eqn:E. intros [= -> <-]. done.
Qed.

Lemma treasury_set_ok (p : Treasury.Params) s x s' :
  Treasury.SetParams (B := B) (K := K) (D := DT) (O := O) p s = (Ok x, s') ->
  exists tp rp, Treasury.p_TaxPolicy p = Some tp /\ Treasury.p_RewardPolicy p = Some rp /\
    Treasury.policy_ok tp /\ Treasury.policy_ok rp /\
    Treasury.p_TaxPolicy (Treasury.st_params s') = Some tp /\
    Treasury.p_RewardPolicy (Treasury.st_params s') = Some rp /\
    Treasury.st_taxrate s' = Treasury.st_taxrate s /\ Treasury.st_weight s' = Treasury.st_weight s.
Proof.
  unfold Treasury.SetParams. destruct (forallb _ _) eqn:E; [|done]. intros [= _ <-].
  unfold Treasury.ParamSetPairs in E. cbn [forallb] in E. rewrite !andb_true_iff in E.
  destruct E as (Et & Er & _).
  destruct (Treasury.p_TaxPolicy p) as [tp|] eqn:Etp; [|done].
  destruct (Treasury.p_RewardPolicy p) as [rp|] eqn:Erp; [|done].
  exists tp, rp. split_and!; try done; simpl in *; unfold Treasury.policy_ok.
  - unfold Treasury.validateTaxPolicy in Et.
    repeat (case_match; [done|]). zbool. lia.
  - unfold Treasury.validateRewardPolicy in Er.
    repeat (case_match; [done|]). zbool. lia.
Qed.

Context `{BankOps B} `{StakingOps K} `{FeePoolOps DT} `{Treasury.TreasuryKeepers O}
  `{DecCoinsOps} `{CoinSortOps} `{!MathLaws}.

(** After the upgrade to version 10.1 there is no tax: whatever blocks,
    taxes, proposals and actions of other modules follow, the tax rate stays
    zero until somebody changes the parameters.  The migrations of the
    modules are assumed to leave the policy alone, and the reward weight to be
    within its bounds. *)
Theorem tax_abolished ctx vm a vm' a' rp n s' : keeps_policy ->
  CreateV101UpgradeHandler RunMigrations ctx vm a = (Ok vm', a') ->
  Treasury.p_RewardPolicy (Treasury.st_params (TreasuryKeeper a)) = Some rp ->
  Treasury.in_bounds rp (Treasury.GetRewardWeight (TreasuryKeeper a)) ->
  Treasury.reach n (TreasuryKeeper a') s' -> Treasury.GetTaxRate s' = 0.
Proof.
  intros Hk E Hrp Hw Hreach. unfold CreateV101UpgradeHandler in E.
  m_bind E as a1 E1. apply in_treasury_ok in E1. injection E1 as E1.
  m_bind E as a2 E2. m_inv E2. cbn beta zeta in E. m_bind E as policy E3.
  apply must_ok in E3 as [_ ->].
  m_bind E as u E4. apply in_treasury_ok in E4.
  apply treasury_set_ok in E4 as (tp & rp' & Htp & Hrp' & Hpt & Hpr & Etp & Erp & Et & Ew).
  apply Hk in E. unfold Treasury.policy_part in E. injection E as Ep Et' Ew'.
  simpl in Htp, Hrp'. unfold Treasury.GetParams in Hrp'.
  assert (TreasuryKeeper a2 = Treasury.on_taxrate (fun _ => Some LegacyZeroDec) (TreasuryKeeper a)) as Ea
    by (symmetry; assumption).
  rewrite Ea in Hrp', Et, Ew. simpl in *. rewrite Hrp in Hrp'. injection Hrp' as <-. injection Htp as Htp.
  destruct (Treasury.reach_bounds n (TreasuryKeeper a') s' tp rp Hreach) as (_ & Hb & _).
  - by rewrite Ep.
  - by rewrite Ep.
  - done.
  - done.
  - unfold Treasury.in_bounds, Treasury.GetTaxRate. by rewrite Et', Et, <- Htp.
  - unfold Treasury.in_bounds, Treasury.GetRewardWeight in *. by rewrite Ew', Ew.
  - subst tp. unfold Treasury.in_bounds in Hb. simpl in Hb. unfold LegacyZeroDec in Hb. lia.
Qed.

(** ** Version 16 *)

(** [RunMigrations] migrates the modules the version map names and runs
    [InitGenesis] with the default genesis of those it does not name; nothing
    else writes the DODx store. *)
Record migrations_start_modules : Prop := {
  known_module ctx fromVM a vm a' : RunMigrations ctx fromVM a = (Ok vm, a') ->
    is_Some (fromVM !! DodxStaking.ModuleName) -> DODxStakingKeeper a' = DODxStakingKeeper a;
  new_module ctx fromVM a vm a' : RunMigrations ctx fromVM a = (Ok vm, a') ->
    fromVM !! DodxStaking.ModuleName = None ->
    DodxStaking.InitGenesis DodxStaking.DefaultGenesisState (DODxStakingKeeper a) =
      (Ok tt, DODxStakingKeeper a');
}.

Lemma default_genesis_off (s s' : DodxStaking.State B) :
  DodxStaking.InitGenesis DodxStaking.DefaultGenesisState s = (Ok tt, s') ->
  DodxStaking.GovernanceEnabled s' = false.
Proof.
  intros E. unfold DodxStaking.InitGenesis, DodxStaking.SetGovernanceEnabled, mbind, M_bind, modify in E.
  simpl in E. by injection E as <-.
Qed.

Lemma v16_flag ctx vm a vm' a' : migrations_start_modules ->
  CreateV16UpgradeHandler RunMigrations ctx vm a = (Ok vm', a') ->
  DodxStaking.GovernanceEnabled (DODxStakingKeeper a') =
    bool_decide (is_Some (vm !! DodxStaking.ModuleName)).
Proof.
  intros [Hknown Hnew] E. unfold CreateV16UpgradeHandler in E. m_bind E as u E1.
  unfold in_dodx, DodxStaking.SetGovernanceEnabled, modify in E1. injection E1 as E1 <-.
  destruct (vm !! DodxStaking.ModuleName) as [v|] eqn:Ev.
  - by rewrite (Hknown _ _ _ _ _ E) by eauto.
  - rewrite (default_genesis_off _ _ (Hnew _ _ _ _ _ E Ev)). by rewrite bool_decide_eq_false_2 by by intros [].
Qed.

(** C7: The upgrade to version 16, which is to switch governance to staked
    DODx, leaves it switched off on a chain whose version map does not name
    the DODx module yet: the handler sets the flag first, and the migrations
    then start the new module from its default genesis, which clears the
    flag.  It would stay on only if the module was already known. *)
Theorem v16_leaves_governance_off ctx vm a vm' a' : migrations_start_modules ->
  CreateV16UpgradeHandler RunMigrations ctx vm a = (Ok vm', a') ->
  (vm !! DodxStaking.ModuleName = None -> DodxStaking.GovernanceEnabled (DODxStakingKeeper a') = false) /\
  (is_Some (vm !! DodxStaking.ModuleName) -> DodxStaking.GovernanceEnabled (DODxStakingKeeper a') = true).
Proof.
  intros Hm E. rewrite (v16_flag _ _ _ _ _ Hm E). split.
  - intros ->. by apply bool_decide_eq_false_2; intros [].
  - intros Hv. by apply bool_decide_eq_true_2.
Qed.

(** ** The manual plan *)
Variable MigrateParams : M App unit.
Variable DefaultClients : list string.
Variable Plan_ValidateBasic : Plan -> res unit.
Variable GetDoneHeight : U -> string -> res Z.
Variable ApplyUpgrade : option (Ctx -> VersionMap -> M App VersionMap) -> Ctx -> Plan -> M App unit.
Variable IsSkipHeight : Z -> bool.

(** A valid plan has a positive height; applying an upgrade runs its handler
    on the stored version map, keeps what the handler did to the modules and
    records the height as done. *)
Record upgrade_keeper_laws : Prop := {
  valid_height plan u : Plan_ValidateBasic plan = Ok u -> 0 < plan_Height plan;
  apply_runs h ctx plan a vm a1 : h ctx (ModuleVersions a) a = (Ok vm, a1) ->
    exists a2, ApplyUpgrade (Some h) ctx plan a = (Ok tt, a2) /\
      DODxStakingKeeper a2 = DODxStakingKeeper a1 /\
      GetDoneHeight (UpgradeKeeper a2) (plan_Name plan) = Ok (BlockHeight ctx);
}.

#[local] Abbreviation setup := (setupUpgradeStoreLoaders RunMigrations MigrateParams DefaultClients
  Plan_ValidateBasic IsSkipHeight).
#[local] Abbreviation apply_manual := (applyManualV16Upgrade RunMigrations MigrateParams DefaultClients
  GetDoneHeight ApplyUpgrade).

Lemma upgrade_handlers :
  setupUpgradeHandlers RunMigrations MigrateParams DefaultClients !! "v16" =
    Some (CreateV16UpgradeHandler RunMigrations).
Proof.
  unfold setupUpgradeHandlers.
  rewrite <- (take_drop 20 (Upgrades RunMigrations MigrateParams DefaultClients)), foldl_app.
  cbn [drop Upgrades foldl UpgradeName CreateUpgradeHandler v16_Upgrade]. by rewrite lookup_insert_eq.
Qed.


Lemma manual_plan_named file plan : upgrade_keeper_laws ->
  readManualV16UpgradePlan Plan_ValidateBasic file = Ok (plan, true) ->
  plan_Name plan = "v16" /\ 0 < plan_Height plan.
Proof.
  intros [Hv _]. unfold readManualV16UpgradePlan. destruct file as [| |[p| |]]; try done. simpl.
  destruct (String.eqb_spec (plan_Name p) ""); simpl.
  - destruct (Plan_ValidateBasic _) eqn:E; try done. intros [= <-]. split; [done|]. by eapply Hv.
  - destruct (String.eqb_spec (plan_Name p) "v16"); simpl; [|done].
    destruct (Plan_ValidateBasic p) eqn:E; try done. intros [= <-]. split; [done|]. by eapply Hv.
Qed.

(** On a node without a recorded upgrade, a valid plan file makes the
    upgrade to version 16 run in the block of its height and in no other,
    with the store of the DODx module added when the node loads it; a second
    pass over the block does not run it again. *)
Theorem manual_upgrade_runs_once disk file plan : upgrade_keeper_laws ->
  plan_Name disk = "" -> readManualV16UpgradePlan Plan_ValidateBasic file = Ok (plan, true) ->
  exists loader, setup (Ok disk) file = Ok loader /\
    store_loader loader = (if IsSkipHeight (plan_Height plan) then None
      else Some (plan_Height plan, mkStoreUpgrades ["dodxstaking"] [] [])) /\
    (forall ctx a, BlockHeight ctx <> plan_Height plan -> apply_manual loader ctx a = (Ok tt, a)) /\
    (forall ctx a vm a1, BlockHeight ctx = plan_Height plan ->
      GetDoneHeight (UpgradeKeeper a) "v16" = Ok 0 ->
      CreateV16UpgradeHandler RunMigrations ctx (ModuleVersions a) a = (Ok vm, a1) ->
      exists a2, apply_manual loader ctx a = (Ok tt, a2) /\
        DODxStakingKeeper a2 = DODxStakingKeeper a1 /\
        apply_manual loader ctx a2 = (Ok tt, a2)).
Proof.
  intros Hk Hd Hr. destruct (manual_plan_named _ _ Hk Hr) as [Hn Hh].
  exists (mkLoader plan (if IsSkipHeight (plan_Height plan) then None
      else Some (plan_Height plan, mkStoreUpgrades ["dodxstaking"] [] []))).
  split; [|split; [done|split]].
  - unfold setupUpgradeStoreLoaders. rewrite Hd, Hr. simpl. rewrite Hn.
    by destruct (IsSkipHeight (plan_Height plan)).
  - intros ctx a Hc. unfold applyManualV16Upgrade. cbn [manualV16UpgradePlan]. rewrite Hn.
    by rewrite (proj2 (Z.eqb_neq _ _) Hc).
  - intros ctx a vm a1 Hc Hdone E.
    destruct (apply_runs Hk _ ctx plan a vm a1 E) as (a2 & Ea & Hdx & Hd2).
    exists a2. split; [|split; [done|]].
    + unfold applyManualV16Upgrade. cbn [manualV16UpgradePlan].
      rewrite Hn, Hc, Z.eqb_refl, upgrade_handlers. simpl.
      unfold mbind, M_bind, get, lift. rewrite Hdone. simpl. by rewrite <- Ea.
    + unfold applyManualV16Upgrade. cbn [manualV16UpgradePlan].
      rewrite Hn, Hc, Z.eqb_refl, upgrade_handlers. simpl.
      unfold mbind, M_bind, get, lift. rewrite <- Hn, Hd2, Hc.
      destruct (Z.eqb_spec (plan_Height plan) 0); [lia|done].
Qed.

(** A node on whose disk an earlier upgrade is recorded ignores the plan
    file, valid or not, without a word: it applies nothing at any height. *)
Theorem recorded_upgrade_hides_plan disk file : plan_Name disk <> "" ->
  exists loader, setup (Ok disk) file = Ok loader /\
    forall ctx a, apply_manual loader ctx a = (Ok tt, a).
Proof.
  intros Hd. unfold setupUpgradeStoreLoaders.
  destruct (String.eqb_spec (plan_Name disk) ""); [done|]. simpl.
  destruct (IsSkipHeight _); (eexists; split; [done|]); done.
Qed.

End facts.

(** ** An application *)
Module Example.

#[export] Instance plain_store {P} : ParamStore P P := {| Load s := Ok s; Save p _ := Ok p |}.
#[export] Instance plain_store_laws {P} : ParamStoreLaws P P.
Proof. split; [eauto|]. by intros p s s' [= <-]. Qed.

#[local] Abbreviation App := (AppKeepers (Market.State ledger unit)
  (OracleState.State ledger (list ref_validator) (list (string * list DecCoin)))
  (Treasury.State ledger (list ref_validator) (list DecCoin) (Market.State ledger Treasury.Example.Oracle))
  (DodxStaking.State ledger) (GovParams unit) (SlashingParams unit) WasmParams unit (gmap string Z)).

Definition a0 : App :=
  mkApp Market.Example.st0 OracleState.Example.s0 Treasury.Example.s0 DodxStaking.Example.later
    (mkGovParams [mkCoin "udo" 5] [mkCoin "udo" 9] tt) (mkSlashingParams 1 2 tt)
    (mkWasmParams (mkAccess AccessTypeNobody []) AccessTypeNobody) ∅ ∅ [] ∅ ∅ ∅.

Definition at_height (h : Z) : Ctx := mkCtx h 0 "Do-Chain" false false.

(** A module manager of the DODx module alone. *)
Definition run_migrations (ctx : Ctx) (vm : VersionMap) : M App VersionMap := fun a =>
  match vm !! "dodxstaking" with
  | Some _ => (Ok vm, a)
  | None =>
      match in_dodx (DodxStaking.InitGenesis DodxStaking.DefaultGenesisState) a with
      | (Ok _, a') => (Ok (<["dodxstaking" := 1]> vm), a')
      | (_, a') => (Panic, a')
      end
  end.

Lemma starts_modules : migrations_start_modules run_migrations.
Proof.
  split; intros ctx vm a vm' a' E Hv; unfold run_migrations in E.
  - destruct Hv as [v Hv]. change (vm !! "dodxstaking" = Some v) in Hv. rewrite Hv in E. by injection E as <- <-.
  - change (vm !! "dodxstaking" = None) in Hv. rewrite Hv in E. by injection E as <- <-.
Qed.

Lemma keeps : keeps_policy run_migrations.
Proof.
  intros ctx vm a vm' a' E. unfold run_migrations in E.
  destruct (vm !! "dodxstaking"); by injection E as <- <-.
Qed.

Definition validate (p : Plan) : res unit :=
  if 0 <? plan_Height p then Ok tt else Err (Plain "height must be greater than 0").
Definition done_height (u : gmap string Z) (name : string) : res Z := Ok (default 0 (u !! name)).
Definition apply_upgrade (h : option (Ctx -> VersionMap -> M App VersionMap)) (ctx : Ctx) (plan : Plan) :
    M App unit := fun a =>
  match h with
  | None => (Panic, a)
  | Some h =>
      match h ctx (ModuleVersions a) a with
      | (Ok vm, a') =>
          (Ok tt, mkApp (MarketKeeper a') (OracleKeeper a') (TreasuryKeeper a') (DODxStakingKeeper a')
             (GovKeeper a') (SlashingKeeper a') (WasmKeeper a') (WasmStore a') (Channels a')
             (AllowedClients a') (Subspaces a') vm
             (<[plan_Name plan := BlockHeight ctx]> (UpgradeKeeper a')))
      | (Err e, a') => (Err e, a')
      | (Panic, a') => (Panic, a')
      end
  end.

Lemma keeper_laws : upgrade_keeper_laws validate done_height apply_upgrade.
Proof.
  split.
  - intros p u. unfold validate. destruct (Z.ltb_spec 0 (plan_Height p)); [done|discriminate].
  - intros h ctx plan a vm a1 E. eexists. split; [unfold apply_upgrade; by rewrite E|].
    split; [done|]. unfold done_height. simpl. by rewrite lookup_insert_eq.
Qed.

End Example.
Import Example.
#[local] Existing Instances Treasury.treasury_keepers OracleState.market_oracle WasmKeys.key_lib.

Lemma community_fork_witness :
  exists a', BeginBlockForks (Example.at_height 1540500) Example.a0 = (Ok tt, a') /\
    SlashFractionDowntime (SlashingKeeper a') = 0.
Proof.
  destruct (community_fork (Example.at_height 1540500) Example.a0) as [_ H].
  destruct H as (a' & E & [_ _ Hs _ _]); [done|done|split; by vm_compute|].
  exists a'. split; [done|]. specialize (Hs _ eq_refl). by injection Hs as ->.
Defined.

Lemma tax_abolished_witness :
  exists vm a', CreateV101UpgradeHandler Example.run_migrations (Example.at_height 9) ∅ Example.a0 = (Ok vm, a') /\
    Treasury.GetTaxRate (TreasuryKeeper a') = 0.
Proof.
  destruct (CreateV101UpgradeHandler Example.run_migrations (Example.at_height 9) ∅ Example.a0)
    as [[vm| |] a'] eqn:E; [|exfalso; by vm_compute in E|exfalso; by vm_compute in E].
  exists vm, a'. split; [done|].
  apply (tax_abolished Example.run_migrations (Example.at_height 9) ∅ Example.a0 vm a'
    Treasury.DefaultRewardPolicy 0 (TreasuryKeeper a')).
  - apply Example.keeps.
  - exact E.
  - reflexivity.
  - vm_compute. split; discriminate.
  - apply Treasury.reach_refl.
Defined.

Lemma v16_leaves_governance_off_witness :
  DodxStaking.GovernanceEnabled (DODxStakingKeeper Example.a0) = true /\
  exists vm a', CreateV16UpgradeHandler Example.run_migrations (Example.at_height 9) ∅ Example.a0 = (Ok vm, a') /\
    DodxStaking.GovernanceEnabled (DODxStakingKeeper a') = false.
Proof.
  split; [by vm_compute|]. do 2 eexists. split; [reflexivity|].
  eapply (v16_leaves_governance_off Example.run_migrations (Example.at_height 9) ∅ Example.a0);
    [apply Example.starts_modules|reflexivity|reflexivity].
Defined.

Lemma manual_upgrade_runs_once_witness :
  exists loader, setupUpgradeStoreLoaders Example.run_migrations (mret tt) [] Example.validate (fun _ => false)
      (Ok empty_plan) (PlanText (Ok (mkPlan "" 1991100 ""))) = Ok loader /\
    store_loader loader = Some (1991100, mkStoreUpgrades ["dodxstaking"] [] []).
Proof.
  destruct (manual_upgrade_runs_once Example.run_migrations (mret tt) [] Example.validate
    Example.done_height Example.apply_upgrade (fun _ => false) empty_plan
    (PlanText (Ok (mkPlan "" 1991100 ""))) (mkPlan "v16" 1991100 "")) as (loader & E & Hs & _);
    [apply Example.keeper_laws|reflexivity|reflexivity|].
  exists loader. split; [exact E|exact Hs].
Defined.

Lemma recorded_upgrade_hides_plan_witness :
  exists loader, setupUpgradeStoreLoaders Example.run_migrations (mret tt) [] Example.validate (fun _ => false)
      (Ok (mkPlan "v14_1" 5 "")) (PlanText (Ok (mkPlan "" 1991100 ""))) = Ok loader /\
    applyManualV16Upgrade Example.run_migrations (mret tt) [] Example.done_height Example.apply_upgrade
      loader (Example.at_height 1991100) Example.a0 = (Ok tt, Example.a0).
Proof.
  destruct (recorded_upgrade_hides_plan Example.run_migrations (mret tt) [] Example.validate
    Example.done_height Example.apply_upgrade (fun _ => false) (mkPlan "v14_1" 5 "")
    (PlanText (Ok (mkPlan "" 1991100 "")))) as (loader & E & H); [done|].
  exists loader. split; [exact E|apply H].
Defined.
