(* ===== verification/Export.v ===== *)
(** * Exporting the state of the application

    [src/app/export.go]: the export of a genesis file, and the preparation of
    the state for a fresh start at height zero.  The stores of the staking and
    slashing modules are maps of the records the code rewrites; the
    distribution keeper, the update of the validator set, the module manager
    and the writing of validators belong to the SDK.  A call of [log.Fatal]
    ends the program and is a panic here. *)
From stdpp Require Import base gmap sets list strings fin_maps.
From Stdlib Require Import ZArith Lia.
From S2P Require Import Prelude Core Sdk SdkRef.
From S2P Require Market OracleState.
#[local] Open Scope Z_scope.

(** ** Staking and slashing records; [R] stands for the fields the code does
    not touch. *)
Record Validator (R : Type) : Type := mkValidator {
  OperatorAddress : string; UnbondingHeight : Z; Jailed : bool; val_rest : R;
}.
Arguments mkValidator {R}. Arguments OperatorAddress {R}. Arguments UnbondingHeight {R}.
Arguments Jailed {R}. Arguments val_rest {R}.

Record Delegation : Type := mkDelegation { DelegatorAddress : string; ValidatorAddress : string }.

Record Entry (R : Type) : Type := mkEntry { CreationHeight : Z; entry_rest : R }.
Arguments mkEntry {R}. Arguments CreationHeight {R}. Arguments entry_rest {R}.

Record SigningInfo (R : Type) : Type := mkSigningInfo { StartHeight : Z; info_rest : R }.
Arguments mkSigningInfo {R}. Arguments StartHeight {R}. Arguments info_rest {R}.

(** Validators are stored by address, redelegations and unbonding delegations
    by the key of their records. *)
Record Staking (R : Type) : Type := mkStaking {
  Validators : gmap string (Validator R);
  Delegations : list Delegation;
  Redelegations : gmap string (list (Entry R));
  UnbondingDelegations : gmap string (list (Entry R));
}.
Arguments mkStaking {R}. Arguments Validators {R}. Arguments Delegations {R}.
Arguments Redelegations {R}. Arguments UnbondingDelegations {R}.

(** ** The distribution keeper *)
Class DistrKeeper (D : Type) : Type := {
  WithdrawValidatorCommission : ValAddress -> M D (list Coin);
  WithdrawDelegationRewards : AccAddress -> ValAddress -> M D (list Coin);
  DeleteAllValidatorSlashEvents : D -> D;
  DeleteAllValidatorHistoricalRewards : D -> D;
  GetValidatorOutstandingRewardsCoins : D -> ValAddress -> res (list DecCoin);
  FeePool_Get : D -> res (list DecCoin);
  FeePool_Set : list DecCoin -> D -> D;
  AfterValidatorCreated : ValAddress -> M D unit;
  BeforeDelegationCreated : AccAddress -> ValAddress -> M D unit;
  AfterDelegationModified : AccAddress -> ValAddress -> M D unit;
}.

Record State (R D B K OD MO : Type) : Type := mkState {
  st_staking : Staking R;
  st_distr : D;
  st_infos : gmap string (SigningInfo R);
  st_oracle : OracleState.State B K OD;
  st_market : Market.State B MO;
}.
Arguments mkState {R D B K OD MO}. Arguments st_staking {R D B K OD MO}.
Arguments st_distr {R D B K OD MO}. Arguments st_infos {R D B K OD MO}.
Arguments st_oracle {R D B K OD MO}. Arguments st_market {R D B K OD MO}.

Section export.
Context {R D B K OD MO : Type} `{DistrKeeper D} `{AddrCodec}.
#[local] Abbreviation St := (State R D B K OD MO).
Implicit Types s : St.

Definition on_staking (f : Staking R -> Staking R) s : St :=
  mkState (f (st_staking s)) (st_distr s) (st_infos s) (st_oracle s) (st_market s).
Definition on_infos (f : gmap string (SigningInfo R) -> gmap string (SigningInfo R)) s : St :=
  mkState (st_staking s) (st_distr s) (f (st_infos s)) (st_oracle s) (st_market s).
Definition on_validators (f : gmap string (Validator R) -> gmap string (Validator R)) : St -> St :=
  on_staking (fun k => mkStaking (f (Validators k)) (Delegations k) (Redelegations k) (UnbondingDelegations k)).
Definition in_distr {X} (m : M D X) : M St X := fun s =>
  let '(r, d) := m (st_distr s) in
  (r, mkState (st_staking s) d (st_infos s) (st_oracle s) (st_market s)).
Definition in_staking {X} (m : M (Staking R) X) : M St X := fun s =>
  let '(r, k) := m (st_staking s) in
  (r, mkState k (st_distr s) (st_infos s) (st_oracle s) (st_market s)).
Definition in_oracle {X} (m : M (OracleState.State B K OD) X) : M St X := fun s =>
  let '(r, o) := m (st_oracle s) in
  (r, mkState (st_staking s) (st_distr s) (st_infos s) o (st_market s)).
Definition in_market {X} (m : M (Market.State B MO) X) : M St X := fun s =>
  let '(r, k) := m (st_market s) in
  (r, mkState (st_staking s) (st_distr s) (st_infos s) (st_oracle s) k).

(** [_, _ = call()]: an error is dropped and what the call wrote stays; a
    panic goes on. *)
Definition ignore_error {T X} (m : M T X) : M T unit := fun t =>
  match m t with
  | (Panic, t') => (Panic, t')
  | (_, t') => (Ok tt, t')
  end.

Fixpoint allowed_map (addrs : list string) : res (gset string) :=
  match addrs with
  | [] => Ok ∅
  | addr :: addrs =>
      match ValAddressFromBech32 addr with
      | Ok _ => m ← allowed_map addrs; Ok ({[addr]} ∪ m)
      | _ => Panic
      end
  end.

(** [IterateValidators] visits the validators by address.  The code takes
    [sdk.ValAddress(val.GetOperator())], the bytes of the operator's text. *)
Definition withdraw_commission (val : Validator R) : M St unit :=
  ignore_error (in_distr (WithdrawValidatorCommission (OperatorAddress val))).

Definition withdraw_rewards (d : Delegation) : M St unit :=
  valAddr ← must (ValAddressFromBech32 (ValidatorAddress d));
  delAddr ← must (AccAddressFromBech32 (DelegatorAddress d));
  ignore_error (in_distr (WithdrawDelegationRewards delAddr valAddr)).

(** [CommunityPool.Add(scraps...)] of the SDK. *)
Variable DecCoins_Add : list DecCoin -> list DecCoin -> res (list DecCoin).

Definition reinit_validator (val : Validator R) : M St unit :=
  s ← get;
  scraps ← must (GetValidatorOutstandingRewardsCoins (st_distr s) (OperatorAddress val));
  pool ← must (FeePool_Get (st_distr s));
  pool ← must (DecCoins_Add pool scraps);
  in_distr (modify (FeePool_Set pool)) ;;
  ignore_error (in_distr (AfterValidatorCreated (OperatorAddress val))).

Definition reinit_delegation (d : Delegation) : M St unit :=
  valAddr ← must (ValAddressFromBech32 (ValidatorAddress d));
  delAddr ← must (AccAddressFromBech32 (DelegatorAddress d));
  ignore_error (in_distr (BeforeDelegationCreated delAddr valAddr)) ;;
  ignore_error (in_distr (AfterDelegationModified delAddr valAddr)).

Definition reset_entries (l : list (Entry R)) : list (Entry R) :=
  map (fun e => mkEntry 0 (entry_rest e)) l.

Definition reset_redelegation (kv : string * list (Entry R)) : M St unit :=
  modify (on_staking (fun k => mkStaking (Validators k) (Delegations k)
    (<[kv.1 := reset_entries kv.2]> (Redelegations k)) (UnbondingDelegations k))).

Definition reset_unbonding (kv : string * list (Entry R)) : M St unit :=
  modify (on_staking (fun k => mkStaking (Validators k) (Delegations k) (Redelegations k)
    (<[kv.1 := reset_entries kv.2]> (UnbondingDelegations k)))).

Definition reset_validator (applyAllowedAddrs : bool) (allowed : gset string) (addr : string) : M St unit :=
  s ← get;
  match Validators (st_staking s) !! addr with
  | None => panic
  | Some validator =>
      let jailed := if applyAllowedAddrs && negb (bool_decide (ValAddressString addr ∈ allowed))
                    then true else Jailed validator in
      modify (on_validators (<[addr := mkValidator (OperatorAddress validator) 0 jailed (val_rest validator)]>))
  end.

Definition reset_info (kv : string * SigningInfo R) : M St unit :=
  modify (on_infos (<[kv.1 := mkSigningInfo 0 (info_rest kv.2)]>)).

(** [ApplyAndReturnValidatorSetUpdates] of the staking keeper. *)
Variable ApplyValidatorSetUpdates : M (Staking R) unit.

Definition apply_updates : M St unit := fun s =>
  match in_staking ApplyValidatorSetUpdates s with
  | (Ok _, s') => (Ok tt, s')
  | (_, s') => (Panic, s')
  end.

Definition reset_oracle : M St unit :=
  s ← get;
  forM (fun kv => in_oracle (OracleState.DeleteDoExchangeRate kv.1))
    (OracleState.IterateDoExchangeRates (st_oracle s)) ;;
  s ← get;
  forM (fun kv => in_oracle (OracleState.SetMissCounter kv.1 0))
    (OracleState.IterateMissCounters (st_oracle s)) ;;
  s ← get;
  forM (fun kv => in_oracle (OracleState.DeleteAggregateDoRatePrevote kv.1))
    (OracleState.IterateAggregateDoRatePrevotes (st_oracle s)) ;;
  s ← get;
  forM (fun kv => in_oracle (OracleState.DeleteAggregateDoRateVote kv.1))
    (OracleState.IterateAggregateDoRateVotes (st_oracle s)).

Definition handle_distribution : M St unit :=
  s ← get;
  forM withdraw_commission (map snd (kv_iter (Validators (st_staking s)))) ;;
  s ← get;
  let dels := Delegations (st_staking s) in
  forM withdraw_rewards dels ;;
  in_distr (modify DeleteAllValidatorSlashEvents) ;;
  in_distr (modify DeleteAllValidatorHistoricalRewards) ;;
  s ← get;
  forM reinit_validator (map snd (kv_iter (Validators (st_staking s)))) ;;
  forM reinit_delegation dels.

Definition handle_staking (applyAllowedAddrs : bool) (allowed : gset string) : M St unit :=
  s ← get;
  forM reset_redelegation (kv_iter (Redelegations (st_staking s))) ;;
  s ← get;
  forM reset_unbonding (kv_iter (UnbondingDelegations (st_staking s))) ;;
  s ← get;
  forM (reset_validator applyAllowedAddrs allowed)
    (reverse (map fst (kv_iter (Validators (st_staking s))))) ;;
  apply_updates.

Definition prepForZeroHeightGenesis (ctx : Ctx) (jailAllowedAddrs : list string) : M St unit :=
  let applyAllowedAddrs := (0 <? Z.of_nat (length jailAllowedAddrs)) in
  allowed ← must (allowed_map jailAllowedAddrs);
  handle_distribution ;;
  handle_staking applyAllowedAddrs allowed ;;
  s ← get;
  forM reset_info (kv_iter (st_infos s)) ;;
  reset_oracle ;;
  in_market (Market.SetDoPoolDelta ctx LegacyZeroDec).

(** ** The export *)
Context {GenState Vals CP : Type}.
Variable ExportGenesisForModules : St -> list string -> res GenState.
Variable WriteValidators : St -> res Vals.
Variable GetConsensusParams : St -> CP.

Record ExportedApp : Type := mkExported {
  AppState : GenState; ExportedValidators : Vals; ExportedHeight : Z; ConsensusParams : CP;
}.

Definition ExportAppStateAndValidators (ctx : Ctx) (LastBlockHeight : Z) (forZeroHeight : bool)
    (jailAllowedAddrs modulesToExport : list string) : M St ExportedApp :=
  _ ← (if forZeroHeight then prepForZeroHeightGenesis ctx jailAllowedAddrs else mret tt);
  s ← get;
  genState ← lift (ExportGenesisForModules s modulesToExport);
  validators ← lift (WriteValidators s);
  mret (mkExported genState validators (if forZeroHeight then 0 else LastBlockHeight + 1)
          (GetConsensusParams s)).

End export.

Lemma imap_fmap {V W} (f : V -> W) (m : gmap string V) : map_imap (fun _ v => Some (f v)) m = f <$> m.
Proof. apply map_eq. intros k. rewrite map_lookup_imap, lookup_fmap. by destruct (m !! k). Qed.

(** ** The state that is exported *)
Section facts.
Context {R D B K OD MO : Type} `{DistrKeeper D} `{AddrCodec}.
#[local] Abbreviation St := (State R D B K OD MO).
Implicit Types s : St.

(** What the handling of the distribution leaves alone. *)
Definition outside_distr s : Staking R * gmap string (SigningInfo R) * OracleState.State B K OD * Market.State B MO :=
  (st_staking s, st_infos s, st_oracle s, st_market s).

Lemma in_distr_frame {X} (m : M D X) s r s' : in_distr m s = (r, s') -> outside_distr s' = outside_distr s.
Proof. unfold in_distr. destruct (m (st_distr s)). by intros [= _ <-]. Qed.

Lemma ignored_frame {X} (m : M D X) s u s' :
  ignore_error (in_distr m) s = (Ok u, s') -> outside_distr s' = outside_distr s.
Proof.
  unfold ignore_error. destruct (in_distr m s) as [r t] eqn:E.
  apply in_distr_frame in E. by destruct r; intros [= _ <-].
Qed.

Variable DecCoins_Add : list DecCoin -> list DecCoin -> res (list DecCoin).

Lemma withdraw_rewards_frame d s u s' : withdraw_rewards d s = (Ok u, s') -> outside_distr s' = outside_distr s.
Proof.
  unfold withdraw_rewards. intros E. m_bind E as v E1. apply must_ok in E1 as [_ ->].
  m_bind E as v' E1. apply must_ok in E1 as [_ ->]. by eapply ignored_frame.
Qed.

Lemma reinit_validator_frame val s u s' :
  reinit_validator DecCoins_Add val s = (Ok u, s') -> outside_distr s' = outside_distr s.
Proof.
  unfold reinit_validator. intros E. m_bind E as s0 E1. m_inv E1.
  do 3 (m_bind E as ? E1; apply must_ok in E1 as [_ ->]).
  m_bind E as v E1. apply in_distr_frame in E1. rewrite <- E1. by eapply ignored_frame.
Qed.

Lemma reinit_delegation_frame d s u s' : reinit_delegation d s = (Ok u, s') -> outside_distr s' = outside_distr s.
Proof.
  unfold reinit_delegation. intros E. m_bind E as v E1. apply must_ok in E1 as [_ ->].
  m_bind E as v' E1. apply must_ok in E1 as [_ ->]. m_bind E as w E1. apply ignored_frame in E1.
  rewrite <- E1. by eapply ignored_frame.
Qed.

Lemma distribution_frame s u s' :
  handle_distribution DecCoins_Add s = (Ok u, s') -> outside_distr s' = outside_distr s.
Proof.
  unfold handle_distribution. intros E. m_bind E as s0 E1. m_inv E1.
  m_bind E as ? E1. apply (forM_frame outside_distr) in E1; [|intros; by eapply ignored_frame].
  m_bind E as s1 E2. m_inv E2. cbn zeta in E.
  m_bind E as ? E2. apply (forM_frame outside_distr) in E2; [|apply withdraw_rewards_frame].
  m_bind E as ? E3. apply in_distr_frame in E3. m_bind E as ? E4. apply in_distr_frame in E4.
  m_bind E as s5 E5. m_inv E5.
  m_bind E as ? E5. apply (forM_frame outside_distr) in E5; [|apply reinit_validator_frame].
  apply (forM_frame outside_distr) in E; [|apply reinit_delegation_frame]. congruence.
Qed.

(** ** The resets *)
Lemma reset_redelegations l s :
  forM reset_redelegation l s = (Ok tt, on_staking (fun k => mkStaking (Validators k) (Delegations k)
    (foldl (fun m kv => <[kv.1 := reset_entries kv.2]> m) (Redelegations k) l) (UnbondingDelegations k)) s).
Proof.
  revert s. induction l as [|kv l IH]; intros s; [by destruct s as [[]]|].
  cbn [forM]. erewrite M_bind_run by done. rewrite IH. by destruct s.
Qed.

Lemma reset_unbondings l s :
  forM reset_unbonding l s = (Ok tt, on_staking (fun k => mkStaking (Validators k) (Delegations k)
    (Redelegations k) (foldl (fun m kv => <[kv.1 := reset_entries kv.2]> m) (UnbondingDelegations k) l)) s).
Proof.
  revert s. induction l as [|kv l IH]; intros s; [by destruct s as [[]]|].
  cbn [forM]. erewrite M_bind_run by done. rewrite IH. by destruct s.
Qed.

Lemma reset_infos l s :
  forM reset_info l s = (Ok tt, on_infos (fun m =>
    foldl (fun m kv => <[kv.1 := mkSigningInfo 0 (info_rest kv.2)]> m) m l) s).
Proof.
  revert s. induction l as [|kv l IH]; intros s; [by destruct s|].
  cbn [forM]. erewrite M_bind_run by done. rewrite IH. by destruct s.
Qed.

(** A validator after the reset. *)
Definition fresh_validator (applyAllowedAddrs : bool) (allowed : gset string) (addr : string)
    (v : Validator R) : Validator R :=
  mkValidator (OperatorAddress v) 0
    (Jailed v || applyAllowedAddrs && negb (bool_decide (ValAddressString addr ∈ allowed))) (val_rest v).

Lemma reset_validators ap allowed l s : NoDup l ->
  (forall a, a ∈ l -> is_Some (Validators (st_staking s) !! a)) ->
  exists s', forM (reset_validator ap allowed) l s = (Ok tt, s') /\
    (forall a, Validators (st_staking s') !! a =
      if bool_decide (a ∈ l) then fresh_validator ap allowed a <$> Validators (st_staking s) !! a
      else Validators (st_staking s) !! a) /\
    s' = on_validators (fun _ => Validators (st_staking s')) s.
Proof.
  revert s. induction l as [|a l IH]; intros s Hn Hl.
  - exists s. split; [done|]. split; [done|]. by destruct s as [[]].
  - apply NoDup_cons in Hn as [Ha Hn]. destruct (Hl a) as [v Hv]; [by left|].
    set (v' := fresh_validator ap allowed a v).
    assert (reset_validator ap allowed a s = (Ok tt, on_validators (<[a := v']>) s)) as E.
    { unfold reset_validator. erewrite M_bind_run by done. rewrite Hv. unfold modify.
      unfold v', fresh_validator. by destruct (Jailed v), (ap && _). }
    destruct (IH (on_validators (<[a := v']>) s) Hn) as (s' & Es & Hs & Hf).
    { intros b Hb. simpl. destruct (decide (b = a)) as [->|]; [done|].
      rewrite lookup_insert_ne by done. apply Hl. by right. }
    exists s'. cbn [forM]. erewrite M_bind_run by done. split; [done|]. split.
    + intros b. rewrite Hs. simpl. destruct (decide (b = a)) as [->|Hne].
      * rewrite bool_decide_eq_false_2, bool_decide_eq_true_2 by (done || by left).
        by rewrite lookup_insert_eq, Hv.
      * rewrite lookup_insert_ne by done.
        rewrite (bool_decide_ext (b ∈ a :: l) (b ∈ l)); [done|].
        rewrite elem_of_cons. naive_solver.
    + rewrite Hf at 1. by destruct s as [[]].
Qed.

(** A loop over entries of one part of the oracle's store. *)
Lemma oracle_loop {V} (upd : (gmap string V -> gmap string V) -> OracleState.State B K OD -> OracleState.State B K OD)
    (g : string -> gmap string V -> gmap string V) (l : list (string * V)) s :
  (forall f g o, upd f (upd g o) = upd (fun x => f (g x)) o) -> (forall o, upd (fun x => x) o = o) ->
  forM (fun kv => in_oracle (modify (upd (g kv.1)))) l s = (Ok tt, mkState (st_staking s) (st_distr s)
    (st_infos s) (upd (fun x => foldl (fun x kv => g kv.1 x) x l) (st_oracle s)) (st_market s)).
Proof.
  intros Hc Hid. revert s. induction l as [|kv l IH]; intros s; simpl.
  - rewrite Hid. by destruct s.
  - erewrite M_bind_run by done. rewrite IH. simpl. by rewrite Hc.
Qed.

(** The oracle without votes and rates. *)
Definition fresh_oracle (o : OracleState.State B K OD) : OracleState.State B K OD :=
  OracleState.mkState (OracleState.st_params o) ∅ (OracleState.st_feeders o)
    ((fun _ => 0) <$> OracleState.st_misses o) ∅ ∅ (OracleState.st_taxes o)
    (OracleState.st_bank o) (OracleState.st_staking o) (OracleState.st_distr o).

Lemma reset_oracle_run s : reset_oracle s =
  (Ok tt, mkState (st_staking s) (st_distr s) (st_infos s) (fresh_oracle (st_oracle s)) (st_market s)).
Proof.
  destruct s as [k d i [p r f m pv v t b ks od] mk]. unfold reset_oracle.
  erewrite M_bind_run by done.
  erewrite M_bind_run by (apply (oracle_loop OracleState.on_rates delete); [done|by intros []]).
  erewrite M_bind_run by done.
  erewrite M_bind_run by
    (apply (oracle_loop OracleState.on_misses (fun k => <[k := 0]>)); [done|by intros []]).
  erewrite M_bind_run by done.
  erewrite M_bind_run by (apply (oracle_loop OracleState.on_prevotes delete); [done|by intros []]).
  erewrite M_bind_run by done.
  etrans; [apply (oracle_loop OracleState.on_votes delete); [done|by intros []]|].
  unfold fresh_oracle, OracleState.on_rates, OracleState.on_misses, OracleState.on_prevotes,
    OracleState.on_votes. cbn -[kv_iter].
  unfold OracleState.IterateDoExchangeRates, OracleState.IterateMissCounters,
    OracleState.IterateAggregateDoRatePrevotes, OracleState.IterateAggregateDoRateVotes. cbn -[kv_iter].
  by rewrite !kv_iter_delete, (kv_iter_rewrite (fun _ _ => 0) m), (imap_fmap (fun _ => 0)).
Qed.

(** ** The whole preparation *)
Variable ApplyValidatorSetUpdates : M (Staking R) unit.

Lemma staking_run ap allowed s u s' : handle_staking ApplyValidatorSetUpdates ap allowed s = (Ok u, s') ->
  st_distr s' = st_distr s /\ st_infos s' = st_infos s /\ st_oracle s' = st_oracle s /\
  st_market s' = st_market s /\
  exists k u', ApplyValidatorSetUpdates k = (Ok u', st_staking s') /\
    Validators k = map_imap (fun a v => Some (fresh_validator ap allowed a v)) (Validators (st_staking s)) /\
    Delegations k = Delegations (st_staking s) /\
    Redelegations k = reset_entries <$> Redelegations (st_staking s) /\
    UnbondingDelegations k = reset_entries <$> UnbondingDelegations (st_staking s).
Proof.
  unfold handle_staking. intros E.
  erewrite M_bind_run in E by done. erewrite M_bind_run in E by apply reset_redelegations.
  erewrite M_bind_run in E by done. erewrite M_bind_run in E by apply reset_unbondings.
  erewrite M_bind_run in E by done. simpl in E.
  set (s1 := on_staking _ (on_staking _ s)) in E.
  assert (Validators (st_staking s1) = Validators (st_staking s)) as Hv by done.
  destruct (reset_validators ap allowed (reverse (map fst (kv_iter (Validators (st_staking s))))) s1)
    as (s2 & E2 & Hs2 & Hf).
  { rewrite reverse_Permutation. apply kv_iter_nodup. }
  { intros x Hx. rewrite reverse_Permutation in Hx. apply list_elem_of_fmap in Hx as ([k v] & -> & Hkv).
    apply elem_of_kv_iter in Hkv. rewrite Hv. cbn [fst]. rewrite Hkv. eauto. }
  erewrite M_bind_run in E by exact E2.
  unfold apply_updates, in_staking in E.
  destruct (ApplyValidatorSetUpdates (st_staking s2)) as [[u'| |] k'] eqn:Ek; try done.
  injection E as _ <-. rewrite Hf. simpl. split_and!; try done.
  exists (st_staking s2), u'. split; [done|]. split_and!.
  - apply map_eq. intros x. rewrite Hs2, Hv, map_lookup_imap. rewrite bool_decide_decide.
    destruct (Validators (st_staking s) !! x) as [v|] eqn:Ex.
    + rewrite decide_True; [done|]. rewrite reverse_Permutation. apply list_elem_of_fmap.
      exists (x, v). split; [done|]. by apply elem_of_kv_iter.
    + by case_decide.
  - by rewrite Hf.
  - rewrite Hf. simpl. rewrite (kv_iter_rewrite (fun _ => reset_entries)).
    apply imap_fmap.
  - rewrite Hf. simpl. rewrite (kv_iter_rewrite (fun _ => reset_entries)).
    apply imap_fmap.
Qed.

(** Updating the validator set does not touch entries that wait for their
    time. *)
Definition keeps_entries : Prop := forall k u k', ApplyValidatorSetUpdates k = (Ok u, k') ->
  Redelegations k' = Redelegations k /\ UnbondingDelegations k' = UnbondingDelegations k.

(** A successful preparation for height zero leaves no height and no
    price behind: redelegations, unbonding delegations and signing infos start
    at zero, the oracle keeps its parameters and feeders but no rate, prevote
    or vote and every miss counter is zero, the pool delta is zero; and the
    validator set is recomputed from validators whose unbonding height is
    zero and who are jailed if they were before or are not on the list that
    was given. *)
Theorem zero_height_reset ctx addrs allowed s u s' : keeps_entries ->
  allowed_map addrs = Ok allowed ->
  prepForZeroHeightGenesis DecCoins_Add ApplyValidatorSetUpdates ctx addrs s = (Ok u, s') ->
  Redelegations (st_staking s') = reset_entries <$> Redelegations (st_staking s) /\
  UnbondingDelegations (st_staking s') = reset_entries <$> UnbondingDelegations (st_staking s) /\
  st_infos s' = (fun i => mkSigningInfo 0 (info_rest i)) <$> st_infos s /\
  st_oracle s' = fresh_oracle (st_oracle s) /\
  Market.GetDoPoolDelta (st_market s') = 0 /\
  exists k u', ApplyValidatorSetUpdates k = (Ok u', st_staking s') /\
    Validators k = map_imap (fun a v => Some (fresh_validator (bool_decide (addrs <> [])) allowed a v))
      (Validators (st_staking s)).
Proof.
  intros Hk Ha E. unfold prepForZeroHeightGenesis in E. cbn zeta in E.
  replace (0 <? Z.of_nat (length addrs)) with (bool_decide (addrs <> [])) in E
    by (destruct addrs; [done|]; simpl; symmetry; by apply Z.ltb_lt; lia).
  m_bind E as al E1. apply must_ok in E1 as [E1 ->]. rewrite Ha in E1. injection E1 as <-.
  m_bind E as u1 E1. apply distribution_frame in E1. injection E1 as Es Ei Eo Em.
  m_bind E as u2 E2. apply staking_run in E2 as (_ & Hi & Ho & Hm & k & u' & Ek & Hv & _ & Hr & Hu).
  erewrite M_bind_run in E by done. erewrite M_bind_run in E by apply reset_infos.
  erewrite M_bind_run in E by apply reset_oracle_run.
  unfold in_market, Market.SetDoPoolDelta, modify in E. injection E as _ <-.
  destruct (Hk _ _ _ Ek) as [Hr' Hu']. cbn -[kv_iter]. rewrite Hr', Hr, Hu', Hu, Es, Ho, Eo, Hi, Ei.
  split_and!; try done.
  - rewrite (kv_iter_rewrite (fun _ i => mkSigningInfo 0 (info_rest i))).
    apply imap_fmap.
  - case_match eqn:Ed; [|done]. apply andb_true_iff in Ed as [_ Ed].
    apply bool_decide_eq_true in Ed. unfold Market.GetDoPoolDelta. by rewrite Ed.
  - exists k, u'. split; [done|]. by rewrite Hv, Es.
Qed.

(** The commission that is stored for an address; withdrawing where there is
    none is an error that changes nothing. *)
Variable commission : D -> gmap string (list DecCoin).
Definition withdraw_needs_commission : Prop := forall d a, commission d !! a = None ->
  exists e, WithdrawValidatorCommission a d = (Err e, d).

(** The export for height zero withdraws no commission at all: it asks
    for the commission of the text of an operator address, while commissions
    are stored under the 20 bytes of the address, and it drops the error. *)
Theorem commission_not_withdrawn s : withdraw_needs_commission ->
  (forall a, is_Some (commission (st_distr s) !! a) -> String.length a = 20%nat) ->
  (forall a v, Validators (st_staking s) !! a = Some v -> (20 < String.length (OperatorAddress v))%nat) ->
  forM withdraw_commission (map snd (kv_iter (Validators (st_staking s)))) s = (Ok tt, s).
Proof.
  intros Hw Hc Hv.
  assert (Forall (fun v => commission (st_distr s) !! OperatorAddress v = None)
    (map snd (kv_iter (Validators (st_staking s))))) as Hl.
  { apply Forall_forall. intros v Hin. apply list_elem_of_fmap in Hin as ([a v'] & -> & Hin). apply elem_of_kv_iter in Hin.
    apply Hv in Hin. cbn [snd]. destruct (commission (st_distr s) !! OperatorAddress v') eqn:E; [|done].
    specialize (Hc (OperatorAddress v') (mk_is_Some _ _ E)). lia. }
  induction Hl as [|v l Hv1 _ IH]; [done|]. cbn [forM].
  destruct (Hw _ _ Hv1) as [e He]. erewrite M_bind_run; [exact IH|].
  unfold withdraw_commission, ignore_error, in_distr. rewrite He. by destruct s.
Qed.

End facts.

(** ** An example *)
Module Example.

#[export] Instance distr : DistrKeeper (gmap string (list DecCoin)) := {|
  WithdrawValidatorCommission a d :=
    match d !! a with Some _ => (Ok [], delete a d) | None => (Err (Plain "no validator commission"), d) end;
  WithdrawDelegationRewards _ _ d := (Ok [], d);
  DeleteAllValidatorSlashEvents d := d;
  DeleteAllValidatorHistoricalRewards d := d;
  GetValidatorOutstandingRewardsCoins _ _ := Ok [];
  FeePool_Get _ := Ok [];
  FeePool_Set _ d := d;
  AfterValidatorCreated _ d := (Ok tt, d);
  BeforeDelegationCreated _ _ d := (Ok tt, d);
  AfterDelegationModified _ _ d := (Ok tt, d);
|}.

Definition addr : string := "aaaaaaaaaaaaaaaaaaaa".
Definition staking0 : Staking unit :=
  mkStaking {[addr := mkValidator ("dovaloper1" +:+ addr) 77 false tt]} []
    {["r" := [mkEntry 5 tt]]} {["u" := [mkEntry 6 tt; mkEntry 7 tt]]}.

Definition s0 : State unit (gmap string (list DecCoin)) ledger (list ref_validator)
    (list (string * list DecCoin)) unit :=
  mkState staking0 {[addr := [mkDecCoin "udo" 9]]} {["c" := mkSigningInfo 3 tt]}
    OracleState.Example.s2 Market.Example.st0.

Definition run := prepForZeroHeightGenesis (fun x y => Ok (x ++ y)) (fun k => (Ok tt, k))
  (mkCtx 900 0 "Do-Chain" false false) [] s0.

End Example.
Import Example.

Lemma zero_height_reset_witness :
  Redelegations (st_staking Example.run.2) = {["r" := [mkEntry 0 tt]]} /\
  Market.GetDoPoolDelta (st_market Example.run.2) = 0.
Proof.
  destruct (zero_height_reset (fun x y => Ok (x ++ y)) (fun k => (Ok tt, k))
    (mkCtx 900 0 "Do-Chain" false false) [] ∅ Example.s0 tt Example.run.2) as (H1 & _ & _ & _ & H2 & _).
  - by intros k u k' [= _ <-].
  - reflexivity.
  - unfold Example.run. apply run_eq. by vm_compute.
  - split; [rewrite H1; by vm_compute|exact H2].
Defined.

Lemma commission_not_withdrawn_witness :
  forM withdraw_commission (map snd (kv_iter (Validators (st_staking Example.s0)))) Example.s0 =
    (Ok tt, Example.s0) /\
  is_Some (st_distr Example.s0 !! Example.addr).
Proof.
  split; [|by vm_compute; eauto].
  apply (commission_not_withdrawn (fun d => d)).
  - intros d a Ha. simpl. rewrite Ha. eauto.
  - intros a Ha. simpl in Ha. destruct (decide (a = Example.addr)) as [->|]; [done|].
    rewrite lookup_singleton_ne in Ha by done. by destruct Ha.
  - intros a v Hv. simpl in Hv. destruct (decide (a = Example.addr)) as [->|].
    + rewrite lookup_singleton_eq in Hv. injection Hv as <-. apply (bool_decide_unpack _). by vm_compute.
    + by rewrite lookup_singleton_ne in Hv.
Defined.
