(* ===== verification/GenesisTools.v ===== *)
(** * Tools that edit a genesis file

    [src/cmd/dochaind/genaccounts.go] adds an account to a genesis file,
    [src/app/legacy/migrate.go] rewrites an old one and
    [src/app/legacy/pubkey_replacement.go] replaces the consensus keys of
    validators in it.  The files are modelled as the records the code decodes
    them into; reading and writing files, the key ring and the codecs are left
    out. *)
From stdpp Require Import base gmap sets list strings fin_maps sorting.
From Stdlib Require Import ZArith Lia Ascii.
From S2P Require Import Prelude Core Sdk SdkRef Vesting TxLogs.
From S2P Require OracleState.
#[local] Open Scope Z_scope.

(** [strings.Split] at a single character. *)
Fixpoint Split (sep : ascii) (s : string) : list string :=
  match s with
  | EmptyString => [""]
  | String c rest =>
      if Ascii.eqb c sep then "" :: Split sep rest
      else match Split sep rest with
           | [] => [String c ""]
           | x :: l => String c x :: l
           end
  end.

(** ** add-genesis-account *)
Record Balance : Type := mkBalance { bal_Address : string; bal_Coins : list Coin }.

Inductive GenesisAccount (BA : Type) : Type :=
| PlainAccount (base : BA)
| VestingAccount (acc : LazyGradedVestingAccount BA).
Arguments PlainAccount {BA}. Arguments VestingAccount {BA}.

(** The parts of a genesis file the command edits. *)
Record Genesis (BA : Type) : Type := mkGenesis {
  gen_Time : Z;
  gen_Accounts : list (string * GenesisAccount BA);
  gen_Balances : list Balance;
  gen_Supply : list Coin;
}.
Arguments mkGenesis {BA}. Arguments gen_Time {BA}. Arguments gen_Accounts {BA}.
Arguments gen_Balances {BA}. Arguments gen_Supply {BA}.

(** What the command uses of the SDK.  [IsAnyGT] looks only at denominations
    that both sets have; the other functions sort what they are given. *)
Class GenesisLib (BA : Type) : Type := {
  NewBaseAccount : AccAddress -> BA;
  BaseAccount_Validate : BA -> res unit;
  NewBaseVestingAccount : BA -> list Coin -> Z -> res (BaseVestingAccount BA);
  ParseCoinsNormalized : string -> res (list Coin);
  DecFromStr : string -> res Z;
  IsAnyGT : list Coin -> list Coin -> bool;
  SanitizeGenesisAccounts : list (string * GenesisAccount BA) -> list (string * GenesisAccount BA);
  SanitizeGenesisBalances : list Balance -> list Balance;
}.
Class GenesisLibLaws (BA : Type) `{CoinOps} `{CoinSortOps} `{GenesisLib BA} : Prop := {
  vesting_original base coins t acc : NewBaseVestingAccount base coins t = Ok acc ->
    OriginalVesting acc = coins;
  IsAnyGT_spec x y : IsAnyGT x y = true <->
    exists c, c ∈ x /\ AmountOf y (Denom c) <> 0 /\ AmountOf y (Denom c) < Amount c;
  accounts_perm l : SanitizeGenesisAccounts l ≡ₚ l;
  balances_perm l : SanitizeGenesisBalances l ≡ₚ l;
  sort_valid l : CoinsIsValid l = true -> CoinsIsValid (CoinsSort l) = true;
  sort_amount l d : CoinsIsValid l = true -> AmountOf (CoinsSort l) d = AmountOf l d;
  parsed_coins s l : ParseCoinsNormalized s = Ok l -> CoinsIsValid l = true;
}.

Section add_account.
Context `{MathOps} `{CoinOps} `{CoinSortOps} `{CoinSubOps} `{AddrCodec} `{MapRange}.
Context {BA : Type} `{BaseVestingOps BA} `{GenesisLib BA}.

(** [genesisTime.AddDate(0, 0, day).UTC().Unix()], in 64-bit seconds. *)
Definition add_days (genesisTime day : Z) : Z := i64 (genesisTime + 86400 * day).

Definition parse_schedule (genesisTime : Z) (unparsedSchedule : string) : res (string * Schedule) :=
  match Split "|" unparsedSchedule with
  | [denom; start; end_; ratio] =>
      startDay ← Atoi start;
      endDay ← Atoi end_;
      ratio ← DecFromStr ratio;
      Ok (denom, mkSchedule (add_days genesisTime startDay) (add_days genesisTime endDay) ratio)
  | _ => Err (Plain "vesting schedule parse error")
  end.

(** The schedules of a denomination are appended to those it has. *)
Definition add_schedule (genesisTime : Z) (m : gmap string VestingSchedule) (unparsedSchedule : string) :
    res (gmap string VestingSchedule) :=
  p ← parse_schedule genesisTime unparsedSchedule;
  let '(denom, lazySchedule) := p in
  Ok (match m !! denom with
      | Some vs => <[denom := mkVestingSchedule (vs_Denom vs) (Schedules vs ++ [lazySchedule])]> m
      | None => <[denom := mkVestingSchedule denom [lazySchedule]]> m
      end).

Definition schedules_of (genesisTime : Z) (vestingSchedulesStr : string) : res (gmap string VestingSchedule) :=
  foldRes (add_schedule genesisTime) ∅ (Split "," vestingSchedulesStr).

Definition vesting_account (genesisTime : Z) (baseAccount : BA) (balances : Balance)
    (vestingAmt : list Coin) (vestingSchedulesStr : string) : res (GenesisAccount BA) :=
  denomMap ← schedules_of genesisTime vestingSchedulesStr;
  let vestingSchedules := map (fun kv => mkVestingSchedule kv.1 (Schedules kv.2)) (map_range denomMap) in
  baseVestingAccount ← NewBaseVestingAccount baseAccount (CoinsSort vestingAmt) 0;
  if negb (forallb (fun coin => bool_decide (is_Some (denomMap !! Denom coin))) vestingAmt)
  then Err (Plain "must provide vesting schedule for all vesting amount")
  else if CoinsIsZero (bal_Coins balances) && negb (CoinsIsZero (OriginalVesting baseVestingAccount)) ||
          IsAnyGT (OriginalVesting baseVestingAccount) (bal_Coins balances)
  then Err (Plain "vesting amount cannot be greater than total amount")
  else Ok (VestingAccount (NewLazyGradedVestingAccountRaw baseVestingAccount vestingSchedules)).

Definition GenesisAccount_Validate (acc : GenesisAccount BA) : res unit :=
  match acc with
  | PlainAccount base => BaseAccount_Validate base
  | VestingAccount acc => Vesting.Validate acc
  end.

(** The command for an address that was given or looked up. *)
Definition AddGenesisAccountCmd (addr : AccAddress) (coinsStr vestingAmtStr vestingSchedulesStr : string)
    (genesis : Genesis BA) : res (Genesis BA) :=
  coins ← ParseCoinsNormalized coinsStr;
  vestingAmt ← ParseCoinsNormalized vestingAmtStr;
  let balances := mkBalance (AccAddressString addr) (CoinsSort coins) in
  let baseAccount := NewBaseAccount addr in
  genAccount ← (if negb (CoinsIsZero vestingAmt)
                then vesting_account (gen_Time genesis) baseAccount balances vestingAmt vestingSchedulesStr
                else Ok (PlainAccount baseAccount));
  _ ← GenesisAccount_Validate genAccount;
  if bool_decide (addr ∈ (gen_Accounts genesis).*1)
  then Err (Plain "cannot add account at existing address")
  else
    supply ← CoinsAdd (gen_Supply genesis) (bal_Coins balances);
    Ok (mkGenesis (gen_Time genesis)
          (SanitizeGenesisAccounts (gen_Accounts genesis ++ [(addr, genAccount)]))
          (SanitizeGenesisBalances (gen_Balances genesis ++ [balances])) supply).

End add_account.

Section add_account_facts.
Context `{MathOps} `{CoinOps} `{CoinSortOps} `{CoinSubOps} `{AddrCodec} `{MapRange}.
Context {BA : Type} `{BaseVestingOps BA} `{GenesisLib BA}.
Context `{!CoinLaws} `{!CoinSortLaws} `{!MapRangeLaws} `{!GenesisLibLaws BA}.

(** What the added account promises about the coins that vest. *)
Definition covered (coins vestingAmt : list Coin) (acc : GenesisAccount BA) : Prop :=
  match acc with
  | PlainAccount _ => CoinsIsZero vestingAmt = true
  | VestingAccount va =>
      OriginalVesting (lg_Base va) ≡ₚ vestingAmt /\
      forall c, c ∈ vestingAmt -> GetVestingSchedule va (Denom c) <> None /\
        (AmountOf coins (Denom c) <> 0 -> Amount c <= AmountOf coins (Denom c))
  end.

Lemma find_schedule (m : gmap string VestingSchedule) d : is_Some (m !! d) ->
  List.find (fun vs => String.eqb (vs_Denom vs) d)
    (map (fun kv => mkVestingSchedule kv.1 (Schedules kv.2)) (map_range m)) <> None.
Proof.
  intros [vs Hd] E. apply elem_of_map_to_list in Hd. rewrite <- (map_range_perm m) in Hd.
  assert (String.eqb d d = false) as Hf; [|by rewrite String.eqb_refl in Hf].
  apply (List.find_none _ _ E (mkVestingSchedule d (Schedules vs))).
  apply list_elem_of_In, list_elem_of_fmap. by exists (d, vs).
Qed.

Lemma vesting_covered t base bal vestingAmt str acc : CoinsIsValid vestingAmt = true ->
  vesting_account t base bal vestingAmt str = Ok acc -> covered (bal_Coins bal) vestingAmt acc.
Proof.
  intros Hv E. unfold vesting_account in E.
  destruct (schedules_of t str) as [m| |]; simpl in E; try done.
  destruct (NewBaseVestingAccount base (CoinsSort vestingAmt) 0) as [bva| |] eqn:Eb; simpl in E; try done.
  apply vesting_original in Eb. destruct (forallb _ vestingAmt) eqn:Ef; simpl in E; [|done].
  rewrite Eb in E. destruct (_ || _) eqn:Eg; [done|]. injection E as <-. simpl.
  split; [rewrite Eb; apply CoinsSort_perm|].
  intros c Hc. rewrite forallb_forall in Ef. apply list_elem_of_In in Hc as Hc'.
  specialize (Ef c Hc'). apply bool_decide_eq_true in Ef. split; [by apply find_schedule|].
  intros Hz. apply orb_false_iff in Eg as [_ Eg].
  destruct (Z.le_gt_cases (Amount c) (AmountOf (bal_Coins bal) (Denom c))); [done|].
  assert (IsAnyGT (CoinsSort vestingAmt) (bal_Coins bal) = true) as Hgt; [|by rewrite Hgt in Eg].
  apply IsAnyGT_spec. exists c. split; [by rewrite CoinsSort_perm|]. split; [done|lia].
Qed.

(** The command adds exactly one account, at an address that had none,
    with its balance, and the supply grows by the coins; every coin that
    vests has a schedule, and where the balance has its denomination at all,
    it covers what vests. *)
Theorem genesis_account_added addr coinsStr vestStr schedStr g g' :
  CoinsIsValid (gen_Supply g) = true ->
  AddGenesisAccountCmd addr coinsStr vestStr schedStr g = Ok g' ->
  exists coins vestingAmt acc, ParseCoinsNormalized coinsStr = Ok coins /\
    ParseCoinsNormalized vestStr = Ok vestingAmt /\
    addr ∉ (gen_Accounts g).*1 /\
    gen_Accounts g' ≡ₚ (addr, acc) :: gen_Accounts g /\
    gen_Balances g' ≡ₚ mkBalance (AccAddressString addr) (CoinsSort coins) :: gen_Balances g /\
    (forall d, AmountOf (gen_Supply g') d = AmountOf (gen_Supply g) d + AmountOf coins d) /\
    GenesisAccount_Validate acc = Ok tt /\ covered coins vestingAmt acc.
Proof.
  intros Hs E. unfold AddGenesisAccountCmd in E.
  destruct (ParseCoinsNormalized coinsStr) as [coins| |] eqn:Ec; simpl in E; try done.
  destruct (ParseCoinsNormalized vestStr) as [vest| |] eqn:Ev; simpl in E; try done.
  pose proof (parsed_coins _ _ Ec) as Hc. pose proof (parsed_coins _ _ Ev) as Hv.
  destruct (if negb (CoinsIsZero vest) then _ else _) as [acc| |] eqn:Ea; simpl in E; try done.
  destruct (GenesisAccount_Validate acc) as [[]| |] eqn:Eval; simpl in E; try done.
  destruct (bool_decide (addr ∈ _)) eqn:Ein; [done|]. apply bool_decide_eq_false in Ein.
  destruct (CoinsAdd _ _) as [supply| |] eqn:Esup; simpl in E; try done. injection E as <-.
  exists coins, vest, acc. split_and!; try done; simpl.
  - by rewrite accounts_perm, (comm (++)).
  - by rewrite balances_perm, (comm (++)).
  - intros d. rewrite <- (sort_amount coins) by done. apply CoinsAdd_inv; [done|by apply sort_valid|done].
  - destruct (CoinsIsZero vest) eqn:Ez; simpl in Ea; [by injection Ea as <-|].
    apply vesting_covered in Ea; [|done]. destruct acc as [|va]; [done|]. simpl in *.
    destruct Ea as [? Ea]. split; [done|]. intros c Hx. rewrite <- (sort_amount coins) by done. by apply Ea.
Qed.

(** The command accepts a vesting account whose balance does not cover
    what vests at all, as long as the balance has some other coin: the check
    against the balance skips denominations that the balance lacks. *)
Theorem uncovered_vesting_accepted t base bal vestingAmt schedStr m bva :
  schedules_of t schedStr = Ok m -> NewBaseVestingAccount base (CoinsSort vestingAmt) 0 = Ok bva ->
  (forall c, c ∈ vestingAmt -> is_Some (m !! Denom c) /\ AmountOf (bal_Coins bal) (Denom c) = 0) ->
  CoinsIsZero (bal_Coins bal) = false ->
  exists va, vesting_account t base bal vestingAmt schedStr = Ok (VestingAccount va) /\
    OriginalVesting (lg_Base va) ≡ₚ vestingAmt.
Proof.
  intros Em Eb Hall Hz. unfold vesting_account. rewrite Em. simpl. rewrite Eb. simpl.
  apply vesting_original in Eb.
  replace (forallb _ vestingAmt) with true.
  - simpl. rewrite Hz. simpl. destruct (IsAnyGT _ _) eqn:Eg.
    + apply IsAnyGT_spec in Eg as (c & Hc & Hne & _). rewrite Eb, CoinsSort_perm in Hc. destruct (Hall c Hc); lia.
    + eexists. split; [done|]. simpl. rewrite Eb. apply CoinsSort_perm.
  - symmetry. apply forallb_forall. intros c Hc%list_elem_of_In. apply bool_decide_eq_true_2.
    by apply Hall.
Qed.

End add_account_facts.

(** ** migrate *)
Record DenomUnit : Type := mkDenomUnit { du_Denom : string; du_Exponent : Z; du_Aliases : list string }.
Record Metadata : Type := mkMetadata {
  md_Description : string; md_DenomUnits : list DenomUnit; md_Base : string; md_Display : string;
  md_Name : string; md_Symbol : string;
}.

(** The fields of a genesis document the command reads or writes. *)
Record GenesisDoc : Type := mkGenesisDoc {
  Block_MaxBytes : Z; Block_MaxGas : Z; Evidence_MaxBytes : Z;
  doc_Whitelist : list OracleState.WhitelistDenom;
  doc_DenomMetadata : list Metadata;
  doc_SendEnabled : bool; doc_ReceiveEnabled : bool; doc_AllowedClients : list string;
  doc_HistoricalEntries : Z;
  doc_GenesisTime : Z; doc_ChainID : string; doc_InitialHeight : Z;
}.

(** The flags; [None] is a flag that was left empty. *)
Record MigrateFlags : Type := mkMigrateFlags {
  flagGenesisTime : option (res Z); flagChainID : string; flagInitialHeight : Z;
}.

Definition TrimPrefix_u (s : string) : string :=
  match s with
  | String c rest => if Ascii.eqb c "u" then rest else s
  | EmptyString => s
  end.

Definition native_metadata : Metadata :=
  mkMetadata "The native staking token of Do-Chain."
    [mkDenomUnit MicroDoDenom 0 ["microdo"]; mkDenomUnit "mdo" 3 ["millido"]; mkDenomUnit "do" 6 []]
    MicroDoDenom "do" "Do" "DO".

Definition whitelist_metadata (w : OracleState.WhitelistDenom) : Metadata :=
  let base := OracleState.d_Name w in
  let display := TrimPrefix_u base in
  let display := if String.eqb display "" then base else display in
  mkMetadata "A native oracle whitelist asset of Do-Chain."
    [mkDenomUnit base 0 ["micro" +:+ display]; mkDenomUnit ("m" +:+ display) 3 ["milli" +:+ display];
     mkDenomUnit display 6 []]
    base display (ToUpper display) (ToUpper display).

Definition denomMetadata (whitelist : list OracleState.WhitelistDenom) : list Metadata :=
  native_metadata :: map whitelist_metadata whitelist.

Definition MigrateGenesis (flags : MigrateFlags) (doc : GenesisDoc) : res GenesisDoc :=
  genesisTime ← match flagGenesisTime flags with
                | None => Ok (doc_GenesisTime doc)
                | Some t => t
                end;
  let chainID := if String.eqb (flagChainID flags) "" then doc_ChainID doc else flagChainID flags in
  Ok (mkGenesisDoc 5000000 1000000000 50000 (doc_Whitelist doc)
        (denomMetadata (doc_Whitelist doc)) false false ["07-tendermint"] 10000
        genesisTime chainID (flagInitialHeight flags)).

(** ** Replacing consensus keys *)
Record replacementConfig : Type := mkReplacement {
  ValidatorName : string; rc_ValidatorAddress : string; ConsensusPubkey : string;
}.
Record GenValidator (Key : Type) : Type := mkGenValidator { gv_Operator : string; gv_ConsensusKey : Key }.
Arguments mkGenValidator {Key}. Arguments gv_Operator {Key}. Arguments gv_ConsensusKey {Key}.
Record GenSigningInfo : Type := mkGenSigningInfo { si_Address : string; si_InfoAddress : string }.
Record TmValidator (Key : Type) : Type := mkTmValidator { tm_Address : string; tm_PubKey : Key }.
Arguments mkTmValidator {Key}. Arguments tm_Address {Key}. Arguments tm_PubKey {Key}.

Record KeyGenesis (Key : Type) : Type := mkKeyGenesis {
  kg_Validators : list (GenValidator Key);
  kg_SigningInfos : list GenSigningInfo;
  kg_MissedBlocks : list string;
  kg_TmValidators : list (TmValidator Key);
}.
Arguments mkKeyGenesis {Key}. Arguments kg_Validators {Key}. Arguments kg_SigningInfos {Key}.
Arguments kg_MissedBlocks {Key}. Arguments kg_TmValidators {Key}.

Section replace_keys.
Context {Key : Type}.
(** The bytes of the consensus address of a key, and the key in a JSON text. *)
Variable ConsAddr : Key -> string.
Variable decode_key : string -> res Key.

Definition isReplacedValidator (r : list replacementConfig) (validatorAddress : string) :
    option replacementConfig :=
  List.find (fun replacement => String.eqb (rc_ValidatorAddress replacement) validatorAddress) r.

(** The address fields of the slashing genesis are compared with the raw bytes
    of the consensus address. *)
Definition rename_info (old new : string) (i : GenSigningInfo) : GenSigningInfo :=
  if String.eqb (si_Address i) old then mkGenSigningInfo new new else i.
Definition rename_missed (old new : string) (a : string) : string := if String.eqb a old then new else a.
Definition rename_tm (old : string) (key : Key) (v : TmValidator Key) : TmValidator Key :=
  if String.eqb (tm_Address v) old then mkTmValidator (ConsAddr key) key else v.

(** One validator of the staking genesis; a key that cannot be decoded ends
    the program. *)
Definition replace_key (r : list replacementConfig) (g : KeyGenesis Key) (i : nat) : res (KeyGenesis Key) :=
  match kg_Validators g !! i with
  | None => Ok g
  | Some val =>
      match isReplacedValidator r (gv_Operator val) with
      | None => Ok g
      | Some replacement =>
          match decode_key (ConsensusPubkey replacement) with
          | Ok key =>
              let old := ConsAddr (gv_ConsensusKey val) in
              let new := ConsAddr key in
              Ok (mkKeyGenesis (<[i := mkGenValidator (gv_Operator val) key]> (kg_Validators g))
                    (map (rename_info old new) (kg_SigningInfos g))
                    (map (rename_missed old new) (kg_MissedBlocks g))
                    (map (rename_tm old key) (kg_TmValidators g)))
          | _ => Panic
          end
      end
  end.

Definition loadKeydataFromFile (replacementKeys : list replacementConfig) (g : KeyGenesis Key) :
    res (KeyGenesis Key) :=
  foldRes (replace_key replacementKeys) g (seq 0 (length (kg_Validators g))).

End replace_keys.

(** ** What they do *)

(** The metadata of a migrated genesis has one entry for each name of the
    oracle whitelist after the one of [udo], so no two entries describe the
    same denomination exactly when the whitelist has distinct names and not
    [udo].  The default whitelist names [udo]: its migration registers the
    denomination twice. *)
Theorem migrated_metadata flags doc doc' : MigrateGenesis flags doc = Ok doc' ->
  map md_Base (doc_DenomMetadata doc') = MicroDoDenom :: map OracleState.d_Name (doc_Whitelist doc) /\
  (NoDup (map md_Base (doc_DenomMetadata doc')) <->
    MicroDoDenom ∉ map OracleState.d_Name (doc_Whitelist doc) /\
    NoDup (map OracleState.d_Name (doc_Whitelist doc))) /\
  (doc_Whitelist doc = OracleState.DefaultWhitelist -> ~ NoDup (map md_Base (doc_DenomMetadata doc'))).
Proof.
  intros E. unfold MigrateGenesis in E.
  destruct (match flagGenesisTime flags with Some t => t | None => _ end) as [t| |]; simpl in E; try done.
  injection E as <-. simpl.
  assert (map md_Base (map whitelist_metadata (doc_Whitelist doc)) =
    map OracleState.d_Name (doc_Whitelist doc)) as ->.
  { rewrite map_map. by apply map_ext. }
  split; [done|]. split; [apply NoDup_cons|]. intros ->. rewrite NoDup_cons. intros [Hn _].
  apply Hn. simpl. left.
Qed.

Section replace_facts.
Context {Key : Type}.
Variable ConsAddr : Key -> string.
Variable decode_key : string -> res Key.
Variable r : list replacementConfig.
Implicit Types g : KeyGenesis Key.

Lemma foldRes_inv {A X} (P : A -> Prop) (f : A -> X -> res A) xs a a' :
  (forall a x a', P a -> f a x = Ok a' -> P a') -> P a -> foldRes f a xs = Ok a' -> P a'.
Proof.
  intros Hf. revert a. induction xs as [|x xs IH]; intros a Ha E; simpl in E; [by injection E as <-|].
  destruct (f a x) as [a1| |] eqn:E1; simpl in E; try done. eauto.
Qed.

(** Replacing the consensus keys of validators leaves every signing info
    and missed block under the address of the old key: the genesis has the
    texts of consensus addresses and the code looks for their 20 raw bytes. *)
Theorem signing_infos_left_behind g g' : (forall key, String.length (ConsAddr key) = 20%nat) ->
  (forall i, i ∈ kg_SigningInfos g -> (20 < String.length (si_Address i))%nat) ->
  (forall a, a ∈ kg_MissedBlocks g -> (20 < String.length a)%nat) ->
  loadKeydataFromFile ConsAddr decode_key r g = Ok g' ->
  kg_SigningInfos g' = kg_SigningInfos g /\ kg_MissedBlocks g' = kg_MissedBlocks g.
Proof.
  intros Hc Hi Hm E. unfold loadKeydataFromFile in E.
  apply (foldRes_inv (fun g0 => kg_SigningInfos g0 = kg_SigningInfos g /\
    kg_MissedBlocks g0 = kg_MissedBlocks g)) in E; [done| |done].
  intros g0 i g1 [Hi0 Hm0] E1. unfold replace_key in E1.
  destruct (kg_Validators g0 !! i) as [val|]; [|by injection E1 as <-].
  destruct (isReplacedValidator r (gv_Operator val)) as [rep|]; [|by injection E1 as <-].
  destruct (decode_key _) as [key| |]; try done. injection E1 as <-. simpl. rewrite Hi0, Hm0.
  pose proof (Hc (gv_ConsensusKey val)) as Hl. split.
  - rewrite <- (map_id (kg_SigningInfos g)) at 2. apply map_ext_in. intros x Hx%list_elem_of_In.
    unfold rename_info. destruct (String.eqb_spec (si_Address x) (ConsAddr (gv_ConsensusKey val))) as [Eq|]; [|done].
    specialize (Hi x Hx). rewrite Eq in Hi. lia.
  - rewrite <- (map_id (kg_MissedBlocks g)) at 2. apply map_ext_in. intros x Hx%list_elem_of_In.
    unfold rename_missed. destruct (String.eqb_spec x (ConsAddr (gv_ConsensusKey val))) as [->|]; [|done].
    specialize (Hm _ Hx). lia.
Qed.

(** The key a validator gets, and what a consensus validator becomes. *)
Definition replacement (v : GenValidator Key) : option Key :=
  match isReplacedValidator r (gv_Operator v) with
  | Some rep => match decode_key (ConsensusPubkey rep) with Ok k => Some k | _ => None end
  | None => None
  end.
Definition new_validator (v : GenValidator Key) : GenValidator Key :=
  mkGenValidator (gv_Operator v) (default (gv_ConsensusKey v) (replacement v)).
Definition old_addr (v : GenValidator Key) : string := ConsAddr (gv_ConsensusKey v).
Definition new_tm (vals : list (GenValidator Key)) (t : TmValidator Key) : TmValidator Key :=
  match List.find (fun v => String.eqb (old_addr v) (tm_Address t)) vals with
  | Some v => match replacement v with Some k => mkTmValidator (ConsAddr k) k | None => t end
  | None => t
  end.

(** Every replacement can be decoded, the validators have different keys and
    no new key has the address of an old one. *)
Record replaceable (vals : list (GenValidator Key)) : Prop := {
  rp_decode v rep : v ∈ vals -> isReplacedValidator r (gv_Operator v) = Some rep ->
    exists k, decode_key (ConsensusPubkey rep) = Ok k;
  rp_distinct : NoDup (map old_addr vals);
  rp_fresh v k v' : v ∈ vals -> replacement v = Some k -> v' ∈ vals -> ConsAddr k <> old_addr v';
}.

Lemma find_snoc {A} (p : A -> bool) l x :
  List.find p (l ++ [x]) = match List.find p l with Some y => Some y | None => if p x then Some x else None end.
Proof. induction l as [|y l IH]; simpl; [done|]. by destruct (p y). Qed.

(** One more validator, in front of which the others were done. *)
Lemma new_tm_snoc l v l2 t : replaceable (l ++ v :: l2) ->
  new_tm (l ++ [v]) t = match replacement v with
                        | Some k => rename_tm ConsAddr (old_addr v) k (new_tm l t)
                        | None => new_tm l t
                        end.
Proof.
  intros [_ Hd Hf]. unfold new_tm. rewrite find_snoc.
  destruct (List.find _ l) as [v'|] eqn:E.
  - apply List.find_some in E as [Hin%list_elem_of_In He%String.eqb_eq].
    destruct (replacement v) as [k|] eqn:Ev; [|done]. unfold rename_tm.
    destruct (replacement v') as [k'|] eqn:Ev'; simpl.
    + destruct (String.eqb_spec (ConsAddr k') (old_addr v)) as [Eq|]; [|done]. exfalso.
      eapply (Hf v' k' v); [set_solver|done|set_solver|done].
    + destruct (String.eqb_spec (tm_Address t) (old_addr v)) as [Eq|]; [|done]. exfalso.
      rewrite map_app, NoDup_app in Hd. destruct Hd as (_ & Hd & _).
      eapply (Hd (old_addr v')); [by apply list_elem_of_fmap_2|]. simpl. rewrite He, Eq. left.
  - rewrite String.eqb_sym. destruct (String.eqb_spec (tm_Address t) (old_addr v)) as [Eq|Hne].
    + destruct (replacement v) as [k|] eqn:Ev; [|done]. unfold rename_tm.
      by rewrite Eq, String.eqb_refl.
    + destruct (replacement v) as [k|]; [|done]. unfold rename_tm.
      destruct (String.eqb_spec (tm_Address t) (old_addr v)); done.
Qed.

Lemma replace_step l v l2 g tms : replaceable (l ++ v :: l2) ->
  kg_Validators g = map new_validator l ++ v :: l2 -> kg_TmValidators g = map (new_tm l) tms ->
  exists g', replace_key ConsAddr decode_key r g (length l) = Ok g' /\
    kg_Validators g' = map new_validator (l ++ [v]) ++ l2 /\
    kg_TmValidators g' = map (new_tm (l ++ [v])) tms.
Proof.
  intros Hr Hv Ht. unfold replace_key. rewrite Hv, lookup_app_r by by rewrite length_map.
  rewrite length_map, Nat.sub_diag. simpl.
  assert (map (new_tm (l ++ [v])) tms = map (fun t => match replacement v with
    | Some k => rename_tm ConsAddr (old_addr v) k (new_tm l t) | None => new_tm l t end) tms) as ->.
  { apply map_ext. intros t. by apply (new_tm_snoc _ _ l2). }
  rewrite map_app, <- app_assoc. unfold new_validator at 3, replacement. simpl.
  destruct (isReplacedValidator r (gv_Operator v)) as [rep|] eqn:Er.
  - destruct (rp_decode _ Hr v rep) as [k Hk]; [set_solver|done|]. rewrite Hk. eexists. split; [done|].
    simpl. split; [|by rewrite Ht, map_map].
    rewrite insert_app_r_alt by by rewrite length_map. by rewrite length_map, Nat.sub_diag.
  - exists g. split; [done|]. rewrite Hv, Ht. by destruct v.
Qed.

Lemma replace_loop l l2 g tms : replaceable (l ++ l2) ->
  kg_Validators g = map new_validator l ++ l2 -> kg_TmValidators g = map (new_tm l) tms ->
  exists g', foldRes (replace_key ConsAddr decode_key r) g (seq (length l) (length l2)) = Ok g' /\
    kg_Validators g' = map new_validator (l ++ l2) /\ kg_TmValidators g' = map (new_tm (l ++ l2)) tms.
Proof.
  revert l g. induction l2 as [|v l2 IH]; intros l g Hr Hv Ht; simpl.
  - exists g. by rewrite app_nil_r in *.
  - destruct (replace_step l v l2 g tms Hr Hv Ht) as (g1 & E1 & Hv1 & Ht1). rewrite E1. simpl.
    rewrite (cons_middle v l l2), app_assoc in Hr.
    destruct (IH (l ++ [v]) g1 Hr Hv1 Ht1) as (g' & E' & Hv' & Ht'). exists g'.
    rewrite length_app in E'. simpl in E'. rewrite Nat.add_1_r in E'. split; [exact E'|].
    by rewrite <- app_assoc in Hv', Ht'.
Qed.

(** Replacing keys gives every validator named in the file its new key and
    leaves the others; the consensus validators that had the address of a
    replaced key get the new key and its address, and no other. *)
Theorem consensus_keys_replaced g : replaceable (kg_Validators g) ->
  exists g', loadKeydataFromFile ConsAddr decode_key r g = Ok g' /\
    kg_Validators g' = map new_validator (kg_Validators g) /\
    kg_TmValidators g' = map (new_tm (kg_Validators g)) (kg_TmValidators g).
Proof.
  intros Hr. unfold loadKeydataFromFile.
  apply (replace_loop [] (kg_Validators g) g (kg_TmValidators g) Hr); [done|].
  symmetry. apply map_id.
Qed.

End replace_facts.

(** ** Instances *)
Lemma strictly_sorted_le l : strictly_sorted l = true -> StronglySorted denom_le l.
Proof.
  induction l as [|c l IH]; simpl; [constructor|]. rewrite andb_true_iff. intros [Hc Hl].
  constructor; [by apply IH|]. rewrite forallb_forall in Hc. apply Forall_forall.
  intros x Hx%list_elem_of_In. specialize (Hc x Hx). unfold denom_lt, denom_le, String.leb in *.
  by destruct (String.compare _ _).
Qed.

(** A valid set of coins is already sorted. *)
Lemma sort_of_valid l : coins_ok l = true -> merge_sort denom_le l = l.
Proof.
  unfold coins_ok. rewrite !andb_true_iff. intros [[Hs Hn] _]. apply bool_decide_eq_true in Hn.
  apply (StronglySorted_unique_strong denom_le).
  - intros x y Hx Hy Hxy Hyx. rewrite merge_sort_Permutation in Hx.
    assert (Denom x = Denom y) as Hd by by apply String.leb_antisym.
    apply list_elem_of_lookup in Hx as [i Hi]. apply list_elem_of_lookup in Hy as [j Hj].
    assert (i = j) as ->; [|by rewrite Hi in Hj; injection Hj].
    eapply (NoDup_lookup (map Denom l)); [done|by rewrite list_lookup_fmap, Hi|].
    rewrite list_lookup_fmap, Hj. simpl. by rewrite Hd.
  - apply StronglySorted_merge_sort; apply _.
  - by apply strictly_sorted_le.
  - apply merge_sort_Permutation.
Qed.

Module Example.

(** An amount of one digit and its denomination. *)
Definition parse_coins (s : string) : res (list Coin) :=
  match s with
  | EmptyString => Ok []
  | String c d =>
      n ← Atoi (String c "");
      let l := [mkCoin d n] in
      if CoinsIsValid l then Ok l else Err (Plain "invalid coins")
  end.

#[export] Instance lib : GenesisLib string := {|
  NewBaseAccount a := a;
  BaseAccount_Validate _ := Ok tt;
  NewBaseVestingAccount a coins t := Ok (mkBaseVestingAccount a coins [] [] t);
  ParseCoinsNormalized := parse_coins;
  DecFromStr s := n ← Atoi s; Ok (n * Precision);
  IsAnyGT x y := existsb (fun c => negb (AmountOf y (Denom c) =? 0) && (AmountOf y (Denom c) <? Amount c)) x;
  SanitizeGenesisAccounts l := l;
  SanitizeGenesisBalances l := l;
|}.

#[export] Instance lib_laws : GenesisLibLaws string.
Proof.
  split.
  - by intros base coins t acc [= <-].
  - intros x y. simpl. rewrite existsb_exists. split.
    + intros (c & Hc & H%andb_true_iff). destruct H as [H1 H2]. zbool. exists c.
      by rewrite list_elem_of_In.
    + intros (c & Hc & H1 & H2). exists c. rewrite <- list_elem_of_In. split; [done|].
      apply andb_true_iff. split; [by apply negb_true_iff, Z.eqb_neq|by apply Z.ltb_lt].
  - done.
  - done.
  - intros l Hl. simpl in *. by rewrite sort_of_valid.
  - intros l d Hl. simpl in *. by rewrite sort_of_valid.
  - intros [|c s] l; simpl; [by intros [= <-]|]. destruct (Atoi _); simpl; try done.
    case_match; [|done]. by intros [= <-].
Qed.

Definition g0 : Genesis string := mkGenesis 1000 [("old", PlainAccount "old")] [] [].
Definition g1 : res (Genesis string) :=
  AddGenesisAccountCmd "new" "5udo" "3udo" "udo|0|1|1" g0.

Definition vals : list (GenValidator nat) := [mkGenValidator "op1" 1%nat; mkGenValidator "op2" 2%nat].
Definition keys : KeyGenesis nat :=
  mkKeyGenesis vals [mkGenSigningInfo "dovalcons1aaaaaaaaaaaaaaaaa" "x"] []
    [mkTmValidator "1" 1%nat; mkTmValidator "2" 2%nat].
Definition addr_of (k : nat) : string :=
  match k with 1 => "1" | 2 => "2" | _ => "7" end%nat.
Definition decode (s : string) : res nat := Ok 7%nat.
Definition repl : list replacementConfig := [mkReplacement "one" "op1" "seven"].

End Example.
Import Example.

Lemma genesis_account_added_witness :
  exists g', g1 = Ok g' /\ AmountOf (gen_Supply g') "udo" = 5 /\ length (gen_Accounts g') = 2%nat.
Proof.
  assert (exists g', g1 = Ok g') as [g' E] by (eexists; by vm_compute).
  exists g'. split; [exact E|].
  destruct (genesis_account_added "new" "5udo" "3udo" "udo|0|1|1" g0 g') as
    (coins & vest & acc & Hc & _ & _ & Ha & _ & Hs & _); [by vm_compute|exact E|].
  injection Hc as <-. split; [rewrite (Hs "udo"); by vm_compute|by rewrite Ha].
Defined.

Lemma uncovered_vesting_accepted_witness :
  exists va, vesting_account 1000 "new" (mkBalance "new" [mkCoin "udo" 1]) [mkCoin "uusd" 9] "uusd|0|1|1" =
      Ok (VestingAccount va) /\
    OriginalVesting (lg_Base va) ≡ₚ [mkCoin "uusd" 9].
Proof.
  eapply (uncovered_vesting_accepted 1000 "new" (mkBalance "new" [mkCoin "udo" 1]) [mkCoin "uusd" 9]
    "uusd|0|1|1"); [by vm_compute|reflexivity| |by vm_compute].
  intros c ->%list_elem_of_singleton. split; [by vm_compute; eauto|by vm_compute].
Defined.

Lemma migrated_metadata_witness :
  exists doc', MigrateGenesis (mkMigrateFlags None "" 0)
      (mkGenesisDoc 1 2 3 OracleState.DefaultWhitelist [] true true [] 0 0 "c" 1) = Ok doc' /\
    map md_Base (doc_DenomMetadata doc') = ["udo"; "udo"; "uusd"].
Proof.
  eexists. split; [reflexivity|].
  eapply (migrated_metadata (mkMigrateFlags None "" 0)
    (mkGenesisDoc 1 2 3 OracleState.DefaultWhitelist [] true true [] 0 0 "c" 1)). reflexivity.
Defined.

Lemma signing_infos_left_behind_witness :
  exists g', loadKeydataFromFile (fun _ => "aaaaaaaaaaaaaaaaaaaa") decode repl keys = Ok g' /\
    kg_SigningInfos g' = kg_SigningInfos keys.
Proof.
  eexists. split; [reflexivity|].
  eapply (signing_infos_left_behind (fun _ => "aaaaaaaaaaaaaaaaaaaa") decode repl keys).
  - done.
  - intros i ->%list_elem_of_singleton. apply (bool_decide_unpack _). by vm_compute.
  - intros a Ha. by apply elem_of_nil in Ha.
  - reflexivity.
Defined.

Lemma consensus_keys_replaced_witness :
  exists g', loadKeydataFromFile addr_of decode repl keys = Ok g' /\
    kg_TmValidators g' = [mkTmValidator "7" 7%nat; mkTmValidator "2" 2%nat].
Proof.
  destruct (consensus_keys_replaced addr_of decode repl keys) as (g' & E & _ & Ht).
  - split.
    + intros v rep _ _. by exists 7%nat.
    + apply (bool_decide_unpack _). by vm_compute.
    + intros v k v' Hv Hk Hv'. unfold replacement, decode in Hk.
      destruct (isReplacedValidator repl (gv_Operator v)); [|done]. injection Hk as <-.
      unfold keys, vals in Hv'. cbn [kg_Validators] in Hv'. rewrite !elem_of_cons in Hv'. destruct Hv' as [->|[->|Hv']]; [done|done|].
      by apply elem_of_nil in Hv'.
  - exists g'. split; [exact E|]. rewrite Ht. by vm_compute.
Defined.
