(* ===== verification/Wiring.v ===== *)
(** * How the application is put together (src/app/modules.go,
    src/app/keepers/keepers.go, routers.go, keys.go, src/app/app.go)

    The lists of modules, the orders in which their handlers run, the
    permissions of the module accounts and which of them may receive coins,
    the stores and parameter subspaces, the order in which the keepers are
    built, and the routes of governance proposals and IBC packets.  The
    module manager of the SDK is the class [Manager]: it runs the handlers of
    the modules it was given, in the order that was set.

    The theorems: no registered module is forgotten by an order it takes part
    in; what is known about the market module by every list is of no effect,
    because the manager is not given the market; every call that mints or
    burns is permitted, and the other accounts of modules cannot be paid; no
    keeper is built from one that is not there yet, with two exceptions. *)
From stdpp Require Import base gmap sets list strings fin_maps.
From Stdlib Require Import ZArith Lia Ascii.
From S2P Require Import Prelude Sdk SdkRef Core.
From S2P Require DodxStaking Market OracleState Treasury Mfa Stargate.
#[local] Open Scope Z_scope.

(** ** Names of the modules of the SDK, of IBC and of wasmd *)
Module names.
Definition auth : string := "auth".
Definition authz : string := "authz".
Definition bank : string := "bank".
Definition consensus : string := "consensus".
Definition crisis : string := "crisis".
Definition distribution : string := "distribution".
Definition evidence : string := "evidence".
Definition feegrant : string := "feegrant".
Definition genutil : string := "genutil".
Definition gov : string := "gov".
Definition mint : string := "mint".
Definition params : string := "params".
Definition slashing : string := "slashing".
Definition staking : string := "staking".
Definition upgrade : string := "upgrade".
Definition vesting : string := "vesting".
Definition ibc : string := "ibc".
Definition ibctm : string := "07-tendermint".
Definition transfer : string := "transfer".
Definition ica : string := "interchainaccounts".
Definition icahost : string := "icahost".
Definition icacontroller : string := "icacontroller".
Definition ibchooks : string := "ibchooks".
Definition wasm : string := "wasm".
(** the modules of this repository *)
Definition oracle : string := OracleState.ModuleName.
Definition market : string := Market.ModuleName.
Definition treasury : string := Treasury.ModuleName.
Definition dodxstaking : string := DodxStaking.ModuleName.
Definition dyncomm : string := "dyncomm".
Definition mfa : string := Mfa.ModuleName.
End names.

(** ** app/modules.go *)
Definition buybackLiquidityPoolName : string := "buyback_liquidity_pool".

Definition ModuleBasics : list string :=
  [names.auth; names.authz; names.genutil; names.bank; names.staking; names.mint;
   names.distribution; names.gov; names.params; names.slashing; names.feegrant; names.ibc;
   names.ica; names.ibctm; names.upgrade; names.evidence; names.transfer; names.vesting;
   names.oracle; names.market; names.treasury; names.dodxstaking; names.wasm; names.dyncomm;
   names.mfa; names.ibchooks; names.consensus].

Inductive Permission : Type := Minter | Burner | Staking.
#[export] Instance Permission_eq_dec : EqDecision Permission.
Proof. solve_decision. Defined.

Definition FeeCollectorName : string := "fee_collector".
Definition BondedPoolName : string := "bonded_tokens_pool".
Definition NotBondedPoolName : string := "not_bonded_tokens_pool".

Definition maccPerms : gmap string (list Permission) := list_to_map [
  (FeeCollectorName, []);
  (Treasury.BurnModuleName, [Burner]);
  (names.mint, [Minter]);
  (names.market, [Minter; Burner]);
  (names.oracle, []);
  (names.distribution, []);
  (buybackLiquidityPoolName, []);
  (names.treasury, [Minter; Burner]);
  (BondedPoolName, [Burner; Staking]);
  (NotBondedPoolName, [Burner; Staking]);
  (names.gov, [Burner]);
  (names.dodxstaking, []);
  (names.transfer, [Minter; Burner]);
  (names.ica, []);
  (names.wasm, [Burner])].

Definition allowedReceivingModAcc : gmap string bool := list_to_map [
  (names.oracle, true); (Treasury.BurnModuleName, true); (buybackLiquidityPoolName, true)].

(** The module manager is given these modules; [market] is not among them. *)
Definition appModules : list string :=
  [names.genutil; names.auth; names.bank; names.feegrant; names.gov; names.mint; names.slashing;
   names.distribution; names.staking; names.upgrade; names.evidence; names.params; names.authz;
   names.ibc; names.transfer; names.ica; names.oracle; names.treasury; names.dodxstaking;
   names.wasm; names.dyncomm; names.mfa; names.ibchooks; names.consensus].

Definition simulationModules : list string :=
  [names.auth; names.bank; names.feegrant; names.gov; names.mint; names.slashing;
   names.distribution; names.staking; names.evidence; names.params; names.authz; names.ibc;
   names.transfer; names.ica; names.oracle; names.market; names.treasury; names.dodxstaking;
   names.wasm; names.dyncomm; names.mfa].

Definition orderBeginBlockers : list string :=
  [names.mint; names.distribution; names.slashing; names.evidence; names.staking; names.auth;
   names.bank; names.gov; names.crisis; names.genutil; names.authz; names.feegrant; names.params;
   names.ibc; names.transfer; names.ica; names.ibchooks;
   names.oracle; names.treasury; names.market; names.dodxstaking; names.wasm; names.dyncomm;
   names.mfa; names.consensus].

Definition orderEndBlockers : list string :=
  [names.crisis; names.gov; names.staking; names.auth; names.bank; names.distribution;
   names.slashing; names.mint; names.genutil; names.evidence; names.authz; names.feegrant;
   names.params; names.upgrade;
   names.ibc; names.transfer; names.ica; names.ibchooks;
   names.oracle; names.treasury; names.market; names.dodxstaking; names.wasm; names.dyncomm;
   names.mfa; names.consensus].

Definition orderInitGenesis : list string :=
  [names.auth; names.bank; names.distribution; names.staking; names.genutil;
   names.slashing; names.gov; names.mint; names.crisis; names.evidence; names.authz; names.params;
   names.upgrade; names.feegrant;
   names.ibc; names.transfer; names.ica; names.ibchooks;
   names.market; names.oracle; names.treasury; names.dodxstaking; names.wasm; names.dyncomm;
   names.mfa; names.consensus].

(** app.go: the order of the pre-blockers, set in [NewDoApp]. *)
Definition orderPreBlockers : list string := [names.upgrade; names.auth].

(** ** app/keepers/keepers.go, keys.go: stores and parameter subspaces *)
Definition keys : list string :=
  ["acc"; names.bank; names.staking; names.mint; names.distribution; names.slashing; names.gov;
   names.params; names.consensus; names.upgrade; names.feegrant; names.evidence; names.authz;
   names.ibc; names.transfer; names.icacontroller; names.icahost; "hooks-for-ibc"; names.oracle;
   names.market; names.treasury; names.wasm; names.dodxstaking; names.dyncomm; names.mfa].
Definition tkeys : list string := ["transient_params"].
Definition memKeys : list string := [].

Definition GetKey (storeKey : string) : option string := List.find (String.eqb storeKey) keys.
Definition GetTKey (storeKey : string) : option string := List.find (String.eqb storeKey) tkeys.
Definition GetMemKey (storeKey : string) : option string := List.find (String.eqb storeKey) memKeys.

(** The parameter keeper: a subspace is registered once, and gets a table of
    its keys at most once; a second registration panics. *)
Class ParamsKeeper (P : Type) : Type := {
  space : P -> string -> option bool;
  Subspace : string -> M P unit;
  WithKeyTable : string -> M P unit;
}.
Class ParamsKeeperLaws (P : Type) `{ParamsKeeper P} : Prop := {
  Subspace_new p n : space p n = None -> n <> "" -> exists p', Subspace n p = (Ok tt, p') /\
    forall m, space p' m = if String.eqb m n then Some false else space p m;
  Subspace_twice p n : space p n <> None -> (Subspace n p).1 = Panic;
  WithKeyTable_first p n : space p n = Some false -> exists p', WithKeyTable n p = (Ok tt, p') /\
    forall m, space p' m = if String.eqb m n then Some true else space p m;
  WithKeyTable_twice p n : space p n = Some true -> (WithKeyTable n p).1 = Panic;
}.

Section params.
Context {P : Type} `{ParamsKeeper P}.

Definition HasKeyTable (name : string) : M P bool := gets (fun p => default false (space p name)).

Definition with_table (name : string) : M P unit := Subspace name ;; WithKeyTable name.
Definition guarded_table (name : string) : M P unit :=
  Subspace name ;;
  has ← HasKeyTable name;
  if has : bool then mret tt else WithKeyTable name.

Definition initParamsKeeper : M P unit :=
  forM with_table [names.auth; names.bank; names.staking; names.distribution; names.slashing; names.gov] ;;
  guarded_table names.transfer ;;
  guarded_table names.ibc ;;
  guarded_table names.icahost ;;
  guarded_table names.icacontroller ;;
  forM Subspace [names.market; names.oracle; names.treasury; names.wasm; names.dyncomm].

(** A name that was not registered gives the zero subspace. *)
Definition GetSubspace (moduleName : string) (p : P) : option bool := space p moduleName.

(** ** The constructors of the chain's keepers: [NewKeeper] panics when the
    account of the module is not among [maccPerms], and registers the table
    of parameter keys if there is none yet. *)
Definition account_set (name : string) : M P unit :=
  match maccPerms !! name with Some _ => mret tt | None => panic end.
Definition table_set (name : string) : M P unit :=
  has ← HasKeyTable name;
  if has : bool then mret tt else WithKeyTable name.

Definition NewOracleKeeper : M P unit := account_set names.oracle ;; table_set names.oracle.
Definition NewMarketKeeper : M P unit := account_set names.market ;; table_set names.market.
Definition NewTreasuryKeeper : M P unit :=
  account_set names.treasury ;; account_set Treasury.BurnModuleName ;; table_set names.treasury.
Definition NewDodxStakingKeeper : M P unit := account_set names.dodxstaking.
Definition NewDyncommKeeper : M P unit := table_set names.dyncomm.
End params.

(** ** app/app.go, keepers.go: the accounts of modules

    [NewModuleAddress] prints the address that belongs to a name. *)
Section accounts.
Context (NewModuleAddress : string -> string).

Definition ModuleAccountAddrs (perms : gmap string (list Permission)) : gmap string bool :=
  foldr (fun acc m => <[NewModuleAddress acc := true]> m) ∅ (kv_iter perms).*1.

Definition BlacklistedAccAddrs (perms : gmap string (list Permission)) (allowed : gmap string bool) :
    gmap string bool :=
  foldr (fun acc m => <[NewModuleAddress acc := negb (default false (allowed !! acc))]> m) ∅
    (kv_iter perms).*1.
End accounts.

(** ** app/keepers/keepers.go: the construction of the keepers

    One entry per assignment of [NewAppKeepers] to a field of [AppKeepers]:
    the fields whose value goes into the new keeper, and the fields it keeps
    a pointer to and reads later. *)
Inductive Field : Type :=
| ParamsKeeper_ | ConsensusParamsKeeper | AccountKeeper | BankKeeper | AuthzKeeper | FeeGrantKeeper
| StakingKeeper | MintKeeper | DistrKeeper | SlashingKeeper | UpgradeKeeper | StakingHooks
| IBCKeeper | ICAHostKeeper | ICAControllerKeeper | EvidenceKeeper | OracleKeeper | MarketKeeper
| TreasuryKeeper | MFAKeeper | DODxStakingKeeper | IBCHooksKeeper | Ics20WasmHooks | IBCHooksWrapper
| TransferKeeper | WasmKeeper | WasmHooksContract | GovKeeper | DyncommKeeper | IBCRouter.
#[export] Instance Field_eq_dec : EqDecision Field.
Proof. solve_decision. Defined.
#[export] Instance Field_countable : Countable Field.
Proof.
  refine (inj_countable' (fun f => match f with
    | ParamsKeeper_ => 0 | ConsensusParamsKeeper => 1 | AccountKeeper => 2 | BankKeeper => 3
    | AuthzKeeper => 4 | FeeGrantKeeper => 5 | StakingKeeper => 6 | MintKeeper => 7
    | DistrKeeper => 8 | SlashingKeeper => 9 | UpgradeKeeper => 10 | StakingHooks => 11
    | IBCKeeper => 12 | ICAHostKeeper => 13 | ICAControllerKeeper => 14 | EvidenceKeeper => 15
    | OracleKeeper => 16 | MarketKeeper => 17 | TreasuryKeeper => 18 | MFAKeeper => 19
    | DODxStakingKeeper => 20 | IBCHooksKeeper => 21 | Ics20WasmHooks => 22 | IBCHooksWrapper => 23
    | TransferKeeper => 24 | WasmKeeper => 25 | WasmHooksContract => 26 | GovKeeper => 27
    | DyncommKeeper => 28 | IBCRouter => 29 end%nat)
    (fun n => match n with
    | 0 => ParamsKeeper_ | 1 => ConsensusParamsKeeper | 2 => AccountKeeper | 3 => BankKeeper
    | 4 => AuthzKeeper | 5 => FeeGrantKeeper | 6 => StakingKeeper | 7 => MintKeeper
    | 8 => DistrKeeper | 9 => SlashingKeeper | 10 => UpgradeKeeper | 11 => StakingHooks
    | 12 => IBCKeeper | 13 => ICAHostKeeper | 14 => ICAControllerKeeper | 15 => EvidenceKeeper
    | 16 => OracleKeeper | 17 => MarketKeeper | 18 => TreasuryKeeper | 19 => MFAKeeper
    | 20 => DODxStakingKeeper | 21 => IBCHooksKeeper | 22 => Ics20WasmHooks | 23 => IBCHooksWrapper
    | 24 => TransferKeeper | 25 => WasmKeeper | 26 => WasmHooksContract | 27 => GovKeeper
    | 28 => DyncommKeeper | _ => IBCRouter end%nat) _); by intros [].
Defined.

Record Build : Type := mkBuild { built : Field; stores : list string; values : list Field; pointers : list Field }.

(** Lines 173 to 266: the keepers of the SDK.  [StakingHooks] is the call of
    [SetHooks] on the staking keeper. *)
Definition sdk_keepers : list Build := [
  mkBuild ParamsKeeper_ [names.params] [] [];
  mkBuild ConsensusParamsKeeper [names.consensus] [] [];
  mkBuild AccountKeeper ["acc"] [] [];
  mkBuild BankKeeper [names.bank] [AccountKeeper] [];
  mkBuild AuthzKeeper [names.authz] [AccountKeeper] [];
  mkBuild FeeGrantKeeper [names.feegrant] [AccountKeeper] [];
  mkBuild StakingKeeper [names.staking] [AccountKeeper; BankKeeper] [];
  mkBuild MintKeeper [names.mint] [StakingKeeper; AccountKeeper; BankKeeper] [];
  mkBuild DistrKeeper [names.distribution] [AccountKeeper; BankKeeper; StakingKeeper] [];
  mkBuild SlashingKeeper [names.slashing] [StakingKeeper] [];
  mkBuild UpgradeKeeper [names.upgrade] [] [];
  mkBuild StakingHooks [] [StakingKeeper; DistrKeeper; SlashingKeeper] []].

(** Lines 268 to 317: IBC, interchain accounts, evidence. *)
Definition ibc_keepers : list Build := [
  mkBuild IBCKeeper [names.ibc] [ParamsKeeper_; UpgradeKeeper] [];
  mkBuild ICAHostKeeper [names.icahost] [ParamsKeeper_; IBCHooksWrapper; IBCKeeper; AccountKeeper] [];
  mkBuild ICAControllerKeeper [names.icacontroller] [ParamsKeeper_; IBCHooksWrapper; IBCKeeper] [];
  mkBuild EvidenceKeeper [names.evidence] [StakingKeeper; SlashingKeeper; AccountKeeper] []].

(** Lines 319 to 378: the modules of the chain, IBC hooks and transfers. *)
Definition chain_keepers : list Build := [
  mkBuild OracleKeeper [names.oracle] [ParamsKeeper_; AccountKeeper; BankKeeper; DistrKeeper; StakingKeeper] [];
  mkBuild MarketKeeper [names.market] [ParamsKeeper_; AccountKeeper; BankKeeper; OracleKeeper] [];
  mkBuild TreasuryKeeper [names.treasury]
    [ParamsKeeper_; AccountKeeper; BankKeeper; MarketKeeper; OracleKeeper; StakingKeeper; DistrKeeper] [WasmKeeper];
  mkBuild MFAKeeper [names.mfa] [] [];
  mkBuild DODxStakingKeeper [names.dodxstaking] [AccountKeeper; BankKeeper] [];
  mkBuild IBCHooksKeeper ["hooks-for-ibc"] [] [];
  mkBuild Ics20WasmHooks [] [IBCHooksKeeper] [];
  mkBuild IBCHooksWrapper [] [IBCKeeper; Ics20WasmHooks] [];
  mkBuild TransferKeeper [names.transfer]
    [ParamsKeeper_; IBCHooksWrapper; IBCKeeper; AccountKeeper; BankKeeper] []].

(** Lines 380 to 490: contracts, governance, the commission policy and the
    router of IBC packets.  [WasmHooksContract] is the assignment of the
    contract keeper to the hooks. *)
Definition wasm_keepers : list Build := [
  mkBuild WasmKeeper [names.wasm]
    [IBCHooksWrapper; IBCKeeper; BankKeeper; TreasuryKeeper; AccountKeeper; TransferKeeper;
     StakingKeeper; DistrKeeper] [MarketKeeper; OracleKeeper; TreasuryKeeper];
  mkBuild WasmHooksContract [] [Ics20WasmHooks] [WasmKeeper];
  mkBuild GovKeeper [names.gov]
    [ParamsKeeper_; TreasuryKeeper; AccountKeeper; BankKeeper; StakingKeeper; DistrKeeper]
    [StakingKeeper; DODxStakingKeeper; AccountKeeper];
  mkBuild DyncommKeeper [names.dyncomm] [ParamsKeeper_; StakingKeeper] [];
  mkBuild IBCRouter []
    [TransferKeeper; IBCHooksWrapper; ICAControllerKeeper; ICAHostKeeper; WasmKeeper; IBCKeeper] []].

Definition NewAppKeepers : list Build := sdk_keepers ++ ibc_keepers ++ chain_keepers ++ wasm_keepers.

(** The reads of a field that has not been assigned yet: they see the zero
    value. *)
Fixpoint unset_reads (set_ : gset Field) (l : list Build) : list (Field * Field) :=
  match l with
  | [] => []
  | b :: l => map (pair (built b)) (List.filter (fun f => negb (bool_decide (f ∈ set_))) (values b))
              ++ unset_reads ({[built b]} ∪ set_) l
  end.

(** ** app/keepers/routers.go *)
Definition newGovRouter : list string := [names.gov; names.params; Treasury.RouterKey].
Definition newIBCRouter : list (string * list Field) := [
  (names.transfer, [IBCHooksWrapper; TransferKeeper]);
  (names.wasm, [WasmKeeper; IBCKeeper; TransferKeeper; IBCHooksWrapper]);
  (names.icacontroller, [ICAControllerKeeper]);
  (names.icahost, [ICAHostKeeper])].

(** ** x/*/module.go: what [RegisterServices] registers

    The services of messages and of queries, and the versions that have a
    migration. *)
Record Services : Type := mkServices { MsgServer : list string; QueryServer : list string; Migrations : list Z }.

Definition oracle_RegisterServices : Services :=
  mkServices ["do.oracle.v1beta1.Msg"] ["do.oracle.v1beta1.Query"] [].
Definition market_RegisterServices : Services :=
  mkServices ["do.market.v1beta1.Msg"] ["do.market.v1beta1.Query"] [].
Definition treasury_RegisterServices : Services := mkServices [] [] [1; 2].
Definition dodxstaking_RegisterServices : Services :=
  mkServices ["do.dodxstaking.v1beta1.Msg"] ["do.dodxstaking.v1beta1.Query"] [].
Definition dyncomm_RegisterServices : Services := mkServices [] [] [].
Definition mfa_RegisterServices : Services := mkServices [] [] [].
Definition staking_RegisterServices : Services :=
  mkServices ["cosmos.staking.v1beta1.Msg"] ["cosmos.staking.v1beta1.Query"] [1; 2; 3; 4].

(** The services of the modules of other packages are a parameter. *)
Definition RegisterServices (foreign : string -> Services) (name : string) : Services :=
  if String.eqb name names.oracle then oracle_RegisterServices
  else if String.eqb name names.market then market_RegisterServices
  else if String.eqb name names.treasury then treasury_RegisterServices
  else if String.eqb name names.dodxstaking then dodxstaking_RegisterServices
  else if String.eqb name names.dyncomm then dyncomm_RegisterServices
  else if String.eqb name names.mfa then mfa_RegisterServices
  else if String.eqb name names.staking then staking_RegisterServices
  else foreign name.

Definition registered (foreign : string -> Services) (f : Services -> list string) : list string :=
  concat (map (fun name => f (RegisterServices foreign name)) appModules).

(** ** app/app.go: the module manager

    [mm_run] runs one phase of the chain's life: the handlers of the
    registered modules, in the order that was set; names in the order that no
    registered module has are passed over. *)
Inductive phase : Type := PreBlock | BeginBlock | EndBlock | InitGenesis.

Definition order (ph : phase) : list string :=
  match ph with
  | PreBlock => orderPreBlockers
  | BeginBlock => orderBeginBlockers
  | EndBlock => orderEndBlockers
  | InitGenesis => orderInitGenesis
  end.

Class Manager (S : Type) : Type :=
  mm_run : phase -> list string -> list string -> (string -> M S unit) -> M S unit.

Definition managed (registered names : list string) : list string :=
  filter (fun n => n ∈ registered) names.

Class ManagerLaws (S : Type) `{Manager S} : Prop := {
  mm_run_ok ph registered names f s u s' : mm_run ph registered names f s = (Ok u, s') ->
    forM f (managed registered names) s = (Ok tt, s');
}.

(** What runs in a phase. *)
Definition scheduled (ph : phase) : list string := managed appModules (order ph).

Definition run_phase {S} `{Manager S} (ph : phase) (f : string -> M S unit) : M S unit :=
  mm_run ph appModules (order ph) f.

(** ** The bank as the application configures it *)
Definition permitted (name : string) (p : Permission) : bool :=
  match maccPerms !! name with Some ps => bool_decide (p ∈ ps) | None => false end.

Definition bank_blocked {B} `{BankOps B} `{AddrCodec} : gmap string bool :=
  BlacklistedAccAddrs (fun n => AccAddressString (ModuleAddress n)) maccPerms allowedReceivingModAcc.

(** The bank keeper was given the permissions and the blocked addresses: it
    has an account for each name of [maccPerms] with an address of its own
    whose text can be read back, refuses payments to blocked
    addresses, panics when an account mints or burns without the permission,
    and otherwise burns what the account holds. *)
Class WiredBank (B : Type) `{BankOps B} `{CoinOps} `{AddrCodec} : Prop := {
  account_of n : HasModuleAccount n = bool_decide (is_Some (maccPerms !! n));
  blocked_of a : BlockedAddr a = default false (bank_blocked !! AccAddressString a);
  module_address_inj n n' : ModuleAddress n = ModuleAddress n' -> n = n';
  address_text n : AccAddressFromBech32 (AccAddressString (ModuleAddress n)) = Ok (ModuleAddress n);
  mint_refused n cs b : permitted n Minter = false -> MintCoins n cs b = Panic;
  burn_refused n cs b : permitted n Burner = false -> BurnCoins n cs b = Panic;
  balances_valid b a : CoinsIsValid (GetAllBalances b a) = true;
  burn_held n cs b : permitted n Burner = true -> CoinsIsValid cs = true ->
    (forall d, AmountOf cs d <= GetBalance b (ModuleAddress n) d) -> is_ok (BurnCoins n cs b) = true;
}.

Lemma address_of {B} `{WiredBank B} n n' :
  AccAddressString (ModuleAddress n) = AccAddressString (ModuleAddress n') -> n = n'.
Proof.
  intros E. apply module_address_inj. pose proof (address_text n) as E1. rewrite E, address_text in E1. congruence.
Qed.

(** ** The orders *)
Lemma elem_of_managed n reg l : n ∈ managed reg l <-> n ∈ reg /\ n ∈ l.
Proof. unfold managed. by rewrite list_elem_of_filter. Qed.

Lemma scheduled_nodup ph : NoDup (scheduled ph).
Proof. apply NoDup_filter. apply (bool_decide_unpack _). by destruct ph; vm_compute. Qed.

Lemma elem_of_scheduled n ph : n ∈ scheduled ph <-> n ∈ appModules /\ n ∈ order ph.
Proof. apply elem_of_managed. Qed.

Lemma market_not_scheduled ph : names.market ∉ scheduled ph.
Proof. rewrite elem_of_scheduled. intros [H _]. revert H. by apply (bool_decide_unpack _). Qed.

Lemma run_phase_ok {S} `{ManagerLaws S} ph (f : string -> M S unit) s u s' :
  run_phase ph f s = (Ok u, s') -> forM f (scheduled ph) s = (Ok tt, s').
Proof. unfold run_phase, scheduled. apply mm_run_ok. Qed.

(** [a] comes before [b]. *)
Definition before (l : list string) (a b : string) : Prop :=
  exists l1 l2 l3, l = l1 ++ a :: l2 ++ b :: l3.

Fixpoint beforeb (l : list string) (a b : string) : bool :=
  match l with
  | [] => false
  | x :: l => (String.eqb x a && bool_decide (b ∈ l)) || beforeb l a b
  end.

Lemma beforeb_sound l a b : beforeb l a b = true -> before l a b.
Proof.
  induction l as [|x l IH]; simpl; [done|]. intros [H|H]%orb_true_iff.
  - apply andb_true_iff in H as [->%String.eqb_eq (l2 & l3 & ->)%bool_decide_eq_true%list_elem_of_split].
    by exists [], l2, l3.
  - destruct (IH H) as (l1 & l2 & l3 & ->). by exists (x :: l1), l2, l3.
Qed.

(** The dependencies between modules that the comments of [NewDoApp] and
    [orderInitGenesis] state: slashing after distribution at the beginning of
    a block; accounts and balances before the staking pools, those before the
    transactions of the genesis, and the supply before the treasury. *)
Definition dependencies : list (phase * string * string) :=
  [(PreBlock, names.upgrade, names.auth);
   (BeginBlock, names.distribution, names.slashing);
   (BeginBlock, names.mint, names.distribution);
   (EndBlock, names.gov, names.staking);
   (EndBlock, names.oracle, names.treasury);
   (InitGenesis, names.auth, names.genutil);
   (InitGenesis, names.bank, names.staking);
   (InitGenesis, names.distribution, names.genutil);
   (InitGenesis, names.staking, names.genutil);
   (InitGenesis, names.bank, names.treasury);
   (InitGenesis, names.oracle, names.treasury);
   (InitGenesis, names.bank, names.dodxstaking);
   (InitGenesis, names.staking, names.dyncomm)].

(** no phase runs a module twice; the begin blockers leave out the
    upgrade module only, which runs before them; the end blockers and the
    genesis leave out no registered module; and whenever one module depends
    on another, the other one runs first. *)
Theorem module_orders_sound :
  (forall ph, NoDup (scheduled ph)) /\
  (forall m, m ∈ appModules ->
     m ∈ scheduled EndBlock /\ m ∈ scheduled InitGenesis /\
     (m ∈ scheduled BeginBlock <-> m <> names.upgrade) /\
     (m = names.upgrade -> m ∈ scheduled PreBlock)) /\
  (forall ph a b, (ph, a, b) ∈ dependencies -> before (scheduled ph) a b).
Proof.
  split_and!.
  - apply scheduled_nodup.
  - assert (Forall (fun m => m ∈ scheduled EndBlock /\ m ∈ scheduled InitGenesis /\
      ((m ∈ scheduled BeginBlock -> m <> names.upgrade) /\ (m <> names.upgrade -> m ∈ scheduled BeginBlock)) /\
      (m = names.upgrade -> m ∈ scheduled PreBlock)) appModules) as H
      by (apply (bool_decide_unpack _); by vm_compute).
    rewrite Forall_forall in H. intros m Hm. destruct (H m Hm) as (? & ? & [? ?] & ?). done.
  - assert (Forall (fun d => beforeb (scheduled d.1.1) d.1.2 d.2 = true) dependencies) as H
      by (apply (bool_decide_unpack _); by vm_compute).
    rewrite Forall_forall in H. intros ph a b Hd. apply beforeb_sound. apply (H _ Hd).
Qed.

(** ** Accounts of modules *)
Section accounts.
Context (addr : string -> string) `{!Inj (=) (=) addr}.

Lemma foldr_insert_lookup {V} (f : string -> V) (l : list string) :
  (forall n, foldr (fun n m => <[addr n := f n]> m) (∅ : gmap string V) l !! addr n =
     if bool_decide (n ∈ l) then Some (f n) else None) /\
  (forall a, (forall n, n ∈ l -> addr n <> a) ->
     foldr (fun n m => <[addr n := f n]> m) (∅ : gmap string V) l !! a = None).
Proof.
  induction l as [|x l [IH1 IH2]]; simpl; [split; intros; by rewrite lookup_empty|]. split.
  - intros n. destruct (decide (n = x)) as [->|Hn].
    + rewrite lookup_insert, decide_True by done. rewrite bool_decide_true by set_solver. done.
    + rewrite lookup_insert_ne by (intros E; apply Hn; by apply (inj addr)).
      rewrite IH1. case_bool_decide; case_bool_decide; set_solver.
  - intros a Ha. rewrite lookup_insert_ne by (apply Ha; set_solver). apply IH2. set_solver.
Qed.

Lemma perms_keys n : n ∈ (kv_iter maccPerms).*1 <-> is_Some (maccPerms !! n).
Proof.
  rewrite list_elem_of_fmap. split.
  - intros ([k v] & -> & H%elem_of_kv_iter). simpl. eauto.
  - intros [v H]. exists (n, v). split; [done|]. by apply elem_of_kv_iter.
Qed.

Lemma blacklist_lookup n : BlacklistedAccAddrs addr maccPerms allowedReceivingModAcc !! addr n =
  if bool_decide (is_Some (maccPerms !! n))
  then Some (negb (default false (allowedReceivingModAcc !! n))) else None.
Proof.
  unfold BlacklistedAccAddrs. rewrite (proj1 (foldr_insert_lookup _ _)).
  case_bool_decide as H1; case_bool_decide as H2; try done; by rewrite perms_keys in H1.
Qed.

Lemma allowed_lookup n : default false (allowedReceivingModAcc !! n) =
  bool_decide (n ∈ [names.oracle; Treasury.BurnModuleName; buybackLiquidityPoolName]).
Proof.
  unfold allowedReceivingModAcc. simpl.
  destruct (decide (n = names.oracle)) as [->|H1]; [done|].
  destruct (decide (n = Treasury.BurnModuleName)) as [->|H2]; [done|].
  destruct (decide (n = buybackLiquidityPoolName)) as [->|H3]; [done|].
  rewrite !lookup_insert_ne, lookup_empty by congruence. simpl. symmetry. apply bool_decide_false. set_solver.
Qed.

(** exactly the accounts of modules are listed, and of these exactly the
    oracle's, the burn account and the buyback pool may receive coins. *)
Theorem module_accounts_closed :
  (forall n, is_Some (maccPerms !! n) ->
     BlacklistedAccAddrs addr maccPerms allowedReceivingModAcc !! addr n =
       Some (bool_decide (n ∉ [names.oracle; Treasury.BurnModuleName; buybackLiquidityPoolName])) /\
     ModuleAccountAddrs addr maccPerms !! addr n = Some true) /\
  (forall a, (forall n, is_Some (maccPerms !! n) -> addr n <> a) ->
     BlacklistedAccAddrs addr maccPerms allowedReceivingModAcc !! a = None /\
     ModuleAccountAddrs addr maccPerms !! a = None).
Proof.
  split.
  - intros n Hn. split.
    + rewrite blacklist_lookup, bool_decide_true, allowed_lookup by done. by rewrite bool_decide_not.
    + unfold ModuleAccountAddrs. rewrite (proj1 (foldr_insert_lookup (fun _ => true) _)).
      by rewrite bool_decide_true by (by apply perms_keys).
  - intros a Ha. split; apply foldr_insert_lookup; intros n Hn%perms_keys; by apply Ha.
Qed.
End accounts.

(** ** What the permissions allow *)
Definition holders (p : Permission) : list string :=
  match p with
  | Minter => [names.mint; names.market; names.treasury; names.transfer]
  | Burner => [Treasury.BurnModuleName; names.market; names.treasury; BondedPoolName;
               NotBondedPoolName; names.gov; names.transfer; names.wasm]
  | Staking => [BondedPoolName; NotBondedPoolName]
  end.

Lemma permitted_holders n p : permitted n p = true <-> n ∈ holders p.
Proof.
  unfold permitted. split.
  - destruct (maccPerms !! n) as [ps|] eqn:E; [|done]. intros Hp%bool_decide_eq_true.
    assert (Forall (fun np => Forall (fun q => np.1 ∈ holders q) np.2) (map_to_list maccPerms)) as Hall
      by (apply (bool_decide_unpack _); by vm_compute).
    rewrite Forall_forall in Hall. apply elem_of_map_to_list in E. apply Hall in E.
    rewrite Forall_forall in E. by apply E.
  - assert (Forall (fun q => Forall (fun n => permitted n q = true) (holders q))
      [Minter; Burner; Staking]) as Hall by (apply (bool_decide_unpack _); by vm_compute).
    rewrite Forall_forall in Hall. specialize (Hall p). rewrite Forall_forall in Hall.
    apply Hall. destruct p; set_solver.
Qed.

Section bank.
Context {B K D O : Type} `{BankOps B} `{CoinOps} `{MathOps} `{AddrCodec} `{!BankLaws B} `{!CoinLaws} `{!WiredBank B}.
Context `{StakingOps K} `{FeePoolOps D} `{Treasury.TreasuryKeepers O} `{DecCoinsOps} `{CoinSortOps}.
Implicit Types s : Treasury.State B K D O.

Lemma burn_runs s : exists b, Treasury.BurnCoinsFromBurnAccount s = (Ok tt, Treasury.on_bank (fun _ => b) s).
Proof.
  unfold Treasury.BurnCoinsFromBurnAccount. rewrite (M_bind_run _ _ _ _ _ (eq_refl : get s = (Ok s, s))).
  destruct (negb _).
  - unfold Treasury.or_panic, Treasury.treasury_bank, call_on.
    pose proof (burn_held Treasury.BurnModuleName
      (GetAllBalances (Treasury.st_bank s) (ModuleAddress Treasury.BurnModuleName)) (Treasury.st_bank s)) as Hb.
    destruct (is_ok_ex _ (Hb eq_refl (balances_valid _ _) ltac:(intros d; by rewrite GetAllBalances_amount)))
      as [b Eb].
    rewrite Eb. by exists b.
  - exists (Treasury.st_bank s). by destruct s.
Qed.

Lemma burnt_empty s s' : Treasury.burnt s s' ->
  forall d, GetBalance (Treasury.st_bank s') (ModuleAddress Treasury.BurnModuleName) d = 0.
Proof.
  intros (b & -> & [E|[Hz ->]]) d; simpl.
  - apply Burn_inv in E as [[Hb _] _]. rewrite Hb, GetAllBalances_amount. unfold at_addr.
    rewrite String.eqb_refl. lia.
  - rewrite <- GetAllBalances_amount. by apply CoinsIsZero_amount.
Qed.

(** with the accounts as the application sets them up, the end of a
    block of the treasury always succeeds on a block that ends no epoch, and
    leaves nothing on the burn account. *)
Theorem burn_never_halts ctx s : IsPeriodLastBlock ctx BlocksPerWeek = Ok false ->
  exists b, Treasury.EndBlocker ctx s = (Ok tt, Treasury.on_bank (fun _ => b) s) /\
    forall d, GetBalance b (ModuleAddress Treasury.BurnModuleName) d = 0.
Proof.
  intros Hl. destruct (burn_runs s) as [b Eb]. exists b. unfold Treasury.EndBlocker.
  rewrite (M_bind_run _ _ _ _ _ Eb), Hl. split; [done|].
  apply (burnt_empty _ _ (Treasury.BurnCoinsFromBurnAccount_ok _ _ _ Eb)).
Qed.

(** coins come into being only through the accounts of the mint module,
    the market, the treasury and IBC transfers, and disappear only through
    eight accounts: no other account can be the target of a successful mint
    or the source of a successful burn. *)
Theorem supply_changes_need_permission n cs (b b' : B) :
  (MintCoins n cs b = Ok b' -> n ∈ [names.mint; names.market; names.treasury; names.transfer]) /\
  (BurnCoins n cs b = Ok b' ->
     n ∈ [Treasury.BurnModuleName; names.market; names.treasury; BondedPoolName; NotBondedPoolName;
          names.gov; names.transfer; names.wasm]) /\
  (n = names.dodxstaking -> MintCoins n cs b = Panic /\ BurnCoins n cs b = Panic).
Proof.
  split_and!.
  - intros E. apply (permitted_holders n Minter). destruct (permitted n Minter) eqn:Hp; [done|].
    by rewrite mint_refused in E.
  - intros E. apply (permitted_holders n Burner). destruct (permitted n Burner) eqn:Hp; [done|].
    by rewrite burn_refused in E.
  - intros ->. by split; [apply mint_refused|apply burn_refused].
Qed.
End bank.

(** ** The construction of the keepers *)
Section keepers.
Context {P : Type} `{ParamsKeeper P} `{!ParamsKeeperLaws P}.
Implicit Types p : P.

(** The spaces of a keeper are those of a map. *)
Definition spaces p (m : gmap string bool) : Prop := forall n, space p n = m !! n.

Lemma spaces_insert p p' m n b : spaces p m ->
  (forall x, space p' x = if String.eqb x n then Some b else space p x) -> spaces p' (<[n := b]> m).
Proof.
  intros Hm Hp x. rewrite Hp. destruct (String.eqb_spec x n) as [->|Hn].
  - by rewrite lookup_insert, decide_True.
  - by rewrite lookup_insert_ne.
Qed.

Lemma subspace_run p m n : spaces p m -> m !! n = None -> n <> "" ->
  exists p', Subspace n p = (Ok tt, p') /\ spaces p' (<[n := false]> m).
Proof.
  intros Hm Hn Hne. destruct (Subspace_new p n) as (p' & E & Hp); [by rewrite Hm|done|].
  exists p'. split; [done|]. by eapply spaces_insert.
Qed.

Lemma table_run p m n : spaces p m -> m !! n = Some false ->
  exists p', WithKeyTable n p = (Ok tt, p') /\ spaces p' (<[n := true]> m).
Proof.
  intros Hm Hn. destruct (WithKeyTable_first p n) as (p' & E & Hp); [by rewrite Hm|].
  exists p'. split; [done|]. by eapply spaces_insert.
Qed.

Definition runs_to (m : M P unit) (s s' : gmap string bool) : Prop :=
  forall p, spaces p s -> exists p', m p = (Ok tt, p') /\ spaces p' s'.

Lemma runs_seq (m1 m2 : M P unit) s1 s2 s3 : runs_to m1 s1 s2 -> runs_to m2 s2 s3 ->
  runs_to (m1 ;; m2) s1 s3.
Proof.
  intros H1 H2 p Hp. destruct (H1 p Hp) as (p1 & E1 & Hp1). destruct (H2 p1 Hp1) as (p2 & E2 & Hp2).
  exists p2. split; [|done]. by rewrite (M_bind_run _ _ _ _ _ E1).
Qed.

Lemma runs_with_table n s : s !! n = None -> n <> "" -> runs_to (with_table n) s (<[n := true]> s).
Proof.
  intros Hn Hne p Hp. destruct (subspace_run p s n) as (p1 & E1 & Hp1); [done..|].
  destruct (table_run p1 _ n Hp1) as (p2 & E2 & Hp2); [by rewrite lookup_insert, decide_True|].
  exists p2. unfold with_table. rewrite (M_bind_run _ _ _ _ _ E1). split; [done|].
  by rewrite insert_insert_eq in Hp2.
Qed.

Lemma runs_table_set n s : s !! n = Some false -> runs_to (table_set n) s (<[n := true]> s).
Proof.
  intros Hn p Hp. destruct (table_run p s n Hp Hn) as (p2 & E2 & Hp2). exists p2.
  unfold table_set, HasKeyTable. rewrite (M_bind_run _ _ p false p); [done|].
  unfold gets. by rewrite Hp, Hn.
Qed.

Lemma runs_guarded n s : s !! n = None -> n <> "" -> runs_to (guarded_table n) s (<[n := true]> s).
Proof.
  intros Hn Hne p Hp. destruct (subspace_run p s n) as (p1 & E1 & Hp1); [done..|].
  destruct (runs_table_set n _ (ltac:(by rewrite lookup_insert, decide_True) : <[n := false]> s !! n = _) p1 Hp1)
    as (p2 & E2 & Hp2).
  exists p2. unfold guarded_table. rewrite (M_bind_run _ _ _ _ _ E1). split; [done|].
  by rewrite insert_insert_eq in Hp2.
Qed.

Lemma runs_nil {A} (f : A -> M P unit) s : runs_to (forM f []) s s.
Proof. intros p Hp. by exists p. Qed.

Lemma runs_cons {A} (f : A -> M P unit) x l s1 s2 s3 :
  runs_to (f x) s1 s2 -> runs_to (forM f l) s2 s3 -> runs_to (forM f (x :: l)) s1 s3.
Proof. apply runs_seq. Qed.

Lemma runs_subspace n s : s !! n = None -> n <> "" -> runs_to (Subspace n) s (<[n := false]> s).
Proof. intros Hn Hne p Hp. by apply subspace_run. Qed.

Lemma runs_account n s : is_Some (maccPerms !! n) -> runs_to (account_set n) s s.
Proof. intros [v E] p Hp. exists p. unfold account_set. by rewrite E. Qed.

(** The subspaces when all keepers of the chain are there. *)
Definition final_spaces : gmap string bool := list_to_map (map (fun n => (n, true))
  [names.auth; names.bank; names.staking; names.distribution; names.slashing; names.gov;
   names.transfer; names.ibc; names.icahost; names.icacontroller;
   names.market; names.oracle; names.treasury; names.dyncomm] ++ [(names.wasm, false)]).

Ltac runs :=
  repeat lazymatch goal with
  | |- runs_to (forM _ []) _ _ => apply runs_nil
  | |- runs_to (forM _ _) _ _ => eapply runs_cons
  | |- runs_to (with_table _) _ _ => apply runs_with_table; [reflexivity|done]
  | |- runs_to (guarded_table _) _ _ => apply runs_guarded; [reflexivity|done]
  | |- runs_to (Subspace _) _ _ => apply runs_subspace; [reflexivity|done]
  | |- runs_to (table_set _) _ _ => apply runs_table_set; reflexivity
  | |- runs_to (account_set _) _ _ => apply runs_account; by eexists
  | |- _ => eapply runs_seq
  end.

(** the application starts: from an empty parameter keeper every
    subspace is registered once, no constructor of the chain's keepers
    panics, each of their subspaces has its table of keys afterwards, and no
    table is registered twice. *)
Theorem keepers_start p : (forall n, space p n = None) ->
  exists p', (initParamsKeeper ;; NewOracleKeeper ;; NewMarketKeeper ;; NewTreasuryKeeper ;;
              NewDodxStakingKeeper ;; NewDyncommKeeper) p = (Ok tt, p') /\
    forall n, space p' n = final_spaces !! n.
Proof.
  intros Hp. assert (exists s, runs_to (initParamsKeeper ;; NewOracleKeeper ;; NewMarketKeeper ;;
    NewTreasuryKeeper ;; NewDodxStakingKeeper ;; NewDyncommKeeper) ∅ s /\ s = final_spaces)
    as (s & Hr & ->).
  { eexists. split; [|].
    - unfold initParamsKeeper, NewOracleKeeper, NewMarketKeeper, NewTreasuryKeeper,
        NewDodxStakingKeeper, NewDyncommKeeper. runs.
    - apply (bool_decide_unpack _). vm_compute. exact I. }
  apply Hr. intros n. by rewrite Hp, lookup_empty.
Qed.
End keepers.

(** ** The order of construction *)
Lemma unset_reads_of : unset_reads ∅ NewAppKeepers =
  [(ICAHostKeeper, IBCHooksWrapper); (ICAControllerKeeper, IBCHooksWrapper)].
Proof. by vm_compute. Qed.

(** every field is assigned once, every store is used by at most one
    keeper and is mounted, what a keeper keeps a pointer to is assigned in
    the end, and every keeper is built from keepers that are there, except
    the two of interchain accounts: they take the packet wrapper of IBC hooks
    before it is assigned, and keep the nil pointer. *)
Theorem keepers_built_in_order :
  NoDup (map built NewAppKeepers) /\
  NoDup (concat (map stores NewAppKeepers)) /\
  (forall k, k ∈ concat (map stores NewAppKeepers) -> GetKey k = Some k) /\
  (forall k, k ∈ keys -> k ∈ concat (map stores NewAppKeepers)) /\
  (forall b f, b ∈ NewAppKeepers -> f ∈ pointers b -> f ∈ map built NewAppKeepers) /\
  (forall f g, (f, g) ∈ unset_reads ∅ NewAppKeepers <->
     g = IBCHooksWrapper /\ (f = ICAHostKeeper \/ f = ICAControllerKeeper)).
Proof.
  split_and!.
  - apply (bool_decide_unpack _). by vm_compute.
  - apply (bool_decide_unpack _). by vm_compute.
  - apply Forall_forall. apply (bool_decide_unpack _). by vm_compute.
  - apply Forall_forall. apply (bool_decide_unpack _). by vm_compute.
  - assert (Forall (fun b => Forall (fun f => f ∈ map built NewAppKeepers) (pointers b)) NewAppKeepers) as Hall
      by (apply (bool_decide_unpack _); by vm_compute).
    rewrite Forall_forall in Hall. intros b f Hb. specialize (Hall b Hb). rewrite Forall_forall in Hall. apply Hall.
  - intros f g. rewrite unset_reads_of, !elem_of_cons, elem_of_nil. split.
    + intros [[= -> ->]|[[= -> ->]|[]]]; auto.
    + intros [-> [->| ->]]; auto.
Qed.

(** ** The services *)
Section services.
Context (foreign : string -> Services).

Lemma elem_of_registered (f : Services -> list string) x :
  x ∈ registered foreign f <-> exists m, m ∈ appModules /\ x ∈ f (RegisterServices foreign m).
Proof.
  unfold registered. rewrite list_elem_of_In, in_concat. split.
  - intros (l & (m & <- & Hm)%in_map_iff & Hx). exists m. by rewrite !list_elem_of_In.
  - intros (m & Hm & Hx). exists (f (RegisterServices foreign m)). rewrite list_elem_of_In in Hx.
    split; [|done]. apply in_map_iff. exists m. by rewrite <- list_elem_of_In.
Qed.

(** Modules of other packages do not serve under the names of this chain. *)
Definition own_names : list string :=
  ["do.market.v1beta1.Msg"; "do.market.v1beta1.Query"; "do.treasury.v1beta1.Query";
   "do.oracle.v1beta1.Query"; "do.oracle.v1beta1.Msg"; "do.dodxstaking.v1beta1.Msg"].
Definition foreign_apart : Prop := forall m x, x ∈ own_names ->
  x ∉ MsgServer (foreign m) /\ x ∉ QueryServer (foreign m).

Lemma not_registered (f : Services -> list string) x :
  (forall m, x ∉ f (foreign m)) ->
  Forall (fun s => x ∉ f s) [oracle_RegisterServices; treasury_RegisterServices;
    dodxstaking_RegisterServices; dyncomm_RegisterServices; mfa_RegisterServices; staking_RegisterServices] ->
  x ∉ registered foreign f.
Proof.
  intros Hf Hall. rewrite elem_of_registered. intros (m & Hm & Hx). rewrite Forall_forall in Hall.
  destruct (decide (m = names.market)) as [->|Hne].
  { revert Hm. by apply (bool_decide_unpack _). }
  unfold RegisterServices in Hx. apply String.eqb_neq in Hne. rewrite Hne in Hx.
  repeat lazymatch type of Hx with
  | context [if String.eqb m ?n then _ else _] =>
      destruct (String.eqb m n); [by eapply Hall; [|exact Hx]; rewrite !elem_of_cons; auto 10|]
  end.
  by eapply Hf.
Qed.

Context {Bytes Obj Json : Type} `{!Stargate.ProtoCodec Bytes Obj Json}.

(** The service part of a path: ["/service/Method"]. *)
Definition path_of (service method : string) : string := ("/" +:+ service +:+ "/" +:+ method)%string.

(** The query router has a handler only for the methods of a registered
    service. *)
Definition routes_registered : Prop := forall service method h,
  Stargate.route (Bytes := Bytes) (path_of service method) = Some h ->
  service ∈ registered foreign QueryServer.

(** nothing answers for the market or the treasury: the manager does
    not register the message service of the market, and of the four queries
    that contracts may ask only the oracle's has a handler; the other three
    are refused whatever the contract asks. *)
Theorem whitelisted_queries_unrouted data (os : Stargate.response -> Obj) :
  foreign_apart -> routes_registered ->
  "do.market.v1beta1.Msg" ∉ registered foreign MsgServer /\
  "do.oracle.v1beta1.Query" ∈ registered foreign QueryServer /\
  (forall path, path ∈ map fst Stargate.stargateWhitelist -> path <> "/do.oracle.v1beta1.Query/ExchangeRate" ->
     Stargate.StargateQuerier path data os = (Err Stargate.ErrUnsupported, os)).
Proof.
  intros Hap Hr.
  assert (forall x, x ∈ ["do.market.v1beta1.Query"; "do.treasury.v1beta1.Query"] ->
    x ∉ registered foreign QueryServer) as Hno.
  { intros x Hx. apply not_registered.
    - intros m. apply Hap. set_unfold in Hx. unfold own_names. set_solver.
    - set_unfold in Hx. destruct Hx as [->|[->|[]]]; apply (bool_decide_unpack _); by vm_compute. }
  assert (forall service method, service ∈ ["do.market.v1beta1.Query"; "do.treasury.v1beta1.Query"] ->
    Stargate.route (Bytes := Bytes) (path_of service method) = None) as Hnone.
  { intros sv me Hs. destruct (Stargate.route _) as [h|] eqn:E; [|done].
    by apply Hr, Hno in E. }
  split_and!.
  - apply not_registered; [intros m; apply Hap; unfold own_names; set_solver|].
    apply (bool_decide_unpack _). by vm_compute.
  - apply elem_of_registered. exists names.oracle.
    split; apply (bool_decide_unpack _); by vm_compute.
  - intros path Hp Hne. cbn in Hp. rewrite !elem_of_cons, elem_of_nil in Hp.
    assert (Stargate.route (Bytes := Bytes) path = None) as E.
    { destruct Hp as [->|[->|[->|[->|[]]]]]; [| | |done].
      - apply (Hnone "do.market.v1beta1.Query" "Swap"). set_solver.
      - apply (Hnone "do.treasury.v1beta1.Query" "TaxCap"). set_solver.
      - apply (Hnone "do.treasury.v1beta1.Query" "TaxRate"). set_solver. }
    unfold Stargate.StargateQuerier. destruct (Stargate.GetWhitelistedQuery path) eqn:Ew.
    + by rewrite (M_bind_run (lift (Ok _)) _ os _ os eq_refl), E.
    + exfalso. destruct Hp as [->|[->|[->|[->|[]]]]]; done.
    + exfalso. destruct Hp as [->|[->|[->|[->|[]]]]]; done.
Qed.
End services.

(** ** Examples: a bank of one denomination with the application's accounts,
    a parameter keeper and a module manager. *)
Module Example.

Record purse : Type := mkPurse { p_bal : string -> string -> Z; p_sup : string -> Z }.
Definition money : list string := ["udo"; "udodx"].
Definition led (p : purse) : ledger := mkLedger money (p_bal p) (p_sup p).
Definition unled (l : ledger) : purse := mkPurse (l_bal l) (l_sup l).

Definition all_money (cs : list Coin) : bool := forallb (fun c => bool_decide (Denom c ∈ money)) cs.

Definition addresses (n : string) : string := AccAddressString (module_addr n).
Definition blocked (a : string) : bool :=
  default false (BlacklistedAccAddrs addresses maccPerms allowedReceivingModAcc !! AccAddressString a).
Definition has (n : string) : bool := bool_decide (is_Some (maccPerms !! n)).

Definition with_permission (n : string) (q : Permission) (r : res purse) : res purse :=
  if permitted n q then r else Panic.
Definition transfer (from to : string) (cs : list Coin) (p : purse) : res purse :=
  l ← move from to cs (led p); Ok (unled l).

#[local] Instance wired_bank : BankOps purse := {|
  ModuleAddress := module_addr;
  HasModuleAccount := has;
  BlockedAddr := blocked;
  GetBalance p := bal (led p);
  GetSupply := p_sup;
  GetAllBalances p a := nonzero (map (fun d => mkCoin d (bal (led p) a d)) money);
  SendCoinsFromAccountToModule from n := transfer from (module_addr n);
  SendCoinsFromModuleToAccount n to cs p :=
    if blocked to then Err (SdkError "ErrUnauthorized") else transfer (module_addr n) to cs p;
  SendCoinsFromModuleToModule n n' := transfer (module_addr n) (module_addr n');
  MintCoins n cs p := with_permission n Minter
    (if coins_ok cs && all_money cs then Ok (unled (issue (module_addr n) 1 cs (led p)))
     else Err (SdkError "ErrInvalidCoins"));
  BurnCoins n cs p := with_permission n Burner
    (if coins_ok cs && covers (led p) (module_addr n) cs
     then Ok (unled (issue (module_addr n) (-1) cs (led p)))
     else Err (SdkError "ErrInsufficientFunds"));
|}.

Lemma module_addr_inj : Inj (=) (=) addresses.
Proof.
  intros n n' E. unfold addresses, module_addr in E. cbn [AccAddressString ref_addr] in E.
  by apply (inj (String.append "do1")), (inj (String.append "module:")) in E.
Qed.

Lemma transfer_moved from to cs p p' : transfer from to cs p = Ok p' -> moved from to cs p p'.
Proof.
  unfold transfer. intros E. res_inv E. rename v into l.
  pose proof (move_moved _ _ _ _ _ E0) as Hm. unfold move in E0. case_match; simplify_eq. exact Hm.
Qed.

Lemma transfer_runs from to cs p : coins_ok cs = true ->
  (forall d, AmountOf cs d <= GetBalance p from d) -> is_ok (transfer from to cs p) = true.
Proof.
  intros Hok Hc. unfold transfer. pose proof (move_ok from to cs (led p) Hok) as Hm.
  destruct (move from to cs (led p)); [done|..];
    discriminate Hm; intros d; rewrite <- coins_ok_amount by done; apply Hc.
Qed.

Lemma bal_issue to sgn cs p a d : all_money cs = true ->
  bal (led (unled (issue to sgn cs (led p)))) a d = bal (issue to sgn cs (led p)) a d.
Proof.
  intros Hu. unfold bal. simpl. rewrite (bool_decide_ext (d ∈ map Denom cs ++ money) (d ∈ money)); [done|].
  rewrite elem_of_app. split; [|tauto]. intros [Hd|Hd]; [|done].
  apply list_elem_of_fmap in Hd as (c & -> & Hc). apply list_elem_of_In in Hc.
  unfold all_money in Hu. rewrite forallb_forall in Hu. by apply Hu, bool_decide_eq_true in Hc.
Qed.

Lemma purse_issued to sgn cs p : coins_ok cs = true -> all_money cs = true ->
  (forall a d, 0 <= bal (led p) a d + sgn * at_addr to a (coins_sum cs d)) ->
  issued to sgn cs p (unled (issue to sgn cs (led p))).
Proof.
  intros Hok Hu Hn. destruct (issue_issued to sgn cs (led p) Hok Hn) as [Hb Hs]. split; [|exact Hs].
  intros a d. cbn [GetBalance wired_bank]. rewrite bal_issue by done. apply Hb.
Qed.

Lemma covers_money cs p a : coins_ok cs = true -> covers (led p) a cs = true -> all_money cs = true.
Proof.
  intros Hok Hc. rewrite covers_spec in Hc. apply forallb_forall. intros c Hin.
  apply list_elem_of_In in Hin. specialize (Hc (Denom c)).
  rewrite coins_sum_in in Hc by (done || by apply coins_ok_nodup).
  unfold coins_ok in Hok. apply andb_true_iff in Hok as [_ Hpos]. rewrite forallb_forall in Hpos.
  apply list_elem_of_In, Hpos, andb_true_iff in Hin as [_ Hp%Z.ltb_lt].
  unfold bal in Hc. case_bool_decide as Hd; [|lia]. by apply bool_decide_eq_true.
Qed.

#[local] Instance wired_bank_laws : BankLaws purse.
Proof.
  split; cbn -[transfer issue bal coins_ok covers nonzero permitted blocked]; unfold with_permission; intros.
  - apply bal_nonneg.
  - rewrite find_amount_sum, coins_sum_nonzero by (apply nonzero_nodup; apply (bool_decide_unpack _); by vm_compute).
    cbn [coins_sum map money Denom Amount]. destruct (String.eqb_spec "udo" d) as [<-|Hd]; [cbn; lia|].
    destruct (String.eqb_spec "udodx" d) as [<-|Hd']; [lia|].
    unfold bal. rewrite (bool_decide_eq_false_2 (d ∈ _)); [lia|]. cbn. set_solver.
  - by apply transfer_moved.
  - case_match; [done|]. by apply transfer_moved.
  - rewrite H1. by apply transfer_runs.
  - by apply transfer_moved.
  - by apply transfer_runs.
  - case_match; [|done]. case_match eqn:E; simplify_eq. apply andb_true_iff in E as [Hok Hu].
    apply purse_issued; [done..|]. intros a d. pose proof (bal_nonneg (led b) a d).
    pose proof (coins_sum_nonneg cs d Hok). unfold at_addr. case_match; lia.
  - case_match; [|done]. case_match eqn:E; simplify_eq. apply andb_true_iff in E as [Hok Hc].
    pose proof (covers_money _ _ _ Hok Hc) as Hu. rewrite covers_spec in Hc.
    split; [|intros d; by rewrite coins_ok_amount].
    apply purse_issued; [done..|]. intros a d. pose proof (bal_nonneg (led b) a d). specialize (Hc d).
    pose proof (coins_sum_nonneg cs d Hok). unfold at_addr.
    destruct (String.eqb_spec (module_addr m) a) as [<-|]; lia.
Qed.

#[local] Instance wired_bank_wired : WiredBank purse.
Proof.
  split; cbn -[transfer issue bal coins_ok covers nonzero permitted blocked]; unfold with_permission; intros.
  - done.
  - done.
  - by apply (inj (String.append "module:")) in H.
  - apply strip_print.
  - by rewrite H.
  - by rewrite H.
  - pose proof (bal_nonneg (led b) a "udo"). pose proof (bal_nonneg (led b) a "udodx").
    unfold nonzero. cbn [map money List.filter Amount].
    destruct (Z.eqb_spec (bal (led b) a "udo") 0), (Z.eqb_spec (bal (led b) a "udodx") 0); cbn [negb List.filter];
      unfold coins_ok; cbn [map forallb Denom Amount]; rewrite ?andb_true_iff, ?bool_decide_eq_true, ?Z.ltb_lt;
      split_and!; try done; try lia; apply (bool_decide_unpack _); by vm_compute.
  - rewrite H, H0. simpl. assert (covers (led b) (module_addr n) cs = true) as ->; [|done].
    apply covers_spec. intros d. rewrite <- coins_ok_amount by done. apply H1.
Qed.

(** A parameter keeper: the registered spaces and whether they have a table. *)
#[export] Instance map_params : ParamsKeeper (gmap string bool) := {|
  space p n := p !! n;
  Subspace n p := match p !! n with
    | Some _ => (Panic, p)
    | None => if String.eqb n "" then (Panic, p) else (Ok tt, <[n := false]> p)
    end;
  WithKeyTable n p := match p !! n with
    | Some false => (Ok tt, <[n := true]> p)
    | _ => (Panic, p)
    end;
|}.

Lemma insert_spec (p : gmap string bool) n b m :
  <[n := b]> p !! m = if String.eqb m n then Some b else p !! m.
Proof.
  destruct (String.eqb_spec m n) as [->|Hn]; [by rewrite lookup_insert, decide_True|].
  by rewrite lookup_insert_ne.
Qed.

#[export] Instance map_params_laws : ParamsKeeperLaws (gmap string bool).
Proof.
  split; cbn; intros p n H.
  - intros Hne. rewrite H. apply String.eqb_neq in Hne. rewrite Hne. eexists. split; [done|]. intros m. apply insert_spec.
  - by destruct (p !! n).
  - rewrite H. eexists. split; [done|]. intros m. apply insert_spec.
  - by rewrite H.
Qed.

(** The manager of the SDK, as its laws describe it. *)
#[export] Instance manager {S} : Manager S := fun ph registered names f =>
  forM f (managed registered names).
#[export] Instance manager_laws {S} : ManagerLaws S.
Proof. split. by intros ph reg l f s [] s' E. Qed.

Definition no_services (_ : string) : Services := mkServices [] [] [].

(** Queries of the oracle are answered, no others. *)
Definition codec : Stargate.ProtoCodec Z (option Z) Z := {|
  Stargate.empty_obj _ := None;
  Stargate.Unmarshal _ bz _ := (Ok tt, Some bz);
  Stargate.MarshalJSON _ o := match o with Some n => Ok n | None => Err (Plain "empty") end;
  Stargate.route path :=
    if String.eqb path "/do.oracle.v1beta1.Query/ExchangeRate" then Some (fun data => Ok (data + 1)) else None;
|}.

(** The parts of a text in front of its slashes. *)
Fixpoint cuts (t : string) : list string :=
  match t with
  | "" => []
  | String c t => (if Ascii.eqb c "/"%char then [""] else []) ++ map (String c) (cuts t)
  end.

Lemma cuts_spec a b t : (a +:+ String "/"%char b)%string = t -> a ∈ cuts t.
Proof.
  revert t. induction a as [|c a IH]; intros t <-; simpl.
  - set_solver.
  - apply elem_of_app. right. apply list_elem_of_fmap. exists a. split; [done|]. by apply IH.
Qed.

Lemma codec_routes : @routes_registered no_services Z (option Z) Z codec.
Proof.
  intros sv me h. cbn [Stargate.route codec]. destruct (String.eqb_spec (path_of sv me) "/do.oracle.v1beta1.Query/ExchangeRate")
    as [E|]; [|done]. intros _. injection E as E. apply cuts_spec in E. cbn in E.
  apply list_elem_of_singleton in E as ->. apply (bool_decide_unpack _). by vm_compute.
Qed.

Definition bank0 : purse := mkPurse (fun a _ => if String.eqb a "module:burn" then 7 else 0) (fun _ => 7).
Definition treasury0 : Treasury.State purse (list ref_validator) (list DecCoin)
    (Market.State ledger (OracleState.State ledger (list ref_validator) (list (string * list DecCoin)))) :=
  Treasury.mkState Treasury.DefaultParams None None ∅ None None ∅ ∅ ∅ ∅ bank0 [] []
    (Treasury.st_keepers Treasury.Example.s0).
End Example.

#[local] Existing Instances Example.wired_bank Example.wired_bank_laws Example.wired_bank_wired
  Treasury.treasury_keepers Example.map_params Example.map_params_laws.

Lemma module_accounts_closed_witness :
  BlacklistedAccAddrs Example.addresses maccPerms allowedReceivingModAcc !! Example.addresses "treasury" = Some true /\
  BlacklistedAccAddrs Example.addresses maccPerms allowedReceivingModAcc !! Example.addresses "oracle" = Some false.
Proof.
  destruct (@module_accounts_closed Example.addresses Example.module_addr_inj) as [H _]. split.
  - apply (H "treasury"). vm_compute. eauto.
  - apply (H "oracle"). vm_compute. eauto.
Defined.

Lemma burn_never_halts_witness :
  exists b, Treasury.EndBlocker (mkCtx 10 0 "test" false false) Example.treasury0 =
    (Ok tt, Treasury.on_bank (fun _ => b) Example.treasury0) /\
    GetBalance b (ModuleAddress "burn") "udo" = 0.
Proof.
  destruct (burn_never_halts (mkCtx 10 0 "test" false false) Example.treasury0 eq_refl) as (b & E & Hb).
  exists b. split; [exact E|apply Hb].
Defined.

Lemma supply_changes_need_permission_witness :
  MintCoins "dodxstaking" [] Example.bank0 = Panic /\ "market" ∈ holders Minter.
Proof.
  split.
  - by apply (supply_changes_need_permission "dodxstaking" [] Example.bank0 Example.bank0).
  - eapply (proj1 (supply_changes_need_permission "market" [mkCoin "udo" 5] Example.bank0 _)).
    vm_compute. reflexivity.
Defined.

Lemma keepers_start_witness :
  exists p' : gmap string bool, space p' "market" = Some true /\ space p' "wasm" = Some false /\ space p' "mfa" = None.
Proof.
  destruct (keepers_start (∅ : gmap string bool)) as (p' & _ & H); [intros n; apply lookup_empty|].
  exists p'. rewrite !H. done.
Defined.

Lemma whitelisted_queries_unrouted_witness :
  @Stargate.StargateQuerier Z (option Z) Z Example.codec "/do.treasury.v1beta1.Query/TaxRate" 4 (fun _ => None) =
    (Err Stargate.ErrUnsupported, fun _ => None).
Proof.
  refine (proj2 (proj2 (@whitelisted_queries_unrouted Example.no_services Z (option Z) Z Example.codec 4
    (fun _ => None) _ _)) _ _ _).
  - intros m x _. split; apply not_elem_of_nil.
  - exact Example.codec_routes.
  - cbn. rewrite !elem_of_cons. auto.
  - done.
Defined.
