(* ===== verification/EqualPower.v ===== *)
(** * One validator, one power (src/custom/staking/module.go)

    The staking module of the chain runs the end of block of the SDK's
    staking keeper and hides the stakes from the consensus engine: every
    update with a positive power leaves with power one.  What it stores is
    the list of all active validators at power one.  The consensus engine is
    the abstract set [comet_apply] of the ABCI contract: a power of zero
    removes a validator, any other power sets it.

    The theorems: once all powers are one they stay one, and the engine
    accepts the updates; the powers of the genesis do not become one, since
    the genesis of the module is the SDK's; the stored updates would make
    them one; when the stored list is written. *)
From stdpp Require Import base gmap sets list strings fin_maps.
From Stdlib Require Import ZArith Lia.
From S2P Require Import Prelude Sdk SdkRef Core.
#[local] Open Scope Z_scope.

Record ValidatorUpdate : Type := mkUpdate { PubKey : string; Power : Z }.
#[export] Instance ValidatorUpdate_eq_dec : EqDecision ValidatorUpdate.
Proof. solve_decision. Defined.

Definition EqualValidatorConsensusPower : Z := 1.

(** The staking keeper over a state [K]; [V] is its record of a validator. *)
Class StakingKeeper (K V : Type) : Type := {
  sk_EndBlocker : M K (list ValidatorUpdate);
  sk_GetBondedValidatorsByPower : K -> res (list V);
  sk_GetValidatorUpdates : K -> res (list ValidatorUpdate);
  sk_SetValidatorUpdates : list ValidatorUpdate -> M K unit;
  TmConsPublicKey : V -> res string;
}.

Section ops.
Context {K V : Type} `{StakingKeeper K V}.

Definition replayWriteOptimizationActive (ctx : Ctx) : bool :=
  ReplayWriteOptimizationHeight <=? BlockHeight ctx.

Definition equalPowerValidatorUpdate (validator : V) : res ValidatorUpdate :=
  pubKey ← TmConsPublicKey validator;
  Ok (mkUpdate pubKey EqualValidatorConsensusPower).

Definition compactEqualValidatorPowerUpdates (standardUpdates : list ValidatorUpdate) :
    list ValidatorUpdate :=
  map (fun update => if 0 <? Power update
                     then mkUpdate (PubKey update) EqualValidatorConsensusPower
                     else update) standardUpdates.

Definition append_equal (updates : list ValidatorUpdate) (validator : V) : res (list ValidatorUpdate) :=
  update ← equalPowerValidatorUpdate validator;
  Ok (updates ++ [update]).

Definition fullEqualValidatorPowerUpdates (standardUpdates : list ValidatorUpdate) (k : K) :
    res (list ValidatorUpdate) :=
  activeValidators ← sk_GetBondedValidatorsByPower k;
  foldRes append_equal (List.filter (fun update => Power update =? 0) standardUpdates) activeValidators.

Definition EndBlock (ctx : Ctx) : M K (list ValidatorUpdate) :=
  standardUpdates ← sk_EndBlocker;
  k ← get;
  storedUpdates ← lift (fullEqualValidatorPowerUpdates standardUpdates k);
  existing ← (if replayWriteOptimizationActive ctx && bool_decide (standardUpdates = [])
              then lift (sk_GetValidatorUpdates k) else mret []);
  if negb (bool_decide (existing = [])) then mret []
  else
    sk_SetValidatorUpdates storedUpdates ;;
    mret (compactEqualValidatorPowerUpdates standardUpdates).
End ops.

(** ** The consensus engine *)
Definition apply_update (m : gmap string Z) (u : ValidatorUpdate) : gmap string Z :=
  if Power u =? 0 then delete (PubKey u) m else <[PubKey u := Power u]> m.

(** The engine refuses a list that names a validator twice, has a negative
    power, removes a validator it does not have, or leaves it with none. *)
Definition comet_accepts (m : gmap string Z) (ups : list ValidatorUpdate) : Prop :=
  NoDup (map PubKey ups) /\
  Forall (fun u => 0 <= Power u /\ (Power u = 0 -> is_Some (m !! PubKey u))) ups /\
  (ups <> [] -> foldl apply_update m ups <> ∅).

Definition comet_apply (m : gmap string Z) (ups : list ValidatorUpdate) (m' : gmap string Z) : Prop :=
  comet_accepts m ups /\ m' = foldl apply_update m ups.

(** What the staking keeper promises: the powers it has recorded last,
    changed by the updates of an end of block, are the new recorded powers;
    they are positive and belong to the bonded validators, each with its own
    key; the store of updates is apart. *)
Class StakingKeeperLaws (K V : Type) `{StakingKeeper K V} (last : K -> gmap string Z) : Prop := {
  last_positive k : map_Forall (fun _ p => 0 < p) (last k);
  endblocker_updates k ups k' : sk_EndBlocker k = (Ok ups, k') -> comet_apply (last k) ups (last k');
  bonded_keys k vs : sk_GetBondedValidatorsByPower k = Ok vs ->
    exists keys, mapM TmConsPublicKey vs = Ok keys /\ NoDup keys /\ forall p, p ∈ keys <-> is_Some (last k !! p);
  set_last ups k u k' : sk_SetValidatorUpdates ups k = (Ok u, k') -> last k' = last k;
  set_get ups k u k' : sk_SetValidatorUpdates ups k = (Ok u, k') -> sk_GetValidatorUpdates k' = Ok ups;
}.

(** ** The effect of a list of updates *)
Definition update_of (v : string) (ups : list ValidatorUpdate) : option ValidatorUpdate :=
  List.find (fun u => String.eqb (PubKey u) v) ups.

Definition updated (m : gmap string Z) (ups : list ValidatorUpdate) (v : string) : option Z :=
  match update_of v ups with
  | Some u => if Power u =? 0 then None else Some (Power u)
  | None => m !! v
  end.

Lemma apply_lookup ups : forall m v, NoDup (map PubKey ups) ->
  foldl apply_update m ups !! v = updated m ups v.
Proof.
  induction ups as [|u ups IH]; intros m v Hn; [done|]. cbn [map] in Hn. apply NoDup_cons in Hn as [Hu Hn].
  cbn [foldl]. rewrite IH by done. unfold updated, update_of. cbn [List.find].
  destruct (String.eqb_spec (PubKey u) v) as [<-|Hv].
  - destruct (List.find _ ups) as [w|] eqn:E.
    + apply find_some in E as [Hin Heq]. apply String.eqb_eq in Heq. exfalso. apply Hu. rewrite <- Heq.
      apply list_elem_of_fmap. exists w. split; [done|]. by apply list_elem_of_In.
    + unfold apply_update. case_match; [by rewrite lookup_delete, decide_True|by rewrite lookup_insert, decide_True].
  - destruct (List.find _ ups); [done|]. unfold apply_update.
    case_match; [by rewrite lookup_delete_ne|by rewrite lookup_insert_ne].
Qed.

(** All the validators of a set, with power one. *)
Definition equal_powers (m : gmap string Z) : gmap string Z := (fun _ => EqualValidatorConsensusPower) <$> m.

Lemma compact_keys ups : map PubKey (compactEqualValidatorPowerUpdates ups) = map PubKey ups.
Proof. induction ups as [|u ups IH]; simpl; [done|]. rewrite IH. by case_match. Qed.

Lemma compact_update_of v ups : update_of v (compactEqualValidatorPowerUpdates ups) =
  (fun u => if 0 <? Power u then mkUpdate (PubKey u) EqualValidatorConsensusPower else u) <$> update_of v ups.
Proof.
  induction ups as [|u ups IH]; [done|]. unfold update_of in *. cbn [compactEqualValidatorPowerUpdates map List.find].
  replace (PubKey (if 0 <? Power u then _ else u)) with (PubKey u) by (by case_match).
  case_match; [done|]. exact IH.
Qed.

Lemma update_of_in v ups u : update_of v ups = Some u -> u ∈ ups /\ PubKey u = v.
Proof. intros [H1 H2]%find_some. split; [by apply list_elem_of_In|by apply String.eqb_eq]. Qed.

Lemma apply_nonempty m ups : ups <> [] -> NoDup (map PubKey ups) ->
  foldl apply_update m ups = ∅ <-> forall v, updated m ups v = None.
Proof.
  intros _ Hn. split.
  - intros E v. by rewrite <- (apply_lookup ups m v Hn), E, lookup_empty.
  - intros Hv. apply map_eq. intros v. by rewrite apply_lookup, lookup_empty.
Qed.

Lemma compact_updated m ups v : Forall (fun u => 0 <= Power u) ups ->
  updated (equal_powers m) (compactEqualValidatorPowerUpdates ups) v =
  (fun _ => EqualValidatorConsensusPower) <$> updated m ups v.
Proof.
  intros Hp. unfold updated. rewrite compact_update_of. destruct (update_of v ups) as [u|] eqn:E; simpl.
  - apply update_of_in in E as [Hin _]. rewrite Forall_forall in Hp. apply Hp in Hin.
    destruct (Z.ltb_spec 0 (Power u)); simpl.
    + destruct (Z.eqb_spec (Power u) 0); [lia|done].
    + destruct (Z.eqb_spec (Power u) 0); [done|lia].
  - unfold equal_powers. by rewrite lookup_fmap.
Qed.

Lemma comet_compact m ups m' : comet_apply m ups m' ->
  comet_apply (equal_powers m) (compactEqualValidatorPowerUpdates ups) (equal_powers m').
Proof.
  intros [(Hn & Hp & Hne) ->].
  assert (Forall (fun u => 0 <= Power u) ups) as Hpos by (eapply Forall_impl; [exact Hp|]; by intros u [? _]).
  assert (foldl apply_update (equal_powers m) (compactEqualValidatorPowerUpdates ups) =
          equal_powers (foldl apply_update m ups)) as E.
  { apply map_eq. intros v. rewrite apply_lookup by (by rewrite compact_keys).
    rewrite compact_updated by done. unfold equal_powers. by rewrite lookup_fmap, apply_lookup. }
  split; [|done]. split; [by rewrite compact_keys|]. split.
  - apply Forall_forall. intros u Hu. apply list_elem_of_fmap in Hu as (w & -> & Hw).
    rewrite Forall_forall in Hp. apply Hp in Hw as [Hw0 Hw]. unfold equal_powers.
    destruct (Z.ltb_spec 0 (Power w)); simpl; [done|]. split; [done|]. intros Hz.
    rewrite lookup_fmap, fmap_is_Some. by apply Hw.
  - intros Hc. rewrite E. intros He. apply Hne; [by intros ->|]. by apply fmap_empty_inv in He.
Qed.

(** ** The end of a block *)
Section facts.
Context {K V : Type} `{StakingKeeper K V} (last : K -> gmap string Z) `{!StakingKeeperLaws K V last}.
Implicit Types k : K.

Definition removals (ups : list ValidatorUpdate) : list ValidatorUpdate :=
  List.filter (fun update => Power update =? 0) ups.
Definition all_equal (keys : list string) : list ValidatorUpdate :=
  map (fun key => mkUpdate key EqualValidatorConsensusPower) keys.

Lemma append_all vs keys : mapM TmConsPublicKey vs = Ok keys ->
  forall acc, foldRes append_equal acc vs = Ok (acc ++ all_equal keys).
Proof.
  revert keys. induction vs as [|v vs IH]; intros keys E acc; simpl in E.
  - injection E as <-. simpl. by rewrite app_nil_r.
  - res_inv E. simpl. unfold append_equal, equalPowerValidatorUpdate. rewrite E0. simpl.
    rewrite (IH _ E1). simpl. by rewrite <- app_assoc.
Qed.

Lemma full_updates ups k stored : fullEqualValidatorPowerUpdates ups k = Ok stored ->
  exists keys, stored = removals ups ++ all_equal keys /\ NoDup keys /\ forall p, p ∈ keys <-> is_Some (last k !! p).
Proof.
  unfold fullEqualValidatorPowerUpdates. intros E. res_inv E. rename v into vs.
  destruct (bonded_keys (last := last) _ _ E0) as (keys & Ek & Hn & Hd). rewrite (append_all _ _ Ek) in E.
  injection E as <-. by exists keys.
Qed.

(** What an end of block does: it runs the keeper's, and then either writes
    the full list and returns the compacted updates, or returns nothing. *)
Lemma EndBlock_ok ctx k ups k' : EndBlock ctx k = (Ok ups, k') ->
  exists std k1 keys, sk_EndBlocker k = (Ok std, k1) /\ NoDup keys /\
    (forall p, p ∈ keys <-> is_Some (last k1 !! p)) /\
    ((sk_SetValidatorUpdates (removals std ++ all_equal keys) k1 = (Ok tt, k') /\
      ups = compactEqualValidatorPowerUpdates std) \/
     (k' = k1 /\ ups = [] /\ std = [] /\ replayWriteOptimizationActive ctx = true /\
      exists existing, existing <> [] /\ sk_GetValidatorUpdates k1 = Ok existing)).
Proof.
  unfold EndBlock. intros E. m_bind E as std Es. m_bind E as k1 Eg. unfold get in Eg. injection Eg as <- <-.
  m_bind E as stored Ef. apply lift_ok in Ef as [Ef ->]. apply full_updates in Ef as (keys & -> & Hn & Hd).
  m_bind E as existing Ee. exists std. eexists _, keys. split; [exact Es|]. do 2 (split; [done|]).
  destruct (replayWriteOptimizationActive ctx && bool_decide (std = [])) eqn:Hopt.
  - apply andb_true_iff in Hopt as [Ha ->%bool_decide_eq_true]. apply lift_ok in Ee as [Ee ->].
    case_bool_decide as Hx; simpl in E; [|injection E as <- <-; right; split_and!; eauto].
    m_bind E as [] Eu. injection E as <- <-. by left.
  - injection Ee as <- <-. simpl in E. m_bind E as [] Eu. injection E as <- <-. by left.
Qed.

Lemma EndBlock_simulates ctx k ups k' : EndBlock ctx k = (Ok ups, k') ->
  comet_apply (equal_powers (last k)) ups (equal_powers (last k')).
Proof.
  intros (std & k1 & keys & Es & _ & _ & [[Eu ->]|(-> & -> & -> & _)])%EndBlock_ok.
  - rewrite (set_last (last := last) _ _ _ _ Eu).
    apply comet_compact. by apply (endblocker_updates (last := last)).
  - apply (endblocker_updates (last := last)) in Es as [_ ->]. simpl. split; [|done].
    split; [constructor|]. by split; [constructor|].
Qed.

(** A run of the chain: ends of blocks of the module, and the engine that
    applies what they return. *)
Inductive run : K * gmap string Z -> K * gmap string Z -> Prop :=
| run_refl s : run s s
| run_block ctx k m ups k1 m1 s : EndBlock ctx k = (Ok ups, k1) -> comet_apply m ups m1 ->
    run (k1, m1) s -> run (k, m) s.

Lemma run_equal s s' : run s s' -> s.2 = equal_powers (last s.1) -> s'.2 = equal_powers (last s'.1).
Proof.
  induction 1 as [s|ctx k m ups k1 m1 s E Hc _ IH]; [done|]. simpl in *. intros ->. apply IH.
  apply EndBlock_simulates in E as [_ ->]. by destruct Hc as [_ ->].
Qed.

Lemma update_of_elem ups u : NoDup (map PubKey ups) -> u ∈ ups -> update_of (PubKey u) ups = Some u.
Proof.
  intros Hn Hu. induction ups as [|w ups IH]; [by apply elem_of_nil in Hu|].
  cbn [map] in Hn. apply NoDup_cons in Hn as [Hw Hn]. unfold update_of in *. cbn [List.find].
  apply elem_of_cons in Hu as [->|Hu]; [by rewrite String.eqb_refl|].
  destruct (String.eqb_spec (PubKey w) (PubKey u)) as [Ew|]; [|by apply IH].
  exfalso. apply Hw. rewrite Ew. apply list_elem_of_fmap. eauto.
Qed.

Lemma EndBlock_powers ctx k ups k' : EndBlock ctx k = (Ok ups, k') ->
  forall u, u ∈ ups -> Power u <> 0 -> Power u = 1.
Proof.
  intros (std & k1 & keys & Es & _ & _ & [[_ ->]|(_ & -> & _)])%EndBlock_ok u Hu Hz;
    [|by apply elem_of_nil in Hu].
  apply list_elem_of_fmap in Hu as (w & -> & Hw). destruct (Z.ltb_spec 0 (Power w)) as [Hp|Hp]; [done|].
  destruct (endblocker_updates (last := last) _ _ _ Es) as [(_ & Hall & _) _]. rewrite Forall_forall in Hall.
  apply Hall in Hw as [? _]. lia.
Qed.

Lemma removals_nodup ups : NoDup (map PubKey ups) -> NoDup (map PubKey (removals ups)).
Proof.
  unfold removals. induction ups as [|u ups IH]; [done|]. cbn [map List.filter]. intros [Hu Hn]%NoDup_cons.
  case_match; [|by apply IH]. cbn [map]. apply NoDup_cons. split; [|by apply IH]. intros Hin. apply Hu.
  apply list_elem_of_fmap in Hin as (w & -> & Hw). apply list_elem_of_In, filter_In in Hw as [Hw _].
  apply list_elem_of_fmap. exists w. by rewrite list_elem_of_In.
Qed.

Lemma removals_gone m ups v : NoDup (map PubKey ups) -> v ∈ map PubKey (removals ups) ->
  foldl apply_update m ups !! v = None.
Proof.
  intros Hn Hv. apply list_elem_of_fmap in Hv as (w & -> & Hw). apply list_elem_of_In, filter_In in Hw as [Hw Hz].
  rewrite apply_lookup by done. unfold updated.
  by rewrite (update_of_elem _ _ Hn (proj2 (list_elem_of_In _ _) Hw)), Hz.
Qed.

(** C5: one validator, one power: once the consensus engine has exactly the
    validators of the staking keeper with power one, this stays so over any
    number of blocks, whatever the stakes do, and the engine accepts the
    updates of every block. *)
Theorem one_validator_one_power k m k' m' : m = equal_powers (last k) -> run (k, m) (k', m') ->
  m' = equal_powers (last k') /\ map_Forall (fun _ p => p = 1) m' /\
  (forall ctx ups k1, EndBlock ctx k' = (Ok ups, k1) -> comet_accepts m' ups).
Proof.
  intros Hm Hr. pose proof (run_equal _ _ Hr Hm) as E. simpl in E. subst m'. split_and!; [done| |].
  - intros v p. unfold equal_powers. rewrite lookup_fmap, fmap_Some. by intros (? & _ & ->).
  - intros ctx ups k1 E1. apply (EndBlock_simulates _ _ _ _ E1).
Qed.

(** the genesis does not go through the module, so the engine starts
    with the powers by stake.  From there, the end of a block gives power one
    to the validators whose stake moved and leaves the others as they were:
    after any block, a validator without an update has the power by stake of
    the genesis still, next to validators of power one. *)
Theorem genesis_powers_stay ctx k ups k' m' : EndBlock ctx k = (Ok ups, k') -> comet_apply (last k) ups m' ->
  forall v,
    (v ∉ map PubKey ups -> m' !! v = last k !! v) /\
    (forall u, u ∈ ups -> PubKey u = v -> m' !! v = if Power u =? 0 then None else Some 1).
Proof.
  intros E [(Hn & Hp & _) ->] v. rewrite apply_lookup by done. unfold updated. split.
  - intros Hv. destruct (update_of v ups) as [u|] eqn:Eu; [|done]. apply update_of_in in Eu as [Hin <-].
    exfalso. apply Hv. apply list_elem_of_fmap. eauto.
  - intros u Hu <-. rewrite (update_of_elem _ _ Hn Hu).
    destruct (Z.eqb_spec (Power u) 0); [done|]. f_equal. by apply (EndBlock_powers _ _ _ _ E u).
Qed.

(** the stored updates are what would make the powers equal: applied to
    the validators of the keeper with any powers, those of the genesis too,
    the engine accepts them and has every validator at power one. *)
Theorem stored_updates_equalise k std k1 stored m : sk_EndBlocker k = (Ok std, k1) ->
  fullEqualValidatorPowerUpdates std k1 = Ok stored -> dom m = dom (last k) -> last k1 <> ∅ ->
  comet_apply m stored (equal_powers (last k1)).
Proof.
  intros Es Ef Hm Hne. apply full_updates in Ef as (keys & -> & Hk & Hd).
  destruct (endblocker_updates (last := last) _ _ _ Es) as [(Hn & Hp & _) El].
  assert (NoDup (map PubKey (removals std ++ all_equal keys))) as Hnd.
  { rewrite map_app. apply NoDup_app. split_and!.
    - by apply removals_nodup.
    - intros v Hv Hv'. apply removals_gone with (m := last k) in Hv; [|done]. rewrite <- El in Hv.
      unfold all_equal in Hv'. rewrite map_map, map_id in Hv'. apply Hd in Hv'. rewrite Hv in Hv'. by destruct Hv'.
    - unfold all_equal. by rewrite map_map, map_id. }
  assert (foldl apply_update m (removals std ++ all_equal keys) = equal_powers (last k1)) as E.
  { apply map_eq. intros v. rewrite apply_lookup by done. unfold equal_powers. rewrite lookup_fmap.
    destruct (last k1 !! v) as [p|] eqn:Ev; simpl.
    - assert (mkUpdate v 1 ∈ removals std ++ all_equal keys) as Hin.
      { apply elem_of_app. right. apply list_elem_of_fmap. exists v. split; [done|]. apply Hd. by rewrite Ev. }
      unfold updated. by rewrite (update_of_elem _ (mkUpdate v 1) Hnd Hin : update_of v _ = _).
    - unfold updated. destruct (update_of v _) as [u|] eqn:Eu.
      + apply update_of_in in Eu as [[Hu|Hu]%elem_of_app <-].
        * apply list_elem_of_In, filter_In in Hu as [_ Hz]. by rewrite Hz.
        * apply list_elem_of_fmap in Hu as (key & -> & Hkey). apply Hd in Hkey. cbn [PubKey] in Ev.
          rewrite Ev in Hkey. by destruct Hkey.
      + apply not_elem_of_dom. rewrite Hm, not_elem_of_dom. rewrite El, apply_lookup in Ev by done.
        unfold updated in Ev. destruct (update_of v std) as [w|] eqn:Ew; [|done]. exfalso.
        apply update_of_in in Ew as [Hw <-]. destruct (Power w =? 0) eqn:Hz; [|done].
        eapply find_none in Eu; [by rewrite String.eqb_refl in Eu|].
        apply in_or_app. left. apply filter_In. split; [by apply list_elem_of_In|done]. }
  split; [|done]. split; [done|]. split; [|intros _; rewrite E; intros He; apply fmap_empty_inv in He; done].
  apply Forall_app. split; apply Forall_forall; intros u Hu.
  - apply list_elem_of_In, filter_In in Hu as [Hu Hz]. apply list_elem_of_In in Hu. apply Z.eqb_eq in Hz.
    rewrite Forall_forall in Hp. apply Hp in Hu as [? Hs]. split; [done|]. intros _.
    apply elem_of_dom. rewrite Hm. by apply elem_of_dom, Hs.
  - apply list_elem_of_fmap in Hu as (key & -> & _). by split.
Qed.
End facts.

(** ** Examples: a keeper with the changes of the next block, and two
    validators of which one gets a delegation. *)
Module Example.

Record keeper : Type := mkKeeper {
  now : gmap string positive;
  pending : list (string * option positive);
  saved : list ValidatorUpdate;
}.

Definition power_of (o : option positive) : Z := match o with Some p => Zpos p | None => 0 end.
Definition ups_of (l : list (string * option positive)) : list ValidatorUpdate :=
  map (fun c => mkUpdate c.1 (power_of c.2)) l.
Definition change (m : gmap string positive) (c : string * option positive) : gmap string positive :=
  match c.2 with Some p => <[c.1 := p]> m | None => delete c.1 m end.
Definition last (k : keeper) : gmap string Z := Zpos <$> now k.

#[export] Instance accepts_dec m ups : Decision (comet_accepts m ups).
Proof. unfold comet_accepts. apply _. Defined.

#[export] Instance staking : StakingKeeper keeper string := {|
  sk_EndBlocker k :=
    if decide (comet_accepts (last k) (ups_of (pending k)))
    then (Ok (ups_of (pending k)), mkKeeper (foldl change (now k) (pending k)) [] (saved k))
    else (Err (Plain "updates"), k);
  sk_GetBondedValidatorsByPower k := Ok (map fst (kv_iter (now k)));
  sk_GetValidatorUpdates k := Ok (saved k);
  sk_SetValidatorUpdates ups k := (Ok tt, mkKeeper (now k) (pending k) ups);
  TmConsPublicKey v := Ok v;
|}.

Lemma changes_apply l : forall m, Zpos <$> foldl change m l = foldl apply_update (Zpos <$> m) (ups_of l).
Proof.
  induction l as [|[v [p|]] l IH]; intros m; simpl; [done|..]; rewrite IH; f_equal;
    unfold change, apply_update; simpl; [by rewrite fmap_insert|by rewrite fmap_delete].
Qed.

Lemma mapM_ok (l : list string) : mapM (Ok : string -> res string) l = Ok l.
Proof. induction l as [|v l IH]; [done|]. simpl. by rewrite IH. Qed.

#[export] Instance staking_laws : StakingKeeperLaws keeper string last.
Proof.
  split.
  - intros k v p. unfold last. rewrite lookup_fmap, fmap_Some. by intros (q & _ & ->).
  - intros k ups k' E. cbn in E. case_decide as Ha; [|done]. injection E as <- <-. split; [done|].
    unfold last. simpl. apply changes_apply.
  - intros k vs E. cbn in E. injection E as <-. exists (map fst (kv_iter (now k))). split; [apply mapM_ok|].
    split; [apply kv_iter_nodup|]. intros p. unfold last. rewrite lookup_fmap, fmap_is_Some, list_elem_of_fmap. split.
    + intros ([v q] & -> & Hq%elem_of_kv_iter). simpl. eauto.
    + intros [q Hq]. exists (p, q). split; [done|]. by apply elem_of_kv_iter.
  - intros ups k u k' E. cbn in E. by injection E as _ <-.
  - intros ups k u k' E. cbn in E. by injection E as _ <-.
Qed.

Definition ctx : Ctx := mkCtx 5 0 "test" false false.
Definition start : keeper := mkKeeper {["amy" := 1000%positive; "bob" := 1000%positive]} [("bob", Some 1001%positive)] [].
Definition after : keeper := (EndBlock ctx start).2.
End Example.

#[local] Existing Instances Example.staking Example.staking_laws.

Lemma one_validator_one_power_witness :
  map_Forall (fun _ p => p = 1) (equal_powers (Example.last Example.after)).
Proof.
  assert (EndBlock Example.ctx Example.start = (Ok [mkUpdate "bob" 1], Example.after)) as E by (by vm_compute).
  refine (proj1 (proj2 (one_validator_one_power Example.last Example.start (equal_powers (Example.last Example.start))
    Example.after (equal_powers (Example.last Example.after)) eq_refl _))).
  eapply run_block; [exact E|exact (EndBlock_simulates Example.last _ _ _ _ E)|apply run_refl].
Defined.

(** After the block one of two validators with the same stake has a
    thousandth of the power of the other. *)
Lemma genesis_powers_stay_witness :
  exists m', comet_apply (Example.last Example.start) [mkUpdate "bob" 1] m' /\
    m' !! "amy" = Some 1000 /\ m' !! "bob" = Some 1.
Proof.
  assert (EndBlock Example.ctx Example.start = (Ok [mkUpdate "bob" 1], Example.after)) as E by (by vm_compute).
  assert (comet_apply (Example.last Example.start) [mkUpdate "bob" 1]
    (foldl apply_update (Example.last Example.start) [mkUpdate "bob" 1])) as Hc.
  { split; [|done]. apply (bool_decide_unpack _). by vm_compute. }
  exists (foldl apply_update (Example.last Example.start) [mkUpdate "bob" 1]). split; [exact Hc|].
  pose proof (genesis_powers_stay Example.last _ _ _ _ _ E Hc) as H. split.
  - rewrite (proj1 (H "amy")); [by vm_compute|]. cbn. by intros [?|?%elem_of_nil]%elem_of_cons.
  - apply (proj2 (H "bob") (mkUpdate "bob" 1)); [by left|done].
Defined.

Lemma stored_updates_equalise_witness :
  comet_apply (Example.last Example.start) [mkUpdate "amy" 1; mkUpdate "bob" 1]
    (equal_powers (Example.last (sk_EndBlocker Example.start).2)).
Proof.
  apply (stored_updates_equalise Example.last Example.start [mkUpdate "bob" 1001]);
    [by vm_compute|by vm_compute|done|].
  intros E. apply (f_equal (lookup "amy")) in E. by vm_compute in E.
Defined.
