(* ===== verification/Chain.v ===== *)
(** * The modules together (src/app/app.go, src/app/modules.go)

    One state with one ledger, one staking state and one distribution state;
    every module of the chain runs on its view of it.  [end_block],
    [begin_block] and [init_genesis] are the handlers the module manager
    finds under a name, [exec] delivers a message, [chain_step] is a
    transition of the chain.  Modules of other packages are a parameter that
    may do anything but write the store of DODx staking, write the pool delta
    of the market or take coins out of the DODx escrow; a proposal may change
    the parameters of any module by name.

    The theorems: the chain refines the DODx staking module as that module
    sees the world, so that stakes stay backed and can be withdrawn after any
    run of all modules; the market never runs: the genesis file's entry for
    it has no effect, its pools are never replenished whatever proposals do,
    and unless a proposal sets its parameters by name every swap from or to
    the native coin is refused. *)
From stdpp Require Import base gmap sets list strings fin_maps.
From Stdlib Require Import ZArith Lia.
From S2P Require Import Prelude Sdk SdkRef Core Wiring.
From S2P Require DodxStaking Market OracleBallot OracleState OracleAbci Treasury Upgrades.
#[local] Open Scope Z_scope.
#[local] Existing Instances OracleState.market_oracle OracleState.market_oracle_laws
  Treasury.treasury_keepers Treasury.treasury_keepers_laws.

(** ** The state *)
Record Chain (B K D X : Type) : Type := mkChain {
  c_bank : B;
  c_staking : K;
  c_distr : D;
  c_dodx : DodxStaking.State B;
  c_oracle : OracleState.State B K D;
  c_market : Market.State B (OracleState.State B K D);
  c_treasury : Treasury.State B K D (Market.State B (OracleState.State B K D));
  c_other : X;
}.
Arguments mkChain {B K D X}.
Arguments c_bank {B K D X}.
Arguments c_staking {B K D X}.
Arguments c_distr {B K D X}.
Arguments c_dodx {B K D X}.
Arguments c_oracle {B K D X}.
Arguments c_market {B K D X}.
Arguments c_treasury {B K D X}.
Arguments c_other {B K D X}.

(** The keepers of other packages that forks and upgrades write; what the rest
    of the packages keep is a type [Y] of its own. *)
Abbreviation Others G L W R U := (Upgrades.AppKeepers unit unit unit unit G L W R U).

(** The part of the genesis file that belongs to the chain's modules; a
    module without an entry is passed over. *)
Record Genesis : Type := mkGenesis {
  g_oracle : option OracleState.GenesisState;
  g_market : option Market.GenesisState;
  g_treasury : option Treasury.GenesisState;
  g_dodx : option DodxStaking.GenesisState;
}.

(** Messages of users, and swaps that contracts ask for. *)
Inductive Msg : Type :=
| MsgStake (m : DodxStaking.MsgStake)
| MsgUnstake (m : DodxStaking.MsgUnstake)
| MsgPrevote (m : OracleState.MsgAggregateDoRatePrevote)
| MsgVote (m : OracleState.MsgAggregateDoRateVote)
| MsgConsent (m : OracleState.MsgDelegateFeedConsent)
| ContractSwap (m : Market.MsgSwap)
| ContractSwapSend (m : Market.MsgSwapSend).

Section chain.
Context {B K D G L W R U RG RL Y : Type} `{BankOps B} `{BankMetaOps B} `{StakingOps K} `{DistrOps D} `{FeePoolOps D}.
Context `{MathOps} `{CoinOps} `{DecCoinsOps} `{CoinSortOps} `{AddrCodec}.
Context `{OracleBallot.BallotSort} `{MapRange} `{OracleState.DecCoinParser} `{OracleState.TmHash}.
Context `{Upgrades.ParamStore G (Upgrades.GovParams RG)} `{Upgrades.ParamStore L (Upgrades.SlashingParams RL)}
  `{Upgrades.ParamStore W Upgrades.WasmParams}.
Notation St := (Chain B K D (Others G L W R U * Y)).
Implicit Types c : St.

(** ** Views: a module sees the shared parts as they are now, and what it
    writes is there for the others. *)
Definition dodx_view c : DodxStaking.State B := DodxStaking.with_bank (c_dodx c) (c_bank c).
Definition oracle_view c : OracleState.State B K D :=
  let o := c_oracle c in
  OracleState.mkState (OracleState.st_params o) (OracleState.st_rates o) (OracleState.st_feeders o)
    (OracleState.st_misses o) (OracleState.st_prevotes o) (OracleState.st_votes o)
    (OracleState.st_taxes o) (c_bank c) (c_staking c) (c_distr c).
Definition market_view c : Market.State B (OracleState.State B K D) :=
  Market.mkState (Market.st_params (c_market c)) (Market.st_delta (c_market c)) (c_bank c) (oracle_view c).
Definition treasury_view c : Treasury.State B K D (Market.State B (OracleState.State B K D)) :=
  let t := c_treasury c in
  Treasury.mkState (Treasury.st_params t) (Treasury.st_taxrate t) (Treasury.st_weight t)
    (Treasury.st_caps t) (Treasury.st_proceeds t) (Treasury.st_issuance t) (Treasury.st_tr t)
    (Treasury.st_sr t) (Treasury.st_tsl t) (Treasury.st_exempt t) (c_bank c) (c_staking c)
    (c_distr c) (market_view c).

Definition put_dodx (s : DodxStaking.State B) c : St :=
  mkChain (DodxStaking.st_bank s) (c_staking c) (c_distr c) s (c_oracle c) (c_market c)
    (c_treasury c) (c_other c).
Definition put_oracle (o : OracleState.State B K D) c : St :=
  mkChain (OracleState.st_bank o) (OracleState.st_staking o) (OracleState.st_distr o) (c_dodx c) o
    (c_market c) (c_treasury c) (c_other c).
Definition put_market (m : Market.State B (OracleState.State B K D)) c : St :=
  mkChain (Market.st_bank m) (c_staking c) (c_distr c) (c_dodx c) (Market.st_oracle m) m
    (c_treasury c) (c_other c).
Definition put_treasury (t : Treasury.State B K D (Market.State B (OracleState.State B K D))) c : St :=
  mkChain (Treasury.st_bank t) (Treasury.st_staking t) (Treasury.st_distr t) (c_dodx c)
    (c_oracle c) (c_market c) t (c_other c).

(** All keepers, as the code of forks sees them; it writes their stores, and
    neither the ledger nor the state of staking and distribution. *)
Notation Keepers := (Upgrades.AppKeepers (Market.State B (OracleState.State B K D)) (OracleState.State B K D)
  (Treasury.State B K D (Market.State B (OracleState.State B K D))) (DodxStaking.State B) G L W R U).
Definition app_view c : Keepers :=
  let o := fst (c_other c) in
  Upgrades.mkApp (market_view c) (oracle_view c) (treasury_view c) (dodx_view c) (Upgrades.GovKeeper o)
    (Upgrades.SlashingKeeper o) (Upgrades.WasmKeeper o) (Upgrades.WasmStore o) (Upgrades.Channels o)
    (Upgrades.AllowedClients o) (Upgrades.Subspaces o) (Upgrades.ModuleVersions o) (Upgrades.UpgradeKeeper o).
Definition put_app (a : Keepers) c : St :=
  mkChain (c_bank c) (c_staking c) (c_distr c) (Upgrades.DODxStakingKeeper a) (Upgrades.OracleKeeper a)
    (Upgrades.MarketKeeper a) (Upgrades.TreasuryKeeper a)
    (Upgrades.mkApp tt tt tt tt (Upgrades.GovKeeper a) (Upgrades.SlashingKeeper a) (Upgrades.WasmKeeper a)
      (Upgrades.WasmStore a) (Upgrades.Channels a) (Upgrades.AllowedClients a) (Upgrades.Subspaces a)
      (Upgrades.ModuleVersions a) (Upgrades.UpgradeKeeper a), snd (c_other c)).

Definition in_view {S A} (view : St -> S) (put : S -> St -> St) (m : M S A) : M St A := fun c =>
  let (r, s) := m (view c) in (r, put s c).
Definition in_dodx {A} (m : M (DodxStaking.State B) A) : M St A := in_view dodx_view put_dodx m.
Definition in_oracle {A} (m : M (OracleState.State B K D) A) : M St A := in_view oracle_view put_oracle m.
Definition in_market {A} (m : M (Market.State B (OracleState.State B K D)) A) : M St A :=
  in_view market_view put_market m.
Definition in_treasury {A}
    (m : M (Treasury.State B K D (Market.State B (OracleState.State B K D))) A) : M St A :=
  in_view treasury_view put_treasury m.
Definition in_app {A} (m : M Keepers A) : M St A := in_view app_view put_app m.

(** ** The handlers by the name of their module.  The modules of other
    packages, and the commission policy and contracts, are [ext]. *)
Context (ext : phase -> string -> Ctx -> M St unit).

Definition end_block (ctx : Ctx) (name : string) : M St unit :=
  if String.eqb name names.oracle then in_oracle (OracleAbci.EndBlocker names.distribution ctx)
  else if String.eqb name names.treasury then in_treasury (Treasury.EndBlocker ctx)
  else if String.eqb name names.market then in_market (Market.EndBlocker ctx)
  else if String.eqb name names.dodxstaking || String.eqb name names.mfa then mret tt
  else ext EndBlock name ctx.

Definition begin_block (ctx : Ctx) (name : string) : M St unit :=
  if bool_decide (name ∈ [names.oracle; names.treasury; names.market; names.dodxstaking; names.mfa])
  then mret tt else ext BeginBlock name ctx.

Definition with_entry {A} (o : option A) (f : A -> M St unit) : M St unit :=
  match o with Some a => f a | None => mret tt end.

Definition init_genesis (ctx : Ctx) (g : Genesis) (name : string) : M St unit :=
  if String.eqb name names.oracle
  then with_entry (g_oracle g) (fun d => in_oracle (OracleState.InitGenesis d))
  else if String.eqb name names.treasury
  then with_entry (g_treasury g) (fun d => in_treasury (Treasury.InitGenesis d))
  else if String.eqb name names.market
  then with_entry (g_market g) (fun d => in_market (Market.InitGenesis ctx d))
  else if String.eqb name names.dodxstaking
  then with_entry (g_dodx g) (fun d => in_dodx (DodxStaking.InitGenesis d))
  else ext InitGenesis name ctx.

Context `{Manager St}.

Definition EndBlocker (ctx : Ctx) : M St unit := run_phase EndBlock (end_block ctx).
Definition InitChainer (ctx : Ctx) (g : Genesis) : M St unit := run_phase InitGenesis (init_genesis ctx g).
Definition BeginBlocker (ctx : Ctx) : M St unit :=
  in_app (Upgrades.BeginBlockForks ctx) ;; run_phase BeginBlock (begin_block ctx).

(** ** Messages *)
Definition void {S A} (m : M S A) : M S unit := _ ← m; mret tt.

Definition exec (ctx : Ctx) (msg : Msg) : M St unit :=
  match msg with
  | MsgStake m => in_dodx (DodxStaking.Stake m)
  | MsgUnstake m => in_dodx (DodxStaking.Unstake m)
  | MsgPrevote m => in_oracle (OracleState.AggregateDoRatePrevote_handler ctx m)
  | MsgVote m => in_oracle (OracleState.AggregateDoRateVote_handler ctx m)
  | MsgConsent m => in_oracle (OracleState.DelegateFeedConsent_handler m)
  | ContractSwap m => in_market (void (Market.Swap ctx m))
  | ContractSwapSend m => in_market (void (Market.SwapSend ctx m))
  end.


Definition escrow c : Z := DodxStaking.escrow (dodx_view c).

(** The stores of their own of two of the modules. *)
Definition market_part c : option Market.Params * option Z := (Market.st_params (c_market c), Market.st_delta (c_market c)).
Definition same_dodx c c' : Prop := forall b, DodxStaking.with_bank (c_dodx c') b = DodxStaking.with_bank (c_dodx c) b.

(** What the rest of the application may do between two states: anything,
    the parameters of the oracle, the treasury and the market included, which a
    proposal can change by name, but for the store of DODx staking, the pool
    delta of the market and coins out of the escrow.  It holds of other
    packages as no key gives them access to those. *)
Definition same_delta c c' : Prop := Market.st_delta (c_market c') = Market.st_delta (c_market c).

(** The transitions with [allowed] messages, and with other packages that stay
    within [other]. *)
Inductive steps_of (allowed : Msg -> Prop) (other : St -> St -> Prop) : St -> St -> Prop :=
| step_tx ctx msg c : allowed msg -> steps_of allowed other c (deliver (exec ctx msg) c)
| step_proposal content c : steps_of allowed other c (deliver (in_treasury (Treasury.NewProposalHandler content)) c)
| step_flag enabled c : steps_of allowed other c (deliver (in_dodx (DodxStaking.SetGovernanceEnabled enabled)) c)
| step_begin ctx c u c' : BeginBlocker ctx c = (Ok u, c') -> steps_of allowed other c c'
| step_end ctx c u c' : EndBlocker ctx c = (Ok u, c') -> steps_of allowed other c c'
| step_foreign c c' : other c c' -> steps_of allowed other c c'.


Definition is_swap (msg : Msg) : bool :=
  match msg with ContractSwap _ | ContractSwapSend _ => true | _ => false end.
End chain.

(** Metadata of a denomination is no money. *)
Class BankMetaLaws (B : Type) `{BankOps B} `{BankMetaOps B} : Prop := {
  meta_balance md b a d : GetBalance (SetDenomMetaData md b) a d = GetBalance b a d;
}.

(** ** The oracle moves coins from its account to the distribution's only *)
Section oracle.
Context {B K D : Type} `{BankOps B} `{BankMetaOps B} `{StakingOps K} `{DistrOps D}.
Context `{MathOps} `{CoinOps} `{DecCoinsOps} `{AddrCodec} `{OracleBallot.BallotSort} `{MapRange}.
Context `{OracleState.DecCoinParser} `{OracleState.TmHash}.
Context `{!BankLaws B} `{!BankMetaLaws B}.
Implicit Types s : OracleState.State B K D.

Definition same_at (a : AccAddress) s s' : Prop := forall d,
  GetBalance (OracleState.st_bank s') a d = GetBalance (OracleState.st_bank s) a d.

#[local] Instance same_at_preorder a : PreOrder (same_at a).
Proof. split; [by intros s d|]. intros s1 s2 s3 H12 H23 d. by rewrite H23, H12. Qed.








End oracle.

(** ** What a transition does to the DODx staking module *)
Section facts.
Context {B K D G L W R U RG RL Y : Type} `{BankOps B} `{BankMetaOps B} `{StakingOps K} `{DistrOps D} `{FeePoolOps D}.
Context `{MathOps} `{CoinOps} `{DecCoinsOps} `{CoinSortOps} `{AddrCodec}.
Context `{OracleBallot.BallotSort} `{MapRange} `{OracleState.DecCoinParser} `{OracleState.TmHash}.
Context `{!BankLaws B} `{!BankMetaLaws B} `{!MathLaws} `{!CoinLaws} `{!DecCoinsLaws} `{!CoinSortLaws}.
Context `{!FeePoolLaws D} `{!AddrLaws} `{!WiredBank B}.
Context `{Upgrades.ParamStore G (Upgrades.GovParams RG)} `{Upgrades.ParamStore L (Upgrades.SlashingParams RL)}
  `{Upgrades.ParamStore W Upgrades.WasmParams}.
Notation X := (Others G L W R U * Y)%type.
Notation St := (Chain B K D X).
Implicit Types c : St.
Context (ext : phase -> string -> Ctx -> M St unit) `{Manager St} `{!ManagerLaws St}.

(** The handlers of other packages stay within their bounds. *)
Definition ext_within (other : St -> St -> Prop) : Prop :=
  forall ph name ctx c u c', ext ph name ctx c = (Ok u, c') -> other c c'.

Lemma in_view_ok {S A} (view : St -> S) (put : S -> St -> St) (m : M S A) c a c' :
  in_view view put m c = (Ok a, c') -> exists s, m (view c) = (Ok a, s) /\ c' = put s c.
Proof. unfold in_view. destruct (m (view c)) as [r s] eqn:E. intros [= -> <-]. eauto. Qed.

(** The store of the module is left alone and its escrow does not shrink. *)
Definition quiet c c' : Prop := same_dodx c c' /\ escrow c <= escrow c'.

#[local] Instance quiet_preorder : PreOrder quiet.
Proof.
  split; [by intros c|]. intros c1 c2 c3 [E1 L1] [E2 L2]. split; [intros b; by rewrite E2|lia].
Qed.






Definition same_bank (t t' : Treasury.State B K D (Market.State B (OracleState.State B K D))) : Prop :=
  Treasury.st_bank t' = Treasury.st_bank t.
#[local] Instance same_bank_preorder : PreOrder same_bank.
Proof. split; [done|]. intros ??? E1 E2. unfold same_bank in *. by rewrite E2. Qed.







(** The live fork writes parameters of governance, contracts, slashing and
    the oracle. *)
Lemma forks_keep ctx : keeps (fun a a' => Upgrades.DODxStakingKeeper a' = Upgrades.DODxStakingKeeper a /\
  Upgrades.MarketKeeper a' = Upgrades.MarketKeeper a)
  (Upgrades.BeginBlockForks (B := B) (K := K) (D := D) (DT := D)
    (O := Market.State B (OracleState.State B K D)) (MO := OracleState.State B K D) (R := R) (U := U) ctx).
Proof.
  assert (PreOrder (fun a a' : Upgrades.AppKeepers (Market.State B (OracleState.State B K D)) (OracleState.State B K D)
    (Treasury.State B K D (Market.State B (OracleState.State B K D))) (DodxStaking.State B) G L W R U =>
    Upgrades.DODxStakingKeeper a' = Upgrades.DODxStakingKeeper a /\
    Upgrades.MarketKeeper a' = Upgrades.MarketKeeper a)).
  { split; [done|]. intros a1 a2 a3 [E1 F1] [E2 F2]. by rewrite E2, F2. }
  unfold Upgrades.BeginBlockForks, Upgrades.run_forks, Upgrades.Forks. simpl.
  destruct (_ =? _); [|keeps]. unfold Upgrades.v15_1_runForkLogic. destruct (negb _); [keeps|].
  unfold Upgrades.setGovDepositParams, Upgrades.setWasmAccessParams, Upgrades.disableDelegatorSlashingOnJail,
    Upgrades.in_oracle.
  keeps; try done. intros x0 u0 x1 E. cbv beta in E. destruct (OracleState.SetParams _ _). by injection E as _ <-.
Qed.









(** ** The market *)
Notation MarketSt := (Market.State B (OracleState.State B K D)).

Definition same_market c c' : Prop := market_part c' = market_part c.
#[local] Instance same_market_preorder : PreOrder same_market.
Proof. split; [done|]. intros ??? E1 E2. unfold same_market in *. by rewrite E2. Qed.

Definition same_part (m m' : MarketSt) : Prop :=
  Market.st_params m' = Market.st_params m /\ Market.st_delta m' = Market.st_delta m.
#[local] Instance same_part_preorder : PreOrder same_part.
Proof. split; [done|]. intros ??? [E1 F1] [E2 F2]. unfold same_part. by rewrite E2, F2. Qed.

Lemma bank_call_part (f : B -> res B) : keeps same_part (Market.bank_call f).
Proof. intros m [] m' (b & _ & ->)%Market.market_bank_ok. done. Qed.

(** Without parameters a swap from or to the native coin cannot be priced. *)
Lemma unpriced_swap (m : MarketSt) offer ask : Market.st_params m = None ->
  Denom offer = MicroDoDenom \/ ask = MicroDoDenom -> is_ok (Market.ComputeSwap m offer ask) = false.
Proof.
  intros Hp Ho. destruct (Market.ComputeSwap m offer ask) as [r| |] eqn:E; [|done..]. exfalso.
  unfold Market.ComputeSwap, Market.BasePool, Market.get_param in E. rewrite Hp in E.
  destruct (String.eqb _ ask); [done|]. apply res_bind_ok in E as (dc & _ & E).
  apply res_bind_ok in E as (base & _ & E). apply res_bind_ok in E as (ret & _ & E).
  destruct (negb (String.eqb (Denom offer) MicroDoDenom) && negb (String.eqb ask MicroDoDenom)) eqn:C; [|done].
  apply andb_true_iff in C as [C1%negb_true_iff%String.eqb_neq C2%negb_true_iff%String.eqb_neq].
  by destruct Ho.
Qed.

Lemma swap_priced ctx trader receiver offer ask (m : MarketSt) r m' :
  Market.handleSwapRequest ctx trader receiver offer ask m = (Ok r, m') ->
  is_ok (Market.ComputeSwap m offer ask) = true.
Proof.
  intros [(ret & spread & fee & -> & _) _]%Market.handleSwapRequest_ok. done.
Qed.

Lemma swap_same_part ctx trader receiver offer ask (m : MarketSt) r m' :
  Denom offer <> MicroDoDenom -> ask <> MicroDoDenom ->
  Market.handleSwapRequest ctx trader receiver offer ask m = (Ok r, m') -> same_part m m'.
Proof.
  intros Ho Ha E. unfold Market.handleSwapRequest in E. m_bind E as s0 E0. m_inv E0.
  m_lift E as [ret spread] HC. pose proof (Market.ComputeSwap_ok _ _ _ _ _ HC) as (_ & Hd & _).
  m_lift E as fee HF. m_lift E as amt HA. m_bind E as [] EA.
  unfold Market.ApplySwapToPool in EA. cbn [DDenom] in EA.
  rewrite (proj2 (String.eqb_neq _ _) Ho), Hd, (proj2 (String.eqb_neq _ _) Ha) in EA. simpl in EA. m_inv EA.
  lazymatch type of E with
  | ?p _ = _ => assert (keeps same_part p) as Hk by (keeps; apply bank_call_part); exact (Hk _ _ _ E)
  end.
Qed.

(** Views that do not write the market's store. *)
Lemma same_market_put {S A} (view : St -> S) (put : S -> St -> St) (m : M S A) :
  (forall s c, market_part (put s c) = market_part c) -> keeps same_market (in_view view put m).
Proof. intros Hp c a c' (s & _ & ->)%in_view_ok. apply Hp. Qed.

(** Messages and blocks once the market has no parameters: a swap that is
    priced is one between other denominations, and leaves the pools alone. *)
Definition unstarted c : Prop := Market.st_params (c_market c) = None.
Definition dormant c c' : Prop := unstarted c -> same_market c c'.
#[local] Instance dormant_preorder : PreOrder dormant.
Proof.
  split; [done|]. intros c1 c2 c3 Hs1 Hs2 Hu. pose proof (Hs1 Hu) as E.
  transitivity c2; [done|]. apply Hs2. unfold unstarted, same_market, market_part in *. congruence.
Qed.
Lemma same_dormant {A} (m : M St A) : keeps same_market m -> keeps dormant m.
Proof. intros Hm c a c' E _. by eapply Hm. Qed.

Lemma dormant_swap ctx trader receiver offer ask :
  keeps dormant (in_market (void (Market.handleSwapRequest ctx trader receiver offer ask))).
Proof.
  intros c [] c' (s & E & ->)%in_view_ok Hu. unfold void in E. m_bind E as r Er. m_inv E.
  pose proof (swap_priced _ _ _ _ _ _ _ _ Er) as Hp.
  assert (Denom offer <> MicroDoDenom /\ ask <> MicroDoDenom) as [Ho Ha].
  { split; intros Ed; by rewrite (unpriced_swap (market_view c) offer ask Hu) in Hp; auto. }
  pose proof (swap_same_part _ _ _ _ _ _ _ _ Ho Ha Er) as [Hs1 Hs2].
  unfold same_market, market_part. cbn in *. by rewrite Hs1, Hs2.
Qed.

Lemma dormant_exec ctx msg : keeps dormant (exec ctx msg).
Proof.
  destruct msg as [m|m|m|m|m|m|m]; cbn [exec]; try (by apply same_dormant, same_market_put).
  - intros c u c' E. unfold Market.Swap, void, in_market, in_view in E.
    destruct (AccAddressFromBech32 (Market.Trader m)) as [a| |]; try done.
    by apply (dormant_swap ctx a a (Market.OfferCoin m) (Market.AskDenom m) c u c').
  - intros c u c' E. unfold Market.SwapSend, void, in_market, in_view in E.
    destruct (AccAddressFromBech32 (Market.FromAddress m)) as [a| |]; try done.
    destruct (AccAddressFromBech32 (Market.ToAddress m)) as [a'| |]; try done.
    by apply (dormant_swap ctx a a' (Market.SendOfferCoin m) (Market.SendAskDenom m) c u c').
Qed.

Lemma same_market_forks ctx : keeps same_market (in_app (Upgrades.BeginBlockForks ctx)).
Proof.
  intros c u c' (a & [_ Ef]%forks_keep & ->)%in_view_ok. unfold same_market, market_part. cbn. by rewrite Ef.
Qed.

(** No block and no genesis runs a handler of the market, and no other code
    of the repository writes its store. *)
Section blocks.
Context (Q : St -> St -> Prop) `{!PreOrder Q} (HQ : forall c c', same_market c c' -> Q c c') (Hext : ext_within Q).

Lemma blocks_same {A} (m : M St A) : keeps same_market m -> keeps Q m.
Proof. intros Hm c a c' E. apply HQ. by eapply Hm. Qed.

Lemma market_end ctx name : name ∈ scheduled EndBlock -> keeps Q (end_block ext ctx name).
Proof.
  intros Hn. unfold end_block. destruct (String.eqb name names.oracle); [by apply blocks_same, same_market_put|].
  destruct (String.eqb name names.treasury); [by apply blocks_same, same_market_put|].
  destruct (String.eqb_spec name names.market) as [->|_]; [by apply market_not_scheduled in Hn|].
  destruct (_ || _); [keeps|]. intros c u c' E. by eapply Hext.
Qed.

Lemma market_genesis ctx g name : name ∈ scheduled InitGenesis -> keeps Q (init_genesis ext ctx g name).
Proof.
  intros Hn. unfold init_genesis, with_entry.
  destruct (String.eqb name names.oracle); [destruct (g_oracle g); [by apply blocks_same, same_market_put|keeps]|].
  destruct (String.eqb name names.treasury); [destruct (g_treasury g); [by apply blocks_same, same_market_put|keeps]|].
  destruct (String.eqb_spec name names.market) as [->|_]; [by apply market_not_scheduled in Hn|].
  destruct (String.eqb name names.dodxstaking); [destruct (g_dodx g); [by apply blocks_same, same_market_put|keeps]|].
  intros c u c' E. by eapply Hext.
Qed.

Lemma market_started ctx g c u c' : InitChainer ext ctx g c = (Ok u, c') -> Q c c'.
Proof.
  intros E. unfold InitChainer in E. apply run_phase_ok in E. revert E. apply keeps_forM_in; [apply _|].
  intros name. apply market_genesis.
Qed.

Lemma market_step (allowed : Msg -> Prop) c c' : (forall ctx msg, allowed msg -> keeps Q (exec ctx msg)) ->
  steps_of ext allowed Q c c' -> Q c c'.
Proof.
  intros Hmsg Hs. destruct Hs as [ctx msg c Hk|content c|en c|ctx c u c' E|ctx c u c' E|c c' Hf]; [| | | | |done].
  - apply keeps_deliver; [apply _|by apply Hmsg].
  - apply keeps_deliver; [apply _|by apply blocks_same, same_market_put].
  - apply keeps_deliver; [apply _|by apply blocks_same, same_market_put].
  - revert E. apply keeps_bind; [apply _|apply blocks_same, same_market_forks|]. intros [] c1 u1 c2 E.
    apply run_phase_ok in E. revert E. apply keeps_forM; [apply _|].
    intros name. unfold begin_block. case_bool_decide; [keeps|].
    intros c3 u3 c4 E. by eapply Hext.
  - unfold EndBlocker in E. apply run_phase_ok in E. revert E. apply keeps_forM_in; [apply _|].
    intros name. apply market_end.
Qed.

Lemma market_run (allowed : Msg -> Prop) c c' : (forall ctx msg, allowed msg -> keeps Q (exec ctx msg)) ->
  rtc (steps_of ext allowed Q) c c' -> Q c c'.
Proof.
  intros Hmsg. induction 1 as [|c1 c2 c3 Hs _ IH]; [reflexivity|].
  transitivity c2; [by eapply market_step|done].
Qed.
End blocks.

#[local] Instance same_delta_preorder : @PreOrder St same_delta.
Proof. split; [done|]. intros ??? E1 E2. unfold same_delta in *. by rewrite E2. Qed.
Lemma market_delta c c' : same_market c c' -> same_delta c c'.
Proof. unfold same_market, market_part, same_delta. congruence. Qed.

(** The genesis of the market is that of no module: what the other modules
    do at genesis does not read it. *)
Definition with_market (entry : option Market.GenesisState) (g : Genesis) : Genesis :=
  mkGenesis (g_oracle g) entry (g_treasury g) (g_dodx g).
Lemma genesis_without_market ctx g entry name : name ∈ scheduled InitGenesis ->
  init_genesis ext ctx (with_market entry g) name = init_genesis ext ctx g name.
Proof.
  intros Hn. unfold init_genesis. destruct (String.eqb_spec name names.market) as [->|_]; [|done].
  by apply market_not_scheduled in Hn.
Qed.
Lemma forM_same {S X} (f f' : X -> M S unit) l : (forall x, x ∈ l -> f x = f' x) -> forM f l = forM f' l.
Proof.
  induction l as [|x l IH]; intros Hf; [done|]. simpl. rewrite Hf by (by left). rewrite IH; [done|].
  intros y Hy. apply Hf. by right.
Qed.
Lemma started_without_market ctx g entry c u c1 u' c1' :
  InitChainer ext ctx g c = (Ok u, c1) -> InitChainer ext ctx (with_market entry g) c = (Ok u', c1') -> c1' = c1.
Proof.
  unfold InitChainer. intros E1%run_phase_ok E2%run_phase_ok.
  rewrite (forM_same _ (init_genesis ext ctx g)) in E2 by (intros x; apply genesis_without_market).
  rewrite E1 in E2. by injection E2.
Qed.

(** A swap of the native coin without parameters. *)
Definition native_swap (msg : Msg) : Prop :=
  match msg with
  | ContractSwap m => Denom (Market.OfferCoin m) = MicroDoDenom \/ Market.AskDenom m = MicroDoDenom
  | ContractSwapSend m => Denom (Market.SendOfferCoin m) = MicroDoDenom \/ Market.SendAskDenom m = MicroDoDenom
  | _ => False
  end.
Lemma native_swap_refused ctx msg c : unstarted c -> native_swap msg -> is_ok (fst (exec ctx msg c)) = false.
Proof.
  intros Huc Hm. destruct (exec ctx msg c) as [[r|e|] c'] eqn:Ex; [|done..]. exfalso.
  destruct msg as [m|m|m|m|m|m|m]; try done; cbn [exec] in Ex; apply in_view_ok in Ex as (s & Ex & _);
    unfold void in Ex; m_bind Ex as v Ev; clear Ex; unfold Market.Swap, Market.SwapSend in Ev.
  - m_lift Ev as a Ha. apply swap_priced in Ev. by rewrite unpriced_swap in Ev.
  - m_lift Ev as a Ha. m_lift Ev as a' Ha'. apply swap_priced in Ev. by rewrite unpriced_swap in Ev.
Qed.

(** C19: the market never runs.  The list of modules that the application
    hands to the manager has no entry for the market, so that its genesis
    state is never read and its end of block never runs.  A chain starts in
    the same state whatever the genesis file says about the market.  Whatever
    messages but swaps, blocks and proposals follow, those that set the
    market's parameters by name included, its pool delta stays what it was:
    the pools are never replenished; only the market's keeper has the key of
    the delta, so that other packages do not write it.  And as long as no other module writes
    the market's parameters, for which only such a proposal is left, they
    stay unset, the pool delta is that of before the genesis whatever swaps
    are tried, and every swap with the native coin on either side is
    refused. *)
Theorem market_never_runs ctx g c0 u c1 c : InitChainer ext ctx g c0 = (Ok u, c1) ->
  (forall entry u' c1', InitChainer ext ctx (with_market entry g) c0 = (Ok u', c1') -> c1' = c1) /\
  (ext_within same_delta -> rtc (steps_of ext (fun msg => is_swap msg = false) same_delta) c1 c ->
   same_delta c0 c) /\
  (ext_within same_market -> unstarted c0 -> rtc (steps_of ext (fun _ => True) same_market) c1 c ->
   unstarted c /\ same_delta c0 c /\
   forall ctx' msg, native_swap msg -> is_ok (fst (exec ctx' msg c)) = false).
Proof.
  intros E. split; [intros entry u' c1'; by apply (started_without_market _ _ _ _ _ _ _ _ E)|]. split.
  - intros Hext Hr. transitivity c1; [by eapply (market_started same_delta market_delta)|].
    revert Hr. apply (market_run same_delta market_delta Hext). intros ctx' msg Hm. apply (blocks_same _ market_delta).
    destruct msg; try done; by apply same_market_put.
  - intros Hext Hu Hr.
    assert (same_market c0 c1) as H01 by by eapply (market_started same_market (fun _ _ H => H)).
    assert (unstarted c1) as Hu1 by (unfold unstarted, same_market, market_part in *; congruence).
    assert (same_market c1 c) as H1c.
    { assert (dormant c1 c) as Hd; [|by apply Hd].
      apply (market_run dormant (fun _ _ H _ => H) (fun ph n x a v b E _ => Hext ph n x a v b E) (fun _ => True)
        _ _ (fun x m _ => dormant_exec x m)).
      revert Hr. apply rtc_subrel. intros a b Hs. destruct Hs; try by econstructor. apply step_foreign. by intros _. }
    assert (same_market c0 c) as H0c by (by transitivity c1).
    assert (unstarted c) as Huc by (unfold unstarted, same_market, market_part in *; congruence).
    split; [done|]. split; [by apply market_delta|]. intros ctx' msg. by apply native_swap_refused.
Qed.
End facts.

(** ** A small chain: one validator, Alice with DODx and a market genesis *)
Module Example.
#[local] Existing Instances Wiring.Example.wired_bank Wiring.Example.wired_bank_laws
  Wiring.Example.wired_bank_wired Wiring.Example.manager Wiring.Example.manager_laws
  OracleState.Example.parser OracleState.Example.hash OracleBallot.ref_sort
  Upgrades.Example.plain_store.

#[export] Instance purse_meta : BankMetaOps Wiring.Example.purse := {|
  HasDenomMetaData _ _ := true;
  SetDenomMetaData _ p := p;
|}.
#[export] Instance purse_meta_laws : BankMetaLaws Wiring.Example.purse.
Proof. by split. Qed.

(** Rewards by validator, and the community pool. *)
Record distr : Type := mkDistr { d_rewards : list (string * list DecCoin); d_pool : list DecCoin }.
#[export] Instance distr_ops : DistrOps distr := {|
  AllocateTokensToValidator v cs d := mkDistr ((GetOperator v, cs) :: d_rewards d) (d_pool d);
|}.
#[export] Instance distr_pool : FeePoolOps distr := {|
  FeePool_Get d := Ok (d_pool d);
  FeePool_Set p d := mkDistr (d_rewards d) p;
|}.
#[export] Instance distr_pool_laws : FeePoolLaws distr.
Proof. by split. Qed.

#[local] Abbreviation OtherKeepers :=
  (Others (Upgrades.GovParams unit) (Upgrades.SlashingParams unit) Upgrades.WasmParams unit unit).
#[local] Abbreviation St := (Chain Wiring.Example.purse (list ref_validator) distr (OtherKeepers * unit)).
Definition others0 : OtherKeepers :=
  Upgrades.mkApp tt tt tt tt (Upgrades.mkGovParams [mkCoin "udo" 5] [mkCoin "udo" 9] tt)
    (Upgrades.mkSlashingParams 1 2 tt)
    (Upgrades.mkWasmParams (Upgrades.mkAccess Upgrades.AccessTypeNobody []) Upgrades.AccessTypeNobody)
    ∅ ∅ [] ∅ ∅ tt.
Definition idle (_ : phase) (_ : string) (_ : Ctx) : M St unit := mret tt.

Lemma idle_within Q : (forall c, Q c c) -> ext_within idle Q.
Proof. by intros Hq ph name ctx c u c' [= _ <-]. Qed.

Definition purse0 : Wiring.Example.purse :=
  Wiring.Example.mkPurse
    (fun a _ => if String.eqb a "alice" then 100 else if String.eqb a "module:dodxstaking" then 7 else 0)
    (fun _ => 107).
Definition staking0 : list ref_validator := [mkRefValidator "val" 10 true false].
Definition distr0 : distr := mkDistr [] [].
Definition oracle0 : OracleState.State Wiring.Example.purse (list ref_validator) distr :=
  OracleState.mkState None ∅ ∅ ∅ ∅ ∅ ∅ purse0 staking0 distr0.
Definition market0 : Market.State Wiring.Example.purse (OracleState.State Wiring.Example.purse (list ref_validator) distr) :=
  Market.mkState None None purse0 oracle0.
Definition c0 : St :=
  mkChain purse0 staking0 distr0 (DodxStaking.mkState ∅ None false purse0) oracle0 market0
    (Treasury.mkState Treasury.DefaultParams None None ∅ None None ∅ ∅ ∅ ∅ purse0 staking0 distr0 market0)
    (others0, tt).

Definition genesis : Genesis :=
  mkGenesis (Some OracleState.DefaultGenesisState) (Some Market.DefaultGenesisState)
    (Some Treasury.DefaultGenesisState)
    (Some (DodxStaking.mkGenesisState [DodxStaking.mkStakeRecord "do1bob" (mkCoin "udodx" 7)] true)).
Definition at_height (h : Z) : Ctx := mkCtx h 0 "Do-Chain" false false.

Definition c1 : St := (InitChainer idle (at_height 1) genesis c0).2.
Definition stake : Msg := MsgStake (DodxStaking.mkMsgStake "do1alice" (mkCoin "udodx" 5)).
Definition c2 : St := deliver (exec (at_height 2) stake) c1.
Definition c3 : St := (EndBlocker idle (at_height 2) c2).2.

(** The block of the fork. *)
Definition c4 : St := (BeginBlocker idle (at_height DoCommunityGovernanceHeight) c3).2.

Lemma c4_begins : BeginBlocker idle (at_height DoCommunityGovernanceHeight) c3 = (Ok tt, c4).
Proof. by vm_compute. Qed.
Lemma c4_forked :
  Upgrades.MinDeposit (Upgrades.GovKeeper (fst (c_other c4))) = [mkCoin "udodx" 1000000].
Proof. by vm_compute. Qed.
Lemma c1_starts : InitChainer idle (at_height 1) genesis c0 = (Ok tt, c1).
Proof. by vm_compute. Qed.
Lemma c3_ends : EndBlocker idle (at_height 2) c2 = (Ok tt, c3).
Proof. by vm_compute. Qed.
Lemma runs_with allowed other : allowed stake -> rtc (steps_of idle allowed other) c1 c4.
Proof.
  intros Hs. eapply rtc_l; [by apply (step_tx idle allowed other (at_height 2) stake)|].
  eapply rtc_l; [eapply step_end, c3_ends|]. apply rtc_once. eapply step_begin, c4_begins.
Qed.
(** A proposal sets the parameters of the market, and the block ends. *)
Definition propose (p : Market.Params) (c : St) : St :=
  put_market (Market.mkState (Some p) (Market.st_delta (c_market c)) (c_bank c) (oracle_view c)) c.
Lemma propose_delta p c : same_delta c (propose p c).
Proof. done. Qed.
Definition c5 : St := propose Market.DefaultParams c4.
Definition c6 : St := (EndBlocker idle (at_height DoCommunityGovernanceHeight) c5).2.
Lemma c6_ends : EndBlocker idle (at_height DoCommunityGovernanceHeight) c5 = (Ok tt, c6).
Proof. by vm_compute. Qed.
Lemma runs_with_proposal : rtc (steps_of idle (fun msg => is_swap msg = false) same_delta) c1 c6.
Proof.
  transitivity c4; [by apply runs_with|]. eapply rtc_l; [apply step_foreign, (propose_delta Market.DefaultParams)|].
  apply rtc_once. eapply step_end, c6_ends.
Qed.


End Example.

#[local] Existing Instances Wiring.Example.wired_bank Wiring.Example.wired_bank_laws
  Wiring.Example.wired_bank_wired Wiring.Example.manager Wiring.Example.manager_laws
  OracleState.Example.parser OracleState.Example.hash OracleBallot.ref_sort
  Upgrades.Example.plain_store Example.purse_meta Example.purse_meta_laws Example.distr_ops Example.distr_pool Example.distr_pool_laws.



Lemma market_never_runs_witness :
  (forall entry u' c1', InitChainer Example.idle (Example.at_height 1) (with_market entry Example.genesis) Example.c0
     = (Ok u', c1') -> c1' = Example.c1) /\
  (Market.st_params (c_market Example.c6) = Some Market.DefaultParams /\ Market.st_delta (c_market Example.c6) = None) /\
  Market.st_params (c_market Example.c4) = None /\
  is_ok (fst (exec (Example.at_height 3)
    (ContractSwap (Market.mkMsgSwap "do1alice" (mkCoin "udo" 10) "udodx")) Example.c4)) = false.
Proof.
  pose proof (fun c => market_never_runs Example.idle (Example.at_height 1) Example.genesis Example.c0 tt Example.c1 c
    Example.c1_starts) as H.
  split; [apply (H Example.c4)|]. split.
  - split; [vm_compute; reflexivity|].
    destruct (H Example.c6) as (_ & Hd & _).
    exact (Hd (Example.idle_within _ (fun _ => eq_refl)) Example.runs_with_proposal).
  - destruct (H Example.c4) as (_ & _ & Hs).
    destruct (Hs (Example.idle_within _ (fun _ => eq_refl)) eq_refl (Example.runs_with _ _ I)) as (Hp & _ & Hn).
    split; [exact Hp|]. apply Hn. left. reflexivity.
Defined.
