(* ===== verification/Cli.v ===== *)
(** * Transactions of the command line

    The commands under [src/x/*/client/cli], [src/custom/*/client/cli] and the
    estimate of fees in [src/custom/auth/client/utils/feeutils.go].  A command
    takes its arguments and the flags of its command object and hands a
    transaction factory and messages to the SDK, which signs and sends them:
    that pair is the answer of the model.  Flags, the factory they describe,
    simulation and the account query are the interface [Command], the text of
    coins is [CoinText].

    The theorems: what the estimate charges for gas, and that a node with the
    same prices accepts it; that a prevote and a vote of the command line open
    each other; that a multi-send balances; that a contract has an admin
    exactly when one was named; that a salt is read back from each encoding;
    and that a proposal built from a list of addresses exempts exactly those. *)
From stdpp Require Import base gmap sets list strings fin_maps sorting.
From Stdlib Require Import ZArith Lia Ascii.
From S2P Require Import Prelude Sdk SdkRef Core.
From S2P Require DodxStaking Market OracleBallot OracleState Treasury Ante TxLogs.
#[local] Open Scope Z_scope.

(** ** What the SDK's client gives a command *)
Record ClientCtx : Type := mkClientCtx { FromAddress : AccAddress; GenerateOnly : bool }.

(** A float64 as mantissa and exponent of two. *)
Abbreviation float := (Z * Z)%type.

Record Factory : Type := mkFactory {
  f_AccountNumber : Z;
  f_Sequence : Z;
  f_Fees : list Coin;
  f_Gas : Z;
  f_GasPrices : list DecCoin;
  f_GasAdjustment : float;
  f_SimulateAndExecute : bool;
}.

Record Output : Type := mkOutput { out_Address : string; out_Coins : list Coin }.
Record MsgExecuteContract : Type := mkMsgExecute {
  ex_Sender : string; ex_Contract : string; ex_Msg : string; ex_Funds : list Coin;
}.
Record MsgInstantiateContract : Type := mkMsgInstantiate {
  in_Sender : string; in_Admin : string; in_CodeID : Z; in_Label : string; in_Msg : string;
  in_Funds : list Coin;
}.

Inductive Msg : Type :=
| Stake (m : DodxStaking.MsgStake)
| Unstake (m : DodxStaking.MsgUnstake)
| Prevote (m : OracleState.MsgAggregateDoRatePrevote)
| Vote (m : OracleState.MsgAggregateDoRateVote)
| Consent (m : OracleState.MsgDelegateFeedConsent)
| Swap (m : Market.MsgSwap)
| SwapSend (m : Market.MsgSwapSend)
| Send (from to : string) (coins : list Coin)
| MultiSend (from : string) (amount : list Coin) (outputs : list Output)
| Execute (m : MsgExecuteContract)
| Instantiate (m : MsgInstantiateContract)
| Instantiate2 (m : MsgInstantiateContract) (salt : string) (fixMsg : bool)
| SubmitProposal (content : Treasury.Content) (deposit : list Coin) (proposer : string)
| Exec (grantee : string) (msgs : list Msg).

(** The command object [C] with its flags, and the node behind the client. *)
Class Command (C : Type) : Type := {
  GetClientTxContext : C -> res ClientCtx;
  NewFactoryCLI : ClientCtx -> C -> res Factory;
  SetFlag : string -> string -> C -> res C;
  GetString : C -> string -> res string;
  GetBool : C -> string -> res bool;
  EnsureExists : ClientCtx -> AccAddress -> res unit;
  GetAccountNumberSequence : ClientCtx -> AccAddress -> res (Z * Z);
  CalculateGas : ClientCtx -> Factory -> list Msg -> res Z;
  ReadTxFromFile : ClientCtx -> string -> res (list Msg);
  WasmValidateBasic : Msg -> res unit;
}.

(** Texts of coins: a valid set is read back from its text. *)
Class CoinText : Type := {
  ParseCoinNormalized : string -> res Coin;
  ParseCoinsNormalized : string -> res (list Coin);
  CoinsString : list Coin -> string;
}.
Class CoinTextLaws `{CoinOps} `{CoinText} : Prop := {
  ParseCoins_valid text cs : ParseCoinsNormalized text = Ok cs -> CoinsIsValid cs = true;
  ParseCoins_String cs : CoinsIsValid cs = true -> ParseCoinsNormalized (CoinsString cs) = Ok cs;
}.

(** [Coins.QuoInt] and [Coins.MulInt] act on each amount and panic on zero. *)
Class CoinScale : Type := {
  CoinsQuoInt : list Coin -> Z -> res (list Coin);
  CoinsMulInt : list Coin -> Z -> res (list Coin);
}.
Definition scale_coins (f : Z -> Z) (cs : list Coin) : list Coin :=
  map (fun c => mkCoin (Denom c) (f (Amount c))) cs.
Class CoinScaleLaws `{CoinScale} : Prop := {
  CoinsQuoInt_inv cs x z : CoinsQuoInt cs x = Ok z -> x <> 0 /\ z = scale_coins (fun a => Z.quot a x) cs;
  CoinsMulInt_inv cs x z : CoinsMulInt cs x = Ok z -> x <> 0 /\ z = scale_coins (fun a => a * x) cs;
}.

Record StdFee : Type := mkStdFee { fee_Amount : list Coin; fee_Gas : Z }.

(** [fmt.Errorf("text: %s", err)] *)
Definition errorf {A} (text : string) (r : res A) : res A :=
  match r with Err _ => Err (Plain text) | r => r end.

Definition wrong_args {A} : res A := Err (Plain "accepts a different number of arguments").

(** [strings.Join] with commas, which [strings.Split] takes apart. *)
Fixpoint join_comma (l : list string) : string :=
  match l with
  | [] => ""
  | [x] => x
  | x :: l => x +:+ String (Ascii.ascii_of_nat 44) (join_comma l)
  end.

(** One step of a computation that answered. *)
Ltac res_step_as H x Ex := apply res_bind_ok in H as (x & Ex & H).
Tactic Notation "res_step" hyp(H) "as" ident(x) := let E := fresh "E0" in res_step_as H x E.
Tactic Notation "res_step" hyp(H) := let x := fresh "v" in let E := fresh "E0" in res_step_as H x E.

Section commands.
Context {C : Type} `{Command C} `{MathOps} `{CoinOps} `{CoinSortOps} `{AddrCodec}.
Context `{CoinText} `{CoinScale} `{OracleState.DecCoinParser} `{OracleState.TmHash}.

(** ** custom/auth/client/utils/feeutils.go *)
Definition prepareFactory (clientCtx : ClientCtx) (txf : Factory) : res Factory :=
  let from := FromAddress clientCtx in
  EnsureExists clientCtx from ;;
  let initNum := f_AccountNumber txf in
  let initSeq := f_Sequence txf in
  if (initNum =? 0) || (initSeq =? 0) then
    '(num, seq) ← GetAccountNumberSequence clientCtx from;
    Ok (mkFactory (if initNum =? 0 then num else initNum) (if initSeq =? 0 then seq else initSeq)
      (f_Fees txf) (f_Gas txf) (f_GasPrices txf) (f_GasAdjustment txf) (f_SimulateAndExecute txf))
  else Ok txf.

Definition FilterMsgAndComputeTax (clientCtx : ClientCtx) (msgs : list Msg) : res (list Coin) := NewCoins [].

(** [int64(x)] cuts the fraction off, for a value in the range of int64. *)
Definition int64_of_float (x : float) : Z :=
  let '(m, e) := x in if 0 <=? e then m * 2 ^ e else Z.quot m (2 ^ (- e)).

Definition gas_adjustment (txf : Factory) : Z :=
  let adjustment := LegacyNewDecWithPrec (i64 (int64_of_float (f_GasAdjustment txf) * 100)) 2 in
  if adjustment <? LegacyOneDec then LegacyOneDec else adjustment.

Definition gas_fee (glDec adjustment : Z) (gp : DecCoin) : res Coin :=
  fee ← DecMul (DAmount gp) glDec;
  fee ← DecMul fee adjustment;
  c ← DecCeil fee;
  n ← DecRoundInt c;
  NewCoin (DDenom gp) n.

Definition ComputeFeesWithCmd (clientCtx : ClientCtx) (flagSet : C) (msgs : list Msg) : res StdFee :=
  txf ← NewFactoryCLI clientCtx flagSet;
  gas ← (if f_SimulateAndExecute txf
         then txf ← prepareFactory clientCtx txf; CalculateGas clientCtx txf msgs
         else Ok (f_Gas txf));
  taxes ← FilterMsgAndComputeTax clientCtx msgs;
  fees ← CoinsAdd (f_Fees txf) taxes;
  let gasPrices := f_GasPrices txf in
  fees ← (if negb (Ante.DecCoinsIsZero gasPrices)
          then gasFees ← mapM (gas_fee (LegacyNewDec (i64 gas)) (gas_adjustment txf)) gasPrices;
               CoinsAdd fees (CoinsSort gasFees)
          else Ok fees);
  Ok (mkStdFee fees gas).

(** The same lines stand in every command that estimates its fee: [WithFees]
    reads the text of the estimate back, and panics when it cannot. *)
Definition with_estimate (clientCtx : ClientCtx) (cmd : C) (txf : Factory) (msg : Msg) : res Factory :=
  if negb (GenerateOnly clientCtx) && CoinsIsZero (f_Fees txf) then
    stdFee ← ComputeFeesWithCmd clientCtx cmd [msg];
    match ParseCoinsNormalized (CoinsString (fee_Amount stdFee)) with
    | Ok fees => Ok (mkFactory (f_AccountNumber txf) (f_Sequence txf) fees (fee_Gas stdFee) []
                      (f_GasAdjustment txf) false)
    | _ => Panic
    end
  else Ok txf.

(** [tx.GenerateOrBroadcastTxCLI] makes the factory from the flags. *)
Definition GenerateOrBroadcastTxCLI (clientCtx : ClientCtx) (cmd : C) (msgs : list Msg) :
    res (Factory * list Msg) :=
  txf ← NewFactoryCLI clientCtx cmd;
  Ok (txf, msgs).

(** ** x/oracle/client/cli/tx.go, with the constructors of x/oracle/types/msgs.go *)
Definition NewMsgAggregateDoRatePrevote (hash : string) (feeder : AccAddress) (validator : ValAddress) :=
  OracleState.mkMsgPrevote (OracleState.EncodeToString hash) (AccAddressString feeder) (ValAddressString validator).
Definition NewMsgAggregateDoRateVote (salt exchangeRates : string) (feeder : AccAddress) (validator : ValAddress) :=
  OracleState.mkMsgVote salt exchangeRates (AccAddressString feeder) (ValAddressString validator).
Definition NewMsgDelegateFeedConsent (operatorAddress : ValAddress) (feederAddress : AccAddress) :=
  OracleState.mkMsgDelegate (ValAddressString operatorAddress) (AccAddressString feederAddress).

Definition GetCmdDelegateFeederPermission (cmd : C) (args : list string) : res (Factory * list Msg) :=
  match args with
  | [feederStr] =>
      clientCtx ← GetClientTxContext cmd;
      let voter := FromAddress clientCtx in
      feeder ← AccAddressFromBech32 feederStr;
      GenerateOrBroadcastTxCLI clientCtx cmd [Consent (NewMsgDelegateFeedConsent voter feeder)]
  | _ => wrong_args
  end.

(** The validator of a vote: the sender, or the third argument. *)
Definition voted_for (voter : AccAddress) (third : list string) : res ValAddress :=
  match third with
  | [] => Ok voter
  | text :: _ => errorf "validator address is invalid" (ValAddressFromBech32 text)
  end.

Definition GetCmdAggregateDoRatePrevote (cmd : C) (args : list string) : res (Factory * list Msg) :=
  match args with
  | [salt; exchangeRatesStr] | [salt; exchangeRatesStr; _] =>
      clientCtx ← GetClientTxContext cmd;
      _ ← errorf "exchange_rate should be formatted as DecCoins" (OracleState.ParseDoRateTuples exchangeRatesStr);
      let voter := FromAddress clientCtx in
      validator ← voted_for voter (drop 2 args);
      let hash := OracleState.GetAggregateVoteHash salt exchangeRatesStr validator in
      GenerateOrBroadcastTxCLI clientCtx cmd [Prevote (NewMsgAggregateDoRatePrevote hash voter validator)]
  | _ => wrong_args
  end.

Definition GetCmdAggregateDoRateVote (cmd : C) (args : list string) : res (Factory * list Msg) :=
  match args with
  | [salt; exchangeRatesStr] | [salt; exchangeRatesStr; _] =>
      clientCtx ← GetClientTxContext cmd;
      _ ← errorf "exchange rate should be formatted as DecCoin" (OracleState.ParseDoRateTuples exchangeRatesStr);
      let voter := FromAddress clientCtx in
      validator ← voted_for voter (drop 2 args);
      GenerateOrBroadcastTxCLI clientCtx cmd
        [Vote (NewMsgAggregateDoRateVote salt exchangeRatesStr voter validator)]
  | _ => wrong_args
  end.

(** ** x/market/client/cli/tx.go *)
Definition GetSwapCmd (cmd : C) (args : list string) : res (Factory * list Msg) :=
  match args with
  | [offerCoinStr; askDenom] | [offerCoinStr; askDenom; _] =>
      clientCtx ← GetClientTxContext cmd;
      txf ← NewFactoryCLI clientCtx cmd;
      offerCoin ← ParseCoinNormalized offerCoinStr;
      let fromAddress := AccAddressString (FromAddress clientCtx) in
      match drop 2 args with
      | to :: _ =>
          toAddress ← AccAddressFromBech32 to;
          let msg := SwapSend (Market.mkMsgSwapSend fromAddress (AccAddressString toAddress) offerCoin askDenom) in
          txf ← with_estimate clientCtx cmd txf msg;
          Ok (txf, [msg])
      | [] => Ok (txf, [Swap (Market.mkMsgSwap fromAddress offerCoin askDenom)])
      end
  | _ => wrong_args
  end.

(** ** x/dodxstaking/client/cli/tx.go *)
Definition GetStakeCmd (cmd : C) (args : list string) : res (Factory * list Msg) :=
  match args with
  | [arg] =>
      clientCtx ← GetClientTxContext cmd;
      amount ← ParseCoinNormalized arg;
      let staker := AccAddressString (FromAddress clientCtx) in
      DodxStaking.validateStakeMsg staker amount ;;
      GenerateOrBroadcastTxCLI clientCtx cmd [Stake (DodxStaking.mkMsgStake staker amount)]
  | _ => wrong_args
  end.

Definition GetUnstakeCmd (cmd : C) (args : list string) : res (Factory * list Msg) :=
  match args with
  | [arg] =>
      clientCtx ← GetClientTxContext cmd;
      amount ← ParseCoinNormalized arg;
      let staker := AccAddressString (FromAddress clientCtx) in
      DodxStaking.validateStakeMsg staker amount ;;
      GenerateOrBroadcastTxCLI clientCtx cmd [Unstake (DodxStaking.mkMsgUnstake staker amount)]
  | _ => wrong_args
  end.

(** ** x/treasury/client/cli/gov_tx.go *)
Definition proposal_cmd (content : string -> string -> list string -> Treasury.Content) (cmd : C)
    (args : list string) : res (Factory * list Msg) :=
  match args with
  | [arg] =>
      clientCtx ← GetClientTxContext cmd;
      let addresses := OracleState.split_comma arg in
      proposalTitle ← errorf "proposal title" (GetString cmd "title");
      proposalDescr ← errorf "proposal description" (GetString cmd "description");
      depositArg ← GetString cmd "deposit";
      deposit ← ParseCoinsNormalized depositArg;
      GenerateOrBroadcastTxCLI clientCtx cmd
        [SubmitProposal (content proposalTitle proposalDescr addresses) deposit
           (AccAddressString (FromAddress clientCtx))]
  | _ => wrong_args
  end.
Definition ProposalAddBurnTaxExemptionAddressCmd := proposal_cmd Treasury.AddBurnTaxExemptionAddressProposal.
Definition ProposalRemoveBurnTaxExemptionAddressCmd := proposal_cmd Treasury.RemoveBurnTaxExemptionAddressProposal.

(** ** custom/bank/client/cli/tx.go *)
Definition sendTxCmd (cmd : C) (args : list string) : res (Factory * list Msg) :=
  match args with
  | [from; to; amount] =>
      cmd ← SetFlag "from" from cmd;
      clientCtx ← GetClientTxContext cmd;
      toAddr ← AccAddressFromBech32 to;
      coins ← ParseCoinsNormalized amount;
      let msg := Send (AccAddressString (FromAddress clientCtx)) (AccAddressString toAddr) coins in
      txf ← NewFactoryCLI clientCtx cmd;
      txf ← with_estimate clientCtx cmd txf msg;
      Ok (txf, [msg])
  | _ => wrong_args
  end.

(** [cmd.Flags().Set(flags.FlagFrom, args[0])] without a look at its error. *)
Definition set_from (from : string) (cmd : C) : res C :=
  match SetFlag "from" from cmd with Err _ => Ok cmd | r => r end.

Definition multiSendTxCmd (cmd : C) (args : list string) : res (Factory * list Msg) :=
  if Nat.ltb (length args) 4 then wrong_args
  else
    cmd ← set_from (default "" (head args)) cmd;
    clientCtx ← GetClientTxContext cmd;
    coins ← ParseCoinsNormalized (default "" (last args));
    if CoinsIsZero coins then Err (Plain "must send positive amount")
    else
      split ← GetBool cmd "split";
      let totalAddrs := Z.of_nat (length args) - 2 in
      sendCoins ← (if (split : bool) then CoinsQuoInt coins totalAddrs else Ok coins);
      output ← mapM (fun arg => toAddr ← AccAddressFromBech32 arg;
                                Ok (mkOutput (AccAddressString toAddr) sendCoins))
                 (removelast (tail args));
      amount ← (if (split : bool) then CoinsMulInt sendCoins totalAddrs else CoinsMulInt coins totalAddrs);
      let msg := MultiSend (AccAddressString (FromAddress clientCtx)) amount output in
      txf ← NewFactoryCLI clientCtx cmd;
      txf ← with_estimate clientCtx cmd txf msg;
      Ok (txf, [msg]).

(** ** custom/authz/client/cli/tx.go, custom/auth/client/cli/estimate_fee.go *)
Definition NewCmdExecAuthorization (cmd : C) (args : list string) : res (Factory * list Msg) :=
  match args with
  | [file] =>
      clientCtx ← GetClientTxContext cmd;
      let grantee := FromAddress clientCtx in
      if match GetBool cmd "offline" with Ok b => b | _ => false end
      then Err (Plain "cannot broadcast tx during offline mode")
      else
        theTx ← ReadTxFromFile clientCtx file;
        txf ← NewFactoryCLI clientCtx cmd;
        let msg := Exec (AccAddressString grantee) theTx in
        txf ← with_estimate clientCtx cmd txf msg;
        Ok (txf, [msg])
  | _ => wrong_args
  end.

Definition GetTxFeesEstimateCommand (cmd : C) (args : list string) : res StdFee :=
  match args with
  | [file] =>
      clientCtx ← GetClientTxContext cmd;
      stdTx ← ReadTxFromFile clientCtx file;
      ComputeFeesWithCmd clientCtx cmd stdTx
  | _ => wrong_args
  end.

(** ** custom/wasm/client/cli/tx.go *)
Definition parseExecuteArgs (contractAddr execMsg : string) (sender : AccAddress) (flags : C) :
    res MsgExecuteContract :=
  amountStr ← errorf "amount" (GetString flags "amount");
  amount ← ParseCoinsNormalized amountStr;
  Ok (mkMsgExecute (AccAddressString sender) contractAddr execMsg amount).

(** [strconv.ParseUint(s, 10, 64)] *)
Definition ParseUint (s : string) : res Z :=
  match TxLogs.unsigned s with
  | Some n => if n <? 2 ^ 64 then Ok n else Err (Plain "value out of range")
  | None => Err (Plain "invalid syntax")
  end.

Definition parseInstantiateArgs (rawCodeID initMsg : string) (sender : AccAddress) (flags : C) :
    res MsgInstantiateContract :=
  codeID ← ParseUint rawCodeID;
  amountStr ← errorf "amount" (GetString flags "amount");
  amount ← errorf "amount" (ParseCoinsNormalized amountStr);
  label ← errorf "label" (GetString flags "label");
  if String.eqb label "" then Err (Plain "label is required on all contracts")
  else
    adminStr ← errorf "admin" (GetString flags "admin");
    noAdmin ← errorf "no-admin" (GetBool flags "no-admin");
    if String.eqb adminStr "" && negb noAdmin
    then Err (Plain "you must set an admin or explicitly pass --no-admin")
    else if negb (String.eqb adminStr "") && noAdmin
    then Err (Plain "you set an admin and passed --no-admin, those cannot both be true")
    else Ok (mkMsgInstantiate (AccAddressString sender) adminStr codeID label initMsg amount).

Definition ExecuteContractCmd (cmd : C) (args : list string) : res (Factory * list Msg) :=
  match args with
  | [contract; execMsg] =>
      clientCtx ← GetClientTxContext cmd;
      txf ← NewFactoryCLI clientCtx cmd;
      msg ← parseExecuteArgs contract execMsg (FromAddress clientCtx) cmd;
      WasmValidateBasic (Execute msg) ;;
      txf ← with_estimate clientCtx cmd txf (Execute msg);
      Ok (txf, [Execute msg])
  | _ => wrong_args
  end.

Definition InstantiateContractCmd (cmd : C) (args : list string) : res (Factory * list Msg) :=
  match args with
  | [rawCodeID; initMsg] =>
      clientCtx ← GetClientTxContext cmd;
      msg ← parseInstantiateArgs rawCodeID initMsg (FromAddress clientCtx) cmd;
      WasmValidateBasic (Instantiate msg) ;;
      txf ← NewFactoryCLI clientCtx cmd;
      txf ← with_estimate clientCtx cmd txf (Instantiate msg);
      Ok (txf, [Instantiate msg])
  | _ => wrong_args
  end.

(** [base64.StdEncoding.DecodeString]: line breaks are skipped, the last
    group is padded, and the unused bits of the last character are ignored. *)
Definition b64_value (c : ascii) : option Z :=
  let n := Z.of_nat (nat_of_ascii c) in
  if (65 <=? n) && (n <=? 90) then Some (n - 65)
  else if (97 <=? n) && (n <=? 122) then Some (n - 71)
  else if (48 <=? n) && (n <=? 57) then Some (n + 4)
  else if n =? 43 then Some 62 else if n =? 47 then Some 63 else None.

Definition byte (n : Z) : ascii := ascii_of_nat (Z.to_nat (n mod 256)).
Definition corrupt {A} : res A := Err (Plain "illegal base64 data at input byte").
Definition pad : ascii := "="%char.

Fixpoint b64_groups (l : list ascii) : res (list ascii) :=
  match l with
  | [] => Ok []
  | a :: b :: c :: d :: l =>
      match b64_value a, b64_value b, b64_value c, b64_value d with
      | Some x, Some y, Some z, Some w =>
          r ← b64_groups l;
          Ok (byte (4 * x + y / 16) :: byte (16 * y + z / 4) :: byte (64 * z + w) :: r)
      | Some x, Some y, Some z, None =>
          if Ascii.eqb d pad && bool_decide (l = [])
          then Ok [byte (4 * x + y / 16); byte (16 * y + z / 4)] else corrupt
      | Some x, Some y, None, None =>
          if Ascii.eqb c pad && Ascii.eqb d pad && bool_decide (l = [])
          then Ok [byte (4 * x + y / 16)] else corrupt
      | _, _, _, _ => corrupt
      end
  | _ => corrupt
  end.

Definition line_break (c : ascii) : bool :=
  Nat.eqb (nat_of_ascii c) 10 || Nat.eqb (nat_of_ascii c) 13.

Definition b64_DecodeString (s : string) : res string :=
  r ← b64_groups (List.filter (fun c => negb (line_break c)) (String.list_ascii_of_string s));
  Ok (String.string_of_list_ascii r).

Record argumentDecoder : Type := mkArgumentDecoder {
  dec : string -> res string; asciiF : bool; hexF : bool; b64F : bool;
}.

Definition asciiDecodeString (s : string) : res string := Ok s.

(** The index of the flag that is set, or none. *)
Fixpoint find_flag (found : option nat) (i : nat) (flags : list bool) : res (option nat) :=
  match flags with
  | [] => Ok found
  | false :: flags => find_flag found (S i) flags
  | true :: flags =>
      match found with
      | Some _ => Err (Plain "multiple decoding flags used")
      | None => find_flag (Some i) (S i) flags
      end
  end.

Definition decode_arg (a : argumentDecoder) (s : string) : res string :=
  found ← find_flag None 0 [asciiF a; hexF a; b64F a];
  match found with
  | Some 0%nat => asciiDecodeString s
  | Some 1%nat => OracleState.DecodeString s
  | Some 2%nat => b64_DecodeString s
  | _ => dec a s
  end.

(** [newArgDecoder(hex.DecodeString)] with the values of its flags. *)
Definition salt_decoder (cmd : C) : res argumentDecoder :=
  a ← GetBool cmd "ascii"; h ← GetBool cmd "hex"; b ← GetBool cmd "b64";
  Ok (mkArgumentDecoder OracleState.DecodeString a h b).

Definition InstantiateContract2Cmd (cmd : C) (args : list string) : res (Factory * list Msg) :=
  match args with
  | [rawCodeID; initMsg; saltArg] =>
      clientCtx ← GetClientTxContext cmd;
      decoder ← salt_decoder cmd;
      salt ← errorf "salt" (decode_arg decoder saltArg);
      fixMsg ← errorf "fix msg" (GetBool cmd "fix-msg");
      data ← parseInstantiateArgs rawCodeID initMsg (FromAddress clientCtx) cmd;
      let msg := Instantiate2 data salt fixMsg in
      WasmValidateBasic msg ;;
      txf ← NewFactoryCLI clientCtx cmd;
      txf ← with_estimate clientCtx cmd txf msg;
      Ok (txf, [msg])
  | _ => wrong_args
  end.
End commands.

(** ** Fees *)
Section fees.
Context {C : Type} `{Command C} `{MathOps} `{CoinOps} `{CoinSortOps} `{AddrCodec} `{CoinText}.
Context `{!MathLaws} `{!CoinLaws} `{!CoinTextLaws}.

Context `{!CoinSortLaws} `{!SortLaws}.

(** What parsing gas prices guarantees. *)
Definition valid_prices (prices : list DecCoin) : Prop :=
  NoDup (map DDenom prices) /\ forall gp, gp ∈ prices -> 0 < DAmount gp.

(** The whole part of the adjustment, at least one. *)
Definition adjustment_factor (txf : Factory) : Z := Z.max 1 (int64_of_float (f_GasAdjustment txf)).

Lemma gas_adjustment_factor txf : is_i64 (int64_of_float (f_GasAdjustment txf) * 100) ->
  gas_adjustment txf = adjustment_factor txf * Precision.
Proof.
  intros Hi. unfold gas_adjustment, adjustment_factor. rewrite OracleBallot.i64_fits by done.
  set (k := int64_of_float _). assert (LegacyNewDecWithPrec (k * 100) 2 = k * Precision) as ->.
  { unfold LegacyNewDecWithPrec, Precision. change (10 ^ (18 - 2)) with (10 ^ 16).
    replace (10 ^ 18) with (100 * 10 ^ 16) by reflexivity. lia. }
  unfold LegacyOneDec, Precision. destruct (Z.ltb_spec (k * 10 ^ 18) (10 ^ 18)); lia.
Qed.

Lemma DecMul_whole a k c : DecMul a (k * Precision) = Ok c -> c = a * k.
Proof. intros E%DecMul_inv. unfold Precision in *. lia. Qed.

(** The fee for one price: the product, rounded up to a unit. *)
Definition rounded_up (n x : Z) : Prop := x <= n * Precision < x + Precision.

Lemma gas_fee_ok gas k gp c : gas_fee (LegacyNewDec gas) (k * Precision) gp = Ok c ->
  Denom c = DDenom gp /\ ValidDenom (Denom c) = true /\ rounded_up (Amount c) (DAmount gp * gas * k).
Proof.
  unfold gas_fee, LegacyNewDec, rounded_up. intros E. apply res_bind_ok in E as (f1 & E1 & E).
  apply res_bind_ok in E as (f2 & E2 & E). apply res_bind_ok in E as (x & Ex & E).
  apply res_bind_ok in E as (n & En & E). apply NewCoin_inv in E as (-> & _ & Hd).
  apply DecMul_whole in E1 as ->. apply DecMul_whole in E2 as ->. simpl.
  apply DecCeil_inv in Ex as [Hx Hm]. apply Z.mod_divide in Hm as [q ->]; [|done].
  apply DecRoundInt_inv in En. assert (n = q) as -> by (unfold Precision in *; lia). done.
Qed.

Lemma gas_fees_ok gas k prices cs : mapM (gas_fee (LegacyNewDec gas) (k * Precision)) prices = Ok cs ->
  map Denom cs = map DDenom prices /\
  forall gp, gp ∈ prices -> exists c, c ∈ cs /\ Denom c = DDenom gp /\ rounded_up (Amount c) (DAmount gp * gas * k).
Proof.
  intros E%res_mapM_ok. induction E as [|gp c prices cs Hc _ [IHd IH]]; [split; [done|by intros ? ?%elem_of_nil]|].
  apply gas_fee_ok in Hc as (Hd & _ & Hr). split; [simpl; by rewrite Hd, IHd|].
  intros gp' [->|Hin]%elem_of_cons; [exists c; split; [left|done]|].
  destruct (IH _ Hin) as (c' & Hc' & Hx). exists c'. split; [by right|done].
Qed.

Lemma gas_fees_from gas k prices cs c : mapM (gas_fee (LegacyNewDec gas) (k * Precision)) prices = Ok cs ->
  c ∈ cs -> ValidDenom (Denom c) = true /\ exists gp, gp ∈ prices /\ Denom c = DDenom gp /\
    rounded_up (Amount c) (DAmount gp * gas * k).
Proof.
  intros E%res_mapM_ok. induction E as [|gp c' prices cs Hc _ IH]; [by intros ?%elem_of_nil|].
  apply gas_fee_ok in Hc as (Hd & Hv & Hr). intros [->|Hin]%elem_of_cons.
  - split; [done|]. exists gp. split; [left|done].
  - destruct (IH Hin) as (Hv' & gp' & Hg & Hx). split; [done|]. exists gp'. split; [by right|done].
Qed.

(** The gas that is charged for: simulated, or as the flags say. *)
Definition gas_of (clientCtx : ClientCtx) (txf : Factory) (msgs : list Msg) : res Z :=
  if f_SimulateAndExecute txf
  then txf ← prepareFactory clientCtx txf; CalculateGas clientCtx txf msgs
  else Ok (f_Gas txf).

Lemma estimate_ok clientCtx cmd msgs fee : ComputeFeesWithCmd clientCtx cmd msgs = Ok fee ->
  exists txf taxes fees, NewFactoryCLI clientCtx cmd = Ok txf /\ gas_of clientCtx txf msgs = Ok (fee_Gas fee) /\
    NewCoins [] = Ok taxes /\ CoinsAdd (f_Fees txf) taxes = Ok fees /\
    if Ante.DecCoinsIsZero (f_GasPrices txf) then fee_Amount fee = fees
    else exists gasFees,
      mapM (gas_fee (LegacyNewDec (i64 (fee_Gas fee))) (gas_adjustment txf)) (f_GasPrices txf) = Ok gasFees /\
      CoinsAdd fees (CoinsSort gasFees) = Ok (fee_Amount fee).
Proof.
  unfold ComputeFeesWithCmd, FilterMsgAndComputeTax. intros E. apply res_bind_ok in E as (txf & Ef & E).
  fold (gas_of clientCtx txf msgs) in E. apply res_bind_ok in E as (gas & Eg & E).
  apply res_bind_ok in E as (taxes & Et & E). apply res_bind_ok in E as (fees & Es & E).
  apply res_bind_ok in E as (total & Ep & E). injection E as <-. exists txf, taxes, fees. split_and!; try done.
  destruct (Ante.DecCoinsIsZero _); cbn [negb] in Ep; [by injection Ep as <-|].
  apply res_bind_ok in Ep as (gasFees & Em & Ea). eauto.
Qed.

Lemma zero_prices prices : valid_prices prices -> Ante.DecCoinsIsZero prices = true -> prices = [].
Proof.
  intros [_ Hp] Hz. destruct prices as [|gp prices]; [done|]. exfalso. unfold Ante.DecCoinsIsZero in Hz.
  cbn [forallb] in Hz. apply andb_true_iff in Hz as [Hz%Z.eqb_eq _].
  specialize (Hp gp ltac:(left)). lia.
Qed.

Lemma estimate_amounts clientCtx cmd msgs fee txf : ComputeFeesWithCmd clientCtx cmd msgs = Ok fee ->
  NewFactoryCLI clientCtx cmd = Ok txf -> CoinsIsValid (f_Fees txf) = true -> valid_prices (f_GasPrices txf) ->
  is_i64 (int64_of_float (f_GasAdjustment txf) * 100) -> 0 < fee_Gas fee < 2 ^ 63 ->
  CoinsIsValid (fee_Amount fee) = true /\
  (forall gp, gp ∈ f_GasPrices txf -> exists n, rounded_up n (DAmount gp * fee_Gas fee * adjustment_factor txf) /\
     AmountOf (fee_Amount fee) (DDenom gp) = AmountOf (f_Fees txf) (DDenom gp) + n) /\
  (forall d, d ∉ map DDenom (f_GasPrices txf) -> AmountOf (fee_Amount fee) d = AmountOf (f_Fees txf) d).
Proof.
  intros E Ef Hfv Hp Hadj Hgas. apply estimate_ok in E as (txf' & taxes & fees & Ef' & _ & Et & Ea & E).
  rewrite Ef in Ef'. injection Ef' as <-. pose proof (NewCoins_valid _ _ Et) as Htv.
  assert (CoinsIsValid fees = true) as Hv by eauto using CoinsAdd_valid.
  assert (forall d, AmountOf fees d = AmountOf (f_Fees txf) d) as Hfees.
  { intros d. rewrite (CoinsAdd_inv _ _ _ d Hfv Htv Ea), (NewCoins_inv _ _ d Et). simpl. lia. }
  destruct (Ante.DecCoinsIsZero _) eqn:Hz.
  { apply zero_prices in Hz; [|done]. rewrite Hz, E. split; [done|].
    split; [by intros gp ?%elem_of_nil|]. intros d _. apply Hfees. }
  destruct E as (cs & Em & Es). rewrite gas_adjustment_factor in Em by done.
  rewrite OracleBallot.i64_fits in Em by lia. destruct Hp as [Hnd Hpos].
  destruct (gas_fees_ok _ _ _ _ Em) as [Hden Hfee].
  assert (CoinsIsValid (CoinsSort cs) = true) as Hsv.
  { apply CoinsSort_valid; [by rewrite Hden|]. intros c Hc.
    destruct (gas_fees_from _ _ _ _ _ Em Hc) as (Hvd & gp & Hgp & _ & Hr). split; [done|].
    specialize (Hpos _ Hgp). unfold rounded_up, adjustment_factor, Precision in *. nia. }
  split; [by eauto using CoinsAdd_valid|].
  assert (forall d, AmountOf (fee_Amount fee) d = AmountOf (f_Fees txf) d + coins_sum cs d) as Hsum.
  { intros d. rewrite (CoinsAdd_inv _ _ _ d Hv Hsv Es), Hfees, (AmountOf_sum (CoinsSort cs)) by done.
    by rewrite CoinsSort_perm. }
  split.
  - intros gp Hgp. destruct (Hfee _ Hgp) as (c & Hc & Hd & Hr). exists (Amount c). split; [done|].
    rewrite Hsum, <- Hd, coins_sum_in; [done|by rewrite Hden|done].
  - intros d Hd. rewrite Hsum, coins_sum_absent; [lia|by rewrite Hden].
Qed.

(** the estimate of a fee is exact: to the fees of the flags it adds,
    for each gas price and nothing else, the price of all the gas times the
    whole part of the gas adjustment (at least one), rounded up to a unit.  So
    a fraction of the adjustment is lost, an adjustment of 1.4 counts as one;
    and with simulated gas, which already carries the adjustment, an
    adjustment of two or more is charged twice. *)
Theorem estimated_fee_exact clientCtx cmd msgs fee txf : ComputeFeesWithCmd clientCtx cmd msgs = Ok fee ->
  NewFactoryCLI clientCtx cmd = Ok txf -> CoinsIsValid (f_Fees txf) = true -> valid_prices (f_GasPrices txf) ->
  is_i64 (int64_of_float (f_GasAdjustment txf) * 100) -> 0 < fee_Gas fee < 2 ^ 63 ->
  gas_of clientCtx txf msgs = Ok (fee_Gas fee) /\
  (forall gp, gp ∈ f_GasPrices txf -> exists n, rounded_up n (DAmount gp * fee_Gas fee * adjustment_factor txf) /\
     AmountOf (fee_Amount fee) (DDenom gp) = AmountOf (f_Fees txf) (DDenom gp) + n) /\
  (forall d, d ∉ map DDenom (f_GasPrices txf) -> AmountOf (fee_Amount fee) d = AmountOf (f_Fees txf) d).
Proof.
  intros E Ef Hfv Hp Hadj Hgas. split; [|by apply (estimate_amounts clientCtx cmd msgs)].
  apply estimate_ok in E as (txf' & _ & _ & Ef' & Eg & _).
  rewrite Ef in Ef'. by injection Ef' as <-.
Qed.

Context `{Ante.CoinCmpOps} `{!Ante.CoinCmpLaws} `{CoinSubOps} `{!CoinSubLaws}.

Lemma required_fees_for gas prices cs gp : Ante.required_fees gas prices = Ok cs -> gp ∈ prices ->
  exists c, c ∈ cs /\ Denom c = DDenom gp /\ rounded_up (Amount c) (DAmount gp * i64 gas).
Proof.
  intros (ys & E & ->)%foldRes_append Hgp. apply res_mapM_ok in E. simpl.
  apply list_elem_of_lookup in Hgp as [i Hi]. destruct (Forall2_lookup_l _ _ _ _ _ E Hi) as (c & Hc & Ec).
  exists c. split; [by apply list_elem_of_lookup_2 in Hc|].
  unfold Ante.required_fee, LegacyNewDec in Ec. apply res_bind_ok in Ec as (f & Ef & Ec).
  apply res_bind_ok in Ec as (x & Ex & Ec). apply res_bind_ok in Ec as (n & En & Ec).
  apply NewCoin_inv in Ec as (-> & _ & _). apply DecMul_whole in Ef as ->. split; [done|]. simpl.
  apply DecCeil_inv in Ex as [Hx Hm]. apply Z.mod_divide in Hm as [q ->]; [|done].
  apply DecRoundInt_inv in En. assert (n = q) as -> by (unfold Precision in *; lia). done.
Qed.

Lemma priority_runs gas cs : forall p, i64 gas <> 0 -> is_ok (foldRes (Ante.raise_priority gas) p cs) = true.
Proof.
  induction cs as [|c cs IH]; intros p Hg; [done|]. cbn [foldRes].
  assert (exists p', Ante.raise_priority gas p c = Ok p') as [p' ->]; [|by apply IH].
  unfold Ante.raise_priority. rewrite IntQuo_nz by done. cbn. destruct (_ && _); eauto.
Qed.

(** C33: a transaction with the estimated fee and gas passes the fee check of
    a node whose minimal gas prices are those the estimate was made with,
    whenever the node can compute what it asks for. *)
Theorem estimate_accepted clientCtx cmd msgs fee txf tx ctx req : ComputeFeesWithCmd clientCtx cmd msgs = Ok fee ->
  NewFactoryCLI clientCtx cmd = Ok txf -> CoinsIsValid (f_Fees txf) = true -> valid_prices (f_GasPrices txf) ->
  is_i64 (int64_of_float (f_GasAdjustment txf) * 100) -> 0 < fee_Gas fee < 2 ^ 63 ->
  Ante.MinGasPrices ctx = f_GasPrices txf -> Ante.required_fees (fee_Gas fee) (f_GasPrices txf) = Ok req ->
  CoinsIsValid req = true ->
  Ante.is_FeeTx tx = true -> Ante.GetFee tx = fee_Amount fee -> Ante.GetGas tx = fee_Gas fee ->
  is_ok (Ante.checkTxFee ctx tx) = true.
Proof.
  intros E Ef Hfv Hp Hadj Hgas Hmin Hreq Hrv Hft Hfee Hg.
  destruct (estimate_amounts _ _ _ _ _ E Ef Hfv Hp Hadj Hgas) as (Hv & Hamt & _).
  unfold Ante.checkTxFee. rewrite Hft, Hfee, Hg, Hmin. cbn [negb].
  assert (is_ok (foldRes (Ante.raise_priority (fee_Gas fee)) 0 (fee_Amount fee)) = true) as Hpr.
  { apply priority_runs. rewrite OracleBallot.i64_fits; lia. }
  destruct (negb (Ante.IsOracleTx _) && negb (Ante.DecCoinsIsZero _)) eqn:Hc; [|exact Hpr].
  apply andb_true_iff in Hc as [_ Hz%negb_true_iff]. rewrite Hreq. cbn [mbind res_bind].
  assert (Ante.IsAnyGTE (fee_Amount fee) req = true) as ->; [|exact Hpr].
  destruct (f_GasPrices txf) as [|gp prices] eqn:Hps; [done|].
  assert (gp ∈ gp :: prices) as Hin by left. destruct (Hamt _ Hin) as (n & Hn & Ha).
  destruct (required_fees_for _ _ _ _ Hreq Hin) as (c & Hc & Hd & Hr).
  rewrite OracleBallot.i64_fits in Hr by lia. pose proof (AmountOf_nonneg _ (DDenom gp) Hfv) as H0f.
  pose proof (CoinsIsValid_pos _ _ Hrv Hc) as Hcp. pose proof (proj2 Hp _ Hin) as Hgp.
  assert (AmountOf req (DDenom gp) = Amount c) as Har.
  { rewrite AmountOf_sum, <- Hd by done. apply coins_sum_in; [by apply CoinsIsValid_nodup|done]. }
  assert (Amount c <= n) as Hle.
  { assert (DAmount gp * fee_Gas fee <= DAmount gp * fee_Gas fee * adjustment_factor txf)
      by (unfold adjustment_factor; nia). unfold rounded_up, Precision in *. lia. }
  destruct (Ante.AmountOf_found (fee_Amount fee) (DDenom gp)) as (x & Hx & Hdx & Hax); [lia|].
  apply Ante.IsAnyGTE_spec. exists x. split; [done|]. rewrite Hdx, Har. lia.
Qed.
End fees.

(** ** Oracle votes *)
Section votes.
Context {C : Type} `{Command C} `{AddrCodec} `{!AddrLaws} `{OracleState.DecCoinParser} `{OracleState.TmHash}.
Context {B K D : Type} `{BankOps B} `{StakingOps K} `{DistrOps D}.
Implicit Types s : OracleState.State B K D.

(** The texts of an address are read back as the address. *)
Definition readable (a : string) : Prop :=
  AccAddressFromBech32 (AccAddressString a) = Ok a /\ ValAddressFromBech32 (ValAddressString a) = Ok a.

Lemma voted_for_readable voter third val : readable voter -> voted_for voter third = Ok val ->
  ValAddressFromBech32 (ValAddressString val) = Ok val.
Proof.
  intros [_ Hr]. destruct third as [|text third]; simpl; [by intros [= <-]|].
  destruct (ValAddressFromBech32 text) eqn:E; intros [= <-]. by eapply val_roundtrip.
Qed.

Lemma commands_commit cmd1 cmd2 salt rates third client txf1 txf2 msgs1 msgs2 :
  GetClientTxContext cmd1 = Ok client -> GetClientTxContext cmd2 = Ok client ->
  GetCmdAggregateDoRatePrevote cmd1 (salt :: rates :: third) = Ok (txf1, msgs1) ->
  GetCmdAggregateDoRateVote cmd2 (salt :: rates :: third) = Ok (txf2, msgs2) ->
  exists tuples val, voted_for (FromAddress client) third = Ok val /\
    OracleState.ParseDoRateTuples rates = Ok tuples /\
    msgs1 = [Prevote (NewMsgAggregateDoRatePrevote (OracleState.GetAggregateVoteHash salt rates val)
               (FromAddress client) val)] /\
    msgs2 = [Vote (NewMsgAggregateDoRateVote salt rates (FromAddress client) val)].
Proof.
  intros C1 C2 E1 E2. unfold GetCmdAggregateDoRatePrevote, GetCmdAggregateDoRateVote in *.
  destruct third as [|third [|]]; [| |done];
    rewrite C1 in E1; rewrite C2 in E2; cbn [mbind res_bind] in E1, E2;
    (destruct (OracleState.ParseDoRateTuples rates) as [tuples| |] eqn:Et; [|done..]);
    res_step E1; res_step E2; res_step E1; res_step E2;
    lazymatch goal with Ev : voted_for _ _ = Ok _, Ev' : voted_for _ _ = Ok _ |- _ =>
      rewrite Ev in Ev'; injection Ev' as <-; unfold GenerateOrBroadcastTxCLI in *;
      res_step E1; res_step E2; injection E1 as _ <-; injection E2 as _ <-;
      eexists tuples, _; split; [exact Ev|done]
    end.
Qed.

(** the two oracle commands fit together: when the prevote that the
    command line makes of a salt, rates and a validator was accepted, the
    vote it makes of the same arguments is accepted in the next vote period
    and records the rates as they were typed, as long as the prevote is
    stored, the sender may vote and the rates name vote targets. *)
Theorem cli_vote_opens_cli_prevote cmd1 cmd2 salt rates third client txf1 txf2 prevote vote ctx1 ctx2 s u s1 s2
    val tuples :
  GetClientTxContext cmd1 = Ok client -> GetClientTxContext cmd2 = Ok client -> readable (FromAddress client) ->
  GetCmdAggregateDoRatePrevote cmd1 (salt :: rates :: third) = Ok (txf1, [Prevote prevote]) ->
  GetCmdAggregateDoRateVote cmd2 (salt :: rates :: third) = Ok (txf2, [Vote vote]) ->
  voted_for (FromAddress client) third = Ok val -> OracleState.ParseDoRateTuples rates = Ok tuples ->
  OracleState.AggregateDoRatePrevote_handler ctx1 prevote s = (Ok u, s1) ->
  OracleState.st_prevotes s2 !! val = OracleState.st_prevotes s1 !! val ->
  OracleState.ValidateFeeder (FromAddress client) val s2 = Ok tt ->
  forallb (fun t => OracleState.IsVoteTarget s2 (OracleState.t_Denom t)) tuples = true ->
  0 < OracleState.p_VotePeriod (OracleState.GetParams s2) ->
  0 <= BlockHeight ctx1 < 2 ^ 63 -> 0 <= BlockHeight ctx2 < 2 ^ 63 ->
  BlockHeight ctx2 / OracleState.p_VotePeriod (OracleState.GetParams s2) =
    BlockHeight ctx1 / OracleState.p_VotePeriod (OracleState.GetParams s2) + 1 ->
  exists s3, OracleState.AggregateDoRateVote_handler ctx2 vote s2 = (Ok tt, s3) /\
    OracleState.st_votes s3 !! val = Some (OracleState.mkAggregateVote tuples (ValAddressString val)) /\
    OracleState.st_prevotes s3 !! val = None.
Proof.
  intros C1 C2 Hr E1 E2 Hval Ht Ep Hst Hfe Htar Hvp Hh1 Hh2 Hper.
  destruct (commands_commit _ _ _ _ _ _ _ _ _ _ C1 C2 E1 E2) as (tuples' & val' & Hv & Ht' & [= ->] & [= ->]).
  rewrite Hval in Hv. injection Hv as <-.
  eexists. split.
  - eapply (OracleState.honest_reveal ctx1 ctx2 salt rates _ _ val (FromAddress client) tuples s u s1 s2);
      [by eapply voted_for_readable|apply Hr|exact Ep|done..].
  - simpl. by rewrite lookup_insert_eq, lookup_delete_eq.
Qed.
End votes.

(** ** Transfers to many *)
Section multisend.
Context {C : Type} `{Command C} `{MathOps} `{CoinOps} `{CoinSortOps} `{AddrCodec} `{CoinText} `{CoinScale}.
Context `{!CoinTextLaws} `{!CoinScaleLaws} `{CoinSubOps} `{!CoinSubLaws} `{!CoinLaws}.

Lemma scale_denoms f cs : map Denom (scale_coins f cs) = map Denom cs.
Proof. unfold scale_coins. rewrite map_map. by apply map_ext. Qed.

Lemma scale_sum f cs d : f 0 = 0 -> NoDup (map Denom cs) -> coins_sum (scale_coins f cs) d = f (coins_sum cs d).
Proof.
  intros Hf. induction cs as [|c cs IH]; [done|]. cbn [map scale_coins coins_sum].
  intros [Hc Hnd]%NoDup_cons. fold (scale_coins f cs). rewrite IH by done. simpl.
  destruct (String.eqb_spec (Denom c) d) as [<-|]; [|done].
  rewrite (coins_sum_absent cs) by done. rewrite Hf. by rewrite !Z.add_0_r.
Qed.

Definition paid_out (outs : list Output) (d : string) : Z := foldr (fun o n => coins_sum (out_Coins o) d + n) 0 outs.

Lemma same_outputs (cs : list Coin) tos outs :
  mapM (fun arg => toAddr ← AccAddressFromBech32 arg; Ok (mkOutput (AccAddressString toAddr) cs)) tos = Ok outs ->
  length outs = length tos /\ Forall (fun o => out_Coins o = cs) outs /\
  forall d, paid_out outs d = Z.of_nat (length tos) * coins_sum cs d.
Proof.
  intros E%res_mapM_ok. induction E as [|arg o tos outs Eo _ (IHl & IHf & IHd)]; [split_and!; try done; by constructor|].
  apply res_bind_ok in Eo as (a & _ & Eo). injection Eo as <-. split_and!.
  - simpl. by rewrite IHl.
  - by constructor.
  - intros d. cbn [paid_out foldr out_Coins length]. fold (paid_out outs d). rewrite IHd. lia.
Qed.

Lemma middle_length {A} (args : list A) : (4 <= length args)%nat ->
  Z.of_nat (length (removelast (tail args))) = Z.of_nat (length args) - 2.
Proof.
  destruct args as [|a args]; simpl; [lia|]. intros Hl.
  destruct (exists_last (l := args)) as (l & x & ->); [by destruct args; simpl in *; [lia|]|].
  rewrite removelast_last, length_app. simpl. lia.
Qed.

(** a multi-send balances: what the sender pays is what all the
    recipients get, in each denomination.  Without [--split] every recipient
    gets the amount that was typed; with it every recipient gets the same
    share, the sum is not above the amount, and what is left is less than one
    unit for each recipient. *)
Theorem multi_send_balances cmd args txf msgs : multiSendTxCmd cmd args = Ok (txf, msgs) ->
  exists from amount outs coins (split : bool),
    msgs = [MultiSend from amount outs] /\ ParseCoinsNormalized (default "" (last args)) = Ok coins /\
    Z.of_nat (length outs) = Z.of_nat (length args) - 2 /\
    (forall d, coins_sum amount d = paid_out outs d) /\
    (if split then forall d, 0 <= coins_sum coins d - coins_sum amount d < Z.of_nat (length outs)
     else Forall (fun o => out_Coins o = coins) outs).
Proof.
  unfold multiSendTxCmd. destruct (Nat.ltb_spec (length args) 4) as [|Hlen]; [done|]. intros E.
  res_step E as cmd'. res_step E as client. res_step_as E coins Ec.
  destruct (CoinsIsZero coins); [done|]. res_step E as split_. res_step_as E sendCoins Esend.
  res_step_as E outs Eo. res_step_as E amount Ea.
  res_step E as txf1. res_step E as txf2. injection E as <- <-.
  pose proof (middle_length _ Hlen) as Hm. apply same_outputs in Eo as (Hl & Hf & Hd).
  pose proof (ParseCoins_valid _ _ Ec) as Hv. pose proof (CoinsIsValid_nodup _ Hv) as Hnd.
  eexists _, amount, outs, coins, split_. split; [done|]. split; [done|]. split; [lia|].
  rewrite Hm in Hd. destruct split_.
  - apply CoinsQuoInt_inv in Esend as [Hn ->]. apply CoinsMulInt_inv in Ea as [_ ->].
    assert (forall d, coins_sum (scale_coins (fun a => a * (Z.of_nat (length args) - 2))
      (scale_coins (fun a => a ÷ (Z.of_nat (length args) - 2)) coins)) d =
      (coins_sum coins d ÷ (Z.of_nat (length args) - 2)) * (Z.of_nat (length args) - 2)) as Hs.
    { intros d. rewrite scale_sum; [|lia|by rewrite scale_denoms]. by rewrite scale_sum. }
    split.
    + intros d. rewrite Hs, Hd, scale_sum by done. lia.
    + intros d. rewrite Hs, Hl, Hm. pose proof (AmountOf_nonneg _ d Hv) as Hnn. rewrite AmountOf_sum in Hnn by done.
      rewrite Z.quot_div_nonneg by lia.
      pose proof (Z.mod_pos_bound (coins_sum coins d) (Z.of_nat (length args) - 2) ltac:(lia)).
      pose proof (Z.div_mod (coins_sum coins d) (Z.of_nat (length args) - 2) ltac:(lia)). nia.
  - injection Esend as <-. apply CoinsMulInt_inv in Ea as [_ ->]. split; [|done].
    intros d. rewrite scale_sum by done. rewrite Hd. lia.
Qed.
End multisend.

(** ** Encodings of a salt *)
Definition alphabet : list ascii := String.list_ascii_of_string
  "ABCDEFGHIJKLMNOPQRSTUVWXYZabcdefghijklmnopqrstuvwxyz0123456789+/".
Definition b64_char (v : Z) : ascii := default pad (alphabet !! Z.to_nat v).
Definition code (c : ascii) : Z := Z.of_nat (nat_of_ascii c).

Fixpoint b64_encode (l : list ascii) : list ascii :=
  match l with
  | [] => []
  | [a] => [b64_char (code a / 4); b64_char (16 * (code a mod 4)); pad; pad]
  | [a; b] => [b64_char (code a / 4); b64_char (16 * (code a mod 4) + code b / 16);
               b64_char (4 * (code b mod 16)); pad]
  | a :: b :: c :: l =>
      b64_char (code a / 4) :: b64_char (16 * (code a mod 4) + code b / 16) ::
      b64_char (4 * (code b mod 16) + code c / 64) :: b64_char (code c mod 64) :: b64_encode l
  end.

Lemma char_value v : 0 <= v < 64 -> b64_value (b64_char v) = Some v /\ line_break (b64_char v) = false.
Proof.
  intros Hv. assert (Forall (fun v => b64_value (b64_char v) = Some v /\ line_break (b64_char v) = false) (seqZ 0 64))
    as Hall by (apply (bool_decide_unpack _); by vm_compute).
  rewrite Forall_forall in Hall. apply Hall, elem_of_seqZ. lia.
Qed.

Lemma code_bound c : 0 <= code c < 256.
Proof. unfold code. pose proof (nat_ascii_bounded c). lia. Qed.

Lemma byte_code n c : n mod 256 = code c -> byte n = c.
Proof. intros E. unfold byte. rewrite E. unfold code. rewrite Nat2Z.id. apply ascii_nat_embedding. Qed.

Lemma three_step {A} (P : list A -> Prop) : P [] -> (forall a, P [a]) -> (forall a b, P [a; b]) ->
  (forall a b c l, P l -> P (a :: b :: c :: l)) -> forall l, P l.
Proof.
  intros H0 H1 H2 H3. fix IH 1. intros [|a [|b [|c l]]]; [done|apply H1|apply H2|apply H3, IH].
Qed.

(** The quantities of a group of three bytes. *)
Lemma sextets a b c :
  0 <= code a / 4 < 64 /\ 0 <= 16 * (code a mod 4) + code b / 16 < 64 /\ 0 <= 16 * (code a mod 4) < 64 /\
  0 <= 4 * (code b mod 16) + code c / 64 < 64 /\ 0 <= 4 * (code b mod 16) < 64 /\ 0 <= code c mod 64 < 64.
Proof.
  pose proof (code_bound a). pose proof (code_bound b). pose proof (code_bound c).
  repeat split; Z.to_euclidean_division_equations; lia.
Qed.

Lemma b64_roundtrip l : b64_groups (b64_encode l) = Ok l.
Proof.
  induction l as [|a|a b|a b c l IH] using three_step; [done|..].
  - destruct (sextets a a a) as (H1 & _ & H2 & _). cbn [b64_encode b64_groups].
    rewrite (proj1 (char_value _ H1)), (proj1 (char_value _ H2)). cbn -[byte Z.mul Z.div Z.add Z.modulo].
    f_equal. f_equal. apply byte_code. pose proof (code_bound a). Z.to_euclidean_division_equations; lia.
  - destruct (sextets a b b) as (H1 & H2 & _ & _ & H3 & _). cbn [b64_encode b64_groups].
    rewrite (proj1 (char_value _ H1)), (proj1 (char_value _ H2)), (proj1 (char_value _ H3)).
    cbn -[byte Z.mul Z.div Z.add Z.modulo]. pose proof (code_bound a). pose proof (code_bound b).
    do 2 f_equal; [|f_equal]; apply byte_code; Z.to_euclidean_division_equations; lia.
  - destruct (sextets a b c) as (H1 & H2 & _ & H3 & _ & H4). cbn [b64_encode b64_groups].
    rewrite (proj1 (char_value _ H1)), (proj1 (char_value _ H2)), (proj1 (char_value _ H3)), (proj1 (char_value _ H4)).
    rewrite IH. cbn -[byte Z.mul Z.div Z.add Z.modulo].
    pose proof (code_bound a). pose proof (code_bound b). pose proof (code_bound c).
    do 2 f_equal; [|f_equal; [|f_equal]]; apply byte_code; Z.to_euclidean_division_equations; lia.
Qed.

Lemma b64_no_breaks l : List.filter (fun c => negb (line_break c)) (b64_encode l) = b64_encode l.
Proof.
  induction l as [|a|a b|a b c l IH] using three_step; [done|..].
  - destruct (sextets a a a) as (H1 & _ & H2 & _). cbn [b64_encode List.filter].
    by rewrite (proj2 (char_value _ H1)), (proj2 (char_value _ H2)).
  - destruct (sextets a b b) as (H1 & H2 & _ & _ & H3 & _). cbn [b64_encode List.filter].
    by rewrite (proj2 (char_value _ H1)), (proj2 (char_value _ H2)), (proj2 (char_value _ H3)).
  - destruct (sextets a b c) as (H1 & H2 & _ & H3 & _ & H4). cbn [b64_encode List.filter].
    rewrite (proj2 (char_value _ H1)), (proj2 (char_value _ H2)), (proj2 (char_value _ H3)), (proj2 (char_value _ H4)).
    cbn [negb]. by rewrite IH.
Qed.

Inductive Encoding : Type := AsciiEncoding | HexEncoding | Base64Encoding.
Definition encoded_salt (f : Encoding) (salt : string) : string :=
  match f with
  | AsciiEncoding => salt
  | HexEncoding => OracleState.EncodeToString salt
  | Base64Encoding => String.string_of_list_ascii (b64_encode (String.list_ascii_of_string salt))
  end.

(** What the flags ask for: one encoding, or the default, or a contradiction. *)
Definition asked (a h b : bool) : option Encoding :=
  match a, h, b with
  | true, false, false => Some AsciiEncoding
  | false, true, false | false, false, false => Some HexEncoding
  | false, false, true => Some Base64Encoding
  | _, _, _ => None
  end.

Lemma b64_DecodeString_encode salt :
  b64_DecodeString (String.string_of_list_ascii (b64_encode (String.list_ascii_of_string salt))) = Ok salt.
Proof.
  unfold b64_DecodeString. rewrite String.list_ascii_of_string_of_list_ascii, b64_no_breaks, b64_roundtrip.
  cbn. by rewrite String.string_of_list_ascii_of_string.
Qed.

Lemma salt_decoded a h b f salt : asked a h b = Some f ->
  decode_arg (mkArgumentDecoder OracleState.DecodeString a h b) (encoded_salt f salt) = Ok salt.
Proof.
  unfold decode_arg. destruct a, h, b; intros [= <-]; cbn [find_flag asciiF hexF b64F mbind res_bind dec encoded_salt];
    auto using OracleState.hex_decode_encode, b64_DecodeString_encode.
Qed.

Lemma decode_contradiction a h b text : asked a h b = None ->
  decode_arg (mkArgumentDecoder OracleState.DecodeString a h b) text = Err (Plain "multiple decoding flags used").
Proof. by destruct a, h, b. Qed.

Lemma unsigned_nonneg s n : TxLogs.unsigned s = Some n -> 0 <= n.
Proof.
  assert (forall s acc n, 0 <= acc -> TxLogs.digits acc s = Some n -> 0 <= n) as Hd.
  { clear. induction s as [|c s IH]; intros acc n Ha E; simpl in E; [by injection E as <-|].
    apply bind_Some in E as (d & Ed & E). eapply IH; [|exact E]. unfold TxLogs.digit in Ed.
    destruct ((48 <=? _) && (_ <=? 57)) eqn:Hc; [|done]. injection Ed as <-. zbool. lia. }
  destruct s as [|c s]; [done|]. by apply Hd.
Qed.

(** ** Contracts *)
Section contracts.
Context {C : Type} `{Command C} `{MathOps} `{CoinOps} `{CoinSortOps} `{AddrCodec} `{CoinText}.

Lemma parseInstantiateArgs_ok rawCodeID initMsg sender flags msg :
  parseInstantiateArgs rawCodeID initMsg sender flags = Ok msg ->
  in_Sender msg = AccAddressString sender /\ in_Msg msg = initMsg /\ in_Label msg <> "" /\
  0 <= in_CodeID msg < 2 ^ 64 /\ GetString flags "admin" = Ok (in_Admin msg) /\
  GetBool flags "no-admin" = Ok (String.eqb (in_Admin msg) "").
Proof.
  unfold parseInstantiateArgs. intros E. res_step_as E codeID Eid. res_step_as E amountStr Eam.
  res_step_as E amount Ea. res_step_as E label El. destruct (String.eqb_spec label "") as [|Hl]; [done|].
  res_step_as E adminStr Ead. res_step_as E noAdmin Ena.
  destruct (GetString flags "admin") as [adm| |] eqn:Gad; [|done..]. cbn in Ead. injection Ead as ->.
  destruct (GetBool flags "no-admin") as [na| |] eqn:Gna; [|done..]. cbn in Ena. injection Ena as ->.
  assert (0 <= codeID < 2 ^ 64) as Hid.
  { unfold ParseUint in Eid. destruct (TxLogs.unsigned rawCodeID) as [n|] eqn:Eu; [|done].
    destruct (Z.ltb_spec n (2 ^ 64)); [|done]. injection Eid as <-. split; [by eapply unsigned_nonneg|done]. }
  destruct (String.eqb_spec adminStr "") as [->|Hadm], noAdmin; cbn in E; try done; injection E as <-; cbn;
    split_and!; try done; try lia. by rewrite (proj2 (String.eqb_neq _ _) Hadm).
Qed.

(** a contract is instantiated with an admin exactly when one was named:
    a command that answers has a label, the sender's address and a code id in
    64 bits, and its message has no admin only if [--no-admin] was given, and
    an admin only if it was not. *)
Theorem admin_is_chosen cmd args txf msgs : InstantiateContractCmd cmd args = Ok (txf, msgs) ->
  exists client m, GetClientTxContext cmd = Ok client /\ msgs = [Instantiate m] /\
    in_Sender m = AccAddressString (FromAddress client) /\ in_Label m <> "" /\ 0 <= in_CodeID m < 2 ^ 64 /\
    GetString cmd "admin" = Ok (in_Admin m) /\ GetBool cmd "no-admin" = Ok (String.eqb (in_Admin m) "") /\
    WasmValidateBasic (Instantiate m) = Ok tt.
Proof.
  unfold InstantiateContractCmd. destruct args as [|id [|init [|]]]; try done. intros E.
  res_step_as E client Ec. res_step_as E m Em. res_step_as E u Ev. res_step E as txf1. res_step E as txf2.
  injection E as _ <-. apply parseInstantiateArgs_ok in Em as (Hs & _ & Hl & Hid & Ha & Hn).
  exists client, m. destruct u. split_and!; try done; lia.
Qed.

(** the salt of a predictable address is what was meant: with at most one
    of the flags [--ascii], [--hex] and [--b64] the command reads back every
    salt from the text in that encoding (hexadecimal without a flag) and puts
    it into its message; with more than one flag it fails. *)
Theorem salt_read_back cmd rawCodeID initMsg text a h b :
  GetBool cmd "ascii" = Ok a -> GetBool cmd "hex" = Ok h -> GetBool cmd "b64" = Ok b ->
  match asked a h b with
  | Some f => forall salt txf msgs, text = encoded_salt f salt ->
      InstantiateContract2Cmd cmd [rawCodeID; initMsg; text] = Ok (txf, msgs) ->
      exists m fixMsg, msgs = [Instantiate2 m salt fixMsg]
  | None => is_ok (InstantiateContract2Cmd cmd [rawCodeID; initMsg; text]) = false
  end.
Proof.
  intros Ha Hh Hb. destruct (asked a h b) as [f|] eqn:Hf.
  - intros salt txf msgs -> E. cbn [InstantiateContract2Cmd] in E. res_step E as client. unfold salt_decoder in E.
    rewrite Ha, Hh, Hb in E. cbn [mbind res_bind] in E. rewrite (salt_decoded _ _ _ f salt) in E by done.
    cbn [errorf mbind res_bind] in E. res_step E as fixMsg. res_step E as m. res_step E. res_step E. res_step E.
    injection E as _ <-. eauto.
  - unfold InstantiateContract2Cmd, salt_decoder. rewrite Ha, Hh, Hb. cbn [mbind res_bind].
    destruct (GetClientTxContext cmd); [|done..]. rewrite (decode_contradiction _ _ _ _ Hf). done.
Qed.
End contracts.

(** ** Proposals *)
Section proposals.
Context {C : Type} `{Command C} `{CoinOps} `{AddrCodec} `{CoinText}.
Context {B K D O : Type}.

Definition comma : ascii := ascii_of_nat 44.
Definition no_comma (s : string) : Prop := comma ∉ String.list_ascii_of_string s.

Lemma split_no_comma s : no_comma s -> OracleState.split_comma s = [s].
Proof.
  unfold no_comma. induction s as [|c s IH]; [done|]. cbn [String.list_ascii_of_string OracleState.split_comma].
  intros [Hc Hs]%not_elem_of_cons. rewrite IH by done. fold comma.
  destruct (Ascii.eqb_spec c comma); [congruence|done].
Qed.

Lemma split_cons_comma x rest : no_comma x ->
  OracleState.split_comma (x +:+ String comma rest) = x :: OracleState.split_comma rest.
Proof.
  unfold no_comma. induction x as [|c x IH]; [done|]. cbn [String.list_ascii_of_string].
  intros [Hc Hs]%not_elem_of_cons. change (String c x +:+ ?r) with (String c (x +:+ r)).
  cbn [OracleState.split_comma]. fold comma. rewrite IH by done. destruct (Ascii.eqb_spec c comma); [congruence|done].
Qed.

Lemma split_join l : l <> [] -> Forall no_comma l -> OracleState.split_comma (join_comma l) = l.
Proof.
  intros Hn Hl. induction Hl as [|x l Hx Hl IH]; [done|]. destruct l as [|y l]; [by apply split_no_comma|].
  change (join_comma (x :: y :: l)) with (x +:+ String comma (join_comma (y :: l))).
  rewrite split_cons_comma by done. by rewrite IH.
Qed.

Lemma proposal_cmd_ok content cmd addrs txf msgs : addrs <> [] -> Forall no_comma addrs ->
  proposal_cmd content cmd [join_comma addrs] = Ok (txf, msgs) ->
  exists title description deposit proposer,
    msgs = [SubmitProposal (content title description addrs) deposit proposer].
Proof.
  intros Hn Hc E. cbn [proposal_cmd] in E. res_step E as client. res_step E as title. res_step E as description.
  res_step E as depositArg. res_step E as deposit. unfold GenerateOrBroadcastTxCLI in E. res_step E as txf1.
  injection E as _ <-. rewrite split_join by done. eauto.
Qed.

Lemma add_runs addrs : forall s : Treasury.State B K D O,
  Forall (fun a => is_ok (AccAddressFromBech32 a) = true) addrs ->
  exists s1, forM Treasury.AddBurnTaxExemptionAddress addrs s = (Ok tt, s1) /\
    Treasury.st_exempt s1 = list_to_set addrs ∪ Treasury.st_exempt s.
Proof.
  induction addrs as [|a addrs IH]; intros s Ha; [exists s; split; [done|]; simpl; by rewrite (left_id_L ∅ (∪))|].
  apply Forall_cons in Ha as [Ha Hl]. cbn [forM].
  destruct (AccAddressFromBech32 a) as [x| |] eqn:E; [|done..].
  erewrite M_bind_run by (unfold Treasury.AddBurnTaxExemptionAddress, must, mbind, M_bind; by rewrite E).
  destruct (IH (Treasury.on_exempt (fun e => {[a]} ∪ e) s) Hl) as (s1 & E1 & Hs1).
  exists s1. split; [exact E1|]. rewrite Hs1. simpl. set_solver.
Qed.

Lemma remove_runs addrs : forall s : Treasury.State B K D O,
  Forall (fun a => is_ok (AccAddressFromBech32 a) = true) addrs -> NoDup addrs ->
  list_to_set addrs ⊆ Treasury.st_exempt s ->
  exists s1, forM Treasury.RemoveBurnTaxExemptionAddress addrs s = (Ok tt, s1) /\
    Treasury.st_exempt s1 = Treasury.st_exempt s ∖ list_to_set addrs.
Proof.
  induction addrs as [|a addrs IH]; intros s Ha Hn Hin; [exists s; split; [done|]; simpl; set_solver|].
  apply Forall_cons in Ha as [Ha Hl]. apply NoDup_cons in Hn as [Hna Hn]. cbn [forM].
  destruct (AccAddressFromBech32 a) as [x| |] eqn:E; [|done..].
  destruct (IH (Treasury.on_exempt (fun e => e ∖ {[a]}) s) Hl Hn) as (s1 & E1 & Hs1); [simpl in *; set_solver|].
  exists s1. erewrite M_bind_run.
  - split; [exact E1|]. rewrite Hs1. simpl. set_solver.
  - unfold Treasury.RemoveBurnTaxExemptionAddress, must, mbind, M_bind. rewrite E. simpl.
    rewrite bool_decide_eq_false_2; [done|]. simpl in Hin. set_solver.
Qed.

(** a proposal that the command line makes of a list of addresses does
    what it says: when it passes, exactly the listed addresses are added to
    those exempt from the burn tax; and the proposal to remove the same
    addresses takes exactly these out again. *)
Theorem exemption_proposals_execute cmd addrs txf msgs txf' msgs' (s : Treasury.State B K D O) :
  addrs <> [] -> Forall no_comma addrs -> NoDup addrs ->
  Forall (fun a => is_ok (AccAddressFromBech32 a) = true) addrs ->
  ProposalAddBurnTaxExemptionAddressCmd cmd [join_comma addrs] = Ok (txf, msgs) ->
  ProposalRemoveBurnTaxExemptionAddressCmd cmd [join_comma addrs] = Ok (txf', msgs') ->
  exists add deposit proposer remove deposit' proposer' s1 s2,
    msgs = [SubmitProposal add deposit proposer] /\ msgs' = [SubmitProposal remove deposit' proposer'] /\
    Treasury.NewProposalHandler add s = (Ok tt, s1) /\
    Treasury.st_exempt s1 = list_to_set addrs ∪ Treasury.st_exempt s /\
    Treasury.NewProposalHandler remove s1 = (Ok tt, s2) /\
    Treasury.st_exempt s2 = Treasury.st_exempt s ∖ list_to_set addrs.
Proof.
  intros Hn Hc Hnd Hok E1 E2. apply proposal_cmd_ok in E1 as (t & d & dep & p & ->); [|done..].
  apply proposal_cmd_ok in E2 as (t' & d' & dep' & p' & ->); [|done..].
  destruct (add_runs addrs s Hok) as (s1 & R1 & X1).
  destruct (remove_runs addrs s1 Hok Hnd) as (s2 & R2 & X2); [set_solver|].
  eexists _, _, _, _, _, _, s1, s2. split_and!; [done|done|exact R1|exact X1|exact R2|]. set_solver.
Qed.
End proposals.

(** ** A shell with its flags *)
Module Example.
Record shell : Type := mkShell {
  sh_from : string; sh_texts : list (string * string); sh_flags : list (string * bool); sh_factory : Factory;
}.
Definition find_in {A} (d : A) (l : list (string * A)) (k : string) : A :=
  match List.find (fun kv => String.eqb kv.1 k) l with Some kv => kv.2 | None => d end.

#[export] Instance shell_command : Command shell := {|
  GetClientTxContext c := Ok (mkClientCtx (sh_from c) false);
  NewFactoryCLI _ c := Ok (sh_factory c);
  SetFlag k v c := Ok (if String.eqb k "from" then mkShell v (sh_texts c) (sh_flags c) (sh_factory c) else c);
  GetString c k := Ok (find_in "" (sh_texts c) k);
  GetBool c k := Ok (find_in false (sh_flags c) k);
  EnsureExists _ _ := Ok tt;
  GetAccountNumberSequence _ _ := Ok (3, 4);
  CalculateGas _ _ _ := Ok 90000;
  ReadTxFromFile _ _ := Ok [];
  WasmValidateBasic _ := Ok tt;
|}.

(** A text for every list of coins: the bits of its code. *)
Fixpoint bits (p : positive) : string :=
  match p with xH => "" | xO p => String "0" (bits p) | xI p => String "1" (bits p) end.
Fixpoint unbits (s : string) : positive :=
  match s with
  | "" => xH
  | String c s => if Ascii.eqb c "0" then xO (unbits s) else xI (unbits s)
  end.
Lemma unbits_bits p : unbits (bits p) = p.
Proof. induction p; simpl; congruence. Qed.

Definition text_of (cs : list Coin) : string := bits (encode (map (fun c => (Denom c, Amount c)) cs)).
Definition coins_of (text : string) : res (list Coin) :=
  match decode (unbits text) : option (list (string * Z)) with
  | Some l => let cs := map (fun p => mkCoin p.1 p.2) l in
              if coins_ok cs then Ok cs else Err (Plain "invalid coins")
  | None => Err (Plain "invalid coins")
  end.
#[export] Instance coin_text : CoinText := {|
  ParseCoinNormalized text := match coins_of text with Ok [c] => Ok c | _ => Err (Plain "invalid coin") end;
  ParseCoinsNormalized := coins_of;
  CoinsString := text_of;
|}.
#[export] Instance coin_text_laws : CoinTextLaws.
Proof.
  split; cbn.
  - intros text cs. unfold coins_of. case_match; [|done]. case_match eqn:E; [|done]. by intros [= <-].
  - intros cs Hv. unfold coins_of, text_of. rewrite unbits_bits, decode_encode, map_map.
    assert (map (fun c => mkCoin (Denom c, Amount c).1 (Denom c, Amount c).2) cs = cs) as ->.
    { clear. induction cs as [|[d a] cs IH]; simpl; [done|]. by f_equal. }
    by rewrite Hv.
Qed.

#[export] Instance coin_scale : CoinScale := {|
  CoinsQuoInt cs x := if x =? 0 then Panic else Ok (scale_coins (fun a => Z.quot a x) cs);
  CoinsMulInt cs x := if x =? 0 then Panic else Ok (scale_coins (fun a => a * x) cs);
|}.
#[export] Instance coin_scale_laws : CoinScaleLaws.
Proof. split; cbn; intros cs x z; destruct (Z.eqb_spec x 0); intros; simplify_eq; done. Qed.

(** Gas 70,000 at 0.015 udo, with an adjustment of 1.5. *)
Definition price : DecCoin := mkDecCoin "udo" (15 * 10 ^ 15).
Definition factory : Factory := mkFactory 1 1 [] 70000 [price] (3, -1) false.
Definition sh : shell := mkShell "val" [] [] factory.
Definition client : ClientCtx := mkClientCtx "val" false.

(** The factory after an estimate, and shells with flags set. *)
Definition paid_factory : Factory := mkFactory 1 1 [mkCoin "udo" 1050] 70000 [] (3, -1) false.
Definition splitting : shell := mkShell "val" [] [("split", true)] factory.
Definition labelled (flags : list (string * bool)) : shell :=
  mkShell "val" [("label", "label"); ("amount", text_of [])] (("no-admin", true) :: flags) factory.
Definition no_admin : shell := labelled [].
Definition base64 : shell := labelled [("b64", true)].
Definition contradictory : shell := labelled [("ascii", true); ("hex", true)].
Definition funded : shell := mkShell "val" [("deposit", text_of [])] [] factory.

Lemma adjustment_fits : is_i64 (int64_of_float (f_GasAdjustment factory) * 100).
Proof. vm_compute. split; [discriminate|reflexivity]. Qed.
Lemma gas_fits : 0 < 70000 < 2 ^ 63.
Proof. lia. Qed.

Lemma price_valid : valid_prices [price].
Proof. split; [apply (bool_decide_unpack _); by vm_compute|]. intros gp ->%list_elem_of_singleton. done. Qed.
End Example.

#[local] Existing Instances Example.shell_command Example.coin_text Example.coin_text_laws Example.coin_scale
  Example.coin_scale_laws OracleState.Example.parser OracleState.Example.hash
  Ante.ref_coin_cmp Ante.ref_coin_cmp_laws.

Definition estimate_0 : StdFee := mkStdFee [mkCoin "udo" 1050] 70000.

Lemma estimated_fee_exact_witness :
  ComputeFeesWithCmd Example.client Example.sh [] = Ok estimate_0 /\
  (forall gp, gp ∈ [Example.price] -> exists n, rounded_up n (DAmount gp * 70000 * 1) /\
     AmountOf [mkCoin "udo" 1050] (DDenom gp) = 0 + n).
Proof.
  assert (ComputeFeesWithCmd Example.client Example.sh [] = Ok estimate_0) as E by (vm_compute; reflexivity).
  split; [exact E|].
  destruct (estimated_fee_exact Example.client Example.sh [] estimate_0 Example.factory E eq_refl) as (_ & Hg & _);
    [vm_compute; reflexivity|exact Example.price_valid|exact Example.adjustment_fits|exact Example.gas_fits|].
  exact Hg.
Defined.

Definition paid_tx : Ante.Tx := Ante.mkTx true true true [] "" [mkCoin "udo" 1050] 70000 "val" None (Ok ["val"]).

Lemma estimate_accepted_witness :
  is_ok (Ante.checkTxFee (Ante.mkActx (mkCtx 5 0 "test" false false) [Example.price] 0) paid_tx) = true.
Proof.
  eapply (estimate_accepted Example.client Example.sh [] estimate_0 Example.factory paid_tx _ [mkCoin "udo" 1050]);
    [vm_compute; reflexivity|reflexivity|vm_compute; reflexivity|exact Example.price_valid
    |exact Example.adjustment_fits|exact Example.gas_fits|reflexivity|vm_compute; reflexivity
    |vm_compute; reflexivity|reflexivity..].
Defined.

Lemma cli_vote_opens_cli_prevote_witness :
  exists s3, OracleState.AggregateDoRateVote_handler (OracleState.Example.at_height 15) OracleState.Example.vote
      OracleState.Example.s1 = (Ok tt, s3) /\
    OracleState.st_prevotes s3 !! "val" = None.
Proof.
  destruct (cli_vote_opens_cli_prevote Example.sh Example.sh "salt" "10uusd" [] Example.client
    Example.factory Example.factory OracleState.Example.prevote OracleState.Example.vote
    (OracleState.Example.at_height 5) (OracleState.Example.at_height 15) OracleState.Example.s0 tt
    OracleState.Example.s1 OracleState.Example.s1 "val" [OracleState.mkDoRateTuple "uusd" (10 * Precision)])
    as (s3 & E & _ & Hp); try reflexivity; try (split; reflexivity); try (vm_compute; reflexivity);
    try (vm_compute; split; [discriminate|reflexivity]).
  exists s3. split; [exact E|exact Hp].
Defined.

Lemma multi_send_balances_witness :
  forall d, coins_sum [mkCoin "udo" 9] d =
    paid_out [mkOutput "do1a" [mkCoin "udo" 3]; mkOutput "do1b" [mkCoin "udo" 3]; mkOutput "do1c" [mkCoin "udo" 3]] d.
Proof.
  destruct (multi_send_balances Example.splitting ["val"; "do1a"; "do1b"; "do1c"; Example.text_of [mkCoin "udo" 10]]
    Example.paid_factory [MultiSend "do1val" [mkCoin "udo" 9]
      [mkOutput "do1a" [mkCoin "udo" 3]; mkOutput "do1b" [mkCoin "udo" 3]; mkOutput "do1c" [mkCoin "udo" 3]]])
    as (from & amount & outs & coins & split & E & _ & _ & Hd & _); [vm_compute; reflexivity|].
  injection E as _ <- <-. exact Hd.
Defined.

Lemma admin_is_chosen_witness :
  GetBool Example.no_admin "no-admin" = Ok (String.eqb "" "").
Proof.
  destruct (admin_is_chosen Example.no_admin ["7"; "{}"] Example.paid_factory
    [Instantiate (mkMsgInstantiate "do1val" "" 7 "label" "{}" [])]) as (cl & m & _ & E & _ & _ & _ & _ & Hn & _);
    [vm_compute; reflexivity|].
  injection E as <-. exact Hn.
Defined.

Lemma salt_read_back_witness :
  is_ok (InstantiateContract2Cmd Example.contradictory ["7"; "{}"; "aa"]) = false /\
  exists m fixMsg, [Instantiate2 (mkMsgInstantiate "do1val" "" 7 "label" "{}" []) "Do" false] = [Instantiate2 m "Do" fixMsg].
Proof.
  split.
  - exact (salt_read_back Example.contradictory "7" "{}" "aa" true true false eq_refl eq_refl eq_refl).
  - assert (GetBool Example.base64 "ascii" = Ok false) as Ha by reflexivity.
    assert (GetBool Example.base64 "hex" = Ok false) as Hh by reflexivity.
    assert (GetBool Example.base64 "b64" = Ok true) as Hb by reflexivity.
    refine (salt_read_back Example.base64 "7" "{}" "RG8=" false false true Ha Hh Hb "Do" Example.paid_factory _ _ _);
      vm_compute; reflexivity.
Defined.

Lemma exemption_proposals_execute_witness :
  exists s1, Treasury.NewProposalHandler (Treasury.AddBurnTaxExemptionAddressProposal "" "" ["do1a"; "do1b"])
      Treasury.Example.s0 = (Ok tt, s1) /\
    Treasury.st_exempt s1 = list_to_set ["do1a"; "do1b"] ∪ Treasury.st_exempt Treasury.Example.s0.
Proof.
  destruct (exemption_proposals_execute Example.funded ["do1a"; "do1b"] Example.factory
    [SubmitProposal (Treasury.AddBurnTaxExemptionAddressProposal "" "" ["do1a"; "do1b"]) [] "do1val"]
    Example.factory
    [SubmitProposal (Treasury.RemoveBurnTaxExemptionAddressProposal "" "" ["do1a"; "do1b"]) [] "do1val"]
    Treasury.Example.s0) as (add & dep & p & rem & dep' & p' & s1 & s2 & E & _ & R & X & _);
    [discriminate|apply (bool_decide_unpack _); vm_compute; reflexivity
    |apply (bool_decide_unpack _); vm_compute; reflexivity|repeat constructor
    |vm_compute; reflexivity|vm_compute; reflexivity|].
  injection E as <- _ _. exists s1. split; [exact R|exact X].
Defined.
