(* ===== verification/NodeSetup.v ===== *)
(** * Setting up nodes

    The commands of [src/cmd/dochaind] that prepare a chain: [init.go]
    (the files of a node with the chain's own defaults), [gentx.go] (a signed
    genesis transaction), [testnet.go] (the files of several nodes) and the
    options of [root.go] and [config.go]; with the default genesis values of
    the overridden modules under [src/custom].  The disk is the interface
    [Disk]; texts of configurations and transactions, keys and signatures
    belong to other packages and are arguments.

    The theorems: a node that was initialised has the limits of blocks in all
    three places of its genesis file and keeps the rest; the nodes of a testnet
    have the same genesis, with a supply that is the sum of the balances and
    validators that can pay for their stake; their addresses are distinct up to
    256 nodes and wrap beyond; a genesis transaction is written only for a
    funded account and never over another, in a file that is no JSON text. *)
From stdpp Require Import base gmap sets list strings fin_maps pretty.
From Stdlib Require Import ZArith Lia Ascii.
From S2P Require Import Prelude Sdk SdkRef Core Bindings AppGenesis.
#[local] Open Scope Z_scope.

(** ** The disk *)
Class Disk (S : Type) : Type := {
  ReadFile : S -> string -> option string;
  WriteFile : string -> string -> M S unit;
  MkdirAll : string -> M S unit;
  RemoveAll : string -> M S unit;
}.

(** A write that succeeds replaces one file; directories are not files. *)
Class DiskLaws (S : Type) `{Disk S} : Prop := {
  WriteFile_read p text s u s' q : WriteFile p text s = (Ok u, s') ->
    ReadFile s' q = if String.eqb p q then Some text else ReadFile s q;
  MkdirAll_read p s u s' q : MkdirAll p s = (Ok u, s') -> ReadFile s' q = ReadFile s q;
}.

(** ** config.go, root.go: configurations, with what the chain does not set *)
Record ConsensusConfig (R : Type) : Type := mkConsensusConfig {
  TimeoutPropose : Z; TimeoutProposeDelta : Z; TimeoutPrevote : Z; TimeoutPrevoteDelta : Z;
  TimeoutPrecommit : Z; TimeoutPrecommitDelta : Z; TimeoutCommit : Z;
  MaxNumInboundPeers : Z; MaxNumOutboundPeers : Z; tm_rest : R;
}.
Arguments mkConsensusConfig {R}.
Arguments tm_rest {R}.

(** Durations in milliseconds. *)
Definition initTendermintConfig {R} (DefaultConfig : ConsensusConfig R) : ConsensusConfig R :=
  mkConsensusConfig 1000 500 500 500 500 500 1000 100 40 (tm_rest DefaultConfig).

Definition DefaultIAVLCacheSize : Z := 3125000.
Definition IavlDisablefastNodeDefault : bool := false.
Definition DefaultWasmMemoryCacheSize : Z := 1024.
Definition DefaultWasmSmartQueryGasLimit : Z := 5000000.

Record NodeConfig : Type := mkNodeConfig {
  SimulationGasLimit : option Z; SmartQueryGasLimit : Z; MemoryCacheSize : Z;
}.
Record DoAppConfig (R : Type) : Type := mkDoAppConfig {
  IAVLCacheSize : Z; IAVLDisableFastNode : bool; MinGasPrices : string;
  Pruning : string; PruningKeepRecent : string; PruningInterval : string;
  API_Enable : bool; API_Swagger : bool; API_Address : string;
  GRPC_Enable : bool; GRPC_Address : string; GRPCWeb_Enable : bool; MaxTxs : Z;
  Telemetry_Enabled : bool; PrometheusRetentionTime : Z; EnableHostnameLabel : bool;
  GlobalLabels : list (list string);
  Wasm : NodeConfig; srv_rest : R;
}.
Arguments mkDoAppConfig {R}.
Arguments IAVLCacheSize {R}. Arguments IAVLDisableFastNode {R}. Arguments MinGasPrices {R}.
Arguments Pruning {R}. Arguments PruningKeepRecent {R}. Arguments PruningInterval {R}.
Arguments API_Enable {R}. Arguments API_Swagger {R}. Arguments API_Address {R}.
Arguments GRPC_Enable {R}. Arguments GRPC_Address {R}. Arguments GRPCWeb_Enable {R}. Arguments MaxTxs {R}.
Arguments Telemetry_Enabled {R}. Arguments PrometheusRetentionTime {R}. Arguments EnableHostnameLabel {R}.
Arguments GlobalLabels {R}. Arguments Wasm {R}. Arguments srv_rest {R}.

(** [initAppConfig] without the template. *)
Definition initAppConfig {R} (srvCfg : DoAppConfig R) (wasmCfg : NodeConfig) : DoAppConfig R :=
  mkDoAppConfig DefaultIAVLCacheSize IavlDisablefastNodeDefault "0.000006udo" "custom" "50" "10"
    true false "tcp://127.0.0.1:1317" true "localhost:9090" true 20000
    (Telemetry_Enabled srvCfg) (PrometheusRetentionTime srvCfg) (EnableHostnameLabel srvCfg) (GlobalLabels srvCfg)
    (mkNodeConfig (SimulationGasLimit wasmCfg) DefaultWasmSmartQueryGasLimit DefaultWasmMemoryCacheSize)
    (srv_rest srvCfg).

(** The line of [WasmConfigTemplate] for the simulation limit. *)
Definition simGasLimit (c : NodeConfig) : string :=
  match SimulationGasLimit c with
  | Some n => "simulation_gas_limit = " +:+ pretty n
  | None => "# simulation_gas_limit ="
  end.

(** ** init.go *)
Definition DefaultGenesisBlockMaxBytes : Z := 22020096.
Definition DefaultGenesisBlockMaxGas : Z := 40000000.

Notation Object := (gmap string json).

(** [ensureMap] answers the map under a key, a new one if there is none; what
    is written to it is written to the parent. *)
Definition ensureMap (parent : Object) (key : string) : Object := default ∅ (as_map (parent !! key)).
Definition on_map (key : string) (f : Object -> Object) (parent : Object) : Object :=
  <[key := object (f (ensureMap parent key))]> parent.

Definition set_limits (block : Object) : Object :=
  <["max_gas" := JString (pretty DefaultGenesisBlockMaxGas)]>
    (<["max_bytes" := JString (pretty DefaultGenesisBlockMaxBytes)]> block).

Definition rewrite_genesis (gen : Object) : Object :=
  let gen := on_map "consensus_params" (on_map "block" set_limits) gen in
  let gen := on_map "consensus" (on_map "params" (on_map "block" set_limits)) gen in
  on_map "app_state" (on_map "consensus" (on_map "block" set_limits)) gen.

Section init.
Context {S R R' : Type} `{Disk S}.
(** The paths below the configuration directory of a home, the texts of JSON
    values and configurations, and the command of the SDK. *)
Variable Join : list string -> string.
Variable parse_json : string -> option json.
Variable print_json : json -> string.
Variable float_text : string -> option string.
Variable tm_text : string -> ConsensusConfig R -> string.
Variable app_text : DoAppConfig R' -> string.
Variable tm_default : ConsensusConfig R.
Variable srv_default : DoAppConfig R'.
Variable wasm_default : NodeConfig.
Variable originalRunE : M S unit.

(** [json.Unmarshal(genBz, &gen)] into a map: [null] leaves it nil, and the
    first write to a nil map panics. *)
Definition unmarshal_object (text : string) : res (option Object) :=
  match parse_json text with
  | Some j => match read_value float_text j with
              | Some (JObject fs) => Ok (Some (fields fs))
              | Some JNull => Ok None
              | _ => Err (Plain "failed to unmarshal genesis file")
              end
  | None => Err (Plain "failed to unmarshal genesis file")
  end.

Definition read_file (path : string) : M S string :=
  s ← get; match ReadFile s path with Some text => mret text | None => throw (Plain "failed to read file") end.

(** [WriteConfigFile] panics when it cannot write. *)
Definition WriteConfigFile (path text : string) : M S unit := fun s =>
  match WriteFile path text s with (Err _, s') => (Panic, s') | r => r end.

Definition InitCmd (HomeDir defaultNodeHome : string) : M S unit :=
  originalRunE ;;
  let homeDir := if String.eqb HomeDir "" then defaultNodeHome else HomeDir in
  let configDir := Join [homeDir; "config"] in
  let genesisPath := Join [configDir; "genesis.json"] in
  WriteConfigFile (Join [configDir; "config.toml"]) (tm_text homeDir (initTendermintConfig tm_default)) ;;
  WriteConfigFile (Join [configDir; "app.toml"]) (app_text (initAppConfig srv_default wasm_default)) ;;
  genBz ← read_file genesisPath;
  gen ← lift (unmarshal_object genBz);
  match gen with
  | None => panic
  | Some gen => WriteFile genesisPath (print_json (object (rewrite_genesis gen)))
  end.
End init.

(** ** gentx.go *)
Inductive KeyType : Type := TypeLocal | TypeLedger | TypeOffline | TypeMulti.
Record MsgCreateValidator : Type := mkMsgCreateValidator {
  cv_DelegatorAddress : string; cv_ValidatorAddress : string; cv_Value : Coin; cv_rest : string;
}.
Inductive GenTxResult : Type := Printed (text : string) | Written (path : string).

Section gentx.
Context {S PubKey Key ValCfg Bldr Tx Fac : Type} `{Disk S}.
Variable Join : list string -> string.
Variable InitializeNodeValidatorFiles : M S (string * PubKey).
Variable flag : string -> string.
Variable UnmarshalPubKey : string -> res PubKey.
Variable AppGenesisFromFile : S -> res (string * string).
Variable UnmarshalState : string -> res GenesisState.
Variable ValidateGenesis : GenesisState -> res unit.
Variable Keyring_Key : string -> res Key.
Variable key_address : Key -> res AccAddress.
Variable key_type : Key -> KeyType.
Variable PrepareConfig : string -> string -> string -> PubKey -> res ValCfg.
Variable ParseCoinsNormalized : string -> res (list Coin).
Variable ValidateAccountInGenesis : GenesisState -> AccAddress -> list Coin -> res unit.
Variable NewFactory : res Fac.
Variable BuildCreateValidatorMsg : AccAddress -> ValCfg -> string -> Fac -> res (Bldr * MsgCreateValidator).
Variable ValidateBasic : MsgCreateValidator -> res unit.
Variable PrintUnsignedTx : Bldr -> MsgCreateValidator -> res string.
Variable TxJSONDecoder : string -> res Tx.
Variable SignTx : Fac -> string -> Tx -> res Tx.
Variable TxJSONEncoder : Tx -> res string.
Context `{AddrCodec}.

(** [errors.Wrap] keeps that there is an error. *)
Definition wrap {A} (text : string) (r : res A) : res A :=
  match r with Err _ => Err (Plain text) | r => r end.

Definition makeOutputFilepath (rootDir nodeID : string) : M S string :=
  let writePath := Join [rootDir; "config"; "gentx"] in
  MkdirAll writePath ;;
  mret (Join [writePath; "gentx-" +:+ nodeID +:+ ".json"]).

Definition readUnsignedGenTxFile (w : string) : res Tx := TxJSONDecoder w.

(** [O_CREATE|O_EXCL] refuses a file that exists; the text of the format is
    the transaction, a back quote and an n. *)
Definition writeSignedGenTx (outputDocument : string) (tx : Tx) : M S unit :=
  s ← get;
  match ReadFile s outputDocument with
  | Some _ => throw (Plain "file exists")
  | None =>
      jsonBz ← lift (TxJSONEncoder tx);
      WriteFile outputDocument (jsonBz +:+ "`n")
  end.

Definition if_set (name : string) (old : string) : string := if String.eqb (flag name) "" then old else flag name.

Definition GenTxCmd (rootDir Moniker name amount : string) : M S GenTxResult :=
  '(nodeID, valPubKey) ← InitializeNodeValidatorFiles;
  let nodeID := if_set "node-id" nodeID in
  valPubKey ← (if String.eqb (flag "pubkey") "" then mret valPubKey
               else lift (wrap "failed to unmarshal validator public key" (UnmarshalPubKey (flag "pubkey"))));
  s ← get;
  '(ChainID, AppState) ← lift (wrap "failed to read genesis doc file" (AppGenesisFromFile s));
  genesisState ← lift (wrap "failed to unmarshal genesis state" (UnmarshalState AppState));
  lift (wrap "failed to validate genesis state" (ValidateGenesis genesisState)) ;;
  key ← lift (wrap "failed to fetch from the keyring" (Keyring_Key name));
  let moniker := if_set "moniker" Moniker in
  createValCfg ← lift (wrap "error creating configuration" (PrepareConfig moniker nodeID ChainID valPubKey));
  coins ← lift (wrap "failed to parse coins" (ParseCoinsNormalized amount));
  addr ← lift (key_address key);
  lift (wrap "failed to validate account in genesis" (ValidateAccountInGenesis genesisState addr coins)) ;;
  txFactory ← lift NewFactory;
  fromAddr ← lift (key_address key);
  '(txBldr, msg) ← lift (wrap "failed to build create-validator message"
                          (BuildCreateValidatorMsg fromAddr createValCfg amount txFactory));
  let msg := mkMsgCreateValidator (AccAddressString fromAddr) (cv_ValidatorAddress msg) (cv_Value msg) (cv_rest msg) in
  if match key_type key with TypeOffline | TypeMulti => true | _ => false end
  then text ← lift (PrintUnsignedTx txBldr msg); mret (Printed text)
  else
    lift (ValidateBasic msg) ;;
    w ← lift (wrap "failed to print unsigned std tx" (PrintUnsignedTx txBldr msg));
    stdTx ← lift (wrap "failed to read unsigned gen tx file" (readUnsignedGenTxFile w));
    stdTx ← lift (wrap "failed to sign std tx" (SignTx txFactory name stdTx));
    outputDocument ← (if String.eqb (flag "output-document") "" then makeOutputFilepath rootDir nodeID
                      else mret (flag "output-document"));
    writeSignedGenTx outputDocument stdTx ;;
    mret (Written outputDocument).
End gentx.

(** ** testnet.go *)

(** An IPv4 address; the last byte is incremented as a byte. *)
Record IPv4 : Type := mkIPv4 { ip0 : Z; ip1 : Z; ip2 : Z; ip3 : Z }.

Fixpoint bump (i : nat) (b : Z) : Z :=
  match i with O => b | S i => bump i ((b + 1) mod 256) end.

Definition IPv4_String (ip : IPv4) : string :=
  pretty (ip0 ip) +:+ "." +:+ pretty (ip1 ip) +:+ "." +:+ pretty (ip2 ip) +:+ "." +:+ pretty (ip3 ip).

Definition BondDenom : string := "udo".
Definition TokensFromConsensusPower (power : Z) : Z := power * 1000000.

Record Balance : Type := mkBalance { b_Address : string; b_Coins : list Coin }.
(** The parts of the application's genesis that the command writes. *)
Record AppGen (G : Type) : Type := mkAppGen {
  ag_accounts : list AccAddress; ag_balances : list Balance; ag_supply : list Coin;
  ag_voting_period : Z; ag_rest : G;
}.
Arguments mkAppGen {G}. Arguments ag_accounts {G}. Arguments ag_balances {G}. Arguments ag_supply {G}.
Arguments ag_voting_period {G}. Arguments ag_rest {G}.

(** What the command gathers about a node. *)
Record Node (PubKey : Type) : Type := mkNode {
  n_id : string; n_pubkey : PubKey; n_addr : AccAddress; n_balance : Balance; n_genesis : string;
  n_create : MsgCreateValidator;
}.
Arguments mkNode {PubKey}. Arguments n_id {PubKey}. Arguments n_pubkey {PubKey}. Arguments n_addr {PubKey}.
Arguments n_balance {PubKey}. Arguments n_genesis {PubKey}. Arguments n_create {PubKey}.

Section testnet.
Context {S PubKey G R : Type} `{Disk S} `{CoinOps} `{CoinSortOps} `{AddrCodec}.
Variable Join : list string -> string.
Variable ParseIPv4 : string -> option IPv4.
Variable ExternalIP : res string.
(** Files of a validator and a key of its own; both may fail. *)
Variable InitializeNodeValidatorFiles : string -> M S (string * PubKey).
Variable NewKeyring : string -> M S unit.
Variable SigningAlgo : res unit.
Variable GenerateSaveCoinKey : string -> M S (AccAddress * string).
Variable NewMsgCreateValidator : string -> PubKey -> Coin -> string -> res MsgCreateValidator.
(** The signed transaction with its memo. *)
Variable SignedGenTx : string -> string -> MsgCreateValidator -> res string.
Variable secret_text : string -> string.
Variable app_text : DoAppConfig R -> string.
Variable DefaultGenesis : AppGen G.
Variable genesis_text : string -> AppGen G -> string.
Variable PackAccounts : list AccAddress -> res (list AccAddress).

Definition calculateIP (ip : string) (i : nat) : res string :=
  match ParseIPv4 ip with
  | None => Err (Plain "non ipv4 address")
  | Some ip => Ok (IPv4_String (mkIPv4 (ip0 ip) (ip1 ip) (ip2 ip) (bump i (ip3 ip))))
  end.

Definition getIP (i : nat) (startingIPAddr : string) : res string :=
  if String.eqb startingIPAddr "" then ExternalIP else calculateIP startingIPAddr i.

Definition writeFile (name dir contents : string) : M S unit :=
  MkdirAll dir ;; WriteFile (Join [dir; name]) contents.

(** [if err != nil { _ = os.RemoveAll(outputDir); return err }] *)
Definition or_remove {A} (outputDir : string) (m : M S A) : M S A := fun s =>
  match m s with
  | (Err e, s') => (Err e, snd (RemoveAll outputDir s'))
  | r => r
  end.

Definition node_dir_name (nodeDirPrefix : string) (i : nat) : string := nodeDirPrefix +:+ pretty (Z.of_nat i).

(** The body of the loop over the nodes. *)
Definition init_node (outputDir nodeDirPrefix nodeDaemonHome startingIPAddress : string) (doappConfig : DoAppConfig R)
    (i : nat) : M S (Node PubKey) :=
  let nodeDirName := node_dir_name nodeDirPrefix i in
  let nodeDir := Join [outputDir; nodeDirName; nodeDaemonHome] in
  let gentxsDir := Join [outputDir; "gentxs"] in
  or_remove outputDir (MkdirAll (Join [nodeDir; "config"])) ;;
  ip ← or_remove outputDir (lift (getIP i startingIPAddress));
  '(nodeID, valPubKey) ← or_remove outputDir (InitializeNodeValidatorFiles nodeDir);
  let memo := nodeID +:+ "@" +:+ ip +:+ ":26656" in
  let genFile := Join [nodeDir; "config/genesis.json"] in
  NewKeyring nodeDir ;;
  lift SigningAlgo ;;
  '(addr, secret) ← or_remove outputDir (GenerateSaveCoinKey nodeDirName);
  writeFile "key_seed.json" nodeDir (secret_text secret) ;;
  let accTokens := TokensFromConsensusPower 1000 in
  let accStakingTokens := TokensFromConsensusPower 50000 in
  token ← must (NewCoin (nodeDirName +:+ "token") accTokens);
  stake ← must (NewCoin BondDenom accStakingTokens);
  let balance := mkBalance (AccAddressString addr) (CoinsSort [token; stake]) in
  let valTokens := TokensFromConsensusPower 100 in
  value ← must (NewCoin BondDenom valTokens);
  createValMsg ← lift (NewMsgCreateValidator (ValAddressString addr) valPubKey value nodeDirName);
  txBz ← lift (SignedGenTx nodeDirName memo createValMsg);
  writeFile (nodeDirName +:+ ".json") gentxsDir txBz ;;
  WriteConfigFile (Join [nodeDir; "config/app.toml"]) (app_text doappConfig) ;;
  mret (mkNode nodeID valPubKey addr balance genFile createValMsg).

Fixpoint init_nodes (f : nat -> M S (Node PubKey)) (l : list nat) : M S (list (Node PubKey)) :=
  match l with
  | [] => mret []
  | i :: l => n ← f i; ns ← init_nodes f l; mret (n :: ns)
  end.

Definition total_supply (balances : list Balance) : res (list Coin) :=
  zero ← NewCoins [];
  foldRes (fun total b => CoinsAdd total (b_Coins b)) zero balances.

Definition genesis_with (nodes : list (Node PubKey)) : M S (AppGen G) :=
  accounts ← lift (PackAccounts (map n_addr nodes));
  totalSupply ← must (total_supply (map n_balance nodes));
  mret (mkAppGen accounts (map n_balance nodes) totalSupply (3 * 60) (ag_rest DefaultGenesis)).

Definition initGenFiles (chainID : string) (nodes : list (Node PubKey)) : M S unit :=
  appGenState ← genesis_with nodes;
  forM (fun n => WriteFile (n_genesis n) (genesis_text chainID appGenState)) nodes.

(** Reading a genesis file with the collected transactions, and the text of a
    genesis with a time. *)
Variable GenAppStateFromConfig : string -> string -> M S string.
Variable export_text : string -> string -> string.

Fixpoint collectGenFiles (chainID : string) (appState : option string) (nodes : list (Node PubKey)) : M S unit :=
  match nodes with
  | [] => mret tt
  | n :: nodes =>
      genDoc ← read_file (n_genesis n);
      nodeAppState ← GenAppStateFromConfig (n_id n) genDoc;
      let appState := default nodeAppState appState in
      WriteFile (n_genesis n) (export_text chainID appState) ;;
      collectGenFiles chainID (Some appState) nodes
  end.

Definition InitTestnet (srv_default : DoAppConfig R) (wasm_default : NodeConfig) (rand : string)
    (outputDir chainID minGasPrices nodeDirPrefix nodeDaemonHome startingIPAddress : string) (numValidators : nat) :
    M S (list (Node PubKey)) :=
  let chainID := if String.eqb chainID "" then "chain-" +:+ rand else chainID in
  let c := initAppConfig srv_default wasm_default in
  let doappConfig := mkDoAppConfig (IAVLCacheSize c) (IAVLDisableFastNode c) minGasPrices (Pruning c)
    (PruningKeepRecent c) (PruningInterval c) true (API_Swagger c) (API_Address c) (GRPC_Enable c) (GRPC_Address c)
    (GRPCWeb_Enable c) (MaxTxs c) true 60 false [["chain_id"; chainID]] (Wasm c) (srv_rest c) in
  nodes ← init_nodes (init_node outputDir nodeDirPrefix nodeDaemonHome startingIPAddress doappConfig) (seq 0 numValidators);
  initGenFiles chainID nodes ;;
  collectGenFiles chainID None nodes ;;
  mret nodes.
End testnet.

(** ** root.go: what a node is started with *)
Section start.
Variable option_text : string -> string.
Variable genesis_chain_id : string -> option string.

Definition home_dir (DefaultNodeHome : string) : string :=
  if String.eqb (option_text "home") "" then DefaultNodeHome else option_text "home".

(** The flag, or the genesis file if it can be read, or a name for help. *)
Definition chain_id (homeDir : string) : string :=
  let chainID := option_text "chain-id" in
  if String.eqb chainID "" then
    let chainID := default "" (genesis_chain_id homeDir) in
    if String.eqb chainID "" then "do-local" else chainID
  else chainID.

Definition skip_heights (heights : list Z) : gset Z := list_to_set heights.

(** The height to load: the latest for -1. *)
Definition appExport {A X} (new_app : bool -> A) (LoadHeight : Z -> A -> res A) (Export : A -> res X) (height : Z) : res X :=
  if String.eqb (option_text "home") "" then Err (Plain "application home not set")
  else if negb (height =? -1)
  then app ← LoadHeight height (new_app false); Export app
  else Export (new_app true).
End start.

(** ** Default genesis of the overridden modules *)
Definition gov_DefaultGenesis `{CoinOps} : res (list Coin * list Coin) :=
  proposalDeposit ← NewCoin MicroDODxDenom MicroUnit;
  minDeposit ← NewCoins [proposalDeposit];
  expedited ← NewCoins [proposalDeposit];
  Ok (minDeposit, expedited).
Definition mint_DefaultGenesis : string := MicroDoDenom.
Definition staking_DefaultGenesis : string := MicroDoDenom.

(** ** Facts *)
Section init_facts.
Context {S R R' : Type} `{Disk S} `{!DiskLaws S}.
Variable Join : list string -> string.
Variable parse_json : string -> option json.
Variable print_json : json -> string.
Variable float_text : string -> option string.
Variable tm_text : string -> ConsensusConfig R -> string.
Variable app_text : DoAppConfig R' -> string.
Variable tm_default : ConsensusConfig R.
Variable srv_default : DoAppConfig R'.
Variable wasm_default : NodeConfig.
Variable originalRunE : M S unit.
(** Files with different names in a directory are different. *)
Hypothesis Join_inj : forall dir a b, Join [dir; a] = Join [dir; b] -> a = b.

Lemma ensureMap_on_map key f parent : ensureMap (on_map key f parent) key = f (ensureMap parent key).
Proof. unfold on_map. unfold ensureMap at 1. by rewrite lookup_insert_eq, fields_object. Qed.

Lemma ensureMap_other key f parent k : k <> key -> ensureMap (on_map key f parent) k = ensureMap parent k.
Proof. intros Hk. unfold ensureMap, on_map. by rewrite lookup_insert_ne. Qed.

Definition limited (block : Object) : Prop :=
  block !! "max_bytes" = Some (JString "22020096") /\ block !! "max_gas" = Some (JString "40000000").

Lemma set_limits_limited b : limited (set_limits b).
Proof.
  split; unfold set_limits; [rewrite lookup_insert_ne by done|]; by rewrite lookup_insert_eq.
Qed.

Lemma write_config_read p text s u s' q : WriteConfigFile p text s = (Ok u, s') ->
  ReadFile s' q = if String.eqb p q then Some text else ReadFile s q.
Proof.
  unfold WriteConfigFile. destruct (WriteFile p text s) as [[[]| |] s1] eqn:E; try done. intros [= _ <-].
  by eapply WriteFile_read.
Qed.

(** a node that was initialised has the chain's defaults: its
    configuration files are the texts of the chain's configurations, and its
    genesis file is the one the SDK made with the limits on bytes and gas of a
    block in all three places where they are read, and nothing else changed:
    other top-level fields, the genesis of other modules, and other fields of
    a block stay as they were. *)
Theorem init_sets_defaults HomeDir defaultHome s u s' :
  InitCmd Join parse_json print_json float_text tm_text app_text tm_default srv_default wasm_default originalRunE
    HomeDir defaultHome s = (Ok u, s') ->
  let home := if String.eqb HomeDir "" then defaultHome else HomeDir in
  let dir := Join [home; "config"] in
  exists s0 text gen,
    originalRunE s = (Ok tt, s0) /\ ReadFile s0 (Join [dir; "genesis.json"]) = Some text /\
    unmarshal_object parse_json float_text text = Ok (Some gen) /\
    let gen' := rewrite_genesis gen in
    ReadFile s' (Join [dir; "genesis.json"]) = Some (print_json (object gen')) /\
    ReadFile s' (Join [dir; "config.toml"]) = Some (tm_text home (initTendermintConfig tm_default)) /\
    ReadFile s' (Join [dir; "app.toml"]) = Some (app_text (initAppConfig srv_default wasm_default)) /\
    limited (ensureMap (ensureMap gen' "consensus_params") "block") /\
    limited (ensureMap (ensureMap (ensureMap gen' "consensus") "params") "block") /\
    limited (ensureMap (ensureMap (ensureMap gen' "app_state") "consensus") "block") /\
    (forall k, k ∉ ["consensus_params"; "consensus"; "app_state"] -> gen' !! k = gen !! k) /\
    (forall m, m <> "consensus" -> ensureMap gen' "app_state" !! m = ensureMap gen "app_state" !! m).
Proof.
  intros E home dir. unfold InitCmd in E. fold home dir in E. apply M_bind_ok in E as ([] & s0 & E0 & E).
  apply M_bind_ok in E as (u1 & s1 & E1 & E). apply M_bind_ok in E as (u2 & s2 & E2 & E).
  apply M_bind_ok in E as (text & s3 & E3 & E). apply M_bind_ok in E as (gen & s4 & E4 & E).
  apply lift_ok in E4 as [Eg ->]. destruct gen as [gen|]; [|done].
  assert (s3 = s2 /\ ReadFile s2 (Join [dir; "genesis.json"]) = Some text) as [-> Ht].
  { unfold read_file in E3. apply M_bind_ok in E3 as (x & s5 & Ex & E3). injection Ex as <- <-.
    destruct (ReadFile s2 _) as [t|] eqn:Er; [|done]. by injection E3 as <- <-. }
  assert (forall a b, a <> b -> String.eqb (Join [dir; a]) (Join [dir; b]) = false) as Hne.
  { intros a b Hab. apply String.eqb_neq. intros Ej. by apply Hab, (Join_inj dir). }
  pose proof (fun q => write_config_read _ _ _ _ _ q E1) as R1.
  pose proof (fun q => write_config_read _ _ _ _ _ q E2) as R2.
  pose proof (fun q => WriteFile_read _ _ _ _ _ q E) as R3.
  rewrite R2, Hne, R1, Hne in Ht by done.
  exists s0, text, gen. split; [done|]. split; [done|]. split; [done|]. cbv zeta.
  split; [by rewrite R3, String.eqb_refl|].
  split; [by rewrite R3, Hne, R2, Hne, R1, String.eqb_refl by done|].
  split; [by rewrite R3, Hne, R2, String.eqb_refl by done|].
  unfold rewrite_genesis.
  split; [|split; [|split; [|split]]].
  - rewrite !(ensureMap_other _ _ _ "consensus_params") by done. rewrite !ensureMap_on_map. apply set_limits_limited.
  - rewrite (ensureMap_other _ _ _ "consensus") by done. rewrite !ensureMap_on_map. apply set_limits_limited.
  - rewrite !ensureMap_on_map. apply set_limits_limited.
  - intros k Hk. rewrite !not_elem_of_cons in Hk. destruct Hk as (K1 & K2 & K3 & _). unfold on_map at 1.
    rewrite lookup_insert_ne by done. unfold on_map at 1. rewrite lookup_insert_ne by done.
    unfold on_map at 1. by rewrite lookup_insert_ne.
  - intros m Hm. rewrite ensureMap_on_map. unfold on_map at 1. rewrite lookup_insert_ne by done.
    by rewrite !ensureMap_other.
Qed.
End init_facts.

(** ** Addresses of a testnet *)
Lemma bump_mod i : forall b, 0 <= b < 256 -> bump i b = (b + Z.of_nat i) mod 256.
Proof.
  induction i as [|i IH]; intros b Hb; cbn [bump].
  - rewrite Z.add_0_r. by rewrite Z.mod_small.
  - rewrite IH by (apply Z.mod_pos_bound; lia). rewrite Zplus_mod_idemp_l. f_equal. lia.
Qed.

(** the nodes of a testnet get addresses that differ as long as their
    numbers differ modulo 256, and only so long: the last byte of the starting
    address wraps around without a carry, so node 256 has the address of node
    0. *)
Theorem testnet_addresses_wrap (ParseIPv4 : string -> option IPv4) ip x i j :
  ParseIPv4 ip = Some x -> 0 <= ip3 x < 256 ->
  calculateIP ParseIPv4 ip i = calculateIP ParseIPv4 ip j <-> Z.of_nat i mod 256 = Z.of_nat j mod 256.
Proof.
  intros Hp Hb. unfold calculateIP. rewrite Hp, !bump_mod by done. split.
  - intros E. injection E as E. unfold IPv4_String in E. cbn [ip0 ip1 ip2 ip3] in E.
    repeat apply (inj (String.append _)) in E. apply (inj pretty) in E.
    replace (Z.of_nat i) with (ip3 x + Z.of_nat i - ip3 x) by lia.
    replace (Z.of_nat j) with (ip3 x + Z.of_nat j - ip3 x) by lia.
    by rewrite Zminus_mod, E, <- Zminus_mod.
  - intros E. do 2 f_equal. f_equal. by rewrite <- Zplus_mod_idemp_r, E, Zplus_mod_idemp_r.
Qed.

(** ** The genesis of a testnet *)
Section testnet_facts.
Context {S PubKey G R : Type} `{Disk S} `{!DiskLaws S} `{MathOps} `{CoinOps} `{CoinSortOps} `{AddrCodec}.
Context `{!MathLaws} `{!CoinLaws} `{!CoinSortLaws} `{!SortLaws}.
Variable Join : list string -> string.
Variable ParseIPv4 : string -> option IPv4.
Variable ExternalIP : res string.
Variable InitializeNodeValidatorFiles : string -> M S (string * PubKey).
Variable NewKeyring : string -> M S unit.
Variable SigningAlgo : res unit.
Variable GenerateSaveCoinKey : string -> M S (AccAddress * string).
Variable NewMsgCreateValidator : string -> PubKey -> Coin -> string -> res MsgCreateValidator.
Variable SignedGenTx : string -> string -> MsgCreateValidator -> res string.
Variable secret_text : string -> string.
Variable app_text : DoAppConfig R -> string.
Variable DefaultGenesis : AppGen G.
Variable genesis_text : string -> AppGen G -> string.
Variable PackAccounts : list AccAddress -> res (list AccAddress).
Variable GenAppStateFromConfig : string -> string -> M S string.
Variable export_text : string -> string -> string.
(** The message has the value it was made with. *)
Hypothesis create_value : forall val key coin name m,
  NewMsgCreateValidator val key coin name = Ok m -> cv_Value m = coin.
(** Collecting transactions writes no genesis file. *)
Hypothesis collect_reads : forall id doc s a s' dir, GenAppStateFromConfig id doc s = (Ok a, s') ->
  ReadFile s' (Join [dir; "config/genesis.json"]) = ReadFile s (Join [dir; "config/genesis.json"]).

(** A node with its funds: the token of its own, and the stake. *)
Definition funded (n : Node PubKey) : Prop :=
  CoinsIsValid (b_Coins (n_balance n)) = true /\
  AmountOf (b_Coins (n_balance n)) BondDenom = 50000000000 /\
  cv_Value (n_create n) = mkCoin BondDenom 100000000 /\
  b_Address (n_balance n) = AccAddressString (n_addr n) /\
  exists dir, n_genesis n = Join [dir; "config/genesis.json"].

Lemma token_not_bond (name : string) : (name +:+ "token")%string <> BondDenom.
Proof.
  intros E. apply (f_equal String.length) in E.
  assert (forall a b, String.length (a +:+ b) = (String.length a + String.length b)%nat) as Hl
    by (induction a as [|c a IH]; intros b; [done|]; change (String c a +:+ b) with (String c (a +:+ b)); simpl;
        by rewrite IH).
  rewrite Hl in E. simpl in E. lia.
Qed.

Lemma init_node_funded outputDir prefix daemon ip config i s n s' :
  init_node Join ParseIPv4 ExternalIP InitializeNodeValidatorFiles NewKeyring SigningAlgo GenerateSaveCoinKey
    NewMsgCreateValidator SignedGenTx secret_text app_text outputDir prefix daemon ip config i s = (Ok n, s') ->
  funded n.
Proof.
  unfold init_node. intros E. set (name := node_dir_name prefix i) in *.
  m_bind E as u1 E1. m_bind E as ip' E2. m_bind E as [nodeID pk] E3. m_bind E as u2 E4. m_bind E as u3 E5.
  m_bind E as [addr secret] E6. m_bind E as u4 E7. m_bind E as token E8. m_bind E as stake E9.
  m_bind E as value E10. m_bind E as msg E11. m_bind E as txBz E12. m_bind E as u5 E13. m_bind E as u6 E14.
  injection E as <- _. apply must_ok in E8 as [E8 ->], E9 as [E9 ->], E10 as [E10 ->]. apply lift_ok in E11 as [E11 ->].
  apply NewCoin_inv in E8 as (-> & _ & V8), E9 as (-> & _ & V9), E10 as (-> & _ & _).
  apply create_value in E11. unfold TokensFromConsensusPower in *.
  pose proof (token_not_bond name) as Hne. split_and!; cbn; [|
    |exact E11|done|by eexists].
  - apply CoinsSort_valid.
    + cbn. apply NoDup_cons. split; [|apply NoDup_singleton]. by intros ?%list_elem_of_singleton.
    + intros c [->|[->|?%elem_of_nil]%elem_of_cons]%elem_of_cons; [split; [done|simpl; lia]..|done].
  - change BondDenom with (Denom (mkCoin BondDenom (50000 * 1000000))) at 2.
    rewrite AmountOf_sort; [done|right; left|].
    intros c [->|[->|?%elem_of_nil]%elem_of_cons]%elem_of_cons; cbn; intros Hd; [by destruct Hne|done|done].
Qed.

Lemma init_nodes_all (f : nat -> M S (Node PubKey)) (P : Node PubKey -> Prop) :
  (forall i s n s', f i s = (Ok n, s') -> P n) ->
  forall l s ns s', init_nodes f l s = (Ok ns, s') -> length ns = length l /\ Forall P ns.
Proof.
  intros Hf. induction l as [|i l IH]; intros s ns s' E; cbn [init_nodes] in E; [by injection E as <- _|].
  m_bind E as n En. m_bind E as ns1 Ens. injection E as <- _. apply IH in Ens as [Hl HP]. split; [simpl; by rewrite Hl|].
  constructor; [by eapply Hf|done].
Qed.

(** What all balances hold of a denomination. *)
Definition held (balances : list Balance) (d : string) : Z := foldr (fun b n => AmountOf (b_Coins b) d + n) 0 balances.

Lemma total_supply_held balances cs : Forall (fun b => CoinsIsValid (b_Coins b) = true) balances ->
  total_supply balances = Ok cs -> forall d, AmountOf cs d = held balances d.
Proof.
  intros Hv E. unfold total_supply in E. apply res_bind_ok in E as (zero & Ez & E).
  assert (CoinsIsValid zero = true) as Hz by eauto using NewCoins_valid.
  assert (forall d, AmountOf zero d = 0) as H0z by (intros d; by rewrite (NewCoins_inv _ _ d Ez)).
  intros d. assert (AmountOf cs d = AmountOf zero d + held balances d) as ->; [|by rewrite H0z].
  clear Ez H0z. revert zero Hz E. induction Hv as [|b bs Hb _ IH]; intros zero Hz E; cbn [foldRes] in E.
  - injection E as <-. simpl. lia.
  - apply res_bind_ok in E as (z & Ea & E). rewrite (IH z); [|by eauto using CoinsAdd_valid|done].
    rewrite (CoinsAdd_inv _ _ _ d Hz Hb Ea). simpl. lia.
Qed.

Definition genesis_file (n : Node PubKey) : Prop := exists dir, n_genesis n = Join [dir; "config/genesis.json"].

Lemma collect_same chainID a nodes : Forall genesis_file nodes -> forall s u s',
  collectGenFiles GenAppStateFromConfig export_text chainID (Some a) nodes s = (Ok u, s') ->
  (forall n, n ∈ nodes -> ReadFile s' (n_genesis n) = Some (export_text chainID a)) /\
  (forall dir, ReadFile s (Join [dir; "config/genesis.json"]) = Some (export_text chainID a) ->
     ReadFile s' (Join [dir; "config/genesis.json"]) = Some (export_text chainID a)).
Proof.
  induction 1 as [|n nodes [dir Hn] _ IH]; intros s u s' E; cbn [collectGenFiles] in E.
  { injection E as _ <-. split; [by intros ? ?%elem_of_nil|done]. }
  apply M_bind_ok in E as (doc & s1 & E1 & E). apply M_bind_ok in E as (st & s2 & E2 & E).
  apply M_bind_ok in E as (u2 & s3 & E3 & E). apply IH in E as [IH1 IH2]. cbn [default] in *.
  pose proof (fun q => WriteFile_read _ _ _ _ _ q E3) as R3.
  assert (s1 = s) as ->.
  { unfold read_file in E1. apply M_bind_ok in E1 as (x & s5 & Ex & E1). injection Ex as <- <-.
    destruct (ReadFile s _); [|done]. by injection E1 as _ <-. }
  assert (forall dir', ReadFile s (Join [dir'; "config/genesis.json"]) = Some (export_text chainID a) ->
    ReadFile s3 (Join [dir'; "config/genesis.json"]) = Some (export_text chainID a)) as Hkeep.
  { intros dir' Hd. rewrite R3. destruct (String.eqb _ _); [done|]. by rewrite (collect_reads _ _ _ _ _ _ E2). }
  split; [|by intros dir' Hd; apply IH2, Hkeep].
  intros n' [->|Hin]%elem_of_cons; [|by apply IH1].
  rewrite Hn. apply IH2. by rewrite R3, <- Hn, String.eqb_refl.
Qed.

Lemma collect_first chainID nodes : Forall genesis_file nodes -> forall s u s',
  collectGenFiles GenAppStateFromConfig export_text chainID None nodes s = (Ok u, s') ->
  exists text, forall n, n ∈ nodes -> ReadFile s' (n_genesis n) = Some text.
Proof.
  intros Hf s u s' E. destruct nodes as [|n nodes]; [exists ""; by intros ? ?%elem_of_nil|].
  cbn [collectGenFiles] in E. apply M_bind_ok in E as (doc & s1 & E1 & E). apply M_bind_ok in E as (st & s2 & E2 & E).
  apply M_bind_ok in E as (u2 & s3 & E3 & E). cbn [default] in *. apply Forall_cons in Hf as [[dir Hn] Hf].
  destruct (collect_same _ _ _ Hf _ _ _ E) as [IH1 IH2]. exists (export_text chainID st).
  intros n' [->|Hin]%elem_of_cons; [|by apply IH1]. rewrite Hn. apply IH2.
  by rewrite (WriteFile_read _ _ _ _ _ _ E3), <- Hn, String.eqb_refl.
Qed.

(** a testnet starts: when the command succeeds it made as many nodes as
    asked for, all of them have one and the same genesis file, the supply of
    the bank is the sum of the balances in every denomination, and every node
    holds five hundred times the stake its genesis transaction delegates. *)
Theorem testnet_consistent srv wasm rand outputDir chainID prices prefix daemon ip k s nodes s' :
  InitTestnet Join ParseIPv4 ExternalIP InitializeNodeValidatorFiles NewKeyring SigningAlgo GenerateSaveCoinKey
    NewMsgCreateValidator SignedGenTx secret_text app_text DefaultGenesis genesis_text PackAccounts
    GenAppStateFromConfig export_text srv wasm rand outputDir chainID prices prefix daemon ip k s = (Ok nodes, s') ->
  length nodes = k /\
  (exists text, forall n, n ∈ nodes -> ReadFile s' (n_genesis n) = Some text) /\
  (exists supply, total_supply (map n_balance nodes) = Ok supply /\
     forall d, AmountOf supply d = held (map n_balance nodes) d) /\
  (forall n, n ∈ nodes -> AmountOf (b_Coins (n_balance n)) BondDenom = 500 * Amount (cv_Value (n_create n)) /\
     Denom (cv_Value (n_create n)) = BondDenom).
Proof.
  intros E. unfold InitTestnet in E. m_bind E as ns En. m_bind E as u1 Ei. m_bind E as u2 Ec. injection E as <- <-.
  eapply (init_nodes_all _ funded) in En as [Hl Hf]; [|intros; by eapply init_node_funded].
  rewrite length_seq in Hl. split; [done|].
  assert (Forall genesis_file ns) as Hg by (eapply Forall_impl; [exact Hf|]; by intros n (_ & _ & _ & _ & ?)).
  split; [by eapply collect_first|]. rewrite Forall_forall in Hf. split.
  - unfold initGenFiles in Ei. m_bind Ei as gen Eg. unfold genesis_with in Eg. m_bind Eg as accs Ea.
    m_bind Eg as supply Es. apply must_ok in Es as [Es _]. exists supply. split; [done|].
    apply total_supply_held; [|done]. apply Forall_forall. intros b Hb.
    apply list_elem_of_fmap in Hb as (n & -> & Hn). by apply Hf.
  - intros n Hn. destruct (Hf n Hn) as (_ & -> & -> & _). done.
Qed.
End testnet_facts.

(** ** Genesis transactions *)
Section gentx_facts.
Context {S PubKey Key ValCfg Bldr Tx Fac : Type} `{Disk S} `{!DiskLaws S} `{AddrCodec}.
Variable Join : list string -> string.
Variable InitializeNodeValidatorFiles : M S (string * PubKey).
Variable flag : string -> string.
Variable UnmarshalPubKey : string -> res PubKey.
Variable AppGenesisFromFile : S -> res (string * string).
Variable UnmarshalState : string -> res GenesisState.
Variable ValidateGenesis : GenesisState -> res unit.
Variable Keyring_Key : string -> res Key.
Variable key_address : Key -> res AccAddress.
Variable key_type : Key -> KeyType.
Variable PrepareConfig : string -> string -> string -> PubKey -> res ValCfg.
Variable ParseCoinsNormalized : string -> res (list Coin).
Variable ValidateAccountInGenesis : GenesisState -> AccAddress -> list Coin -> res unit.
Variable NewFactory : res Fac.
Variable BuildCreateValidatorMsg : AccAddress -> ValCfg -> string -> Fac -> res (Bldr * MsgCreateValidator).
Variable ValidateBasic : MsgCreateValidator -> res unit.
Variable PrintUnsignedTx : Bldr -> MsgCreateValidator -> res string.
Variable TxJSONDecoder : string -> res Tx.
Variable SignTx : Fac -> string -> Tx -> res Tx.
Variable TxJSONEncoder : Tx -> res string.
(** A text that is a JSON object ends in a brace and white space. *)
Definition closed_object (text : string) : Prop := exists before_ space,
  text = before_ +:+ "}" +:+ space /\
  Forall (fun c => c ∈ String.list_ascii_of_string " " \/ (nat_of_ascii c ∈ [9; 10; 13]%nat))
    (String.list_ascii_of_string space).

Lemma list_ascii_app a b :
  String.list_ascii_of_string (a +:+ b) = String.list_ascii_of_string a ++ String.list_ascii_of_string b.
Proof. induction a as [|c a IH]; [done|]. change (String c a +:+ b) with (String c (a +:+ b)). simpl. by rewrite IH. Qed.

Lemma quoted_not_closed text : ~ closed_object (text +:+ "`n").
Proof.
  intros (b & sp & E & Hs). apply (f_equal String.list_ascii_of_string) in E. rewrite !list_ascii_app in E.
  cbn in E. destruct (String.list_ascii_of_string sp) as [|c l] using rev_ind.
  - change (String.list_ascii_of_string text ++ ["`"%char; "n"%char]) with
      (String.list_ascii_of_string text ++ ["`"%char] ++ ["n"%char]) in E.
    rewrite app_assoc in E. by apply app_inj_tail in E as [_ ?].
  - change (String.list_ascii_of_string text ++ ["`"%char; "n"%char]) with
      (String.list_ascii_of_string text ++ ["`"%char] ++ ["n"%char]) in E.
    rewrite app_assoc in E. change ("}"%char :: l ++ [c]) with (("}"%char :: l) ++ [c]) in E.
    rewrite app_assoc in E. apply app_inj_tail in E as [_ <-].
    apply Forall_app in Hs as [_ Hs]. apply Forall_cons in Hs as [Hs _]. cbn in Hs. set_solver.
Qed.

Lemma errorf_ok {A} text (r : res A) a : wrap text r = Ok a -> r = Ok a.
Proof. by destruct r; intros [= ->]. Qed.

Notation run := (GenTxCmd Join InitializeNodeValidatorFiles flag UnmarshalPubKey AppGenesisFromFile UnmarshalState
  ValidateGenesis Keyring_Key key_address key_type PrepareConfig ParseCoinsNormalized ValidateAccountInGenesis
  NewFactory BuildCreateValidatorMsg ValidateBasic PrintUnsignedTx TxJSONDecoder SignTx TxJSONEncoder).

(** a genesis transaction is written for a funded account only: the
    genesis is valid, the key is in the ring and signs, its account holds the
    amount in the genesis, and the file did not exist, so that no transaction
    is overwritten.  But what is written is the text of the transaction
    followed by a back quote and an n, which is the text of no JSON object. *)
Theorem gentx_written rootDir moniker name amount s path s' :
  run rootDir moniker name amount s = (Ok (Written path), s') ->
  exists gen key addr coins tx text,
    ValidateGenesis gen = Ok tt /\ Keyring_Key name = Ok key /\ key_address key = Ok addr /\
    ParseCoinsNormalized amount = Ok coins /\ ValidateAccountInGenesis gen addr coins = Ok tt /\
    TxJSONEncoder tx = Ok text /\ ReadFile s' path = Some (text +:+ "`n") /\ ~ closed_object (text +:+ "`n").
Proof.
  intros E. unfold GenTxCmd in E. m_bind E as [id pk] E1. m_bind E as pk' E2. m_bind E as st E3.
  m_bind E as [chain state] E4. m_bind E as gen E5. m_bind E as u1 E6. m_bind E as key E7. m_bind E as cfg E8.
  m_bind E as coins E9. m_bind E as addr E10. m_bind E as u2 E11. m_bind E as fac E12. m_bind E as from E13.
  m_bind E as [bldr msg] E14. apply lift_ok in E6 as [E6 _], E7 as [E7 _], E9 as [E9 _], E10 as [E10 _], E11 as [E11 _].
  apply errorf_ok in E6, E7, E9, E11. destruct u1, u2.
  destruct (match key_type key with TypeOffline | TypeMulti => true | _ => false end); [by m_bind E as t Et|].
  m_bind E as u3 E15. m_bind E as w E16. m_bind E as tx1 E17. m_bind E as tx2 E18. m_bind E as out E19.
  m_bind E as u4 E20. injection E as <- <-. unfold writeSignedGenTx in E20. m_bind E20 as s1 E21.
  destruct (ReadFile s1 out); [done|]. m_bind E20 as text E22. apply lift_ok in E22 as [E22 _].
  exists gen, key, addr, coins, tx2, text. split_and!; try done.
  - by rewrite (WriteFile_read _ _ _ _ _ _ E20), String.eqb_refl.
  - apply quoted_not_closed.
Qed.
End gentx_facts.

(** ** A disk in memory, and small runs *)
Module Example.
Definition disk : Type := gmap string string.
#[export] Instance disk_ops : Disk disk := {|
  ReadFile s p := s !! p;
  WriteFile p text s := (Ok tt, <[p := text]> s);
  MkdirAll _ s := (Ok tt, s);
  RemoveAll _ s := (Ok tt, ∅);
|}.
#[export] Instance disk_laws : DiskLaws disk.
Proof.
  split; cbn.
  - intros p text s u s' q [= _ <-]. destruct (String.eqb_spec p q) as [->|Hne].
    + apply lookup_insert_eq.
    + by apply lookup_insert_ne.
  - by intros p s u s' q [= _ <-].
Qed.

Definition Join (l : list string) : string := String.concat "/" l.
Lemma Join_inj dir a b : Join [dir; a] = Join [dir; b] -> a = b.
Proof. unfold Join. simpl. intros E. by repeat apply (inj (String.append _)) in E. Qed.

Definition parse (text : string) : option json :=
  if String.eqb text "made" then Some (JObject [("chain_id", JString "do-1")]) else None.
Definition print (_ : json) : string := "rewritten".
Definition tm : ConsensusConfig unit := mkConsensusConfig 1 2 3 4 5 6 7 8 9 tt.
Definition wasm : NodeConfig := mkNodeConfig None 3000000 100.
Definition srv : DoAppConfig unit :=
  mkDoAppConfig 0 true "" "default" "0" "0" false true "" false "" false 0 false 0 true [] wasm tt.
Definition sdk_init : M disk unit := WriteFile "home/config/genesis.json" "made".

Definition init : M disk unit :=
  InitCmd Join parse print Some (fun _ _ => "tm") (fun _ => "app") tm srv wasm sdk_init "" "home".

Definition ip (text : string) : option IPv4 :=
  if String.eqb text "192.168.0.1" then Some (mkIPv4 192 168 0 1) else None.
Definition create (val : string) (_ : unit) (coin : Coin) (name : string) : res MsgCreateValidator :=
  Ok (mkMsgCreateValidator "" val coin name).
Lemma create_value val key coin name m : create val key coin name = Ok m -> cv_Value m = coin.
Proof. by intros [= <-]. Qed.

Definition collect (_ doc : string) : M disk string := mret doc.
Lemma collect_reads id doc s a s' dir : collect id doc s = (Ok a, s') ->
  ReadFile s' (Join [dir; "config/genesis.json"]) = ReadFile s (Join [dir; "config/genesis.json"]).
Proof. by intros [= _ <-]. Qed.

Definition testnet (n : nat) : M disk (list (Node unit)) :=
  InitTestnet Join ip (Ok "10.0.0.1") (fun dir => mret (dir, tt)) (fun _ => mret tt) (Ok tt)
    (fun name => mret (name, "seed")) create (fun name memo _ => Ok memo) (fun s => s) (fun _ => "app")
    (mkAppGen [] [] [] 0 tt) (fun chain _ => chain) Ok collect (fun chain st => chain +:+ st) srv wasm "abcdef"
    "out" "" "0.1udo" "node" "dochaind" "192.168.0.1" n.

Definition gentx : M disk GenTxResult :=
  GenTxCmd Join (mret ("node", tt)) (fun _ => "") (fun _ => Ok tt) (fun _ => Ok ("do-1", "")) (fun _ => Ok ∅)
    (fun _ => Ok tt) (fun name => Ok name) Ok (fun _ => TypeLocal) (fun _ _ _ _ => Ok tt) (fun _ => Ok [])
    (fun _ _ _ => Ok tt) (Ok tt) (fun a _ amount _ => Ok (tt, mkMsgCreateValidator "" a (mkCoin "udo" 5) ""))
    (fun _ => Ok tt) (fun _ _ => Ok "{}") Ok (fun _ _ tx => Ok tx) Ok "home" "moniker" "key" "5udo".
End Example.

#[local] Existing Instances Example.disk_ops Example.disk_laws.

Lemma init_sets_defaults_witness :
  exists s', Example.init ∅ = (Ok tt, s') /\ ReadFile s' "home/config/genesis.json" = Some "rewritten".
Proof.
  destruct (Example.init ∅) as [[[]| |] s'] eqn:E; [|apply (f_equal (fun r => is_ok (fst r))) in E; vm_compute in E; discriminate E..].
  exists s'. split; [reflexivity|].
  destruct (init_sets_defaults Example.Join Example.parse Example.print Some (fun _ _ => "tm") (fun _ => "app")
    Example.tm Example.srv Example.wasm Example.sdk_init Example.Join_inj "" "home" ∅ tt s' E)
    as (s0 & text & gen & _ & _ & _ & Hg & _).
  exact Hg.
Defined.

Lemma testnet_addresses_wrap_witness :
  calculateIP Example.ip "192.168.0.1" 3 = calculateIP Example.ip "192.168.0.1" 259.
Proof.
  apply (testnet_addresses_wrap Example.ip "192.168.0.1" (mkIPv4 192 168 0 1) 3 259);
    [reflexivity|cbn; lia|reflexivity].
Defined.

Lemma testnet_consistent_witness :
  exists nodes s', Example.testnet 2 ∅ = (Ok nodes, s') /\ length nodes = 2%nat /\
    exists text, forall n, n ∈ nodes -> ReadFile s' (n_genesis n) = Some text.
Proof.
  destruct (Example.testnet 2 ∅) as [[nodes| |] s'] eqn:E; [|apply (f_equal (fun r => is_ok (fst r))) in E; vm_compute in E; discriminate E..].
  exists nodes, s'. split; [reflexivity|].
  destruct (testnet_consistent (R := unit) Example.Join Example.ip (Ok "10.0.0.1") (fun dir => mret (dir, tt)) (fun _ => mret tt)
    (Ok tt) (fun name => mret (name, "seed")) Example.create (fun name memo _ => Ok memo) (fun s => s)
    (fun _ => "app") (mkAppGen [] [] [] 0 tt) (fun chain _ => chain) Ok Example.collect (fun chain st => chain +:+ st)
    Example.create_value Example.collect_reads Example.srv Example.wasm "abcdef" "out" "" "0.1udo" "node" "dochaind"
    "192.168.0.1" 2 ∅ nodes s' E) as (Hl & Ht & _).
  split; [exact Hl|exact Ht].
Defined.

Lemma gentx_written_witness :
  exists text s', Example.gentx ∅ = (Ok (Written "home/config/gentx/gentx-node.json"), s') /\
    ReadFile s' "home/config/gentx/gentx-node.json" = Some (text +:+ "`n") /\
    ~ closed_object (text +:+ "`n").
Proof.
  destruct (Example.gentx ∅) as [r s'] eqn:E.
  assert (r = Ok (Written "home/config/gentx/gentx-node.json")) as ->
    by (apply (f_equal fst) in E; vm_compute in E; symmetry; exact E).
  unfold Example.gentx in E.
  eapply gentx_written in E
    as (gen & key & addr & coins & tx & text & _ & _ & _ & _ & _ & _ & Hr & Hd).
  exists text, s'. split; [reflexivity|]. split; [exact Hr|exact Hd].
Defined.
