(* ===== verification/CliQuery.v ===== *)
(** * Queries of the command line

    The query commands under [src/x/*/client/cli/query.go], the handlers of
    [keeper/querier.go] they reach, and the list of exempt addresses that
    [src/x/treasury/keeper/querier.go] returns in pages.  A command checks its
    arguments, builds a request and sends it to a node; the node answers with
    the handler of its state when the service of the request is routed
    ([call]).  Connections and flags are the interface [QueryClient], the
    pages of the SDK are [Paginator].

    The theorems: that a command shows what a transaction stored before it;
    that the swap command quotes what a swap pays; which commands the
    application's node can answer at all; which pages of exempt addresses are
    right and which repeat addresses. *)
From stdpp Require Import base gmap sets list strings fin_maps sorting.
From Stdlib Require Import ZArith Lia.
From S2P Require Import Prelude Sdk SdkRef Core.
From S2P Require DodxStaking Market OracleBallot OracleState Treasury Dyncomm Wiring Cli.
From S2P Require Import Cli.
#[local] Open Scope Z_scope.
Create HintDb commands.

(** ** Pages, from the SDK's [types/query] *)
Record PageRequest : Type := mkPageRequest {
  pr_Key : string; pr_Offset : Z; pr_Limit : Z; pr_CountTotal : bool; pr_Reverse : bool;
}.
Record PageResponse : Type := mkPageResponse { pg_NextKey : string; pg_Total : Z }.

(** [FilteredPaginate keys req onResult acc]: the keys of the store are in
    order, and [onResult key accumulate] answers whether the entry is a hit. *)
Class Paginator : Type :=
  FilteredPaginate : forall A : Type, list string -> PageRequest -> (string -> bool -> A -> res (A * bool)) ->
    A -> res (A * PageResponse).
Arguments FilteredPaginate {_ A}.

Definition in_direction (req : PageRequest) (keys : list string) : list string :=
  if pr_Reverse req then rev keys else keys.

(** The entries number [i] and on, each shown with the flag that tells whether
    it belongs to the page. *)
Fixpoint visits {A} (f : string -> bool -> A -> res (A * bool)) (first limit i : Z) (keys : list string)
    (a : A) : res A :=
  match keys with
  | [] => Ok a
  | k :: keys =>
      '(a, _) ← f k ((first <=? i) && (i <? first + limit)) a;
      visits f first limit (i + 1) keys a
  end.

(** The flag is true from the offset on for as many hits as the limit says,
    and no hit of the page is missed; a page that starts at a key shows the
    entries from there on, up to the limit. *)
Class PaginatorLaws `{Paginator} : Prop := {
  paginate_offset {A} keys req (f : string -> bool -> A -> res (A * bool)) a a' page :
    pr_Key req = "" -> 0 <= pr_Offset req -> 0 < pr_Limit req ->
    (forall k b x x' hit, f k b x = Ok (x', hit) -> hit = true) ->
    FilteredPaginate keys req f a = Ok (a', page) ->
    exists n, (length keys `min` Z.to_nat (pr_Offset req + pr_Limit req) <= n)%nat /\
      visits f (pr_Offset req) (pr_Limit req) 0 (take n (in_direction req keys)) a = Ok a';
  paginate_key {A} keys req (f : string -> bool -> A -> res (A * bool)) a a' page :
    pr_Key req <> "" -> pr_Offset req = 0 -> 0 < pr_Limit req -> pr_Reverse req = false ->
    (forall k b x x' hit, f k b x = Ok (x', hit) -> hit = true) ->
    FilteredPaginate keys req f a = Ok (a', page) ->
    visits f 0 (pr_Limit req) 0
      (take (Z.to_nat (pr_Limit req)) (filter (fun k => String.leb (pr_Key req) k = true) keys)) a = Ok a';
}.

(** ** The node and the client *)
Record Node (S : Type) : Type := mkNode { node_routes : list string; node_ctx : Ctx; node_state : S }.
Arguments mkNode {S}.
Arguments node_routes {S}.
Arguments node_ctx {S}.
Arguments node_state {S}.

Class QueryClient (C S : Type) : Type := {
  GetClientQueryContext : C -> res (Node S);
  ReadPageRequest : C -> res PageRequest;
}.

(** A request to a service: the node recovers a handler that panics. *)
Definition call {S A} (service : string) (node : Node S) (handler : Ctx -> S -> res A) : res A :=
  if bool_decide (service ∈ node_routes node) then
    match handler (node_ctx node) (node_state node) with
    | Panic => Err (Plain "panic")
    | r => r
    end
  else Err (Plain "unknown query path").

Definition ask {C S A} `{QueryClient C S} (service : string) (cmd : C) (handler : Ctx -> S -> res A) : res A :=
  node ← GetClientQueryContext cmd;
  call service node handler.

Definition oracle_Query : string := "do.oracle.v1beta1.Query".
Definition treasury_Query : string := "do.treasury.v1beta1.Query".
Definition market_Query : string := "do.market.v1beta1.Query".
Definition dyncomm_Query : string := "do.dyncomm.v1beta1.Query".
Definition dodxstaking_Query : string := "do.dodxstaking.v1beta1.Query".

(** ** x/oracle/client/cli/query.go *)
Section oracle.
Context {C B K D : Type} `{QueryClient C (OracleState.State B K D)} `{AddrCodec} `{CoinOps}.

Definition oracle_ask {A} : C -> (OracleState.State B K D -> res A) -> res A :=
  fun cmd handler => ask oracle_Query cmd (fun _ => handler).

(** [cobra.RangeArgs(0, 1)]: all entries, or the one that is named. *)
Definition GetCmdQueryExchangeRates (cmd : C) (args : list string) : res (list DecCoin + Z) :=
  match args with
  | [] => rates ← oracle_ask cmd OracleState.Query_ExchangeRates; Ok (inl rates)
  | [denom] => rate ← oracle_ask cmd (OracleState.Query_ExchangeRate denom); Ok (inr rate)
  | _ => wrong_args
  end.

Definition GetCmdQueryActives (cmd : C) (args : list string) : res (list string) :=
  match args with
  | [] => oracle_ask cmd (fun s => Ok (OracleState.Query_Actives s))
  | _ => wrong_args
  end.

Definition GetCmdQueryParams (cmd : C) (args : list string) : res OracleState.Params :=
  match args with
  | [] => oracle_ask cmd (fun s => Ok (OracleState.GetParams s))
  | _ => wrong_args
  end.

Definition GetCmdQueryFeederDelegation (cmd : C) (args : list string) : res string :=
  match args with
  | [valString] =>
      node ← GetClientQueryContext cmd;
      validator ← ValAddressFromBech32 valString;
      call oracle_Query node (fun _ => OracleState.Query_FeederDelegation (ValAddressString validator))
  | _ => wrong_args
  end.

Definition GetCmdQueryMissCounter (cmd : C) (args : list string) : res Z :=
  match args with
  | [valString] =>
      node ← GetClientQueryContext cmd;
      validator ← ValAddressFromBech32 valString;
      call oracle_Query node (fun _ => OracleState.Query_MissCounter (ValAddressString validator))
  | _ => wrong_args
  end.

Definition GetCmdQueryAggregatePrevote (cmd : C) (args : list string) :
    res (list OracleState.AggregateDoRatePrevote + OracleState.AggregateDoRatePrevote) :=
  match args with
  | [] => all ← oracle_ask cmd (fun s => Ok (OracleState.Query_AggregatePrevotes s)); Ok (inl all)
  | [valString] =>
      node ← GetClientQueryContext cmd;
      validator ← ValAddressFromBech32 valString;
      one ← call oracle_Query node (fun _ => OracleState.Query_AggregatePrevote (ValAddressString validator));
      Ok (inr one)
  | _ => wrong_args
  end.

Definition GetCmdQueryAggregateVote (cmd : C) (args : list string) :
    res (list OracleState.AggregateDoRateVote + OracleState.AggregateDoRateVote) :=
  match args with
  | [] => all ← oracle_ask cmd (fun s => Ok (OracleState.Query_AggregateVotes s)); Ok (inl all)
  | [valString] =>
      node ← GetClientQueryContext cmd;
      validator ← ValAddressFromBech32 valString;
      one ← call oracle_Query node (fun _ => OracleState.Query_AggregateVote (ValAddressString validator));
      Ok (inr one)
  | _ => wrong_args
  end.

Definition GetCmdQueryVoteTargets (cmd : C) (args : list string) : res (list string) :=
  match args with
  | [] => oracle_ask cmd (fun s => Ok (OracleState.Query_VoteTargets s))
  | _ => wrong_args
  end.

Definition GetCmdQueryTobinTaxes (cmd : C) (args : list string) :
    res (list OracleState.WhitelistDenom + Z) :=
  match args with
  | [] => taxes ← oracle_ask cmd (fun s => Ok (OracleState.Query_TobinTaxes s)); Ok (inl taxes)
  | [denom] => tax ← oracle_ask cmd (OracleState.Query_TobinTax denom); Ok (inr tax)
  | _ => wrong_args
  end.
End oracle.

(** ** x/dodxstaking/client/cli/query.go *)
Section dodxstaking.
Context {C B : Type} `{QueryClient C (DodxStaking.State B)} `{AddrCodec} `{CoinOps}.

Definition GetStakeQueryCmd (cmd : C) (args : list string) : res Coin :=
  match args with
  | [address] => ask dodxstaking_Query cmd (fun _ => DodxStaking.QueryStake address)
  | _ => wrong_args
  end.

Definition GetTotalStakedQueryCmd (cmd : C) (args : list string) : res Coin :=
  match args with
  | [] => ask dodxstaking_Query cmd (fun _ => DodxStaking.GetTotalStaked)
  | _ => wrong_args
  end.
End dodxstaking.

(** ** x/dyncomm/client/cli/query.go *)
Section dyncomm.
Context {C K : Type} `{QueryClient C (Dyncomm.State K)} `{AddrCodec} `{Dyncomm.CommissionKeeper K} `{MathOps}.

Definition dyncomm_GetCmdQueryRate (cmd : C) (args : list string) : res (Z * Z) :=
  match args with
  | [arg] =>
      node ← GetClientQueryContext cmd;
      addr ← ValAddressFromBech32 arg;
      call dyncomm_Query node (fun _ s => Ok (Dyncomm.QueryRate s (ValAddressString addr)))
  | _ => wrong_args
  end.

Definition dyncomm_GetCmdQueryParams (cmd : C) (args : list string) : res Dyncomm.Params :=
  match args with
  | [] => ask dyncomm_Query cmd (fun _ => Dyncomm.QueryParams)
  | _ => wrong_args
  end.
End dyncomm.

(** ** x/market/client/cli/query.go *)
Section market.
Context {C B O : Type} `{QueryClient C (Market.State B O)} `{CoinText}.
Context `{BankOps B} `{Market.OracleKeeper O} `{MathOps} `{CoinOps} `{AddrCodec}.

Definition market_GetCmdQuerySwap (cmd : C) (args : list string) : res Coin :=
  match args with
  | [offerCoinStr; askDenom] =>
      node ← GetClientQueryContext cmd;
      _ ← ParseCoinNormalized offerCoinStr;
      call market_Query node (fun _ s => Market.QuerySwap ParseCoinNormalized s offerCoinStr askDenom)
  | _ => wrong_args
  end.

Definition market_GetCmdQueryDoPoolDelta (cmd : C) (args : list string) : res Z :=
  match args with
  | [] => ask market_Query cmd (fun _ s => Ok (Market.GetDoPoolDelta s))
  | _ => wrong_args
  end.

(** [None] are the parameters that were never set. *)
Definition market_GetCmdQueryParams (cmd : C) (args : list string) : res (option Market.Params) :=
  match args with
  | [] => ask market_Query cmd (fun _ s => Ok (Market.GetParams s))
  | _ => wrong_args
  end.
End market.

(** ** x/treasury/client/cli/query.go, x/treasury/keeper/querier.go *)
Section treasury.
Context {C B K D O : Type} `{QueryClient C (Treasury.State B K D O)} `{Paginator}.
Context `{BankOps B} `{StakingOps K} `{FeePoolOps D} `{Treasury.TreasuryKeepers O}.
Context `{MathOps} `{CoinOps} `{DecCoinsOps} `{CoinSortOps} `{AddrCodec}.

(** The keys of the store under the prefix of the list are the addresses. *)
Definition exempt_keys (s : Treasury.State B K D O) : list string :=
  (kv_iter (gset_to_gmap tt (Treasury.st_exempt s))).*1.

(** The callback looks at the key only, not at the flag [accumulate]. *)
Definition collect (key : string) (accumulate : bool) (addresses : list string) : res (list string * bool) :=
  Ok (addresses ++ [key], true).

Definition Query_BurnTaxExemptionList (req : PageRequest) (s : Treasury.State B K D O) :
    res (list string * PageResponse) :=
  FilteredPaginate (exempt_keys s) req collect [].

Definition treasury_ask {A} (cmd : C) (args : list string)
    (handler : Ctx -> Treasury.State B K D O -> res A) : res A :=
  match args with [] => ask treasury_Query cmd handler | _ => wrong_args end.

Definition GetCmdQueryTaxRate (cmd : C) (args : list string) : res Z :=
  treasury_ask cmd args (fun _ s => Ok (Treasury.GetTaxRate s)).
Definition GetCmdQueryTaxCap (cmd : C) (args : list string) : res Z :=
  match args with
  | [denom] => ask treasury_Query cmd (fun _ s => Treasury.Query_TaxCap s denom)
  | _ => wrong_args
  end.
Definition GetCmdQueryTaxCaps (cmd : C) (args : list string) : res (list (string * Z)) :=
  treasury_ask cmd args (fun _ s => Ok (Treasury.Query_TaxCaps s)).
Definition GetCmdQueryRewardWeight (cmd : C) (args : list string) : res Z :=
  treasury_ask cmd args (fun _ s => Ok (Treasury.GetRewardWeight s)).
Definition GetCmdQueryTaxProceeds (cmd : C) (args : list string) : res (list Coin) :=
  treasury_ask cmd args (fun _ s => Ok (Treasury.PeekEpochTaxProceeds s)).
Definition GetCmdQuerySeigniorageProceeds (cmd : C) (args : list string) : res Z :=
  treasury_ask cmd args (fun _ => Treasury.PeekEpochSeigniorage).
Definition GetCmdQueryIndicators (cmd : C) (args : list string) : res (Z * Z) :=
  treasury_ask cmd args Treasury.Query_Indicators.
Definition treasury_GetCmdQueryParams (cmd : C) (args : list string) : res Treasury.Params :=
  treasury_ask cmd args (fun _ s => Ok (Treasury.GetParams s)).
Definition GetCmdQueryExemptlist (cmd : C) (args : list string) : res (list string * PageResponse) :=
  match args with
  | [] =>
      node ← GetClientQueryContext cmd;
      pageReq ← ReadPageRequest cmd;
      call treasury_Query node (fun _ => Query_BurnTaxExemptionList pageReq)
  | _ => wrong_args
  end.
End treasury.

(** ** Routed requests *)
Lemma call_routed {S A} service (node : Node S) (handler : Ctx -> S -> res A) :
  service ∈ node_routes node -> handler (node_ctx node) (node_state node) <> Panic ->
  call service node handler = handler (node_ctx node) (node_state node).
Proof. intros Hr Hp. unfold call. rewrite bool_decide_true by done. by destruct handler. Qed.

Lemma call_answer {S A} service (node : Node S) (handler : Ctx -> S -> res A) x :
  service ∈ node_routes node -> handler (node_ctx node) (node_state node) = Ok x ->
  call service node handler = Ok x.
Proof. intros Hr E. by rewrite call_routed; [|done|rewrite E]. Qed.

Lemma call_inv {S A} service (node : Node S) (handler : Ctx -> S -> res A) x :
  call service node handler = Ok x ->
  service ∈ node_routes node /\ handler (node_ctx node) (node_state node) = Ok x.
Proof. unfold call. case_bool_decide; [|done]. by destruct handler. Qed.

(** ** Pages of exempt addresses *)
Lemma collect_visits first limit keys : forall i a,
  visits collect first limit i keys a = Ok (a ++ keys).
Proof.
  induction keys as [|k keys IH]; intros i a; simpl; [by rewrite app_nil_r|].
  by rewrite IH, <- app_assoc.
Qed.

Lemma collect_hits k b x x' hit : collect k b x = Ok (x', hit) -> hit = true.
Proof. unfold collect. congruence. Qed.

Section pages.
Context {C B K D O : Type} `{QueryClient C (Treasury.State B K D O)} `{PaginatorLaws}.
Implicit Types s : Treasury.State B K D O.

Lemma exempt_keys_nodup s : NoDup (exempt_keys s).
Proof. apply kv_iter_nodup. Qed.

Lemma elem_of_exempt_keys s a : a ∈ exempt_keys s <-> a ∈ Treasury.st_exempt s.
Proof.
  unfold exempt_keys. rewrite list_elem_of_fmap. split.
  - intros ([k []] & -> & E%elem_of_kv_iter). by apply lookup_gset_to_gmap_Some in E as [??].
  - intros Ha. exists (a, tt). by rewrite elem_of_kv_iter, lookup_gset_to_gmap_Some.
Qed.

Lemma exempt_page_inv cmd node req addresses page :
  GetClientQueryContext cmd = Ok node -> ReadPageRequest cmd = Ok req ->
  GetCmdQueryExemptlist cmd [] = Ok (addresses, page) ->
  FilteredPaginate (exempt_keys (node_state node)) req collect [] = Ok (addresses, page).
Proof.
  intros En Er E. unfold GetCmdQueryExemptlist in E. rewrite En in E. simpl in E.
  rewrite Er in E. simpl in E. by apply call_inv in E as [_ E].
Qed.

Lemma exempt_page_offset s req addresses page :
  FilteredPaginate (exempt_keys s) req collect [] = Ok (addresses, page) ->
  pr_Key req = "" -> pr_Reverse req = false -> 0 <= pr_Offset req -> 0 < pr_Limit req ->
  exists n, (length (exempt_keys s) `min` Z.to_nat (pr_Offset req + pr_Limit req) <= n)%nat /\
    addresses = take n (exempt_keys s).
Proof.
  intros E Hk Hr Ho Hl. apply paginate_offset in E as (n & Hn & E); try done; [|exact collect_hits].
  exists n. split; [done|]. unfold in_direction in E. rewrite Hr, collect_visits in E. by injection E as <-.
Qed.

(** the list of exempt addresses is complete when it fits one page: a
    request for the first page whose limit is not below their number answers
    every exempt address once and nothing else; and a page that starts at a
    key answers the addresses from that key on, up to the limit. *)
Theorem exemption_pages_sound cmd node req addresses page :
  GetClientQueryContext cmd = Ok node -> ReadPageRequest cmd = Ok req ->
  GetCmdQueryExemptlist cmd [] = Ok (addresses, page) ->
  pr_Offset req = 0 -> 0 < pr_Limit req -> pr_Reverse req = false ->
  (pr_Key req = "" -> Z.of_nat (size (Treasury.st_exempt (node_state node))) <= pr_Limit req ->
     NoDup addresses /\ list_to_set addresses = Treasury.st_exempt (node_state node)) /\
  (pr_Key req <> "" -> (length addresses <= Z.to_nat (pr_Limit req))%nat /\ NoDup addresses /\
     forall a, a ∈ addresses -> a ∈ Treasury.st_exempt (node_state node) /\ String.leb (pr_Key req) a = true).
Proof.
  intros En Er E%(exempt_page_inv _ node req) Ho Hl Hr; try done. split.
  - intros Hk Hsize. apply exempt_page_offset in E as (n & Hn & ->); try lia; try done.
    assert (length (exempt_keys (node_state node)) = size (Treasury.st_exempt (node_state node))) as Hlen.
    { change (size ?X) with (length (elements X)).
      apply Permutation_length, NoDup_Permutation; [apply exempt_keys_nodup|apply NoDup_elements|].
      intros a. by rewrite elem_of_exempt_keys, elem_of_elements. }
    rewrite take_ge by lia. split; [apply exempt_keys_nodup|].
    apply set_eq. intros a. by rewrite elem_of_list_to_set, elem_of_exempt_keys.
  - intros Hk. apply paginate_key in E; try done; [|exact collect_hits].
    rewrite collect_visits in E. injection E as <-. simpl.
    split_and!; [rewrite length_take; lia|eapply sublist_NoDup, sublist_take; apply NoDup_filter, exempt_keys_nodup|].
    intros a Ha. apply elem_of_take in Ha as (i & Hi%list_elem_of_lookup_2 & _).
    apply list_elem_of_filter in Hi as [? ?%elem_of_exempt_keys]. done.
Qed.

(** the offset of a page is ignored: the handler appends every entry it is
    shown, also those the pagination marks as outside of the page.  A page
    that should start behind the first address starts with it all the same,
    and repeats every address of the pages before. *)
Theorem exemption_offset_ignored cmd node req addresses page :
  GetClientQueryContext cmd = Ok node -> ReadPageRequest cmd = Ok req ->
  GetCmdQueryExemptlist cmd [] = Ok (addresses, page) ->
  pr_Key req = "" -> pr_Reverse req = false -> 0 < pr_Limit req ->
  0 < pr_Offset req < Z.of_nat (length (exempt_keys (node_state node))) ->
  take (Z.to_nat (pr_Offset req)) (exempt_keys (node_state node)) `prefix_of` addresses /\
  addresses <> take (Z.to_nat (pr_Limit req)) (drop (Z.to_nat (pr_Offset req)) (exempt_keys (node_state node))).
Proof.
  intros En Er E%(exempt_page_inv _ node req) Hk Hr Hl Ho; try done.
  apply exempt_page_offset in E as (n & Hn & ->); try lia; try done.
  pose proof (exempt_keys_nodup (node_state node)) as Hnd.
  set (keys := exempt_keys (node_state node)) in *. split.
  - exists (drop (Z.to_nat (pr_Offset req)) (take n keys)).
    rewrite <- (take_drop (Z.to_nat (pr_Offset req)) (take n keys)) at 1.
    by rewrite take_take, Nat.min_l by lia.
  - intros E. apply (f_equal (fun l => l !! 0%nat)) in E.
    rewrite !lookup_take_lt, lookup_drop, Nat.add_0_r in E by lia.
    destruct (lookup_lt_is_Some_2 keys 0) as [a Ha]; [lia|]. rewrite Ha in E. symmetry in E.
    pose proof (NoDup_lookup _ _ _ _ Hnd Ha E). lia.
Qed.
End pages.

(** ** Commands after transactions *)
Section shown.
Context {C B K D : Type} `{QueryClient C (OracleState.State B K D)} `{StakingOps K}.
Context `{AddrCodec} `{!AddrLaws} `{CoinOps} `{OracleState.DecCoinParser} `{OracleState.TmHash}.

Lemma parse_printed v a : ValAddressFromBech32 v = Ok a ->
  OracleState.parse_arg (ValAddressString a) = Ok a.
Proof. intros E%val_roundtrip. unfold OracleState.parse_arg. by rewrite E. Qed.

(** A command for one validator is the keeper's answer for its address. *)
Lemma prevote_command cmd (node : Node (OracleState.State B K D)) v a :
  GetClientQueryContext cmd = Ok node -> oracle_Query ∈ node_routes node -> ValAddressFromBech32 v = Ok a ->
  GetCmdQueryAggregatePrevote cmd [v] =
    (p ← OracleState.GetAggregateDoRatePrevote (node_state node) a; Ok (inr p)).
Proof.
  intros En Hr Ev. unfold GetCmdQueryAggregatePrevote, OracleState.Query_AggregatePrevote.
  rewrite En. simpl. rewrite Ev. simpl. rewrite call_routed; [|done|]; rewrite (parse_printed _ _ Ev); [done|].
  simpl. unfold OracleState.GetAggregateDoRatePrevote. by case_match.
Qed.

Lemma vote_command cmd (node : Node (OracleState.State B K D)) v a :
  GetClientQueryContext cmd = Ok node -> oracle_Query ∈ node_routes node -> ValAddressFromBech32 v = Ok a ->
  GetCmdQueryAggregateVote cmd [v] =
    (p ← OracleState.GetAggregateDoRateVote (node_state node) a; Ok (inr p)).
Proof.
  intros En Hr Ev. unfold GetCmdQueryAggregateVote, OracleState.Query_AggregateVote.
  rewrite En. simpl. rewrite Ev. simpl. rewrite call_routed; [|done|]; rewrite (parse_printed _ _ Ev); [done|].
  simpl. unfold OracleState.GetAggregateDoRateVote. by case_match.
Qed.

(** the command line shows a validator's ballot: after an accepted prevote
    the command for the validator answers its hash and height; after an
    accepted vote it answers the parsed rates, and the prevote is reported as
    missing.  The validator may be written in any form that parses. *)
Theorem ballots_shown cmd node ctx s u v :
  GetClientQueryContext cmd = Ok node -> oracle_Query ∈ node_routes node ->
  (forall msg, ValAddressFromBech32 (OracleState.mp_Validator msg) = ValAddressFromBech32 v ->
     OracleState.AggregateDoRatePrevote_handler ctx msg s = (Ok u, node_state node) ->
     exists p, GetCmdQueryAggregatePrevote cmd [v] = Ok (inr p) /\
       OracleState.DecodeString (OracleState.pv_Hash p) = OracleState.DecodeString (OracleState.mp_Hash msg) /\
       OracleState.pv_SubmitBlock p = u64 (BlockHeight ctx)) /\
  (forall msg, ValAddressFromBech32 (OracleState.mv_Validator msg) = ValAddressFromBech32 v ->
     OracleState.AggregateDoRateVote_handler ctx msg s = (Ok u, node_state node) ->
     exists p, GetCmdQueryAggregateVote cmd [v] = Ok (inr p) /\
       OracleState.ParseDoRateTuples (OracleState.mv_ExchangeRates msg) = Ok (OracleState.av_Tuples p) /\
       GetCmdQueryAggregatePrevote cmd [v] = Err OracleState.ErrNoAggregatePrevote).
Proof.
  intros En Hr. split; intros msg Hv E.
  - apply OracleState.prevote_ok in E as (a & f & h & Ha & _ & _ & Hh & Es). rewrite Ha in Hv. symmetry in Hv.
    eexists. rewrite (prevote_command _ _ _ _ En Hr Hv), Es. unfold OracleState.GetAggregateDoRatePrevote. simpl.
    rewrite lookup_insert_eq. simpl. split_and!; [done| |done]. cbn. by rewrite OracleState.hex_decode_encode, Hh.
  - apply OracleState.vote_ok in E as (a & ts & (f & p & Ha & _ & _ & _ & _ & _ & Ht & _) & Es).
    rewrite Ha in Hv. symmetry in Hv. eexists.
    rewrite (prevote_command _ _ _ _ En Hr Hv), (vote_command _ _ _ _ En Hr Hv), Es.
    unfold OracleState.GetAggregateDoRatePrevote, OracleState.GetAggregateDoRateVote, OracleState.revealed. simpl.
    rewrite lookup_insert_eq, lookup_delete_eq. simpl. done.
Qed.
End shown.

Section feeders.
Context {C B K D : Type} `{QueryClient C (OracleState.State B K D)} `{StakingOps K} `{AddrCodec} `{!AddrLaws}.

(** the command line shows the feeder of a validator: after an accepted
    consent the account that was named, and the validator's own account while
    it has named none. *)
Theorem feeder_shown cmd (node : Node (OracleState.State B K D)) v a :
  GetClientQueryContext cmd = Ok node -> oracle_Query ∈ node_routes node -> ValAddressFromBech32 v = Ok a ->
  (forall msg s u f, ValAddressFromBech32 (OracleState.md_Operator msg) = Ok a ->
     AccAddressFromBech32 (OracleState.md_Delegate msg) = Ok f ->
     OracleState.DelegateFeedConsent_handler msg s = (Ok u, node_state node) ->
     GetCmdQueryFeederDelegation cmd [v] = Ok (AccAddressString f)) /\
  (OracleState.st_feeders (node_state node) !! a = None ->
     GetCmdQueryFeederDelegation cmd [v] = Ok (AccAddressString a)).
Proof.
  intros En Hr Ha.
  assert (GetCmdQueryFeederDelegation cmd [v] =
    Ok (AccAddressString (OracleState.GetFeederDelegation (node_state node) a))) as ->.
  { unfold GetCmdQueryFeederDelegation. rewrite En. simpl. rewrite Ha. simpl. apply call_answer; [done|].
    unfold OracleState.Query_FeederDelegation. by rewrite (parse_printed _ _ Ha). }
  unfold OracleState.GetFeederDelegation. split; [|by intros ->].
  intros msg s u f Ho Hd E. unfold OracleState.DelegateFeedConsent_handler, OracleState.SetFeederDelegation in E.
  m_lift E as a' Ha'. m_lift E as f' Hf'. rewrite Ho in Ha'. rewrite Hd in Hf'. simplify_eq.
  m_inv E. select (_ = node_state node) (fun H => rewrite <- H). simpl.
  by rewrite lookup_insert_eq.
Qed.
End feeders.

Section stakes.
Context {C B : Type} `{QueryClient C (DodxStaking.State B)} `{BankOps B} `{MathOps} `{CoinOps} `{AddrCodec}.
Context `{!BankLaws B} `{!MathLaws} `{!CoinLaws} `{!AddrLaws}.

Lemma GetStakeAmount_banked s (b : B) a :
  DodxStaking.GetStakeAmount (DodxStaking.with_bank s b) a = DodxStaking.GetStakeAmount s a.
Proof. done. Qed.
Lemma GetTotal_banked s (b : B) :
  DodxStaking.GetTotalStakedAmount (DodxStaking.with_bank s b) = DodxStaking.GetTotalStakedAmount s.
Proof. done. Qed.

Lemma stake_command cmd node v a :
  GetClientQueryContext cmd = Ok node -> dodxstaking_Query ∈ node_routes node ->
  DodxStaking.inv (node_state node) -> AccAddressFromBech32 v = Ok a ->
  GetStakeQueryCmd cmd [v] = Ok (mkCoin MicroDODxDenom (DodxStaking.GetStakeAmount (node_state node) a)) /\
  GetTotalStakedQueryCmd cmd [] = Ok (mkCoin MicroDODxDenom (DodxStaking.GetTotalStakedAmount (node_state node))).
Proof.
  intros En Hr Hi Ha. unfold GetStakeQueryCmd, GetTotalStakedQueryCmd, ask. rewrite En. simpl.
  pose proof (DodxStaking.stake_nonneg _ a Hi). pose proof (DodxStaking.stake_le_total _ a Hi).
  split; apply call_answer; try done.
  - unfold DodxStaking.QueryStake. rewrite Ha. by apply DodxStaking.GetStake_coin.
  - apply DodxStaking.GetStake_coin. lia.
Qed.

(** the command line shows stakes as transactions leave them: after an
    accepted stake the staker's stake and the total are higher by the amount,
    after an accepted unstake lower, and the stake of another address is what
    it was. *)
Theorem stakes_shown cmd node s u v a :
  GetClientQueryContext cmd = Ok node -> dodxstaking_Query ∈ node_routes node -> DodxStaking.inv s ->
  AccAddressFromBech32 v = Ok a ->
  let shows stake total :=
    GetStakeQueryCmd cmd [v] = Ok (mkCoin MicroDODxDenom stake) /\
    GetTotalStakedQueryCmd cmd [] = Ok (mkCoin MicroDODxDenom total) in
  (forall msg b, DodxStaking.Stake msg s = (Ok u, node_state node) ->
     AccAddressFromBech32 (DodxStaking.Staker msg) = Ok b ->
     shows (DodxStaking.GetStakeAmount s a + at_addr b a (Amount (DodxStaking.StakeAmount msg)))
           (DodxStaking.GetTotalStakedAmount s + Amount (DodxStaking.StakeAmount msg))) /\
  (forall msg b, DodxStaking.Unstake msg s = (Ok u, node_state node) ->
     AccAddressFromBech32 (DodxStaking.Unstaker msg) = Ok b ->
     shows (DodxStaking.GetStakeAmount s a - at_addr b a (Amount (DodxStaking.UnstakeAmount msg)))
           (DodxStaking.GetTotalStakedAmount s - Amount (DodxStaking.UnstakeAmount msg))).
Proof.
  intros En Hr Hi Ha shows. unfold shows. split; intros msg b E Hb.
  - pose proof (stake_command _ _ _ _ En Hr (DodxStaking.Stake_inv _ _ _ _ Hi E) Ha) as [-> ->].
    apply DodxStaking.Stake_ok in E as (b' & bk & cs & Hb' & _ & _ & _ & -> & _).
    assert (b' = b) as -> by congruence.
    rewrite DodxStaking.GetStakeAmount_updated, DodxStaking.GetTotal_updated.
    unfold at_addr. destruct (String.eqb_spec b a) as [<-|]; [done|]. by rewrite Z.add_0_r.
  - pose proof (stake_command _ _ _ _ En Hr (DodxStaking.Unstake_inv _ _ _ _ Hi E) Ha) as [-> ->].
    apply DodxStaking.Unstake_ok in E as (b' & bk & cs & Hb' & _ & _ & _ & _ & ->).
    assert (b' = b) as -> by congruence.
    rewrite GetStakeAmount_banked, GetTotal_banked, DodxStaking.GetStakeAmount_updated, DodxStaking.GetTotal_updated.
    unfold at_addr. destruct (String.eqb_spec b a) as [<-|]; [done|]. by rewrite Z.sub_0_r.
Qed.
End stakes.

Section quotes.
Context {C B O : Type} `{QueryClient C (Market.State B O)} `{CoinText}.
Context `{BankOps B} `{Market.OracleKeeper O} `{MathOps} `{CoinOps} `{AddrCodec}.
Context `{!BankLaws B} `{!MathLaws} `{!CoinLaws}.

(** the swap command quotes the price: when a swap of an offer of at most
    100 bits would execute on the state of the node, the command answers
    exactly the coin it would pay; what the offer is read as is what the node
    reads. *)
Theorem swap_command_quotes cmd (node : Node (Market.State B O)) text offer askDenom ctx trader receiver r s' :
  GetClientQueryContext cmd = Ok node -> market_Query ∈ node_routes node ->
  ParseCoinNormalized text = Ok offer -> bit_len (Amount offer) <= 100 ->
  Market.handleSwapRequest ctx trader receiver offer askDenom (node_state node) = (Ok r, s') ->
  market_GetCmdQuerySwap cmd [text; askDenom] = Ok (Market.SwapCoin r).
Proof.
  intros En Hr Ht Hb [HA _]%Market.handleSwapRequest_ok.
  unfold market_GetCmdQuerySwap. rewrite En. simpl. rewrite Ht. simpl. apply call_answer; [done|].
  unfold Market.QuerySwap. pose proof HA as (? & ? & ? & _ & _ & _ & _ & _ & Hd & _).
  rewrite Hd, Ht. simpl. by rewrite (Market.simulated_amounts _ _ _ _ Hb HA).
Qed.
End quotes.

(** ** What the application's node answers

    The services of the modules that [appModules] of [app/modules.go] builds. *)
Definition app_routes (foreign : string -> Wiring.Services) : list string :=
  Wiring.registered foreign Wiring.QueryServer.

(** Modules of other packages do not serve the chain's own queries. *)
Definition own_queries : list string := [oracle_Query; treasury_Query; market_Query; dyncomm_Query; dodxstaking_Query].
Definition foreign_services (foreign : string -> Wiring.Services) : Prop :=
  forall name q, q ∈ own_queries -> q ∉ Wiring.QueryServer (foreign name).

Lemma call_unrouted {S A} service (node : Node S) (handler : Ctx -> S -> res A) :
  service ∉ node_routes node -> call service node handler = Err (Plain "unknown query path").
Proof. intros Hs. unfold call. by rewrite bool_decide_false. Qed.

Lemma app_routes_own foreign : foreign_services foreign ->
  (oracle_Query ∈ app_routes foreign /\ dodxstaking_Query ∈ app_routes foreign) /\
  treasury_Query ∉ app_routes foreign /\ market_Query ∉ app_routes foreign /\ dyncomm_Query ∉ app_routes foreign.
Proof.
  intros Hf. unfold app_routes. split; [split; apply Wiring.elem_of_registered|split_and!; apply Wiring.not_registered].
  - exists Wiring.names.oracle. split; apply (bool_decide_unpack _); by vm_compute.
  - exists Wiring.names.dodxstaking. split; apply (bool_decide_unpack _); by vm_compute.
  - intros m. apply Hf. set_solver.
  - apply (bool_decide_unpack _). by vm_compute.
  - intros m. apply Hf. set_solver.
  - apply (bool_decide_unpack _). by vm_compute.
  - intros m. apply Hf. set_solver.
  - apply (bool_decide_unpack _). by vm_compute.
Qed.

#[local] Hint Unfold GetCmdQueryTaxRate GetCmdQueryTaxCap GetCmdQueryTaxCaps GetCmdQueryRewardWeight
  GetCmdQueryTaxProceeds GetCmdQuerySeigniorageProceeds GetCmdQueryIndicators treasury_GetCmdQueryParams
  GetCmdQueryExemptlist market_GetCmdQuerySwap market_GetCmdQueryDoPoolDelta market_GetCmdQueryParams
  dyncomm_GetCmdQueryRate dyncomm_GetCmdQueryParams treasury_ask ask : commands.

(** A command whose service [Hs] is not routed fails, whatever its arguments. *)
Ltac unanswered Hs :=
  let args := fresh "args" in
  intros args; destruct args as [|? [|? [|? args]]]; try done; autounfold with commands; cbn;
  match goal with |- context [GetClientQueryContext ?c] => destruct (GetClientQueryContext c) eqn:? end; try done; cbn;
  try (match goal with
       | |- context [ValAddressFromBech32 ?x] => destruct (ValAddressFromBech32 x)
       | |- context [ParseCoinNormalized ?x] => destruct (ParseCoinNormalized x)
       | |- context [ReadPageRequest ?x] => destruct (ReadPageRequest x)
       end; try done; cbn);
  rewrite call_unrouted by (by erewrite Hs); done.

Section unrouted.
Context {CT CM CD B K D O OK KD : Type} `{QueryClient CT (Treasury.State B K D O)} `{Paginator}.
Context `{QueryClient CM (Market.State B OK)} `{QueryClient CD (Dyncomm.State KD)}.
Context `{BankOps B} `{StakingOps K} `{FeePoolOps D} `{Treasury.TreasuryKeepers O} `{Market.OracleKeeper OK}.
Context `{MathOps} `{CoinOps} `{DecCoinsOps} `{CoinSortOps} `{AddrCodec} `{CoinText}.
Context `{Dyncomm.CommissionKeeper KD}.

Definition at_app_node {C S} `{QueryClient C S} (foreign : string -> Wiring.Services) (cmd : C) : Prop :=
  forall node, GetClientQueryContext cmd = Ok node -> node_routes node = app_routes foreign.
Definition never {A} (run : list string -> res A) : Prop := forall args, is_ok (run args) = false.

(** on a node of this application no query command of the treasury, the
    market and the dynamic commission ever answers, with whatever arguments:
    the treasury and the dynamic commission register no query service and the
    market is not among the modules.  The commands of the oracle and of DODx
    staking do reach a service. *)
Theorem commands_without_service foreign (t : CT) (m : CM) (d : CD) :
  foreign_services foreign -> at_app_node foreign t -> at_app_node foreign m -> at_app_node foreign d ->
  (oracle_Query ∈ app_routes foreign /\ dodxstaking_Query ∈ app_routes foreign) /\
  (never (GetCmdQueryTaxRate t) /\ never (GetCmdQueryTaxCap t) /\ never (GetCmdQueryTaxCaps t) /\
   never (GetCmdQueryRewardWeight t) /\ never (GetCmdQueryTaxProceeds t) /\
   never (GetCmdQuerySeigniorageProceeds t) /\ never (GetCmdQueryIndicators t) /\
   never (treasury_GetCmdQueryParams t) /\ never (GetCmdQueryExemptlist t)) /\
  (never (market_GetCmdQuerySwap m) /\ never (market_GetCmdQueryDoPoolDelta m) /\ never (market_GetCmdQueryParams m)) /\
  (never (dyncomm_GetCmdQueryRate d) /\ never (dyncomm_GetCmdQueryParams d)).
Proof.
  intros Hf Ht Hm Hd. apply app_routes_own in Hf as (Hr & Nt & Nm & Nd). split; [exact Hr|].
  split_and!; first [unanswered Ht|unanswered Hm|unanswered Hd].
Qed.
End unrouted.

(** ** Examples: the pages as the SDK computes them, and clients of fixed nodes *)
Module Example.
Fixpoint by_offset {A} (f : string -> bool -> A -> res (A * bool)) (first limit : Z) (countTotal : bool)
    (hits : Z) (next : string) (keys : list string) (a : A) : res (A * PageResponse) :=
  match keys with
  | [] => Ok (a, mkPageResponse next (if countTotal then hits else 0))
  | k :: keys =>
      '(a, hit) ← f k ((first <=? hits) && (hits <? first + limit)) a;
      let hits := if (hit : bool) then hits + 1 else hits in
      if hits =? first + limit + 1 then
        let next := if String.eqb next "" then k else next in
        if countTotal then by_offset f first limit countTotal hits next keys a
        else Ok (a, mkPageResponse next 0)
      else by_offset f first limit countTotal hits next keys a
  end.

Fixpoint by_key {A} (f : string -> bool -> A -> res (A * bool)) (limit hits : Z) (keys : list string)
    (a : A) : res (A * PageResponse) :=
  match keys with
  | [] => Ok (a, mkPageResponse "" 0)
  | k :: keys =>
      if hits =? limit then Ok (a, mkPageResponse k 0)
      else
        '(a, hit) ← f k true a;
        by_key f limit (if (hit : bool) then hits + 1 else hits) keys a
  end.

#[export] Instance paginate : Paginator := fun A keys req f a =>
  if (0 <? pr_Offset req) && negb (String.eqb (pr_Key req) "")
  then Err (Plain "invalid request, either offset or key is expected, got both")
  else
    let limit := if pr_Limit req =? 0 then 100 else pr_Limit req in
    let countTotal := (pr_Limit req =? 0) || pr_CountTotal req in
    if String.eqb (pr_Key req) ""
    then by_offset f (pr_Offset req) limit countTotal 0 "" (in_direction req keys) a
    else by_key f limit 0
      (if pr_Reverse req then filter (fun k => String.leb k (pr_Key req) = true) (rev keys)
       else filter (fun k => String.leb (pr_Key req) k = true) keys) a.

Section laws.
Context {A : Type} (f : string -> bool -> A -> res (A * bool)).
Context (f_hits : forall k b x x' hit, f k b x = Ok (x', hit) -> hit = true).

Lemma by_offset_visits first limit ct keys : forall hits next a a' page, 0 <= hits ->
  by_offset f first limit ct hits next keys a = Ok (a', page) ->
  exists n, (length keys `min` Z.to_nat (first + limit - hits) <= n)%nat /\
    visits f first limit hits (take n keys) a = Ok a'.
Proof using f_hits.
  induction keys as [|k keys IH]; intros hits next a a' page Hh E; simpl in E.
  { injection E as <- _. exists 0%nat. by split; [simpl; lia|]. }
  destruct (f k _ a) as [[x hit]| |] eqn:Ef; try done. simpl in E. pose proof (f_hits _ _ _ _ _ Ef). subst hit.
  assert (forall next', by_offset f first limit ct (hits + 1) next' keys x = Ok (a', page) ->
    exists n, (S (length keys) `min` Z.to_nat (first + limit - hits) <= n)%nat /\
      visits f first limit hits (take n (k :: keys)) a = Ok a') as Hrest.
  { intros next' (n & Hn & Hv)%IH; [|lia]. exists (S n). split; [lia|]. simpl. by rewrite Ef. }
  destruct (Z.eqb_spec (hits + 1) (first + limit + 1)); [|by eauto].
  destruct ct; [by eauto|]. injection E as <- _. exists 1%nat. split; [lia|]. simpl. by rewrite Ef.
Qed.

Lemma by_key_visits limit keys : forall hits a a' page, 0 <= hits <= limit ->
  by_key f limit hits keys a = Ok (a', page) ->
  visits f 0 limit hits (take (Z.to_nat (limit - hits)) keys) a = Ok a'.
Proof using f_hits.
  induction keys as [|k keys IH]; intros hits a a' page Hh E; simpl in E.
  { rewrite take_nil. by injection E as <- _. }
  destruct (Z.eqb_spec hits limit) as [->|].
  { rewrite Z.sub_diag. by injection E as <- _. }
  replace (Z.to_nat (limit - hits)) with (S (Z.to_nat (limit - (hits + 1)))) by lia. cbn [take visits].
  rewrite Z.add_0_l, (proj2 (Z.leb_le 0 hits)), (proj2 (Z.ltb_lt hits limit)) by lia. cbn [andb].
  destruct (f k true a) as [[x hit]| |] eqn:Ef; try done. simpl in *. pose proof (f_hits _ _ _ _ _ Ef). subst hit.
  by eapply IH; [lia|].
Qed.
End laws.

#[export] Instance paginate_laws : PaginatorLaws.
Proof.
  split.
  - intros A keys req f a a' page Hk Ho Hl Hh E. unfold FilteredPaginate, paginate in E.
    rewrite Hk, andb_false_r, (proj2 (Z.eqb_neq _ 0)) in E by lia. simpl in E.
    apply (by_offset_visits f Hh) in E as (n & Hn & E); [|lia]. exists n. split; [|done].
    rewrite Z.sub_0_r in Hn. unfold in_direction in Hn. case_match; rewrite ?length_rev in Hn; done.
  - intros A keys req f a a' page Hk Ho Hl Hr Hh E. unfold FilteredPaginate, paginate in E.
    rewrite Ho, (proj2 (String.eqb_neq _ _) Hk), (proj2 (Z.eqb_neq _ 0)), Hr in E by lia. simpl in E.
    apply (by_key_visits f Hh) in E; [|lia]. by rewrite Z.sub_0_r in E.
Qed.

(** A client of a node that serves everything. *)
Record client (S : Type) : Type := mkClient { cl_node : Node S; cl_page : PageRequest }.
Arguments mkClient {S}.
Arguments cl_node {S}.
Arguments cl_page {S}.
#[export] Instance fixed_client {S} : QueryClient (client S) S := {|
  GetClientQueryContext c := Ok (cl_node c);
  ReadPageRequest c := Ok (cl_page c);
|}.

Definition first_page : PageRequest := mkPageRequest "" 0 100 false false.
Definition asking {S} (s : S) (req : PageRequest) : client S :=
  mkClient (mkNode own_queries (mkCtx 20 0 "test" false false) s) req.

(** Three exempt addresses, and the second page of two. *)
Definition exempt : Treasury.Example.St :=
  Treasury.on_exempt (fun _ => {["do1ann"; "do1bob"; "do1kim"]}) Treasury.Example.s0.
Definition three : list string := ["do1ann"; "do1bob"; "do1kim"].
Definition second_page : PageRequest := mkPageRequest "" 2 2 false false.

(** A node of the application when no other module serves queries. *)
Definition no_services (name : string) : Wiring.Services := Wiring.mkServices [] [] [].
Definition at_app {S} (s : S) : client S :=
  mkClient (mkNode (app_routes no_services) (mkCtx 20 0 "test" false false) s) first_page.

Definition one_coin : CoinText := {|
  ParseCoinNormalized text := if String.eqb text "1000001uusd" then Ok Market.Example.offer else Err (Plain "coin");
  ParseCoinsNormalized _ := Err (Plain "coins");
  CoinsString _ := "";
|}.
Definition consent : OracleState.MsgDelegateFeedConsent := OracleState.mkMsgDelegate "dovaloper1val" "do1kim".
Definition consented : OracleState.Example.St :=
  (OracleState.DelegateFeedConsent_handler consent OracleState.Example.s0).2.
End Example.
#[local] Existing Instances Example.paginate Example.paginate_laws Example.fixed_client Example.one_coin
  Market.Example.oracle Treasury.treasury_keepers Dyncomm.ref_commission
  OracleState.Example.parser OracleState.Example.hash.

Lemma exemption_pages_sound_witness : exists addresses page,
  GetCmdQueryExemptlist (Example.asking Example.exempt Example.first_page) [] = Ok (addresses, page) /\
  list_to_set addresses = Treasury.st_exempt Example.exempt.
Proof.
  eexists _, _.
  assert (GetCmdQueryExemptlist (Example.asking Example.exempt Example.first_page) []
    = Ok (Example.three, mkPageResponse "" 0)) as E by (vm_compute; reflexivity).
  split; [exact E|].
  destruct (exemption_pages_sound (Example.asking Example.exempt Example.first_page)
    (Example.cl_node (Example.asking Example.exempt Example.first_page)) Example.first_page Example.three (mkPageResponse "" 0))
    as [Hall _]; [reflexivity|reflexivity|exact E|reflexivity..|]. apply Hall; [reflexivity|]. vm_compute. discriminate.
Defined.

Lemma exemption_offset_ignored_witness :
  GetCmdQueryExemptlist (Example.asking Example.exempt Example.second_page) []
    = Ok (Example.three, mkPageResponse "" 0) /\
  Example.three <> ["do1kim"].
Proof.
  assert (GetCmdQueryExemptlist (Example.asking Example.exempt Example.second_page) []
    = Ok (Example.three, mkPageResponse "" 0)) as E by (vm_compute; reflexivity).
  split; [exact E|].
  destruct (exemption_offset_ignored (Example.asking Example.exempt Example.second_page)
    (Example.cl_node (Example.asking Example.exempt Example.second_page)) Example.second_page Example.three (mkPageResponse "" 0))
    as [_ Hne]; [reflexivity|reflexivity|exact E|reflexivity..|split; reflexivity|]. exact Hne.
Defined.

Lemma ballots_shown_witness : exists p,
  GetCmdQueryAggregatePrevote (Example.asking OracleState.Example.s1 Example.first_page) ["dovaloper1val"]
    = Ok (inr p) /\ OracleState.pv_SubmitBlock p = 5.
Proof.
  destruct (ballots_shown (Example.asking OracleState.Example.s1 Example.first_page)
    (Example.cl_node (Example.asking OracleState.Example.s1 Example.first_page))
    (OracleState.Example.at_height 5) OracleState.Example.s0 tt "dovaloper1val") as [Hp _];
    [reflexivity|apply (bool_decide_unpack _); by vm_compute|].
  destruct (Hp OracleState.Example.prevote eq_refl) as (p & E & _ & Hb); [apply run_eq; vm_compute; reflexivity|].
  exists p. split; [exact E|exact Hb].
Defined.

Lemma feeder_shown_witness :
  GetCmdQueryFeederDelegation (Example.asking Example.consented Example.first_page) ["dovaloper1val"] = Ok "do1kim".
Proof.
  destruct (feeder_shown (Example.asking Example.consented Example.first_page)
    (Example.cl_node (Example.asking Example.consented Example.first_page)) "dovaloper1val" "val")
    as [Hf _];
    [reflexivity|apply (bool_decide_unpack _); by vm_compute|reflexivity|].
  apply (Hf Example.consent OracleState.Example.s0 tt "kim" eq_refl eq_refl). apply run_eq. vm_compute. reflexivity.
Defined.

Lemma stakes_shown_witness :
  GetStakeQueryCmd (Example.asking DodxStaking.Example.later Example.first_page) ["do1alice"]
    = Ok (mkCoin MicroDODxDenom 5).
Proof.
  destruct (stakes_shown (Example.asking DodxStaking.Example.later Example.first_page)
    (Example.cl_node (Example.asking DodxStaking.Example.later Example.first_page))
    DodxStaking.Example.start tt "do1alice" "alice") as [Hs _];
    [reflexivity|apply (bool_decide_unpack _); by vm_compute|apply DodxStaking.Example.start_inv|reflexivity|].
  apply (Hs (DodxStaking.mkMsgStake "do1alice" DodxStaking.Example.coin5) "alice");
    [apply run_eq; vm_compute; reflexivity|reflexivity].
Defined.

Lemma swap_command_quotes_witness :
  market_GetCmdQuerySwap (Example.asking Market.Example.st0 Example.first_page) ["1000001uusd"; "udo"]
    = Ok (mkCoin "udo" 3920003).
Proof.
  apply (swap_command_quotes (Example.asking Market.Example.st0 Example.first_page)
    (Example.cl_node (Example.asking Market.Example.st0 Example.first_page)) "1000001uusd"
    Market.Example.offer "udo" Market.Example.ctx0 "alice" "bob" Market.Example.resp Market.Example.st1);
    [reflexivity|apply (bool_decide_unpack _); by vm_compute|reflexivity|vm_compute; discriminate
    |apply run_eq; vm_compute; reflexivity].
Defined.

Lemma commands_without_service_witness :
  is_ok (GetCmdQueryTaxRate (Example.at_app Treasury.Example.s0) []) = false /\
  oracle_Query ∈ app_routes Example.no_services.
Proof.
  destruct (commands_without_service (B := ledger) (K := list ref_validator) (D := list DecCoin)
    (O := Market.State ledger Treasury.Example.Oracle) (OK := unit) Example.no_services (Example.at_app Treasury.Example.s0)
    (Example.at_app Market.Example.st0) (Example.at_app Dyncomm.Example.start)) as ((Ho & _) & (Ht & _) & _).
  - intros name q _. apply not_elem_of_nil.
  - intros node [= <-]. reflexivity.
  - intros node [= <-]. reflexivity.
  - intros node [= <-]. reflexivity.
  - split; [exact (Ht [])|exact Ho].
Defined.
