(* ===== verification/Simulation.v ===== *)
(** * Random operations and genesis states

    [src/x/oracle/simulation], [src/x/market/simulation],
    [src/x/treasury/simulation] and [src/custom/bank/simulation]: what the
    simulation of the SDK runs against the application.  A generator takes
    its numbers from a source [R] ([Rand]); an operation works on a [World]:
    the source, the application and the package variable [voteHashMap].
    Accounts, fees, signing and the delivery of a transaction are the SDK's
    ([SimLib], [SimApp]).

    The theorems: random parameters of the oracle and the market are valid,
    those of the treasury never are and the bank's genesis panics; a
    multi-send gives away exactly what it takes and its loop that drops empty
    outputs ends; a simulated vote opens the simulated prevote; a simulated
    swap is well formed, and the simulated swap-send that panics. *)
From stdpp Require Import base gmap sets list strings fin_maps sorting.
From Stdlib Require Import ZArith Lia.
From S2P Require Import Prelude Sdk SdkRef Core.
From S2P Require DodxStaking Market OracleBallot OracleState Treasury.
From S2P Require Import Cli.
#[local] Open Scope Z_scope.

(** ** math/rand: [r.Intn(n)] panics unless [n] is positive *)
Class Rand (R : Type) : Type := Intn : Z -> M R Z.
Class RandLaws (R : Type) `{Rand R} : Prop := {
  Intn_range n r k r' : Intn n r = (Ok k, r') -> 0 <= k < n;
  Intn_runs n r : 0 < n -> exists k r', Intn n r = (Ok k, r');
}.

(** [AppParams.GetOrGenerate]: the value of the parameter file, or a new one. *)
Class AppParams (R : Type) : Type := GetOrGenerate : forall A : Type, string -> M R A -> M R A.
Arguments GetOrGenerate {R _ A}.
Class NoAppParams (R : Type) `{AppParams R} : Prop :=
  generated A key (gen : M R A) r : GetOrGenerate key gen r = gen r.

Section generators.
Context {R : Type} `{Rand R} `{AppParams R} `{MathOps} `{CoinOps}.

(** [a.Add(LegacyNewDecWithPrec(int64(r.Intn(n)), prec))] *)
Definition dec_above (a n prec : Z) : M R Z :=
  k ← Intn n;
  lift (DecAdd a (LegacyNewDecWithPrec k prec)).

(** ** x/oracle/simulation/genesis.go *)
Definition GenVotePeriod : M R Z := k ← Intn 100; mret (1 + k).
Definition GenVoteThreshold : M R Z := dec_above (LegacyNewDecWithPrec 333 3) 333 3.
Definition GenRewardBand : M R Z := dec_above LegacyZeroDec 100 3.
Definition GenRewardDistributionWindow : M R Z := k ← Intn 100000; mret (100 + k).
Definition GenSlashFraction : M R Z := dec_above LegacyZeroDec 100 3.
Definition GenSlashWindow : M R Z := k ← Intn 100000; mret (100 + k).
Definition GenMinValidPerWindow : M R Z := dec_above LegacyZeroDec 500 3.

Definition oracle_RandomizedGenState : M R OracleState.GenesisState :=
  votePeriod ← GetOrGenerate "vote_period" GenVotePeriod;
  voteThreshold ← GetOrGenerate "vote_threshold" GenVoteThreshold;
  rewardBand ← GetOrGenerate "reward_band" GenRewardBand;
  rewardDistributionWindow ← GetOrGenerate "reward_distribution_window" GenRewardDistributionWindow;
  slashFraction ← GetOrGenerate "slash_fraction" GenSlashFraction;
  slashWindow ← GetOrGenerate "slash_window" GenSlashWindow;
  minValidPerWindow ← GetOrGenerate "min_valid_per_window" GenMinValidPerWindow;
  mret (OracleState.mkGenesisState
    (OracleState.mkParams votePeriod voteThreshold rewardBand rewardDistributionWindow
       [OracleState.mkWhitelistDenom MicroDoDenom OracleState.DefaultTobinTax]
       slashFraction slashWindow minValidPerWindow)
    [] [] [] [] [] []).

(** ** x/market/simulation/genesis.go *)
Definition GenBasePool : M R Z :=
  k ← Intn 10000000000;
  lift (DecAdd (LegacyNewDec 50000000000000) (LegacyNewDec k)).
Definition GenPoolRecoveryPeriod : M R Z := k ← Intn 10000000000; mret (100 + k).
Definition GenMinSpread : M R Z := dec_above (LegacyNewDecWithPrec 1 2) 100 3.

Definition market_RandomizedGenState : M R Market.GenesisState :=
  basePool ← GetOrGenerate "base_pool" GenBasePool;
  poolRecoveryPeriod ← GetOrGenerate "pool_recovery_period" GenPoolRecoveryPeriod;
  minStabilitySpread ← GetOrGenerate "min_spread" GenMinSpread;
  mret (Market.mkGenesisState LegacyZeroDec (Market.mkParams basePool poolRecoveryPeriod minStabilitySpread)).

(** ** x/treasury/simulation/genesis.go *)
Definition random_policy (cap : res Coin) : M R Treasury.PolicyConstraints :=
  rateMin ← Intn 5;
  rateMax ← Intn 5;
  rateMax ← lift (DecAdd (LegacyNewDecWithPrec 6 3) (LegacyNewDecWithPrec (rateMax + 1) 3));
  cap ← lift cap;
  changeRateMax ← dec_above (LegacyNewDecWithPrec 25 5) 75 5;
  mret (Treasury.mkPolicy (LegacyNewDecWithPrec (rateMin + 1) 3) rateMax cap changeRateMax).
Definition GenTaxPolicy : M R Treasury.PolicyConstraints := random_policy (NewCoin MicroDoDenom 1000000).
Definition GenRewardPolicy : M R Treasury.PolicyConstraints := random_policy (NewCoin MicroDoDenom 0).
Definition GenSeigniorageBurdenTarget : M R Z := k ← Intn 100; mret (LegacyNewDecWithPrec k 2).
Definition GenMiningIncrement : M R Z := k ← Intn 30; mret (LegacyNewDecWithPrec (100 + k) 2).
Definition GenWindowShort : M R Z := k ← Intn 12; mret (1 + k).
Definition GenWindowLong : M R Z := k ← Intn 24; mret (12 + k).
Definition GenWindowProbation : M R Z := k ← Intn 6; mret (1 + k).

(** The literal sets seven of the ten fields of [types.Params]. *)
Definition treasury_RandomizedGenState : M R Treasury.GenesisState :=
  taxPolicy ← GetOrGenerate "tax_policy" GenTaxPolicy;
  rewardPolicy ← GetOrGenerate "reward_policy" GenRewardPolicy;
  seigniorageBurdenTarget ← GetOrGenerate "seigniorage_burden_target" GenSeigniorageBurdenTarget;
  miningIncrement ← GetOrGenerate "mining_increment" GenMiningIncrement;
  windowShort ← GetOrGenerate "window_short" GenWindowShort;
  windowLong ← GetOrGenerate "window_long" GenWindowLong;
  windowProbation ← GetOrGenerate "window_probation" GenWindowProbation;
  mret (Treasury.mkGenesisState
    (Treasury.mkParams (Some taxPolicy) (Some rewardPolicy) (Some seigniorageBurdenTarget) (Some miningIncrement)
       (Some windowShort) (Some windowLong) (Some windowProbation) None None None)
    (Some (Treasury.RateMin taxPolicy)) (Some (Treasury.RateMin rewardPolicy)) [(MicroDoDenom, Some 0)] [] [] []).
End generators.

(** ** custom/bank/simulation/genesis.go *)
Definition BondDenom : string := MicroDoDenom.

Record SimAccount : Type := mkSimAccount { ac_Address : AccAddress; ac_PubKey : string; ac_PrivKey : string }.
Record SendEnabled : Type := mkSendEnabled { se_Denom : string; se_Enabled : bool }.
Record BankGenesis : Type := mkBankGenesis {
  bg_DefaultSendEnabled : bool;
  bg_Balances : list (string * list Coin);
  bg_Supply : list Coin;
  bg_SendEnabled : list SendEnabled;
}.

(** [Int.Mul] is exact, or panics when the product is too wide. *)
Class IntMulOps : Type := IntMul : Z -> Z -> res Z.
Class IntMulLaws `{IntMulOps} : Prop := {
  IntMul_inv a b c : IntMul a b = Ok c -> c = a * b;
  IntMul_no_error a b e : IntMul a b <> Err e;
}.

(** [NewCoins] drops zero amounts and panics when a denomination is left twice. *)
Class NewCoinsLaws `{CoinOps} : Prop :=
  NewCoins_duplicate cs : ~ NoDup (map Denom (filter (fun c => Amount c <> 0) cs)) -> NewCoins cs = Panic.

Section bank_genesis.
Context {R : Type} `{Rand R} `{AppParams R} `{IntMulOps} `{CoinOps} `{AddrCodec}.

(** Both coins are of [BondDenom]. *)
Definition bond_twice (x y : Z) : res (list Coin) :=
  c ← NewCoin BondDenom x;
  c' ← NewCoin BondDenom y;
  NewCoins [c; c'].

Definition RandomGenesisBalances (accounts : list SimAccount) (initialStake : Z) : res (list (string * list Coin)) :=
  mapM (fun acc => coins ← bond_twice initialStake initialStake; Ok (AccAddressString (ac_Address acc), coins)) accounts.

Definition bank_RandomizedGenState (accounts : list SimAccount) (initialStake numBonded : Z) : M R BankGenesis :=
  sendEnabledParams ← GetOrGenerate "SendEnabled"
    (mret [mkSendEnabled BondDenom true; mkSendEnabled BondDenom true]);
  defaultSendEnabledParam ← GetOrGenerate "DefaultSendEnabled" (k ← Intn 2; mret (k =? 1));
  let numAccs := Z.of_nat (length accounts) in
  totalSupply ← lift (IntMul initialStake (numAccs + numBonded));
  totalLunaSupply ← lift (IntMul initialStake numAccs);
  supply ← lift (bond_twice totalSupply totalLunaSupply);
  balances ← lift (RandomGenesisBalances accounts initialStake);
  mret (mkBankGenesis defaultSendEnabledParam balances supply sendEnabledParams).
End bank_genesis.

(** ** The world of an operation *)
Record World (R A : Type) : Type := mkWorld {
  w_rand : R; w_app : A; w_voteHashMap : gmap string string;
}.
Arguments mkWorld {R A}.
Arguments w_rand {R A}.
Arguments w_app {R A}.
Arguments w_voteHashMap {R A}.

Definition random {R A X} (m : M R X) : M (World R A) X := fun w =>
  let '(r, g) := m (w_rand w) in (r, mkWorld g (w_app w) (w_voteHashMap w)).
Definition in_app {R A X} (m : M A X) : M (World R A) X := fun w =>
  let '(r, a) := m (w_app w) in (r, mkWorld (w_rand w) a (w_voteHashMap w)).
Definition record_hash {R A} (validator rates : string) : M (World R A) unit := modify (fun w =>
  mkWorld (w_rand w) (w_app w) (<[validator := rates]> (w_voteHashMap w))).

(** [x, err := f()] when [err] is looked at. *)
Definition attempt {S X} (m : M S X) : M S (X + error) := fun s =>
  match m s with
  | (Ok x, s') => (Ok (inl x), s')
  | (Err e, s') => (Ok (inr e), s')
  | (Panic, s') => (Panic, s')
  end.

Record AccountI : Type := mkAccountI { GetAccountNumber : Z; GetSequence : Z }.

(** The SDK's [types/simulation] and [testutil/sims]: [RandomAcc] picks one of
    the accounts, [RandSubsetCoins] and [RandomFees] a part of the coins,
    [RandomAmount] a number up to the bound. *)
Class SimLib (R Tx : Type) : Type := {
  RandomAcc : list SimAccount -> M R SimAccount;
  RandIntBetween : Z -> Z -> M R Z;
  RandomAmount : Z -> M R Z;
  RandomFees : Ctx -> list Coin -> M R (list Coin);
  RandSubsetCoins : list Coin -> M R (list Coin);
  GenSignedMockTx : list Msg -> list Coin -> string -> list Z -> list Z -> list string -> M R Tx;
  DecString : Z -> string;
  ErrorContains : error -> string -> bool;
}.

(** The keepers of the application and the delivery of a transaction. *)
Class SimApp (A Tx B K D : Type) : Type := {
  app_oracle : A -> OracleState.State B K D;
  GetAccount : A -> AccAddress -> option AccountI;
  SpendableCoins : A -> AccAddress -> list Coin;
  IsSendEnabledCoins : A -> list Coin -> res unit;
  IsSendEnabledCoin : A -> string -> bool;
  SimDeliver : Tx -> M A unit;
}.

(** Default weights of the SDK's simulations. *)
Class Weights : Type := {
  DefaultWeightMsgSend : Z; DefaultWeightMsgMultiSend : Z; DefaultWeightMsgSetWithdrawAddress : Z;
}.

Inductive OperationMsg : Type :=
| NoOpMsg (comment : string)
| NewOperationMsg (msg : Msg).
Abbreviation outcome := (OperationMsg * option error)%type.

Definition no_op {S} (comment : string) : M S outcome := mret (NoOpMsg comment, None).
Definition failed {S} (comment : string) (e : error) : M S outcome := mret (NoOpMsg comment, Some e).

(** The picks are picks: an account of the list, a number of the range, valid
    coins that are a part of the given ones. *)
Definition part_of `{CoinOps} (part cs : list Coin) : Prop :=
  CoinsIsValid part = true /\ forall d, AmountOf part d <= AmountOf cs d.
Class SimLibLaws (R Tx : Type) `{SimLib R Tx} `{CoinOps} : Prop := {
  RandomAcc_in accs r acc r' : RandomAcc accs r = (Ok acc, r') -> acc ∈ accs;
  RandIntBetween_range min max r k r' : RandIntBetween min max r = (Ok k, r') -> min <= k < max;
  RandomAmount_range bound r k r' : 0 <= bound -> RandomAmount bound r = (Ok k, r') -> 0 <= k <= bound;
  RandomFees_part ctx cs r fees r' : CoinsIsValid cs = true -> RandomFees ctx cs r = (Ok fees, r') -> part_of fees cs;
  RandSubset_part cs r part r' : CoinsIsValid cs = true -> RandSubsetCoins cs r = (Ok part, r') -> part_of part cs;
}.
Class SimAppLaws (A Tx B K D : Type) `{SimApp A Tx B K D} `{CoinOps} : Prop :=
  spendable_valid a address : CoinsIsValid (SpendableCoins a address) = true.

(** A method call on an account that was not found. *)
Definition the_account {S} (acc : option AccountI) : M S AccountI :=
  match acc with Some a => mret a | None => panic end.

(** [FindAccount]: the zero account when there is none. *)
Definition FindAccount (accs : list SimAccount) (address : AccAddress) : SimAccount :=
  default (mkSimAccount "" "" "") (List.find (fun a => String.eqb (ac_Address a) address) accs).

Section operations.
Context {R A Tx B K D : Type} `{Rand R} `{SimLib R Tx} `{SimApp A Tx B K D} `{StakingOps K}.
Context `{MathOps} `{CoinOps} `{CoinSubOps} `{AddrCodec} `{OracleState.TmHash}.
Abbreviation W := (World R A).

(** The end of every operation: sign the message with the account's numbers
    and deliver it.  [on_error] is what an error of the delivery leads to. *)
Definition sign_and_deliver (chainID : string) (msg : Msg) (fees : list Coin) (numbers sequences : list Z)
    (keys : list string) (on_error : error -> M W outcome) (after : M W unit) : M W outcome :=
  tx ← attempt (random (GenSignedMockTx [msg] fees chainID numbers sequences keys));
  match tx with
  | inr e => failed "unable to generate mock tx" e
  | inl tx =>
      delivered ← attempt (in_app (SimDeliver tx));
      match delivered with
      | inr e => on_error e
      | inl _ => after ;; mret (NewOperationMsg msg, None)
      end
  end.

(** ** x/oracle/simulation/operations.go *)
Definition salt : string := "1234".
Definition whitelist : list string := [MicroDoDenom].

(** [strings.TrimRight(s, ",")] of the prices with their denominations. *)
Fixpoint random_prices (denoms : list string) : M R (list string) :=
  match denoms with
  | [] => mret []
  | denom :: denoms =>
      k ← RandIntBetween 1 10000;
      rest ← random_prices denoms;
      mret ((DecString (LegacyNewDecWithPrec k 1) +:+ denom) :: rest)
  end.

(** The validator behind an account, when the staking module knows one. *)
Definition sim_validator (address : ValAddress) : M W (option ValidatorI) :=
  w ← get;
  match Validator (OracleState.st_staking (app_oracle (w_app w))) address with
  | Ok v => mret v
  | Err _ => mret None
  | Panic => panic
  end.

Definition SimulateMsgAggregateDoRatePrevote (ctx : Ctx) (accs : list SimAccount) (chainID : string) : M W outcome :=
  simAccount ← random (RandomAcc accs);
  let address := ac_Address simAccount in
  val ← sim_validator address;
  if negb (match val with Some v => IsBonded v | None => false end)
  then no_op "unable to find validator"
  else
    prices ← random (random_prices whitelist);
    let exchangeRatesStr := join_comma prices in
    let voteHash := OracleState.GetAggregateVoteHash salt exchangeRatesStr address in
    w ← get;
    let feederAddr := OracleState.GetFeederDelegation (app_oracle (w_app w)) address in
    let feederSimAccount := FindAccount accs feederAddr in
    feederAccount ← the_account (GetAccount (w_app w) feederAddr);
    let spendable := SpendableCoins (w_app w) feederAddr in
    fees ← attempt (random (RandomFees ctx spendable));
    match fees with
    | inr e => failed "unable to generate fees" e
    | inl fees =>
        let msg := Prevote (NewMsgAggregateDoRatePrevote voteHash feederAddr address) in
        sign_and_deliver chainID msg fees [GetAccountNumber feederAccount] [GetSequence feederAccount]
          [ac_PrivKey feederSimAccount] (failed "unable to deliver tx")
          (record_hash (ValAddressString address) exchangeRatesStr)
    end.

(** The checks before a vote: the message, or why there is none. *)
Definition plan_vote (ctx : Ctx) (address : ValAddress) (w : W) : res (string + OracleState.MsgAggregateDoRateVote) :=
  let s := app_oracle (w_app w) in
  match w_voteHashMap w !! ValAddressString address with
  | None => Ok (inl "vote hash not exists")
  | Some exchangeRatesStr =>
      match OracleState.GetAggregateDoRatePrevote s address with
      | Panic => Panic
      | Err _ => Ok (inl "prevote not found")
      | Ok prevote =>
          let period := OracleState.p_VotePeriod (OracleState.GetParams s) in
          now ← OracleState.div_u64 (u64 (BlockHeight ctx)) period;
          submitted ← OracleState.div_u64 (OracleState.pv_SubmitBlock prevote) period;
          if negb (u64 (now - submitted) =? 1)
          then Ok (inl "reveal period of submitted vote does not match registered prevote")
          else Ok (inr (NewMsgAggregateDoRateVote salt exchangeRatesStr
                          (OracleState.GetFeederDelegation s address) address))
      end
  end.

Definition SimulateMsgAggregateDoRateVote (ctx : Ctx) (accs : list SimAccount) (chainID : string) : M W outcome :=
  simAccount ← random (RandomAcc accs);
  let address := ac_Address simAccount in
  val ← sim_validator address;
  if negb (match val with Some v => IsBonded v | None => false end)
  then no_op "unable to find validator"
  else
    w ← get;
    planned ← lift (plan_vote ctx address w);
    match planned with
    | inl comment => no_op comment
    | inr msg =>
        let feederAddr := OracleState.GetFeederDelegation (app_oracle (w_app w)) address in
        let feederSimAccount := FindAccount accs feederAddr in
        let spendableCoins := SpendableCoins (w_app w) feederAddr in
        fees ← attempt (random (RandomFees ctx spendableCoins));
        match fees with
        | inr e => failed "unable to generate fees" e
        | inl fees =>
            feederAccount ← the_account (GetAccount (w_app w) feederAddr);
            sign_and_deliver chainID (Vote msg) fees [GetAccountNumber feederAccount] [GetSequence feederAccount]
              [ac_PrivKey feederSimAccount] (failed "unable to deliver tx") (mret tt)
        end
    end.

Definition SimulateMsgDelegateFeedConsent (ctx : Ctx) (accs : list SimAccount) (chainID : string) : M W outcome :=
  simAccount ← random (RandomAcc accs);
  delegateAccount ← random (RandomAcc accs);
  let valAddress := ac_Address simAccount in
  w ← get;
  let account := GetAccount (w_app w) (ac_Address simAccount) in
  let staking := OracleState.st_staking (app_oracle (w_app w)) in
  val ← sim_validator valAddress;
  match val with
  | None => no_op "unable to find validator"
  | Some _ =>
      match Validator staking (ac_Address delegateAccount) with
      | Panic => panic
      | Ok None =>
          account ← the_account account;
          fees ← attempt (random (RandomFees ctx (SpendableCoins (w_app w) valAddress)));
          match fees with
          | inr e => failed "unable to generate fees" e
          | inl fees =>
              let msg := Consent (NewMsgDelegateFeedConsent valAddress (ac_Address delegateAccount)) in
              sign_and_deliver chainID msg fees [GetAccountNumber account] [GetSequence account]
                [ac_PrivKey simAccount] (failed "unable to deliver tx") (mret tt)
          end
      | _ => no_op "unable to delegate to validator"
      end
  end.

(** ** x/market/simulation/operations.go

    The denominations with an exchange rate, each as offer and as ask: the
    other side is [udo]. *)
Definition swap_denoms (whitelist : list string) (randVal : Z) : res (string * string) :=
  let whitelistLen := Z.of_nat (length whitelist) in
  if randVal <? whitelistLen
  then match whitelist !! Z.to_nat randVal with
       | Some denom => Ok (MicroDoDenom, denom)
       | None => Panic
       end
  else match whitelist !! Z.to_nat (randVal - whitelistLen) with
       | Some denom => Ok (denom, MicroDoDenom)
       | None => Panic
       end.

(** The draw of denominations and of an amount within what the fees leave. *)
Definition random_amount (spendable fees : list Coin) (offerDenom : string) : M R Z :=
  bound ← lift (IntSub (AmountOf spendable offerDenom) (AmountOf fees offerDenom));
  RandomAmount bound.

Definition SimulateMsgSwap (ctx : Ctx) (accs : list SimAccount) (chainID : string) : M W outcome :=
  simAccount ← random (RandomAcc accs);
  w ← get;
  let account := GetAccount (w_app w) (ac_Address simAccount) in
  let spendable := SpendableCoins (w_app w) (ac_Address simAccount) in
  fees ← attempt (random (RandomFees ctx spendable));
  match fees with
  | inr e => failed "unable to generate fees" e
  | inl fees =>
      let whitelist := map fst (OracleState.IterateDoExchangeRates (app_oracle (w_app w))) in
      if Nat.eqb (length whitelist) 0 then no_op "no available exchange rates"
      else
        randVal ← random (RandIntBetween 0 (Z.of_nat (length whitelist) * 2));
        '(offerDenom, askDenom) ← lift (swap_denoms whitelist randVal);
        amount ← random (random_amount spendable fees offerDenom);
        if amount =? 0 then no_op "not enough offer denom amount"
        else
          offerCoin ← lift (NewCoin offerDenom amount);
          let msg := Swap (Market.mkMsgSwap (AccAddressString (ac_Address simAccount)) offerCoin askDenom) in
          account ← the_account account;
          sign_and_deliver chainID msg fees [GetAccountNumber account] [GetSequence account]
            [ac_PrivKey simAccount] (failed "unable to deliver tx") (mret tt)
  end.

(** When the denomination cannot be sent the code asks [err] for its text,
    but [err] is nil there. *)
Definition SimulateMsgSwapSend (ctx : Ctx) (accs : list SimAccount) (chainID : string) : M W outcome :=
  simAccount ← random (RandomAcc accs);
  receiverAccount ← random (RandomAcc accs);
  w ← get;
  let account := GetAccount (w_app w) (ac_Address simAccount) in
  let spendable := SpendableCoins (w_app w) (ac_Address simAccount) in
  fees ← attempt (random (RandomFees ctx spendable));
  match fees with
  | inr e => failed "unable to generate fees" e
  | inl fees =>
      let whitelist := map fst (OracleState.IterateDoExchangeRates (app_oracle (w_app w))) in
      if Nat.eqb (length whitelist) 0 then no_op "no available exchange rates"
      else
        randVal ← random (RandIntBetween 0 (Z.of_nat (length whitelist) * 2));
        '(offerDenom, askDenom) ← lift (swap_denoms whitelist randVal);
        if negb (IsSendEnabledCoin (w_app w) offerDenom) then panic
        else
          amount ← random (random_amount spendable fees offerDenom);
          if amount =? 0 then no_op "not enough offer denom amount"
          else
            offerCoin ← lift (NewCoin offerDenom amount);
            let msg := SwapSend (Market.mkMsgSwapSend (AccAddressString (ac_Address simAccount))
                                   (AccAddressString (ac_Address receiverAccount)) offerCoin askDenom) in
            account ← the_account account;
            sign_and_deliver chainID msg fees [GetAccountNumber account] [GetSequence account]
              [ac_PrivKey simAccount]
              (fun e => if ErrorContains e "insufficient fee" then no_op "ignore tax error" else failed "unable to deliver tx" e)
              (mret tt)
  end.

(** ** custom/bank/simulation/operations.go *)
Record SendFields : Type := mkSendFields {
  sf_from : SimAccount; sf_to : SimAccount; sf_coins : list Coin; sf_skip : bool;
}.

(** [for simAccount.PubKey.Equals(toSimAcc.PubKey)]: another account is drawn
    until the keys differ; [None] when [fuel] draws were not enough. *)
Fixpoint other_account (fuel : nat) (accs : list SimAccount) (simAccount toSimAcc : SimAccount) :
    M R (option SimAccount) :=
  if String.eqb (ac_PubKey simAccount) (ac_PubKey toSimAcc) then
    match fuel with
    | O => mret None
    | S fuel => toSimAcc ← RandomAcc accs; other_account fuel accs simAccount toSimAcc
    end
  else mret (Some toSimAcc).

Definition randomSendFields (fuel : nat) (accs : list SimAccount) : M W (option SendFields) :=
  simAccount ← random (RandomAcc accs);
  toSimAcc ← random (RandomAcc accs);
  to ← random (other_account fuel accs simAccount toSimAcc);
  match to with
  | None => mret None
  | Some toSimAcc =>
      w ← get;
      match GetAccount (w_app w) (ac_Address simAccount) with
      | None => mret (Some (mkSendFields simAccount toSimAcc [] true))
      | Some _ =>
          sendCoins ← random (RandSubsetCoins (SpendableCoins (w_app w) (ac_Address simAccount)));
          if bool_decide (sendCoins = []) then mret (Some (mkSendFields simAccount toSimAcc [] true))
          else mret (Some (mkSendFields simAccount toSimAcc sendCoins false))
      end
  end.

(** The fees are drawn from what the transfer leaves, when it leaves
    something: [SafeSub] reports what [Sub] panics about. *)
Definition random_fees_after (ctx : Ctx) (spendable amount : list Coin) : M R (list Coin) :=
  match CoinsSub spendable amount with
  | Ok coins => RandomFees ctx coins
  | _ => mret []
  end.

Definition send_msg (ctx : Ctx) (chainID : string) (from : AccAddress) (amount : list Coin) (msg : Msg)
    (keys : list string) : M W unit :=
  w ← get;
  account ← the_account (GetAccount (w_app w) from);
  fees ← random (random_fees_after ctx (SpendableCoins (w_app w) from) amount);
  tx ← random (GenSignedMockTx [msg] fees chainID [GetAccountNumber account] [GetSequence account] keys);
  in_app (SimDeliver tx).

Definition sendMsgSend (ctx : Ctx) (chainID : string) (fromText toText : string) (amount : list Coin)
    (keys : list string) : M W unit :=
  from ← lift (AccAddressFromBech32 fromText);
  send_msg ctx chainID from amount (Send fromText toText amount) keys.

(** Both operations end in the same way. *)
Definition report (sent : unit + error) (msg : Msg) : M W outcome :=
  match sent with
  | inl _ => mret (NewOperationMsg msg, None)
  | inr e => if ErrorContains e "insufficient fee" then no_op "skip low fee due to tax"
             else failed "invalid transfers" e
  end.

Definition SimulateMsgSend (fuel : nat) (ctx : Ctx) (accs : list SimAccount) (chainID : string) :
    M W (option outcome) :=
  fields ← randomSendFields fuel accs;
  match fields with
  | None => mret None
  | Some (mkSendFields simAccount toSimAcc coins skip) =>
      w ← get;
      match IsSendEnabledCoins (w_app w) coins with
      | Panic => panic
      | Err _ => out ← no_op "err.Error()"; mret (Some out)
      | Ok _ =>
          if (skip : bool) then out ← no_op "skip all transfers"; mret (Some out)
          else
            let from := AccAddressString (ac_Address simAccount) in
            let to := AccAddressString (ac_Address toSimAcc) in
            sent ← attempt (sendMsgSend ctx chainID from to coins [ac_PrivKey simAccount]);
            out ← report sent (Send from to coins);
            mret (Some out)
      end
  end.

(** The outputs: each but the last takes a part of what is left. *)
Fixpoint split_outputs (n : nat) (accs : list SimAccount) (coins : list Coin) : M R (list Output) :=
  match n with
  | O => mret []
  | S O =>
      outAddr ← RandomAcc accs;
      mret [mkOutput (AccAddressString (ac_Address outAddr)) coins]
  | S n =>
      outAddr ← RandomAcc accs;
      outCoins ← RandSubsetCoins coins;
      coins ← lift (CoinsSub coins outCoins);
      rest ← split_outputs n accs coins;
      mret (mkOutput (AccAddressString (ac_Address outAddr)) outCoins :: rest)
  end.

(** The loop that drops outputs without coins: the last one takes the place
    of an empty one, and the index moves on only over others. *)
Fixpoint drop_empty (fuel i : nat) (outputs : list Output) : option (list Output) :=
  match outputs !! i with
  | None => Some outputs
  | Some out =>
      match fuel with
      | O => None
      | S fuel =>
          if bool_decide (out_Coins out = []) then
            match last outputs with
            | Some back => drop_empty fuel i (removelast (<[i := back]> outputs))
            | None => None
            end
          else drop_empty fuel (S i) outputs
      end
  end.

Definition sendMsgMultiSend (ctx : Ctx) (chainID : string) (fromText : string) (amount : list Coin)
    (outputs : list Output) (keys : list string) : M W unit :=
  from ← must (AccAddressFromBech32 fromText);
  send_msg ctx chainID from amount (MultiSend fromText amount outputs) keys.

Definition SimulateMsgMultiSend (fuel : nat) (ctx : Ctx) (accs : list SimAccount) (chainID : string) :
    M W (option outcome) :=
  k ← random (Intn 3);
  let n := Z.to_nat (k + 1) in
  fields ← randomSendFields fuel accs;
  match fields with
  | None => mret None
  | Some (mkSendFields simAccount _ coins skip) =>
      if (skip : bool) then out ← no_op "skip all transfers"; mret (Some out)
      else
        let from := AccAddressString (ac_Address simAccount) in
        w ← get;
        match IsSendEnabledCoins (w_app w) coins with
        | Panic => panic
        | Err _ => out ← no_op "err.Error()"; mret (Some out)
        | Ok _ =>
            outputs ← random (split_outputs n accs coins);
            match drop_empty (length outputs) 0 outputs with
            | None => mret None
            | Some outputs =>
                sent ← attempt (sendMsgMultiSend ctx chainID from coins outputs [ac_PrivKey simAccount]);
                out ← report sent (MultiSend from coins outputs);
                mret (Some out)
            end
        end
  end.

(** ** The operations a module offers, with their weights *)
Context `{AppParams R} `{Weights}.
Definition operation : Type := Ctx -> list SimAccount -> string -> M W outcome.

Definition oracle_WeightedOperations : M R (list (Z * operation)) :=
  weightPrevote ← GetOrGenerate "op_weight_msg_exchange_rate_aggregate_prevote" (mret (DefaultWeightMsgSend * 2));
  weightVote ← GetOrGenerate "op_weight_msg_exchange_rate_aggregate_vote" (mret (DefaultWeightMsgSend * 2));
  weightConsent ← GetOrGenerate "op_weight_msg_exchange_feed_consent" (mret DefaultWeightMsgSetWithdrawAddress);
  mret [(weightPrevote, SimulateMsgAggregateDoRatePrevote);
        (weightVote, SimulateMsgAggregateDoRateVote);
        (weightConsent, SimulateMsgDelegateFeedConsent)].

(** [SimulateMsgSwapSend] is not among them. *)
Definition market_WeightedOperations : M R (list (Z * operation)) :=
  weightMsgSwap ← GetOrGenerate "op_weight_msg_swap" (mret DefaultWeightMsgSend);
  mret [(weightMsgSwap, SimulateMsgSwap)].

Definition bank_WeightedOperations (fuel : nat) :
    M R (list (Z * (Ctx -> list SimAccount -> string -> M W (option outcome)))) :=
  weightMsgSend ← GetOrGenerate "op_weight_msg_send" (mret DefaultWeightMsgSend);
  weightMsgMultiSend ← GetOrGenerate "op_weight_msg_multisend" (mret DefaultWeightMsgMultiSend);
  mret [(weightMsgSend, SimulateMsgSend fuel); (weightMsgMultiSend, SimulateMsgMultiSend fuel)].
End operations.

(** ** The loop over the outputs *)
Definition has_coins (out : Output) : Prop := out_Coins out <> [].
#[export] Instance has_coins_dec out : Decision (has_coins out).
Proof. unfold has_coins. apply _. Defined.

Lemma insert_middle {X} (l1 l2 : list X) x y : <[length l1 := x]> (l1 ++ y :: l2) = l1 ++ x :: l2.
Proof. rewrite <- (Nat.add_0_r (length l1)), insert_app_r. done. Qed.

Lemma drop_empty_loop fuel : forall l1 l2, (length l2 <= fuel)%nat ->
  exists l', drop_empty fuel (length l1) (l1 ++ l2) = Some l' /\ l' ≡ₚ l1 ++ filter has_coins l2.
Proof.
  induction fuel as [|fuel IH]; intros l1 l2 Hl.
  { destruct l2; [|simpl in Hl; lia]. exists l1. simpl. rewrite !app_nil_r, lookup_ge_None_2 by done. done. }
  destruct l2 as [|out l2].
  { exists l1. simpl. rewrite !app_nil_r, lookup_ge_None_2 by done. done. }
  cbn [drop_empty]. rewrite list_lookup_middle by done. simpl in Hl. case_bool_decide as He.
  - rewrite filter_cons_False by (unfold has_coins; tauto).
    destruct l2 as [|back l2 _] using rev_ind.
    + rewrite last_snoc, insert_middle, removelast_last by done.
      destruct (IH l1 []) as (l' & E & Hp); [simpl; lia|]. rewrite app_nil_r in E. eauto.
    + rewrite length_app in Hl. simpl in Hl.
      replace (l1 ++ out :: l2 ++ [back]) with ((l1 ++ out :: l2) ++ [back]) by by rewrite <- app_assoc.
      rewrite last_snoc, insert_app_l by (rewrite length_app; simpl; lia).
      rewrite insert_middle, removelast_last by done.
      destruct (IH l1 (back :: l2)) as (l' & E & Hp); [simpl; lia|]. exists l'. split; [done|].
      rewrite Hp. apply Permutation_app_head. by rewrite <- Permutation_cons_append.
  - rewrite filter_cons_True by done. destruct (IH (l1 ++ [out]) l2) as (l' & E & Hp); [lia|].
    rewrite length_app, Nat.add_1_r, <- app_assoc in E. rewrite <- app_assoc in Hp. eauto.
Qed.

(** the loop that drops outputs without coins ends after at most as many
    rounds as there are outputs, and leaves exactly the outputs with coins,
    in some order, although it moves the last output into each gap. *)
Theorem empty_outputs_dropped outputs :
  exists kept, drop_empty (length outputs) 0 outputs = Some kept /\ kept ≡ₚ filter has_coins outputs.
Proof. by destruct (drop_empty_loop (length outputs) [] outputs) as (l' & E & Hp); [|eauto]. Qed.

(** ** Steps of an operation *)
Lemma random_ok {R A X} (m : M R X) (w w' : World R A) x :
  random m w = (Ok x, w') ->
  m (w_rand w) = (Ok x, w_rand w') /\ w_app w' = w_app w /\ w_voteHashMap w' = w_voteHashMap w.
Proof. unfold random. destruct (m (w_rand w)) as [r g]. by intros [= -> <-]. Qed.

Lemma attempt_ok {S X} (m : M S X) s s' y : attempt m s = (Ok y, s') ->
  match y with inl x => m s = (Ok x, s') | inr e => m s = (Err e, s') end.
Proof. unfold attempt. destruct (m s) as [[x|e|] s1]; by intros [= <- <-]. Qed.

(** An outcome without a message. *)
Ltac no_message E := exfalso; unfold no_op, failed in E; m_inv E; simplify_eq/=; done.

Section multi_send.
Context {R A Tx B K D : Type} `{Rand R} `{!RandLaws R} `{SimLib R Tx} `{SimApp A Tx B K D}.
Context `{MathOps} `{CoinOps} `{CoinSubOps} `{AddrCodec}.
Context `{!CoinLaws} `{!CoinSubLaws} `{!SimLibLaws R Tx} `{!SimAppLaws A Tx B K D}.
Abbreviation W := (World R A).

Definition outputs_sum (d : string) (outputs : list Output) : Z :=
  Zsum (map (fun out => AmountOf (out_Coins out) d) outputs).

Lemma outputs_sum_perm d l l' : l ≡ₚ l' -> outputs_sum d l = outputs_sum d l'.
Proof. intros Hp. unfold outputs_sum. by rewrite Hp. Qed.

Lemma AmountOf_empty d : CoinsIsValid [] = true -> AmountOf [] d = 0.
Proof. intros Hv. by rewrite AmountOf_sum. Qed.

Lemma outputs_sum_filter d l : Forall (fun out => CoinsIsValid (out_Coins out) = true) l ->
  outputs_sum d (filter has_coins l) = outputs_sum d l.
Proof.
  unfold outputs_sum. induction 1 as [|out l Hv Hl IH]; [done|].
  destruct (decide (has_coins out)) as [Hc|Hc].
  - rewrite filter_cons_True by done. simpl. by rewrite IH.
  - rewrite filter_cons_False by done. simpl. rewrite IH.
    destruct (out_Coins out) eqn:E; [|by destruct Hc; unfold has_coins; rewrite E].
    rewrite AmountOf_empty; [lia|done].
Qed.

Lemma split_outputs_sum n accs : forall coins r outputs r',
  CoinsIsValid coins = true -> split_outputs (S n) accs coins r = (Ok outputs, r') ->
  length outputs = S n /\ Forall (fun out => CoinsIsValid (out_Coins out) = true) outputs /\
  forall d, outputs_sum d outputs = AmountOf coins d.
Proof.
  unfold outputs_sum. induction n as [|n IH]; intros coins r outputs r' Hv E; cbn [split_outputs] in E.
  { m_bind E as acc E1. m_inv E. split_and!; [done|by repeat constructor|]. intros d. simpl. lia. }
  m_bind E as acc E1. m_bind E as part E2. m_lift E as left E3. m_bind E as rest E4. m_inv E.
  apply RandSubset_part in E2 as [Hp Hle]; [|done].
  apply IH in E4 as (Hlen & Hall & Hsum); [|exact (CoinsSub_valid _ _ _ Hv Hp E3)].
  split_and!; [simpl; by rewrite Hlen|by constructor|]. intros d. simpl. rewrite Hsum.
  rewrite (CoinsSub_inv _ _ _ d Hv Hp E3). lia.
Qed.

Lemma other_account_ok fuel accs from : forall to r acc r',
  to ∈ accs -> other_account fuel accs from to r = (Ok (Some acc), r') ->
  acc ∈ accs /\ ac_PubKey from <> ac_PubKey acc.
Proof.
  induction fuel as [|fuel IH]; intros to r acc r' Hto E; cbn [other_account] in E;
    destruct (String.eqb_spec (ac_PubKey from) (ac_PubKey to)) as [Heq|Hne]; m_inv E; try done.
  eapply IH; [|exact E]. by eapply RandomAcc_in.
Qed.

Lemma send_fields_ok fuel accs (w w' : W) from to coins :
  randomSendFields fuel accs w = (Ok (Some (mkSendFields from to coins false)), w') ->
  (from ∈ accs /\ to ∈ accs /\ ac_PubKey from <> ac_PubKey to) /\
  coins <> [] /\ part_of coins (SpendableCoins (w_app w) (ac_Address from)).
Proof.
  unfold randomSendFields. intros E.
  m_bind E as a1 E1. apply random_ok in E1 as (E1 & Ha1 & _). apply RandomAcc_in in E1.
  m_bind E as a2 E2. apply random_ok in E2 as (E2 & Ha2 & _). apply RandomAcc_in in E2.
  m_bind E as to' E3. apply random_ok in E3 as (E3 & Ha3 & _).
  destruct to' as [to'|]; [|by m_inv E]. apply other_account_ok in E3 as [Hin Hne]; [|done].
  m_bind E as w4 E4. m_inv E4. rewrite Ha3, Ha2, Ha1 in E.
  destruct (GetAccount _ _); [|by m_inv E]. m_bind E as cs E5. apply random_ok in E5 as (E5 & _).
  apply RandSubset_part in E5; [|apply spendable_valid].
  case_bool_decide; [by m_inv E|]. m_inv E. by split_and!.
Qed.

Lemma split_dropped n accs coins r outputs r' : CoinsIsValid coins = true -> coins <> [] ->
  split_outputs (S n) accs coins r = (Ok outputs, r') ->
  exists kept, drop_empty (length outputs) 0 outputs = Some kept /\
    (1 <= length kept <= S n)%nat /\ Forall has_coins kept /\
    forall d, outputs_sum d kept = AmountOf coins d.
Proof.
  intros Hv Hne (Hlen & Hall & Hsum)%split_outputs_sum; [|done].
  destruct (drop_empty_loop (length outputs) [] outputs) as (kept & E & Hp); [done|]. exists kept. split; [done|].
  simpl in Hp. assert (forall d, outputs_sum d kept = AmountOf coins d) as Hk.
  { intros d. by rewrite (outputs_sum_perm _ _ _ Hp), outputs_sum_filter. }
  split_and!; try done.
  - destruct kept; [|simpl; lia]. destruct coins as [|c coins]; [done|]. exfalso.
    specialize (Hk (Denom c)). rewrite AmountOf_sum in Hk by done. cbn in Hk. rewrite String.eqb_refl in Hk.
    pose proof (CoinsIsValid_pos _ c Hv ltac:(left)).
    assert (0 <= coins_sum coins (Denom c)); [|lia].
    assert (forall c', c' ∈ coins -> 0 < Amount c') as Hpos by (intros c' Hc'; by apply (CoinsIsValid_pos _ _ Hv); right).
    clear -Hpos. induction coins as [|c' l IH]; simpl; [lia|].
    pose proof (Hpos c' ltac:(left)). specialize (IH ltac:(intros; apply Hpos; by right)). case_match; lia.
  - rewrite (Permutation_length Hp), <- Hlen. apply length_filter.
  - rewrite Hp. apply Forall_forall. by intros out [??]%list_elem_of_filter.
Qed.

(** a simulated multi-send is balanced: whatever the source draws, the
    message gives the recipients in every denomination exactly what it takes
    from the sender, which is a part of what the sender can spend; it has one
    to three outputs and none is empty. *)
Theorem multi_send_conserves fuel ctx accs chainID (w w' : W) out :
  SimulateMsgMultiSend fuel ctx accs chainID w = (Ok (Some out), w') -> forall msg, out.1 = NewOperationMsg msg ->
  exists from coins outputs, msg = MultiSend (AccAddressString (ac_Address from)) coins outputs /\
    from ∈ accs /\ part_of coins (SpendableCoins (w_app w) (ac_Address from)) /\
    (1 <= length outputs <= 3)%nat /\ Forall has_coins outputs /\
    forall d, outputs_sum d outputs = AmountOf coins d.
Proof.
  unfold SimulateMsgMultiSend. intros E msg Hout.
  m_bind E as k E1. apply random_ok in E1 as (E1 & Ha1 & _). apply Intn_range in E1.
  m_bind E as fields E2. destruct fields as [[from to coins skip]|]; [|by m_inv E].
  destruct skip; [no_message E|]. apply send_fields_ok in E2 as ((Hin & _) & Hne & Hpart). rewrite Ha1 in Hpart.
  m_bind E as w2 E3. m_inv E3. destruct (IsSendEnabledCoins _ _); [|no_message E|done].
  m_bind E as outputs E4. apply random_ok in E4 as (E4 & _).
  replace (Z.to_nat (k + 1)) with (S (Z.to_nat k)) in E4 by lia.
  destruct Hpart as [Hv Hle].
  apply split_dropped in E4 as (kept & Ed & Hlen & Hall & Hsum); try done. rewrite Ed in E.
  m_bind E as sent E5. m_bind E as o E6. m_inv E.
  unfold report in E6. destruct sent; [|case_match; no_message E6]. m_inv E6. injection Hout as <-.
  exists from, coins, kept. split_and!; try done; lia.
Qed.
End multi_send.

(** ** Votes that open the prevotes of the simulation *)
Section votes.
Context {R A Tx B K D : Type} `{Rand R} `{SimLib R Tx} `{SimApp A Tx B K D} `{StakingOps K}.
Context `{MathOps} `{CoinOps} `{AddrCodec} `{OracleState.TmHash} `{OracleState.DecCoinParser} `{!SimLibLaws R Tx}.
Abbreviation W := (World R A).

Definition val_printed (val : ValAddress) : Prop := ValAddressFromBech32 (ValAddressString val) = Ok val.

(** What [voteHashMap] holds for a validator is what its prevote commits to. *)
Definition in_step (w : W) : Prop := forall val rates p, val_printed val ->
  w_voteHashMap w !! ValAddressString val = Some rates ->
  OracleState.st_prevotes (app_oracle (w_app w)) !! val = Some p ->
  OracleState.pv_Hash p = OracleState.EncodeToString (OracleState.GetAggregateVoteHash salt rates val).

(** A delivered transaction of one oracle message runs its handler. *)
Definition handled (ctx : Ctx) (msg : Msg) (s s' : OracleState.State B K D) : Prop :=
  match msg with
  | Prevote m => OracleState.AggregateDoRatePrevote_handler ctx m s = (Ok tt, s')
  | Vote m => OracleState.AggregateDoRateVote_handler ctx m s = (Ok tt, s')
  | Consent m => OracleState.DelegateFeedConsent_handler m s = (Ok tt, s')
  | _ => True
  end.
Class OracleDelivery : Type := {
  tx_msgs : Tx -> list Msg;
  signed_msgs msgs fees chainID numbers sequences keys r tx r' :
    GenSignedMockTx msgs fees chainID numbers sequences keys r = (Ok tx, r') -> tx_msgs tx = msgs;
  delivered tx a u a' msg : SimDeliver tx a = (Ok u, a') -> tx_msgs tx = [msg] ->
    exists ctx, handled ctx msg (app_oracle a) (app_oracle a');
  refused tx a e a' : SimDeliver tx a = (Err e, a') ->
    OracleState.st_prevotes (app_oracle a') = OracleState.st_prevotes (app_oracle a);
}.

(** a vote of the simulation is accepted: once the checks of the operation
    are passed, the handler of the oracle accepts the message it builds, when
    the recorded rates are vote targets. *)
Theorem simulated_vote_opens ctx address (w : W) msg v tuples :
  in_step w -> val_printed address ->
  let s := app_oracle (w_app w) in
  Validator (OracleState.st_staking s) address = Ok (Some v) -> IsBonded v = true ->
  AccAddressFromBech32 (AccAddressString (OracleState.GetFeederDelegation s address))
    = Ok (OracleState.GetFeederDelegation s address) ->
  plan_vote ctx address w = Ok (inr msg) ->
  OracleState.ParseDoRateTuples (OracleState.mv_ExchangeRates msg) = Ok tuples ->
  forallb (fun t => OracleState.IsVoteTarget s (OracleState.t_Denom t)) tuples = true ->
  exists s', OracleState.AggregateDoRateVote_handler ctx msg s = (Ok tt, s') /\
    OracleState.st_prevotes s' !! address = None.
Proof.
  intros Hstep Hval s Hv Hb Hf E Ht Htar. unfold plan_vote, OracleState.GetAggregateDoRatePrevote in E. fold s in E.
  destruct (w_voteHashMap w !! ValAddressString address) as [rates|] eqn:Hh; [|done].
  destruct (OracleState.st_prevotes s !! address) as [p|] eqn:Hp; [|done].
  unfold OracleState.div_u64 in E. destruct (Z.eqb_spec (OracleState.p_VotePeriod (OracleState.GetParams s)) 0); [done|].
  simpl in E. destruct (Z.eqb_spec (u64 (u64 (BlockHeight ctx) / OracleState.p_VotePeriod (OracleState.GetParams s) -
    OracleState.pv_SubmitBlock p / OracleState.p_VotePeriod (OracleState.GetParams s))) 1) as [Hper|]; [|done].
  injection E as <-. eexists. split; [apply OracleState.vote_runs|].
  - exists (OracleState.GetFeederDelegation s address), p.
    split_and!; try done; [|by apply (Hstep _ _ _ Hval Hh)].
    unfold OracleState.ValidateFeeder. rewrite String.eqb_refl, andb_false_r, Hv. by rewrite Hb.
  - unfold OracleState.revealed. simpl. apply lookup_delete_eq.
Qed.
Context {delivery : OracleDelivery}.

(** [steady] steps keep the map and the prevotes in step. *)
Definition steady (w w' : W) : Prop := in_step w -> in_step w'.
#[local] Instance steady_preorder : PreOrder steady.
Proof. split; [by intros w Hw|]. intros w1 w2 w3 H12 H23 Hw. auto. Qed.

Lemma steady_same (w w' : W) : w_voteHashMap w' = w_voteHashMap w ->
  (forall val p, OracleState.st_prevotes (app_oracle (w_app w')) !! val = Some p ->
     OracleState.st_prevotes (app_oracle (w_app w)) !! val = Some p) -> steady w w'.
Proof. intros Hh Hp Hs val rates p Hval Hr Hpv. rewrite Hh in Hr. eauto. Qed.

Lemma keeps_random {X} (m : M R X) : keeps steady (random m : M W X).
Proof. intros w x w' (_ & Ha & Hh)%random_ok. apply steady_same; [done|]. by rewrite Ha. Qed.

(** A draw hands what is known of its result to the rest. *)
Lemma keeps_drawn {X Y} (Q : X -> Prop) (m : M R X) (k : X -> M W Y) :
  (forall r x r', m r = (Ok x, r') -> Q x) -> (forall x, Q x -> keeps steady (k x)) ->
  keeps steady (random m ≫= k).
Proof.
  intros Hm Hk w y w' (x & w1 & E1 & E2)%M_bind_ok. etrans; [by eapply keeps_random|].
  apply random_ok in E1 as (E1 & _). eapply Hk; [by eapply Hm|exact E2].
Qed.

Lemma keeps_attempt {X} (m : M R X) : keeps steady (attempt (random m) : M W _).
Proof.
  intros w x w' E. unfold attempt, random in E.
  destruct (m (w_rand w)) as [[y|e|] g] eqn:Em; simplify_eq; by apply steady_same.
Qed.

Lemma keeps_sim_validator address : keeps steady (sim_validator address).
Proof. unfold sim_validator. keeps. Qed.
Lemma keeps_no_op comment : keeps steady (no_op comment).
Proof. apply keeps_ret, _. Qed.
Lemma keeps_failed comment e : keeps steady (failed comment e).
Proof. apply keeps_ret, _. Qed.
Lemma keeps_the_account acc : keeps steady (the_account acc).
Proof. unfold the_account. keeps. Qed.
Hint Resolve keeps_random keeps_attempt keeps_sim_validator keeps_no_op keeps_failed keeps_the_account : keeps.

(** Any oracle message but a prevote leaves the commitments in step. *)
Lemma handled_prevotes ctx msg s s' : handled ctx msg s s' ->
  match msg with
  | Prevote m => exists val p, ValAddressFromBech32 (OracleState.mp_Validator m) = Ok val /\
      OracleState.DecodeString (OracleState.mp_Hash m) = OracleState.DecodeString (OracleState.pv_Hash p) /\
      OracleState.pv_Hash p = OracleState.EncodeToString
        (match OracleState.DecodeString (OracleState.mp_Hash m) with Ok h => h | _ => "" end) /\
      OracleState.st_prevotes s' = <[val := p]> (OracleState.st_prevotes s)
  | Vote _ | Consent _ => forall val p, OracleState.st_prevotes s' !! val = Some p ->
      OracleState.st_prevotes s !! val = Some p
  | _ => True
  end.
Proof.
  destruct msg; simpl; try done.
  - intros (val & f & h & Hv & _ & _ & Hh & ->)%OracleState.prevote_ok. eexists val, _.
    split; [done|]. split; [|split; [|done]]; cbn; by rewrite ?OracleState.hex_decode_encode, Hh.
  - intros (val & ts & _ & ->)%OracleState.vote_ok v p. unfold OracleState.revealed. simpl.
    by intros [_ ?]%lookup_delete_Some.
  - intros E. unfold OracleState.DelegateFeedConsent_handler, OracleState.SetFeederDelegation in E. by m_inv E.
Qed.

(** Delivering: what was signed is handled, or the prevotes are as before. *)
Lemma delivered_step chainID msg fees numbers sequences keys (after : M W unit) (w w' : W) out :
  sign_and_deliver chainID msg fees numbers sequences keys (failed "unable to deliver tx") after w = (Ok out, w') ->
  steady w w' \/ exists w1 w2 ctx, steady w w1 /\ w_voteHashMap w2 = w_voteHashMap w1 /\
    handled ctx msg (app_oracle (w_app w1)) (app_oracle (w_app w2)) /\ after w2 = (Ok tt, w').
Proof.
  intros E. unfold sign_and_deliver in E. apply M_bind_ok in E as (tx & w1 & E1 & E).
  pose proof (keeps_attempt _ _ _ _ E1) as Hs1. apply attempt_ok in E1.
  destruct tx as [tx|e]; [|left; unfold failed in E; by m_inv E].
  apply random_ok in E1 as (E1 & _). apply signed_msgs in E1.
  apply M_bind_ok in E as (d & w2 & E2 & E). unfold attempt, in_app in E2.
  destruct (SimDeliver tx (w_app w1)) as [[u|e|] a'] eqn:Ed; simplify_eq.
  - right. apply (delivered _ _ _ _ _ Ed) in E1 as (ctx & Hh).
    apply M_bind_ok in E as ([] & w3 & E3 & E). m_inv E.
    by exists w1, (mkWorld (w_rand w1) a' (w_voteHashMap w1)), ctx.
  - left. unfold failed in E. m_inv E. etrans; [exact Hs1|].
    apply steady_same; [done|]. cbn. by rewrite (refused _ _ _ _ Ed).
Qed.

Lemma keeps_deliver_other chainID msg fees numbers sequences keys :
  match msg with Vote _ | Consent _ => True | _ => False end ->
  keeps steady (sign_and_deliver chainID msg fees numbers sequences keys (failed "unable to deliver tx")
    (mret tt) : M W outcome).
Proof.
  intros Hm w out w' [Hs|(w1 & w2 & ctx & Hs & Hh & Hd & E)]%delivered_step; [done|].
  etrans; [exact Hs|]. m_inv E. apply handled_prevotes in Hd.
  apply steady_same; [done|]. destruct msg; try done.
Qed.

Lemma keeps_deliver_prevote chainID address rates feeder fees numbers sequences keys :
  val_printed address ->
  keeps steady (sign_and_deliver chainID
      (Prevote (NewMsgAggregateDoRatePrevote (OracleState.GetAggregateVoteHash salt rates address) feeder address))
      fees numbers sequences keys (failed "unable to deliver tx")
      (record_hash (ValAddressString address) rates) : M W outcome).
Proof.
  intros Ha w out w' [Hs|(w1 & w2 & ctx & Hs & Hh & Hd & E)]%delivered_step; [done|].
  etrans; [exact Hs|]. intros Hs1. apply handled_prevotes in Hd as (val & p & Hv & _ & Hp & Hpv).
  simpl in Hv, Hp. rewrite OracleState.hex_decode_encode in Hp.
  rewrite Ha in Hv. injection Hv as <-. unfold record_hash in E. m_inv E.
  intros v r q Hvp Hr Hq. simpl in Hr, Hq. rewrite Hpv in Hq. rewrite Hh in Hr.
  destruct (decide (v = address)) as [->|Hne].
  - rewrite lookup_insert_eq in Hr. rewrite lookup_insert_eq in Hq. by simplify_eq.
  - rewrite lookup_insert_ne in Hq by done. rewrite lookup_insert_ne in Hr; [by eapply Hs1|].
    intros Heq. apply Hne. unfold val_printed in *. rewrite Heq in Ha. congruence.
Qed.

Context `{AppParams R} `{Weights}.

(** A run of the simulation: an operation of the list, or a change of the
    application between two operations that adds no prevote. *)
Inductive sim_step (accs : list SimAccount) (ops : list (Z * operation)) (w w' : W) : Prop :=
| step_operation ctx chainID weight (op : operation) out :
    (weight, op) ∈ ops -> op ctx accs chainID w = (Ok out, w') -> sim_step accs ops w w'
| step_block :
    w_voteHashMap w' = w_voteHashMap w ->
    OracleState.st_prevotes (app_oracle (w_app w')) ⊆ OracleState.st_prevotes (app_oracle (w_app w)) ->
    sim_step accs ops w w'.

Lemma oracle_operations_keep accs ctx chainID : (forall acc, acc ∈ accs -> val_printed (ac_Address acc)) ->
  keeps steady (SimulateMsgAggregateDoRatePrevote ctx accs chainID : M W outcome) /\
  keeps steady (SimulateMsgAggregateDoRateVote ctx accs chainID : M W outcome) /\
  keeps steady (SimulateMsgDelegateFeedConsent ctx accs chainID : M W outcome).
Proof.
  intros Hacc. split_and!.
  - unfold SimulateMsgAggregateDoRatePrevote.
    apply (keeps_drawn (fun acc => acc ∈ accs)); [intros; by eapply RandomAcc_in|]. intros acc Hin.
    keeps. by apply keeps_deliver_prevote, Hacc.
  - unfold SimulateMsgAggregateDoRateVote. keeps. by apply keeps_deliver_other.
  - unfold SimulateMsgDelegateFeedConsent. keeps. by apply keeps_deliver_other.
Qed.

Lemma sim_step_steady accs r ops r' w w' : (forall acc, acc ∈ accs -> val_printed (ac_Address acc)) ->
  oracle_WeightedOperations r = (Ok ops, r') -> sim_step accs ops w w' -> steady w w'.
Proof.
  intros Hacc Eo [ctx chainID weight op out Hin E|Hh Hp].
  - destruct (oracle_operations_keep accs ctx chainID Hacc) as (K1 & K2 & K3).
    unfold oracle_WeightedOperations in Eo. m_bind Eo as w1 E1. m_bind Eo as w2 E2. m_bind Eo as w3 E3. m_inv Eo.
    rewrite !elem_of_cons, elem_of_nil in Hin.
    destruct Hin as [[= -> ->]|[[= -> ->]|[[= -> ->]|[]]]]; [by eapply K1|by eapply K2|by eapply K3].
  - apply steady_same; [done|]. intros val p Hv. by eapply lookup_weaken.
Qed.

(** the commitments of the simulation stay in step with the chain: in
    every run of the oracle's operations, whatever they draw, whether their
    transactions are accepted or refused and whatever blocks do in between,
    [voteHashMap] holds the rates the stored prevotes commit to. *)
Theorem votes_in_step accs r ops r' (w0 w : W) :
  (forall acc, acc ∈ accs -> val_printed (ac_Address acc)) ->
  oracle_WeightedOperations r = (Ok ops, r') ->
  in_step w0 -> rtc (sim_step accs ops) w0 w -> in_step w.
Proof.
  intros Hacc Eo Hw Hrun. induction Hrun as [w|w1 w2 w3 Hs _ IH]; [done|].
  apply IH. by apply (sim_step_steady _ _ _ _ _ _ Hacc Eo Hs).
Qed.
End votes.

(** ** Random genesis states

    [sure m Q]: from every source the draw comes to a result, and it is in [Q]. *)
Definition sure {R X} (m : M R X) (Q : X -> Prop) : Prop :=
  forall r, exists x r', m r = (Ok x, r') /\ Q x.

Section genesis.
Context {R : Type} `{Rand R} `{!RandLaws R} `{AppParams R} `{!NoAppParams R} `{MathOps} `{!MathLaws}.
Context `{CoinOps} `{!CoinLaws}.

Lemma sure_bind {X Y} (m : M R X) (k : X -> M R Y) P Q :
  sure m P -> (forall x, P x -> sure (k x) Q) -> sure (m ≫= k) Q.
Proof.
  intros Hm Hk r. destruct (Hm r) as (x & r1 & E1 & Hx). destruct (Hk x Hx r1) as (y & r2 & E2 & Hy).
  exists y, r2. by rewrite (M_bind_run _ _ _ _ _ E1).
Qed.
Lemma sure_ret {X} (x : X) (Q : X -> Prop) : Q x -> sure (mret x : M R X) Q.
Proof. intros Hq r. by exists x, r. Qed.
Lemma sure_lift {X} (v : res X) x (Q : X -> Prop) : v = Ok x -> Q x -> sure (lift v : M R X) Q.
Proof. intros -> Hq r. by exists x, r. Qed.
Lemma sure_Intn n : 0 < n -> sure (Intn n) (fun k => 0 <= k < n).
Proof. intros Hn r. destruct (Intn_runs n r Hn) as (k & r' & E). exists k, r'. split; [done|by eapply Intn_range]. Qed.
Lemma sure_generate {X} key (m : M R X) Q : sure m Q -> sure (GetOrGenerate key m) Q.
Proof. intros Hm r. rewrite generated. apply Hm. Qed.

(** A number of a range, and a decimal above a bound. *)
Lemma sure_number a n : 0 < n -> sure (k ← Intn n; mret (a + k)) (fun x => a <= x < a + n).
Proof. intros Hn. eapply sure_bind; [by apply sure_Intn|]. intros k Hk. apply sure_ret. simpl in Hk. lia. Qed.

Definition small_draw (a n prec : Z) : bool :=
  (0 <? n) && (n <=? 2 ^ 64) && (0 <=? prec) && (prec <=? 18) && (0 <=? a) && (a <=? 2 ^ 200).

Lemma sure_dec_above a n prec : small_draw a n prec = true ->
  sure (dec_above a n prec) (fun x => a <= x <= a + (n - 1) * 10 ^ (18 - prec)).
Proof.
  unfold small_draw. intros Hd. rewrite !andb_true_iff, !Z.leb_le, Z.ltb_lt in Hd.
  destruct Hd as (((((Hn & Hm) & Hp) & Hp') & Ha) & Ha').
  eapply sure_bind; [by apply sure_Intn|]. intros k Hk. cbv beta in Hk. unfold LegacyNewDecWithPrec.
  assert (1 <= 10 ^ (18 - prec) <= 10 ^ 18) by (split; [apply (Z.pow_le_mono_r 10 0)|apply Z.pow_le_mono_r]; lia).
  eapply sure_lift; [apply DecAdd_ok; unfold dec_safe|simpl; nia].
  assert (0 <= k * 10 ^ (18 - prec) <= 2 ^ 64 * 10 ^ 18) by nia. lia.
Qed.

(** Constants as numbers, and comparisons that the ranges decide. *)
Ltac constants :=
  unfold LegacyOneDec, LegacyZeroDec, LegacyNewDecWithPrec, LegacyNewDec, Precision in *;
  repeat match goal with
  | H : context [10 ^ ?e] |- _ => let v := eval vm_compute in (10 ^ e) in change (10 ^ e) with v in H
  | |- context [10 ^ ?e] => let v := eval vm_compute in (10 ^ e) in change (10 ^ e) with v
  end.
Ltac in_bounds :=
  repeat match goal with
  | |- context [?a =? ?b] => rewrite (proj2 (Z.eqb_neq a b)) by lia
  | |- context [?a <=? ?b] => rewrite (proj2 (Z.leb_gt a b)) by lia
  | |- context [?a <? ?b] => rewrite (proj2 (Z.ltb_ge a b)) by lia
  end; try reflexivity.

(** One generator after the other. *)
Ltac draw :=
  eapply sure_bind; [apply sure_generate;
    first [apply sure_number; reflexivity|apply sure_dec_above; vm_compute; reflexivity]|intros ? ?; cbv beta in *].

(** a random genesis of the oracle is always valid: the generators come to
    a result from every source, and the state passes both validations of the
    parameters; the shortest windows just reach the longest vote period. *)
Theorem random_oracle_genesis_valid :
  sure oracle_RandomizedGenState (fun g => OracleState.ValidateGenesis g = Ok tt /\
    forallb is_ok (OracleState.ParamSetPairs (OracleState.g_Params g)) = true).
Proof.
  unfold oracle_RandomizedGenState.
  repeat draw. apply sure_ret.
  unfold OracleState.ValidateGenesis, OracleState.Validate, OracleState.ParamSetPairs, OracleState.validateVotePeriod,
    OracleState.validateVoteThreshold, OracleState.validateRewardBand, OracleState.validateRewardDistributionWindow,
    OracleState.validateSlashFraction, OracleState.validateSlashWindow, OracleState.validateMinValidPerWindow,
    OracleState.validateWhitelist, OracleState.outside_unit. constants.
  split; cbn -[Z.leb Z.ltb Z.eqb]; in_bounds.
Qed.

(** a random genesis of the market is always valid. *)
Theorem random_market_genesis_valid :
  sure market_RandomizedGenState (fun g => Market.ValidateGenesis g = Ok tt /\
    forallb is_ok (Market.ParamSetPairs (Market.GenParams g)) = true).
Proof.
  unfold market_RandomizedGenState. eapply sure_bind.
  { apply sure_generate. eapply sure_bind; [by apply sure_Intn|]. intros k Hk. cbv beta in Hk.
    eapply (sure_lift _ _ (fun x => 0 <= x)); [apply DecAdd_ok; unfold dec_safe|]; unfold LegacyNewDec, Precision; lia. }
  intros pool Hpool. cbv beta in Hpool. repeat draw. apply sure_ret.
  unfold Market.ValidateGenesis, Market.Validate, Market.ParamSetPairs, Market.validateBasePool,
    Market.validatePoolRecoveryPeriod, Market.validateMinStabilitySpread. constants.
  split; cbn -[Z.leb Z.ltb Z.eqb]; in_bounds.
Qed.

Lemma sure_policy cap c : cap = Ok c ->
  sure (random_policy cap) (fun pol => Treasury.RateMin pol <= Treasury.RateMax pol).
Proof.
  intros Hc. unfold random_policy. eapply sure_bind; [by apply sure_Intn|]. intros a Ha.
  eapply sure_bind; [by apply sure_Intn|]. intros b Hb. cbv beta in *.
  eapply sure_bind; [eapply (sure_lift _ _ (eq _)); [apply DecAdd_ok; unfold dec_safe|reflexivity]|].
  { constants. lia. }
  intros ? <-. eapply sure_bind; [eapply (sure_lift _ c (fun _ => True)); done|]. intros c' _.
  eapply sure_bind; [apply sure_dec_above; by vm_compute|]. intros d _. apply sure_ret. cbn. constants. lia.
Qed.

(** no random genesis of the treasury is valid: the generators come to a
    result, but it leaves the splits and the deposit ratio unset; validating
    it does not succeed, and setting its parameters panics.  The windows
    alone can be wrong too: both can be twelve. *)
Theorem random_treasury_genesis_invalid {B K D O : Type} (s : Treasury.State B K D O) :
  sure treasury_RandomizedGenState (fun g => is_ok (Treasury.ValidateGenesis g) = false /\
    Treasury.SetParams (Treasury.gs_Params g) s = (Panic, s)).
Proof.
  unfold treasury_RandomizedGenState.
  eapply sure_bind; [apply sure_generate; eapply sure_policy, NewCoin_ok; [by apply ValidDenom_word|done]|]. intros tax Htax.
  eapply sure_bind; [apply sure_generate; eapply sure_policy, NewCoin_ok; [by apply ValidDenom_word|done]|]. intros rew Hrew.
  eapply sure_bind; [apply sure_generate; eapply sure_bind; [by apply sure_Intn|intros; by apply (sure_ret _ (fun _ => True))]|]. intros bt _.
  eapply sure_bind; [apply sure_generate; eapply sure_bind; [by apply sure_Intn|intros; by apply (sure_ret _ (fun _ => True))]|]. intros mi _.
  repeat draw. apply sure_ret. split.
  - unfold Treasury.ValidateGenesis, Treasury.Validate. cbn. repeat (case_match; [done|]). done.
  - unfold Treasury.SetParams, Treasury.ParamSetPairs. cbn. by rewrite !andb_false_r.
Qed.
End genesis.

Section bank_genesis.
Context {R : Type} `{Rand R} `{!RandLaws R} `{AppParams R} `{!NoAppParams R} `{MathOps}.
Context `{CoinOps} `{!CoinLaws} `{!NewCoinsLaws} `{IntMulOps} `{!IntMulLaws} `{AddrCodec}.

Lemma bond_twice_panics x y : 0 < x -> 0 < y -> bond_twice x y = Panic.
Proof.
  intros Hx Hy. unfold bond_twice.
  rewrite !NewCoin_ok by (try apply ValidDenom_word; done || lia). simpl. apply NewCoins_duplicate.
  rewrite !filter_cons_True by (simpl; lia). cbn. intros [Hn _]%NoDup_cons. apply Hn. by left.
Qed.

(** the random genesis of the bank always panics: the balances and the
    supply are made of two coins of the same denomination, which [NewCoins]
    refuses.  No simulation with accounts and a stake gets past it. *)
Theorem random_bank_genesis_panics accounts initialStake numBonded r :
  accounts <> [] -> 0 < initialStake -> 0 <= numBonded ->
  exists r', bank_RandomizedGenState accounts initialStake numBonded r = (Panic, r').
Proof.
  intros Hacc Hst Hnb. unfold bank_RandomizedGenState.
  erewrite M_bind_run by (rewrite generated; reflexivity).
  destruct (sure_generate "DefaultSendEnabled" _ _ (sure_bind _ _ _ (fun _ => True) (sure_Intn 2 ltac:(lia))
    (fun k _ => sure_ret (k =? 1) _ I)) r) as (b & r1 & E & _).
  rewrite (M_bind_run _ _ _ _ _ E). destruct accounts as [|a accounts]; [done|].
  set (n := Z.of_nat (length (a :: accounts))). assert (0 < n) by (subst n; simpl; lia).
  destruct (IntMul initialStake (n + numBonded)) as [x|e|] eqn:E1;
    [|by apply IntMul_no_error in E1|exists r1; by apply M_bind_panic].
  erewrite (M_bind_run (lift (Ok x))) by done. apply IntMul_inv in E1.
  destruct (IntMul initialStake n) as [y|e|] eqn:E2;
    [|by apply IntMul_no_error in E2|exists r1; by apply M_bind_panic].
  erewrite (M_bind_run (lift (Ok y))) by done. apply IntMul_inv in E2.
  exists r1. apply M_bind_panic. unfold lift. rewrite bond_twice_panics by nia. done.
Qed.
End bank_genesis.

(** ** Sends and swaps *)
Section swaps.
Context {R A Tx B K D : Type} `{Rand R} `{SimLib R Tx} `{SimApp A Tx B K D}.
Context `{MathOps} `{!MathLaws} `{CoinOps} `{CoinSubOps} `{AddrCodec}.
Context `{!CoinLaws} `{!SimLibLaws R Tx} `{!SimAppLaws A Tx B K D}.
Abbreviation W := (World R A).

Lemma other_account_stuck fuel accs from : forall to r x r',
  (forall acc, acc ∈ accs -> ac_PubKey acc = ac_PubKey from) -> ac_PubKey to = ac_PubKey from ->
  other_account fuel accs from to r = (Ok x, r') -> x = None.
Proof.
  induction fuel as [|fuel IH]; intros to r x r' Hall Hto E; cbn [other_account] in E;
    rewrite Hto, String.eqb_refl in E; m_inv E; [done|].
  eapply IH; [done| |exact E]. apply Hall. by eapply RandomAcc_in.
Qed.

(** a simulated send between accounts of one key never ends: the loop that
    draws a recipient with another key is still running after any number of
    draws, so neither a send nor a multi-send comes to an outcome. *)
Theorem lonely_send_never_ends ctx accs chainID key (w w' : W) out :
  (forall acc, acc ∈ accs -> ac_PubKey acc = key) -> forall fuel,
  (SimulateMsgSend fuel ctx accs chainID w = (Ok out, w') -> out = None) /\
  (SimulateMsgMultiSend fuel ctx accs chainID w = (Ok out, w') -> out = None).
Proof.
  intros Hall fuel.
  assert (forall w1 w2 (x : option SendFields), randomSendFields fuel accs w1 = (Ok x, w2) -> x = None) as Hno.
  { intros w1 w2 x E. unfold randomSendFields in E.
    m_bind E as a1 E1. apply random_ok in E1 as (E1 & _). apply RandomAcc_in in E1.
    m_bind E as a2 E2. apply random_ok in E2 as (E2 & _). apply RandomAcc_in in E2.
    m_bind E as to E3. apply random_ok in E3 as (E3 & _). apply other_account_stuck in E3 as ->; [by m_inv E|..].
    - intros acc Hacc. by rewrite !Hall.
    - by rewrite !Hall. }
  split; intros E.
  - unfold SimulateMsgSend in E. m_bind E as f E1. apply Hno in E1 as ->. by m_inv E.
  - unfold SimulateMsgMultiSend in E. m_bind E as k E0. m_bind E as f E1. apply Hno in E1 as ->. by m_inv E.
Qed.

Lemma sent_message chainID msg fees numbers sequences keys after (w w' : W) out m :
  sign_and_deliver chainID msg fees numbers sequences keys (failed "unable to deliver tx") after w = (Ok out, w') ->
  out.1 = NewOperationMsg m -> m = msg.
Proof.
  intros E Hm. unfold sign_and_deliver in E. m_bind E as tx E1.
  destruct tx as [tx|e]; [|no_message E]. m_bind E as d E2. destruct d as [u|e]; [|no_message E].
  m_bind E as v E3. m_inv E. by injection Hm.
Qed.

Lemma random_amount_ok spendable fees d r x r' : part_of fees spendable ->
  random_amount spendable fees d r = (Ok x, r') -> 0 <= x /\ x + AmountOf fees d <= AmountOf spendable d.
Proof.
  intros [_ Hle] E. unfold random_amount in E. m_lift E as bound Eb. apply IntSub_inv in Eb. specialize (Hle d).
  apply RandomAmount_range in E; lia.
Qed.

Lemma swap_denoms_ok whitelist k offer ask : 0 <= k ->
  swap_denoms whitelist k = Ok (offer, ask) ->
  (offer = MicroDoDenom /\ ask ∈ whitelist) \/ (ask = MicroDoDenom /\ offer ∈ whitelist).
Proof.
  intros Hk. unfold swap_denoms. case_match; case_match eqn:E; intros; simplify_eq;
    apply list_elem_of_lookup_2 in E; auto.
Qed.

(** a simulated swap is well formed: it is between [udo] and a denomination
    with an exchange rate, offers a positive amount within what the fees
    leave of the sender's spendable coins, and passes the validation of the
    message, unless [udo] itself has an exchange rate. *)
Theorem simulated_swap_valid ctx accs chainID (w w' : W) out msg :
  SimulateMsgSwap ctx accs chainID w = (Ok out, w') -> out.1 = NewOperationMsg msg ->
  exists acc offer ask fees,
    msg = Swap (Market.mkMsgSwap (AccAddressString (ac_Address acc)) offer ask) /\ acc ∈ accs /\
    let rated := map fst (OracleState.IterateDoExchangeRates (app_oracle (w_app w))) in
    (Denom offer = MicroDoDenom /\ ask ∈ rated \/ ask = MicroDoDenom /\ Denom offer ∈ rated) /\
    part_of fees (SpendableCoins (w_app w) (ac_Address acc)) /\
    0 < Amount offer /\
    Amount offer + AmountOf fees (Denom offer) <= AmountOf (SpendableCoins (w_app w) (ac_Address acc)) (Denom offer) /\
    (MicroDoDenom ∉ rated -> is_ok (AccAddressFromBech32 (AccAddressString (ac_Address acc))) = true ->
     bit_len (Amount offer) <= 100 ->
     Market.MsgSwap_ValidateBasic (Market.mkMsgSwap (AccAddressString (ac_Address acc)) offer ask) = Ok tt).
Proof.
  intros E Hout. unfold SimulateMsgSwap in E.
  m_bind E as acc E1. apply random_ok in E1 as (E1 & Ha1 & _). apply RandomAcc_in in E1.
  m_bind E as w2 E2. m_inv E2. m_bind E as fees E3. destruct fees as [fees|e]; [|no_message E].
  apply attempt_ok, random_ok in E3 as (E3 & Ha3 & _). apply RandomFees_part in E3; [|apply spendable_valid].
  case_match; [no_message E|]. m_bind E as k E4. apply random_ok in E4 as (E4 & Ha4 & _).
  apply RandIntBetween_range in E4. m_lift E as [od ad] E5. apply swap_denoms_ok in E5; [|lia]. cbn in E.
  m_bind E as amount E6. apply random_ok in E6 as (E6 & _). apply random_amount_ok in E6 as [Hpos Hle]; [|done].
  destruct (Z.eqb_spec amount 0); [no_message E|]. m_lift E as offer E7. apply NewCoin_inv in E7 as (-> & _ & _).
  m_bind E as account E8. apply sent_message with (m := msg) in E as ->; [|done]. rewrite Ha1 in *.
  exists acc, (mkCoin od amount), ad, fees. cbv zeta. split_and!; try done; [cbn; lia|].
  intros Hno Haddr Hbits. unfold Market.MsgSwap_ValidateBasic. cbn in *.
  destruct (AccAddressFromBech32 _); try done.
  rewrite (proj2 (Z.leb_gt _ _)), (proj2 (Z.ltb_ge _ _)) by lia. cbn.
  destruct (String.eqb_spec od ad) as [->|]; [|done]. destruct E5 as [[-> ?]|[-> ?]]; done.
Qed.

(** a swap-send of a denomination that cannot be sent panics: the operation
    asks a nil error for its text.  While sending is switched off for every
    denomination it reports nothing but missing fees or rates. *)
Theorem disabled_swap_send_panics ctx accs chainID (w w' : W) out :
  (forall d, IsSendEnabledCoin (w_app w) d = false) ->
  SimulateMsgSwapSend ctx accs chainID w = (Ok out, w') ->
  out = (NoOpMsg "no available exchange rates", None) \/
  exists e, out = (NoOpMsg "unable to generate fees", Some e).
Proof.
  intros Hoff E. unfold SimulateMsgSwapSend in E.
  m_bind E as a1 E1. apply random_ok in E1 as (_ & Ha1 & _).
  m_bind E as a2 E2. apply random_ok in E2 as (_ & Ha2 & _).
  m_bind E as w3 E3. m_inv E3. m_bind E as fees E4. destruct fees as [fees|e].
  - case_match; [unfold no_op in E; m_inv E; by left|].
    m_bind E as k E5. m_lift E as [offer ask] E6. cbn in E. rewrite Ha2, Ha1, Hoff in E. done.
  - unfold failed in E. m_inv E. right. by eexists.
Qed.
End swaps.

(** ** Examples: a source that counts, and an application that is the oracle *)
Module Example.
#[export] Instance counting : Rand Z := fun n seed =>
  if n <=? 0 then (Panic, seed) else (Ok (seed mod n), seed + 1).
#[export] Instance counting_laws : RandLaws Z.
Proof.
  split; unfold Intn, counting.
  - intros n r k r'. destruct (Z.leb_spec n 0); [done|]. intros [= <- _]. apply Z.mod_pos_bound. lia.
  - intros n r Hn. rewrite (proj2 (Z.leb_gt n 0)) by lia. eauto.
Qed.
#[export] Instance weights : Weights := {|
  DefaultWeightMsgSend := 100; DefaultWeightMsgMultiSend := 10; DefaultWeightMsgSetWithdrawAddress := 50;
|}.
#[export] Instance no_file : AppParams Z := fun A key gen => gen.
#[export] Instance no_file_laws : NoAppParams Z.
Proof. done. Qed.

Definition pick (accs : list SimAccount) : M Z SimAccount :=
  k ← Intn (Z.of_nat (length accs));
  match accs !! Z.to_nat k with Some acc => mret acc | None => panic end.
Definition some_coins (cs : list Coin) : M Z (list Coin) :=
  k ← Intn 2; mret (if k =? 0 then [] else cs).

#[export] Instance sim_lib : SimLib Z (list Msg) := {|
  RandomAcc := pick;
  RandIntBetween min max := k ← Intn (max - min); mret (min + k);
  RandomAmount bound := Intn (bound + 1);
  RandomFees _ _ := mret [];
  RandSubsetCoins := some_coins;
  GenSignedMockTx msgs _ _ _ _ _ := mret msgs;
  DecString _ := "10";
  ErrorContains _ _ := false;
|}.
#[export] Instance sim_lib_laws : SimLibLaws Z (list Msg).
Proof.
  assert (forall cs, CoinsIsValid cs = true -> part_of [] cs) as Hempty.
  { intros cs Hv. split; [done|]. intros d. by apply (AmountOf_nonneg cs d). }
  split; cbn -[Intn].
  - intros accs r acc r' E. unfold pick in E. m_bind E as k E1. destruct (accs !! _) eqn:E2; m_inv E.
    by apply list_elem_of_lookup_2 in E2.
  - intros min max r k r' E. m_bind E as j E1. apply Intn_range in E1. m_inv E. lia.
  - intros bound r k r' Hb E. apply Intn_range in E. lia.
  - intros _ cs r fees r' Hv E. m_inv E. by apply Hempty.
  - intros cs r part r' Hv E. unfold some_coins in E. m_bind E as k E1. m_inv E.
    case_match; [by apply Hempty|]. by split.
Qed.

Definition run_msg (m : M OracleState.Example.St unit) : M OracleState.Example.St unit := fun a =>
  match m a with (Ok _, a') => (Ok tt, a') | (r, _) => (r, a) end.
#[local] Existing Instances OracleState.Example.parser OracleState.Example.hash.
Definition run_tx (tx : list Msg) : M OracleState.Example.St unit :=
  match tx with
  | [Prevote m] => run_msg (OracleState.AggregateDoRatePrevote_handler (OracleState.Example.at_height 5) m)
  | [Vote m] => run_msg (OracleState.AggregateDoRateVote_handler (OracleState.Example.at_height 15) m)
  | [Consent m] => run_msg (OracleState.DelegateFeedConsent_handler m)
  | _ => mret tt
  end.

#[export] Instance sim_app :
    SimApp OracleState.Example.St (list Msg) ledger (list ref_validator) (list (string * list DecCoin)) := {|
  app_oracle a := a;
  GetAccount _ _ := Some (mkAccountI 1 0);
  SpendableCoins _ _ := [mkCoin "udo" 500];
  IsSendEnabledCoins _ _ := Ok tt;
  IsSendEnabledCoin _ _ := false;
  SimDeliver := run_tx;
|}.
#[export] Instance sim_app_laws :
  SimAppLaws OracleState.Example.St (list Msg) ledger (list ref_validator) (list (string * list DecCoin)).
Proof. done. Qed.

Lemma run_msg_ok m a u a' : run_msg m a = (Ok u, a') -> m a = (Ok tt, a').
Proof. unfold run_msg. destruct (m a) as [[[]|e|] a1]; naive_solver. Qed.
Lemma run_msg_err m a e a' : run_msg m a = (Err e, a') -> a' = a.
Proof. unfold run_msg. destruct (m a) as [[[]|e'|] a1]; naive_solver. Qed.

#[export] Instance sim_delivery : OracleDelivery
  (R := Z) (A := OracleState.Example.St) (Tx := list Msg) (K := list ref_validator).
Proof.
  refine {| tx_msgs := fun tx => tx |}.
  - by intros msgs fees chainID numbers sequences keys r tx r' [= <- _].
  - intros tx a u a' msg E ->. exists (match msg with Vote _ => OracleState.Example.at_height 15
                                       | _ => OracleState.Example.at_height 5 end).
    destruct msg; cbn in *; try done; by apply run_msg_ok in E.
  - intros tx a e a' E. destruct tx as [|[] [|? ?]]; cbn in E; try done; by apply run_msg_err in E as ->.
Defined.

#[export] Instance int_mul : IntMulOps := fun a b => fit 256 (a * b).
#[export] Instance int_mul_laws : IntMulLaws.
Proof. split; unfold IntMul, int_mul; intros a b x E; [by apply fit_inv in E|]. unfold fit in E. by case_match. Qed.

Lemma insert_coin_perm c cs : insert_coin c cs ≡ₚ c :: cs.
Proof. induction cs as [|c' cs IH]; [done|]. simpl. case_match; [done..|]. rewrite IH. apply Permutation_swap. Qed.
Lemma nonzero_filter cs : nonzero cs = filter (fun c => Amount c <> 0) cs.
Proof.
  induction cs as [|c cs IH]; [done|]. unfold nonzero in *. cbn [List.filter]. rewrite IH.
  destruct (Z.eqb_spec (Amount c) 0); cbn [negb].
  - by rewrite filter_cons_False by lia.
  - by rewrite filter_cons_True by lia.
Qed.
#[export] Instance new_coins_laws : NewCoinsLaws.
Proof.
  intros cs Hd. cbn. unfold checked, coins_ok. rewrite nonzero_filter.
  assert (foldr insert_coin [] (filter (fun c => Amount c <> 0) cs) ≡ₚ filter (fun c => Amount c <> 0) cs) as Hp.
  { clear Hd. induction (filter _ cs) as [|c l IH]; [done|]. cbn. by rewrite insert_coin_perm, IH. }
  rewrite bool_decide_eq_false_2; [by rewrite andb_false_r|]. by rewrite Hp.
Qed.

(** Two accounts of different keys; the first is a validator. *)
Definition ann : SimAccount := mkSimAccount "val" "k1" "p1".
Definition bob : SimAccount := mkSimAccount "bob" "k2" "p2".
Definition world (seed : Z) (a : OracleState.Example.St) (hashes : gmap string string) : World Z OracleState.Example.St :=
  mkWorld seed a hashes.
Definition people : list SimAccount := [ann; bob].
Definition now : Ctx := OracleState.Example.at_height 5.
Definition rated : OracleState.Example.St :=
  OracleState.on_rates (fun _ => {["uusd" := Precision]}) OracleState.Example.s0.
Definition multi : Msg := MultiSend "do1bob" [mkCoin "udo" 500] [mkOutput "do1val" [mkCoin "udo" 500]].
Definition quiet : outcome := (NoOpMsg "no available exchange rates", None).
Definition swap : Msg := Swap (Market.mkMsgSwap "do1bob" (mkCoin "udo" 3) "uusd").

(** After the prevote of [OracleState.Example], with its rates recorded. *)
Definition voting : World Z OracleState.Example.St :=
  world 0 (OracleState.on_prevotes (fun _ => {["val" := OracleState.mkPrevote
    (OracleState.EncodeToString (OracleState.GetAggregateVoteHash salt "10uusd" "val")) "dovaloper1val" 5]})
    OracleState.Example.s0) {["dovaloper1val" := "10uusd"]}.

Lemma val_printed_all a : val_printed a.
Proof. apply strip_print. Qed.
Lemma voting_in_step : in_step voting.
Proof.
  intros val rates p _ Hr Hp. cbn in Hr, Hp. apply lookup_singleton_Some in Hr as [Hv <-].
  apply lookup_singleton_Some in Hp as [<- <-]. reflexivity.
Qed.
Lemma start_in_step seed : in_step (world seed OracleState.Example.s0 ∅).
Proof. intros val rates p _ Hr. cbn in Hr. by rewrite lookup_empty in Hr. Qed.
End Example.
#[local] Existing Instances Example.weights Example.counting Example.counting_laws Example.no_file Example.no_file_laws
  Example.sim_lib Example.sim_lib_laws OracleState.Example.parser OracleState.Example.hash Example.sim_app
  Example.sim_app_laws Example.sim_delivery Example.int_mul Example.int_mul_laws Example.new_coins_laws.

Lemma multi_send_conserves_witness :
  exists from coins outputs, Example.multi = MultiSend (AccAddressString (ac_Address from)) coins outputs /\
    from ∈ Example.people /\ (1 <= length outputs <= 3)%nat /\
    forall d, outputs_sum d outputs = AmountOf coins d.
Proof.
  destruct (multi_send_conserves 5 Example.now Example.people "test" (Example.world 8 OracleState.Example.s0 ∅)
    (SimulateMsgMultiSend 5 Example.now Example.people "test" (Example.world 8 OracleState.Example.s0 ∅)).2
    (NewOperationMsg Example.multi, None)) with (msg := Example.multi)
    as (from & coins & outputs & Hm & Hin & _ & Hl & _ & Hs); [apply run_eq; vm_compute; reflexivity|reflexivity|].
  exists from, coins, outputs. split; [exact Hm|]. split; [exact Hin|]. split; [exact Hl|exact Hs].
Defined.

Lemma simulated_vote_opens_witness :
  exists s', OracleState.AggregateDoRateVote_handler (OracleState.Example.at_height 15)
      (OracleState.mkMsgVote salt "10uusd" "do1val" "dovaloper1val") (app_oracle (w_app Example.voting)) = (Ok tt, s') /\
    OracleState.st_prevotes s' !! "val" = None.
Proof.
  refine (simulated_vote_opens (OracleState.Example.at_height 15) "val" Example.voting
    (OracleState.mkMsgVote salt "10uusd" "do1val" "dovaloper1val") (validator_of (mkRefValidator "val" 10 true false))
    [OracleState.mkDoRateTuple "uusd" (10 * Precision)] Example.voting_in_step (Example.val_printed_all "val") _ _ _ _ _ _).
  all: vm_compute; reflexivity.
Defined.

Lemma votes_in_step_witness : exists w : World Z OracleState.Example.St,
  in_step w /\ w_voteHashMap w !! "dovaloper1val" = Some "10udo" /\
  is_Some (OracleState.st_prevotes (app_oracle (w_app w)) !! "val").
Proof.
  exists (SimulateMsgAggregateDoRatePrevote Example.now Example.people "test"
    (Example.world 0 OracleState.Example.s0 ∅)).2.
  split; [|split; [vm_compute; reflexivity|eexists; vm_compute; reflexivity]].
  eapply (votes_in_step Example.people 0 _ 0 (Example.world 0 OracleState.Example.s0 ∅));
    [intros acc _; apply Example.val_printed_all|reflexivity|apply Example.start_in_step|].
  eapply rtc_once, (step_operation _ _ _ _ Example.now "test"); [left|apply run_eq; vm_compute; reflexivity].
Defined.

Lemma random_oracle_genesis_valid_witness :
  exists g seed, oracle_RandomizedGenState 7 = (Ok g, seed) /\ OracleState.ValidateGenesis g = Ok tt.
Proof.
  destruct (random_oracle_genesis_valid 7) as (g & seed & E & Hv & _). exists g, seed. split; [exact E|exact Hv].
Defined.

Lemma random_market_genesis_valid_witness :
  exists g seed, market_RandomizedGenState 7 = (Ok g, seed) /\ Market.ValidateGenesis g = Ok tt.
Proof.
  destruct (random_market_genesis_valid 7) as (g & seed & E & Hv & _). exists g, seed. split; [exact E|exact Hv].
Defined.

Lemma random_treasury_genesis_invalid_witness :
  exists g seed, treasury_RandomizedGenState 7 = (Ok g, seed) /\ is_ok (Treasury.ValidateGenesis g) = false.
Proof.
  destruct (random_treasury_genesis_invalid Treasury.Example.s0 7) as (g & seed & E & Hv & _).
  exists g, seed. split; [exact E|exact Hv].
Defined.

Lemma random_bank_genesis_panics_witness :
  exists seed, bank_RandomizedGenState Example.people 100 1 7 = (Panic, seed).
Proof. apply (random_bank_genesis_panics Example.people 100 1 7); [discriminate|reflexivity|discriminate]. Defined.

Lemma lonely_send_never_ends_witness :
  (SimulateMsgSend 9 Example.now [Example.ann] "test" (Example.world 0 OracleState.Example.s0 ∅)).1 = Ok None.
Proof.
  destruct (SimulateMsgSend 9 Example.now [Example.ann] "test" (Example.world 0 OracleState.Example.s0 ∅))
    as [r w'] eqn:E. destruct r as [out|e|]; [|vm_compute in E; discriminate E..]. cbn. f_equal.
  destruct (lonely_send_never_ends Example.now [Example.ann] "test" "k1" (Example.world 0 OracleState.Example.s0 ∅) w' out)
    with (fuel := 9%nat) as [Hs _]; [by intros acc ->%list_elem_of_singleton|]. exact (Hs E).
Defined.

Lemma simulated_swap_valid_witness :
  exists acc offer ask, Example.swap = Swap (Market.mkMsgSwap (AccAddressString (ac_Address acc)) offer ask) /\
    0 < Amount offer.
Proof.
  destruct (simulated_swap_valid Example.now Example.people "test" (Example.world 1 Example.rated ∅)
    (SimulateMsgSwap Example.now Example.people "test" (Example.world 1 Example.rated ∅)).2
    (NewOperationMsg Example.swap, None) Example.swap) as (acc & offer & ask & fees & Hm & _ & _ & _ & Hp & _);
    [apply run_eq; vm_compute; reflexivity|reflexivity|].
  exists acc, offer, ask. split; [exact Hm|exact Hp].
Defined.

Lemma disabled_swap_send_panics_witness :
  (SimulateMsgSwapSend Example.now Example.people "test" (Example.world 0 Example.rated ∅)).1 = Panic /\
  (Example.quiet = (NoOpMsg "no available exchange rates", None) \/
   exists e, Example.quiet = (NoOpMsg "unable to generate fees", Some e)).
Proof.
  split; [vm_compute; reflexivity|].
  apply (disabled_swap_send_panics Example.now Example.people "test" (Example.world 0 OracleState.Example.s0 ∅)
    (SimulateMsgSwapSend Example.now Example.people "test" (Example.world 0 OracleState.Example.s0 ∅)).2);
    [reflexivity|apply run_eq; vm_compute; reflexivity].
Defined.
