(* ===== verification/Columns.v ===== *)
(** * The states of the modules on the bytes of their stores

    A module keeps its state in one store of byte strings.  The keepers write
    every part of it under a prefix byte of its own, with keys built from a
    denomination, an address or an epoch, and values encoded as protocol
    buffers.  The other files model such a part as a map of its own; this file
    says what it means that a store keeps a map in a column ([kept]), and that
    [Get], [Set], [Delete] and the iterators of the SDK on the bytes are
    lookup, insertion, deletion and iteration of the map.  [OracleStore.v] and
    [TreasuryStore.v] use it to show that the keepers on bytes implement the
    states of [OracleState.v] and [Treasury.v]. *)
From stdpp Require Import base gmap sets list strings fin_maps sorting.
From Stdlib Require Import ZArith Lia.
From S2P Require Import Prelude SdkRef.
From S2P Require Import WasmKeys.
#[local] Open Scope Z_scope.

(** ** Texts as bytes *)
Abbreviation text := wasmtypes.text.
Definition string_of (b : bytes) : string :=
  String.string_of_list_ascii (map (fun c => Ascii.ascii_of_nat (Z.to_nat c)) b).

Lemma string_of_text s : string_of (text s) = s.
Proof.
  unfold string_of, wasmtypes.text. rewrite map_map. etrans; [|apply String.string_of_list_ascii_of_string].
  f_equal. etrans; [|apply map_id]. apply map_ext. intros a. by rewrite Nat2Z.id, Ascii.ascii_nat_embedding.
Qed.
Lemma text_inj s t : text s = text t -> s = t.
Proof. intros E. by rewrite <- (string_of_text s), E, string_of_text. Qed.
Lemma text_bytes s : Forall is_byte (text s).
Proof.
  unfold wasmtypes.text. apply Forall_map, Forall_true. intros a. unfold is_byte.
  pose proof (Ascii.nat_ascii_bounded a). lia.
Qed.
Lemma length_text s : length (text s) = String.length s.
Proof. unfold wasmtypes.text. rewrite length_map. by induction s; simpl; f_equal. Qed.

Lemma Compare_text s t : Compare (text s) (text t) = String.compare s t.
Proof.
  revert t. induction s as [|a s IH]; intros [|b t]; try done. cbn. unfold wasmtypes.text in IH.
  rewrite IH. unfold Ascii.compare, Ascii.nat_of_ascii. by rewrite !N_nat_Z, N2Z.inj_compare.
Qed.
Lemma leb_text s t : bytes_leb (text s) (text t) = String.leb s t.
Proof. unfold bytes_leb, String.leb. by rewrite Compare_text. Qed.

(** ** Values

    A codec encodes the values that fit its type, and reads back what it
    wrote; [MustUnmarshal] panics on other bytes. *)
Record codec (X : Type) : Type := mkCodec {
  MustMarshal : X -> bytes;
  Unmarshal : bytes -> option X;
  fits : X -> Prop;
  read_back x : fits x -> Unmarshal (MustMarshal x) = Some x;
}.
Arguments mkCodec {X}.
Arguments MustMarshal {X}.
Arguments Unmarshal {X}.
Arguments fits {X}.
Arguments read_back {X}.

Definition MustUnmarshal {X} (c : codec X) (b : bytes) : res X :=
  match Unmarshal c b with Some x => Ok x | None => Panic end.
Lemma must_read_back {X} (c : codec X) x : fits c x -> MustUnmarshal c (MustMarshal c x) = Ok x.
Proof. intros Hx. unfold MustUnmarshal. by rewrite read_back. Qed.

(** Addresses and flags are stored as they are. *)
Program Definition raw_text : codec string := mkCodec text (fun b => Some (string_of b)) (fun _ => True) _.
Next Obligation. intros s _. cbn. by rewrite string_of_text. Qed.
Program Definition flag : codec unit := mkCodec (fun _ => [1]) (fun _ => Some tt) (fun _ => True) _.
Next Obligation. by intros []. Qed.

(** ** Iterators of the SDK *)
Definition KVStorePrefixIterator `{KeyLib} (st : Store) (prefix : bytes) : list (bytes * bytes) :=
  Iterator st (Some prefix) (PrefixEndBytes prefix).

(** Every key is a string of bytes. *)
Definition byte_keys (st : Store) : Prop := forall k v, st !! k = Some v -> Forall is_byte k.

Lemma elem_of_prefix_iter `{KeyLaws} st p k v : byte_keys st -> is_byte p ->
  (k, v) ∈ KVStorePrefixIterator st [p] <-> st !! k = Some v /\ exists b, k = p :: b.
Proof.
  intros Hb Hp. unfold KVStorePrefixIterator. rewrite elem_of_Iterator.
  assert (Forall is_byte [p]) as Hp' by by apply Forall_singleton. split.
  - intros [E Hr]. split; [done|]. rewrite PrefixEndBytes_range in Hr by (done || by eapply Hb).
    apply bool_decide_eq_true in Hr as [b ->]. by exists b.
  - intros [E [b ->]]. split; [done|]. rewrite PrefixEndBytes_range by (done || by eapply Hb).
    apply bool_decide_eq_true. by exists b.
Qed.

(** Deleting what an iterator shows. *)
Definition delete_all (l : list (bytes * bytes)) : M Store unit :=
  forM (fun kv : bytes * bytes => modify (base.delete kv.1)) l.
Lemma delete_all_run l : forall st, exists st', delete_all l st = (Ok tt, st') /\
  forall k, st' !! k = if decide (k ∈ l.*1) then None else st !! k.
Proof.
  unfold delete_all. induction l as [|[k0 v0] l IH]; intros st; [by exists st|].
  destruct (IH (base.delete k0 st)) as (st' & E & Hl). exists st'. split; [exact E|].
  intros k. rewrite Hl. cbn [fmap list_fmap fst]. destruct (decide (k = k0)) as [->|Hne].
  - rewrite lookup_delete_eq. rewrite (decide_True (P := k0 ∈ k0 :: _)) by apply list_elem_of_here. by case_decide.
  - rewrite lookup_delete_ne by done. case_decide as Hk.
    + by rewrite decide_True by by apply list_elem_of_further.
    + rewrite decide_False; [done|]. by rewrite elem_of_cons; intros [?|?].
Qed.

(** ** Columns *)
Record column (X Y : Type) : Type := mkColumn {
  col_prefix : Z;
  col_suffix : X -> bytes;
  col_codec : codec Y;
  col_ok : X -> Prop;
}.
Arguments mkColumn {X Y}.
Arguments col_prefix {X Y}.
Arguments col_suffix {X Y}.
Arguments col_codec {X Y}.
Arguments col_ok {X Y}.
Definition col_key {X Y} (c : column X Y) (x : X) : bytes := col_prefix c :: col_suffix c x.

Class Column {X Y} (c : column X Y) : Prop := {
  prefix_byte : is_byte (col_prefix c);
  suffix_bytes x : col_ok c x -> Forall is_byte (col_suffix c x);
  suffix_inj x y : col_ok c x -> col_ok c y -> col_suffix c x = col_suffix c y -> x = y;
}.

(** The store has under the prefix exactly the entries of the map. *)
Definition kept {X Y} (c : column X Y) (st : Store) (look : X -> option Y) : Prop :=
  (forall x y, look x = Some y -> col_ok c x /\ fits (col_codec c) y) /\
  (forall b v, st !! (col_prefix c :: b) = Some v <->
     exists x y, look x = Some y /\ b = col_suffix c x /\ v = MustMarshal (col_codec c) y).

Section columns.
Context {X Y : Type} (c : column X Y) `{!Column c}.
Implicit Types (st : Store) (look : X -> option Y).

Lemma kept_get st look x : kept c st look -> col_ok c x ->
  st !! col_key c x = MustMarshal (col_codec c) <$> look x.
Proof.
  intros [Hl Hs] Hx. destruct (look x) as [y|] eqn:E; cbn; [apply Hs; eauto|].
  destruct (st !! col_key c x) as [v|] eqn:Ek; [|done].
  apply Hs in Ek as (x' & y & E' & Hb & _). apply suffix_inj in Hb; [|done|by eapply Hl]. congruence.
Qed.

Lemma kept_read {Z} st look x (none : res Z) (some : Y -> res Z) : kept c st look -> col_ok c x ->
  match st !! col_key c x with None => none | Some b => y ← MustUnmarshal (col_codec c) b; some y end
  = match look x with None => none | Some y => some y end.
Proof.
  intros Hk Hx. rewrite (kept_get st look x Hk Hx). destruct (look x) as [y|] eqn:E; [|done]. cbn.
  by rewrite must_read_back by by eapply Hk.
Qed.

Lemma kept_frame st st' look :
  (forall b, st' !! (col_prefix c :: b) = st !! (col_prefix c :: b)) -> kept c st look -> kept c st' look.
Proof. intros Hf [Hl Hs]. split; [done|]. intros b v. by rewrite Hf. Qed.

Lemma kept_ext st look look' : (forall x, look' x = look x) -> kept c st look -> kept c st look'.
Proof.
  intros He [Hl Hs]. split; [intros x y; rewrite He; apply Hl|]. intros b v. rewrite Hs.
  split; intros (x & y & E & Hb & Hv); exists x, y; by rewrite He in *.
Qed.

Lemma kept_set `{EqDecision X} st look look' x y : col_ok c x -> fits (col_codec c) y ->
  look' x = Some y -> (forall x', x' <> x -> look' x' = look x') ->
  kept c st look -> kept c (<[col_key c x := MustMarshal (col_codec c) y]> st) look'.
Proof.
  intros Hx Hy E1 E2 [Hl Hs].
  assert (forall x' y', look' x' = Some y' -> col_ok c x' /\ fits (col_codec c) y') as Hl'.
  { intros x' y' E. destruct (decide (x' = x)) as [->|Hne]; [by simplify_eq|]. apply Hl. by rewrite <- E2. }
  split; [done|]. intros b v. destruct (decide (b = col_suffix c x)) as [->|Hb].
  - fold (col_key c x). rewrite lookup_insert_eq. split; [intros [= <-]; eauto|].
    intros (x' & y' & E & Hb & ->). apply suffix_inj in Hb as <-; [congruence|done|by eapply Hl'].
  - rewrite lookup_insert_ne by (intros [= E]; congruence). rewrite Hs. split.
    + intros (x' & y' & E & -> & ->). exists x', y'. rewrite E2 by congruence. done.
    + intros (x' & y' & E & -> & ->). exists x', y'. rewrite <- E2 by congruence. done.
Qed.

Lemma kept_delete `{EqDecision X} st look look' x : col_ok c x ->
  look' x = None -> (forall x', x' <> x -> look' x' = look x') ->
  kept c st look -> kept c (base.delete (col_key c x) st) look'.
Proof.
  intros Hx E1 E2 [Hl Hs].
  assert (forall x' y', look' x' = Some y' -> x' <> x /\ look x' = Some y') as Hl'.
  { intros x' y' E. assert (x' <> x) by congruence. by rewrite <- E2. }
  split; [intros x' y' [_ E]%Hl'; by apply Hl|]. intros b v. destruct (decide (b = col_suffix c x)) as [->|Hb].
  - fold (col_key c x). rewrite lookup_delete_eq. split; [done|].
    intros (x' & y' & [Hne E]%Hl' & Hb & ->). apply suffix_inj in Hb; [congruence|done|by eapply Hl].
  - rewrite lookup_delete_ne by (intros [= E]; congruence). rewrite Hs. split.
    + intros (x' & y' & E & -> & ->). exists x', y'. rewrite E2 by congruence. done.
    + intros (x' & y' & [Hne E]%Hl' & -> & ->). eauto.
Qed.

Lemma kept_insert `{Countable X} st (m : gmap X Y) x y : col_ok c x -> fits (col_codec c) y ->
  kept c st (fun x => m !! x) ->
  kept c (<[col_key c x := MustMarshal (col_codec c) y]> st) (fun x' => <[x := y]> m !! x').
Proof.
  intros Hx Hy. apply kept_set; [done..|apply lookup_insert_eq|]. intros x' Hne. by apply lookup_insert_ne.
Qed.
Lemma kept_remove `{Countable X} st (m : gmap X Y) x : col_ok c x -> kept c st (fun x => m !! x) ->
  kept c (base.delete (col_key c x) st) (fun x' => base.delete x m !! x').
Proof. intros Hx. apply kept_delete; [done|apply lookup_delete_eq|]. intros x' Hne. by apply lookup_delete_ne. Qed.

(** The iterator shows the entries of the map. *)
Lemma kept_entries `{KeyLaws} st look : byte_keys st -> kept c st look -> forall k v,
  (k, v) ∈ KVStorePrefixIterator st [col_prefix c] <->
  exists x y, look x = Some y /\ k = col_key c x /\ v = MustMarshal (col_codec c) y.
Proof.
  intros Hb [_ Hs] k v. rewrite elem_of_prefix_iter by (done || apply prefix_byte). split.
  - intros [E [b ->]]. apply Hs in E as (x & y & E & -> & ->). eauto.
  - intros (x & y & E & -> & ->). split; [apply Hs; eauto|by eexists].
Qed.

(** Deleting what the iterator shows empties the column and no other. *)
Lemma kept_clear `{KeyLaws} st look : byte_keys st -> kept c st look ->
  exists st', delete_all (KVStorePrefixIterator st [col_prefix c]) st = (Ok tt, st') /\
    kept c st' (fun _ => None) /\ (forall k, is_Some (st' !! k) -> st' !! k = st !! k) /\
    (forall p b, p <> col_prefix c -> st' !! (p :: b) = st !! (p :: b)).
Proof.
  intros Hb Hk. destruct (delete_all_run (KVStorePrefixIterator st [col_prefix c]) st) as (st' & E & Hl).
  exists st'. split; [done|]. split; [split; [done|]|split].
  - intros b v. rewrite Hl. split; [|by intros (?&?&?&_)]. case_decide as Hin; [done|]. intros Hv. destruct Hin.
    apply (list_elem_of_fmap_2 fst _ (_, v)). apply elem_of_prefix_iter; [done|apply prefix_byte|].
    split; [done|by eexists].
  - intros k. rewrite Hl. case_decide; [by intros []|done].
  - intros p b Hp. rewrite Hl. rewrite decide_False; [done|].
    intros ([k v] & Ek & Hin)%list_elem_of_fmap. apply elem_of_prefix_iter in Hin as [_ [b' Hb']];
      [|done|apply prefix_byte]. cbn in Ek. simplify_eq.
Qed.
End columns.

(** ** Columns by text *)
Section by_text.
Context {Y : Type}.
#[local] Instance key_le_transitive : Transitive (@key_le Y).
Proof. intros a b d. unfold key_le. apply string_leb_trans. Qed.
#[local] Instance key_le_total_order : Total (@key_le Y).
Proof. intros a b. unfold key_le. apply String.leb_total. Qed.
Context (c : column string Y) `{!Column c} `{KeyLaws}.
Implicit Types (st : Store) (m : gmap string Y).
Definition shown (xy : string * Y) : bytes * bytes := (col_key c xy.1, MustMarshal (col_codec c) xy.2).

Lemma shown_nodup m : (forall x y, m !! x = Some y -> col_ok c x) -> NoDup (map shown (kv_iter m)).*1.
Proof.
  intros Hm. rewrite <- list_fmap_compose.
  assert (forall l : list (string * Y), (forall x y, (x, y) ∈ l -> col_ok c x) -> NoDup l.*1 ->
    NoDup ((fst ∘ shown) <$> l)) as Hl.
  { induction l as [|[x y] l IH]; intros Hok Hn; [constructor|]. apply NoDup_cons in Hn as [Hx Hn]. cbn.
    constructor; [|apply IH; [|done]; intros ???; by eapply Hok, list_elem_of_further].
    intros ([x' y'] & E & Hin)%list_elem_of_fmap. cbn in E. injection E as E.
    apply suffix_inj in E as <-; [|by eapply Hok, list_elem_of_here|by eapply Hok, list_elem_of_further].
    apply Hx. by apply (list_elem_of_fmap_2 fst) in Hin. }
  apply Hl; [|apply kv_iter_nodup]. intros x y E%elem_of_kv_iter. by eapply Hm.
Qed.

Lemma elem_of_shown st m kv : byte_keys st -> kept c st (fun x => m !! x) ->
  kv ∈ KVStorePrefixIterator st [col_prefix c] <-> kv ∈ map shown (kv_iter m).
Proof.
  intros Hb Hk. destruct kv as [k v]. rewrite (kept_entries c st (fun x => m !! x)) by done.
  rewrite list_elem_of_fmap. split.
  - intros (x & y & E & -> & ->). exists (x, y). split; [done|by apply elem_of_kv_iter].
  - intros ([x y] & [= -> ->] & E%elem_of_kv_iter). eauto.
Qed.

(** The iterator visits the map, whatever the keys look like ... *)
Lemma kept_iter_perm st m : byte_keys st -> kept c st (fun x => m !! x) ->
  KVStorePrefixIterator st [col_prefix c] ≡ₚ map shown (kv_iter m).
Proof.
  intros Hb Hk. apply NoDup_Permutation.
  - eapply NoDup_fmap_1, Iterator_nodup.
  - eapply NoDup_fmap_1, shown_nodup. intros x y E. by eapply Hk.
  - intros kv. by apply elem_of_shown.
Qed.

Lemma shown_sorted m :
  (forall x x', is_Some (m !! x) -> is_Some (m !! x') -> String.leb x x' = true ->
     bytes_leb (col_suffix c x) (col_suffix c x') = true) ->
  StronglySorted entry_le (map shown (kv_iter m)).
Proof.
  intros Ho. assert (StronglySorted key_le (kv_iter m)) as Hs by apply (StronglySorted_merge_sort _).
  assert (forall x y, (x, y) ∈ kv_iter m -> is_Some (m !! x)) as Hm.
  { intros x y E%elem_of_kv_iter. by eexists. }
  revert Hm. induction Hs as [|[x y] l Hl IH Hx]; intros Hm; [constructor|]. cbn. constructor.
  - apply IH. intros ???. by eapply Hm, list_elem_of_further.
  - apply Forall_map, Forall_forall. intros [x' y'] Hin. unfold entry_le, bytes_leb, col_key. cbn.
    rewrite Z.compare_refl. rewrite list.Forall_forall in Hx.
    apply (Ho x x'); [by eapply Hm, list_elem_of_here|by eapply Hm, list_elem_of_further|by apply (Hx (x', y'))].
Qed.

(** ... and in the order of the texts when the keys are in that order. *)
Lemma kept_iter st m : byte_keys st -> kept c st (fun x => m !! x) ->
  (forall x x', is_Some (m !! x) -> is_Some (m !! x') -> String.leb x x' = true ->
     bytes_leb (col_suffix c x) (col_suffix c x') = true) ->
  KVStorePrefixIterator st [col_prefix c] = map shown (kv_iter m).
Proof.
  intros Hb Hk Ho. apply sorted_entries_eq.
  - apply Iterator_sorted.
  - by apply shown_sorted.
  - apply Iterator_nodup.
  - apply shown_nodup. intros x y E. by eapply Hk.
  - intros kv. by apply elem_of_shown.
Qed.

(** What is read from the entries. *)
Lemma shown_read (name : bytes -> string) l :
  (forall x y, (x, y) ∈ l -> name (col_key c x) = x /\ fits (col_codec c) y) ->
  mapM (fun kv : bytes * bytes => v ← MustUnmarshal (col_codec c) kv.2; Ok (name kv.1, v)) (map shown l) = Ok l.
Proof.
  induction l as [|[x y] l IH]; intros Hl; [done|]. destruct (Hl x y) as [E Hf]; [left|].
  specialize (IH ltac:(intros ???; apply Hl; by right)). set (f := fun kv => _) in IH |- *.
  change (mapM f (map shown ((x, y) :: l))) with
    (v ← f (shown (x, y)); vs ← mapM f (map shown l); Ok (v :: vs)).
  rewrite IH. unfold f. cbn [shown fst snd]. rewrite must_read_back by done. cbn. by rewrite E.
Qed.
End by_text.

(** ** The keys of the modules

    By text behind the prefix, by an address of a fixed length behind its
    length ([address.MustLengthPrefix]), or the prefix alone. *)
Definition text_column {Y} (p : Z) (cd : codec Y) : column string Y := mkColumn p text cd (fun _ => True).
Lemma text_column_ok {Y} p (cd : codec Y) : is_byte p -> Column (text_column p cd).
Proof. intros Hp. split; [done|intros; apply text_bytes|intros ????; apply text_inj]. Qed.

Definition address_column {Y} (n : nat) (p : Z) (cd : codec Y) : column string Y :=
  mkColumn p (fun v => Z.of_nat (String.length v) :: text v) cd (fun v => String.length v = n).
Lemma address_column_ok {Y} n p (cd : codec Y) : is_byte p -> (n < 256)%nat -> Column (address_column n p cd).
Proof.
  intros Hp Hn. split; [done| |].
  - intros v E. cbn in E |- *. constructor; [unfold is_byte; lia|apply text_bytes].
  - intros v w _ _ E. cbn in E. injection E as _ E. by apply text_inj.
Qed.

Definition cell {Y} (p : Z) (cd : codec Y) : column unit Y := mkColumn p (fun _ => []) cd (fun _ => True).
Lemma cell_ok {Y} p (cd : codec Y) : is_byte p -> Column (cell p cd).
Proof. intros Hp. split; [done|by intros|by intros [] []]. Qed.

(** A cell holds one value or none. *)
Lemma cell_set {Y} p (cd : codec Y) st look y : is_byte p -> fits cd y ->
  kept (cell p cd) st look -> kept (cell p cd) (<[[p] := MustMarshal cd y]> st) (fun _ => Some y).
Proof.
  intros Hp Hy. pose proof (cell_ok p cd Hp). apply (kept_set (cell p cd) st look (fun _ => Some y) tt y); try done.
  by intros [].
Qed.
Lemma cell_delete {Y} p (cd : codec Y) st look : is_byte p ->
  kept (cell p cd) st look -> kept (cell p cd) (base.delete [p] st) (fun _ => None).
Proof.
  intros Hp. pose proof (cell_ok p cd Hp). apply (kept_delete (cell p cd) st look (fun _ => None) tt); try done.
  by intros [].
Qed.

Lemma must_length_prefix `{KeyLaws} n v : String.length v = n -> (0 < n < 256)%nat ->
  MustLengthPrefix (text v) = Ok (Z.of_nat (String.length v) :: text v).
Proof. intros Hv Hn. rewrite MustLengthPrefix_ok by (rewrite length_text; lia). by rewrite length_text. Qed.

(** Both kinds of keys are in the order of the texts. *)
Lemma text_column_iter `{KeyLaws} {Y} p (cd : codec Y) st (m : gmap string Y) (name : bytes -> string) :
  is_byte p -> byte_keys st -> kept (text_column p cd) st (fun x => m !! x) ->
  (forall x, name (p :: text x) = x) ->
  mapM (fun kv : bytes * bytes => v ← MustUnmarshal cd kv.2; Ok (name kv.1, v)) (KVStorePrefixIterator st [p])
  = Ok (kv_iter m).
Proof.
  intros Hp Hb Hk Hname. pose proof (text_column_ok p cd Hp) as Hc.
  rewrite (kept_iter (text_column p cd) st m); [|done..|by intros x x' _ _; cbn; rewrite leb_text].
  apply (shown_read (text_column p cd)). intros x y E%elem_of_kv_iter. split; [apply Hname|by eapply Hk].
Qed.

Lemma address_column_iter `{KeyLaws} {Y} n p (cd : codec Y) st (m : gmap string Y) :
  is_byte p -> (n < 256)%nat -> byte_keys st -> kept (address_column n p cd) st (fun x => m !! x) ->
  mapM (fun kv : bytes * bytes => v ← MustUnmarshal cd kv.2; Ok (string_of (drop 2 kv.1), v))
    (KVStorePrefixIterator st [p]) = Ok (kv_iter m).
Proof.
  intros Hp Hn Hb Hk. pose proof (address_column_ok n p cd Hp Hn) as Hc.
  rewrite (kept_iter (address_column n p cd) st m); [|done..|].
  - apply (shown_read (address_column n p cd) (fun k => string_of (drop 2 k))). intros x y E%elem_of_kv_iter.
    split; [apply string_of_text|by eapply Hk].
  - intros x x' [y E] [y' E'] Hle. destruct Hk as [Hl _]. apply Hl in E as [Hx _], E' as [Hx' _]. cbn in Hx, Hx' |- *.
    rewrite Hx, Hx'. unfold bytes_leb. cbn. rewrite Z.compare_refl. by rewrite <- leb_text in Hle.
Qed.

(** A write or a deletion under one prefix leaves the other columns alone. *)
Lemma kept_set_other {X Y} (c : column X Y) st look p b v : p <> col_prefix c ->
  kept c st look -> kept c (<[p :: b := v]> st) look.
Proof. intros Hp. apply kept_frame. intros b'. rewrite lookup_insert_ne; [done|]. by intros [= ?]. Qed.
Lemma kept_delete_other {X Y} (c : column X Y) st look p b : p <> col_prefix c ->
  kept c st look -> kept c (base.delete (p :: b) st) look.
Proof. intros Hp. apply kept_frame. intros b'. rewrite lookup_delete_ne; [done|]. by intros [= ?]. Qed.

(** Which prefixes a store uses. *)
Definition only_prefixes (ps : list Z) (st : Store) : Prop :=
  forall k v, st !! k = Some v -> exists p b, k = p :: b /\ p ∈ ps /\ Forall is_byte b.
Lemma only_prefixes_bytes ps st : Forall is_byte ps -> only_prefixes ps st -> byte_keys st.
Proof.
  intros Hps Ho k v E. apply Ho in E as (p & b & -> & Hp & Hb). constructor; [|done].
  by eapply list.Forall_forall in Hps.
Qed.
Lemma only_prefixes_set ps st p b v : p ∈ ps -> Forall is_byte b ->
  only_prefixes ps st -> only_prefixes ps (<[p :: b := v]> st).
Proof. intros Hp Hb Ho k v' [[<- <-]|[_ E]]%lookup_insert_Some; [by exists p, b|by eapply Ho]. Qed.
Lemma only_prefixes_less ps st st' : (forall k, is_Some (st' !! k) -> st' !! k = st !! k) ->
  only_prefixes ps st -> only_prefixes ps st'.
Proof. intros Hl Ho k v E. apply (Ho k v). rewrite <- Hl; [done|by eexists]. Qed.
Lemma only_prefixes_delete ps st k : only_prefixes ps st -> only_prefixes ps (base.delete k st).
Proof.
  apply only_prefixes_less. intros k' [v Hv]. apply lookup_delete_Some in Hv as [Hne _]. by rewrite lookup_delete_ne.
Qed.

(** ** Codecs of the SDK *)
Class SdkCodec : Type := { DecProto : codec Z; IntProto : codec Z; UInt64Value : codec Z }.

(** *** A reference instance: the bits of a number that stands for the value *)
Fixpoint bits (p : positive) : bytes :=
  match p with xH => [1] | xO p => 2 :: bits p | xI p => 3 :: bits p end.
Fixpoint of_bits (b : bytes) : option positive :=
  match b with
  | [1] => Some xH
  | 2 :: b => xO <$> of_bits b
  | 3 :: b => xI <$> of_bits b
  | _ => None
  end.
Lemma of_bits_bits p : of_bits (bits p) = Some p.
Proof.
  induction p as [p IH|p IH|]; cbn; [| |done]; destruct (bits p) eqn:E; cbn in *; try done;
    by rewrite IH.
Qed.
Program Definition bits_codec {X} `{Countable X} (P : X -> Prop) : codec X :=
  mkCodec (fun x => bits (encode x)) (fun b => of_bits b ≫= decode) P _.
Next Obligation. intros X ?? P x _. cbn. rewrite of_bits_bits. cbn. by rewrite decode_encode. Qed.
#[export] Instance sdk_codec : SdkCodec := {
  DecProto := bits_codec (fun _ => True); IntProto := bits_codec (fun _ => True); UInt64Value := bits_codec is_u64;
}.

(** ** Empty stores *)
Lemma kept_empty {X Y} (c : column X Y) look : (forall x, look x = None) -> kept c ∅ look.
Proof.
  intros Hl. split; [intros x y; by rewrite Hl|]. intros b v. rewrite lookup_empty.
  split; [done|]. intros (x & y & E & _). by rewrite Hl in E.
Qed.
Lemma only_prefixes_empty ps : only_prefixes ps ∅.
Proof. intros k v. by rewrite lookup_empty. Qed.

(** ** Programs that use a keeper

    [call] writes, [query] reads; what a program does next may depend on
    everything it has read.  An error of a write ends the program. *)
Inductive program (call : Type) (query : Type -> Type) (X : Type) : Type :=
| Done (x : X)
| Write (c : call) (k : program call query X)
| Read (A : Type) (q : query A) (k : A -> program call query X).
Arguments Done {call query X}.
Arguments Write {call query X}.
Arguments Read {call query X A}.

Section programs.
Context {call : Type} {query : Type -> Type}.

Fixpoint run {S X} (write : call -> M S unit) (read : forall A, query A -> S -> A) (p : program call query X) : M S X :=
  match p with
  | Done x => mret x
  | Write c k => write c ;; run write read k
  | Read q k => fun s => run write read (k (read _ q s)) s
  end.

(** Every call and every query of a program, whatever the answers. *)
Fixpoint fine_program {X} (fc : call -> Prop) (fq : forall A, query A -> Prop) (p : program call query X) : Prop :=
  match p with
  | Done _ => True
  | Write c k => fc c /\ fine_program fc fq k
  | Read q k => fq _ q /\ forall a, fine_program fc fq (k a)
  end.

Context {S1 S2 : Type} (write1 : call -> M S1 unit) (read1 : forall A, query A -> S1 -> A).
Context (R : S1 -> S2 -> Prop) (fc : call -> Prop) (fq : forall A, query A -> Prop).
Context (write2 : call -> M S2 unit) (read2 : forall A, query A -> S2 -> A).
Hypothesis same_reads : forall A (q : query A) s1 s2, R s1 s2 -> fq A q -> read1 A q s1 = read2 A q s2.

(** One keeper implements the other, errors included. *)
Lemma run_refines {X} (p : program call query X) :
  (forall c s1 s2, R s1 s2 -> fc c -> exists r s1' s2', write1 c s1 = (r, s1') /\ write2 c s2 = (r, s2') /\ R s1' s2') ->
  forall s1 s2, R s1 s2 -> fine_program fc fq p ->
  exists r s1' s2', run write1 read1 p s1 = (r, s1') /\ run write2 read2 p s2 = (r, s2') /\ R s1' s2'.
Proof.
  intros Hw. induction p as [x|c k IH|A q k IH]; intros s1 s2 Hr Hp; cbn in Hp.
  - by exists (Ok x), s1, s2.
  - destruct Hp as [Hc Hp]. destruct (Hw c s1 s2 Hr Hc) as (r & s1' & s2' & E1 & E2 & Hr').
    cbn. unfold mbind, M_bind. rewrite E1, E2. destruct r; [by apply IH|by eauto 8|by eauto 8].
  - destruct Hp as [Hq Hp]. cbn. rewrite (same_reads A q s1 s2 Hr Hq). by apply IH.
Qed.

(** When no write fails the program comes to its end. *)
Lemma run_total {X} :
  (forall c s1 s2, R s1 s2 -> fc c -> exists s1' s2', write1 c s1 = (Ok tt, s1') /\ write2 c s2 = (Ok tt, s2') /\ R s1' s2') ->
  forall (p : program call query X) s1 s2, R s1 s2 -> fine_program fc fq p ->
  exists x s1' s2', run write1 read1 p s1 = (Ok x, s1') /\ run write2 read2 p s2 = (Ok x, s2') /\ R s1' s2'.
Proof.
  intros Hw. induction p as [x|c k IH|A q k IH]; intros s1 s2 Hr Hp; cbn in Hp.
  - by exists x, s1, s2.
  - destruct Hp as [Hc Hp]. destruct (Hw c s1 s2 Hr Hc) as (s1' & s2' & E1 & E2 & Hr').
    cbn. unfold mbind, M_bind. rewrite E1, E2. by apply IH.
  - destruct Hp as [Hq Hp]. cbn. rewrite (same_reads A q s1 s2 Hr Hq). by apply IH.
Qed.
End programs.

(** ** Access by a key whose construction may panic *)
Definition set_at (key : res bytes) (v : bytes) : M Store unit := k ← lift key; modify (<[k := v]>).
Definition delete_at (key : res bytes) : M Store unit := k ← lift key; modify (base.delete k).
Definition read_at {X : Type} (st : Store) (key : res bytes) (none : res X) (some : bytes -> res X) : res X :=
  k ← key; match st !! k with None => none | Some b => some b end.

Lemma run_set key k v st : key = Ok k -> set_at key v st = (Ok tt, <[k := v]> st).
Proof. by intros ->. Qed.
Lemma run_delete key k st : key = Ok k -> delete_at key st = (Ok tt, base.delete k st).
Proof. by intros ->. Qed.
Lemma read_kept {X Y Z : Type} (c : column X Y) `{!Column c} st look x key (none : res Z) (some : bytes -> res Z) (f : Y -> Z) :
  kept c st look -> col_ok c x -> key = Ok (col_key c x) ->
  (forall y, fits (col_codec c) y -> some (MustMarshal (col_codec c) y) = Ok (f y)) ->
  read_at st key none some = match look x with None => none | Some y => Ok (f y) end.
Proof.
  intros Hk Hx -> Hs. unfold read_at. cbn. rewrite (kept_get c st look x Hk Hx).
  destruct (look x) as [y|] eqn:E; [|done]. cbn. apply Hs. by eapply Hk.
Qed.

(** ** Decoding two entries of the same key *)
Definition two_lines (a b : string) : string := a +:+ String (Ascii.ascii_of_nat 10) b.
Definition decode_pair {Y} (cd : codec Y) (sh : Y -> string) (a b : bytes) : res string :=
  x ← MustUnmarshal cd a; y ← MustUnmarshal cd b; Ok (two_lines (sh x) (sh y)).

Lemma kept_value {X Y} (c : column X Y) st look b v : kept c st look -> st !! (col_prefix c :: b) = Some v ->
  exists y, Unmarshal (col_codec c) v = Some y.
Proof. intros [Hl Hs] E. apply Hs in E as (x & y & E & _ & ->). exists y. apply read_back. by eapply Hl. Qed.
Lemma decode_kept {X Y} (c : column X Y) st1 st2 look1 look2 sh b v1 v2 :
  kept c st1 look1 -> kept c st2 look2 ->
  st1 !! (col_prefix c :: b) = Some v1 -> st2 !! (col_prefix c :: b) = Some v2 ->
  is_ok (decode_pair (col_codec c) sh v1 v2) = true.
Proof.
  intros H1' H2' E1 E2. destruct (kept_value c st1 look1 b v1 H1' E1) as [y1 D1].
  destruct (kept_value c st2 look2 b v2 H2' E2) as [y2 D2]. unfold decode_pair, MustUnmarshal. by rewrite D1, D2.
Qed.
