(* ===== verification/OracleStore.v ===== *)
(** * The oracle on the bytes of its store

    [src/x/oracle/types/keys.go] and the store access of
    [src/x/oracle/keeper/keeper.go], on a store of byte strings: the keys with
    their prefixes and length-prefixed addresses, the encoded values, and what
    the iterators make of a key.  [OracleState.v] models the same operations
    on one map per kind of entry.  A program that uses the keeper, whatever it
    reads, writes and decides, gives the same results on both
    ([oracle_on_bytes]), for validators with addresses of one length; with
    addresses of several lengths the iterators would show shorter ones first.
    [src/x/oracle/simulation/decoder.go] reads every entry of such a store
    ([oracle_decoder_total]).  Encodings are parameters ([SdkCodec],
    [OracleCodec]). *)
From stdpp Require Import base gmap sets list strings fin_maps sorting pretty.
From Stdlib Require Import ZArith Lia.
From S2P Require Import Prelude Sdk SdkRef Core WasmKeys Columns.
From S2P Require OracleState.
#[local] Open Scope Z_scope.

(** Messages of [oracle.proto]. *)
Class OracleCodec : Type := {
  PrevoteProto : codec OracleState.AggregateDoRatePrevote;
  VoteProto : codec OracleState.AggregateDoRateVote;
}.

(** ** types/keys.go *)
Definition ExchangeRateKey : bytes := [0x01].
Definition FeederDelegationKey : bytes := [0x02].
Definition MissCounterKey : bytes := [0x03].
Definition AggregateDoRatePrevoteKey : bytes := [0x04].
Definition AggregateDoRateVoteKey : bytes := [0x05].
Definition TobinTaxKey : bytes := [0x06].

Section keeper.
Context `{KeyLib} `{SdkCodec} `{OracleCodec}.
Implicit Types st : Store.

Definition GetExchangeRateKey (denom : string) : bytes := ExchangeRateKey ++ text denom.
Definition GetFeederDelegationKey (v : ValAddress) : res bytes :=
  b ← MustLengthPrefix (text v); Ok (FeederDelegationKey ++ b).
Definition GetMissCounterKey (v : ValAddress) : res bytes :=
  b ← MustLengthPrefix (text v); Ok (MissCounterKey ++ b).
Definition GetAggregateDoRatePrevoteKey (v : ValAddress) : res bytes :=
  b ← MustLengthPrefix (text v); Ok (AggregateDoRatePrevoteKey ++ b).
Definition GetAggregateDoRateVoteKey (v : ValAddress) : res bytes :=
  b ← MustLengthPrefix (text v); Ok (AggregateDoRateVoteKey ++ b).
Definition GetTobinTaxKey (d : string) : bytes := TobinTaxKey ++ text d.
Definition ExtractDenomFromTobinTaxKey (key : bytes) : string := string_of (drop 1 key).

(** ** keeper/keeper.go *)
Definition GetDoExchangeRate st (denom : string) : res Z :=
  if String.eqb denom MicroDoDenom then Ok LegacyOneDec
  else read_at st (Ok (GetExchangeRateKey denom)) (Err OracleState.ErrUnknownDenom) (MustUnmarshal DecProto).
Definition SetDoExchangeRate (denom : string) (exchangeRate : Z) : M Store unit :=
  set_at (Ok (GetExchangeRateKey denom)) (MustMarshal DecProto exchangeRate).
Definition DeleteDoExchangeRate (denom : string) : M Store unit := delete_at (Ok (GetExchangeRateKey denom)).
Definition IterateDoExchangeRates st : res (list (string * Z)) :=
  mapM (fun kv : bytes * bytes => v ← MustUnmarshal DecProto kv.2;
          Ok (string_of (drop (length ExchangeRateKey) kv.1), v))
    (KVStorePrefixIterator st ExchangeRateKey).

(** A missing delegation is the validator's own. *)
Definition GetFeederDelegation st (operator : ValAddress) : res AccAddress :=
  read_at st (GetFeederDelegationKey operator) (Ok operator) (fun bz => Ok (string_of bz)).
Definition SetFeederDelegation (operator : ValAddress) (delegatedFeeder : AccAddress) : M Store unit :=
  set_at (GetFeederDelegationKey operator) (text delegatedFeeder).
Definition IterateFeederDelegations st : res (list (string * AccAddress)) :=
  mapM (fun kv : bytes * bytes => v ← MustUnmarshal raw_text kv.2; Ok (string_of (drop 2 kv.1), v))
    (KVStorePrefixIterator st FeederDelegationKey).

Definition GetMissCounter st (operator : ValAddress) : res Z :=
  read_at st (GetMissCounterKey operator) (Ok 0) (MustUnmarshal UInt64Value).
Definition SetMissCounter (operator : ValAddress) (missCounter : Z) : M Store unit :=
  set_at (GetMissCounterKey operator) (MustMarshal UInt64Value missCounter).
Definition DeleteMissCounter (operator : ValAddress) : M Store unit := delete_at (GetMissCounterKey operator).
Definition IterateMissCounters st : res (list (string * Z)) :=
  mapM (fun kv : bytes * bytes => v ← MustUnmarshal UInt64Value kv.2; Ok (string_of (drop 2 kv.1), v))
    (KVStorePrefixIterator st MissCounterKey).

Definition GetAggregateDoRatePrevote st (voter : ValAddress) : res OracleState.AggregateDoRatePrevote :=
  read_at st (GetAggregateDoRatePrevoteKey voter) (Err OracleState.ErrNoAggregatePrevote) (MustUnmarshal PrevoteProto).
Definition SetAggregateDoRatePrevote (voter : ValAddress) (prevote : OracleState.AggregateDoRatePrevote) : M Store unit :=
  set_at (GetAggregateDoRatePrevoteKey voter) (MustMarshal PrevoteProto prevote).
Definition DeleteAggregateDoRatePrevote (voter : ValAddress) : M Store unit :=
  delete_at (GetAggregateDoRatePrevoteKey voter).
Definition IterateAggregateDoRatePrevotes st : res (list (string * OracleState.AggregateDoRatePrevote)) :=
  mapM (fun kv : bytes * bytes => v ← MustUnmarshal PrevoteProto kv.2; Ok (string_of (drop 2 kv.1), v))
    (KVStorePrefixIterator st AggregateDoRatePrevoteKey).

Definition GetAggregateDoRateVote st (voter : ValAddress) : res OracleState.AggregateDoRateVote :=
  read_at st (GetAggregateDoRateVoteKey voter) (Err OracleState.ErrNoAggregateVote) (MustUnmarshal VoteProto).
Definition SetAggregateDoRateVote (voter : ValAddress) (vote : OracleState.AggregateDoRateVote) : M Store unit :=
  set_at (GetAggregateDoRateVoteKey voter) (MustMarshal VoteProto vote).
Definition DeleteAggregateDoRateVote (voter : ValAddress) : M Store unit :=
  delete_at (GetAggregateDoRateVoteKey voter).
Definition IterateAggregateDoRateVotes st : res (list (string * OracleState.AggregateDoRateVote)) :=
  mapM (fun kv : bytes * bytes => v ← MustUnmarshal VoteProto kv.2; Ok (string_of (drop 2 kv.1), v))
    (KVStorePrefixIterator st AggregateDoRateVoteKey).

Definition GetTobinTax st (denom : string) : res Z :=
  read_at st (Ok (GetTobinTaxKey denom)) (Err OracleState.ErrNoTobinTax) (MustUnmarshal DecProto).
Definition SetTobinTax (denom : string) (tobinTax : Z) : M Store unit :=
  set_at (Ok (GetTobinTaxKey denom)) (MustMarshal DecProto tobinTax).
Definition IterateTobinTaxes st : res (list (string * Z)) :=
  mapM (fun kv : bytes * bytes => v ← MustUnmarshal DecProto kv.2; Ok (ExtractDenomFromTobinTaxKey kv.1, v))
    (KVStorePrefixIterator st TobinTaxKey).
Definition ClearTobinTaxes : M Store unit := fun st => delete_all (KVStorePrefixIterator st TobinTaxKey) st.
End keeper.

(** ** Calls of the keeper *)
Inductive call : Type :=
| SetRate (denom : string) (rate : Z)
| DeleteRate (denom : string)
| SetFeeder (operator : ValAddress) (feeder : AccAddress)
| SetMisses (operator : ValAddress) (misses : Z)
| DeleteMisses (operator : ValAddress)
| SetPrevote (voter : ValAddress) (prevote : OracleState.AggregateDoRatePrevote)
| DeletePrevote (voter : ValAddress)
| SetVote (voter : ValAddress) (vote : OracleState.AggregateDoRateVote)
| DeleteVote (voter : ValAddress)
| SetTax (denom : string) (tax : Z)
| ClearTaxes.

Inductive query : Type -> Type :=
| Rate (denom : string) : query (res Z)
| Rates : query (res (list (string * Z)))
| Feeder (operator : ValAddress) : query (res AccAddress)
| Feeders : query (res (list (string * AccAddress)))
| Misses (operator : ValAddress) : query (res Z)
| AllMisses : query (res (list (string * Z)))
| Prevote (voter : ValAddress) : query (res OracleState.AggregateDoRatePrevote)
| Prevotes : query (res (list (string * OracleState.AggregateDoRatePrevote)))
| Vote (voter : ValAddress) : query (res OracleState.AggregateDoRateVote)
| Votes : query (res (list (string * OracleState.AggregateDoRateVote)))
| Tax (denom : string) : query (res Z)
| Taxes : query (res (list (string * Z))).

Section runs.
Context `{KeyLib} `{SdkCodec} `{OracleCodec}.
Definition write_bytes (c : call) : M Store unit :=
  match c with
  | SetRate d r => SetDoExchangeRate d r
  | DeleteRate d => DeleteDoExchangeRate d
  | SetFeeder v f => SetFeederDelegation v f
  | SetMisses v n => SetMissCounter v n
  | DeleteMisses v => DeleteMissCounter v
  | SetPrevote v p => SetAggregateDoRatePrevote v p
  | DeletePrevote v => DeleteAggregateDoRatePrevote v
  | SetVote v x => SetAggregateDoRateVote v x
  | DeleteVote v => DeleteAggregateDoRateVote v
  | SetTax d t => SetTobinTax d t
  | ClearTaxes => ClearTobinTaxes
  end.
Definition read_bytes {A} (q : query A) (st : Store) : A :=
  match q in query A return A with
  | Rate d => GetDoExchangeRate st d
  | Rates => IterateDoExchangeRates st
  | Feeder v => GetFeederDelegation st v
  | Feeders => IterateFeederDelegations st
  | Misses v => GetMissCounter st v
  | AllMisses => IterateMissCounters st
  | Prevote v => GetAggregateDoRatePrevote st v
  | Prevotes => IterateAggregateDoRatePrevotes st
  | Vote v => GetAggregateDoRateVote st v
  | Votes => IterateAggregateDoRateVotes st
  | Tax d => GetTobinTax st d
  | Taxes => IterateTobinTaxes st
  end.

Context {B K D : Type}.
Abbreviation State := (OracleState.State B K D).
Definition write_state (c : call) : M State unit :=
  match c with
  | SetRate d r => OracleState.SetDoExchangeRate d r
  | DeleteRate d => OracleState.DeleteDoExchangeRate d
  | SetFeeder v f => OracleState.SetFeederDelegation v f
  | SetMisses v n => OracleState.SetMissCounter v n
  | DeleteMisses v => OracleState.DeleteMissCounter v
  | SetPrevote v p => OracleState.SetAggregateDoRatePrevote v p
  | DeletePrevote v => OracleState.DeleteAggregateDoRatePrevote v
  | SetVote v x => OracleState.SetAggregateDoRateVote v x
  | DeleteVote v => OracleState.DeleteAggregateDoRateVote v
  | SetTax d t => OracleState.SetTobinTax d t
  | ClearTaxes => OracleState.ClearTobinTaxes
  end.
Definition read_state {A} (q : query A) (s : State) : A :=
  match q in query A return A with
  | Rate d => OracleState.GetDoExchangeRate s d
  | Rates => Ok (OracleState.IterateDoExchangeRates s)
  | Feeder v => Ok (OracleState.GetFeederDelegation s v)
  | Feeders => Ok (OracleState.IterateFeederDelegations s)
  | Misses v => Ok (OracleState.GetMissCounter s v)
  | AllMisses => Ok (OracleState.IterateMissCounters s)
  | Prevote v => OracleState.GetAggregateDoRatePrevote s v
  | Prevotes => Ok (OracleState.IterateAggregateDoRatePrevotes s)
  | Vote v => OracleState.GetAggregateDoRateVote s v
  | Votes => Ok (OracleState.IterateAggregateDoRateVotes s)
  | Tax d => OracleState.GetTobinTax s d
  | Taxes => Ok (OracleState.IterateTobinTaxes s)
  end.
End runs.

(** ** The representation *)
Section refinement.
Context `{KeyLaws} `{SdkCodec} `{OracleCodec} {B K D : Type} `{StakingOps K} `{AddrCodec}.
Context (n : nat) (Hn : (0 < n < 256)%nat).
Implicit Types (st : Store) (s : OracleState.State B K D).

Definition rate_column : column string Z := text_column 1 DecProto.
Definition feeder_column : column string AccAddress := address_column n 2 raw_text.
Definition miss_column : column string Z := address_column n 3 UInt64Value.
Definition prevote_column : column string OracleState.AggregateDoRatePrevote := address_column n 4 PrevoteProto.
Definition vote_column : column string OracleState.AggregateDoRateVote := address_column n 5 VoteProto.
Definition tax_column : column string Z := text_column 6 DecProto.

Record represents st s : Prop := {
  rep_rates : kept rate_column st (fun d => OracleState.st_rates s !! d);
  rep_feeders : kept feeder_column st (fun v => OracleState.st_feeders s !! v);
  rep_misses : kept miss_column st (fun v => OracleState.st_misses s !! v);
  rep_prevotes : kept prevote_column st (fun v => OracleState.st_prevotes s !! v);
  rep_votes : kept vote_column st (fun v => OracleState.st_votes s !! v);
  rep_taxes : kept tax_column st (fun d => OracleState.st_taxes s !! d);
  rep_only : only_prefixes [1; 2; 3; 4; 5; 6] st;
}.

(** Addresses have the length, values fit their encodings. *)
Definition fine_call (c : call) : Prop :=
  match c with
  | SetRate _ r => fits DecProto r
  | SetFeeder v _ => String.length v = n
  | SetMisses v m => String.length v = n /\ fits UInt64Value m
  | SetPrevote v p => String.length v = n /\ fits PrevoteProto p
  | SetVote v x => String.length v = n /\ fits VoteProto x
  | DeleteMisses v | DeletePrevote v | DeleteVote v => String.length v = n
  | SetTax _ t => fits DecProto t
  | DeleteRate _ | ClearTaxes => True
  end.
Definition fine_query {A} (q : query A) : Prop :=
  match q with Feeder v | Misses v | Prevote v | Vote v => String.length v = n | _ => True end.
#[local] Instance oracle_rate_column_ok : Column rate_column.
Proof. by apply text_column_ok. Qed.
#[local] Instance tax_column_ok : Column tax_column.
Proof. by apply text_column_ok. Qed.
#[local] Instance feeder_column_ok : Column feeder_column.
Proof. apply address_column_ok; [done|lia]. Qed.
#[local] Instance miss_column_ok : Column miss_column.
Proof. apply address_column_ok; [done|lia]. Qed.
#[local] Instance prevote_column_ok : Column prevote_column.
Proof. apply address_column_ok; [done|lia]. Qed.
#[local] Instance vote_column_ok : Column vote_column.
Proof. apply address_column_ok; [done|lia]. Qed.

Lemma feeder_key v : String.length v = n -> GetFeederDelegationKey v = Ok (col_key feeder_column v).
Proof. intros Hv. unfold GetFeederDelegationKey. by rewrite (must_length_prefix n). Qed.
Lemma miss_key v : String.length v = n -> GetMissCounterKey v = Ok (col_key miss_column v).
Proof. intros Hv. unfold GetMissCounterKey. by rewrite (must_length_prefix n). Qed.
Lemma prevote_key v : String.length v = n -> GetAggregateDoRatePrevoteKey v = Ok (col_key prevote_column v).
Proof. intros Hv. unfold GetAggregateDoRatePrevoteKey. by rewrite (must_length_prefix n). Qed.
Lemma vote_key v : String.length v = n -> GetAggregateDoRateVoteKey v = Ok (col_key vote_column v).
Proof. intros Hv. unfold GetAggregateDoRateVoteKey. by rewrite (must_length_prefix n). Qed.

Lemma oracle_bytes st s : represents st s -> byte_keys st.
Proof. intros Hr. eapply only_prefixes_bytes, rep_only, Hr. by repeat constructor. Qed.

Lemma taxes_cleared s : OracleState.ClearTobinTaxes s = (Ok tt, OracleState.on_taxes (fun _ => ∅) s).
Proof.
  unfold OracleState.ClearTobinTaxes.
  assert (forall l s', forM (fun kv : string * Z => modify (OracleState.on_taxes (base.delete kv.1))) l s'
    = (Ok tt, OracleState.on_taxes (fun m => foldl (fun m kv => base.delete kv.1 m) m l) s')) as Hl.
  { induction l as [|kv l IH]; intros s'; [by destruct s'|]. exact (IH (OracleState.on_taxes (base.delete kv.1) s')). }
  rewrite Hl. unfold OracleState.on_taxes. by rewrite kv_iter_delete.
Qed.

(** The columns a write does not touch, and the one it does. *)
Ltac other_columns :=
  first [by apply kept_set_other | by apply kept_delete_other
        | by apply only_prefixes_delete
        | apply only_prefixes_set; [set_solver|by apply suffix_bytes|done]
        | apply only_prefixes_set; [set_solver|apply text_bytes|done]].
Ltac own_column :=
  first [by apply (kept_insert rate_column) | by apply (kept_insert feeder_column) | by apply (kept_insert miss_column)
        | by apply (kept_insert prevote_column) | by apply (kept_insert vote_column) | by apply (kept_insert tax_column)
        | by apply (kept_remove rate_column) | by apply (kept_remove miss_column)
        | by apply (kept_remove prevote_column) | by apply (kept_remove vote_column)].

Lemma oracle_write_refines c st s : represents st s -> fine_call c ->
  exists st' s', write_bytes c st = (Ok tt, st') /\ write_state c s = (Ok tt, s') /\ represents st' s'.
Proof.
  intros Hr Hc. pose proof (oracle_bytes _ _ Hr) as Hb. destruct Hr as [R1 R2 R3 R4 R5 R6 R7].
  destruct c as [d r|d|v f|v m|v|v p|v|v x|v|d t|]; cbn in Hc; [..|].
  11: { destruct (kept_clear tax_column st _ Hb R6) as (st' & E & Hk & Hless & Hframe).
    do 2 eexists. split; [exact E|]. split; [apply taxes_cleared|].
    constructor; cbn; try (eapply kept_frame; [intros b; by apply Hframe|done]).
    - eapply kept_ext; [|exact Hk]. intros x. apply lookup_empty.
    - by eapply only_prefixes_less. }
  all: try match type of Hc with _ /\ _ => destruct Hc as [Hv Hf] end.
  all: do 2 eexists; split; [first [apply run_set|apply run_delete];
    first [reflexivity|by apply feeder_key|by apply miss_key|by apply prevote_key|by apply vote_key]|].
  all: split; [reflexivity|constructor; cbn].
  all: try other_columns.
  all: own_column.
Qed.

Lemma oracle_read_refines A (q : query A) st s : represents st s -> fine_query q -> read_bytes q st = read_state q s.
Proof.
  intros Hr Hq. pose proof (oracle_bytes _ _ Hr) as Hb. destruct Hr as [R1 R2 R3 R4 R5 R6 _].
  destruct q as [d| |v| |v| |v| |v| |d|]; cbn in Hq; cbn [read_bytes read_state].
  - unfold GetDoExchangeRate, OracleState.GetDoExchangeRate. destruct (String.eqb d MicroDoDenom); [done|].
    rewrite (read_kept rate_column st _ d _ _ _ id R1); [by case_match|done|done|apply must_read_back].
  - by apply (text_column_iter 1 DecProto st _ (fun k => string_of (drop 1 k))); [..|intros; apply string_of_text].
  - unfold GetFeederDelegation, OracleState.GetFeederDelegation.
    rewrite (read_kept feeder_column st _ v _ _ _ id R2); [by case_match|done|by apply feeder_key|].
    intros y _. exact (f_equal Ok (string_of_text y)).
  - apply (address_column_iter n); [done|lia|done|done].
  - unfold GetMissCounter, OracleState.GetMissCounter.
    rewrite (read_kept miss_column st _ v _ _ _ id R3); [by case_match|done|by apply miss_key|apply must_read_back].
  - apply (address_column_iter n); [done|lia|done|done].
  - unfold GetAggregateDoRatePrevote, OracleState.GetAggregateDoRatePrevote.
    rewrite (read_kept prevote_column st _ v _ _ _ id R4); [by case_match|done|by apply prevote_key|apply must_read_back].
  - apply (address_column_iter n); [done|lia|done|done].
  - unfold GetAggregateDoRateVote, OracleState.GetAggregateDoRateVote.
    rewrite (read_kept vote_column st _ v _ _ _ id R5); [by case_match|done|by apply vote_key|apply must_read_back].
  - apply (address_column_iter n); [done|lia|done|done].
  - unfold GetTobinTax, OracleState.GetTobinTax.
    rewrite (read_kept tax_column st _ d _ _ _ id R6); [by case_match|done|done|apply must_read_back].
  - by apply (text_column_iter 6 DecProto st _ (fun k => string_of (drop 1 k))); [..|intros; apply string_of_text].
Qed.

(** C18: the keeper on bytes implements the keeper on maps: from a store that
    represents a state, every program of reads, writes, deletions and
    iterations runs to its end, gives the result it gives on the state, and
    leaves a store that represents the state it leaves.  No two kinds of entry
    share a key, no iterator shows an entry of another kind or in another
    order, and no value is misread. *)
Theorem oracle_on_bytes {X} (p : program call query X) st s :
  represents st s -> fine_program fine_call (@fine_query) p ->
  exists x st' s', run write_bytes (@read_bytes _ _ _) p st = (Ok x, st') /\
    run write_state (@read_state _ _ _) p s = (Ok x, s') /\ represents st' s'.
Proof.
  apply (run_total write_bytes (@read_bytes _ _ _) represents fine_call (@fine_query) write_state (@read_state _ _ _));
    [apply oracle_read_refines|apply oracle_write_refines].
Qed.
End refinement.

(** ** simulation/decoder.go

    The texts of the values are [fmt]'s. *)
Class OracleFormat : Type := {
  show_dec : Z -> string; show_address : AccAddress -> string; show_uint : Z -> string;
  show_prevote : OracleState.AggregateDoRatePrevote -> string; show_vote : OracleState.AggregateDoRateVote -> string;
}.

Section decoder.
Context `{SdkCodec} `{OracleCodec} `{OracleFormat}.

(** [kvA.Key[:1]] panics on the empty key. *)
Definition NewDecodeStore (kvA kvB : bytes * bytes) : res string :=
  match kvA.1 with
  | [] => Panic
  | c :: _ =>
      if bool_decide ([c] = ExchangeRateKey) then decode_pair DecProto show_dec kvA.2 kvB.2
      else if bool_decide ([c] = FeederDelegationKey) then
        Ok (two_lines (show_address (string_of kvA.2)) (show_address (string_of kvB.2)))
      else if bool_decide ([c] = MissCounterKey) then decode_pair UInt64Value show_uint kvA.2 kvB.2
      else if bool_decide ([c] = AggregateDoRatePrevoteKey) then decode_pair PrevoteProto show_prevote kvA.2 kvB.2
      else if bool_decide ([c] = AggregateDoRateVoteKey) then decode_pair VoteProto show_vote kvA.2 kvB.2
      else if bool_decide ([c] = TobinTaxKey) then decode_pair DecProto show_dec kvA.2 kvB.2
      else Panic
  end.

(** the decoder of the simulation reads every entry of an oracle store:
    whenever two stores, each representing some state, have an entry under the
    same key, it gives the texts of both values and does not panic. *)
Theorem oracle_decoder_total {B K D : Type} n st1 st2 (s1 s2 : OracleState.State B K D) k v1 v2 :
  represents n st1 s1 -> represents n st2 s2 -> st1 !! k = Some v1 -> st2 !! k = Some v2 ->
  is_ok (NewDecodeStore (k, v1) (k, v2)) = true.
Proof.
  intros [R1 R2 R3 R4 R5 R6 R7] [Q1 Q2 Q3 Q4 Q5 Q6 _] E1 E2. destruct (R7 k v1 E1) as (p & b & -> & Hp & _).
  rewrite !elem_of_cons, elem_of_nil in Hp. unfold NewDecodeStore. cbn -[bool_decide].
  destruct Hp as [->|[->|[->|[->|[->|[->|[]]]]]]]; repeat (first [rewrite bool_decide_true by done|rewrite bool_decide_false by done]).
  - exact (decode_kept rate_column _ _ _ _ _ _ _ _ R1 Q1 E1 E2).
  - done.
  - exact (decode_kept (miss_column n) _ _ _ _ _ _ _ _ R3 Q3 E1 E2).
  - exact (decode_kept (prevote_column n) _ _ _ _ _ _ _ _ R4 Q4 E1 E2).
  - exact (decode_kept (vote_column n) _ _ _ _ _ _ _ _ R5 Q5 E1 E2).
  - exact (decode_kept tax_column _ _ _ _ _ _ _ _ R6 Q6 E1 E2).
Qed.
End decoder.

(** ** Concrete runs *)
Module Example.
Program Definition prevote_codec : codec OracleState.AggregateDoRatePrevote :=
  mkCodec (fun p => MustMarshal (bits_codec (fun _ => True))
             (OracleState.pv_Hash p, OracleState.pv_Voter p, OracleState.pv_SubmitBlock p))
    (fun b => t ← Unmarshal (X := string * string * Z) (bits_codec (fun _ => True)) b;
              Some (OracleState.mkPrevote t.1.1 t.1.2 t.2))
    (fun p => is_u64 (OracleState.pv_SubmitBlock p)) _.
Next Obligation. intros [h v b] _. cbv beta. by rewrite read_back. Qed.
Program Definition vote_codec : codec OracleState.AggregateDoRateVote :=
  mkCodec (fun x => MustMarshal (bits_codec (fun _ => True))
             (map (fun t => (OracleState.t_Denom t, OracleState.t_ExchangeRate t)) (OracleState.av_Tuples x),
              OracleState.av_Voter x))
    (fun b => t ← Unmarshal (X := list (string * Z) * string) (bits_codec (fun _ => True)) b;
              Some (OracleState.mkAggregateVote (map (fun dr => OracleState.mkDoRateTuple dr.1 dr.2) t.1) t.2))
    (fun _ => True) _.
Next Obligation.
  intros [ts v] _. cbv beta. rewrite read_back by done. cbn. rewrite map_map. do 2 f_equal.
  etrans; [|apply map_id]. apply map_ext. by intros [].
Qed.
#[export] Instance oracle_codec : OracleCodec := { PrevoteProto := prevote_codec; VoteProto := vote_codec }.
#[export] Instance oracle_format : OracleFormat := {
  show_dec := pretty; show_address a := a; show_uint := pretty;
  show_prevote p := OracleState.pv_Hash p; show_vote x := OracleState.av_Voter x;
}.

Definition empty : OracleState.Example.St :=
  OracleState.mkState (Some OracleState.Example.params10) ∅ ∅ ∅ ∅ ∅ ∅ OracleState.Example.bank0 [] [].
Lemma empty_represents : represents 3 ∅ empty.
Proof. constructor; [apply kept_empty; intros; apply lookup_empty..|apply only_prefixes_empty]. Qed.

(** A prevote and a target are written; whoever has a prevote votes. *)
Definition ballot : program call query (list (string * Z)) :=
  Write (SetPrevote "val" (OracleState.mkPrevote "hash" "val" 7)) (Write (SetTax "uusd" 5) (Write (SetTax "ueur" 3)
  (Write (SetMisses "abc" 2)
  (Read Prevotes (fun ps => Write (DeletePrevote "val")
  (Write (SetVote "val" (OracleState.mkAggregateVote
     (match ps with Ok ((_, p) :: _) => [OracleState.mkDoRateTuple (OracleState.pv_Voter p) 9] | _ => [] end) "val"))
  (Read Taxes (fun ts => Done (default [] (match ts with Ok l => Some l | _ => None end)))))))))).
End Example.
#[local] Existing Instances Example.oracle_codec Example.oracle_format.

Lemma oracle_on_bytes_witness : exists st' s',
  run write_bytes (@read_bytes _ _ _) Example.ballot ∅ = (Ok [("ueur", 3); ("uusd", 5)], st') /\
  represents 3 st' (s' : OracleState.Example.St) /\
  read_bytes (Vote "val") st' = Ok (OracleState.mkAggregateVote [OracleState.mkDoRateTuple "val" 9] "val").
Proof.
  destruct (oracle_on_bytes 3 ltac:(lia) Example.ballot ∅ Example.empty Example.empty_represents) as (x & st' & s' & E1 & E2 & Hr).
  { repeat split; cbn; lia. }
  exists st', s'. split; [|split; [exact Hr|]].
  - rewrite E1. f_equal. apply (f_equal fst) in E1. vm_compute in E1. injection E1 as <-. reflexivity.
  - apply (f_equal snd) in E1. cbn [snd] in E1. rewrite <- E1. vm_compute. reflexivity.
Defined.

Lemma oracle_decoder_total_witness :
  exists k v, is_ok (NewDecodeStore (k, v) (k, v)) = true /\ k = [6; 117; 117; 115; 100].
Proof.
  destruct (oracle_write_refines 3 ltac:(lia) (SetTax "uusd" 5) ∅ Example.empty Example.empty_represents I) as (st & s & E & _ & Hr).
  exists [6; 117; 117; 115; 100], (MustMarshal DecProto 5). split; [|reflexivity].
  assert (st !! [6; 117; 117; 115; 100] = Some (MustMarshal DecProto 5)) as Hl.
  { apply (f_equal snd) in E. cbn [snd] in E. rewrite <- E. vm_compute. reflexivity. }
  exact (oracle_decoder_total 3 st st s s _ _ _ Hr Hr Hl Hl).
Defined.
