(* ===== verification/TreasuryStore.v ===== *)
(** * The treasury on the bytes of its store

    [src/x/treasury/types/keys.go] and the store access of
    [src/x/treasury/keeper/keeper.go], on a store of byte strings: single
    cells, caps by denomination, three series by epoch (little-endian, so not
    in the order of the epochs) and the exempt addresses in a prefix store.
    Programs over this keeper and over the state of [Treasury.v] give the same
    results, errors included ([treasury_on_bytes]).
    [src/x/treasury/simulation/decoder.go] reads every entry but the exempt
    addresses, on which it panics ([treasury_decoder_misses_exemptions]).
    Encodings are parameters ([SdkCodec], [TreasuryCodec]). *)
From stdpp Require Import base gmap sets list strings fin_maps sorting pretty.
From Stdlib Require Import ZArith Lia.
From S2P Require Import Prelude Sdk SdkRef Core WasmKeys Columns.
From S2P Require Treasury.
#[local] Open Scope Z_scope.

(** Messages of [treasury.proto]. *)
Class TreasuryCodec : Type := {
  EpochTaxProceeds : codec (list Coin);
  EpochInitialIssuance : codec (list Coin);
}.

(** ** types/keys.go; the keys by epoch are in [Treasury.v] *)
Definition TaxRateKey : bytes := [0x01].
Definition RewardWeightKey : bytes := [0x02].
Definition TaxProceedsKey : bytes := [0x04].
Definition EpochInitialIssuanceKey : bytes := [0x05].
Definition BurnTaxExemptionListPrefix : bytes := [0x20].
Definition GetTaxCapKey (denom : string) : bytes := Treasury.TaxCapKey ++ text denom.

Section keeper.
Context `{KeyLib} `{SdkCodec} `{TreasuryCodec} `{AddrCodec}.
Implicit Types st : Store.

(** A store under a prefix: its iterator takes the prefix off. *)
Definition sub_Iterator (prefix : bytes) st : list (bytes * bytes) :=
  map (fun kv => (drop (length prefix) kv.1, kv.2)) (KVStorePrefixIterator st prefix).
Definition sub_clear (prefix : bytes) : M Store unit := fun st =>
  forM (fun kv : bytes * bytes => delete_at (Ok (prefix ++ kv.1))) (sub_Iterator prefix st) st.

(** ** keeper/keeper.go *)
Definition GetTaxRate st : res Z :=
  read_at st (Ok TaxRateKey) (Ok Treasury.DefaultTaxRate) (MustUnmarshal DecProto).
Definition SetTaxRate (taxRate : Z) : M Store unit := set_at (Ok TaxRateKey) (MustMarshal DecProto taxRate).
Definition GetRewardWeight st : res Z :=
  read_at st (Ok RewardWeightKey) (Ok Treasury.DefaultRewardWeight) (MustUnmarshal DecProto).
Definition SetRewardWeight (rewardWeight : Z) : M Store unit :=
  set_at (Ok RewardWeightKey) (MustMarshal DecProto rewardWeight).

Definition SetTaxCap (denom : string) (cap : Z) : M Store unit :=
  set_at (Ok (GetTaxCapKey denom)) (MustMarshal IntProto cap).
(** [policy] is the parameter [TaxPolicy], which is kept elsewhere. *)
Definition GetTaxCap (policy : res Treasury.PolicyConstraints) st (denom : string) : res Z :=
  read_at st (Ok (GetTaxCapKey denom)) (p ← policy; Ok (Amount (Treasury.Cap p))) (MustUnmarshal IntProto).
Definition IterateTaxCap st : res (list (string * Z)) :=
  mapM (fun kv : bytes * bytes => v ← MustUnmarshal IntProto kv.2; Ok (string_of kv.1, v))
    (sub_Iterator Treasury.TaxCapKey st).

Definition SetEpochTaxProceeds (taxProceeds : list Coin) : M Store unit :=
  set_at (Ok TaxProceedsKey) (MustMarshal EpochTaxProceeds taxProceeds).
Definition PeekEpochTaxProceeds st : res (list Coin) :=
  read_at st (Ok TaxProceedsKey) (Ok []) (MustUnmarshal EpochTaxProceeds).
Definition SetEpochInitialIssuance (issuance : list Coin) : M Store unit :=
  set_at (Ok EpochInitialIssuanceKey) (MustMarshal EpochInitialIssuance issuance).
Definition GetEpochInitialIssuance st : res (list Coin) :=
  read_at st (Ok EpochInitialIssuanceKey) (Ok []) (MustUnmarshal EpochInitialIssuance).

Definition GetTR st (epoch : Z) : res Z :=
  read_at st (Ok (Treasury.GetTRKey epoch)) (Ok LegacyZeroDec) (MustUnmarshal DecProto).
Definition SetTR (epoch tr : Z) : M Store unit := set_at (Ok (Treasury.GetTRKey epoch)) (MustMarshal DecProto tr).
Definition ClearTRs : M Store unit := sub_clear Treasury.TRKey.
Definition GetSR st (epoch : Z) : res Z :=
  read_at st (Ok (Treasury.GetSRKey epoch)) (Ok LegacyZeroDec) (MustUnmarshal DecProto).
Definition SetSR (epoch sr : Z) : M Store unit := set_at (Ok (Treasury.GetSRKey epoch)) (MustMarshal DecProto sr).
Definition ClearSRs : M Store unit := sub_clear Treasury.SRKey.
Definition GetTSL st (epoch : Z) : res Z :=
  read_at st (Ok (Treasury.GetTSLKey epoch)) (Ok 0) (MustUnmarshal IntProto).
Definition SetTSL (epoch tsl : Z) : M Store unit := set_at (Ok (Treasury.GetTSLKey epoch)) (MustMarshal IntProto tsl).
Definition ClearTSLs : M Store unit := sub_clear Treasury.TSLKey.

Definition AddBurnTaxExemptionAddress (address : string) : M Store unit :=
  _ ← must (AccAddressFromBech32 address);
  set_at (Ok (BurnTaxExemptionListPrefix ++ text address)) [0x01].
Definition RemoveBurnTaxExemptionAddress (address : string) : M Store unit :=
  _ ← must (AccAddressFromBech32 address);
  st ← get;
  if bool_decide (st !! (BurnTaxExemptionListPrefix ++ text address) = None)
  then throw Treasury.ErrNoSuchBurnTaxExemptionAddress
  else delete_at (Ok (BurnTaxExemptionListPrefix ++ text address)).
(** What [BurnTaxExemptionList] of the querier walks through. *)
Definition exempt_addresses st : list string :=
  map (fun kv => string_of kv.1) (sub_Iterator BurnTaxExemptionListPrefix st).
End keeper.

(** ** Calls of the keeper *)
Inductive call : Type :=
| WriteTaxRate (rate : Z)
| WriteRewardWeight (weight : Z)
| WriteTaxCap (denom : string) (cap : Z)
| WriteProceeds (cs : list Coin)
| WriteIssuance (cs : list Coin)
| WriteTR (epoch tr : Z)
| EraseTRs
| WriteSR (epoch sr : Z)
| EraseSRs
| WriteTSL (epoch tsl : Z)
| EraseTSLs
| Exempt (address : string)
| Unexempt (address : string).

Inductive query : Type -> Type :=
| TaxRate : query (res Z)
| RewardWeight : query (res Z)
| TaxCap (denom : string) : query (res Z)
| TaxCaps : query (res (list (string * Z)))
| Proceeds : query (res (list Coin))
| Issuance : query (res (list Coin))
| TR (epoch : Z) : query (res Z)
| SR (epoch : Z) : query (res Z)
| TSL (epoch : Z) : query (res Z)
| Exempted : query (list string).

Section runs.
Context `{KeyLib} `{SdkCodec} `{TreasuryCodec} `{AddrCodec}.
Definition write_bytes (c : call) : M Store unit :=
  match c with
  | WriteTaxRate r => SetTaxRate r
  | WriteRewardWeight w => SetRewardWeight w
  | WriteTaxCap d c => SetTaxCap d c
  | WriteProceeds cs => SetEpochTaxProceeds cs
  | WriteIssuance cs => SetEpochInitialIssuance cs
  | WriteTR e v => SetTR e v
  | EraseTRs => ClearTRs
  | WriteSR e v => SetSR e v
  | EraseSRs => ClearSRs
  | WriteTSL e v => SetTSL e v
  | EraseTSLs => ClearTSLs
  | Exempt a => AddBurnTaxExemptionAddress a
  | Unexempt a => RemoveBurnTaxExemptionAddress a
  end.
Definition read_bytes (policy : res Treasury.PolicyConstraints) A (q : query A) (st : Store) : A :=
  match q in query A return A with
  | TaxRate => GetTaxRate st
  | RewardWeight => GetRewardWeight st
  | TaxCap d => GetTaxCap policy st d
  | TaxCaps => IterateTaxCap st
  | Proceeds => PeekEpochTaxProceeds st
  | Issuance => GetEpochInitialIssuance st
  | TR e => GetTR st e
  | SR e => GetSR st e
  | TSL e => GetTSL st e
  | Exempted => exempt_addresses st
  end.

Context {B K D O : Type}.
Abbreviation State := (Treasury.State B K D O).
Definition write_state (c : call) : M State unit :=
  match c with
  | WriteTaxRate r => Treasury.SetTaxRate r
  | WriteRewardWeight w => Treasury.SetRewardWeight w
  | WriteTaxCap d c => Treasury.SetTaxCap d c
  | WriteProceeds cs => Treasury.SetEpochTaxProceeds cs
  | WriteIssuance cs => Treasury.SetEpochInitialIssuance cs
  | WriteTR e v => Treasury.SetTR e v
  | EraseTRs => Treasury.ClearTRs
  | WriteSR e v => Treasury.SetSR e v
  | EraseSRs => Treasury.ClearSRs
  | WriteTSL e v => Treasury.SetTSL e v
  | EraseTSLs => Treasury.ClearTSLs
  | Exempt a => Treasury.AddBurnTaxExemptionAddress a
  | Unexempt a => Treasury.RemoveBurnTaxExemptionAddress a
  end.
Definition read_state A (q : query A) (s : State) : A :=
  match q in query A return A with
  | TaxRate => Ok (Treasury.GetTaxRate s)
  | RewardWeight => Ok (Treasury.GetRewardWeight s)
  | TaxCap d => Treasury.GetTaxCap s d
  | TaxCaps => Ok (Treasury.IterateTaxCap s)
  | Proceeds => Ok (Treasury.PeekEpochTaxProceeds s)
  | Issuance => Ok (Treasury.GetEpochInitialIssuance s)
  | TR e => Ok (Treasury.GetTR s e)
  | SR e => Ok (Treasury.GetSR s e)
  | TSL e => Ok (Treasury.GetTSL s e)
  | Exempted => (kv_iter (gset_to_gmap tt (Treasury.st_exempt s))).*1
  end.
End runs.

(** ** The representation *)
Definition epoch_column {Y} (p : Z) (cd : codec Y) : column Z Y :=
  mkColumn p (fun e => Treasury.PutUint64 (u64 e)) cd is_i64.
Lemma epoch_bytes e : Forall is_byte (Treasury.PutUint64 (u64 e)).
Proof.
  apply Forall_map, Forall_true. intros i. unfold is_byte.
  change 255 with (Z.ones 8). rewrite Z.land_ones by lia. apply Z.mod_pos_bound. lia.
Qed.
Lemma epoch_column_ok {Y} p (cd : codec Y) : is_byte p -> Column (epoch_column p cd).
Proof.
  intros Hp. split; [done| |].
  - intros e _. apply epoch_bytes.
  - intros e1 e2 H1 H2 E. destruct (Treasury.epoch_keys_apart e1 e2 H1 H2) as [Hinj _].
    apply Hinj. exact (f_equal (cons 6) E).
Qed.

Section refinement.
Context `{KeyLaws} `{SdkCodec} `{TreasuryCodec} `{AddrCodec} {B K D O : Type}.
Context (policy : res Treasury.PolicyConstraints).
Implicit Types (st : Store) (s : Treasury.State B K D O).

Definition rate_cell : column unit Z := cell 1 DecProto.
Definition weight_cell : column unit Z := cell 2 DecProto.
Definition cap_column : column string Z := text_column 3 IntProto.
Definition proceeds_cell : column unit (list Coin) := cell 4 EpochTaxProceeds.
Definition issuance_cell : column unit (list Coin) := cell 5 EpochInitialIssuance.
Definition tr_column : column Z Z := epoch_column 6 DecProto.
Definition sr_column : column Z Z := epoch_column 7 DecProto.
Definition tsl_column : column Z Z := epoch_column 8 IntProto.
Definition exempt_column : column string unit := text_column 0x20 flag.

Record represents st s : Prop := {
  rep_rate : kept rate_cell st (fun _ => Treasury.st_taxrate s);
  rep_weight : kept weight_cell st (fun _ => Treasury.st_weight s);
  rep_caps : kept cap_column st (fun d => Treasury.st_caps s !! d);
  rep_proceeds : kept proceeds_cell st (fun _ => Treasury.st_proceeds s);
  rep_issuance : kept issuance_cell st (fun _ => Treasury.st_issuance s);
  rep_tr : kept tr_column st (fun e => Treasury.st_tr s !! e);
  rep_sr : kept sr_column st (fun e => Treasury.st_sr s !! e);
  rep_tsl : kept tsl_column st (fun e => Treasury.st_tsl s !! e);
  rep_exempt : kept exempt_column st (fun a => gset_to_gmap tt (Treasury.st_exempt s) !! a);
  rep_policy : Treasury.TaxPolicy s = policy;
  rep_only : only_prefixes [1; 2; 3; 4; 5; 6; 7; 8; 0x20] st;
}.

(** Epochs are int64, values fit their encodings. *)
Definition fine_call (c : call) : Prop :=
  match c with
  | WriteTaxRate v | WriteRewardWeight v => fits DecProto v
  | WriteTaxCap _ v => fits IntProto v
  | WriteProceeds cs => fits EpochTaxProceeds cs
  | WriteIssuance cs => fits EpochInitialIssuance cs
  | WriteTR e v | WriteSR e v => is_i64 e /\ fits DecProto v
  | WriteTSL e v => is_i64 e /\ fits IntProto v
  | _ => True
  end.
Definition fine_query A (q : query A) : Prop :=
  match q with TR e | SR e | TSL e => is_i64 e | _ => True end.

#[local] Instance rate_cell_ok : Column rate_cell.
Proof. by apply cell_ok. Qed.
#[local] Instance weight_cell_ok : Column weight_cell.
Proof. by apply cell_ok. Qed.
#[local] Instance cap_column_ok : Column cap_column.
Proof. by apply text_column_ok. Qed.
#[local] Instance proceeds_cell_ok : Column proceeds_cell.
Proof. by apply cell_ok. Qed.
#[local] Instance issuance_cell_ok : Column issuance_cell.
Proof. by apply cell_ok. Qed.
#[local] Instance tr_column_ok : Column tr_column.
Proof. by apply epoch_column_ok. Qed.
#[local] Instance sr_column_ok : Column sr_column.
Proof. by apply epoch_column_ok. Qed.
#[local] Instance tsl_column_ok : Column tsl_column.
Proof. by apply epoch_column_ok. Qed.
#[local] Instance exempt_column_ok : Column exempt_column.
Proof. by apply text_column_ok. Qed.

Lemma treasury_bytes st s : represents st s -> byte_keys st.
Proof. intros Hr. eapply only_prefixes_bytes, rep_only, Hr. by repeat constructor. Qed.

(** Deleting through the prefix store is deleting in the store below. *)
Lemma sub_clear_run p st : is_byte p -> byte_keys st ->
  sub_clear [p] st = delete_all (KVStorePrefixIterator st [p]) st.
Proof.
  intros Hp Hb. unfold sub_clear, sub_Iterator, delete_all.
  assert (forall k v, (k, v) ∈ KVStorePrefixIterator st [p] -> exists b, k = p :: b) as Hk.
  { intros k v Hin. by apply elem_of_prefix_iter in Hin as [_ ?]. }
  revert Hk. generalize (KVStorePrefixIterator st [p]) as l. clear Hb. intros l. revert st.
  induction l as [|[k v] l IH]; intros st Hk; [done|]. destruct (Hk k v) as [b ->]; [left|].
  apply (IH (base.delete (p :: b) st)). intros k' v' Hin. eapply Hk. by right.
Qed.

Lemma all_erased (m : gmap Z Z) : foldr (fun kv => base.delete kv.1) m (map_to_list m) = ∅.
Proof.
  assert (forall (l : list (Z * Z)) (acc : gmap Z Z) k,
    foldr (fun kv => base.delete kv.1) acc l !! k = if decide (k ∈ l.*1) then None else acc !! k) as Hl.
  { induction l as [|[k0 v0] l IH]; intros acc k; [done|]. cbn [foldr fst fmap list_fmap].
    destruct (decide (k = k0)) as [->|Hne].
    - rewrite lookup_delete_eq. by rewrite decide_True by apply list_elem_of_here.
    - rewrite lookup_delete_ne, IH by done. apply decide_ext. rewrite elem_of_cons. naive_solver. }
  apply map_eq. intros k. rewrite Hl, lookup_empty. case_decide as Hk; [done|].
  destruct (m !! k) as [v|] eqn:E; [|done]. destruct Hk. apply elem_of_map_to_list in E.
  by apply (list_elem_of_fmap_2 fst) in E.
Qed.

Ltac other_columns :=
  first [by apply kept_set_other | by apply kept_delete_other
        | by apply only_prefixes_delete
        | apply only_prefixes_set; [set_solver|apply epoch_bytes|done]
        | apply only_prefixes_set; [set_solver|apply text_bytes|done]
        | apply only_prefixes_set; [set_solver|by apply Forall_nil|done]].

(** One series is emptied. *)
Lemma series_cleared (c : column Z Z) `{!Column c} st look : byte_keys st -> kept c st look ->
  exists st', sub_clear [col_prefix c] st = (Ok tt, st') /\
    kept c st' (fun e => (∅ : gmap Z Z) !! e) /\ (forall k, is_Some (st' !! k) -> st' !! k = st !! k) /\
    (forall p b, p <> col_prefix c -> st' !! (p :: b) = st !! (p :: b)).
Proof.
  intros Hb Hk. destruct (kept_clear c st look Hb Hk) as (st' & E & Hk' & Hl & Hf). exists st'.
  rewrite sub_clear_run by (apply prefix_byte || done). split; [done|]. split; [|done].
  eapply kept_ext; [|exact Hk']. intros e. apply lookup_empty.
Qed.

(** A write that sets one key: the other columns, then its own. *)
Ltac set_one := do 3 eexists; split; [by apply run_set|]; split; [reflexivity|]; constructor;
  cbn -[Treasury.GetTRKey Treasury.GetSRKey Treasury.GetTSLKey]; try done; try other_columns.

Lemma series_refine c st s : represents st s -> c = EraseTRs \/ c = EraseSRs \/ c = EraseTSLs ->
  exists r st' s', write_bytes c st = (r, st') /\ write_state c s = (r, s') /\ represents st' s'.
Proof.
  intros Hr Hc. pose proof (treasury_bytes _ _ Hr) as Hb. destruct Hr as [R1 R2 R3 R4 R5 R6 R7 R8 R9 RP RO].
  destruct Hc as [-> | [-> | ->]];
    [destruct (series_cleared tr_column st _ Hb R6) as (st' & E & Hk & Hl & Hf)
    |destruct (series_cleared sr_column st _ Hb R7) as (st' & E & Hk & Hl & Hf)
    |destruct (series_cleared tsl_column st _ Hb R8) as (st' & E & Hk & Hl & Hf)].
  all: do 3 eexists; split; [exact E|split; [reflexivity|constructor; cbn]].
  all: rewrite ?all_erased; try done; try (by eapply only_prefixes_less).
  all: eapply kept_frame; [intros b; by apply Hf|done].
Qed.

Lemma exempt_refine c a st s : represents st s -> c = Exempt a \/ c = Unexempt a ->
  exists r st' s', write_bytes c st = (r, st') /\ write_state c s = (r, s') /\ represents st' s'.
Proof.
  intros Hr Hc. pose proof Hr as [R1 R2 R3 R4 R5 R6 R7 R8 R9 RP RO].
  pose proof (kept_get exempt_column st _ a R9 I) as Ha. cbn [col_key] in Ha.
  destruct Hc as [->| ->]; cbn [write_bytes write_state];
    unfold AddBurnTaxExemptionAddress, Treasury.AddBurnTaxExemptionAddress,
      RemoveBurnTaxExemptionAddress, Treasury.RemoveBurnTaxExemptionAddress, must, mbind, M_bind, get;
    cbn -[bool_decide]; (destruct (AccAddressFromBech32 a); cbn -[bool_decide]; [|by do 3 eexists..]).
  - do 3 eexists. split; [reflexivity|]. split; [reflexivity|]. constructor; cbn; try done; try other_columns.
    rewrite gset_to_gmap_union_singleton. by apply (kept_insert exempt_column).
  - case_bool_decide as E; case_bool_decide as E'.
    + by do 3 eexists.
    + exfalso. rewrite lookup_gset_to_gmap, option_guard_True in Ha by done. change (st !! (32 :: text a) = Some [1]) in Ha. congruence.
    + exfalso. apply E. etrans; [exact Ha|]. by rewrite lookup_gset_to_gmap, option_guard_False.
    + do 3 eexists. split; [reflexivity|]. split; [reflexivity|]. constructor; cbn; try done; try other_columns.
      rewrite gset_to_gmap_difference_singleton. by apply (kept_remove exempt_column).
Qed.

Lemma treasury_write_refines c st s : represents st s -> fine_call c ->
  exists r st' s', write_bytes c st = (r, st') /\ write_state c s = (r, s') /\ represents st' s'.
Proof.
  intros Hr Hc. pose proof Hr as [R1 R2 R3 R4 R5 R6 R7 R8 R9 RP RO].
  destruct c; cbn in Hc; try match type of Hc with _ /\ _ => destruct Hc as [He Hc] end.
  all: try (by apply series_refine; auto). all: try (by eapply exempt_refine; eauto).
  - set_one. by eapply (cell_set 1).
  - set_one. by eapply (cell_set 2).
  - set_one. by apply (kept_insert cap_column).
  - set_one. by eapply (cell_set 4).
  - set_one. by eapply (cell_set 5).
  - set_one. by apply (kept_insert tr_column).
  - set_one. by apply (kept_insert sr_column).
  - set_one. by apply (kept_insert tsl_column).
Qed.

(** The iterator of a prefix store over texts. *)
Lemma sub_read {Y} p (cd : codec Y) st (m : gmap string Y) : is_byte p -> byte_keys st ->
  kept (text_column p cd) st (fun x => m !! x) ->
  mapM (fun kv : bytes * bytes => v ← MustUnmarshal cd kv.2; Ok (string_of kv.1, v)) (sub_Iterator [p] st) = Ok (kv_iter m).
Proof.
  intros Hp Hb Hk.
  rewrite <- (text_column_iter p cd st m (fun k => string_of (drop 1 k)) Hp Hb Hk) by (intros; apply string_of_text).
  unfold sub_Iterator. induction (KVStorePrefixIterator st [p]) as [|kv l IH]; [done|].
  cbn in IH |- *. destruct (MustUnmarshal cd kv.2); cbn; [|done..]. by rewrite IH.
Qed.

Lemma exempt_read st s : byte_keys st -> represents st s ->
  exempt_addresses st = (kv_iter (gset_to_gmap tt (Treasury.st_exempt s))).*1.
Proof.
  intros Hb Hr. unfold exempt_addresses, sub_Iterator. rewrite map_map.
  pose proof (kept_iter exempt_column st _ Hb (rep_exempt _ _ Hr)) as E.
  change (KVStorePrefixIterator st BurnTaxExemptionListPrefix) with (KVStorePrefixIterator st [col_prefix exempt_column]).
  rewrite E by (intros x x' _ _; cbn; by rewrite leb_text). rewrite map_map. apply map_ext.
  intros [a []]. cbn -[string_of]. apply string_of_text.
Qed.

Lemma treasury_read_refines A (q : query A) st s : represents st s -> fine_query A q -> read_bytes policy A q st = read_state A q s.
Proof.
  intros Hr Hq. pose proof (treasury_bytes _ _ Hr) as Hb. pose proof Hr as [R1 R2 R3 R4 R5 R6 R7 R8 R9 RP RO].
  destruct q as [| |d| | | |e|e|e|]; cbn in Hq; cbn [read_bytes read_state];
    unfold GetTaxRate, GetRewardWeight, GetTaxCap, PeekEpochTaxProceeds, GetEpochInitialIssuance, GetTR, GetSR, GetTSL,
      Treasury.GetTaxRate, Treasury.GetRewardWeight, Treasury.GetTaxCap, Treasury.PeekEpochTaxProceeds,
      Treasury.GetEpochInitialIssuance, Treasury.GetTR, Treasury.GetSR, Treasury.GetTSL.
  - rewrite (read_kept rate_cell st _ tt _ _ _ id R1); [by case_match|done|done|apply must_read_back].
  - rewrite (read_kept weight_cell st _ tt _ _ _ id R2); [by case_match|done|done|apply must_read_back].
  - rewrite (read_kept cap_column st _ d _ _ _ id R3); [|done|done|apply must_read_back]. rewrite RP. by case_match.
  - by apply sub_read.
  - rewrite (read_kept proceeds_cell st _ tt _ _ _ id R4); [by case_match|done|done|apply must_read_back].
  - rewrite (read_kept issuance_cell st _ tt _ _ _ id R5); [by case_match|done|done|apply must_read_back].
  - rewrite (read_kept tr_column st _ e _ _ _ id R6); [by case_match|done|done|apply must_read_back].
  - rewrite (read_kept sr_column st _ e _ _ _ id R7); [by case_match|done|done|apply must_read_back].
  - rewrite (read_kept tsl_column st _ e _ _ _ id R8); [by case_match|done|done|apply must_read_back].
  - by apply exempt_read.
Qed.

(** C30: the keeper of the treasury on bytes implements the keeper on its
    state: from a store that represents a state every program of the keeper
    gives the result it gives on the state, also when removing an exemption
    fails or an address is malformed, and leaves a store that represents the
    state it leaves. *)
Theorem treasury_on_bytes {X} (p : program call query X) st s :
  represents st s -> fine_program fine_call fine_query p ->
  exists r st' s', run write_bytes (read_bytes policy) p st = (r, st') /\
    run write_state read_state p s = (r, s') /\ represents st' s'.
Proof.
  apply (run_refines write_bytes (read_bytes policy) represents fine_call fine_query write_state read_state);
    [apply treasury_read_refines|apply treasury_write_refines].
Qed.
End refinement.

(** ** simulation/decoder.go *)
Class TreasuryFormat : Type := { show_dec : Z -> string; show_int : Z -> string; show_coins : list Coin -> string }.

Section decoder.
Context `{SdkCodec} `{TreasuryCodec} `{TreasuryFormat}.
Definition NewDecodeStore (kvA kvB : bytes * bytes) : res string :=
  match kvA.1 with
  | [] => Panic
  | c :: _ =>
      if bool_decide ([c] = TaxRateKey) then decode_pair DecProto show_dec kvA.2 kvB.2
      else if bool_decide ([c] = RewardWeightKey) then decode_pair DecProto show_dec kvA.2 kvB.2
      else if bool_decide ([c] = Treasury.TaxCapKey) then decode_pair IntProto show_int kvA.2 kvB.2
      else if bool_decide ([c] = TaxProceedsKey) then decode_pair EpochTaxProceeds show_coins kvA.2 kvB.2
      else if bool_decide ([c] = EpochInitialIssuanceKey) then decode_pair EpochInitialIssuance show_coins kvA.2 kvB.2
      else if bool_decide ([c] = Treasury.TRKey) then decode_pair DecProto show_dec kvA.2 kvB.2
      else if bool_decide ([c] = Treasury.SRKey) then decode_pair DecProto show_dec kvA.2 kvB.2
      else if bool_decide ([c] = Treasury.TSLKey) then decode_pair IntProto show_int kvA.2 kvB.2
      else Panic
  end.

(** the decoder of the simulation reads the entries of a treasury store
    but not the exempt addresses: under the same key of two stores that
    represent states it gives both texts, unless the key is that of an exempt
    address; there it panics, and every exempt address has such an entry. *)
Theorem treasury_decoder_misses_exemptions {B K D O : Type} policy1 policy2 st1 st2
    (s1 s2 : Treasury.State B K D O) :
  represents policy1 st1 s1 -> represents policy2 st2 s2 ->
  (forall k v1 v2, st1 !! k = Some v1 -> st2 !! k = Some v2 -> head k <> Some 0x20 ->
     is_ok (NewDecodeStore (k, v1) (k, v2)) = true) /\
  (forall a kvB, a ∈ Treasury.st_exempt s1 -> exists v, st1 !! (BurnTaxExemptionListPrefix ++ text a) = Some v /\
     NewDecodeStore (BurnTaxExemptionListPrefix ++ text a, v) kvB = Panic).
Proof.
  intros [R1 R2 R3 R4 R5 R6 R7 R8 R9 _ RO] [Q1 Q2 Q3 Q4 Q5 Q6 Q7 Q8 _ _ _]. split.
  - intros k v1 v2 E1 E2 Hh. destruct (RO k v1 E1) as (p & b & -> & Hp & _).
    rewrite !elem_of_cons, elem_of_nil in Hp. unfold NewDecodeStore. cbn -[bool_decide].
    destruct Hp as [->|[->|[->|[->|[->|[->|[->|[->|[->|[]]]]]]]]]];
      repeat (first [rewrite bool_decide_true by done|rewrite bool_decide_false by done]).
    + exact (decode_kept rate_cell _ _ _ _ _ _ _ _ R1 Q1 E1 E2).
    + exact (decode_kept weight_cell _ _ _ _ _ _ _ _ R2 Q2 E1 E2).
    + exact (decode_kept cap_column _ _ _ _ _ _ _ _ R3 Q3 E1 E2).
    + exact (decode_kept proceeds_cell _ _ _ _ _ _ _ _ R4 Q4 E1 E2).
    + exact (decode_kept issuance_cell _ _ _ _ _ _ _ _ R5 Q5 E1 E2).
    + exact (decode_kept tr_column _ _ _ _ _ _ _ _ R6 Q6 E1 E2).
    + exact (decode_kept sr_column _ _ _ _ _ _ _ _ R7 Q7 E1 E2).
    + exact (decode_kept tsl_column _ _ _ _ _ _ _ _ R8 Q8 E1 E2).
    + done.
  - intros a kvB Ha. pose proof (text_column_ok 0x20 flag ltac:(done)) as Hc.
    pose proof (kept_get exempt_column st1 _ a R9 I) as E. cbv beta in E. rewrite lookup_gset_to_gmap, option_guard_True in E by done.
    eexists. split; [exact E|]. reflexivity.
Qed.
End decoder.

(** ** Concrete runs *)
Module Example.
Program Definition coins_codec : codec (list Coin) :=
  mkCodec (fun cs => MustMarshal (bits_codec (fun _ => True)) (map (fun c => (Denom c, Amount c)) cs))
    (fun b => l ← Unmarshal (X := list (string * Z)) (bits_codec (fun _ => True)) b;
              Some (map (fun da => mkCoin da.1 da.2) l)) (fun _ => True) _.
Next Obligation.
  intros cs _. cbv beta. rewrite read_back by done. cbn. rewrite map_map. f_equal.
  etrans; [|apply map_id]. apply map_ext. by intros [].
Qed.
#[export] Instance treasury_codec : TreasuryCodec := {
  EpochTaxProceeds := coins_codec; EpochInitialIssuance := coins_codec;
}.
#[export] Instance treasury_format : TreasuryFormat := {
  show_dec := pretty; show_int := pretty; show_coins cs := pretty (Z.of_nat (length cs));
}.

Definition start : Treasury.Example.St := Treasury.on_params (fun _ => Treasury.DefaultParams) Treasury.Example.empty.
Lemma start_represents : represents (Ok Treasury.DefaultTaxPolicy) ∅ start.
Proof.
  constructor; try (apply kept_empty; intros; try done; apply lookup_empty); [reflexivity|apply only_prefixes_empty].
Qed.

(** Two epochs are recorded and erased, an address is exempted, and one that
    is not exempt is removed. *)
Definition epochs : program call query (list string) :=
  Write (WriteTR 1 5) (Write (WriteTR (-1) 6) (Write EraseTRs (Write (WriteTaxCap "uusd" 9)
  (Write (Exempt "do1kim") (Read Exempted (fun l => Write (Unexempt "do1lee") (Done l))))))).
End Example.
#[local] Existing Instances Example.treasury_codec Example.treasury_format.

Lemma treasury_on_bytes_witness : exists st' s',
  run write_bytes (read_bytes (Ok Treasury.DefaultTaxPolicy)) Example.epochs ∅
    = (Err Treasury.ErrNoSuchBurnTaxExemptionAddress, st') /\
  represents (Ok Treasury.DefaultTaxPolicy) st' (s' : Treasury.Example.St) /\
  read_bytes (Ok Treasury.DefaultTaxPolicy) _ Exempted st' = ["do1kim"] /\
  read_bytes (Ok Treasury.DefaultTaxPolicy) _ (TR 1) st' = Ok 0.
Proof.
  destruct (treasury_on_bytes (Ok Treasury.DefaultTaxPolicy) Example.epochs ∅ Example.start Example.start_represents)
    as (r & st' & s' & E1 & E2 & Hr).
  { repeat split; cbn; lia. }
  assert (r = Err Treasury.ErrNoSuchBurnTaxExemptionAddress) as ->.
  { apply (f_equal fst) in E1. cbn [fst] in E1. rewrite <- E1. vm_compute. reflexivity. }
  exists st', s'. split; [exact E1|]. split; [exact Hr|].
  apply (f_equal snd) in E1. cbn [snd] in E1. rewrite <- E1. split; vm_compute; reflexivity.
Defined.

Lemma treasury_decoder_misses_exemptions_witness :
  exists st : Store, NewDecodeStore (BurnTaxExemptionListPrefix ++ text "do1kim", [1]) (BurnTaxExemptionListPrefix ++ text "do1kim", [1]) = Panic /\
    st !! (BurnTaxExemptionListPrefix ++ text "do1kim") = Some [1].
Proof.
  destruct (treasury_write_refines (Ok Treasury.DefaultTaxPolicy) (Exempt "do1kim") ∅ Example.start Example.start_represents I)
    as (r & st & s & E & E' & Hr).
  assert ("do1kim" ∈ Treasury.st_exempt s) as Hin.
  { apply (f_equal snd) in E'. cbn [snd] in E'. rewrite <- E'. vm_compute. by constructor. }
  destruct (proj2 (treasury_decoder_misses_exemptions _ _ st st s s Hr Hr) "do1kim"
    (BurnTaxExemptionListPrefix ++ text "do1kim", [1]) Hin) as (v & Hv & Hp).
  assert (v = [1]) as ->.
  { apply (f_equal snd) in E. cbn [snd] in E. rewrite <- E in Hv. vm_compute in Hv. by injection Hv as <-. }
  exists st. split; [exact Hp|exact Hv].
Defined.
