(* ===== verification/ModuleStores.v ===== *)
(** * The other modules on the bytes of their stores

    [Dodx]: stakes, their total and the switch of DODx governance
    ([src/x/dodxstaking/types/keys.go], [keeper/keeper.go]).  [Pool]: the delta
    of the market's pool and the write it leaves out after a height
    ([src/x/market/types/keys.go], [keeper/keeper.go], [simulation/decoder.go]).
    [Rates]: the commission rates of dyncomm, whose iterator walks through the
    whole store ([src/x/dyncomm/types/keys.go], [keeper/dyncomm.go]).

    Programs over these keepers give the same results as over the states of
    [DodxStaking.v], [Market.v] and [Dyncomm.v]; the left-out write changes
    nothing. *)
From stdpp Require Import base gmap sets list strings fin_maps sorting pretty.
From Stdlib Require Import ZArith Lia.
From S2P Require Import Prelude Sdk SdkRef Core WasmKeys Columns.
From S2P Require DodxStaking Market Dyncomm.
#[local] Open Scope Z_scope.

(** Reading the store, which may panic. *)
Definition reads {S X} (f : S -> res X) : M S X := fun s => (f s, s).

(** ** Steps that keep two states related *)
Definition sim {S1 S2 X} (R : S1 -> S2 -> Prop) (m1 : M S1 X) (m2 : M S2 X) : Prop :=
  forall s1 s2, R s1 s2 -> exists r s1' s2', m1 s1 = (r, s1') /\ m2 s2 = (r, s2') /\ R s1' s2'.

Section sim.
Context {S1 S2 : Type} (R : S1 -> S2 -> Prop).
Lemma sim_bind {X Y} (m1 : M S1 X) (m2 : M S2 X) (k1 : X -> M S1 Y) (k2 : X -> M S2 Y) (P : X -> Prop) :
  sim R m1 m2 -> (forall s1 s2 x s1', R s1 s2 -> m1 s1 = (Ok x, s1') -> P x) ->
  (forall x, P x -> sim R (k1 x) (k2 x)) -> sim R (x ← m1; k1 x) (x ← m2; k2 x).
Proof.
  intros Hm HP Hk s1 s2 Hr. destruct (Hm s1 s2 Hr) as (r & s1' & s2' & E1 & E2 & Hr').
  unfold mbind, M_bind. rewrite E1, E2. destruct r as [x|e|].
  - apply (Hk x); [exact (HP s1 s2 x s1' Hr E1)|done].
  - by exists (Err e), s1', s2'.
  - by exists Panic, s1', s2'.
Qed.
Lemma sim_reads {X} (f1 : S1 -> res X) (f2 : S2 -> X) : (forall s1 s2, R s1 s2 -> f1 s1 = Ok (f2 s2)) ->
  sim R (reads f1) (gets f2).
Proof. intros Hf s1 s2 Hr. exists (Ok (f2 s2)), s1, s2. unfold reads, gets. by rewrite (Hf s1 s2 Hr). Qed.
Lemma sim_lift {X} (r : res X) : sim R (lift r) (lift r).
Proof. intros s1 s2 Hr. by exists r, s1, s2. Qed.
Lemma sim_throw {X} e : sim R (throw (A := X) e) (throw e).
Proof. intros s1 s2 Hr. by exists (Err e), s1, s2. Qed.
End sim.

(** What the arithmetic of [math.Int] returns can be stored. *)
Class IntStored `{MathOps} `{SdkCodec} : Prop := {
  added_fits a b c : IntAdd a b = Ok c -> fits IntProto c;
  subtracted_fits a b c : IntSub a b = Ok c -> fits IntProto c;
}.

(** ** x/dodxstaking *)
Module Dodx.
Definition TotalStakedKey : bytes := [0x02].
Definition GovernanceEnabledKey : bytes := [0x03].
Definition GovernanceEnabledFlag : bytes := [0x01].

Section keeper.
Context `{KeyLib} `{SdkCodec} `{MathOps}.
Implicit Types st : Store.

(** [make] and [copy]: the prefix and the address behind it. *)
Definition stakeKey (addr : AccAddress) : bytes := copy_at (1 :: make (length (text addr))) 1 (text addr).

Definition GetStakeAmount st (addr : AccAddress) : res Z :=
  read_at st (Ok (stakeKey addr)) (Ok 0) (MustUnmarshal IntProto).
Definition SetStakeAmount (addr : AccAddress) (amount : Z) : M Store unit :=
  if amount =? 0 then delete_at (Ok (stakeKey addr)) else set_at (Ok (stakeKey addr)) (MustMarshal IntProto amount).
Definition GetTotalStakedAmount st : res Z := read_at st (Ok TotalStakedKey) (Ok 0) (MustUnmarshal IntProto).
Definition SetTotalStakedAmount (amount : Z) : M Store unit :=
  if amount =? 0 then delete_at (Ok TotalStakedKey) else set_at (Ok TotalStakedKey) (MustMarshal IntProto amount).
Definition AddStake (addr : AccAddress) (amount : Z) : M Store unit :=
  cur ← reads (fun st => GetStakeAmount st addr);
  v ← lift (IntAdd cur amount);
  SetStakeAmount addr v ;;
  total ← reads GetTotalStakedAmount;
  t ← lift (IntAdd total amount);
  SetTotalStakedAmount t.
Definition RemoveStake (addr : AccAddress) (amount : Z) : M Store unit :=
  current ← reads (fun st => GetStakeAmount st addr);
  if current <? amount then throw DodxStaking.ErrInsufficientStake
  else
    v ← lift (IntSub current amount);
    SetStakeAmount addr v ;;
    total ← reads GetTotalStakedAmount;
    t ← lift (IntSub total amount);
    SetTotalStakedAmount t.
Definition IterateStakes st : res (list (string * Z)) :=
  mapM (fun kv : bytes * bytes => v ← MustUnmarshal IntProto kv.2; Ok (string_of (drop 1 kv.1), v))
    (KVStorePrefixIterator st [0x01]).
Definition SetGovernanceEnabled (enabled : bool) : M Store unit :=
  if negb enabled then delete_at (Ok GovernanceEnabledKey) else set_at (Ok GovernanceEnabledKey) GovernanceEnabledFlag.
Definition GovernanceEnabled st : bool := bool_decide (is_Some (st !! GovernanceEnabledKey)).
End keeper.

Inductive call : Type :=
| WriteStake (addr : AccAddress) (amount : Z)
| WriteTotal (amount : Z)
| Add (addr : AccAddress) (amount : Z)
| Remove (addr : AccAddress) (amount : Z)
| Enable (enabled : bool).
Inductive query : Type -> Type :=
| Stake (addr : AccAddress) : query (res Z)
| Total : query (res Z)
| Stakes : query (res (list (string * Z)))
| Enabled : query bool.

Section runs.
Context `{KeyLib} `{SdkCodec} `{MathOps} {B : Type}.
Definition write_bytes (c : call) : M Store unit :=
  match c with
  | WriteStake a v => SetStakeAmount a v
  | WriteTotal v => SetTotalStakedAmount v
  | Add a v => AddStake a v
  | Remove a v => RemoveStake a v
  | Enable e => SetGovernanceEnabled e
  end.
Definition read_bytes A (q : query A) (st : Store) : A :=
  match q in query A return A with
  | Stake a => GetStakeAmount st a
  | Total => GetTotalStakedAmount st
  | Stakes => IterateStakes st
  | Enabled => GovernanceEnabled st
  end.
Definition write_state (c : call) : M (DodxStaking.State B) unit :=
  match c with
  | WriteStake a v => DodxStaking.SetStakeAmount a v
  | WriteTotal v => DodxStaking.SetTotalStakedAmount v
  | Add a v => DodxStaking.AddStake a v
  | Remove a v => DodxStaking.RemoveStake a v
  | Enable e => DodxStaking.SetGovernanceEnabled e
  end.
Definition read_state A (q : query A) (s : DodxStaking.State B) : A :=
  match q in query A return A with
  | Stake a => Ok (DodxStaking.GetStakeAmount s a)
  | Total => Ok (DodxStaking.GetTotalStakedAmount s)
  | Stakes => Ok (kv_iter (DodxStaking.st_stakes s))
  | Enabled => DodxStaking.GovernanceEnabled s
  end.
End runs.

Section refinement.
Context `{KeyLaws} `{SdkCodec} `{MathOps} `{!IntStored} {B : Type}.
Implicit Types (st : Store) (s : DodxStaking.State B).

Definition stake_column : column string Z := text_column 1 IntProto.
Definition total_cell : column unit Z := cell 2 IntProto.
Definition enabled_cell : column unit unit := cell 3 flag.

Record represents st s : Prop := {
  rep_stakes : kept stake_column st (fun a => DodxStaking.st_stakes s !! a);
  rep_total : kept total_cell st (fun _ => DodxStaking.st_total s);
  rep_enabled : kept enabled_cell st (fun _ => if DodxStaking.st_enabled s then Some tt else None);
  rep_only : only_prefixes [1; 2; 3] st;
}.
Definition fine_call (c : call) : Prop :=
  match c with WriteStake _ v | WriteTotal v => fits IntProto v | _ => True end.

#[local] Instance stake_column_ok : Column stake_column.
Proof. by apply text_column_ok. Qed.
#[local] Instance total_cell_ok : Column total_cell.
Proof. by apply cell_ok. Qed.
#[local] Instance enabled_cell_ok : Column enabled_cell.
Proof. by apply cell_ok. Qed.

Lemma stake_key a : stakeKey a = 1 :: text a.
Proof.
  unfold stakeKey, copy_at, make. set (t := text a). cbn [length take]. rewrite length_replicate, drop_ge.
  - rewrite app_nil_r. cbn. f_equal. apply firstn_all2. lia.
  - cbn. rewrite length_replicate. lia.
Qed.

Ltac others := first [by apply kept_set_other | by apply kept_delete_other | by apply only_prefixes_delete
  | apply only_prefixes_set; [set_solver|apply text_bytes|done]
  | apply only_prefixes_set; [set_solver|by apply Forall_nil|done]].
Ltac settle R := destruct R as [R1 R2 R3 R4]; do 3 eexists; split; [reflexivity|split; [reflexivity|]];
  constructor; cbn; try done; try others.

Lemma set_stake_sim a v : fits IntProto v -> sim represents (SetStakeAmount a v) (DodxStaking.SetStakeAmount a v).
Proof.
  intros Hv st s R. unfold SetStakeAmount, DodxStaking.SetStakeAmount. rewrite stake_key. destruct (v =? 0).
  - settle R. by apply (kept_remove stake_column).
  - settle R. by apply (kept_insert stake_column).
Qed.
Lemma set_total_sim v : fits IntProto v -> sim represents (SetTotalStakedAmount v) (DodxStaking.SetTotalStakedAmount v).
Proof.
  intros Hv st s R. unfold SetTotalStakedAmount, DodxStaking.SetTotalStakedAmount. destruct (v =? 0).
  - settle R. by eapply (cell_delete 2).
  - settle R. by eapply (cell_set 2).
Qed.
Lemma enable_sim e : sim represents (SetGovernanceEnabled e) (DodxStaking.SetGovernanceEnabled e).
Proof.
  intros st s R. unfold SetGovernanceEnabled, DodxStaking.SetGovernanceEnabled. destruct e; cbn [negb].
  - settle R. by eapply (cell_set 3 flag _ _ tt).
  - settle R. by eapply (cell_delete 3).
Qed.

Lemma read_stake a st s : represents st s -> GetStakeAmount st a = Ok (DodxStaking.GetStakeAmount s a).
Proof.
  intros [R1 _ _ _]. unfold GetStakeAmount, DodxStaking.GetStakeAmount.
  rewrite (read_kept stake_column st _ a _ _ _ id R1); [by case_match|done|by rewrite stake_key|apply must_read_back].
Qed.
Lemma read_total st s : represents st s -> GetTotalStakedAmount st = Ok (DodxStaking.GetTotalStakedAmount s).
Proof.
  intros [_ R2 _ _]. unfold GetTotalStakedAmount, DodxStaking.GetTotalStakedAmount.
  rewrite (read_kept total_cell st _ tt _ _ _ id R2); [by case_match|done|done|apply must_read_back].
Qed.

(** An update of the stake and then of the total, by the same arithmetic. *)
Lemma update_sim a (f g : Z -> res Z) :
  (forall x y, f x = Ok y -> fits IntProto y) -> (forall x y, g x = Ok y -> fits IntProto y) -> forall x,
  sim represents
    (v ← lift (f x); SetStakeAmount a v ;; total ← reads GetTotalStakedAmount; t ← lift (g total); SetTotalStakedAmount t)
    (v ← lift (f x); DodxStaking.SetStakeAmount a v ;;
     total ← gets DodxStaking.GetTotalStakedAmount; t ← lift (g total); DodxStaking.SetTotalStakedAmount t).
Proof.
  intros Hf Hg x. apply (sim_bind _ _ _ _ _ (fits IntProto)); [apply sim_lift|intros ???? _ [= E _]; by eapply Hf|].
  intros v Hv. apply (sim_bind _ _ _ _ _ (fun _ => True)); [by apply set_stake_sim|done|]. intros _ _.
  apply (sim_bind _ _ _ _ _ (fun _ => True)); [apply sim_reads, read_total|done|]. intros total _.
  apply (sim_bind _ _ _ _ _ (fits IntProto)); [apply sim_lift|intros ???? _ [= E _]; by eapply Hg|].
  intros t Ht. by apply set_total_sim.
Qed.
Lemma add_sim a v : sim represents (AddStake a v) (DodxStaking.AddStake a v).
Proof.
  unfold AddStake, DodxStaking.AddStake.
  apply (sim_bind _ _ _ _ _ (fun _ => True)); [apply sim_reads, read_stake|done|]. intros cur _.
  apply (update_sim a (fun x => IntAdd x v) (fun x => IntAdd x v)); intros x y; apply added_fits.
Qed.
Lemma remove_sim a v : sim represents (RemoveStake a v) (DodxStaking.RemoveStake a v).
Proof.
  unfold RemoveStake, DodxStaking.RemoveStake.
  apply (sim_bind _ _ _ _ _ (fun _ => True)); [apply sim_reads, read_stake|done|]. intros cur _.
  destruct (cur <? v); [apply sim_throw|].
  apply (update_sim a (fun x => IntSub x v) (fun x => IntSub x v)); intros x y; apply subtracted_fits.
Qed.

Lemma stake_write_refines c st s : represents st s -> fine_call c ->
  exists r st' s', write_bytes c st = (r, st') /\ write_state c s = (r, s') /\ represents st' s'.
Proof.
  intros Hr Hc. destruct c; cbn in Hc |- *; revert st s Hr;
    [by apply set_stake_sim|by apply set_total_sim|apply add_sim|apply remove_sim|apply enable_sim].
Qed.
Lemma stake_read_refines A (q : query A) st s : represents st s -> True -> read_bytes A q st = read_state A q s.
Proof.
  intros Hr _. destruct q; cbn [read_bytes read_state].
  - by apply read_stake.
  - by apply read_total.
  - apply (text_column_iter 1 IntProto st _ (fun k => string_of (drop 1 k))); [done| |apply Hr|intros; apply string_of_text].
    eapply only_prefixes_bytes, rep_only, Hr. by repeat constructor.
  - unfold GovernanceEnabled, DodxStaking.GovernanceEnabled.
    change (st !! GovernanceEnabledKey) with (st !! col_key enabled_cell tt).
    rewrite (kept_get enabled_cell st _ tt (rep_enabled _ _ Hr) I). cbv beta. by destruct (DodxStaking.st_enabled s).
Qed.

(** C9: the keeper of DODx stakes on bytes implements the keeper on maps:
    every program that adds and removes stakes, switches governance and reads
    stakes, totals and the iterator gives the same results, refusals and
    panics of the arithmetic included, and the store keeps representing the
    state. *)
Theorem stakes_on_bytes {X} (p : program call query X) st s :
  represents st s -> fine_program fine_call (fun _ _ => True) p ->
  exists r st' s', run write_bytes read_bytes p st = (r, st') /\
    run write_state read_state p s = (r, s') /\ represents st' s'.
Proof.
  apply (run_refines write_bytes read_bytes represents fine_call (fun _ _ => True) write_state read_state);
    [apply stake_read_refines|apply stake_write_refines].
Qed.
End refinement.
End Dodx.

(** ** x/market *)
Module Pool.
Definition DoPoolDeltaKey : bytes := [0x01].

Section keeper.
Context `{SdkCodec}.
Implicit Types st : Store.
Definition GetDoPoolDelta st : res Z :=
  read_at st (Ok DoPoolDeltaKey) (Ok LegacyZeroDec) (MustUnmarshal DecProto).

(** [bytes.Equal] takes a missing value for an empty one. *)
Definition SetDoPoolDelta (ctx : Ctx) (delta : Z) : M Store unit := fun st =>
  let bz := MustMarshal DecProto delta in
  if (ReplayWriteOptimizationHeight <=? BlockHeight ctx) && bool_decide (default [] (st !! DoPoolDeltaKey) = bz)
  then (Ok tt, st)
  else set_at (Ok DoPoolDeltaKey) bz st.

(** simulation/decoder.go *)
Definition NewDecodeStore (show_dec : Z -> string) (kvA kvB : bytes * bytes) : res string :=
  match kvA.1 with
  | [] => Panic
  | c :: _ => if bool_decide ([c] = DoPoolDeltaKey) then decode_pair DecProto show_dec kvA.2 kvB.2 else Panic
  end.
End keeper.

(** The encoding of a decimal is its digits, never the empty string. *)
Class DecNonEmpty `{SdkCodec} : Prop := dec_nonempty d : MustMarshal DecProto d <> [].

Section refinement.
Context `{SdkCodec} `{!DecNonEmpty} {B O : Type}.
Implicit Types (st : Store) (s : Market.State B O).
Definition delta_cell : column unit Z := cell 1 DecProto.
Definition represents st s : Prop :=
  kept delta_cell st (fun _ => Market.st_delta s) /\ only_prefixes [1] st.
#[local] Instance delta_cell_ok : Column delta_cell.
Proof. by apply cell_ok. Qed.

Lemma set_delta_run ctx delta st :
  SetDoPoolDelta ctx delta st = (Ok tt, <[DoPoolDeltaKey := MustMarshal DecProto delta]> st).
Proof.
  unfold SetDoPoolDelta. destruct (_ <=? _); [|done]. cbn -[bool_decide].
  case_bool_decide as E; [|done]. f_equal. symmetry. apply insert_id.
  destruct (st !! DoPoolDeltaKey) as [b|]; cbn in E; [by subst|]. by destruct (dec_nonempty delta).
Qed.

(** the write the market leaves out changes nothing: whatever the height
    and the store, setting the delta leaves the store with the new value, as
    it was left before the heights at which equal writes are skipped. *)
Theorem skipped_write_invisible ctx ctx' delta st :
  SetDoPoolDelta ctx delta st = SetDoPoolDelta ctx' delta st /\
  SetDoPoolDelta ctx delta st = (Ok tt, <[DoPoolDeltaKey := MustMarshal DecProto delta]> st).
Proof.
  by rewrite !set_delta_run.
Qed.

(** the pool delta on bytes implements the delta of the state: a read
    gives the state's delta, zero when there is none, a write of a storable
    delta keeps the store representing the state at every height, and the
    decoder of the simulation reads the only entry. *)
Theorem delta_on_bytes ctx delta show_dec st s :
  represents st s -> fits DecProto delta ->
  GetDoPoolDelta st = Ok (Market.GetDoPoolDelta s) /\
  exists st' s', SetDoPoolDelta ctx delta st = (Ok tt, st') /\
    Market.SetDoPoolDelta ctx delta s = (Ok tt, s') /\ represents st' s' /\
    forall k v, st' !! k = Some v -> NewDecodeStore show_dec (k, v) (k, v) = Ok (two_lines (show_dec delta) (show_dec delta)).
Proof.
  intros [R1 R2] Hd. split.
  { unfold GetDoPoolDelta, Market.GetDoPoolDelta.
    rewrite (read_kept delta_cell st _ tt _ _ _ id R1); [by case_match|done|done|apply must_read_back]. }
  set (st' := <[DoPoolDeltaKey := MustMarshal DecProto delta]> st).
  assert (SetDoPoolDelta ctx delta st = (Ok tt, st')) as E by apply set_delta_run.
  assert (kept delta_cell st' (fun _ => Some delta)) as Hk by by eapply (cell_set 1).
  assert (only_prefixes [1] st') as Ho by (apply only_prefixes_set; [set_solver|by apply Forall_nil|done]).
  exists st'. eexists. split; [done|]. split; [reflexivity|]. split.
  - split; [|done]. eapply kept_ext; [|exact Hk]. intros x. cbv beta.
    destruct (_ && _) eqn:Eb; [|done]. by apply andb_true_iff in Eb as [_ Eb%bool_decide_eq_true].
  - intros k v Ev. destruct (Ho k v Ev) as (p & b & -> & ->%list_elem_of_singleton & _).
    pose proof (proj1 (proj2 Hk b v) Ev) as (x & y & [= <-] & -> & ->).
    unfold NewDecodeStore, decode_pair. cbn -[bool_decide]. rewrite bool_decide_true by done.
    by rewrite must_read_back.
Qed.
End refinement.
End Pool.

(** ** x/dyncomm *)
Module Rates.
Definition MinCommissionRatesPrefix : bytes := [0x01].
Definition GetMinCommissionRatesKey (addr : string) : bytes := MinCommissionRatesPrefix ++ text addr.

(** Message of [dyncomm.proto]. *)
Class RateCodec : Type := RateProto : codec Dyncomm.ValidatorCommissionRate.

Section keeper.
Context `{RateCodec}.
Implicit Types st : Store.

Definition stored_rate st (validator : string) (f : Dyncomm.ValidatorCommissionRate -> Z) : res Z :=
  read_at st (Ok (GetMinCommissionRatesKey validator)) (Ok LegacyZeroDec)
    (fun bz => r ← MustUnmarshal RateProto bz; Ok (f r)).
Definition SetDynCommissionRate (validator : string) (rate : Z) : M Store unit :=
  targetRate ← reads (fun st => stored_rate st validator Dyncomm.TargetCommissionRate);
  set_at (Ok (GetMinCommissionRatesKey validator))
    (MustMarshal RateProto (Dyncomm.mkRate validator rate targetRate)).
Definition SetTargetCommissionRate (validator : string) (rate : Z) : M Store unit :=
  minRate ← reads (fun st => stored_rate st validator Dyncomm.MinCommissionRate);
  set_at (Ok (GetMinCommissionRatesKey validator))
    (MustMarshal RateProto (Dyncomm.mkRate validator minRate rate)).
Definition GetDynCommissionRate st (validator : string) : res Z := stored_rate st validator Dyncomm.MinCommissionRate.
Definition GetTargetCommissionRate st (validator : string) : res Z :=
  stored_rate st validator Dyncomm.TargetCommissionRate.

(** [store.Iterator(nil, nil)]: every entry of the store is taken for a rate. *)
Definition IterateDynCommissionRates st : res (list Dyncomm.ValidatorCommissionRate) :=
  mapM (fun kv : bytes * bytes => MustUnmarshal RateProto kv.2) (Iterator st None None).
End keeper.

Inductive call : Type :=
| WriteRate (validator : string) (rate : Z)
| WriteTarget (validator : string) (rate : Z).
Inductive query : Type -> Type :=
| Rate (validator : string) : query (res Z)
| Target (validator : string) : query (res Z)
| AllRates : query (res (list Dyncomm.ValidatorCommissionRate)).

Section runs.
Context `{RateCodec} {K : Type}.
Definition write_bytes (c : call) : M Store unit :=
  match c with WriteRate v r => SetDynCommissionRate v r | WriteTarget v r => SetTargetCommissionRate v r end.
Definition read_bytes A (q : query A) (st : Store) : A :=
  match q in query A return A with
  | Rate v => GetDynCommissionRate st v
  | Target v => GetTargetCommissionRate st v
  | AllRates => IterateDynCommissionRates st
  end.
Definition write_state (c : call) : M (Dyncomm.State K) unit :=
  match c with
  | WriteRate v r => Dyncomm.SetDynCommissionRate v r
  | WriteTarget v r => Dyncomm.SetTargetCommissionRate v r
  end.
(** The iteration of [Dyncomm.v] with a callback that collects. *)
Definition read_state A (q : query A) (s : Dyncomm.State K) : A :=
  match q in query A return A with
  | Rate v => Ok (Dyncomm.GetDynCommissionRate s v)
  | Target v => Ok (Dyncomm.GetTargetCommissionRate s v)
  | AllRates => Ok (Dyncomm.IterateDynCommissionRates (fun r l => (l ++ [r], false)) s [])
  end.
End runs.

Section refinement.
Context `{KeyLaws} `{RateCodec} {K : Type}.
Implicit Types (st : Store) (s : Dyncomm.State K).
Definition rate_column : column string Dyncomm.ValidatorCommissionRate := text_column 1 RateProto.
#[local] Instance rate_column_ok : Column rate_column.
Proof. by apply text_column_ok. Qed.
Definition represents st s : Prop :=
  kept rate_column st (fun v => Dyncomm.st_rates s !! v) /\ only_prefixes [1] st.
(** Whatever rate is kept beside the new one. *)
Definition fine_call (c : call) : Prop :=
  match c with
  | WriteRate v r => forall t, fits RateProto (Dyncomm.mkRate v r t)
  | WriteTarget v r => forall m, fits RateProto (Dyncomm.mkRate v m r)
  end.

Lemma stored_rate_read st s v f : represents st s ->
  stored_rate st v f = Ok (match Dyncomm.st_rates s !! v with Some r => f r | None => LegacyZeroDec end).
Proof.
  intros [R1 _]. unfold stored_rate.
  rewrite (read_kept rate_column st _ v _ _ _ f R1); [by case_match|done|done|].
  intros y Hy. cbn [col_codec rate_column text_column] in *. by rewrite must_read_back.
Qed.

Lemma write_rate_kept v x st s : represents st s -> fits RateProto x ->
  represents (<[GetMinCommissionRatesKey v := MustMarshal RateProto x]> st)
    (Dyncomm.mkState (Dyncomm.st_params s) (<[v := x]> (Dyncomm.st_rates s)) (Dyncomm.st_staking s)).
Proof.
  intros [R1 R2] Hx. split; [by apply (kept_insert rate_column)|].
  apply only_prefixes_set; [set_solver|apply text_bytes|done].
Qed.

Lemma rate_write_refines c st s : represents st s -> fine_call c ->
  exists st' s', write_bytes c st = (Ok tt, st') /\ write_state c s = (Ok tt, s') /\ represents st' s'.
Proof.
  intros Hr Hc. destruct c as [v r|v r]; cbn in Hc; do 2 eexists;
    (split; [|split; [reflexivity|by apply write_rate_kept]]); cbn [write_bytes];
    unfold SetDynCommissionRate, SetTargetCommissionRate, mbind, M_bind, reads; by rewrite (stored_rate_read st s).
Qed.

(** The whole store is the column. *)
Lemma whole_store st : byte_keys st -> only_prefixes [1] st -> Iterator st None None = KVStorePrefixIterator st [1].
Proof.
  intros Hb Ho. apply sorted_entries_eq; try apply Iterator_sorted; try apply Iterator_nodup.
  intros [k v]. rewrite elem_of_prefix_iter, elem_of_Iterator by done. split.
  - intros [E _]. split; [done|]. destruct (Ho k v E) as (p & b & -> & ->%list_elem_of_singleton & _). eauto.
  - by intros [E _].
Qed.
Lemma collected l : forall acc : list Dyncomm.ValidatorCommissionRate,
  Dyncomm.iterate_rates (fun r l => (l ++ [r], false)) l acc = acc ++ l.*2.
Proof.
  induction l as [|[k r] l IH]; intros acc; cbn; [by rewrite app_nil_r|]. rewrite IH, <- app_assoc. done.
Qed.
Lemma rates_read l : (forall x y, (x, y) ∈ l -> fits RateProto y) ->
  mapM (fun kv : bytes * bytes => MustUnmarshal RateProto kv.2) (map (shown rate_column) l) = Ok l.*2.
Proof.
  induction l as [|[x y] l IH]; intros Hl; [done|].
  specialize (IH ltac:(intros ???; by eapply Hl, list_elem_of_further)). set (f := fun kv => _) in IH |- *.
  change (mapM f (map (shown rate_column) ((x, y) :: l))) with
    (v ← f (shown rate_column (x, y)); vs ← mapM f (map (shown rate_column) l); Ok (v :: vs)).
  rewrite IH. unfold f. cbn [shown fst snd]. rewrite must_read_back; [done|]. by eapply Hl, list_elem_of_here.
Qed.

Lemma rate_read_refines A (q : query A) st s : represents st s -> True -> read_bytes A q st = read_state A q s.
Proof.
  intros Hr _. destruct q; cbn [read_bytes read_state].
  - unfold GetDynCommissionRate, Dyncomm.GetDynCommissionRate. by apply stored_rate_read.
  - unfold GetTargetCommissionRate, Dyncomm.GetTargetCommissionRate. by apply stored_rate_read.
  - destruct Hr as [R1 R2]. assert (byte_keys st) as Hb by (eapply only_prefixes_bytes; [|done]; by repeat constructor).
    unfold IterateDynCommissionRates, Dyncomm.IterateDynCommissionRates. rewrite whole_store, collected by done.
    rewrite (kept_iter rate_column st (Dyncomm.st_rates s)); [|done..|by intros x x' _ _; cbn; rewrite leb_text].
    apply rates_read. intros x y E%elem_of_kv_iter. by eapply R1.
Qed.

(** the commission rates on bytes implement the map of rates: every
    program that sets minimum and target rates and reads or walks through them
    comes to its end with the same results; the iterator, which has no prefix,
    shows the rates of all validators in the order of their addresses and
    nothing else. *)
Theorem rates_on_bytes {X} (p : program call query X) st s :
  represents st s -> fine_program fine_call (fun _ _ => True) p ->
  exists x st' s', run write_bytes read_bytes p st = (Ok x, st') /\
    run write_state read_state p s = (Ok x, s') /\ represents st' s'.
Proof.
  apply (run_total write_bytes read_bytes represents fine_call (fun _ _ => True) write_state read_state);
    [apply rate_read_refines|apply rate_write_refines].
Qed.
End refinement.
End Rates.

(** ** Concrete runs *)
Module Example.
#[export] Instance int_stored : IntStored.
Proof. by split. Qed.
#[export] Instance dec_nonempty_ref : Pool.DecNonEmpty.
Proof. intros d. cbn. by destruct (encode d). Qed.
Program Definition rate_codec : Rates.RateCodec :=
  mkCodec (fun r => MustMarshal (bits_codec (fun _ => True))
             (Dyncomm.ValidatorAddress r, Dyncomm.MinCommissionRate r, Dyncomm.TargetCommissionRate r))
    (fun b => t ← Unmarshal (X := string * Z * Z) (bits_codec (fun _ => True)) b; Some (Dyncomm.mkRate t.1.1 t.1.2 t.2))
    (fun _ => True) _.
Next Obligation. intros [v m t] _. cbv beta. by rewrite read_back. Qed.
#[export] Existing Instance rate_codec.

Definition no_stakes : DodxStaking.State ledger := DodxStaking.mkState ∅ None false DodxStaking.Example.bank0.
Lemma no_stakes_represented : Dodx.represents ∅ no_stakes.
Proof. constructor; [apply kept_empty; intros; try done; apply lookup_empty..|apply only_prefixes_empty]. Qed.
(** Two accounts stake, one takes everything back, the other asks for more
    than it has. *)
Definition staking : program Dodx.call Dodx.query (list (string * Z)) :=
  Write (Dodx.Add "bob" 7) (Write (Dodx.Add "al" 5) (Write (Dodx.Enable true) (Write (Dodx.Remove "bob" 7)
  (Read Dodx.Stakes (fun l => Write (Dodx.Remove "al" 6) (Done (match l with Ok l => l | _ => [] end))))))).

Definition no_delta : Market.State ledger unit := Market.mkState None None DodxStaking.Example.bank0 tt.
Lemma no_delta_represented : Pool.represents ∅ no_delta.
Proof. split; [by apply kept_empty|apply only_prefixes_empty]. Qed.

Definition no_rates : Dyncomm.State unit := Dyncomm.mkState None ∅ tt.
Lemma no_rates_represented : Rates.represents ∅ no_rates.
Proof. split; [apply kept_empty; intros; apply lookup_empty|apply only_prefixes_empty]. Qed.
Definition commissions : program Rates.call Rates.query (res (list Dyncomm.ValidatorCommissionRate)) :=
  Write (Rates.WriteTarget "val" 9) (Write (Rates.WriteRate "aval" 3) (Write (Rates.WriteRate "val" 4)
  (Read Rates.AllRates Done))).
End Example.
#[local] Existing Instances Example.int_stored Example.dec_nonempty_ref Example.rate_codec.

Lemma stakes_on_bytes_witness : exists st' s',
  run Dodx.write_bytes Dodx.read_bytes Example.staking ∅ = (Err DodxStaking.ErrInsufficientStake, st') /\
  Dodx.represents st' (s' : DodxStaking.State ledger) /\
  Dodx.read_bytes _ Dodx.Stakes st' = Ok [("al", 5)] /\ Dodx.read_bytes _ Dodx.Total st' = Ok 5 /\
  Dodx.read_bytes _ Dodx.Enabled st' = true.
Proof.
  destruct (Dodx.stakes_on_bytes Example.staking ∅ Example.no_stakes Example.no_stakes_represented)
    as (r & st' & s' & E1 & E2 & Hr); [repeat split|].
  assert (r = Err DodxStaking.ErrInsufficientStake) as ->.
  { apply (f_equal fst) in E1. cbn [fst] in E1. rewrite <- E1. vm_compute. reflexivity. }
  exists st', s'. split; [exact E1|]. split; [exact Hr|].
  apply (f_equal snd) in E1. cbn [snd] in E1. rewrite <- E1. split; [|split]; vm_compute; reflexivity.
Defined.

Lemma skipped_write_invisible_witness :
  Pool.SetDoPoolDelta (mkCtx 1 0 "test" false false) 5 {[ [1] := MustMarshal DecProto 5 ]}
  = Pool.SetDoPoolDelta (mkCtx 3000000 0 "test" false false) 5 {[ [1] := MustMarshal DecProto 5 ]}.
Proof. apply (Pool.skipped_write_invisible (mkCtx 1 0 "test" false false) (mkCtx 3000000 0 "test" false false) 5). Defined.

Lemma delta_on_bytes_witness : exists st' s',
  Pool.SetDoPoolDelta (mkCtx 3000000 0 "test" false false) 5 ∅ = (Ok tt, st') /\
  Pool.represents st' (s' : Market.State ledger unit) /\ Pool.GetDoPoolDelta st' = Ok 5.
Proof.
  destruct (Pool.delta_on_bytes (mkCtx 3000000 0 "test" false false) 5 pretty ∅ Example.no_delta
    Example.no_delta_represented I) as (_ & st' & s' & E & _ & Hr & _).
  exists st', s'. split; [exact E|]. split; [exact Hr|].
  apply (f_equal snd) in E. cbn [snd] in E. rewrite <- E. vm_compute. reflexivity.
Defined.

Lemma rates_on_bytes_witness : exists x st' s',
  run Rates.write_bytes Rates.read_bytes Example.commissions ∅ = (Ok x, st') /\
  Rates.represents st' (s' : Dyncomm.State unit) /\
  x = Ok [Dyncomm.mkRate "aval" 3 0; Dyncomm.mkRate "val" 4 9].
Proof.
  destruct (Rates.rates_on_bytes Example.commissions ∅ Example.no_rates Example.no_rates_represented)
    as (x & st' & s' & E1 & E2 & Hr); [repeat split|].
  exists x, st', s'. split; [exact E1|]. split; [exact Hr|].
  apply (f_equal fst) in E1. vm_compute in E1. by injection E1 as <-.
Defined.
