(* ===== verification/Startup.v ===== *)
(** * Starting the application

    [NewDoApp] of [src/app/app.go] and [newApp] of [src/cmd/dochaind/root.go]:
    the options of the base application in the order in which they are
    applied, the mempool, the orders of the modules, the upgrade handlers, the
    stores that are mounted, the handlers, loading the stores, and what is
    repaired after loading.  The base application is the SDK's: its setters
    panic once it is sealed, loading a version seals it, and what is written
    outside of a block is in the working store until the next commit
    ([BaseApp], [Commit]).  Building keepers, registering services, reading
    the wasm configuration, the decorator chain, snapshots, the parser of gas
    prices and the stores on disk are parameters; models of the repository's
    share of them are in [Wiring.v], [Ante.v] and [Upgrades.v].

    The theorems: a node whose parts can be built starts, with every handler
    and store in place, an empty mempool with room, and client parameters in
    the working store, which the next commit makes durable; with gas prices
    that cannot be read it panics before anything is built ([node_starts]).
    What is built for an export at a height is complete but neither sealed
    nor loaded, so its stores are not touched ([export_app_untouched]); every
    error of a part stops the start before the stores are loaded
    ([failed_part_stops_start]). *)
From stdpp Require Import base gmap sets list strings fin_maps.
From Stdlib Require Import ZArith Lia.
From S2P Require Import Prelude Sdk SdkRef Core.
From S2P Require Mempool Ante Upgrades NodeSetup Wiring.
#[local] Open Scope Z_scope.

(** ** The base application *)
Inductive Slot : Type :=
| InterfaceRegistry | CommitMultiStoreTracer
| TxEncoder | PrepareProposal | ProcessProposal | InitChainer | BeginBlocker | PreBlocker
| AnteHandler | PostHandler | EndBlocker.
#[export] Instance Slot_eq_dec : EqDecision Slot.
Proof. solve_decision. Defined.
Definition all_slots : list Slot :=
  [InterfaceRegistry; CommitMultiStoreTracer; TxEncoder; PrepareProposal; ProcessProposal; InitChainer; BeginBlocker;
   PreBlocker; AnteHandler; PostHandler; EndBlocker].

(** Settings are kept by the name of their option, as [cast] reads them; the
    gas prices as they were parsed. *)
Inductive Setting : Type :=
| SInt (n : Z) | SBool (b : bool) | SText (s : string) | STexts (l : list string) | SPrices (l : list DecCoin) | SOther.

Record BaseApp (H : Type) : Type := mkBase {
  sealed : bool;
  slots : list Slot;
  settings : gmap string Setting;
  mempool : option Mempool.FifoMempool;
  ante : option H;
  store_loader : option (Z * Upgrades.StoreUpgrades);
  mounted : list string;
}.
Arguments mkBase {H}.
Arguments sealed {H}.
Arguments slots {H}.
Arguments settings {H}.
Arguments mempool {H}.
Arguments ante {H}.
Arguments store_loader {H}.
Arguments mounted {H}.

(** The orders of the module manager. *)
Inductive Order : Type := PreBlockers | BeginBlockers | EndBlockers | InitGenesis | ExportGenesis.
#[export] Instance Order_eq_dec : EqDecision Order.
Proof. solve_decision. Defined.

(** The application around it, with the committed stores and the working
    store, which is there once a version is loaded. *)
Record App (H U D : Type) : Type := mkApp {
  base : BaseApp H;
  orders : list (Order * list string);
  upgrade_handlers : gmap string U;
  simulated : list string;
  committed : D;
  working : option D;
}.
Arguments mkApp {H U D}.
Arguments base {H U D}.
Arguments orders {H U D}.
Arguments upgrade_handlers {H U D}.
Arguments simulated {H U D}.
Arguments committed {H U D}.
Arguments working {H U D}.

(** The stores: the working store of the latest version, with the upgrade of
    the loader; the parameters of the IBC clients; the codes to pin in the
    wasm engine. *)
Class Disk (D : Type) : Type := {
  load_latest : option (Z * Upgrades.StoreUpgrades) -> D -> res D;
  has_client_params : D -> bool;
  set_default_client_params : D -> D;
  InitializePinnedCodes : D -> res unit;
}.
Class DiskLaws (D : Type) `{Disk D} : Prop :=
  client_params_set d : has_client_params (set_default_client_params d) = true.

Section start.
Context {H U D : Type} `{Disk D}.
Abbreviation A := (App H U D).
Implicit Types (app : A) (b : BaseApp H).

(** [baseapp.NewBaseApp], before its options are applied. *)
Definition NewBaseApp (d : D) : A := mkApp (mkBase false [] ∅ None None None []) [] ∅ [] d None.

Definition on_base (f : BaseApp H -> BaseApp H) app : A :=
  mkApp (f (base app)) (orders app) (upgrade_handlers app) (simulated app) (committed app) (working app).
Definition in_working (w : D) app : A :=
  mkApp (base app) (orders app) (upgrade_handlers app) (simulated app) (committed app) (Some w).

(** A setter of the base application. *)
Definition setter (f : BaseApp H -> BaseApp H) : M A unit := fun app =>
  if sealed (base app) then (Panic, app) else (Ok tt, on_base f app).
Definition set_slot (x : Slot) : M A unit := setter (fun b =>
  mkBase (sealed b) (x :: slots b) (settings b) (mempool b) (ante b) (store_loader b) (mounted b)).
Definition set_option (name : string) (v : Setting) : M A unit := setter (fun b =>
  mkBase (sealed b) (slots b) (<[name := v]> (settings b)) (mempool b) (ante b) (store_loader b) (mounted b)).
Definition SetMempool (mp : Mempool.FifoMempool) : M A unit := setter (fun b =>
  mkBase (sealed b) (slots b) (settings b) (Some mp) (ante b) (store_loader b) (mounted b)).
Definition SetAnteHandler (h : H) : M A unit := setter (fun b =>
  mkBase (sealed b) (AnteHandler :: slots b) (settings b) (mempool b) (Some h) (store_loader b) (mounted b)).
Definition SetStoreLoader (l : Z * Upgrades.StoreUpgrades) : M A unit := setter (fun b =>
  mkBase (sealed b) (slots b) (settings b) (mempool b) (ante b) (Some l) (mounted b)).
(** The multistore panics on a second store of a name. *)
Definition MountStore (name : string) : M A unit := fun app =>
  if bool_decide (name ∈ mounted (base app)) then (Panic, app) else
  setter (fun b =>
    mkBase (sealed b) (slots b) (settings b) (mempool b) (ante b) (store_loader b) (name :: mounted b)) app.

(** The module manager panics when an order leaves out a module that has the
    handler. *)
Definition set_order (has_handler : Order -> string -> bool) (o : Order) (names : list string) : M A unit := fun app =>
  if forallb (fun m => negb (has_handler o m) || bool_decide (m ∈ names)) Wiring.appModules
  then (Ok tt, mkApp (base app) ((o, names) :: orders app) (upgrade_handlers app) (simulated app) (committed app) (working app))
  else (Panic, app).
Definition SetUpgradeHandler (name : string) (h : U) : M A unit := modify (fun app =>
  mkApp (base app) (orders app) (<[name := h]> (upgrade_handlers app)) (simulated app) (committed app) (working app)).
Definition NewSimulationManager (names : list string) : M A unit := modify (fun app =>
  mkApp (base app) (orders app) (upgrade_handlers app) names (committed app) (working app)).

Definition seal b : BaseApp H :=
  mkBase true (slots b) (settings b) (mempool b) (ante b) (store_loader b) (mounted b).
(** Loading a version seals the application. *)
Definition LoadLatestVersion : M A unit := fun app =>
  match load_latest (store_loader (base app)) (committed app) with
  | Ok d => if sealed (base app) then (Panic, app) else (Ok tt, on_base seal (in_working d app))
  | Err e => (Err e, app)
  | Panic => (Panic, app)
  end.
(** The end of a block makes the working store the committed one. *)
Definition Commit app : A :=
  mkApp (base app) (orders app) (upgrade_handlers app) (simulated app) (default (committed app) (working app)) (working app).

(** ** app/app.go

    [opt_int] and [opt_bool] are the node's options read with [cast]. *)
Context (opt_int : string -> Z) (opt_bool : string -> bool).

Definition mempool_option : M A unit :=
  let maxTxs := opt_int "mempool.max-txs" in
  let mempool := Mempool.NewFifoMempool (if 0 <? maxTxs then maxTxs else Mempool.DefaultMaxTx) in
  SetMempool mempool ;;
  set_slot TxEncoder ;;
  set_slot PrepareProposal ;;
  set_slot ProcessProposal.

(** What is built besides the base application; an error of a part is a panic
    of the constructor.  [has_handler] says which handlers the modules have,
    [Upgrades] is the list of [app.go]. *)
Record Parts : Type := mkParts {
  NewAppKeepers : res unit;
  has_handler : Order -> string -> bool;
  RegisterServices : res unit;
  Upgrades : list (string * U);
  UpgradeLoader : res (option (Z * Upgrades.StoreUpgrades));
  ReadNodeConfig : res unit;
  NewAnteHandler : Ante.HandlerOptions -> res H;
  RegisterExtensions : res unit;
}.

(** The base application; [baseAppOptions] are applied by [NewBaseApp], the
    given ones first. *)
Definition base_application (baseAppOptions : list (M A unit)) : M A unit :=
  forM (fun o : M A unit => o) (baseAppOptions ++
    [set_option "iavl-cache-size" (SInt (opt_int "iavl-cache-size"));
     set_option "iavl-disable-fastnode" (SBool (opt_bool "iavl-disable-fastnode"));
     mempool_option]) ;;
  set_slot InterfaceRegistry ;;
  set_slot CommitMultiStoreTracer.

(** The keepers and the modules: their orders, their services, and the
    handlers and the store loader of upgrades. *)
Definition setupUpgradeHandlers (parts : Parts) : M A unit :=
  forM (fun u => SetUpgradeHandler u.1 u.2) (Upgrades parts).
Definition set_orders (parts : Parts) : M A unit :=
  let order := set_order (has_handler parts) in
  order PreBlockers Wiring.orderPreBlockers ;;
  order BeginBlockers Wiring.orderBeginBlockers ;;
  order EndBlockers Wiring.orderEndBlockers ;;
  order InitGenesis Wiring.orderInitGenesis ;;
  order ExportGenesis Wiring.orderInitGenesis.
Definition wire_modules (parts : Parts) : M A unit :=
  must (NewAppKeepers parts) ;;
  set_orders parts ;;
  must (RegisterServices parts) ;;
  setupUpgradeHandlers parts ;;
  loader ← must (UpgradeLoader parts);
  match loader with Some l => SetStoreLoader l | None => mret tt end ;;
  NewSimulationManager Wiring.simulationModules.

Definition mount_stores : M A unit :=
  forM MountStore Wiring.keys ;;
  forM MountStore Wiring.tkeys ;;
  forM MountStore Wiring.memKeys.

Definition handler_options : Ante.HandlerOptions := Ante.mkHandlerOptions true true true true true true true.

(** custom/auth/post/post.go: one decorator, and no error. *)
Inductive PostDecorator : Type := DyncommPostDecorator.
Definition NewPostHandler : res (list PostDecorator) := Ok [DyncommPostDecorator].

(** The handlers; the extensions of the snapshots when there is a manager of
    snapshots, which the option [snapshot] makes. *)
Definition set_handlers (parts : Parts) : M A unit :=
  set_slot InitChainer ;;
  set_slot BeginBlocker ;;
  set_slot PreBlocker ;;
  must (ReadNodeConfig parts) ;;
  anteHandler ← must (NewAnteHandler parts handler_options);
  postHandler ← must NewPostHandler;
  SetAnteHandler anteHandler ;;
  set_slot PostHandler ;;
  set_slot EndBlocker ;;
  manager ← gets (fun app => settings (base app) !! "snapshot");
  match manager with Some _ => must (RegisterExtensions parts) | None => mret tt end.

(** The part before loading. *)
Definition build (parts : Parts) (baseAppOptions : list (M A unit)) : M A unit :=
  base_application baseAppOptions ;;
  wire_modules parts ;;
  mount_stores ;;
  set_handlers parts.

(** The IBC client parameters are written when the store has none; the
    context writes to the working store, there is no commit. *)
Definition ensure_client_params : M A unit :=
  app ← get;
  match working app with
  | Some w => if has_client_params w then mret tt else modify (in_working (set_default_client_params w))
  | None => panic
  end.

(** An error while loading ends the process ([tmos.Exit]). *)
Definition load : M A unit :=
  LoadLatestVersion ;;
  ensure_client_params ;;
  app ← get;
  match working app with Some w => lift (InitializePinnedCodes w) | None => panic end.

Definition NewDoApp (parts : Parts) (loadLatest : bool) (baseAppOptions : list (M A unit)) : M A unit :=
  build parts baseAppOptions ;;
  if loadLatest then load else mret tt.

(** ** cmd/dochaind/root.go *)
Context (opt_text : string -> string) (opt_texts : string -> list string).
Context (ParseDecCoins : string -> res (list DecCoin)).

(** [SetMinGasPrices] parses its text when the option is made, not when it is
    applied, and panics on a text that it cannot read. *)
Definition SetMinGasPrices (gasPricesStr : string) : res (M A unit) :=
  match ParseDecCoins gasPricesStr with
  | Ok gasPrices => Ok (set_option "minimum-gas-prices" (SPrices gasPrices))
  | _ => Panic
  end.

Definition start_options (chainID : string) : res (list (M A unit)) :=
  min_gas_prices ← SetMinGasPrices (opt_text "minimum-gas-prices");
  Ok [set_option "chain-id" (SText chainID);
   set_option "pruning" SOther;
   min_gas_prices;
   set_option "halt-height" (SInt (opt_int "halt-height"));
   set_option "halt-time" (SInt (opt_int "halt-time"));
   set_option "min-retain-blocks" (SInt (opt_int "min-retain-blocks"));
   set_option "inter-block-cache" (SBool (opt_bool "inter-block-cache"));
   set_option "trace" (SBool (opt_bool "trace"));
   set_option "index-events" (STexts (opt_texts "index-events"));
   set_option "snapshot" SOther;
   set_option "iavl-cache-size" (SInt (opt_int "iavl-cache-size"));
   set_option "iavl-disable-fastnode" (SBool (opt_bool "iavl-disable-fastnode"))].

(** Pruning and snapshots come from other packages and may fail. *)
Definition newApp (genesis_chain_id : string -> option string) (DefaultNodeHome : string)
    (pruningOpts snapshotDir snapshotDB snapshotStore : res unit) (parts : Parts) : M A unit :=
  must pruningOpts ;;
  let homeDir := NodeSetup.home_dir opt_text DefaultNodeHome in
  let chainID := NodeSetup.chain_id opt_text genesis_chain_id homeDir in
  must snapshotDir ;;
  must snapshotDB ;;
  must snapshotStore ;;
  options ← lift (start_options chainID);
  NewDoApp parts true options.
End start.

Section facts.
Context {H U D : Type} `{Disk D} `{!DiskLaws D}.
Abbreviation A := (App H U D).
Context (opt_int : string -> Z) (opt_bool : string -> bool).
Context (opt_text : string -> string) (opt_texts : string -> list string).
Context (ParseDecCoins : string -> res (list DecCoin)).
Implicit Types (app : A) (parts : @Parts H U).

(** [still a a']: nothing is sealed, loaded or written.  [steps ok m a a']: a
    step of the constructor comes to [a'] when [ok], and panics, with the
    stores as they are, when not. *)
Definition still app app' : Prop :=
  sealed (base app') = false /\ committed app' = committed app /\ working app' = working app.
Definition steps (ok : bool) (m : M A unit) app app' : Prop :=
  sealed (base app) = false ->
  if ok then m app = (Ok tt, app') /\ still app app' else exists app1, m app = (Panic, app1) /\ still app app1.

Lemma steps_seq ok1 ok2 (m1 m2 : M A unit) app app1 app2 :
  steps ok1 m1 app app1 -> (ok1 = true -> steps ok2 m2 app1 app2) -> steps (ok1 && ok2) (m1 ;; m2) app app2.
Proof.
  intros H1 H2 Hs. specialize (H1 Hs). destruct ok1; cbn [andb].
  - destruct H1 as [E1 (Hs1 & C1 & W1)]. rewrite (M_bind_run _ _ _ _ _ E1). specialize (H2 eq_refl Hs1).
    unfold still in *. rewrite C1, W1 in H2. exact H2.
  - destruct H1 as (app' & E1 & Hst). exists app'. split; [|done]. unfold mbind, M_bind. by rewrite E1.
Qed.
Lemma steps_must {X} (r : res X) (k : X -> M A unit) (ok : bool) app app' :
  (forall x, r = Ok x -> steps ok (k x) app app') -> steps (is_ok r && ok) (x ← must r; k x) app app'.
Proof.
  intros Hk Hs. unfold mbind, M_bind, must. destruct r as [x|e|]; cbn [is_ok andb]; [by apply Hk|by exists app..].
Qed.
Lemma steps_must_unit (r : res unit) app : steps (is_ok r) (must r) app app.
Proof. intros Hs. destruct r as [[]|e|]; [done|by exists app..]. Qed.
Lemma steps_setter (f : BaseApp H -> BaseApp H) app : sealed (f (base app)) = sealed (base app) ->
  steps true (setter f) app (on_base f app).
Proof. intros Hf Hs. unfold setter. rewrite Hs. split; [done|]. split; [cbn; congruence|done]. Qed.
Lemma steps_ret app : steps true (mret tt) app app.
Proof. by intros Hs. Qed.

(** The options. *)
Definition with_settings m (b : BaseApp H) : BaseApp H :=
  mkBase (sealed b) (slots b) m (mempool b) (ante b) (store_loader b) (mounted b).
Definition options_of (l : list (string * Setting)) : list (M A unit) := map (fun nv => set_option nv.1 nv.2) l.
Definition settings_after (l : list (string * Setting)) (m : gmap string Setting) : gmap string Setting :=
  foldl (fun m nv => <[nv.1 := nv.2]> m) m l.

Lemma options_run l (rest : list (M A unit)) app : sealed (base app) = false ->
  forM (fun o => o) (options_of l ++ rest) app
  = forM (fun o => o) rest (on_base (with_settings (settings_after l (settings (base app)))) app).
Proof.
  revert app. induction l as [|[name v] l IH]; intros app Hs; [by destruct app as [[]]|].
  cbn [options_of map fst snd]. rewrite <- app_comm_cons. cbn [forM].
  unfold mbind, M_bind, set_option, setter. rewrite Hs. unfold options_of in IH. by rewrite IH.
Qed.

(** The capacity the options ask for. *)
Definition capacity : Z :=
  if 0 <? opt_int "mempool.max-txs" then opt_int "mempool.max-txs" else Mempool.DefaultMaxTx.
Lemma capacity_positive : 0 < capacity.
Proof. unfold capacity. destruct (Z.ltb_spec 0 (opt_int "mempool.max-txs")); [done|]. by vm_compute. Qed.

Definition node_settings : list (string * Setting) :=
  [("iavl-cache-size", SInt (opt_int "iavl-cache-size")); ("iavl-disable-fastnode", SBool (opt_bool "iavl-disable-fastnode"))].
Definition settings_of (l : list (string * Setting)) : gmap string Setting := settings_after (l ++ node_settings) ∅.

(** What each step makes of a new application. *)
Definition base0 (l : list (string * Setting)) : BaseApp H :=
  mkBase false [CommitMultiStoreTracer; InterfaceRegistry; ProcessProposal; PrepareProposal; TxEncoder] (settings_of l)
    (Some (Mempool.NewFifoMempool capacity)) None None [].
Definition set_loader (loader : option (Z * Upgrades.StoreUpgrades)) (b : BaseApp H) : BaseApp H :=
  match loader with
  | Some l => mkBase (sealed b) (slots b) (settings b) (mempool b) (ante b) (Some l) (mounted b)
  | None => b
  end.
Definition final_orders : list (Order * list string) :=
  [(ExportGenesis, Wiring.orderInitGenesis); (InitGenesis, Wiring.orderInitGenesis);
   (EndBlockers, Wiring.orderEndBlockers); (BeginBlockers, Wiring.orderBeginBlockers);
   (PreBlockers, Wiring.orderPreBlockers)].
Definition handlers_of (l : list (string * U)) : gmap string U := foldl (fun m u => <[u.1 := u.2]> m) ∅ l.
Definition all_stores : list string := rev (Wiring.keys ++ Wiring.tkeys ++ Wiring.memKeys).
Definition add_stores (b : BaseApp H) : BaseApp H :=
  mkBase (sealed b) (slots b) (settings b) (mempool b) (ante b) (store_loader b) all_stores.
Definition add_handlers (h : option H) (b : BaseApp H) : BaseApp H :=
  mkBase (sealed b) ([EndBlocker; PostHandler; AnteHandler; PreBlocker; BeginBlocker; InitChainer] ++ slots b)
    (settings b) (mempool b) h (store_loader b) (mounted b).
Definition wired parts loader app : A :=
  mkApp (set_loader loader (base app)) final_orders (handlers_of (Upgrades parts)) Wiring.simulationModules
    (committed app) (working app).

Lemma base_application_steps l (d : D) :
  steps true (base_application opt_int opt_bool (options_of l)) (NewBaseApp d)
    (mkApp (base0 l) [] ∅ [] d None).
Proof.
  intros Hs. unfold base_application. split; [|by split].
  unfold mbind at 1, M_bind at 1. rewrite options_run by done. unfold base0, settings_of, settings_after.
  by rewrite foldl_app.
Qed.

(** No module that has a handler is forgotten. *)
Definition none_forgotten parts : Prop :=
  (forall m, has_handler parts PreBlockers m = true -> m ∈ Wiring.appModules -> m ∈ Wiring.orderPreBlockers) /\
  has_handler parts BeginBlockers Wiring.names.upgrade = false.
(** The orders set by the application forget no module. *)
Lemma orders_complete parts : none_forgotten parts -> Forall (fun on : Order * list string =>
  forall m, has_handler parts on.1 m = true -> m ∈ Wiring.appModules -> m ∈ on.2) final_orders.
Proof.
  intros [Hp Hb].
  assert (forall m, m ∈ Wiring.appModules -> m ∈ Wiring.orderEndBlockers /\ m ∈ Wiring.orderInitGenesis /\
    (m <> Wiring.names.upgrade -> m ∈ Wiring.orderBeginBlockers)) as Hall.
  { apply Forall_forall. apply (bool_decide_unpack _). by vm_compute. }
  unfold final_orders. rewrite !Forall_cons, Forall_nil. cbn [fst snd].
  split_and!; try done; intros m Hm Hin; destruct (Hall m Hin) as (? & ? & Hbegin); try done.
  apply Hbegin. intros ->. congruence.
Qed.

Lemma order_run parts o names app :
  (forall m, has_handler parts o m = true -> m ∈ Wiring.appModules -> m ∈ names) ->
  set_order (has_handler parts) o names app = (Ok tt,
    mkApp (base app) ((o, names) :: orders app) (upgrade_handlers app) (simulated app) (committed app) (working app)).
Proof.
  intros Hn. unfold set_order.
  replace (forallb _ _) with true; [done|]. symmetry. apply forallb_forall. intros m Hm%list_elem_of_In.
  destruct (has_handler parts o m) eqn:Eh; [|done]. by apply bool_decide_eq_true, Hn.
Qed.
Lemma set_orders_steps parts b (d : D) : none_forgotten parts ->
  steps true (set_orders parts) (mkApp b [] ∅ [] d None) (mkApp b final_orders ∅ [] d None).
Proof.
  intros Hf Hs. split; [|done]. pose proof (orders_complete parts Hf) as Ho. unfold final_orders in Ho.
  rewrite !Forall_cons in Ho. cbn [fst snd] in Ho. destruct Ho as (O5 & O4 & O3 & O2 & O1 & _).
  unfold set_orders. do 4 erewrite M_bind_run by by apply order_run. by rewrite order_run.
Qed.

Lemma upgrade_handlers_steps (l : list (string * U)) : forall app,
  steps true (forM (fun u => SetUpgradeHandler u.1 u.2) l) app
    (mkApp (base app) (orders app) (foldl (fun m u => <[u.1 := u.2]> m) (upgrade_handlers app) l) (simulated app)
      (committed app) (working app)).
Proof.
  induction l as [|[n h] l IH]; intros app Hs; [by destruct app|].
  destruct (IH (mkApp (base app) (orders app) (<[n := h]> (upgrade_handlers app)) (simulated app) (committed app) (working app)) Hs)
    as [E Hst]. split; [exact E|exact Hst].
Qed.

(** The part that reads the plan of an upgrade. *)
Definition loader_of parts : option (Z * Upgrades.StoreUpgrades) :=
  match UpgradeLoader parts with Ok loader => loader | _ => None end.

Lemma wire_modules_steps parts l (d : D) : none_forgotten parts ->
  let app := mkApp (base0 l) [] ∅ [] d None in
  steps (is_ok (NewAppKeepers parts) && (is_ok (RegisterServices parts) && is_ok (UpgradeLoader parts)))
    (wire_modules parts) app (wired parts (loader_of parts) app).
Proof.
  intros Hf app.
  unfold wire_modules.
  apply (steps_seq _ _ _ _ _ app); [apply steps_must_unit|intros _].
  eapply (steps_seq true); [by apply set_orders_steps|intros _].
  eapply steps_seq; [apply steps_must_unit|intros _].
  eapply (steps_seq true (is_ok _)); [apply upgrade_handlers_steps|intros _].
  rewrite <- (andb_true_r (is_ok (UpgradeLoader parts))). apply steps_must. intros loader El.
  apply (steps_seq true true _ _ _ (mkApp (set_loader loader (base0 l)) final_orders (handlers_of (Upgrades parts)) [] d None)).
  - destruct loader; [by apply steps_setter|by apply steps_ret].
  - intros _ Hs. unfold wired, loader_of. by rewrite El.
Qed.

Lemma stores_run names : forall app, NoDup (rev names ++ mounted (base app)) ->
  steps true (forM MountStore names) app
    (on_base (fun b => mkBase (sealed b) (slots b) (settings b) (mempool b) (ante b) (store_loader b) (rev names ++ mounted b)) app).
Proof.
  induction names as [|n names IH]; intros app Hn Hs; [by destruct app as [[]]|].
  cbn [rev] in Hn. rewrite <- app_assoc in Hn.
  pose proof Hn as Hn'. apply NoDup_app in Hn' as (_ & _ & [Hnew _]%NoDup_cons).
  set (app1 := on_base (fun b => mkBase (sealed b) (slots b) (settings b) (mempool b) (ante b) (store_loader b) (n :: mounted b)) app).
  cbn [forM]. rewrite (M_bind_run _ _ _ tt app1)
    by (unfold MountStore; rewrite bool_decide_false by done; unfold setter; by rewrite Hs).
  destruct (IH app1 Hn Hs) as [E Hst]. split; [|done]. rewrite E. unfold app1, on_base. cbn. by rewrite <- app_assoc.
Qed.

Lemma mount_stores_steps app : mounted (base app) = [] -> steps true mount_stores app (on_base add_stores app).
Proof.
  intros Hm. unfold mount_stores.
  eapply (steps_seq true true); [apply stores_run; rewrite Hm; apply (bool_decide_unpack _); by vm_compute|intros _].
  eapply (steps_seq true true); [apply stores_run; cbn [on_base base mounted]; rewrite Hm; apply (bool_decide_unpack _); by vm_compute|intros _].
  intros Hs. split; [|done]. unfold add_stores, on_base. cbn [base mounted sealed slots settings mempool ante store_loader]. by rewrite Hm.
Qed.

(** The extensions of the snapshots are registered when there is a manager. *)
Definition extensions_ok parts (m : gmap string Setting) : bool :=
  match m !! "snapshot" with Some _ => is_ok (RegisterExtensions parts) | None => true end.
Definition handler_of parts : option H :=
  match NewAnteHandler parts handler_options with Ok h => Some h | _ => None end.

Lemma set_handlers_steps parts app :
  steps (is_ok (ReadNodeConfig parts) && (is_ok (NewAnteHandler parts handler_options) &&
      extensions_ok parts (settings (base app))))
    (set_handlers parts) app (on_base (add_handlers (handler_of parts)) app).
Proof.
  unfold set_handlers, set_slot, SetAnteHandler.
  do 3 (eapply (steps_seq true); [by apply steps_setter|intros _]).
  eapply steps_seq; [apply steps_must_unit|intros _].
  apply steps_must. intros h Eh. unfold NewPostHandler. change (must (Ok ?x)) with (@mret (M A) _ _ x).
  eapply (steps_seq true); [by apply steps_setter|intros _].
  eapply (steps_seq true); [by apply steps_setter|intros _].
  eapply (steps_seq true); [by apply steps_setter|intros _].
  replace (extensions_ok parts (settings (base app))) with (match settings (base app) !! "snapshot" with
    Some _ => is_ok (RegisterExtensions parts) | None => true end) by done.
  intros Hs. unfold mbind, M_bind, gets. cbn [base on_base settings].
  unfold handler_of. rewrite Eh. destruct (settings (base app) !! "snapshot"); [by apply steps_must_unit|by apply steps_ret].
Qed.
(** The parts can be built; the extensions are only asked for when the
    options [l] make a manager of snapshots. *)
Definition all_parts parts (l : list (string * Setting)) : bool :=
  is_ok (NewAppKeepers parts) && (is_ok (RegisterServices parts) && is_ok (UpgradeLoader parts)) &&
  (is_ok (ReadNodeConfig parts) && (is_ok (NewAnteHandler parts handler_options) && extensions_ok parts (settings_of l))).
Definition built parts l (d : D) : A :=
  mkApp (add_handlers (handler_of parts) (add_stores (set_loader (loader_of parts) (base0 l)))) final_orders
    (handlers_of (Upgrades parts)) Wiring.simulationModules d None.

Lemma build_steps parts l (d : D) : none_forgotten parts ->
  steps (all_parts parts l) (build opt_int opt_bool parts (options_of l)) (NewBaseApp d) (built parts l d).
Proof.
  intros Hf. unfold build, all_parts.
  eapply (steps_seq true (_ && _)); [apply base_application_steps|intros _].
  eapply steps_seq; [by apply wire_modules_steps|intros _].
  eapply (steps_seq true (is_ok _ && _)); [apply mount_stores_steps; by destruct (loader_of parts)|intros _].
  assert (settings (base (on_base add_stores (wired parts (loader_of parts) (mkApp (base0 l) [] ∅ [] d None)))) = settings_of l)
    as <- by (cbn; by destruct (loader_of parts)).
  apply set_handlers_steps.
Qed.

Record good_parts parts l loader (h : H) : Prop := {
  gp_handlers : none_forgotten parts;
  gp_parts : all_parts parts l = true;
  gp_loader : UpgradeLoader parts = Ok loader;
  gp_ante : NewAnteHandler parts handler_options = Ok h;
}.

(** What a constructor that comes to its end has built. *)
Definition complete parts (h : H) app : Prop :=
  Forall (fun x => x ∈ slots (base app)) all_slots /\ ante (base app) = Some h /\
  (forall name, name ∈ Wiring.keys ++ Wiring.tkeys ++ Wiring.memKeys -> name ∈ mounted (base app)) /\
  (forall name, name ∈ (Upgrades parts).*1 -> is_Some (upgrade_handlers app !! name)) /\
  mempool (base app) = Some (Mempool.NewFifoMempool capacity) /\ 0 < capacity.

Lemma handlers_kept (l : list (string * U)) name : forall m : gmap string U,
  is_Some (m !! name) \/ name ∈ l.*1 -> is_Some (foldl (fun m u => <[u.1 := u.2]> m) m l !! name).
Proof.
  induction l as [|[n u] l IH]; intros m Hm; cbn [foldl]; [destruct Hm as [Hm|Hm]; [done|by apply not_elem_of_nil in Hm]|].
  apply IH. destruct (decide (n = name)) as [->|Hn]; [left; by rewrite lookup_insert_eq|].
  destruct Hm as [Hm|Hm]; [left; by rewrite lookup_insert_ne|]. cbn in Hm. apply elem_of_cons in Hm as [->|Hm]; [done|by right].
Qed.

Lemma built_complete parts l loader h d : good_parts parts l loader h -> complete parts h (built parts l d).
Proof.
  intros [_ _ Hl Ha]. unfold complete, built, handler_of, loader_of. rewrite Hl, Ha. cbn [base add_handlers ante upgrade_handlers].
  assert (slots (add_stores (set_loader loader (base0 l))) = slots (base0 l) /\
    mempool (add_stores (set_loader loader (base0 l))) = mempool (base0 l)) as [E1 E2] by by destruct loader.
  cbn [slots mempool mounted add_handlers]. rewrite E1, E2.
  split; [apply (bool_decide_unpack _); by vm_compute|]. split; [done|].
  split; [intros name Hn; cbn [add_stores mounted]; unfold all_stores; apply list_elem_of_In, in_rev; rewrite rev_involutive; by apply list_elem_of_In|].
  split; [intros name Hn; apply handlers_kept; by right|]. split; [done|apply capacity_positive].
Qed.

Definition start_settings (chainID : string) (prices : list DecCoin) : list (string * Setting) :=
  [("chain-id", SText chainID); ("pruning", SOther); ("minimum-gas-prices", SPrices prices);
   ("halt-height", SInt (opt_int "halt-height")); ("halt-time", SInt (opt_int "halt-time"));
   ("min-retain-blocks", SInt (opt_int "min-retain-blocks")); ("inter-block-cache", SBool (opt_bool "inter-block-cache"));
   ("trace", SBool (opt_bool "trace")); ("index-events", STexts (opt_texts "index-events")); ("snapshot", SOther);
   ("iavl-cache-size", SInt (opt_int "iavl-cache-size"));
   ("iavl-disable-fastnode", SBool (opt_bool "iavl-disable-fastnode"))].
Lemma start_options_settings chainID prices : ParseDecCoins (opt_text "minimum-gas-prices") = Ok prices ->
  start_options opt_int opt_bool opt_text opt_texts ParseDecCoins chainID = Ok (options_of (start_settings chainID prices)).
Proof. unfold start_options, SetMinGasPrices. by intros ->. Qed.

(** Settings that a start reads back. *)
Lemma start_settings_kept chainID prices : let m := settings_of (start_settings chainID prices) in
  m !! "chain-id" = Some (SText chainID) /\ m !! "minimum-gas-prices" = Some (SPrices prices) /\ m !! "snapshot" = Some SOther.
Proof. cbn zeta. unfold settings_of, settings_after. cbn. by simplify_map_eq. Qed.

(** Loading an application that is built: the stores on disk stay. *)
Lemma load_runs w app : sealed (base app) = false -> load_latest (store_loader (base app)) (committed app) = Ok w ->
  let w' := if has_client_params w then w else set_default_client_params w in
  InitializePinnedCodes w' = Ok tt -> load app = (Ok tt, on_base seal (in_working w' app)).
Proof.
  intros Hs El w' Ep. unfold load.
  rewrite (M_bind_run _ _ _ tt (on_base seal (in_working w app))) by (unfold LoadLatestVersion; by rewrite El, Hs).
  rewrite (M_bind_run _ _ _ tt (on_base seal (in_working w' app)))
    by (unfold ensure_client_params, w', mbind, M_bind, get; cbn; by destruct (has_client_params w)).
  unfold mbind, M_bind, get, lift. cbn. by rewrite Ep.
Qed.

(** C38: a node starts: when its parts can be built, the stores load and the
    minimum gas prices can be read, the constructor comes to its end: no
    setter meets a sealed application, no order forgets a module, no store is
    mounted twice; every handler, store and upgrade handler is in place, the
    mempool is empty and has room whatever the options say, and the chain id
    is the one of the flag, the genesis file or the fallback.  The client
    parameters, those that were loaded if there were any, are in the working
    store; the stores on disk are as they were until the next commit, which
    makes the parameters durable.  With gas prices that cannot be read the
    node panics before anything is built. *)
Theorem node_starts genesis_chain_id home parts loader h (d w : D) :
  let chainID := NodeSetup.chain_id opt_text genesis_chain_id (NodeSetup.home_dir opt_text home) in
  (forall prices, good_parts parts (start_settings chainID prices) loader h) ->
  load_latest loader d = Ok w ->
  let w' := if has_client_params w then w else set_default_client_params w in
  InitializePinnedCodes w' = Ok tt ->
  let result := newApp opt_int opt_bool opt_text opt_texts ParseDecCoins genesis_chain_id home
    (Ok tt) (Ok tt) (Ok tt) (Ok tt) parts (NewBaseApp d) in
  match ParseDecCoins (opt_text "minimum-gas-prices") with
  | Ok prices => exists app', result = (Ok tt, app') /\
      sealed (base app') = true /\ complete parts h app' /\
      committed app' = d /\ working app' = Some w' /\ has_client_params w' = true /\ committed (Commit app') = w' /\
      settings (base app') !! "chain-id" = Some (SText chainID) /\ chainID <> "" /\
      settings (base app') !! "minimum-gas-prices" = Some (SPrices prices)
  | _ => result = (Panic, NewBaseApp d)
  end.
Proof.
  intros chainID G El w' Ep result. unfold result, newApp. do 4 rewrite (M_bind_run _ _ _ tt (NewBaseApp d)) by done.
  fold chainID. destruct (ParseDecCoins (opt_text "minimum-gas-prices")) as [prices|e|] eqn:EP;
    [|unfold mbind, M_bind, lift, start_options, SetMinGasPrices; by rewrite EP..].
  rewrite (M_bind_run _ _ _ _ (NewBaseApp d)) by (unfold lift; by rewrite (start_options_settings chainID prices EP)).
  set (l := start_settings chainID prices). pose proof (G prices) as Gp. pose proof Gp as [Hf Hall Hl Ha]. fold l in Hall.
  pose proof (build_steps parts l d Hf eq_refl) as B. rewrite Hall in B. destruct B as [B _].
  pose proof (built_complete _ _ _ _ d Gp) as Hc. fold l in Hc.
  assert (store_loader (base (built parts l d)) = loader /\ settings (base (built parts l d)) = settings_of l) as [Esl Est]
    by (unfold built, loader_of; rewrite Hl; by destruct loader).
  unfold NewDoApp. rewrite (M_bind_run _ _ _ _ _ B).
  exists (on_base seal (in_working w' (built parts l d))).
  split; [apply (load_runs w); [unfold built, loader_of; rewrite Hl; by destruct loader|by rewrite Esl|done]|].
  split; [done|]. split; [exact Hc|]. do 2 (split; [done|]).
  split; [unfold w'; destruct (has_client_params w) eqn:Ec; [done|apply client_params_set]|]. split; [done|].
  destruct (start_settings_kept chainID prices) as (S1 & S2 & _). fold l in S1, S2.
  change (settings (base (on_base seal ?a))) with (settings (base a)). change (base (in_working w' ?a)) with (base a).
  rewrite Est. split; [exact S1|]. split; [|exact S2].
  unfold chainID, NodeSetup.chain_id. repeat case_match; try done; by apply String.eqb_neq.
Qed.

(** what is built for an export at a height is complete but open: every
    handler is in place, but the application is neither sealed nor loaded and
    the stores are as they were, so that the height can be loaded next. *)
Theorem export_app_untouched parts loader h (d : D) : good_parts parts [] loader h ->
  exists app', NewDoApp opt_int opt_bool parts false [] (NewBaseApp d) = (Ok tt, app') /\
    sealed (base app') = false /\ committed app' = d /\ working app' = None /\ complete parts h app'.
Proof.
  intros G. pose proof G as [Hf Hall Hl _]. pose proof (build_steps parts [] d Hf eq_refl) as B. rewrite Hall in B.
  destruct B as [B (Hs & Hc & Hw)]. exists (built parts [] d). unfold NewDoApp. change (@nil (M A unit)) with (options_of []).
  rewrite (M_bind_run _ _ _ _ _ B). split; [done|]. split; [done|]. do 2 (split; [done|]). by apply (built_complete _ _ loader).
Qed.

(** a part that cannot be built stops the start: when the keepers, the
    services, the upgrade plan, the wasm configuration, the decorators or the
    snapshot extensions fail, the constructor panics before the stores are
    loaded: they are as they were and the application is not sealed. *)
Theorem failed_part_stops_start parts loadLatest l (d : D) : none_forgotten parts -> all_parts parts l = false ->
  exists app', NewDoApp opt_int opt_bool parts loadLatest (options_of l) (NewBaseApp d) = (Panic, app') /\
    sealed (base app') = false /\ committed app' = d /\ working app' = None.
Proof.
  intros Hf Hbad. pose proof (build_steps parts l d Hf eq_refl) as B. rewrite Hbad in B.
  destruct B as (app' & E & Hst). exists app'. split; [|exact Hst]. unfold NewDoApp, mbind, M_bind. by rewrite E.
Qed.
End facts.

(** ** Concrete starts *)
Module Example.
(** A disk is whether it has client parameters and at which version it is. *)
#[export] Instance ref_disk : Disk (bool * Z) := {
  load_latest u d := match u with Some (h, _) => if h =? d.2 then Ok d else Err (Plain "wrong height") | None => Ok d end;
  has_client_params := fst;
  set_default_client_params d := (true, d.2);
  InitializePinnedCodes _ := Ok tt;
}.
#[export] Instance ref_disk_laws : DiskLaws (bool * Z).
Proof. by intros []. Qed.
Definition ante_handler (o : Ante.HandlerOptions) : res unit :=
  if Ante.has_AccountKeeper o && Ante.has_WasmConfig o then Ok tt else Err (SdkError "ErrLogic").
(** Every module has every handler, but only two a pre-blocker, and the
    upgrade module no begin blocker. *)
Definition handlers (o : Order) (m : string) : bool :=
  match o with
  | PreBlockers => bool_decide (m ∈ Wiring.orderPreBlockers)
  | BeginBlockers => negb (String.eqb m Wiring.names.upgrade)
  | _ => true
  end.
Definition parts_with (loader : res (option (Z * Upgrades.StoreUpgrades))) : @Parts unit Z :=
  mkParts (Ok tt) handlers (Ok tt) [("v14_1", 14); ("v16", 16)] loader (Ok tt) ante_handler (Ok tt).
Definition parts : @Parts unit Z := parts_with (Ok None).
Lemma forgets_none loader : none_forgotten (parts_with loader).
Proof. split; [intros m Hm _; by apply bool_decide_eq_true in Hm|done]. Qed.
Lemma parts_good opt_int opt_bool l : good_parts opt_int opt_bool parts l None tt.
Proof.
  constructor; [apply forgets_none| |done..]. unfold all_parts, extensions_ok. cbn. by destruct (settings_of _ _ l !! "snapshot").
Qed.
Definition prices (s : string) : res (list DecCoin) :=
  if String.eqb s "" then Ok [] else Err (Plain "invalid decimal coin expression").
End Example.
#[local] Existing Instances Example.ref_disk Example.ref_disk_laws.

Lemma node_starts_witness : exists app',
  newApp (fun _ => -1) (fun _ => true) (fun _ => "") (fun _ => []) Example.prices (fun _ => Some "dochain-1") ".do"
    (Ok tt) (Ok tt) (Ok tt) (Ok tt) Example.parts (NewBaseApp (false, 7)) = (Ok tt, app') /\
  committed app' = (false, 7) /\ working app' = Some (true, 7) /\ committed (Commit app') = (true, 7) /\
  settings (base app') !! "chain-id" = Some (SText "dochain-1").
Proof.
  destruct (node_starts (fun _ => -1) (fun _ => true) (fun _ => "") (fun _ => []) Example.prices (fun _ => Some "dochain-1") ".do"
    Example.parts None tt (false, 7) (false, 7) (fun _ => Example.parts_good _ _ _))
    as (app' & E & _ & _ & Hd & Hw & _ & Hc & Hi & _); [reflexivity..|].
  exists app'. split; [exact E|]. split; [exact Hd|]. split; [exact Hw|]. split; [exact Hc|exact Hi].
Defined.

Lemma export_app_untouched_witness : exists app',
  NewDoApp (fun _ => 9) (fun _ => true) Example.parts false [] (NewBaseApp (false, 7)) = (Ok tt, app') /\
  sealed (base app') = false /\ committed app' = (false, 7).
Proof.
  destruct (export_app_untouched (fun _ => 9) (fun _ => true) Example.parts None tt (false, 7) (Example.parts_good _ _ _))
    as (app' & E & Hs & Hd & _).
  exists app'. split; [exact E|]. split; [exact Hs|exact Hd].
Defined.

Lemma failed_part_stops_start_witness : exists app',
  NewDoApp (fun _ => 9) (fun _ => true) (Example.parts_with Panic) true [] (NewBaseApp (false, 7)) = (Panic, app') /\
  committed app' = (false, 7).
Proof.
  destruct (failed_part_stops_start (fun _ => 9) (fun _ => true) (Example.parts_with Panic) true [] (false, 7))
    as (app' & E & _ & Hd & _); [apply Example.forgets_none|reflexivity|].
  exists app'. split; [exact E|exact Hd].
Defined.
