(* ===== verification/Modules.v ===== *)
(** * The modules as the module manager sees them (src/x/*/module.go)

    The manager hands every module the text of its part of the genesis file:
    [ValidateGenesis] is what [validate-genesis] asks of the text,
    [InitGenesis] is what the first block of the chain does with it, where a
    refusal is a panic.  The codec that reads and prints a genesis state is a
    parameter ([JSONCodec]).  A module description is the record [AppModule],
    with one value for each module of the chain.

    The theorems say which accepted texts start their module: for the market
    and multi-factor approval all of them; for DODx staking those whose
    stakes add up to a number of 256 bits; for the oracle and the treasury
    only those that also pass the checks [ValidateGenesis] leaves out; the
    commission policy accepts every text.  What DODx staking exports is
    accepted and starts the module in the state that was exported. *)
From stdpp Require Import base gmap sets list strings fin_maps.
From Stdlib Require Import ZArith Lia.
From S2P Require Import Prelude Sdk SdkRef Core EqualPower.
From S2P Require DodxStaking Market OracleBallot OracleState OracleAbci Treasury Mfa Dyncomm.
#[local] Open Scope Z_scope.

(** ** [codec.JSONCodec], and [encoding/json] for the module that uses it *)
Class JSONCodec (G : Type) : Type := {
  MarshalJSON : G -> res string;
  UnmarshalJSON : string -> res G;
}.

(** What was printed is read back. *)
Class JSONLaws (G : Type) `{JSONCodec G} : Prop := {
  json_read_back g bz : MarshalJSON g = Ok bz -> UnmarshalJSON bz = Ok g;
}.

(** The variants whose name starts with Must panic instead of failing. *)
Definition MustMarshalJSON {G} `{JSONCodec G} (g : G) : res string :=
  match MarshalJSON g with Ok bz => Ok bz | _ => Panic end.
Definition MustUnmarshalJSON {S G} `{JSONCodec G} (bz : string) : M S G := must (UnmarshalJSON bz).

(** ** [module.AppModule] *)
Record AppModule (S : Type) : Type := mkAppModule {
  DefaultGenesis : res string;
  ValidateGenesis : string -> res unit;
  InitGenesis : Ctx -> string -> M S (list ValidatorUpdate);
  ExportGenesis : Ctx -> S -> res string;
  EndBlock : Ctx -> M S (list ValidatorUpdate);
  ConsensusVersion : Z;
}.
Arguments mkAppModule {S}.
Arguments DefaultGenesis {S}.
Arguments ValidateGenesis {S}.
Arguments InitGenesis {S}.
Arguments ExportGenesis {S}.
Arguments EndBlock {S}.
Arguments ConsensusVersion {S}.

(** The bodies most modules share. *)
Definition validate_text {G} `{JSONCodec G} (validate : G -> res unit) (bz : string) : res unit :=
  data ← UnmarshalJSON bz; validate data.
Definition init_text {S G} `{JSONCodec G} (init : G -> M S unit) (bz : string) :
    M S (list ValidatorUpdate) :=
  genesisState ← MustUnmarshalJSON bz; init genesisState ;; mret [].
Definition no_updates {S} (endBlocker : M S unit) : M S (list ValidatorUpdate) :=
  endBlocker ;; mret [].

Section modules.
Context {B K D O C : Type} `{BankOps B} `{BankMetaOps B} `{StakingOps K} `{DistrOps D} `{FeePoolOps D}.
Context `{MathOps} `{CoinOps} `{DecCoinsOps} `{CoinSortOps} `{AddrCodec}.
Context `{OracleBallot.BallotSort} `{MapRange}.

(** ** x/oracle/module.go *)
Definition oracle_module `{JSONCodec OracleState.GenesisState} (distrName : string) :
    AppModule (OracleState.State B K D) := {|
  DefaultGenesis := MustMarshalJSON OracleState.DefaultGenesisState;
  ValidateGenesis := validate_text OracleState.ValidateGenesis;
  InitGenesis := fun _ => init_text OracleState.InitGenesis;
  ExportGenesis := fun _ s => MustMarshalJSON (OracleState.ExportGenesis s);
  EndBlock := fun ctx => no_updates (OracleAbci.EndBlocker distrName ctx);
  ConsensusVersion := 1;
|}.

(** ** x/market/module.go.  A genesis state that is exported before the
    parameters were set has none. *)
Definition market_module `{Market.OracleKeeper O} `{JSONCodec Market.GenesisState}
    `{JSONCodec (Z * option Market.Params)} : AppModule (Market.State B O) := {|
  DefaultGenesis := MustMarshalJSON Market.DefaultGenesisState;
  ValidateGenesis := validate_text Market.ValidateGenesis;
  InitGenesis := fun ctx => init_text (Market.InitGenesis ctx);
  ExportGenesis := fun _ s => MustMarshalJSON (Market.ExportGenesis s);
  EndBlock := fun ctx => no_updates (Market.EndBlocker ctx);
  ConsensusVersion := 1;
|}.

(** ** x/treasury/module.go *)
Definition treasury_module `{Treasury.TreasuryKeepers O} `{JSONCodec Treasury.GenesisState} :
    AppModule (Treasury.State B K D O) := {|
  DefaultGenesis := MustMarshalJSON Treasury.DefaultGenesisState;
  ValidateGenesis := validate_text Treasury.ValidateGenesis;
  InitGenesis := fun _ => init_text Treasury.InitGenesis;
  ExportGenesis := fun ctx s => gs ← Treasury.ExportGenesis ctx s; MustMarshalJSON gs;
  EndBlock := fun ctx => no_updates (Treasury.EndBlocker ctx);
  ConsensusVersion := 3;
|}.

(** ** x/dodxstaking/module.go *)
Definition dodx_module `{JSONCodec DodxStaking.GenesisState} : AppModule (DodxStaking.State B) := {|
  DefaultGenesis := MustMarshalJSON DodxStaking.DefaultGenesisState;
  ValidateGenesis := validate_text DodxStaking.ValidateGenesis;
  InitGenesis := fun _ => init_text DodxStaking.InitGenesis;
  ExportGenesis := fun _ s => gs ← DodxStaking.ExportGenesis s; MustMarshalJSON gs;
  EndBlock := fun _ => mret [];
  ConsensusVersion := 1;
|}.

(** ** x/dyncomm/module.go: [ValidateGenesis] returns nil. *)
Definition dyncomm_module `{Dyncomm.CommissionKeeper C} `{JSONCodec Dyncomm.GenesisState} :
    AppModule (Dyncomm.State C) := {|
  DefaultGenesis := MustMarshalJSON Dyncomm.DefaultGenesisState;
  ValidateGenesis := fun _ => Ok tt;
  InitGenesis := fun _ => init_text Dyncomm.InitGenesis;
  ExportGenesis := fun _ s => gs ← Dyncomm.ExportGenesis s; MustMarshalJSON gs;
  EndBlock := fun ctx => no_updates (Dyncomm.EndBlocker ctx);
  ConsensusVersion := 1;
|}.

(** ** x/mfa/module.go, types/policy.go: an empty text is the default. *)
Definition mfa_DefaultGenesisState : list Mfa.Policy := [].
Definition mfa_read `{JSONCodec (list Mfa.Policy)} (bz : string) : res (list Mfa.Policy) :=
  if Nat.eqb (String.length bz) 0 then Ok mfa_DefaultGenesisState else UnmarshalJSON bz.
Definition mfa_module `{JSONCodec (list Mfa.Policy)} : AppModule Mfa.State := {|
  DefaultGenesis := MustMarshalJSON mfa_DefaultGenesisState;
  ValidateGenesis := fun bz => gs ← mfa_read bz; Mfa.ValidateGenesis gs;
  InitGenesis := fun _ bz => gs ← must (mfa_read bz); Mfa.InitGenesis gs ;; mret [];
  ExportGenesis := fun _ s => MustMarshalJSON (Mfa.ExportGenesis s);
  EndBlock := fun _ => mret [];
  ConsensusVersion := 1;
|}.
End modules.

(** ** x/vesting/module.go: the module has accounts and no store. *)
Definition vesting_DefaultGenesis : string := "{}".
Definition vesting_ValidateGenesis (bz : string) : res unit := Ok tt.

(** ** x/dyncomm/module.go: the genesis of a simulated chain lets every
    validator keep its commission. *)
Definition dyncomm_GenerateGenesisState `{JSONCodec Dyncomm.GenesisState} : res string :=
  let params := Dyncomm.DefaultParams in
  MustMarshalJSON (Dyncomm.mkGenesisState
    (Dyncomm.mkParams (Dyncomm.MaxZero params) (Dyncomm.SlopeBase params)
       (Dyncomm.SlopeVpImpact params) LegacyZeroDec) (Dyncomm.ValidatorCommissionRates Dyncomm.DefaultGenesisState)).

(** ** Code that returns or panics

    [returns_iff I m P]: on a state with [I] the code [m] returns when [P]
    holds, with [I] of the new state, and panics when [P] does not hold. *)
Section returns.
Context {S : Type} (I : S -> Prop).

Definition returns_iff {A} (m : M S A) (P : Prop) : Prop := forall s, I s ->
  match m s with
  | (Ok _, s') => P /\ I s'
  | (Err _, _) => False
  | (Panic, _) => ~ P
  end.

Lemma returns_weaken {A} (m : M S A) P Q : returns_iff m P -> (P <-> Q) -> returns_iff m Q.
Proof. intros Hm HPQ s Hs. specialize (Hm s Hs). destruct (m s) as [[] ?]; tauto. Qed.

Lemma returns_bind {A A'} (m : M S A) (k : A -> M S A') P Q :
  returns_iff m P -> (forall a s s', m s = (Ok a, s') -> returns_iff (k a) Q) ->
  returns_iff (m ≫= k) (P /\ Q).
Proof.
  intros Hm Hk s Hs. specialize (Hm s Hs).
  unfold mbind, M_bind. destruct (m s) as [[a|e|] s1] eqn:E; [|tauto..].
  destruct Hm as [HP HI]. specialize (Hk _ _ _ E s1 HI). destruct (k a s1) as [[] ?]; tauto.
Qed.

Lemma returns_seq {A A'} (m : M S A) (k : M S A') P Q :
  returns_iff m P -> returns_iff k Q -> returns_iff (m ;; k) (P /\ Q).
Proof. intros Hm Hk. by apply returns_bind. Qed.

Lemma returns_ret {A} (a : A) : returns_iff (mret a) True.
Proof. by intros s Hs. Qed.

Lemma returns_panic {A} : returns_iff (A := A) panic False.
Proof. intros s Hs. exact id. Qed.

Lemma returns_must {A} (r : res A) : returns_iff (must r) (is_ok r = true).
Proof. intros s Hs. unfold must. by destruct r. Qed.

Lemma returns_modify f : (forall s, I s -> I (f s)) -> returns_iff (modify f) True.
Proof. intros Hf s Hs. split; [done|auto]. Qed.

Lemma returns_forM {A} (body : A -> M S unit) (P : A -> Prop) xs :
  (forall x, returns_iff (body x) (P x)) -> returns_iff (forM body xs) (Forall P xs).
Proof.
  intros Hb. induction xs as [|x xs IH]; simpl.
  - eapply returns_weaken; [apply returns_ret|]. by rewrite Forall_nil.
  - eapply returns_weaken; [by apply returns_seq|]. by rewrite Forall_cons.
Qed.

Lemma returns_always {A} (body : A -> M S unit) xs :
  (forall x, returns_iff (body x) True) -> returns_iff (forM body xs) True.
Proof.
  intros Hb. apply (returns_weaken _ (Forall (fun _ => True) xs)); [by apply returns_forM|].
  rewrite Forall_forall. naive_solver.
Qed.

Lemma returns_guard (b : bool) : returns_iff (if b then mret tt else panic) (b = true).
Proof.
  destruct b; (eapply returns_weaken; [(apply returns_ret || apply returns_panic)|done]).
Qed.

(** The two outcomes of such code. *)
Lemma returns_outcomes {A} (m : M S A) P s : returns_iff m P -> I s ->
  ((exists a s', m s = (Ok a, s')) <-> P) /\ ((exists s', m s = (Panic, s')) <-> ~ P).
Proof.
  intros Hm Hs. specialize (Hm s Hs). destruct (m s) as [[a|e|] s1]; [destruct Hm as [HP _]|done|].
  - split; [by split; eauto|]. split; [by intros [? [=]]|done].
  - split; [|by split; eauto]. split; [by intros (? & ? & [=])|done].
Qed.
End returns.

Create HintDb returns.
#[export] Hint Resolve returns_ret returns_must returns_guard : returns.

Lemma init_text_returns {S G} `{JSONCodec G} (I : S -> Prop) (init : G -> M S unit) bz data P :
  UnmarshalJSON bz = Ok data -> returns_iff I (init data) P -> returns_iff I (init_text init bz) P.
Proof.
  intros E Hi. unfold init_text, MustUnmarshalJSON. rewrite E.
  eapply returns_weaken; [apply returns_bind|].
  - apply returns_must.
  - intros a s s' Ea%must_ok. destruct Ea as [[= <-] _]. apply returns_seq; [exact Hi|apply returns_ret].
  - cbn. tauto.
Qed.

Lemma printed_read_back {G} `{JSONCodec G} `{!JSONLaws G} (g : G) bz :
  MustMarshalJSON g = Ok bz -> UnmarshalJSON bz = Ok g.
Proof. unfold MustMarshalJSON. destruct (MarshalJSON g) eqn:E; intros [= <-]. by apply json_read_back. Qed.

Lemma validate_text_ok {G} `{JSONCodec G} validate bz :
  validate_text validate bz = Ok tt -> exists data, UnmarshalJSON bz = Ok data /\ validate data = Ok tt.
Proof. intros (data & E & Hv)%res_bind_ok. eauto. Qed.

Lemma init_text_outcomes {S G} `{JSONCodec G} (I : S -> Prop) (init : G -> M S unit) bz data P s :
  UnmarshalJSON bz = Ok data -> returns_iff I (init data) P -> I s ->
  ((exists s', init_text init bz s = (Ok [], s')) <-> P) /\
  ((exists s', init_text init bz s = (Panic, s')) <-> ~ P).
Proof.
  intros E Hi Hs. destruct (returns_outcomes I _ _ s (init_text_returns _ _ _ _ _ E Hi) Hs) as [<- <-].
  split; [|done]. split; [intros (s' & Hrun); by exists [], s'|]. intros (ups & s' & Hrun). exists s'. rewrite Hrun.
  unfold init_text in Hrun. by m_inv Hrun.
Qed.

(** ** Which accepted texts start their module *)
Section start.
Context {B K D O C : Type} `{BankOps B} `{BankMetaOps B} `{StakingOps K} `{DistrOps D} `{FeePoolOps D}.
Context `{MathOps} `{CoinOps} `{DecCoinsOps} `{CoinSortOps} `{AddrCodec}.
Context `{OracleBallot.BallotSort} `{MapRange}.

(** *** The market *)
Lemma market_pairs p : Market.Validate p = Ok tt -> forallb is_ok (Market.ParamSetPairs p) = true.
Proof.
  unfold Market.Validate, Market.ParamSetPairs, Market.validateBasePool,
    Market.validatePoolRecoveryPeriod, Market.validateMinStabilitySpread. intros E. res_inv E.
  apply orb_false_iff in C2 as [C2 C3]. by rewrite C2, C3.
Qed.

(** every text the market accepts starts it with the parameters of the text *)
Theorem market_accepted_starts `{Market.OracleKeeper O} `{JSONCodec Market.GenesisState}
    `{JSONCodec (Z * option Market.Params)} ctx bz (s : Market.State B O) :
  HasModuleAccount (B := B) Market.ModuleName = true ->
  ValidateGenesis market_module bz = Ok tt ->
  exists data s', UnmarshalJSON bz = Ok data /\ InitGenesis market_module ctx bz s = (Ok [], s') /\
    Market.GetParams s' = Some (Market.GenParams data) /\
    Market.GetDoPoolDelta s' = Market.DoPoolDelta data.
Proof.
  intros Hacc (data & E & Hv)%validate_text_ok. simpl.
  set (s1 := Market.mkState (Some (Market.GenParams data)) (Market.st_delta s) (Market.st_bank s) (Market.st_oracle s)).
  exists data, (Market.SetDoPoolDelta ctx (Market.DoPoolDelta data) s1).2.
  split; [done|]. unfold init_text, MustUnmarshalJSON, must. rewrite E.
  unfold mbind, M_bind at 1 2, Market.InitGenesis, Market.SetParams.
  unfold mbind, M_bind at 1. rewrite (market_pairs _ Hv). fold s1. unfold M_bind. rewrite Hacc. simpl.
  split; [done|]. unfold Market.GetDoPoolDelta, Market.GetParams.
  case_match eqn:Hc; [|done]. apply andb_true_iff in Hc as [_ Hd%bool_decide_eq_true]. simpl in *. by rewrite Hd.
Qed.

(** *** Multi-factor approval *)
Lemma policies_start policies : forall seen (s : Mfa.State), Mfa.validate_policies seen policies = Ok tt ->
  exists s', forM (fun p s => match Mfa.SetPolicy p s with (Err _, s') => (Panic, s') | r => r end) policies s
    = (Ok tt, s') /\
    (forall p, p ∈ policies -> s' !! Mfa.po_Account p = Some p) /\
    (forall k, k ∈ seen -> s' !! k = s !! k).
Proof.
  induction policies as [|p policies IH]; intros seen s Hv; simpl.
  { exists s. split; [done|]. split; [by intros p ?%elem_of_nil|done]. }
  simpl in Hv. res_inv Hv. destruct v. apply bool_decide_eq_false in C0.
  destruct (IH _ (<[Mfa.po_Account p := p]> s) Hv) as (s' & Hrun & Hin & Hk). exists s'.
  unfold mbind at 1, M_bind at 1, Mfa.SetPolicy, mbind, M_bind, lift. rewrite E. simpl. split; [exact Hrun|]. split.
  - intros q [->|Hq]%elem_of_cons; [|auto]. rewrite Hk by set_solver. apply lookup_insert_eq.
  - intros k Hs. rewrite Hk by set_solver. apply lookup_insert_ne. set_solver.
Qed.

(** every text multi-factor approval accepts starts it, and stores each of its
    policies; the empty text is accepted *)
Theorem mfa_accepted_starts `{JSONCodec (list Mfa.Policy)} ctx bz (s : Mfa.State) :
  ValidateGenesis mfa_module bz = Ok tt ->
  exists policies s', mfa_read bz = Ok policies /\ InitGenesis mfa_module ctx bz s = (Ok [], s') /\
    forall p, p ∈ policies -> s' !! Mfa.po_Account p = Some p.
Proof.
  intros (policies & E & Hv)%res_bind_ok.
  destruct (policies_start _ _ s Hv) as (s' & Hrun & Hin & _). exists policies, s'. split; [done|].
  split; [|done]. simpl. rewrite E. unfold mbind, M_bind at 1 2, must at 1, Mfa.InitGenesis.
  unfold mbind, M_bind at 1, must. rewrite Hv. by rewrite Hrun.
Qed.

(** *** The commission policy *)

(** every text is accepted by the commission policy, also one that cannot be
    read or whose parameters are refused, on which the module panics *)
Theorem dyncomm_accepts_any_text `{Dyncomm.CommissionKeeper C} `{JSONCodec Dyncomm.GenesisState}
    ctx bz (s : Dyncomm.State C) :
  ValidateGenesis (dyncomm_module (C := C)) bz = Ok tt /\
  ((forall data, UnmarshalJSON bz = Ok data ->
      forallb is_ok (Dyncomm.ParamSetPairs (Dyncomm.GenParams data)) = false) ->
   InitGenesis dyncomm_module ctx bz s = (Panic, s)).
Proof.
  split; [done|]. intros Hbad. simpl. unfold init_text, MustUnmarshalJSON, must, mbind, M_bind.
  destruct (UnmarshalJSON bz) as [data| |] eqn:E; [|done..].
  unfold Dyncomm.InitGenesis, Dyncomm.SetParams, mbind, M_bind. by rewrite (Hbad _ eq_refl).
Qed.

(** *** The oracle *)
Lemma oracle_pairs p : 0 <= OracleState.p_VotePeriod p -> OracleState.Validate p = Ok tt ->
  (forallb is_ok (OracleState.ParamSetPairs p) = true <-> OracleState.p_VoteThreshold p <= LegacyOneDec).
Proof.
  unfold OracleState.Validate. intros Hu E. repeat (case_match; [discriminate E|]). zbool.
  repeat match goal with X : OracleState.outside_unit _ = false |- _ =>
    apply orb_false_iff in X; destruct X end. zbool.
  unfold OracleState.ParamSetPairs, OracleState.validateVotePeriod, OracleState.validateVoteThreshold,
    OracleState.validateRewardBand, OracleState.validateRewardDistributionWindow,
    OracleState.validateWhitelist, OracleState.validateSlashFraction, OracleState.validateSlashWindow,
    OracleState.validateMinValidPerWindow. rewrite E. simpl.
  repeat (case_match; zbool; try lia); simpl; split; (done || lia).
Qed.

(** All addresses of a genesis can be read. *)
Definition val_readable (addr : string) : Prop := is_ok (ValAddressFromBech32 addr) = true.
Definition acc_readable (addr : string) : Prop := is_ok (AccAddressFromBech32 addr) = true.
Definition oracle_readable (data : OracleState.GenesisState) : Prop :=
  Forall (fun d => val_readable (OracleState.fd_ValidatorAddress d) /\
                   acc_readable (OracleState.fd_FeederAddress d)) (OracleState.g_FeederDelegations data) /\
  Forall (fun mc => val_readable (OracleState.mc_ValidatorAddress mc)) (OracleState.g_MissCounters data) /\
  Forall (fun ap => val_readable (OracleState.pv_Voter ap)) (OracleState.g_Prevotes data) /\
  Forall (fun av => val_readable (OracleState.av_Voter av)) (OracleState.g_Votes data).

Lemma returns_must_then {S A} (r : res A) (k : A -> M S unit) :
  (forall a, returns_iff (fun _ => True) (k a) True) ->
  returns_iff (fun _ => True) (v ← must r; k v) (is_ok r = true).
Proof.
  intros Hk. apply (returns_weaken _ _ (is_ok r = true /\ True)); [|tauto].
  apply returns_bind; [apply returns_must|auto].
Qed.

Lemma returns_write {S} (f : S -> S) : returns_iff (fun _ => True) (modify f) True.
Proof. by apply returns_modify. Qed.

Lemma oracle_init_returns data : 0 <= OracleState.p_VotePeriod (OracleState.g_Params data) ->
  HasModuleAccount (B := B) OracleState.ModuleName = true -> OracleState.ValidateGenesis data = Ok tt ->
  returns_iff (fun _ => True) (OracleState.InitGenesis (B := B) (K := K) (D := D) data)
    (oracle_readable data /\ OracleState.p_VoteThreshold (OracleState.g_Params data) <= LegacyOneDec).
Proof.
  intros Hu Hacc Hv. unfold OracleState.InitGenesis.
  eapply returns_weaken.
  - repeat apply returns_seq.
    + apply returns_forM. intros d. apply returns_bind; [apply returns_must|]. intros voter _ _ _.
      apply returns_must_then. intros feeder. apply returns_write.
    + apply returns_always. intros ex. apply returns_write.
    + apply returns_forM. intros mc. apply returns_must_then. intros operator. apply returns_write.
    + apply returns_forM. intros ap. apply returns_must_then. intros valAddr. apply returns_write.
    + apply returns_forM. intros av. apply returns_must_then. intros valAddr. apply returns_write.
    + instantiate (1 := True). destruct (Nat.ltb _ _); apply returns_always; intros x; apply returns_write.
    + instantiate (1 := forallb is_ok (OracleState.ParamSetPairs (OracleState.g_Params data)) = true).
      intros s _. unfold OracleState.SetParams. by destruct (forallb _ _).
    + apply returns_guard.
  - rewrite (oracle_pairs _ Hu Hv), Hacc. unfold oracle_readable, val_readable, acc_readable. tauto.
Qed.

(** a text the oracle accepts starts it exactly when every address in it can
    be read and the vote threshold is at most one, neither of which
    [ValidateGenesis] looks at; otherwise the start of the chain panics *)
Theorem oracle_accepted_starts `{JSONCodec OracleState.GenesisState} distrName ctx bz data
    (s : OracleState.State B K D) :
  HasModuleAccount (B := B) OracleState.ModuleName = true ->
  ValidateGenesis (oracle_module (B := B) (K := K) (D := D) distrName) bz = Ok tt ->
  UnmarshalJSON bz = Ok data -> 0 <= OracleState.p_VotePeriod (OracleState.g_Params data) ->
  let startable := oracle_readable data /\
    OracleState.p_VoteThreshold (OracleState.g_Params data) <= LegacyOneDec in
  ((exists s', InitGenesis (oracle_module distrName) ctx bz s = (Ok [], s')) <-> startable) /\
  ((exists s', InitGenesis (oracle_module distrName) ctx bz s = (Panic, s')) <-> ~ startable).
Proof.
  intros Hacc (data' & E & Hv)%validate_text_ok E' Hu. rewrite E in E'. injection E' as ->.
  by apply (init_text_outcomes _ _ _ _ _ _ E (oracle_init_returns _ Hu Hacc Hv)).
Qed.

(** *** The treasury *)

(** The two parameters [Validate] does not look at. *)
Definition treasury_unchecked (p : Treasury.Params) : Prop :=
  (exists v, Treasury.p_BurnTaxSplit p = Some v /\ 0 <= v) /\
  (exists v, Treasury.p_MinInitialDepositRatio p = Some v /\ 0 <= v <= LegacyOneDec).

Lemma treasury_pairs p : Treasury.Validate p = Ok tt ->
  (forallb is_ok (Treasury.ParamSetPairs p) = true <-> treasury_unchecked p).
Proof.
  unfold Treasury.Validate. intros E. res_inv E. zbool.
  unfold treasury_unchecked, Treasury.ParamSetPairs, Treasury.validateTaxPolicy, Treasury.validateRewardPolicy,
    Treasury.validateSeigniorageBurdenTarget, Treasury.validateMiningIncrement, Treasury.validateOraceSplit.
  repeat match goal with X : Treasury.nil_deref _ = Ok _ |- _ => rewrite X; clear X end. cbn [mbind res_bind].
  repeat match goal with |- context [?a <? ?b] => rewrite (proj2 (Z.ltb_ge a b)) by lia end.
  match goal with X : CoinIsValid _ = true |- _ => rewrite X end.
  destruct (Treasury.p_BurnTaxSplit p) as [b|], (Treasury.p_MinInitialDepositRatio p) as [d|];
    cbn; unfold Treasury.validateBurnTaxSplit, Treasury.validateMinInitialDepositRatio;
    (split; [intros Hb|intros [(b' & [= <-] & ?) (d' & [= <-] & ?)]]); try by repeat case_match.
  - repeat case_match; try done. zbool. split; eexists; (split; [reflexivity|lia]).
  - by rewrite !(proj2 (Z.ltb_ge _ _)) by lia.
Qed.

(** Among the coins of the initial issuance no amount is missing before the
    first one that is not zero; without such a coin the supply of the
    whitelisted denominations is recorded. *)
Definition issuance_readable `{Treasury.TreasuryKeepers O} (cs : list Treasury.GenCoin) (o : O) : Prop :=
  (exists l1 c l2 x, cs = l1 ++ c :: l2 /\ Forall (fun c => Treasury.gc_Amount c = Some 0) l1 /\
     Treasury.gc_Amount c = Some x /\ x <> 0) \/
  (Forall (fun c => Treasury.gc_Amount c = Some 0) cs /\ is_ok (Treasury.Whitelist o) = true).

Definition treasury_startable `{Treasury.TreasuryKeepers O} (data : Treasury.GenesisState) (o : O) : Prop :=
  treasury_unchecked (Treasury.gs_Params data) /\
  issuance_readable (Treasury.gs_EpochInitialIssuance data) o.

Lemma issuance_zero cs :
  match Treasury.GenCoinsIsZero cs with
  | Ok true => Forall (fun c => Treasury.gc_Amount c = Some 0) cs
  | Ok false => exists l1 c l2 x, cs = l1 ++ c :: l2 /\
      Forall (fun c => Treasury.gc_Amount c = Some 0) l1 /\ Treasury.gc_Amount c = Some x /\ x <> 0
  | Err _ => False
  | Panic => exists l1 c l2, cs = l1 ++ c :: l2 /\
      Forall (fun c => Treasury.gc_Amount c = Some 0) l1 /\ Treasury.gc_Amount c = None
  end.
Proof.
  induction cs as [|c cs IH]; simpl; [constructor|].
  destruct (Treasury.gc_Amount c) as [x|] eqn:E; cbn; [|by exists [], c, cs].
  destruct (Z.eqb_spec x 0) as [->|Hx]; [|by exists [], c, cs, x].
  destruct (Treasury.GenCoinsIsZero cs) as [[]|e|]; [by constructor| |done|].
  - destruct IH as (l1 & d & l2 & y & -> & Hl & Hd). exists (c :: l1), d, l2, y. split_and!; [done|by constructor|apply Hd..].
  - destruct IH as (l1 & d & l2 & -> & Hl & Hd). exists (c :: l1), d, l2. split_and!; [done|by constructor|done].
Qed.

(** The first coin that is not a present zero is unique. *)
Lemma first_unique (l1 l1' l2 l2' : list Treasury.GenCoin) c c' : l1 ++ c :: l2 = l1' ++ c' :: l2' ->
  Forall (fun c => Treasury.gc_Amount c = Some 0) l1 -> Forall (fun c => Treasury.gc_Amount c = Some 0) l1' ->
  Treasury.gc_Amount c <> Some 0 -> Treasury.gc_Amount c' <> Some 0 -> c = c'.
Proof.
  revert l1'. induction l1 as [|d l1 IH]; intros [|d' l1'] E Hl Hl' Hc Hc'; simpl in E; injection E as -> E.
  - done.
  - by apply Forall_cons in Hl' as [? _].
  - by apply Forall_cons in Hl as [? _].
  - apply Forall_cons in Hl as [_ Hl], Hl' as [_ Hl']. eauto.
Qed.

Lemma issuance_returns `{Treasury.TreasuryKeepers O} cs o (rest : M (Treasury.State B K D O) unit) Q :
  let I := fun s : Treasury.State B K D O => Treasury.st_keepers s = o in
  returns_iff I rest Q ->
  returns_iff I
    (zero ← lift (Treasury.GenCoinsIsZero cs);
     (if zero : bool then Treasury.RecordEpochInitialIssuance
      else Treasury.SetEpochInitialIssuance (map Treasury.encoded_coin cs)) ;; rest)
    (issuance_readable cs o /\ Q).
Proof.
  intros I Hrest s Hs. pose proof (issuance_zero cs) as Hz. unfold mbind at 1, M_bind at 1, lift.
  destruct (Treasury.GenCoinsIsZero cs) as [[]|e|]; [| |done|].
  - revert s Hs. fold (returns_iff I (Treasury.RecordEpochInitialIssuance ;; rest) (issuance_readable cs o /\ Q)).
    eapply returns_weaken; [apply returns_seq; [|exact Hrest]|].
    + instantiate (1 := is_ok (Treasury.Whitelist o) = true). intros s Hs.
      unfold Treasury.RecordEpochInitialIssuance, mbind, M_bind, get, must. rewrite (Hs : _ = o).
      by destruct (Treasury.Whitelist o).
    + unfold issuance_readable. split; [tauto|]. intros [[(l1 & c & l2 & x & -> & _ & Hc & Hx)|[_ Hw]] HQ]; [|done].
      exfalso. apply Forall_app in Hz as [_ Hz]. apply Forall_cons in Hz as [Hz _]. congruence.
  - revert s Hs. fold (returns_iff I (Treasury.SetEpochInitialIssuance (B := B) (K := K) (D := D) (map Treasury.encoded_coin cs) ;; rest) (issuance_readable cs o /\ Q)).
    eapply returns_weaken; [apply returns_seq; [by apply returns_modify|exact Hrest]|].
    unfold issuance_readable. tauto.
  - intros [[(l1 & c & l2 & x & E & Hl & Hc & Hx)|[Hall _]] _]; destruct Hz as (l1' & c' & l2' & E' & Hl' & Hc').
    + rewrite E in E'. apply first_unique in E' as <-; [congruence|done|done|congruence|congruence].
    + subst. apply Forall_app in Hall as [_ Hall]. apply Forall_cons in Hall as [Hall _]. congruence.
Qed.

Lemma treasury_init_returns `{Treasury.TreasuryKeepers O} data o :
  HasModuleAccount (B := B) Treasury.ModuleName = true ->
  HasModuleAccount (B := B) Treasury.BurnModuleName = true -> Treasury.ValidateGenesis data = Ok tt ->
  returns_iff (fun s => Treasury.st_keepers s = o)
    (Treasury.InitGenesis (B := B) (K := K) (D := D) (O := O) data) (treasury_startable data o).
Proof.
  intros Hacc Hburn Hv. unfold Treasury.InitGenesis. eapply returns_weaken.
  - apply returns_seq.
    { instantiate (1 := forallb is_ok (Treasury.ParamSetPairs (Treasury.gs_Params data)) = true).
      intros s Hs. unfold Treasury.SetParams. by destruct (forallb _ _). }
    do 3 (apply returns_seq; [by apply returns_modify|]). apply issuance_returns.
    apply returns_seq; [apply returns_always; intros cap; by apply returns_modify|].
    apply returns_seq; [|apply returns_seq; apply returns_guard].
    apply returns_always. intros e. unfold Treasury.set_epoch.
    eapply returns_weaken; [repeat apply returns_seq; by apply returns_modify|tauto].
  - rewrite treasury_pairs, Hacc, Hburn; [unfold treasury_startable; tauto|].
    unfold Treasury.ValidateGenesis in Hv. by res_inv Hv.
Qed.

(** C36: a text the treasury accepts starts it exactly when three things
    [ValidateGenesis] does not look at are in order: burn tax split and
    minimal initial deposit are present and in their range, no amount of the
    initial issuance is missing before the first that is not zero, and the
    whitelist can be read where there is no such amount; otherwise the start
    of the chain panics. *)
Theorem treasury_accepted_starts `{Treasury.TreasuryKeepers O} `{JSONCodec Treasury.GenesisState}
    ctx bz data (s : Treasury.State B K D O) :
  HasModuleAccount (B := B) Treasury.ModuleName = true ->
  HasModuleAccount (B := B) Treasury.BurnModuleName = true ->
  ValidateGenesis (treasury_module (B := B) (K := K) (D := D) (O := O)) bz = Ok tt ->
  UnmarshalJSON bz = Ok data ->
  ((exists s', InitGenesis treasury_module ctx bz s = (Ok [], s')) <->
   treasury_startable data (Treasury.st_keepers s)) /\
  ((exists s', InitGenesis treasury_module ctx bz s = (Panic, s')) <->
   ~ treasury_startable data (Treasury.st_keepers s)).
Proof.
  intros Hacc Hburn (data' & E & Hv)%validate_text_ok E'. rewrite E in E'. injection E' as ->.
  by apply (init_text_outcomes _ _ _ _ _ _ E (treasury_init_returns _ _ Hacc Hburn Hv)).
Qed.

(** *** DODx staking *)
Context `{!BankLaws B} `{!MathLaws} `{!CoinLaws} `{!AddrLaws}.

Lemma init_record_run stake a (s : DodxStaking.State B) :
  AccAddressFromBech32 (DodxStaking.Address stake) = Ok a ->
  int_safe (DodxStaking.GetTotalStakedAmount s + Amount (DodxStaking.RecAmount stake)) ->
  DodxStaking.init_record stake s = (Ok tt, DodxStaking.updated s a (Amount (DodxStaking.RecAmount stake))
    (DodxStaking.GetTotalStakedAmount s + Amount (DodxStaking.RecAmount stake))).
Proof.
  intros Ha Hs. unfold DodxStaking.init_record. rewrite Ha.
  erewrite (M_bind_run (DodxStaking.SetStakeAmount _ _)) by done. erewrite (M_bind_run (gets _)) by done.
  change (DodxStaking.GetTotalStakedAmount (DodxStaking.mkState _ _ _ _)) with (DodxStaking.GetTotalStakedAmount s).
  erewrite (M_bind_run (lift _)); [|unfold lift; by rewrite IntAdd_ok]. done.
Qed.

Lemma records_nonneg l : forall seen, DodxStaking.validate_records seen l = Ok tt -> 0 <= DodxStaking.record_total l.
Proof.
  unfold DodxStaking.record_total, Zsum. induction l as [|r l IH]; intros seen Hv; simpl; [lia|].
  simpl in Hv. res_inv Hv. apply IH in Hv. zbool. lia.
Qed.

Lemma init_records_run l : forall seen (s : DodxStaking.State B),
  DodxStaking.validate_records seen l = Ok tt -> 0 <= DodxStaking.GetTotalStakedAmount s ->
  int_safe (DodxStaking.GetTotalStakedAmount s + DodxStaking.record_total l) ->
  exists s', forM DodxStaking.init_record l s = (Ok tt, s').
Proof.
  induction l as [|r l IH]; intros seen s Hv H0' Hs; [by exists s|].
  simpl in Hv. res_inv Hv. pose proof (records_nonneg _ _ Hv) as Hn. zbool.
  change (DodxStaking.record_total (r :: l)) with (Amount (DodxStaking.RecAmount r) + DodxStaking.record_total l) in Hs.
  simpl. erewrite M_bind_run; [|apply init_record_run; [exact E|unfold int_safe in *; lia]].
  eapply IH; [exact Hv|..]; rewrite DodxStaking.GetTotal_updated; [lia|]. by rewrite <- Z.add_assoc.
Qed.

Lemma init_text_run {S G} `{JSONCodec G} (init : G -> M S unit) bz data s ups s' :
  UnmarshalJSON bz = Ok data ->
  init_text init bz s = (Ok ups, s') <-> ups = [] /\ init data s = (Ok tt, s').
Proof.
  intros E. unfold init_text, MustUnmarshalJSON, must, mbind, M_bind. rewrite E.
  destruct (init data s) as [[[]|e|] s1]; split; try (by intros [=]); try (by intros [_ [=]]).
  - by intros [= <- <-].
  - by intros [-> [= ->]].
Qed.

(** a text DODx staking accepts starts it exactly when its stakes add up to a
    number of 256 bits, and then the recorded total is their sum and every
    invariant of the stakes holds *)
Theorem dodx_accepted_starts `{JSONCodec DodxStaking.GenesisState} ctx bz data (b : B) :
  ValidateGenesis (dodx_module (B := B)) bz = Ok tt -> UnmarshalJSON bz = Ok data ->
  ((exists s', InitGenesis dodx_module ctx bz (DodxStaking.blank b) = (Ok [], s')) <->
   int_safe (DodxStaking.record_total (DodxStaking.Stakes data))) /\
  (forall ups s', InitGenesis dodx_module ctx bz (DodxStaking.blank b) = (Ok ups, s') ->
   DodxStaking.inv s' /\
   DodxStaking.GetTotalStakedAmount s' = DodxStaking.record_total (DodxStaking.Stakes data)).
Proof.
  intros (data' & E & Hv)%validate_text_ok E'. rewrite E in E'. injection E' as ->. simpl.
  assert (forall ups s', init_text DodxStaking.InitGenesis bz (DodxStaking.blank b) = (Ok ups, s') ->
    DodxStaking.inv s' /\ DodxStaking.GetTotalStakedAmount s' = DodxStaking.record_total (DodxStaking.Stakes data)) as Hinv.
  { intros ups s' [_ Hrun]%(init_text_run _ _ _ _ _ _ E).
    destruct (DodxStaking.InitGenesis_inv _ _ _ _ Hv Hrun) as (I & Ht & _). done. }
  split; [split|done].
  - intros [s' Hrun]. destruct (Hinv _ _ Hrun) as [I Ht]. rewrite <- Ht. apply I.
  - intros Hs. destruct (init_records_run _ _ (DodxStaking.blank b) Hv) as [s' Hrun]; [done|done|].
    exists (DodxStaking.mkState (DodxStaking.st_stakes s') (DodxStaking.st_total s')
      (DodxStaking.GenGovernanceEnabled data) (DodxStaking.st_bank s')).
    apply (init_text_run _ _ _ _ _ _ E). split; [done|].
    unfold DodxStaking.InitGenesis. by rewrite (M_bind_run _ _ _ _ _ Hrun).
Qed.

(** what DODx staking exports, if it can be printed, is accepted and starts
    the module with the stakes, the total and the flag that were exported *)
Theorem dodx_export_restarts `{JSONCodec DodxStaking.GenesisState} `{!JSONLaws DodxStaking.GenesisState}
    ctx ctx' (s : DodxStaking.State B) bz (b : B) :
  DodxStaking.inv s -> ExportGenesis dodx_module ctx s = Ok bz ->
  ValidateGenesis (dodx_module (B := B)) bz = Ok tt /\
  InitGenesis dodx_module ctx' bz (DodxStaking.blank b) = (Ok [], DodxStaking.with_bank s b).
Proof.
  intros I E. destruct (DodxStaking.genesis_roundtrip s b I) as (data & Hx & Hv & Hi).
  simpl in E. rewrite Hx in E. apply printed_read_back in E. split.
  - simpl. unfold validate_text. by rewrite E.
  - by apply (init_text_run _ _ _ _ _ _ E).
Qed.

(** the printed default of every module is accepted by that module *)
Theorem defaults_accepted `{Market.OracleKeeper O} `{Treasury.TreasuryKeepers O} `{Dyncomm.CommissionKeeper C}
    `{JSONCodec OracleState.GenesisState} `{JSONCodec Market.GenesisState} `{JSONCodec (Z * option Market.Params)}
    `{JSONCodec Treasury.GenesisState} `{JSONCodec DodxStaking.GenesisState} `{JSONCodec Dyncomm.GenesisState}
    `{JSONCodec (list Mfa.Policy)} `{!JSONLaws OracleState.GenesisState} `{!JSONLaws Market.GenesisState}
    `{!JSONLaws Treasury.GenesisState} `{!JSONLaws DodxStaking.GenesisState} `{!JSONLaws (list Mfa.Policy)}
    distrName :
  let accepted {S} (m : AppModule S) := forall bz, DefaultGenesis m = Ok bz -> ValidateGenesis m bz = Ok tt in
  CoinIsValid (Treasury.Cap Treasury.DefaultTaxPolicy) = true ->
  accepted (oracle_module (B := B) (K := K) (D := D) distrName) /\
  accepted (market_module (B := B) (O := O)) /\
  accepted (treasury_module (B := B) (K := K) (D := D) (O := O)) /\
  accepted (dodx_module (B := B)) /\
  accepted (dyncomm_module (C := C)) /\
  accepted mfa_module /\ vesting_ValidateGenesis vesting_DefaultGenesis = Ok tt.
Proof.
  intros accepted Hcap. unfold accepted. split_and!; try done.
  1-4: intros bz E%printed_read_back; simpl; unfold validate_text; rewrite E; cbn [mbind res_bind]; try reflexivity.
  - vm_compute in Hcap |- *. by rewrite Hcap.
  - intros bz E%printed_read_back. simpl. unfold mfa_read. by case_match; rewrite ?E.
Qed.
End start.

(** ** Witnesses: a codec that knows one text, and a genesis per module *)
Module Example.
Definition one_text {G} `{EqDecision G} (g : G) : JSONCodec G := {|
  MarshalJSON g' := if decide (g' = g) then Ok "text" else Err (Foreign "json");
  UnmarshalJSON bz := if String.eqb bz "text" then Ok g else Err (Foreign "json");
|}.

Lemma one_text_laws {G} `{EqDecision G} (g : G) : @JSONLaws G (one_text g).
Proof. split. simpl. intros g' bz. case_decide as Hg; [|done]. intros [= <-]. by rewrite Hg. Qed.

#[export] Instance record_eq_dec : EqDecision DodxStaking.StakeRecord.
Proof. solve_decision. Defined.
#[export] Instance genesis_eq_dec : EqDecision DodxStaking.GenesisState.
Proof. solve_decision. Defined.

(** The oracle's default with a delegation of a mistyped validator. *)
Definition typo : OracleState.GenesisState :=
  OracleState.mkGenesisState OracleState.DefaultParams [] [OracleState.mkFeederDelegation "do1kim" "doval"] [] [] [] [].
(** The treasury's default with a negative burn tax split. *)
Definition negative : Treasury.GenesisState :=
  let p := Treasury.DefaultParams in
  Treasury.mkGenesisState (Treasury.mkParams (Treasury.p_TaxPolicy p) (Treasury.p_RewardPolicy p)
    (Treasury.p_SeigniorageBurdenTarget p) (Treasury.p_MiningIncrement p) (Treasury.p_WindowShort p)
    (Treasury.p_WindowLong p) (Treasury.p_WindowProbation p) (Some (-1)) (Treasury.p_MinInitialDepositRatio p)
    (Treasury.p_OracleSplit p)) (Some Treasury.DefaultTaxRate) (Some Treasury.DefaultRewardWeight) [] [] [] [].
(** Reading only, for states that are never printed here. *)
Definition reads {G} (g : G) : JSONCodec G := {|
  MarshalJSON _ := Err (Foreign "json");
  UnmarshalJSON bz := if String.eqb bz "text" then Ok g else Err (Foreign "json");
|}.
Definition first_block : Ctx := mkCtx 1 0 "test" false false.
Definition oracle_empty : OracleState.Example.St := OracleState.mkState None ∅ ∅ ∅ ∅ ∅ ∅ OracleState.Example.bank0 [] [].
Definition exported : DodxStaking.GenesisState :=
  DodxStaking.mkGenesisState [DodxStaking.mkStakeRecord "do1alice" (mkCoin "udodx" 5);
    DodxStaking.mkStakeRecord "do1bob" (mkCoin "udodx" 7)] true.

#[export] Instance oracle_text : JSONCodec OracleState.GenesisState := reads typo.
#[export] Instance treasury_text : JSONCodec Treasury.GenesisState := reads negative.
#[export] Instance market_text : JSONCodec Market.GenesisState := reads Market.DefaultGenesisState.
#[export] Instance market_export : JSONCodec (Z * option Market.Params) := reads (0, None).
#[export] Instance mfa_text : JSONCodec (list Mfa.Policy) := reads [Mfa.Example.policy].
#[export] Instance dyncomm_text : JSONCodec Dyncomm.GenesisState := reads Dyncomm.DefaultGenesisState.
#[export] Instance dodx_text : JSONCodec DodxStaking.GenesisState := one_text exported.
#[export] Instance dodx_text_laws : JSONLaws DodxStaking.GenesisState := one_text_laws exported.
End Example.
#[local] Existing Instances OracleBallot.ref_sort Dyncomm.ref_commission Example.oracle_text Example.treasury_text Example.market_text
  Example.market_export Example.mfa_text Example.dyncomm_text Example.dodx_text Example.dodx_text_laws
  OracleState.market_oracle Treasury.treasury_keepers.

Lemma oracle_accepted_starts_witness :
  exists s', InitGenesis (oracle_module "distribution") Example.first_block "text" Example.oracle_empty = (Panic, s').
Proof.
  apply (oracle_accepted_starts "distribution" Example.first_block "text" Example.typo Example.oracle_empty);
    [reflexivity|vm_compute; reflexivity|reflexivity|vm_compute; discriminate|].
  intros [[Hf _] _]. apply Forall_cons in Hf as [[Hv _] _]. discriminate Hv.
Defined.

Lemma treasury_accepted_starts_witness :
  exists s', InitGenesis treasury_module Example.first_block "text" Treasury.Example.empty = (Panic, s').
Proof.
  apply (treasury_accepted_starts Example.first_block "text" Example.negative Treasury.Example.empty);
    [reflexivity|reflexivity|vm_compute; reflexivity|reflexivity|].
  intros [[(v & [= <-] & Hv) _] _]. apply Hv. reflexivity.
Defined.

Lemma market_accepted_starts_witness :
  exists s', InitGenesis market_module Example.first_block "text" Treasury.Example.market0 = (Ok [], s') /\
    Market.GetDoPoolDelta s' = 0.
Proof.
  destruct (market_accepted_starts Example.first_block "text" Treasury.Example.market0)
    as (data & s' & [= <-] & Hrun & _ & Hd); [reflexivity|vm_compute; reflexivity|].
  exists s'. split; [exact Hrun|exact Hd].
Defined.

Lemma mfa_accepted_starts_witness :
  exists s' : Mfa.State, InitGenesis mfa_module Example.first_block "text" ∅ = (Ok [], s') /\
    s' !! "do1kim" = Some Mfa.Example.policy.
Proof.
  destruct (mfa_accepted_starts Example.first_block "text" ∅) as (ps & s' & [= <-] & Hrun & Hp);
    [vm_compute; reflexivity|].
  exists s'. split; [exact Hrun|]. apply (Hp Mfa.Example.policy), list_elem_of_here.
Defined.

Lemma dyncomm_accepts_any_text_witness :
  InitGenesis dyncomm_module Example.first_block "nonsense" Dyncomm.Example.start
  = (Panic, Dyncomm.Example.start).
Proof. apply dyncomm_accepts_any_text. intros data [=]. Defined.

Lemma dodx_accepted_starts_witness :
  exists s', InitGenesis dodx_module Example.first_block "text" (DodxStaking.blank DodxStaking.Example.bank0) = (Ok [], s').
Proof.
  apply (dodx_accepted_starts Example.first_block "text" Example.exported DodxStaking.Example.bank0);
    [vm_compute; reflexivity|reflexivity|vm_compute; reflexivity].
Defined.

Lemma dodx_export_restarts_witness :
  InitGenesis dodx_module Example.first_block "text" (DodxStaking.blank DodxStaking.Example.bank0)
  = (Ok [], DodxStaking.with_bank DodxStaking.Example.later DodxStaking.Example.bank0).
Proof.
  apply (dodx_export_restarts Example.first_block Example.first_block DodxStaking.Example.later);
    [apply DodxStaking.Example.later_inv|vm_compute; reflexivity].
Defined.
